(* ===== verification/_CoqProject ===== *)
-Q . S2P
Prelude.v
PyStr.v
DecimalValues.v
Timeframes.v
Identity.v
Gaps.v
Candles.v
StreamState.v
Instruments.v
OpenInterest.v
Storage.v
AbsStore.v
Ingest.v
ImportWindow.v
UseCase.v
Backfill.v
LowerBound.v
FullBootstrap.v
Repair.v
OpenInterestTrack.v
Sqlite.v
SqliteRefinement.v
Schema.v
Provenance.v
ConsumerRead.v
HistoryPlanning.v
RealtimeFacts.v
Supervisor.v
Continuity.v
LifecycleUpdate.v
RealtimeRecovery.v
RuntimeStatus.v
PyFloat.v
RecoveryWorker.v
Coordinator.v
Reconciliation.v
HistoricalWorker.v
Progress.v
CatchUp.v
BackfillProgress.v
Json.v
BybitRest.v
BybitWebSocket.v
Connector.v
Delivery.v
Http.v
OpenApi.v
HttpConformance.v
JsonText.v
HttpServer.v
Prefetch.v
Diagnostics.v
Settings.v
Service.v
SettingsUse.v
Shell.v
TaskGroups.v
Wiring.v
Commands.v
Smoke.v
SmokeProgress.v
FakeBybit.v
ContainerSmoke.v
