(* ===== verification/Prelude.v ===== *)
(** * Market Data Service: a verification library

    The service under src/src/market_data_service/ keeps the closed candles (and, for flagged
    streams, the open interest) of configured Bybit instruments in a SQLite database: it imports
    their history over REST, follows them over a WebSocket, repairs what it finds missing, and
    serves a range to a consumer only when nothing in it is missing.  This library translates that
    code, file by file, and proves what its parts promise each other.  Names are those of the
    source; a record field carries a prefix of its record, an exception class the prefix [Exc].

    ** How code is translated

    Integers are unbounded, as in Python, except where SQLite binds them: an operation with an
    integer outside the signed 64 bits raises [OverflowError] (Sqlite.v); a float is a binary64 number (PyFloat.v); text is a
    string of bytes, which is exact for the ASCII text the code accepts (PyStr.v).  Code that only
    computes is a function into [res] (a value or an exception with its class and message).  A use
    case is a program [M] of Storage.v: a finite tree of the calls it makes on the unit of work, the
    clock and the market data source, so its order of calls, its exceptions and the life of its
    transactions are those of the code; the class [Env] answers the source and the clock, and
    [EnvOk] is the contract of the port they implement.  Code with state of its own is a function
    from its state to a result and the state, kept when it raises ([StRes] below, [SM] of
    Supervisor.v, [CM] of Coordinator.v).  Tasks of the event loop are relations of atomic steps,
    one between two awaits, so that what is proved of them holds of every interleaving; objects two
    tasks share (intents, the states of a bar) are addresses in a store.

    ** The files, from the values to the process

    Values (domain/, config/): DecimalValues (exact decimals), Timeframes (grids and windows),
    Identity, Gaps (gaps, fetch windows, continuity), Candles (validation, classification),
    StreamState (lifecycle, readiness), Instruments (coverages, plans, the configuration loader),
    OpenInterest.

    Storage: Storage is the port, AbsStore its specification (one record per stream, no rows or
    SQL), Sqlite the adapter over tables, SqliteRefinement the simulation between them, which
    carries every use case from one to the other: over SQLite a use case does what it does over the
    abstract store with the integers of a database, and over the abstract store itself as long as
    the integers it passes fit.  Theorems stated over [AbsStore] are theorems about the service with
    its database under that condition, which every time in milliseconds meets for some 292 million
    years; where a consumer can pass any integer, the theorem covers the overflow
    ([get_candle_range_exact], [http_conforms]).  Schema is the creation and the migrations of the
    database.

    History (application/): Ingest (one observation), ImportWindow, Backfill, LowerBound,
    FullBootstrap, Repair (audit and gap repair), OpenInterestTrack (the same for open interest),
    UseCase (failures, and the invariants every use case keeps).  Repair and lower-bound discovery
    are written against interfaces (classes of laws such as [RepairPromise], [LowerBoundSafe],
    [ProbeSafe]) that the candle track and the open interest track both implement.
    Progress (audit, repair and startup passes) and BackfillProgress say what they achieve over an
    exchange that answers every fetchable window in full ([HonestExchange]).

    Consumers: ConsumerRead, HistoryPlanning, Provenance (the hash of a range), Http (router,
    handlers), OpenApi and HttpConformance (the published document and that every answer conforms),
    JsonText (JSON text and a reader of it), HttpServer (what is read and written on the line).

    Realtime: RealtimeFacts and Supervisor (what is known of each stream), Continuity (the
    supervisor beside the stores its reports are about), LifecycleUpdate and RealtimeRecovery (one
    recovery), RuntimeStatus (lifecycle, admission, published status), RecoveryWorker (the queue of
    recoveries), Coordinator (the handlers of the event loop, with the worker), Delivery (the task
    that posts committed bars to the webhook), Connector (the connection and its sessions),
    Prefetch (open interest of the bar that is open).

    Start and process: Reconciliation (the startup pass of a stream), HistoricalWorker (the streams
    startup left incomplete), CatchUp (its passes over an honest exchange), Settings, SettingsUse
    (what accepted settings are good for), Service (preparation and start, from an empty database to the state the tasks share), Commands (the
    administrative command lines), Diagnostics (lags of the event loop), Shell (the dispatch of
    commands, how a run of the service ends, the tasks of the diagnostics, the lines an operator
    reads), TaskGroups (the task groups of the process, over every order in which tasks end), Wiring (the REST source of a configuration, the live fetch, the recovery and the HTTP
    service as the process composes them).

    Bybit (adapters/bybit/): Json (what [json.loads] returns), BybitRest, BybitWebSocket.

    Smokes (entrypoints/smoke_*.py, scripts/): Smoke (the commands, each over a database it creates
    and the modelled use cases, from the parsed arguments to the printed lines and the exit code),
    SmokeProgress (when the gap repair smoke passes), FakeBybit (the fake exchange of the container
    smoke: the answers of its REST server to the requests of BybitRest, and of its WebSocket
    server), ContainerSmoke (the evidence read from the database and its comparison, the contracts
    checked, and the docker commands as a trace with the cleanup).

    ** What the theorems show

    - Candles are stored exactly: [ingest_exact], [import_window_exact], [backfill_reports],
      [bybit_import_expected] say what each outcome means for the rows, on every branch, errors
      included; [sqlite_refines] and [use_cases_over_sqlite] that the tables do what the port says,
      [OverflowError] for integers SQLite cannot bind included;
      [initialize_database_migrates] that a migration keeps the rows from every crash point.
    - Completeness is proved before it is reported: [find_gaps_exact], [repair_reports],
      [recovery_reports], [reconcile_reports] tie the reports COMPLETE, RESTORED and CONNECTING to
      the presence of every grid point, of the open interest track as well, and say what each other
      outcome reports: the gaps that remain, or the failure; [published_is_proven], [restored_episode_covers] and
      [restored_recovery_honest] tie the supervisor's frontiers to the stores over every
      interleaving; [get_candle_range_exact] and [audited_range_readable] are what a consumer gets.
    - Nothing is lost: [pending_recovery_has_intent] (but for a stream admitted while a recovery
      without an intent was pending, which [left_behind] describes), [single_recovery],
      [historical_streams_kept], [serve_started] (every enabled stream has exactly one owner),
      [delivered_at_most_once] (a committed bar is posted once, in order, or accounted for),
      [process_ends_whole] (no task of the process ends unnoticed by the others).
    - Work is bounded: window budgets ([full_bootstrap_reports], [lower_bound_discovery], which
      counts the windows probed and pins the bound they find), retries and backoff in exact binary64
      ([market_rows_retried], [retry_backoff]), reconnects ([connector_run_exact], with the events
      each session delivers), open interest ([prefetch_requests_allowed]: launches are the retry
      delay apart, requests fit into the bar and the slots).
    - Progress is made: [repair_advances] (a repair over an honest exchange stores every bar of its
      range or at least one for each window of its budget), [historical_worker_catches_up] (the
      worker's iterations hand the stream over), [smoke_gap_repair_passes], and
      [container_service_catches_up] (the same over the REST adapter and the fake exchange of the
      container smoke).
    - Interfaces: [http_conforms], [server_answers_read_back] (the bytes written read back as the
      answer of the router), [parse_message_exact] (events and control events as functions of the
      payload), [market_data_hash_identifies], [settings_usable] (what is checked, which
      constructors it satisfies and the two that can still refuse), and the commands of an operator, [backfill_command_reports].
    - Smokes: [smoke_never_passes] (the backfill and REST smokes compare with a schema version that
      their own initialisation leaves behind) and [container_smoke_cleans_up] (the project is taken
      down once after everything else, whatever docker answers; the data is given back and the image
      removed as long as no step of the cleanup fails).

    ** Fuel and bounds

    Loops of the source that are not structural run on fuel computed from their arguments: the grid
    steps or fetch windows left for the loops of Gaps.v (shown enough there, so no result depends on
    the fuel), the digits of a coefficient for the decimals, the attempts of a policy for retries and
    reconnects, the windows planned before the loop for imports and repairs.  Loops that run for the
    life of the process are step relations and need none.

    ** Parameters

    Code outside src/ is an argument: [json.loads], the answers of the webhook, the TOML parser (the
    loader starts from the parsed value), SHA-256, the parser of HTTP dates, [ipaddress], docker, the
    network and the clock.

    ** Not modelled

    Log lines other than those of Shell.v; argparse (commands start from parsed arguments) and the
    temporary directory a smoke chooses and removes; the sockets and threads of the HTTP server, of
    the WebSocket transport and of the fakes; the pragmas of a SQLite connection; where a
    cancellation finds a task, except the delivery task (Delivery.v); the lock another process may
    hold on the database; the live connection of entrypoints/smoke_websocket.py, between what it
    prepares and what it reports; the Python scripts that the container smoke runs inside its
    containers; scripts/benchmark_consumer_read_serialization.py, which measures the time of
    serialization; the packages that only re-export. *)

From Stdlib Require Import ZArith Lia.
From stdpp Require Export base option list gmap strings pretty sorting.

#[export] Set Default Goal Selector "!".

Declare Scope mds_scope.
Delimit Scope mds_scope with mds.
Open Scope Z_scope.

(** ** Exceptions

    Every exception class the modelled code raises or tests with [isinstance] or
    [except].  [ExcForeign] stands for a class of code that is not under [src/]
    (a transport, the interpreter); its flag says whether it carries the marker
    [RecoverableMarketDataFailure]. *)

Inductive exn_class :=
| ExcValueError
| ExcKeyError
| ExcRuntimeError
| ExcTypeError
| ExcLookupError
| ExcOverflowError
| ExcInvalidDecimalValue
| ExcInvalidStreamTransition
| ExcUnknownStreamError
| ExcHistoricalLowerBoundUnavailable
| ExcInstrumentMetadataMismatch
| ExcMarketConfigError
| ExcConsumerReadError
| ExcConfiguredStreamNotFound
| ExcStreamNotReady
| ExcInvalidRange
| ExcRangeNotAligned
| ExcRangeOutOfBounds
| ExcContinuityInvariantBroken
| ExcCoverageStale
| ExcBybitMarketDataError
| ExcBybitHttpError
| ExcBybitApiError
| ExcBybitTransientApiError
| ExcBybitPayloadError
| ExcRealtimeTopicMapError
| ExcBybitWebSocketPayloadError
| ExcUnsupportedSchemaVersion
| ExcIntegrityError
| ExcOperationalError
| ExcCommittedBarDeliveryError
| ExcForeign (name : string) (recoverable : bool).

#[export] Instance exn_class_eq_dec : EqDecision exn_class.
Proof. solve_decision. Defined.

(** An exception value: its class and [str(exc)]. *)
Record exn := Exn { exn_cls : exn_class; exn_str : string }.

#[export] Instance exn_eq_dec : EqDecision exn.
Proof. solve_decision. Defined.

(** [type(exc).__name__] *)
Definition class_name (c : exn_class) : string :=
  match c with
  | ExcValueError => "ValueError"
  | ExcKeyError => "KeyError"
  | ExcRuntimeError => "RuntimeError"
  | ExcTypeError => "TypeError"
  | ExcLookupError => "LookupError"
  | ExcOverflowError => "OverflowError"
  | ExcInvalidDecimalValue => "InvalidDecimalValue"
  | ExcInvalidStreamTransition => "InvalidStreamTransition"
  | ExcUnknownStreamError => "UnknownStreamError"
  | ExcHistoricalLowerBoundUnavailable => "HistoricalLowerBoundUnavailable"
  | ExcInstrumentMetadataMismatch => "InstrumentMetadataMismatch"
  | ExcMarketConfigError => "MarketConfigError"
  | ExcConsumerReadError => "ConsumerReadError"
  | ExcConfiguredStreamNotFound => "ConfiguredStreamNotFound"
  | ExcStreamNotReady => "StreamNotReady"
  | ExcInvalidRange => "InvalidRange"
  | ExcRangeNotAligned => "RangeNotAligned"
  | ExcRangeOutOfBounds => "RangeOutOfBounds"
  | ExcContinuityInvariantBroken => "ContinuityInvariantBroken"
  | ExcCoverageStale => "CoverageStale"
  | ExcBybitMarketDataError => "BybitMarketDataError"
  | ExcBybitHttpError => "BybitHttpError"
  | ExcBybitApiError => "BybitApiError"
  | ExcBybitTransientApiError => "BybitTransientApiError"
  | ExcBybitPayloadError => "BybitPayloadError"
  | ExcRealtimeTopicMapError => "RealtimeTopicMapError"
  | ExcBybitWebSocketPayloadError => "BybitWebSocketPayloadError"
  | ExcCommittedBarDeliveryError => "CommittedBarDeliveryError"
  | ExcUnsupportedSchemaVersion => "UnsupportedSchemaVersion"
  | ExcIntegrityError => "IntegrityError"
  | ExcOperationalError => "OperationalError"
  | ExcForeign name _ => name
  end%string.

(** The base classes, other than [Exception], of each class. *)
Definition exn_bases (c : exn_class) : list exn_class :=
  match c with
  | ExcKeyError => [ExcLookupError]
  | ExcInvalidDecimalValue | ExcInvalidStreamTransition | ExcUnknownStreamError
  | ExcInstrumentMetadataMismatch | ExcMarketConfigError | ExcConsumerReadError
  | ExcRealtimeTopicMapError | ExcBybitWebSocketPayloadError => [ExcValueError]
  | ExcConfiguredStreamNotFound | ExcStreamNotReady | ExcInvalidRange
  | ExcRangeNotAligned | ExcRangeOutOfBounds | ExcCoverageStale =>
      [ExcConsumerReadError; ExcValueError]
  | ExcHistoricalLowerBoundUnavailable | ExcContinuityInvariantBroken
  | ExcBybitMarketDataError | ExcUnsupportedSchemaVersion | ExcCommittedBarDeliveryError => [ExcRuntimeError]
  | ExcBybitHttpError | ExcBybitApiError | ExcBybitPayloadError =>
      [ExcBybitMarketDataError; ExcRuntimeError]
  | ExcBybitTransientApiError => [ExcBybitApiError; ExcBybitMarketDataError; ExcRuntimeError]
  | _ => []
  end.

(** [isinstance(exc, c)] *)
Definition isinstance (e : exn) (c : exn_class) : bool :=
  bool_decide (exn_cls e = c) || bool_decide (c ∈ exn_bases (exn_cls e)).

(** [isinstance(exc, RecoverableMarketDataFailure)] *)
Definition is_recoverable_failure (e : exn) : bool :=
  match exn_cls e with
  | ExcBybitHttpError | ExcBybitTransientApiError => true
  | ExcForeign _ recoverable => recoverable
  | _ => false
  end.

(** ** Results: a value or a raised exception *)

Inductive res (A : Type) :=
| Ok (a : A)
| Raise (e : exn).
Arguments Ok {A} a.
Arguments Raise {A} e.

#[export] Instance res_ret : MRet res := λ A a, Ok a.
#[export] Instance res_bind : MBind res := λ A B f m,
  match m with Ok a => f a | Raise e => Raise e end.
#[export] Instance res_fmap : FMap res := λ A B f m,
  match m with Ok a => Ok (f a) | Raise e => Raise e end.

Definition raise {A} (c : exn_class) (msg : string) : res A := Raise (Exn c msg).

(** [if cond: raise c(msg)] *)
Definition raise_if (cond : bool) (c : exn_class) (msg : string) : res unit :=
  if cond then raise c msg else Ok ().

Definition is_ok {A} (r : res A) : bool := match r with Ok _ => true | Raise _ => false end.

Definition res_opt {A} (r : res A) : option A := match r with Ok a => Some a | Raise _ => None end.

#[export] Instance Ok_inj {A} : Inj (=) (=) (@Ok A).
Proof. intros x y H. by injection H. Qed.

Lemma raise_if_ok cond c msg u : raise_if cond c msg = Ok u ↔ cond = false.
Proof. unfold raise_if, raise. by destruct cond, u. Qed.

Lemma res_bind_ok {A B} (f : A → res B) (m : res A) b :
  (x ← m; f x) = Ok b ↔ ∃ a, m = Ok a ∧ f a = Ok b.
Proof.
  destruct m as [a|e]; cbn; split.
  - intros H; by exists a.
  - intros (a' & H & H'). by simplify_eq.
  - done.
  - intros (a' & H & _). congruence.
Qed.

(** A guard that raises, followed by the rest of the function. *)
Lemma raise_if_bind_ok {A} cond c msg (m : res A) a :
  (_ ← raise_if cond c msg; m) = Ok a ↔ cond = false ∧ m = Ok a.
Proof. unfold raise_if, raise. destruct cond; cbn; [by split; [|intros [? ?]]|].
  split; [done|by intros [? ?]].
Qed.

Lemma raise_if_bind_raise {A} cond c msg (m : res A) e :
  (_ ← raise_if cond c msg; m) = Raise e ↔
  (cond = true ∧ e = Exn c msg) ∨ (cond = false ∧ m = Raise e).
Proof.
  unfold raise_if, raise. destruct cond; cbn; split.
  - intros [= <-]. by left.
  - by intros [[_ ->]|[? _]].
  - by right.
  - by intros [[? _]|[_ ?]].
Qed.

Lemma raise_if_bind_false {A} cond c msg (m : res A) :
  cond = false → (_ ← raise_if cond c msg; m) = m.
Proof. by intros ->. Qed.

(** Every exception a computation can raise is of one class. *)
Definition raises_only {A} (c : exn_class) (m : res A) : Prop :=
  ∀ e, m = Raise e → exn_cls e = c.

Lemma raises_only_ret {A} c (a : A) : raises_only c (Ok a).
Proof. by intros e. Qed.
Lemma raises_only_mret {A} c (a : A) : raises_only c (mret a).
Proof. by intros e. Qed.
Lemma raises_only_raise {A} c msg : raises_only c (@raise A c msg).
Proof. by intros e [= <-]. Qed.
Lemma raises_only_raise_if c b msg : raises_only c (raise_if b c msg).
Proof. destruct b; [apply raises_only_raise|apply raises_only_ret]. Qed.
Lemma raises_only_bind {A B} c (m : res A) (f : A → res B) :
  raises_only c m → (∀ a, raises_only c (f a)) → raises_only c (x ← m; f x).
Proof. intros Hm Hf e. destruct m as [a|e']; cbn; [apply Hf|]. intros [= ->]. by apply Hm. Qed.
Lemma raises_only_fmap {A B} c (m : res A) (f : A → B) :
  raises_only c m → raises_only c (f <$> m).
Proof. intros Hm e. destruct m as [a|e']; [done|]. intros [= ->]. by apply Hm. Qed.

(** ** State and errors

    A method of an object that keeps its state when it raises. *)

Definition StRes (σ A : Type) : Type := σ → res A * σ.

#[export] Instance StRes_ret {σ} : MRet (StRes σ) := λ A a s, (Ok a, s).
#[export] Instance StRes_bind {σ} : MBind (StRes σ) := λ A B f m s,
  match m s with (Ok a, s') => f a s' | (Raise e, s') => (Raise e, s') end.

Definition sr_lift {σ A} (r : res A) : StRes σ A := λ s, (r, s).
Definition sr_get {σ} : StRes σ σ := λ s, (Ok s, s).
(** [try: ... except Exception] that looks at the exception. *)
Definition sr_attempt {σ A} (m : StRes σ A) : StRes σ (res A) := λ s, let r := m s in (Ok r.1, r.2).

Fixpoint sr_each {σ A} (f : A → StRes σ ()) (l : list A) : StRes σ () :=
  match l with
  | [] => mret ()
  | x :: l => _ ← f x; sr_each f l
  end.

Lemma sr_bind_ok {σ A B} (m : StRes σ A) (f : A → StRes σ B) s b s' :
  (a ← m; f a) s = (Ok b, s') → ∃ a s1, m s = (Ok a, s1) ∧ f a s1 = (Ok b, s').
Proof.
  unfold mbind, StRes_bind. destruct (m s) as [[a|e] s1]; [|done]. intros H. by exists a, s1.
Qed.

(** [m] keeps a condition on the state, whether it returns or raises. *)
Definition sr_keeps {σ A} (P : σ → Prop) (m : StRes σ A) : Prop := ∀ s, P s → P (m s).2.

Lemma sr_keeps_ret {σ A} (P : σ → Prop) (a : A) : sr_keeps P (mret a).
Proof. by intros s Hs. Qed.
Lemma sr_keeps_lift {σ A} (P : σ → Prop) (r : res A) : sr_keeps P (sr_lift r).
Proof. by intros s Hs. Qed.
Lemma sr_keeps_bind {σ A B} (P : σ → Prop) (m : StRes σ A) (f : A → StRes σ B) :
  sr_keeps P m → (∀ a, sr_keeps P (f a)) → sr_keeps P (a ← m; f a).
Proof.
  intros Hm Hf s Hs. unfold mbind, StRes_bind. specialize (Hm s Hs). destruct (m s) as [[a|e] s']; [|done].
  by apply Hf.
Qed.
(** What follows a value of [r] may use that it is one. *)
Lemma sr_keeps_lift_bind {σ A B} (P : σ → Prop) (r : res A) (f : A → StRes σ B) :
  (∀ a, r = Ok a → sr_keeps P (f a)) → sr_keeps P (a ← sr_lift r; f a).
Proof.
  intros Hf s Hs. unfold mbind, StRes_bind, sr_lift. destruct r as [a|e]; [|done]. by apply Hf.
Qed.
Lemma sr_keeps_attempt {σ A} (P : σ → Prop) (m : StRes σ A) : sr_keeps P m → sr_keeps P (sr_attempt m).
Proof. intros Hm s Hs. by apply Hm. Qed.
Lemma sr_keeps_each {σ A} (P : σ → Prop) (f : A → StRes σ ()) l :
  (∀ x, sr_keeps P (f x)) → sr_keeps P (sr_each f l).
Proof. intros Hf. induction l as [|x l IH]; [apply sr_keeps_ret|]. by apply sr_keeps_bind. Qed.

(** ** Python truthiness helpers *)

(** [x or y] on [int | None]: both [None] and [0] are falsy. *)
Definition or_int (x : option Z) (y : Z) : Z :=
  match x with None => y | Some v => if v =? 0 then y else v end.

(** [x or y] where [y] may itself be [None]. *)
Definition or_opt (x y : option Z) : option Z :=
  match x with None => y | Some v => if v =? 0 then y else Some v end.

(** [x or y] on [str | None]: [None] and the empty string are falsy. *)
Definition or_str (x : option string) (y : string) : string :=
  match x with None => y | Some s => if bool_decide (s = "")%string then y else s end.

(** [str(n)] for an integer *)
Definition str_of_Z (z : Z) : string := pretty z.

(** ** Grid arithmetic *)

Lemma Z_mod_mult_between a b step :
  0 < step → a mod step = 0 → b mod step = 0 → a < b → a + step ≤ b.
Proof.
  intros Hs Ha Hb Hlt.
  apply Z.mod_divide in Ha as [p ->]; [|lia].
  apply Z.mod_divide in Hb as [q ->]; [|lia].
  assert (p < q) by nia. nia.
Qed.

Lemma Z_mod_add_step a step : (a + step) mod step = a mod step.
Proof. rewrite <- (Z.mul_1_l step) at 1. apply Z_mod_plus_full. Qed.

Lemma Z_mod_sub_mod a step : 0 < step → (a - a mod step) mod step = 0.
Proof. intros. rewrite Zminus_mod, Zmod_mod, Z.sub_diag. apply Z.mod_0_l. lia. Qed.

Lemma Z_mod_add_mult a k step : (a + k * step) mod step = a mod step.
Proof. apply Z_mod_plus_full. Qed.

Lemma Z_mod0_sub a b step :
  0 < step → a mod step = 0 → b mod step = 0 → (b - a) mod step = 0.
Proof. intros Hs Ha Hb. rewrite Zminus_mod, Ha, Hb. apply Z.mod_0_l. lia. Qed.

Lemma Z_mod0_add a b step :
  0 < step → a mod step = 0 → b mod step = 0 → (a + b) mod step = 0.
Proof. intros Hs Ha Hb. rewrite Zplus_mod, Ha, Hb. apply Z.mod_0_l. lia. Qed.

(** ** Lists *)

(** Two strictly increasing lists with the same elements are equal. *)
Lemma strictly_sorted_unique (l1 l2 : list Z) :
  StronglySorted Z.lt l1 → StronglySorted Z.lt l2 →
  (∀ x, x ∈ l1 ↔ x ∈ l2) → l1 = l2.
Proof.
  intros H1; revert l2; induction H1 as [|x l1 H1 IH Hx]; intros l2 H2 Heq.
  - destruct l2 as [|y l2]; [done|]. exfalso. apply (not_elem_of_nil y), Heq. constructor.
  - destruct H2 as [|y l2 H2 Hy].
    { exfalso. apply (not_elem_of_nil x), Heq. constructor. }
    rewrite Forall_forall in Hx. rewrite Forall_forall in Hy.
    assert (x = y) as <-.
    { assert (x ∈ y :: l2) as Hxl by (apply Heq; constructor).
      apply elem_of_cons in Hxl as [->|Hxl]; [done|].
      assert (y ∈ x :: l1) as Hyl by (apply Heq; constructor).
      apply elem_of_cons in Hyl as [->|Hyl]; [done|].
      specialize (Hx _ Hyl). specialize (Hy _ Hxl). lia. }
    f_equal. apply IH; [done|]. intros z.
    specialize (Heq z). rewrite !elem_of_cons in Heq. split; intros Hz.
    + pose proof (proj1 Heq (or_intror Hz)) as [->|]; [|done]. specialize (Hx _ Hz). lia.
    + pose proof (proj2 Heq (or_intror Hz)) as [->|]; [|done]. specialize (Hy _ Hz). lia.
Qed.

Lemma strongly_sorted_lt_NoDup (l : list Z) : StronglySorted Z.lt l → NoDup l.
Proof.
  induction 1 as [|x l _ IH Hx]; constructor; [|done].
  intros Hin. rewrite Forall_forall in Hx. specialize (Hx _ Hin). lia.
Qed.

Lemma strongly_sorted_le_lt (l : list Z) :
  NoDup l → StronglySorted Z.le l → StronglySorted Z.lt l.
Proof.
  intros Hnd Hs. induction Hs as [|x l Hs IH Hx]; constructor.
  - apply IH. by apply NoDup_cons in Hnd as [_ ?].
  - apply NoDup_cons in Hnd as [Hni _]. rewrite Forall_forall in Hx |- *.
    intros y Hy. specialize (Hx _ Hy). assert (x ≠ y) by (intros ->; done). lia.
Qed.

#[export] Instance Zle_total_inst : Total Z.le.
Proof. intros x y. lia. Qed.
#[export] Instance Zle_trans_inst : Transitive Z.le.
Proof. intros x y z. lia. Qed.

(** [sorted(xs)] *)
Definition py_sorted (l : list Z) : list Z := merge_sort Z.le l.

Lemma py_sorted_elem l x : x ∈ py_sorted l ↔ x ∈ l.
Proof. unfold py_sorted. by rewrite merge_sort_Permutation. Qed.

Lemma py_sorted_strict l : NoDup l → StronglySorted Z.lt (py_sorted l).
Proof.
  intros Hnd. apply strongly_sorted_le_lt.
  - unfold py_sorted. by rewrite merge_sort_Permutation.
  - apply (StronglySorted_merge_sort Z.le l).
Qed.

(** [len(set(xs)) == len(xs)] *)
Lemma size_list_to_set_le `{Countable A} (l : list A) :
  (size (list_to_set l : gset A) ≤ length l)%nat.
Proof.
  induction l as [|x l IH]; cbn; [by rewrite size_empty|].
  rewrite size_union_alt, size_singleton.
  pose proof (subseteq_size (list_to_set l ∖ {[x]}) (list_to_set l : gset A)).
  assert (list_to_set l ∖ {[x]} ⊆ (list_to_set l : gset A)) by set_solver. specialize (H0 H1). lia.
Qed.

Lemma size_list_to_set_NoDup `{Countable A} (l : list A) :
  size (list_to_set l : gset A) = length l ↔ NoDup l.
Proof.
  split; [|apply size_list_to_set]. induction l as [|x l IH]; [constructor|].
  cbn [list_to_set length]. intros Hs. destruct (decide (x ∈ l)) as [Hin|Hin].
  - rewrite subseteq_union_1_L in Hs by set_solver.
    pose proof (size_list_to_set_le l). lia.
  - constructor; [done|]. apply IH. rewrite size_union, size_singleton in Hs by set_solver. lia.
Qed.

(** ** Automation *)

Create HintDb mds discriminated.
(** Lemmas that a program keeps an invariant; nothing is unfolded to apply them. *)
Create HintDb keeps discriminated.
#[export] Hint Constants Opaque : keeps.
Create Rewrite HintDb mds.
#[export] Hint Resolve Z_mod_mult_between Z_mod_sub_mod Z_mod0_sub Z_mod0_add : mds.
#[export] Hint Rewrite Z_mod_add_step Z_mod_add_mult : mds.
#[export] Hint Resolve raises_only_ret raises_only_mret raises_only_raise raises_only_raise_if
  raises_only_fmap : mds.

(** Split booleans that guard the goal or a hypothesis into propositions. *)
Ltac bool_hyps :=
  repeat match goal with
  | H : (_ && _)%bool = true |- _ => apply andb_true_iff in H as [? ?]
  | H : (_ || _)%bool = false |- _ => apply orb_false_iff in H as [? ?]
  | H : negb _ = true |- _ => apply negb_true_iff in H
  | H : negb _ = false |- _ => apply negb_false_iff in H
  | H : bool_decide _ = true |- _ => apply bool_decide_eq_true in H
  | H : bool_decide _ = false |- _ => apply bool_decide_eq_false in H
  | H : (_ <=? _) = true |- _ => apply Z.leb_le in H
  | H : (_ <=? _) = false |- _ => apply Z.leb_gt in H
  | H : (_ <? _) = true |- _ => apply Z.ltb_lt in H
  | H : (_ <? _) = false |- _ => apply Z.ltb_ge in H
  | H : (_ =? _) = true |- _ => apply Z.eqb_eq in H
  | H : (_ =? _) = false |- _ => apply Z.eqb_neq in H
  end.

(** Prove [raises_only] along the structure of the computation. *)
Ltac raises_only_tac :=
  repeat match goal with
  | |- raises_only _ (mbind _ _) => apply raises_only_bind; [|intros ?]
  | |- raises_only _ (match ?x with _ => _ end) => destruct x
  | |- raises_only _ _ => solve [eauto with mds]
  end.
