(* ===== verification/PyStr.v ===== *)
(** * Python strings

    The [str] and [int] operations of the Python standard library that the modelled
    code calls: [strip], [rstrip], [lower], [upper], [isascii], [isalnum], [repr],
    [str.join], [int(text)] and the decimal digits of an integer.  A [string] here is
    a Python text of ASCII characters. *)

From S2P Require Import Prelude.

(** ** Characters *)

Definition code (c : Ascii.ascii) : Z := Z.of_N (Ascii.N_of_ascii c).
Definition chr (z : Z) : Ascii.ascii := Ascii.ascii_of_N (Z.to_N z).

(** The marks the parsers test. *)
Definition minus : Ascii.ascii := chr 45.
Definition plus : Ascii.ascii := chr 43.
Definition dot : Ascii.ascii := chr 46.
Definition underscore : Ascii.ascii := chr 95.
Definition zero_char : Ascii.ascii := chr 48.

(** White space of [str.strip()]: HT LF VT FF CR, FS GS RS US and the blank. *)
Definition is_space (c : Ascii.ascii) : bool :=
  let n := code c in
  ((9 <=? n) && (n <=? 13)) || ((28 <=? n) && (n <=? 32)).

Definition is_digit (c : Ascii.ascii) : bool := let n := code c in (48 <=? n) && (n <=? 57).
Definition is_upper (c : Ascii.ascii) : bool := let n := code c in (65 <=? n) && (n <=? 90).
Definition is_lower (c : Ascii.ascii) : bool := let n := code c in (97 <=? n) && (n <=? 122).
Definition is_alnum (c : Ascii.ascii) : bool := is_digit c || is_upper c || is_lower c.

Definition to_lower (c : Ascii.ascii) : Ascii.ascii :=
  if is_upper c then chr (code c + 32) else c.
Definition to_upper (c : Ascii.ascii) : Ascii.ascii :=
  if is_lower c then chr (code c - 32) else c.

(** ** Strings as lists of characters *)

Definition chars (s : string) : list Ascii.ascii := String.list_ascii_of_string s.
Definition text (l : list Ascii.ascii) : string := String.string_of_list_ascii l.

Fixpoint drop_while {A} (p : A → bool) (l : list A) : list A :=
  match l with
  | [] => []
  | x :: l' => if p x then drop_while p l' else l
  end.

(** Drop from the right end. *)
Definition drop_while_end {A} (p : A → bool) (l : list A) : list A :=
  rev (drop_while p (rev l)).

Definition strip (s : string) : string :=
  text (drop_while_end is_space (drop_while is_space (chars s))).

(** [s.rstrip(c)] for a one-character argument *)
Definition rstrip_char (c : Ascii.ascii) (l : list Ascii.ascii) : list Ascii.ascii :=
  drop_while_end (Ascii.eqb c) l.

Definition lower (s : string) : string := text (map to_lower (chars s)).
Definition upper (s : string) : string := text (map to_upper (chars s)).

Definition isascii (s : string) : bool := forallb (λ c, code c <? 128) (chars s).

(** [s.isalnum()]: false on the empty string *)
Definition isalnum (s : string) : bool :=
  match chars s with
  | [] => false
  | l => forallb is_alnum l
  end.

Definition endswith (s suffix : string) : bool :=
  let ls := chars s in let lx := chars suffix in
  (length lx <=? length ls)%nat &&
  bool_decide (drop (length ls - length lx) ls = lx).

(** [s[:-n]] *)
Definition drop_last (n : nat) (s : string) : string :=
  let l := chars s in text (take (length l - n) l).

Fixpoint join (sep : string) (l : list string) : string :=
  match l with
  | [] => ""
  | [x] => x
  | x :: l' => x +:+ sep +:+ join sep l'
  end.

(** ** Digits of a non-negative integer, most significant first *)

Fixpoint digits_aux (fuel : nat) (n : Z) (acc : list Z) : list Z :=
  match fuel with
  | O => acc
  | S fuel' =>
      if n <? 10 then n :: acc else digits_aux fuel' (n / 10) (n mod 10 :: acc)
  end.

(** The bit length bounds the number of decimal digits. *)
Definition digits (n : Z) : list Z := digits_aux (S (Z.to_nat (Z.log2 n))) n [].

Definition digit_char (d : Z) : Ascii.ascii := chr (48 + d).
Definition char_digit (c : Ascii.ascii) : Z := code c - 48.

(** The integer a list of digits denotes. *)
Definition digits_value (l : list Z) : Z := fold_left (λ acc d, 10 * acc + d) l 0.

(** ** [int(text)] *)

(** [int] takes white space at the ends, a sign, and single underscores between
    digits. *)
Fixpoint int_digits (after_digit : bool) (acc : Z) (l : list Ascii.ascii) : option Z :=
  match l with
  | [] => if after_digit then Some acc else None
  | c :: l' =>
      if is_digit c then int_digits true (10 * acc + char_digit c) l'
      else if Ascii.eqb c underscore && after_digit then int_digits false acc l'
      else None
  end.

Definition py_int (s : string) : option Z :=
  match chars (strip s) with
  | [] => None
  | c :: l =>
      if Ascii.eqb c minus then Z.opp <$> int_digits false 0 l
      else if Ascii.eqb c plus then int_digits false 0 l
      else int_digits false 0 (c :: l)
  end.

(** ** [repr(text)] *)

Definition quote : Ascii.ascii := chr 39.
Definition dquote : Ascii.ascii := chr 34.
Definition backslash : Ascii.ascii := chr 92.

Definition hex_char (d : Z) : Ascii.ascii := if d <? 10 then chr (48 + d) else chr (87 + d).

Definition repr_char (q c : Ascii.ascii) : list Ascii.ascii :=
  let n := code c in
  if Ascii.eqb c q || Ascii.eqb c backslash then [backslash; c]
  else if n =? 9 then [backslash; chr 116]
  else if n =? 10 then [backslash; chr 110]
  else if n =? 13 then [backslash; chr 114]
  else if (n <? 32) || (n =? 127) then
    [backslash; chr 120; hex_char (n / 16); hex_char (n mod 16)]
  else [c].

(** Single quotes, unless the text holds one and no double quote. *)
Definition repr (s : string) : string :=
  let l := chars s in
  let q := if existsb (Ascii.eqb quote) l && negb (existsb (Ascii.eqb dquote) l)
           then dquote else quote in
  text ([q] ++ flat_map (repr_char q) l ++ [q]).

(** [repr] of a tuple of strings with at least two items *)
Definition repr_tuple (l : list string) : string :=
  "(" +:+ join ", " (map repr l) +:+ ")".

(** [repr] of a list of integers *)
Definition repr_int_list (l : list Z) : string :=
  "[" +:+ join ", " (map str_of_Z l) +:+ "]".

#[global] Arguments Ascii.eqb : simpl never.
#[global] Arguments chr : simpl never.
#[global] Arguments code : simpl never.

(** ** Lemmas *)

Lemma chars_text l : chars (text l) = l.
Proof. apply String.list_ascii_of_string_of_list_ascii. Qed.

Lemma text_chars s : text (chars s) = s.
Proof. apply String.string_of_list_ascii_of_string. Qed.

Lemma text_inj l1 l2 : text l1 = text l2 → l1 = l2.
Proof. intros H. by rewrite <- (chars_text l1), H, chars_text. Qed.

Lemma code_chr z : 0 ≤ z < 256 → code (chr z) = z.
Proof.
  intros H. unfold code, chr. rewrite Ascii.N_ascii_embedding; lia.
Qed.

Lemma code_bound c : 0 ≤ code c < 256.
Proof. unfold code. pose proof (Ascii.N_ascii_bounded c). lia. Qed.

Lemma chr_code c : chr (code c) = c.
Proof. unfold chr, code. by rewrite N2Z.id, Ascii.ascii_N_embedding. Qed.

Lemma code_digit_char d : 0 ≤ d ≤ 9 → code (digit_char d) = 48 + d.
Proof. intros. apply code_chr. lia. Qed.

Lemma char_digit_char d : 0 ≤ d ≤ 9 → char_digit (digit_char d) = d.
Proof. intros. unfold char_digit. rewrite code_digit_char; lia. Qed.

Lemma is_digit_char d : 0 ≤ d ≤ 9 → is_digit (digit_char d) = true.
Proof. intros. unfold is_digit. rewrite code_digit_char by done. lia. Qed.

Lemma is_space_digit_char d : 0 ≤ d ≤ 9 → is_space (digit_char d) = false.
Proof. intros. unfold is_space. rewrite code_digit_char by done. lia. Qed.

Lemma drop_while_id {A} (p : A → bool) x l : p x = false → drop_while p (x :: l) = x :: l.
Proof. cbn. by intros ->. Qed.

Lemma drop_while_all {A} (p : A → bool) l : Forall (λ x, p x = true) l → drop_while p l = [].
Proof. induction 1 as [|x l Hx _ IH]; cbn; [done|]. by rewrite Hx. Qed.

Lemma drop_while_app_all {A} (p : A → bool) l1 l2 :
  Forall (λ x, p x = true) l1 → drop_while p (l1 ++ l2) = drop_while p l2.
Proof. induction 1 as [|x l Hx _ IH]; cbn; [done|]. by rewrite Hx. Qed.

Lemma drop_while_head {A} (p : A → bool) l x l' :
  drop_while p l = x :: l' → p x = false.
Proof.
  induction l as [|y l IH]; cbn; [done|]. destruct (p y) eqn:E; [done|]. congruence.
Qed.

Lemma drop_while_idemp {A} (p : A → bool) l :
  drop_while p (drop_while p l) = drop_while p l.
Proof.
  destruct (drop_while p l) as [|x l'] eqn:E; [done|].
  apply drop_while_id. by eapply drop_while_head.
Qed.

Lemma drop_while_end_snoc_keep {A} (p : A → bool) l x :
  p x = false → drop_while_end p (l ++ [x]) = l ++ [x].
Proof.
  intros H. unfold drop_while_end. rewrite rev_unit. cbn. rewrite H. cbn.
  by rewrite rev_involutive.
Qed.

Lemma drop_while_end_snoc_drop {A} (p : A → bool) l x :
  p x = true → drop_while_end p (l ++ [x]) = drop_while_end p l.
Proof. intros H. unfold drop_while_end. rewrite rev_unit. cbn. by rewrite H. Qed.

Lemma drop_while_end_split {A} (p : A → bool) l :
  ∃ k, l = drop_while_end p l ++ k ∧ Forall (λ x, p x = true) k.
Proof.
  induction l as [|x l IH] using rev_ind.
  - by exists [].
  - destruct (p x) eqn:E.
    + rewrite drop_while_end_snoc_drop by done. destruct IH as (k & Hk & HF).
      exists (k ++ [x]). split; [by rewrite app_assoc, <- Hk|].
      apply Forall_app; auto.
    + rewrite drop_while_end_snoc_keep by done. exists []. by rewrite app_nil_r.
Qed.

Lemma drop_while_end_last {A} (p : A → bool) l l' x :
  drop_while_end p l = l' ++ [x] → p x = false.
Proof.
  induction l as [|y l IH] using rev_ind; intros H.
  - by destruct l'.
  - destruct (p y) eqn:E.
    + rewrite drop_while_end_snoc_drop in H by done. auto.
    + rewrite drop_while_end_snoc_keep in H by done.
      apply app_inj_tail in H as [_ ->]. done.
Qed.

Lemma drop_while_end_id {A} (p : A → bool) l :
  (∀ l' x, l = l' ++ [x] → p x = false) → drop_while_end p l = l.
Proof.
  intros H. destruct l as [|y l _] using rev_ind; [done|].
  apply drop_while_end_snoc_keep. by eapply H.
Qed.

(** Appending a fixed prefix that ends in a kept element commutes. *)
Lemma drop_while_end_app {A} (p : A → bool) l1 x l2 :
  p x = false → drop_while_end p (l1 ++ x :: l2) = l1 ++ x :: drop_while_end p l2.
Proof.
  intros Hx. induction l2 as [|y l2 IH] using rev_ind.
  - by rewrite drop_while_end_snoc_keep.
  - change (x :: l2 ++ [y]) with ((x :: l2) ++ [y]). rewrite app_assoc.
    destruct (p y) eqn:E.
    + rewrite !drop_while_end_snoc_drop by done. apply IH.
    + rewrite !drop_while_end_snoc_keep by done. by rewrite <- app_assoc.
Qed.

Lemma digits_aux_app fuel n acc :
  digits_aux fuel n acc = digits_aux fuel n [] ++ acc.
Proof.
  revert n acc. induction fuel as [|fuel IH]; intros n acc; cbn; [done|].
  destruct (n <? 10); [done|]. rewrite IH, (IH _ [_]). by rewrite <- app_assoc.
Qed.

Lemma digits_fuel_irrel fuel1 fuel2 n acc :
  0 ≤ n < 2 ^ Z.of_nat fuel1 → 0 ≤ n < 2 ^ Z.of_nat fuel2 → (0 < fuel1)%nat → (0 < fuel2)%nat →
  digits_aux fuel1 n acc = digits_aux fuel2 n acc.
Proof.
  revert fuel2 n acc. induction fuel1 as [|f1 IH]; intros f2 n acc H1 H2 P1 P2; [lia|].
  destruct f2 as [|f2]; [lia|]. cbn [digits_aux]. destruct (n <? 10) eqn:E; [done|]. bool_hyps.
  rewrite Nat2Z.inj_succ, Z.pow_succ_r in H1, H2 by lia.
  assert (n / 10 < 2 ^ Z.of_nat f1) by (apply Z.div_lt_upper_bound; lia).
  assert (n / 10 < 2 ^ Z.of_nat f2) by (apply Z.div_lt_upper_bound; lia).
  assert (0 < n / 10) by (apply Z.div_str_pos; lia).
  apply IH; [lia|lia| |].
  - destruct f1; [|lia]. change (2 ^ Z.of_nat 0) with 1 in *. lia.
  - destruct f2; [|lia]. change (2 ^ Z.of_nat 0) with 1 in *. lia.
Qed.

Lemma log2_fuel n : 0 ≤ n → n < 2 ^ Z.of_nat (S (Z.to_nat (Z.log2 n))).
Proof.
  intros Hn. rewrite Nat2Z.inj_succ, Z2Nat.id by apply Z.log2_nonneg.
  destruct (decide (n = 0)) as [->|]; [done|]. apply Z.log2_spec. lia.
Qed.

(** The defining equations of [digits]. *)
Lemma digits_small n : 0 ≤ n < 10 → digits n = [n].
Proof. intros H. unfold digits. cbn. destruct (Z.ltb_spec n 10); [done|lia]. Qed.

Lemma digits_step n : 10 ≤ n → digits n = digits (n / 10) ++ [n mod 10].
Proof.
  intros Hn. unfold digits at 1. cbn [digits_aux].
  destruct (Z.ltb_spec n 10); [lia|]. rewrite digits_aux_app. f_equal.
  assert (n / 10 < n) by (apply Z.div_lt; lia).
  assert (0 < n / 10) by (apply Z.div_str_pos; lia).
  assert (1 ≤ Z.log2 n) by (apply (Z.log2_le_mono 2); lia).
  apply digits_fuel_irrel.
  - split; [lia|]. rewrite Z2Nat.id by apply Z.log2_nonneg.
    apply Z.div_lt_upper_bound; [lia|]. pose proof (Z.log2_spec n).
    rewrite Z.pow_succ_r in * by lia. lia.
  - split; [lia|]. apply log2_fuel. lia.
  - lia.
  - lia.
Qed.

Lemma digits_ind_pos (P : Z → Prop) :
  (∀ n, 0 ≤ n < 10 → P n) → (∀ n, 10 ≤ n → P (n / 10) → P n) → ∀ n, 0 ≤ n → P n.
Proof.
  intros H0 H1 n Hn. revert n Hn Hn.
  refine (Z_lt_induction (λ n, 0 ≤ n → P n) _). intros m IH Hm.
  destruct (Z.lt_ge_cases m 10); [apply H0; lia|].
  assert (0 ≤ m / 10 < m) by (split; [apply Z.div_pos|apply Z.div_lt]; lia).
  apply H1; [lia|]. apply IH; lia.
Qed.

Lemma digits_value_snoc l d : digits_value (l ++ [d]) = 10 * digits_value l + d.
Proof. unfold digits_value. by rewrite fold_left_app. Qed.

Lemma digits_value_app_zeros l k :
  digits_value (l ++ replicate k 0) = digits_value l * 10 ^ Z.of_nat k.
Proof.
  induction k as [|k IH].
  - rewrite app_nil_r. cbn. lia.
  - rewrite replicate_S_end, app_assoc, digits_value_snoc, IH, Nat2Z.inj_succ, Z.pow_succ_r; lia.
Qed.

(** The digits of [n] denote [n]. *)
Lemma digits_value_digits n : 0 ≤ n → digits_value (digits n) = n.
Proof.
  revert n. apply digits_ind_pos; intros n Hn.
  - by rewrite digits_small.
  - intros IH. rewrite digits_step, digits_value_snoc, IH by done.
    pose proof (Z.div_mod n 10). lia.
Qed.

Lemma digits_range n : 0 ≤ n → Forall (λ d, 0 ≤ d ≤ 9) (digits n).
Proof.
  revert n. apply digits_ind_pos; intros n Hn.
  - rewrite digits_small by done. constructor; [lia|done].
  - intros IH. rewrite digits_step by done. apply Forall_app. split; [done|].
    constructor; [|done]. pose proof (Z.mod_pos_bound n 10). lia.
Qed.

Lemma digits_nonempty n : digits n ≠ [].
Proof.
  unfold digits. cbn. destruct (n <? 10); [done|].
  rewrite digits_aux_app. by destruct (digits_aux _ _ _).
Qed.

Lemma digits_mul10 n : 0 < n → digits (10 * n) = digits n ++ [0].
Proof.
  intros Hn. rewrite digits_step by lia.
  by rewrite Z.mul_comm, Z.div_mul, Z.mod_mul by lia.
Qed.

(** ** [int(str(z))] *)

(** A decimal digit as stdpp prints it. *)
Lemma pretty_digit_cases (P : N → Prop) (d : N) :
  P 0%N → P 1%N → P 2%N → P 3%N → P 4%N → P 5%N → P 6%N → P 7%N → P 8%N → P 9%N → (d < 10)%N → P d.
Proof.
  intros. assert (d = 0 ∨ d = 1 ∨ d = 2 ∨ d = 3 ∨ d = 4 ∨ d = 5 ∨ d = 6 ∨ d = 7 ∨ d = 8 ∨ d = 9)%N as Hc by lia.
  by repeat (destruct Hc as [->|Hc]; [done|]); subst d.
Qed.

Lemma pretty_N_go_digits x s :
  Forall (λ c, is_digit c = true) (chars s) → Forall (λ c, is_digit c = true) (chars (pretty_N_go x s)).
Proof.
  revert s. induction (N.lt_wf_0 x) as [x _ IH]; intros s Hs. destruct (decide (x = 0)%N) as [->|Hx];
    [by rewrite pretty_N_go_0|].
  rewrite pretty_N_go_step by lia. apply IH; [by apply N.div_lt; lia|]. constructor; [|done].
  by apply (pretty_digit_cases (λ d, is_digit (pretty_N_char d) = true)), N.mod_lt.
Qed.

Lemma int_digits_pretty b x s :
  (0 < x)%N → int_digits b 0 (chars (pretty_N_go x s)) = int_digits true (Z.of_N x) (chars s).
Proof.
  revert b s. induction (N.lt_wf_0 x) as [x _ IH]; intros b s Hx. rewrite pretty_N_go_step by done.
  assert (Hd : ∀ b acc r, int_digits b acc (pretty_N_char (x `mod` 10) :: r) =
                         int_digits true (10 * acc + Z.of_N (x `mod` 10)) r).
  { intros b' acc r. by apply (pretty_digit_cases (λ d, int_digits b' acc (pretty_N_char d :: r) =
      int_digits true (10 * acc + Z.of_N d) r)), N.mod_lt. }
  pose proof (N.div_mod x 10 ltac:(done)) as Hdiv. set (q := (x `div` 10)%N) in *. set (m := (x `mod` 10)%N) in *.
  destruct (decide (q = 0)%N) as [Hq|Hq].
  - rewrite Hq, pretty_N_go_0. change (chars (String ?c s)) with (c :: chars s). rewrite Hd. f_equal. lia.
  - rewrite IH by (try apply N.div_lt; lia). change (chars (String ?c s)) with (c :: chars s). rewrite Hd. f_equal. lia.
Qed.

Lemma pretty_digits (n : N) :
  Forall (λ c, is_digit c = true) (chars (pretty n)) ∧ int_digits false 0 (chars (pretty n)) = Some (Z.of_N n) ∧
  ∃ c l, chars (pretty n) = c :: l.
Proof.
  unfold pretty, pretty_N. destruct (decide (n = 0)%N) as [->|Hn].
  { split; [by repeat constructor|]. split; [done|]. by eexists _, _. }
  assert (HF : Forall (λ c, is_digit c = true) (chars (pretty_N_go n ""))) by (apply pretty_N_go_digits; constructor).
  assert (Hi : int_digits false 0 (chars (pretty_N_go n "")) = Some (Z.of_N n)) by (rewrite int_digits_pretty by lia; done).
  split; [done|]. split; [done|]. destruct (chars (pretty_N_go n "")); [done|]. by eexists _, _.
Qed.

Lemma is_digit_not_space c : is_digit c = true → is_space c = false.
Proof. unfold is_digit, is_space. cbv zeta. intros H. bool_hyps. lia. Qed.

(** A text without white space is its own [strip]. *)
Lemma strip_no_space s : Forall (λ c, is_space c = false) (chars s) → strip s = s.
Proof.
  intros HF. unfold strip. assert (drop_while is_space (chars s) = chars s) as ->.
  { destruct HF as [|c l Hc HF]; [done|]. by apply drop_while_id. }
  rewrite drop_while_end_id; [apply text_chars|]. intros l' x Hl. rewrite Hl in HF. apply Forall_app in HF as [_ HF].
  by apply Forall_cons in HF as [? _].
Qed.

Lemma py_int_str_of_Z z : py_int (str_of_Z z) = Some z.
Proof.
  unfold str_of_Z, py_int. rewrite strip_no_space.
  - destruct z as [|p|p]; [done| |].
    + change (pretty (Zpos p)) with (pretty (Npos p)). destruct (pretty_digits (Npos p)) as (HF & Hi & c & l & Hc).
      rewrite Hc in HF, Hi |- *. apply Forall_cons in HF as [Hd _].
      assert (Ascii.eqb c minus = false ∧ Ascii.eqb c plus = false) as [-> ->]; [|done].
      split; apply Ascii.eqb_neq; intros ->; by vm_compute in Hd.
    + change (chars (pretty (Zneg p))) with (minus :: chars (pretty (Npos p))).
      cbn [Ascii.eqb]. replace (Ascii.eqb minus minus) with true by (vm_compute; reflexivity).
      destruct (pretty_digits (Npos p)) as (_ & -> & _). done.
  - assert (HN : ∀ n : N, Forall (λ c, is_space c = false) (chars (pretty n))).
    { intros n. eapply Forall_impl; [apply (pretty_digits n)|]. apply is_digit_not_space. }
    destruct z as [|p|p]; [by repeat constructor|apply HN|]. constructor; [done|]. apply HN.
Qed.
