(* ===== verification/DecimalValues.v ===== *)
(** * Exact decimals (domain/decimal_values.py)

    [parse_decimal], [decimal_to_canonical_text] and [parse_canonical_decimal_text]
    over a model of Python's [decimal.Decimal]: a finite decimal is a sign, a
    coefficient and an exponent, and the constructor from text is exact.  The main
    facts: the canonical text is one text per numeric value, and reading it back
    gives that value. *)

From S2P Require Import Prelude PyStr.

(** ** [decimal.Decimal] *)

(** A finite decimal: (-1)^neg * coef * 10^exp, [coef >= 0]. *)
Record Dec := mkDec { dec_neg : bool; dec_coef : Z; dec_exp : Z }.

#[export] Instance Dec_eq_dec : EqDecision Dec.
Proof. solve_decision. Defined.

(** An infinity or a NaN, with its [str]. *)
Inductive PyDecimal := DFinite (d : Dec) | DSpecial (shown : string).

(** [DecimalInput = Decimal | str | int], the two run-time types the function refuses by name,
    and the values whose text is never a number (None, a list, a dict), by their [repr]. *)
Inductive DecimalInput :=
| InDecimal (d : PyDecimal)
| InStr (s : string)
| InInt (z : Z)
| InBool (b : bool)
| InFloat (shown : string)
| InOther (shown : string).

Fixpoint span {A} (p : A → bool) (l : list A) : list A * list A :=
  match l with
  | [] => ([], [])
  | x :: l' => if p x then let '(a, b) := span p l' in (x :: a, b) else ([], l)
  end.

Fixpoint strip_prefix (p l : list Ascii.ascii) : option (list Ascii.ascii) :=
  match p, l with
  | [], _ => Some l
  | x :: p', y :: l' => if Ascii.eqb x y then strip_prefix p' l' else None
  | _ :: _, [] => None
  end.

(** [inf], [infinity], [nan] and [snan] with a diagnostic, in any case. *)
Definition is_special (l : list Ascii.ascii) : bool :=
  let w := map to_lower l in
  bool_decide (w = chars "inf") || bool_decide (w = chars "infinity") ||
  match strip_prefix (chars "nan") w with
  | Some r => forallb is_digit r
  | None => match strip_prefix (chars "snan") w with
            | Some r => forallb is_digit r
            | None => false
            end
  end.

(** [str] of a special value: the diagnostic of a NaN without its leading zeros. *)
Definition special_text (neg : bool) (l : list Ascii.ascii) : string :=
  let w := map to_lower l in
  let diagnostic r := text (drop_while (Ascii.eqb zero_char) r) in
  (if neg then "-" else "") +:+
  match strip_prefix (chars "nan") w with
  | Some r => "NaN" +:+ diagnostic r
  | None => match strip_prefix (chars "snan") w with
            | Some r => "sNaN" +:+ diagnostic r
            | None => "Infinity"
            end
  end.

Definition take_sign (l : list Ascii.ascii) : bool * list Ascii.ascii :=
  match l with
  | c :: l' => if Ascii.eqb c minus then (true, l') else if Ascii.eqb c plus then (false, l')
               else (false, l)
  | [] => (false, [])
  end.

(** An optional exponent part, to the end of the text. *)
Definition parse_exponent (l : list Ascii.ascii) : option Z :=
  match l with
  | [] => Some 0
  | c :: l' =>
      if Ascii.eqb (to_lower c) (chr 101) then
        let '(neg, l'') := take_sign l' in
        match span is_digit l'' with
        | ([], _) => None
        | (ds, []) => let v := digits_value (map char_digit ds) in Some (if neg then - v else v)
        | (_, _ :: _) => None
        end
      else None
  end.

Definition parse_number (neg : bool) (l : list Ascii.ascii) : option Dec :=
  let '(ip, rest) := span is_digit l in
  let '(fp, rest') := match rest with
                      | c :: r => if Ascii.eqb c dot then span is_digit r else ([], rest)
                      | [] => ([], [])
                      end in
  match ip ++ fp with
  | [] => None
  | ds => e ← parse_exponent rest';
          Some (mkDec neg (digits_value (map char_digit ds)) (e - Z.of_nat (length fp)))
  end.

(** [Decimal(text)]: [None] is [InvalidOperation].  The constructor drops white space
    at the ends and every underscore. *)
Definition Decimal_of_text (s : string) : option PyDecimal :=
  let l := List.filter (λ c, negb (Ascii.eqb c underscore)) (chars (strip s)) in
  let '(neg, l') := take_sign l in
  if is_special l' then Some (DSpecial (special_text neg l')) else DFinite <$> parse_number neg l'.

(** [format(d, "f")] *)
Definition format_f (d : Dec) : list Ascii.ascii :=
  let int := map digit_char (digits (dec_coef d)) in
  let len := Z.of_nat (length int) in
  let exp := if (dec_coef d =? 0) && (0 <? dec_exp d) then 0 else dec_exp d in
  let dotplace := len + exp in
  let '(ip, fp) :=
    if dotplace <? 0 then ([zero_char], replicate (Z.to_nat (- dotplace)) zero_char ++ int)
    else if len <? dotplace then (int ++ replicate (Z.to_nat (dotplace - len)) zero_char, [])
    else (match take (Z.to_nat dotplace) int with [] => [zero_char] | ip => ip end,
          drop (Z.to_nat dotplace) int) in
  (if dec_neg d then [minus] else []) ++ ip ++ match fp with [] => [] | _ => dot :: fp end.

(** [str(d)]: scientific notation when the exponent is positive or the point would stand
    more than six places left of the digits. *)
Definition dec_str (d : Dec) : string :=
  let int := map digit_char (digits (dec_coef d)) in
  let len := Z.of_nat (length int) in
  let leftdigits := dec_exp d + len in
  let dotplace := if (dec_exp d <=? 0) && (-6 <? leftdigits) then leftdigits else 1 in
  let '(ip, fp) :=
    if dotplace <=? 0 then ([zero_char], dot :: replicate (Z.to_nat (- dotplace)) zero_char ++ int)
    else if len <=? dotplace then (int ++ replicate (Z.to_nat (dotplace - len)) zero_char, [])
    else (take (Z.to_nat dotplace) int, dot :: drop (Z.to_nat dotplace) int) in
  let exp := if leftdigits =? dotplace then ""%string
             else ("E" +:+ (if 0 <=? leftdigits - dotplace then "+" else "")
                   +:+ str_of_Z (leftdigits - dotplace)) in
  text ((if dec_neg d then [minus] else []) ++ ip ++ fp) +:+ exp.

(** [repr(value)] of an input. *)
Definition repr_input (v : DecimalInput) : string :=
  match v with
  | InDecimal (DFinite d) => "Decimal('" +:+ dec_str d +:+ "')"
  | InDecimal (DSpecial s) => "Decimal('" +:+ s +:+ "')"
  | InStr s => repr s
  | InInt z => str_of_Z z
  | InBool b => if b then "True" else "False"
  | InFloat shown => shown
  | InOther shown => shown
  end.

(** The value of a decimal, scaled to the exponent [e <= dec_exp d]. *)
Definition dec_signed (d : Dec) : Z := if dec_neg d then - dec_coef d else dec_coef d.
Definition dec_at (e : Z) (d : Dec) : Z := dec_signed d * 10 ^ (dec_exp d - e).

Definition dec_compare (a b : Dec) : comparison :=
  let e := Z.min (dec_exp a) (dec_exp b) in Z.compare (dec_at e a) (dec_at e b).

(** [a < b], [a <= b] and [a == b] on finite decimals. *)
Definition dec_ltb (a b : Dec) : bool :=
  match dec_compare a b with Lt => true | _ => false end.
Definition dec_leb (a b : Dec) : bool :=
  match dec_compare a b with Gt => false | _ => true end.
Definition dec_eqb (a b : Dec) : bool :=
  match dec_compare a b with Eq => true | _ => false end.

Definition dec_zero : Dec := mkDec false 0 0.

(** [max(a, b, ...)] and [min(a, b, ...)]: the first extremal argument. *)
Definition dec_max (a b : Dec) : Dec := if dec_ltb a b then b else a.
Definition dec_min (a b : Dec) : Dec := if dec_ltb b a then b else a.

(** ** domain/decimal_values.py *)

Definition parse_decimal (value : DecimalInput) : res Dec :=
  let finite (d : PyDecimal) : res Dec :=
    match d with
    | DSpecial _ => raise ExcInvalidDecimalValue "decimal value must be finite"
    | DFinite d => if dec_coef d =? 0 then Ok dec_zero else Ok d
    end in
  match value with
  | InBool _ => raise ExcInvalidDecimalValue "boolean is not a decimal value"
  | InFloat _ => raise ExcInvalidDecimalValue "binary float input is not allowed"
  | InOther shown => raise ExcInvalidDecimalValue ("invalid decimal value: " +:+ shown)
  | InDecimal d => finite d
  | InStr s =>
      match Decimal_of_text (strip s) with
      | None => raise ExcInvalidDecimalValue ("invalid decimal value: " +:+ repr s)
      | Some d => finite d
      end
  | InInt z =>
      match Decimal_of_text (strip (str_of_Z z)) with
      | None => raise ExcInvalidDecimalValue ("invalid decimal value: " +:+ str_of_Z z)
      | Some d => finite d
      end
  end.

(** The text of a parsed decimal: [format], trailing zeros and point dropped. *)
Definition canonical_chars (d : Dec) : list Ascii.ascii :=
  let t := format_f d in
  let t := if existsb (Ascii.eqb dot) t then rstrip_char dot (rstrip_char zero_char t) else t in
  if bool_decide (t = []) || bool_decide (t = [minus; zero_char]) then [zero_char] else t.

Definition decimal_to_canonical_text (value : DecimalInput) : res string :=
  parsed ← parse_decimal value;
  mret (text (canonical_chars parsed)).

Definition parse_canonical_decimal_text (value : string) : res Dec :=
  canonical ← decimal_to_canonical_text (InStr value);
  if negb (bool_decide (value = canonical)) then
    raise ExcInvalidDecimalValue
      ("non-canonical decimal text: " +:+ repr value +:+ "; expected " +:+ repr canonical)
  else match Decimal_of_text canonical with
       | Some (DFinite d) => Ok d
       | Some (DSpecial _) | None => raise (ExcForeign "InvalidOperation" false) "ConversionSyntax"
       end.

(** [Decimal(text)] for a text read back from storage: the canonical decimal a row
    holds, with a zero reduced as [parse_decimal] reduces it. *)
Definition dec_of_text (s : string) : res Dec := parse_decimal (InStr s).
Definition dec_text (d : Dec) : string := text (canonical_chars d).

(** ** Facts *)

(** A well-formed decimal: what the constructor of [Decimal] builds. *)
Definition dec_wf (d : Dec) : Prop := 0 ≤ dec_coef d.

(** A decimal as [parse_decimal] returns it. *)
Definition dec_parsed (d : Dec) : Prop := dec_wf d ∧ (dec_coef d = 0 → d = dec_zero).

Definition dec_eqv (a b : Dec) : Prop :=
  dec_at (Z.min (dec_exp a) (dec_exp b)) a = dec_at (Z.min (dec_exp a) (dec_exp b)) b.

(** *** Characters of a canonical text *)

Definition digit_chars (l : list Ascii.ascii) : Prop := Forall (λ c, is_digit c = true) l.
Definition chars_value (l : list Ascii.ascii) : Z := digits_value (map char_digit l).
Definition int_chars (c : Z) : list Ascii.ascii := map digit_char (digits c).

(** The coefficient, padded on the left to at least [k + 1] digits. *)
Definition padded (c : Z) (k : nat) : list Ascii.ascii :=
  replicate (S k - length (int_chars c)) zero_char ++ int_chars c.

Definition frac_chars (f : list Ascii.ascii) : list Ascii.ascii :=
  match rstrip_char zero_char f with [] => [] | g => dot :: g end.

(** A closed form of the canonical text of a positive value. *)
Definition ucanon (c e : Z) : list Ascii.ascii :=
  if 0 <=? e then int_chars c ++ replicate (Z.to_nat e) zero_char
  else let k := Z.to_nat (- e) in
       take (length (padded c k) - k) (padded c k) ++
       frac_chars (drop (length (padded c k) - k) (padded c k)).

#[global] Arguments int_chars : simpl never.
#[global] Arguments padded : simpl never.
#[global] Arguments ucanon : simpl never.

Definition sign_chars (neg : bool) : list Ascii.ascii := if neg then [minus] else [].

Lemma zero_char_digit : zero_char = digit_char 0.
Proof. reflexivity. Qed.

Lemma int_chars_digits c : 0 ≤ c → digit_chars (int_chars c).
Proof.
  intros Hc. unfold digit_chars, int_chars. apply Forall_map.
  eapply Forall_impl; [by apply digits_range|]. intros d Hd. by apply is_digit_char.
Qed.

Lemma replicate_zero_digits k : digit_chars (replicate k zero_char).
Proof. apply Forall_replicate. reflexivity. Qed.

Lemma padded_digits c k : 0 ≤ c → digit_chars (padded c k).
Proof. intros. apply Forall_app. split; [apply replicate_zero_digits|by apply int_chars_digits]. Qed.

Lemma int_chars_nonempty c : (0 < length (int_chars c))%nat.
Proof.
  unfold int_chars. rewrite length_map. pose proof (digits_nonempty c).
  destruct (digits c); [done|cbn; lia].
Qed.

Lemma padded_length c k : (S k ≤ length (padded c k))%nat.
Proof. unfold padded. rewrite length_app, length_replicate. lia. Qed.

Lemma map_char_digit_int c : 0 ≤ c → map char_digit (int_chars c) = digits c.
Proof.
  intros Hc. unfold int_chars. rewrite map_map. rewrite <- (map_id (digits c)) at 2.
  apply map_ext_in. intros d Hd. apply char_digit_char.
  pose proof (digits_range c Hc) as HF. rewrite Forall_forall in HF. apply HF.
  by apply list_elem_of_In.
Qed.

Lemma chars_value_int c : 0 ≤ c → chars_value (int_chars c) = c.
Proof. intros. unfold chars_value. by rewrite map_char_digit_int, digits_value_digits. Qed.

Lemma digits_value_cons0 l : digits_value (0 :: l) = digits_value l.
Proof. reflexivity. Qed.

Lemma chars_value_padded c k : 0 ≤ c → chars_value (padded c k) = c.
Proof.
  intros Hc. unfold padded. induction (S k - length (int_chars c))%nat as [|n IH]; cbn [replicate app].
  - by apply chars_value_int.
  - exact IH.
Qed.

Lemma chars_value_app_zeros l n :
  chars_value (l ++ replicate n zero_char) = chars_value l * 10 ^ Z.of_nat n.
Proof.
  unfold chars_value. rewrite map_app. rewrite <- digits_value_app_zeros. do 2 f_equal.
  induction n as [|n IH]; cbn [replicate map]; [done|]. by rewrite IH.
Qed.

Lemma chars_value_all_zero l : Forall (λ c, Ascii.eqb zero_char c = true) l → chars_value l = 0.
Proof.
  induction 1 as [|x l Hx _ IH]; [done|]. apply Ascii.eqb_eq in Hx as <-. exact IH.
Qed.

Lemma digit_not c d : is_digit c = true → is_digit d = false → Ascii.eqb d c = false.
Proof. intros Hc Hd. apply Ascii.eqb_neq. intros ->. congruence. Qed.

Lemma digits_no_dot l : digit_chars l → existsb (Ascii.eqb dot) l = false.
Proof.
  induction 1 as [|c l Hc _ IH]; cbn; [done|]. by rewrite (digit_not c dot Hc).
Qed.

Lemma rstrip_dot_digits l : digit_chars l → rstrip_char dot l = l.
Proof.
  intros HF. apply drop_while_end_id. intros l' x ->.
  apply Forall_app in HF as [_ HF]. apply Forall_cons in HF as [Hx _]. by apply digit_not.
Qed.

Lemma digit_chars_take n l : digit_chars l → digit_chars (take n l).
Proof. apply Forall_take. Qed.
Lemma digit_chars_drop n l : digit_chars l → digit_chars (drop n l).
Proof. apply Forall_drop. Qed.

Lemma rstrip_zero_digits l : digit_chars l → digit_chars (rstrip_char zero_char l).
Proof.
  intros HF. destruct (drop_while_end_split (Ascii.eqb zero_char) l) as (k & Hk & _).
  unfold rstrip_char. rewrite Hk in HF. by apply Forall_app in HF as [? _].
Qed.

(** The strip of a formatted text: the digits before the point stay. *)
Lemma strip_fraction pre ip fp :
  digit_chars ip → ip ≠ [] → digit_chars fp →
  rstrip_char dot (rstrip_char zero_char (pre ++ ip ++ dot :: fp)) = pre ++ ip ++ frac_chars fp.
Proof.
  intros Hip Hne Hfp. unfold frac_chars.
  assert (rstrip_char zero_char (pre ++ ip ++ dot :: fp) =
          (pre ++ ip) ++ dot :: rstrip_char zero_char fp) as ->.
  { rewrite app_assoc. by apply drop_while_end_app. }
  pose proof (rstrip_zero_digits _ Hfp) as Hd.
  destruct (rstrip_char zero_char fp) as [|c g] eqn:E.
  - unfold rstrip_char. rewrite drop_while_end_snoc_drop by done. rewrite app_nil_r.
    apply drop_while_end_id. intros l' x Hx.
    destruct ip as [|y ip _] using rev_ind; [done|].
    rewrite app_assoc in Hx. apply app_inj_tail in Hx as [_ <-].
    apply Forall_app in Hip as [_ Hy]. apply Forall_cons in Hy as [Hy _]. by apply digit_not.
  - rewrite <- app_assoc. apply drop_while_end_id. intros l' x Hx.
    destruct (exists_last (l := c :: g)) as (g' & y & Hg); [done|].
    rewrite Hg in Hx, Hd. apply Forall_app in Hd as [_ Hy]. apply Forall_cons in Hy as [Hy _].
    change (dot :: g' ++ [y]) with ((dot :: g') ++ [y]) in Hx.
    rewrite !app_assoc in Hx. apply app_inj_tail in Hx as [_ <-]. by apply digit_not.
Qed.

Lemma take_padded_nonempty c k : take (length (padded c k) - k) (padded c k) ≠ [].
Proof.
  intros H%(f_equal length). rewrite length_take in H. pose proof (padded_length c k).
  change (length (@nil Ascii.ascii)) with 0%nat in H. lia.
Qed.

Lemma drop_padded_length c k : length (drop (length (padded c k) - k) (padded c k)) = k.
Proof. rewrite length_drop. pose proof (padded_length c k). lia. Qed.

Lemma ucanon_digit_head c e :
  0 < c → ∃ x l, ucanon c e = x :: l ∧ is_digit x = true.
Proof.
  intros Hc. unfold ucanon. destruct (0 <=? e).
  - pose proof (int_chars_digits c ltac:(lia)) as HF.
    pose proof (int_chars_nonempty c) as Hl.
    destruct (int_chars c) as [|x l]; [apply Nat.lt_irrefl in Hl; done|].
    apply Forall_cons in HF as [Hx _]. by exists x, (l ++ replicate (Z.to_nat e) zero_char).
  - cbv zeta. set (k := Z.to_nat (- e)). pose proof (take_padded_nonempty c k) as Hne.
    pose proof (digit_chars_take (length (padded c k) - k) _ (padded_digits c k ltac:(lia))) as HF.
    destruct (take _ _) as [|x l]; [done|]. apply Forall_cons in HF as [Hx _].
    eexists x, _. by split.
Qed.

Lemma ucanon_not_zero c e : 0 < c → ucanon c e ≠ [zero_char].
Proof.
  intros Hc. unfold ucanon. destruct (0 <=? e); cbv zeta.
  - intros H. pose proof (f_equal chars_value H) as Hv.
    rewrite chars_value_app_zeros, chars_value_int in Hv by lia.
    change (chars_value [zero_char]) with 0 in Hv.
    pose proof (Z.pow_pos_nonneg 10 (Z.of_nat (Z.to_nat e))). nia.
  - set (k := Z.to_nat (- e)). intros H.
    pose proof (take_padded_nonempty c k) as Hne.
    pose proof (chars_value_padded c k ltac:(lia)) as Hv.
    rewrite <- (take_drop (length (padded c k) - k) (padded c k)) in Hv.
    destruct (take _ _) as [|x [|y l]]; [done| |done].
    cbn in H. injection H as -> Hf.
    unfold frac_chars in Hf.
    destruct (rstrip_char zero_char _) eqn:E; [|done].
    destruct (drop_while_end_split (Ascii.eqb zero_char)
      (drop (length (padded c k) - k) (padded c k))) as (z & Hz & HzF).
    unfold rstrip_char in E. rewrite E in Hz. rewrite Hz in Hv.
    rewrite chars_value_all_zero in Hv; [lia|]. cbn. by constructor.
Qed.

(** The canonical text of a non-zero decimal is its sign and [ucanon]. *)
Lemma format_f_nonneg_exp neg c e :
  0 < c → 0 ≤ e → format_f (mkDec neg c e) = sign_chars neg ++ ucanon c e.
Proof.
  intros Hc He. unfold format_f, ucanon. cbn [dec_neg dec_coef dec_exp].
  destruct (Z.eqb_spec c 0); [lia|]. destruct (Z.leb_spec 0 e); [|lia]. cbn [andb].
  fold (int_chars c). cbv zeta. pose proof (int_chars_nonempty c) as Hl.
  destruct (Z.ltb_spec (Z.of_nat (length (int_chars c)) + e) 0); [lia|].
  destruct (Z.ltb_spec (Z.of_nat (length (int_chars c))) (Z.of_nat (length (int_chars c)) + e)).
  - rewrite app_nil_r. do 3 f_equal. lia.
  - assert (e = 0) as -> by lia. rewrite Z.add_0_r, Nat2Z.id, take_ge, drop_ge by done.
    change (replicate (Z.to_nat 0) zero_char) with (@nil Ascii.ascii). rewrite !app_nil_r.
    destruct (int_chars c); [by apply Nat.lt_irrefl in Hl|done].
Qed.

Lemma format_f_neg_exp neg c e :
  0 < c → e < 0 →
  let k := Z.to_nat (- e) in
  format_f (mkDec neg c e) =
    sign_chars neg ++ take (length (padded c k) - k) (padded c k) ++
    dot :: drop (length (padded c k) - k) (padded c k).
Proof.
  intros Hc He k. unfold format_f. cbn [dec_neg dec_coef dec_exp].
  destruct (Z.eqb_spec c 0); [lia|]. cbn [andb]. fold (int_chars c). cbv zeta.
  pose proof (int_chars_nonempty c) as Hl. set (int := int_chars c) in *.
  assert (Hk : e = - Z.of_nat k) by lia. f_equal. unfold padded. fold int.
  destruct (Z.ltb_spec (Z.of_nat (length int) + e) 0).
  - replace (S k - length int)%nat with (S (Z.to_nat (- (Z.of_nat (length int) + e)))) by lia.
    cbn [replicate app length take drop]. rewrite length_app, length_replicate.
    replace (S (Z.to_nat (- (Z.of_nat (length int) + e)) + length int) - k)%nat with 1%nat by lia.
    cbn [take drop]. destruct (replicate _ _ ++ int) eqn:E; [|done].
    apply app_eq_nil in E as [_ E]. rewrite E in Hl. by apply Nat.lt_irrefl in Hl.
  - destruct (Z.ltb_spec (Z.of_nat (length int)) (Z.of_nat (length int) + e)); [lia|].
    destruct (decide (length int = k)) as [Heq|Hne].
    + replace (S k - length int)%nat with 1%nat by lia. cbn [replicate app length].
      replace (S (length int) - k)%nat with 1%nat by lia.
      replace (Z.to_nat (Z.of_nat (length int) + e)) with 0%nat by lia. cbn [take drop].
      destruct int; [by apply Nat.lt_irrefl in Hl|done].
    + replace (S k - length int)%nat with 0%nat by lia. cbn [replicate app].
      replace (Z.to_nat (Z.of_nat (length int) + e)) with (length int - k)%nat by lia.
      assert (length (take (length int - k) int) = (length int - k)%nat) by (rewrite length_take; lia).
      assert (length (drop (length int - k) int) = k) by (rewrite length_drop; lia).
      destruct (take (length int - k) int); [cbn in *; lia|].
      destruct (drop (length int - k) int); [cbn in *; lia|done].
Qed.

Lemma canonical_chars_pos neg c e :
  0 < c → canonical_chars (mkDec neg c e) = sign_chars neg ++ ucanon c e.
Proof.
  intros Hc. unfold canonical_chars.
  assert (Hstrip : (if existsb (Ascii.eqb dot) (format_f (mkDec neg c e))
    then rstrip_char dot (rstrip_char zero_char (format_f (mkDec neg c e)))
    else format_f (mkDec neg c e)) = sign_chars neg ++ ucanon c e).
  { assert (Hsg : existsb (Ascii.eqb dot) (sign_chars neg) = false) by (by destruct neg).
    destruct (Z.le_gt_cases 0 e) as [He|He].
    - rewrite format_f_nonneg_exp, existsb_app, Hsg by lia. unfold ucanon.
      destruct (Z.leb_spec 0 e); [|lia]. rewrite digits_no_dot; [done|].
      apply Forall_app. split; [apply int_chars_digits; lia|apply replicate_zero_digits].
    - rewrite format_f_neg_exp by lia. cbv zeta. set (k := Z.to_nat (- e)).
      rewrite !existsb_app. cbn [existsb]. rewrite Ascii.eqb_refl, !orb_true_r.
      rewrite strip_fraction.
      + unfold ucanon. destruct (Z.leb_spec 0 e); [lia|done].
      + apply digit_chars_take, padded_digits. lia.
      + apply take_padded_nonempty.
      + apply digit_chars_drop, padded_digits. lia. }
  rewrite Hstrip. destruct (ucanon_digit_head c e Hc) as (x & l & Hu & Hx).
  pose proof (ucanon_not_zero c e Hc) as Hz.
  rewrite !bool_decide_eq_false_2; [done| |].
  - destruct neg; cbn; [congruence|]. rewrite Hu. intros [=-> _]. done.
  - destruct neg; cbn; [done|]. by rewrite Hu.
Qed.

(** *** One text per value *)

Lemma int_chars_mul10 c : 0 < c → int_chars (10 * c) = int_chars c ++ [zero_char].
Proof. intros. unfold int_chars. by rewrite digits_mul10, map_app. Qed.

(** Moving a zero from the exponent to the coefficient keeps the text. *)
Lemma ucanon_step c e : 0 < c → ucanon (10 * c) (e - 1) = ucanon c e.
Proof.
  intros Hc. unfold ucanon. pose proof (int_chars_nonempty c) as Hl.
  destruct (Z.leb_spec 0 (e - 1)), (Z.leb_spec 0 e); try lia.
  - rewrite int_chars_mul10, <- app_assoc by done. f_equal.
    replace (Z.to_nat e) with (S (Z.to_nat (e - 1))) by lia. done.
  - assert (e = 0) as -> by lia. cbn [Z.sub Z.opp Z.add Z.to_nat]. cbv zeta.
    change (Z.to_nat (- (0 - 1))) with 1%nat. change (replicate (Z.to_nat 0) zero_char) with (@nil Ascii.ascii).
    assert (padded (10 * c) 1 = int_chars c ++ [zero_char]) as ->.
    { unfold padded. rewrite int_chars_mul10, length_app by done. cbn [length].
      by replace (2 - (length (int_chars c) + 1))%nat with 0%nat by lia. }
    rewrite length_app. cbn [length].
    replace (length (int_chars c) + 1 - 1)%nat with (length (int_chars c)) by lia.
    by rewrite take_app_length, drop_app_length.
  - cbv zeta. set (k := Z.to_nat (- e)). replace (Z.to_nat (- (e - 1))) with (S k) by lia.
    assert (padded (10 * c) (S k) = padded c k ++ [zero_char]) as ->.
    { unfold padded. rewrite int_chars_mul10, length_app by done. cbn [length].
      replace (S (S k) - (length (int_chars c) + 1))%nat with (S k - length (int_chars c))%nat by lia.
      by rewrite app_assoc. }
    rewrite length_app. cbn [length]. pose proof (padded_length c k).
    replace (length (padded c k) + 1 - S k)%nat with (length (padded c k) - k)%nat by lia.
    rewrite take_app_le, drop_app_le by lia. f_equal.
    unfold frac_chars, rstrip_char. by rewrite drop_while_end_snoc_drop.
Qed.

Lemma ucanon_scale c e n : 0 < c → ucanon (c * 10 ^ Z.of_nat n) (e - Z.of_nat n) = ucanon c e.
Proof.
  intros Hc. induction n as [|n IH].
  - cbn [Z.of_nat]. by rewrite Z.mul_1_r, Z.sub_0_r.
  - rewrite <- IH, Nat2Z.inj_succ, Z.pow_succ_r by lia.
    replace (c * (10 * 10 ^ Z.of_nat n)) with (10 * (c * 10 ^ Z.of_nat n)) by ring.
    replace (e - Z.succ (Z.of_nat n)) with ((e - Z.of_nat n) - 1) by lia.
    apply ucanon_step. pose proof (Z.pow_pos_nonneg 10 (Z.of_nat n)). nia.
Qed.

Lemma dec_at_sign_pos e d : dec_wf d → 0 < dec_coef d → e ≤ dec_exp d →
  (0 < dec_at e d ↔ dec_neg d = false) ∧ dec_at e d ≠ 0.
Proof.
  unfold dec_wf, dec_at, dec_signed. intros _ Hc He.
  pose proof (Z.pow_pos_nonneg 10 (dec_exp d - e)).
  destruct (dec_neg d); split; [split; [nia|done]|nia|split; [done|nia]|nia].
Qed.

Lemma dec_at_coef0 e d : dec_coef d = 0 → dec_at e d = 0.
Proof. unfold dec_at, dec_signed. intros ->. by destruct (dec_neg d). Qed.

Lemma ucanon_eqv_le c1 e1 c2 e2 :
  0 < c1 → e2 ≤ e1 → c1 * 10 ^ (e1 - e2) = c2 → ucanon c1 e1 = ucanon c2 e2.
Proof.
  intros Hc He <-. rewrite <- (ucanon_scale c1 e1 (Z.to_nat (e1 - e2))) by done.
  rewrite Z2Nat.id by lia. f_equal. lia.
Qed.

Lemma canonical_chars_eqv a b :
  dec_parsed a → dec_parsed b → dec_eqv a b → canonical_chars a = canonical_chars b.
Proof.
  intros [Ha Ha0] [Hb Hb0] Heqv. unfold dec_eqv in Heqv. unfold dec_wf in *.
  destruct (decide (dec_coef a = 0)) as [Hza|Hza].
  - rewrite (dec_at_coef0 _ a Hza) in Heqv. rewrite (Ha0 Hza).
    destruct (decide (dec_coef b = 0)) as [Hzb|Hzb]; [by rewrite (Hb0 Hzb)|].
    destruct (dec_at_sign_pos (Z.min (dec_exp a) (dec_exp b)) b); [done|lia|lia|congruence].
  - destruct (decide (dec_coef b = 0)) as [Hzb|Hzb].
    { rewrite (dec_at_coef0 _ b Hzb) in Heqv.
      destruct (dec_at_sign_pos (Z.min (dec_exp a) (dec_exp b)) a); [done|lia|lia|congruence]. }
    destruct (dec_at_sign_pos (Z.min (dec_exp a) (dec_exp b)) a) as [Hsa _]; [done|lia|lia|].
    destruct (dec_at_sign_pos (Z.min (dec_exp a) (dec_exp b)) b) as [Hsb _]; [done|lia|lia|].
    assert (Hneg : dec_neg a = dec_neg b).
    { rewrite Heqv in Hsa.
      assert (dec_neg a = false ↔ dec_neg b = false) as Hiff by (by rewrite <- Hsa, <- Hsb).
      clear -Hiff. destruct (dec_neg a), (dec_neg b); intuition congruence. }
    destruct a as [na ca ea], b as [nb cb eb]. cbn in *. subst nb.
    rewrite !canonical_chars_pos by lia. f_equal.
    assert (Hmag : ca * 10 ^ (ea - Z.min ea eb) = cb * 10 ^ (eb - Z.min ea eb)).
    { unfold dec_at, dec_signed in Heqv. cbn in Heqv. destruct na; lia. }
    destruct (Z.le_gt_cases eb ea).
    + rewrite Z.min_r in Hmag by lia. rewrite Z.sub_diag, Z.mul_1_r in Hmag.
      by apply ucanon_eqv_le; [lia| |].
    + rewrite Z.min_l in Hmag by lia. rewrite Z.sub_diag, Z.mul_1_r in Hmag.
      symmetry. by apply ucanon_eqv_le; [lia|lia|].
Qed.

(** *** Reading a canonical text back *)

(** A character the reader neither strips nor skips. *)
Definition plain_char (c : Ascii.ascii) : Prop :=
  is_space c = false ∧ Ascii.eqb c underscore = false.

Lemma digit_plain c : is_digit c = true → plain_char c.
Proof.
  intros Hd. split.
  - unfold is_digit, is_space in *. lia.
  - apply Ascii.eqb_neq. intros ->. done.
Qed.

Lemma strip_plain l : Forall plain_char l → strip (text l) = text l.
Proof.
  intros HF. unfold strip. rewrite chars_text. f_equal.
  assert (drop_while is_space l = l) as ->.
  { destruct HF as [|x l [Hx _] _]; [done|]. by apply drop_while_id. }
  apply drop_while_end_id. intros l' x ->.
  apply Forall_app in HF as [_ HF]. by apply Forall_cons in HF as [[Hx _] _].
Qed.

Lemma filter_underscore_plain l :
  Forall plain_char l → List.filter (λ c, negb (Ascii.eqb c underscore)) l = l.
Proof.
  induction 1 as [|x l [_ Hx] _ IH]; cbn; [done|]. rewrite Hx. cbn. by rewrite IH.
Qed.

Lemma span_digits l r :
  digit_chars l → (∀ c r', r = c :: r' → is_digit c = false) → span is_digit (l ++ r) = (l, r).
Proof.
  intros HF Hr. induction HF as [|x l Hx _ IH]; cbn.
  - destruct r as [|c r']; [done|]. cbn. by rewrite (Hr c r').
  - rewrite Hx, IH. done.
Qed.

Lemma is_special_digit c l : is_digit c = true → is_special (c :: l) = false.
Proof.
  intros Hc. unfold is_special. cbn [map].
  assert (to_lower c = c) as ->.
  { unfold to_lower. destruct (is_upper c) eqn:E; [|done].
    unfold is_upper, is_digit in *. lia. }
  assert (Hne : ∀ x, is_digit x = false → c ≠ x) by (intros x Hx ->; congruence).
  assert (Hne' : ∀ x, is_digit x = false → Ascii.eqb x c = false) by (intros; by apply digit_not).
  assert (∀ x t, is_digit x = false → bool_decide (c :: map to_lower l = x :: t) = false) as Hb.
  { intros x t Hx. apply bool_decide_eq_false_2. intros [=]. by eapply Hne. }
  change (chars "inf") with (chr 105 :: chars "nf").
  change (chars "infinity") with (chr 105 :: chars "nfinity").
  change (chars "nan") with (chr 110 :: chars "an").
  change (chars "snan") with (chr 115 :: chars "nan").
  rewrite !Hb by done. cbn [strip_prefix]. by rewrite !Hne' by done.
Qed.

Definition frac_text (f : list Ascii.ascii) : list Ascii.ascii :=
  match f with [] => [] | _ => dot :: f end.

Lemma take_sign_sign neg x l :
  is_digit x = true → take_sign (sign_chars neg ++ x :: l) = (neg, x :: l).
Proof.
  intros Hx. destruct neg; cbn.
  - by rewrite Ascii.eqb_refl.
  - rewrite (proj2 (Ascii.eqb_neq x minus)), (proj2 (Ascii.eqb_neq x plus)); [done| |];
      intros ->; discriminate Hx.
Qed.

Lemma plain_text_chars neg ip f :
  digit_chars ip → digit_chars f → Forall plain_char (sign_chars neg ++ ip ++ frac_text f).
Proof.
  intros Hip Hf. assert (∀ l, digit_chars l → Forall plain_char l) as Hd.
  { intros l Hl. eapply Forall_impl; [exact Hl|]. intros c. apply digit_plain. }
  repeat apply Forall_app_2; [destruct neg; by repeat constructor|auto|].
  destruct f; [done|]. constructor; [done|auto].
Qed.

Lemma Decimal_of_plain_text neg ip f :
  digit_chars ip → ip ≠ [] → digit_chars f →
  Decimal_of_text (text (sign_chars neg ++ ip ++ frac_text f)) =
    Some (DFinite (mkDec neg (chars_value (ip ++ f)) (- Z.of_nat (length f)))).
Proof.
  intros Hip Hne Hf. unfold Decimal_of_text.
  rewrite strip_plain, chars_text, filter_underscore_plain by (by apply plain_text_chars).
  destruct ip as [|x ip]; [done|]. pose proof Hip as Hip0.
  apply Forall_cons in Hip0 as [Hx _]. cbn [app].
  rewrite take_sign_sign, is_special_digit by done. unfold parse_number.
  change (x :: ip ++ frac_text f) with ((x :: ip) ++ frac_text f).
  rewrite (span_digits (x :: ip) (frac_text f) Hip).
  2:{ intros c r' E. destruct f; cbn in E; [done|]. by simplify_eq. }
  destruct f as [|y f]; cbn [frac_text].
  - rewrite !app_nil_r. done.
  - rewrite Ascii.eqb_refl. rewrite <- (app_nil_r (y :: f)) at 1.
    rewrite span_digits by done. cbn [parse_exponent app]. cbn [mbind option_bind fmap option_fmap option_map].
    done.
Qed.

Lemma frac_chars_split f :
  digit_chars f → ∃ g n, frac_chars f = frac_text g ∧ f = g ++ replicate n zero_char ∧ digit_chars g.
Proof.
  intros Hf. destruct (drop_while_end_split (Ascii.eqb zero_char) f) as (k & Hk & HkF).
  exists (rstrip_char zero_char f), (length k).
  split; [unfold frac_chars; by destruct (rstrip_char _ _)|]. split; [|by apply rstrip_zero_digits].
  rewrite Hk at 1. unfold rstrip_char. f_equal. clear Hk.
  induction HkF as [|z k Hz _ IH]; cbn; [done|]. apply Ascii.eqb_eq in Hz as <-. by rewrite <- IH.
Qed.

(** Reading the canonical text of a value gives a decimal of the same value. *)
Lemma Decimal_of_canonical d :
  dec_parsed d →
  ∃ d', Decimal_of_text (dec_text d) = Some (DFinite d') ∧ dec_parsed d' ∧ dec_eqv d d' ∧
        (dec_coef d' = 0 ↔ dec_coef d = 0).
Proof.
  intros [Hwf Hz]. unfold dec_wf in Hwf. destruct (decide (dec_coef d = 0)) as [H0|H0].
  { rewrite (Hz H0). exists dec_zero. split; [by vm_compute|]. repeat split; done. }
  destruct d as [neg c e]. cbn in Hwf, H0, Hz. unfold dec_text.
  rewrite canonical_chars_pos by lia. unfold ucanon. destruct (Z.leb_spec 0 e) as [He|He].
  - assert (Hd : digit_chars (int_chars c ++ replicate (Z.to_nat e) zero_char)).
    { apply Forall_app. split; [apply int_chars_digits; lia|apply replicate_zero_digits]. }
    assert (Hne : int_chars c ++ replicate (Z.to_nat e) zero_char ≠ []).
    { pose proof (int_chars_nonempty c) as Hl. intros [E _]%app_eq_nil. rewrite E in Hl.
      by apply Nat.lt_irrefl in Hl. }
    pose proof (Decimal_of_plain_text neg _ [] Hd Hne (Forall_nil_2 _)) as Hp.
    cbn [frac_text] in Hp. rewrite app_nil_r in Hp. rewrite Hp.
    eexists. split; [done|]. rewrite chars_value_app_zeros, chars_value_int by lia.
    rewrite Z2Nat.id by lia. cbn [length Z.of_nat Z.opp].
    pose proof (Z.pow_pos_nonneg 10 e). unfold dec_parsed, dec_wf, dec_eqv, dec_at, dec_signed.
    cbn [dec_neg dec_coef dec_exp]. rewrite Z.min_r by lia. rewrite !Z.sub_0_r, Z.pow_0_r, Z.mul_1_r. split; [split; nia|]. split; [destruct neg; lia|nia].
  - cbv zeta. set (k := Z.to_nat (- e)).
    assert (Hp : digit_chars (padded c k)) by (apply padded_digits; lia).
    destruct (frac_chars_split (drop (length (padded c k) - k) (padded c k)))
      as (g & n & -> & Hsplit & Hg); [by apply digit_chars_drop|].
    rewrite Decimal_of_plain_text; [|by apply digit_chars_take|apply take_padded_nonempty|done].
    eexists. split; [done|].
    pose proof (chars_value_padded c k ltac:(lia)) as Hv.
    rewrite <- (take_drop (length (padded c k) - k) (padded c k)), Hsplit, app_assoc,
      chars_value_app_zeros in Hv.
    pose proof (drop_padded_length c k) as Hlen. rewrite Hsplit, length_app, length_replicate in Hlen.
    set (v := chars_value _) in *. pose proof (Z.pow_pos_nonneg 10 (Z.of_nat n)).
    unfold dec_parsed, dec_wf, dec_eqv, dec_at, dec_signed.
    cbn [dec_neg dec_coef dec_exp]. rewrite Z.min_l by lia. rewrite Z.sub_diag, Z.pow_0_r, Z.mul_1_r.
    replace (- Z.of_nat (length g) - e) with (Z.of_nat n) by lia.
    split; [split; nia|]. split; [destruct neg; lia|nia].
Qed.

(** *** Numeric equality and order *)

Lemma dec_at_scale e' e d :
  e' ≤ e → e ≤ dec_exp d → dec_at e' d = dec_at e d * 10 ^ (e - e').
Proof.
  intros H1 H2. unfold dec_at. rewrite <- Z.mul_assoc, <- Z.pow_add_r by lia. do 2 f_equal. lia.
Qed.

(** Comparison at any common exponent. *)
Lemma dec_compare_at e a b :
  e ≤ dec_exp a → e ≤ dec_exp b → dec_compare a b = Z.compare (dec_at e a) (dec_at e b).
Proof.
  intros Ha Hb. unfold dec_compare. set (m := Z.min (dec_exp a) (dec_exp b)).
  rewrite (dec_at_scale e m a), (dec_at_scale e m b) by lia.
  pose proof (Z.pow_pos_nonneg 10 (m - e)).
  apply Zmult_compare_compat_r. lia.
Qed.

Lemma dec_eqv_at e a b :
  e ≤ dec_exp a → e ≤ dec_exp b → dec_eqv a b ↔ dec_at e a = dec_at e b.
Proof.
  intros Ha Hb. rewrite <- Z.compare_eq_iff, <- dec_compare_at by done.
  unfold dec_eqv, dec_compare. by rewrite Z.compare_eq_iff.
Qed.

#[export] Instance dec_eqv_equiv : Equivalence dec_eqv.
Proof.
  split.
  - intros a. by apply (dec_eqv_at (dec_exp a)).
  - intros a b H. apply (dec_eqv_at (Z.min (dec_exp a) (dec_exp b))); [lia|lia|].
    by apply (dec_eqv_at (Z.min (dec_exp a) (dec_exp b))) in H; [|lia|lia].
  - intros a b c H1 H2. set (e := Z.min (dec_exp a) (Z.min (dec_exp b) (dec_exp c))).
    apply (dec_eqv_at e) in H1, H2; [|lia..]. apply (dec_eqv_at e); [lia|lia|]. congruence.
Qed.

#[export] Instance dec_compare_proper : Proper (dec_eqv ==> dec_eqv ==> eq) dec_compare.
Proof.
  intros a a' Ha b b' Hb.
  set (e := Z.min (Z.min (dec_exp a) (dec_exp a')) (Z.min (dec_exp b) (dec_exp b'))).
  apply (dec_eqv_at e) in Ha, Hb; [|lia..].
  rewrite !(dec_compare_at e) by lia. by rewrite Ha, Hb.
Qed.

#[export] Instance dec_leb_proper : Proper (dec_eqv ==> dec_eqv ==> eq) dec_leb.
Proof. intros a a' Ha b b' Hb. unfold dec_leb. by rewrite Ha, Hb. Qed.

#[export] Instance dec_ltb_proper : Proper (dec_eqv ==> dec_eqv ==> eq) dec_ltb.
Proof. intros a a' Ha b b' Hb. unfold dec_ltb. by rewrite Ha, Hb. Qed.

Lemma dec_leb_at e a b :
  e ≤ dec_exp a → e ≤ dec_exp b → dec_leb a b = (dec_at e a <=? dec_at e b).
Proof. intros. unfold dec_leb, Z.leb. by rewrite (dec_compare_at e). Qed.

Lemma dec_ltb_at e a b :
  e ≤ dec_exp a → e ≤ dec_exp b → dec_ltb a b = (dec_at e a <? dec_at e b).
Proof. intros. unfold dec_ltb, Z.ltb. by rewrite (dec_compare_at e). Qed.

Lemma dec_leb_trans a b c : dec_leb a b = true → dec_leb b c = true → dec_leb a c = true.
Proof.
  set (e := Z.min (dec_exp a) (Z.min (dec_exp b) (dec_exp c))).
  rewrite !(dec_leb_at e) by lia. lia.
Qed.

Lemma dec_ltb_leb a b : dec_ltb a b = negb (dec_leb b a).
Proof.
  set (e := Z.min (dec_exp a) (dec_exp b)).
  rewrite (dec_ltb_at e), (dec_leb_at e) by lia. lia.
Qed.

#[export] Instance dec_max_proper : Proper (dec_eqv ==> dec_eqv ==> dec_eqv) dec_max.
Proof. intros a a' Ha b b' Hb. unfold dec_max. rewrite <- Ha, <- Hb. by destruct (dec_ltb a b). Qed.

#[export] Instance dec_min_proper : Proper (dec_eqv ==> dec_eqv ==> dec_eqv) dec_min.
Proof. intros a a' Ha b b' Hb. unfold dec_min. rewrite <- Ha, <- Hb. by destruct (dec_ltb b a). Qed.

Lemma dec_leb_refl a : dec_leb a a = true.
Proof. rewrite (dec_leb_at (dec_exp a)) by lia. lia. Qed.

Lemma dec_leb_total a b : dec_leb a b = true ∨ dec_leb b a = true.
Proof.
  set (e := Z.min (dec_exp a) (dec_exp b)). rewrite !(dec_leb_at e) by lia. lia.
Qed.

Lemma dec_max_le a b c :
  dec_leb (dec_max a b) c = dec_leb a c && dec_leb b c.
Proof.
  set (e := Z.min (dec_exp a) (Z.min (dec_exp b) (dec_exp c))).
  unfold dec_max. rewrite (dec_ltb_at e) by lia.
  destruct (_ <? _) eqn:E; rewrite !(dec_leb_at e) by lia; lia.
Qed.

Lemma dec_min_ge a b c :
  dec_leb c (dec_min a b) = dec_leb c a && dec_leb c b.
Proof.
  set (e := Z.min (dec_exp a) (Z.min (dec_exp b) (dec_exp c))).
  unfold dec_min. rewrite (dec_ltb_at e) by lia.
  destruct (_ <? _) eqn:E; rewrite !(dec_leb_at e) by lia; lia.
Qed.

Example dec_str_examples :
  map dec_str [mkDec false 123 (-2); mkDec true 123 3; mkDec false 1 (-7); mkDec false 0 2; mkDec false 15 (-8)]
  = ["1.23"; "-1.23E+5"; "1E-7"; "0E+2"; "1.5E-7"]%string.
Proof. vm_compute. reflexivity. Qed.

(** *** What the parser returns *)

Definition input_wf (v : DecimalInput) : Prop :=
  match v with InDecimal (DFinite d) => dec_wf d | _ => True end.

Lemma fold_digits_nonneg (l : list Ascii.ascii) acc :
  0 ≤ acc → digit_chars l → 0 ≤ fold_left (λ a d, 10 * a + d) (map char_digit l) acc.
Proof.
  intros Ha HF. revert acc Ha. induction HF as [|c l Hc _ IH]; intros acc Ha; cbn; [done|].
  apply IH. unfold char_digit, is_digit in *. lia.
Qed.

Lemma span_fst_digits l : digit_chars (span is_digit l).1.
Proof.
  induction l as [|c l IH]; cbn; [constructor|]. destruct (is_digit c) eqn:E; [|constructor].
  destruct (span is_digit l). by constructor.
Qed.

Lemma parse_number_wf neg l d : parse_number neg l = Some d → dec_wf d.
Proof.
  unfold parse_number. pose proof (span_fst_digits l) as Hip.
  destruct (span is_digit l) as [ip rest]. cbn in Hip.
  assert (∃ fp rest', match rest with
            | [] => ([], [])
            | c :: r => if Ascii.eqb c dot then span is_digit r else ([], rest)
            end = (fp, rest') ∧ digit_chars fp) as (fp & rest' & -> & Hfp).
  { destruct rest as [|c r]; [exists [], []; split; [done|constructor]|].
    destruct (Ascii.eqb c dot).
    - pose proof (span_fst_digits r) as Hr. destruct (span is_digit r). by eexists _, _.
    - eexists _, _. split; [done|constructor]. }
  destruct (ip ++ fp) as [|x ds] eqn:E; [done|].
  assert (digit_chars (x :: ds)) as HF by (rewrite <- E; by apply Forall_app).
  destruct (parse_exponent rest') as [e|]; cbn; [|done]. intros [= <-].
  unfold dec_wf. cbn [dec_coef]. by apply (fold_digits_nonneg (x :: ds)).
Qed.

Lemma Decimal_of_text_wf s d : Decimal_of_text s = Some (DFinite d) → dec_wf d.
Proof.
  unfold Decimal_of_text. destruct (take_sign _) as [neg l]. destruct (is_special l); [done|].
  destruct (parse_number neg l) eqn:E; cbn; [|done]. intros [= <-]. by eapply parse_number_wf.
Qed.

(** [parse_decimal] gives a finite decimal with one form of zero. *)
Lemma parse_decimal_parsed v d : input_wf v → parse_decimal v = Ok d → dec_parsed d.
Proof.
  assert (Hfin : ∀ d0, dec_wf d0 → ∀ d, (if dec_coef d0 =? 0 then Ok dec_zero else Ok d0) = Ok d →
                 dec_parsed d).
  { intros d0 Hwf d'. destruct (Z.eqb_spec (dec_coef d0) 0); intros [= <-]; [by split|].
    by split. }
  unfold parse_decimal, raise. destruct v as [[d0|]|s|z|b|shown|shown]; cbn; intros Hwf H; try discriminate H.
  - by eapply Hfin.
  - destruct (Decimal_of_text (strip s)) as [[d0|]|] eqn:E; try discriminate H.
    eapply Hfin; [by eapply Decimal_of_text_wf|done].
  - destruct (Decimal_of_text _) as [[d0|]|] eqn:E; try discriminate H.
    eapply Hfin; [by eapply Decimal_of_text_wf|done].
Qed.

Lemma canonical_chars_plain d : dec_parsed d → Forall plain_char (canonical_chars d).
Proof.
  intros [Hwf Hz]. unfold dec_wf in *. destruct (decide (dec_coef d = 0)) as [H0|H0].
  { rewrite (Hz H0). vm_compute. by repeat constructor. }
  destruct d as [neg c e]. cbn in Hwf, H0. rewrite canonical_chars_pos by lia. unfold ucanon.
  destruct (0 <=? e); cbv zeta.
  - rewrite <- (app_nil_r (int_chars c ++ _)). apply (plain_text_chars neg _ []); [|constructor].
    apply Forall_app. split; [apply int_chars_digits; lia|apply replicate_zero_digits].
  - set (k := Z.to_nat (- e)).
    assert (Hp : digit_chars (padded c k)) by (apply padded_digits; lia).
    destruct (frac_chars_split (drop (length (padded c k) - k) (padded c k)))
      as (g & n & -> & _ & Hg); [by apply digit_chars_drop|].
    apply plain_text_chars; [by apply digit_chars_take|done].
Qed.

Lemma strip_dec_text d : dec_parsed d → strip (dec_text d) = dec_text d.
Proof. intros. by apply strip_plain, canonical_chars_plain. Qed.

(** Reading the canonical text of a parsed decimal with [parse_decimal]. *)
Lemma dec_of_dec_text d :
  dec_parsed d → ∃ d', dec_of_text (dec_text d) = Ok d' ∧ dec_parsed d' ∧ dec_eqv d d'.
Proof.
  intros Hd. destruct (Decimal_of_canonical d Hd) as (d' & Hp & Hd' & Heqv & Hz).
  unfold dec_of_text, parse_decimal. rewrite strip_dec_text, Hp by done. cbn.
  destruct (Z.eqb_spec (dec_coef d') 0) as [H0|H0].
  - exists dec_zero. split; [done|]. split; [by split|]. destruct Hd' as [_ Hd']. by rewrite <- (Hd' H0).
  - by exists d'.
Qed.

Lemma dec_text_eqv a b : dec_parsed a → dec_parsed b → dec_text a = dec_text b ↔ dec_eqv a b.
Proof.
  intros Ha Hb. split.
  - intros H. destruct (dec_of_dec_text a Ha) as (a' & Ha' & _ & Hea).
    destruct (dec_of_dec_text b Hb) as (b' & Hb' & _ & Heb). rewrite H in Ha'.
    assert (a' = b') as <- by congruence. by rewrite Hea, Heb.
  - intros H. unfold dec_text. f_equal. by apply canonical_chars_eqv.
Qed.

(** The text of a re-read text is the text. *)
Lemma dec_text_reread d d' : dec_parsed d → dec_of_text (dec_text d) = Ok d' → dec_text d' = dec_text d.
Proof.
  intros Hd H. destruct (dec_of_dec_text d Hd) as (d'' & H' & Hp & Heqv).
  assert (d'' = d') as -> by congruence. symmetry. by apply dec_text_eqv.
Qed.

Lemma decimal_to_canonical_text_ok v d :
  parse_decimal v = Ok d → decimal_to_canonical_text v = Ok (dec_text d).
Proof. unfold decimal_to_canonical_text. intros ->. reflexivity. Qed.

(** A canonical text is its own canonical text. *)
Lemma canonical_text_fixed d :
  dec_parsed d → decimal_to_canonical_text (InStr (dec_text d)) = Ok (dec_text d).
Proof.
  intros Hp. destruct (dec_of_dec_text d Hp) as (d' & H' & _).
  rewrite (decimal_to_canonical_text_ok _ d') by exact H'.
  by rewrite (dec_text_reread d d').
Qed.

(** ** Properties *)

(** Canonical decimal text is one text per numeric value: two inputs that parse get
    the same text exactly when they denote the same number. *)
Theorem canonical_text_unique (v w : DecimalInput) (a b : Dec) (s t : string) :
  input_wf v → input_wf w →
  parse_decimal v = Ok a → parse_decimal w = Ok b →
  decimal_to_canonical_text v = Ok s → decimal_to_canonical_text w = Ok t →
  s = t ↔ dec_compare a b = Eq.
Proof.
  intros Hv Hw Ha Hb. unfold decimal_to_canonical_text. rewrite Ha, Hb. cbn.
  intros [= <-] [= <-]. fold (dec_text a). fold (dec_text b).
  rewrite dec_text_eqv by eauto using parse_decimal_parsed.
  unfold dec_eqv, dec_compare. by rewrite Z.compare_eq_iff.
Qed.

Lemma canonical_text_unique_witness :
  decimal_to_canonical_text (InStr "104.500") = Ok "104.5" ∧
  decimal_to_canonical_text (InStr "1.045E+2") = Ok "104.5" ∧
  ("104.5" = "104.5" ↔ dec_compare (mkDec false 104500 (-3)) (mkDec false 1045 (-1)) = Eq).
Proof.
  split; [by vm_compute|]. split; [by vm_compute|].
  apply (canonical_text_unique (InStr "104.500") (InStr "1.045E+2")); by vm_compute.
Defined.

(** Round trip: the canonical text of any accepted input is accepted by
    [parse_canonical_decimal_text], gives a decimal of the same value, and is its own
    canonical text. *)
Theorem canonical_text_roundtrip (v : DecimalInput) (d : Dec) (s : string) :
  input_wf v → parse_decimal v = Ok d → decimal_to_canonical_text v = Ok s →
  decimal_to_canonical_text (InStr s) = Ok s ∧
  ∃ d', parse_canonical_decimal_text s = Ok d' ∧ dec_compare d d' = Eq.
Proof.
  intros Hv Hd Hs. pose proof (parse_decimal_parsed v d Hv Hd) as Hp.
  rewrite (decimal_to_canonical_text_ok _ _ Hd) in Hs. apply (inj Ok) in Hs as <-.
  pose proof (canonical_text_fixed d Hp) as Hfix. split; [exact Hfix|].
  unfold parse_canonical_decimal_text. rewrite Hfix. cbn [mbind res_bind].
  rewrite bool_decide_eq_true_2 by done. cbn [negb].
  destruct (Decimal_of_canonical d Hp) as (d' & -> & _ & Heqv & _).
  exists d'. split; [done|]. unfold dec_eqv in Heqv. unfold dec_compare.
  by rewrite Heqv, Z.compare_refl.
Qed.

Lemma canonical_text_roundtrip_witness :
  decimal_to_canonical_text (InStr "0.00100") = Ok "0.001" ∧
  (decimal_to_canonical_text (InStr "0.001") = Ok "0.001" ∧
   ∃ d', parse_canonical_decimal_text "0.001" = Ok d' ∧ dec_compare (mkDec false 100 (-5)) d' = Eq).
Proof.
  split; [by vm_compute|]. apply (canonical_text_roundtrip (InStr "0.00100")); by vm_compute.
Defined.

