(* ===== verification/Timeframes.v ===== *)
(** * Timeframes, the candle grid and time windows

    domain/timeframes.py and domain/windows.py.  A [TimeframeSpec.id] takes six values,
    so a validated timeframe is the enumeration [Timeframe] and the registry is the
    table [timeframe_spec]; [get_timeframe] is the lookup from text. *)

From S2P Require Import Prelude PyStr.

(** ** domain/timeframes.py *)

Record TimeframeSpec := mkTimeframeSpec {
  spec_id : string;
  spec_duration_ms : Z;
  spec_bybit_interval : string;
  spec_pandas_frequency : string
}.

(** [TimeframeSpec.__post_init__] *)
Definition TimeframeSpec_new (id : string) (duration_ms : Z) (interval frequency : string) :
    res TimeframeSpec :=
  _ ← raise_if (bool_decide (id = ""%string)) ExcValueError "timeframe id must not be empty";
  _ ← raise_if (duration_ms <=? 0) ExcValueError "timeframe duration must be positive";
  _ ← raise_if (bool_decide (interval = ""%string)) ExcValueError
        "Bybit interval must not be empty";
  _ ← raise_if (bool_decide (frequency = ""%string)) ExcValueError
        "pandas frequency must not be empty";
  mret (mkTimeframeSpec id duration_ms interval frequency).

Inductive Timeframe := TF_1m | TF_5m | TF_15m | TF_1h | TF_4h | TF_1d.

#[export] Instance Timeframe_eq_dec : EqDecision Timeframe.
Proof. solve_decision. Defined.

(** [_TIMEFRAMES], in its order. *)
Definition TIMEFRAMES : list Timeframe := [TF_1m; TF_5m; TF_15m; TF_1h; TF_4h; TF_1d].

Definition timeframe_spec (tf : Timeframe) : TimeframeSpec :=
  match tf with
  | TF_1m => mkTimeframeSpec "1m" 60000 "1" "1min"
  | TF_5m => mkTimeframeSpec "5m" (5 * 60000) "5" "5min"
  | TF_15m => mkTimeframeSpec "15m" (15 * 60000) "15" "15min"
  | TF_1h => mkTimeframeSpec "1h" (60 * 60000) "60" "1h"
  | TF_4h => mkTimeframeSpec "4h" (4 * 60 * 60000) "240" "4h"
  | TF_1d => mkTimeframeSpec "1d" (24 * 60 * 60000) "D" "1d"
  end.

Definition tf_id (tf : Timeframe) : string := spec_id (timeframe_spec tf).
Definition duration_ms (tf : Timeframe) : Z := spec_duration_ms (timeframe_spec tf).
Definition bybit_interval (tf : Timeframe) : string := spec_bybit_interval (timeframe_spec tf).

Definition find_timeframe (id : string) : option Timeframe :=
  List.find (λ tf, bool_decide (tf_id tf = id)) TIMEFRAMES.

Definition get_timeframe (timeframe_id : string) : res Timeframe :=
  let normalized := lower (strip timeframe_id) in
  match find_timeframe normalized with
  | Some tf => Ok tf
  | None =>
      raise ExcValueError ("unsupported timeframe " +:+ repr timeframe_id +:+ "; supported: "
                           +:+ join ", " (map tf_id TIMEFRAMES))
  end.

Definition align_to_grid (timestamp_ms step_ms : Z) : res Z :=
  _ ← raise_if (step_ms <=? 0) ExcValueError "step_ms must be positive";
  mret (timestamp_ms - timestamp_ms mod step_ms).

Definition ceil_to_grid (timestamp_ms step_ms : Z) : res Z :=
  aligned ← align_to_grid timestamp_ms step_ms;
  mret (if aligned =? timestamp_ms then aligned else aligned + step_ms).

Definition last_closed_open_time_ms (now_ms step_ms : Z) : res Z :=
  aligned ← align_to_grid now_ms step_ms;
  mret (aligned - step_ms).

(** ** domain/windows.py *)

Record TimeWindow := mkTimeWindow { start_ms : Z; end_ms : Z }.

#[export] Instance TimeWindow_eq_dec : EqDecision TimeWindow.
Proof. solve_decision. Defined.

Definition TimeWindow_new (s e : Z) : res TimeWindow :=
  _ ← raise_if (e <=? s) ExcValueError "time window must satisfy start_ms < end_ms";
  mret (mkTimeWindow s e).

Definition window_duration_ms (w : TimeWindow) : Z := end_ms w - start_ms w.

Definition window_contains (w : TimeWindow) (timestamp_ms : Z) : bool :=
  (start_ms w <=? timestamp_ms) && (timestamp_ms <? end_ms w).

Definition window_wf (w : TimeWindow) : Prop := start_ms w < end_ms w.

(** ** Facts *)

Lemma TIMEFRAMES_complete tf : tf ∈ TIMEFRAMES.
Proof. destruct tf; repeat (constructor || reflexivity); set_solver. Qed.

Lemma duration_pos tf : 0 < duration_ms tf.
Proof. by destruct tf. Qed.

Lemma tf_id_inj tf tf' : tf_id tf = tf_id tf' → tf = tf'.
Proof. by destruct tf, tf'. Qed.

Lemma find_timeframe_id tf : find_timeframe (tf_id tf) = Some tf.
Proof. by destruct tf. Qed.

Lemma get_timeframe_id tf : get_timeframe (tf_id tf) = Ok tf.
Proof. by destruct tf. Qed.

(** Every registry entry passes the check of [TimeframeSpec]. *)
Lemma timeframe_spec_valid tf :
  TimeframeSpec_new (tf_id tf) (duration_ms tf) (bybit_interval tf)
    (spec_pandas_frequency (timeframe_spec tf)) = Ok (timeframe_spec tf).
Proof. by destruct tf. Qed.

Lemma get_timeframe_ok s tf : get_timeframe s = Ok tf ↔ lower (strip s) = tf_id tf.
Proof.
  unfold get_timeframe, raise. split.
  - destruct (find_timeframe _) as [tf'|] eqn:E; [|done]. intros [= ->].
    apply List.find_some in E as [_ E]. by apply bool_decide_eq_true in E.
  - intros ->. by rewrite find_timeframe_id.
Qed.

Lemma align_to_grid_ok t step : 0 < step → align_to_grid t step = Ok (t - t mod step).
Proof. intros. unfold align_to_grid, raise_if. by destruct (Z.leb_spec step 0); [lia|]. Qed.

Lemma align_to_grid_raises t step :
  step ≤ 0 → align_to_grid t step = raise ExcValueError "step_ms must be positive".
Proof. intros. unfold align_to_grid, raise_if. by destruct (Z.leb_spec step 0); [|lia]. Qed.

Lemma ceil_to_grid_ok t step :
  0 < step → ceil_to_grid t step = Ok (if t mod step =? 0 then t else t - t mod step + step).
Proof.
  intros. unfold ceil_to_grid. rewrite align_to_grid_ok by done. cbn [mbind res_bind].
  destruct (Z.eqb_spec (t mod step) 0), (Z.eqb_spec (t - t mod step) t); cbn; f_equal; lia.
Qed.

Lemma last_closed_ok now step :
  0 < step → last_closed_open_time_ms now step = Ok (now - now mod step - step).
Proof. intros. unfold last_closed_open_time_ms. by rewrite align_to_grid_ok. Qed.

Lemma TimeWindow_new_ok s e w : TimeWindow_new s e = Ok w ↔ s < e ∧ w = mkTimeWindow s e.
Proof.
  unfold TimeWindow_new, raise_if, raise. destruct (Z.leb_spec e s); cbn; split.
  - done.
  - lia.
  - intros [= <-]. by split.
  - by intros [_ ->].
Qed.

Lemma TimeWindow_new_lt s e : s < e → TimeWindow_new s e = Ok (mkTimeWindow s e).
Proof. intros. by apply TimeWindow_new_ok. Qed.

Lemma window_contains_spec w t : window_contains w t = true ↔ start_ms w ≤ t < end_ms w.
Proof. unfold window_contains. lia. Qed.

#[export] Hint Resolve duration_pos : mds.
#[export] Hint Rewrite get_timeframe_id find_timeframe_id : mds.

(** The open time of a candle and of the last closed one, as numbers. *)
Definition on_grid (step t : Z) : Prop := t mod step = 0.

#[export] Instance on_grid_dec step t : Decision (on_grid step t).
Proof. unfold on_grid. apply _. Defined.

(** The last closed candle is the greatest grid point whose candle has ended. *)
Lemma last_closed_greatest now step t :
  0 < step → on_grid step t →
  t ≤ now - now mod step - step ↔ t + step ≤ now.
Proof.
  unfold on_grid. intros Hs Ht. pose proof (Z.mod_pos_bound now step Hs).
  split; [lia|]. intros H'.
  assert (¬ now - now mod step - step < t); [|lia]. intros Hlt.
  pose proof (Z_mod_mult_between (now - now mod step) (t + step) step Hs) as Hb.
  rewrite Z_mod_sub_mod, Z_mod_add_step in Hb by done. specialize (Hb eq_refl Ht). lia.
Qed.

(** ** Properties *)

(** The grid functions are the floor, the ceiling and the last closed candle of the grid:
    [align_to_grid] is the greatest grid point at or below the time, [ceil_to_grid] the
    least at or above it, and [last_closed_open_time_ms] the greatest grid point whose
    candle of one step has ended by the time. *)
Theorem grid_functions_spec (t step : Z) :
  0 < step →
  ∃ f c l, align_to_grid t step = Ok f ∧ ceil_to_grid t step = Ok c ∧
    last_closed_open_time_ms t step = Ok l ∧
    on_grid step f ∧ on_grid step c ∧ on_grid step l ∧
    ∀ x, on_grid step x →
      (x ≤ f ↔ x ≤ t) ∧ (c ≤ x ↔ t ≤ x) ∧ (x ≤ l ↔ x + step ≤ t).
Proof.
  intros Hs. rewrite align_to_grid_ok, ceil_to_grid_ok, last_closed_ok by done.
  eexists _, _, _. do 3 (split; [done|]).
  pose proof (Z.mod_pos_bound t step Hs) as Hb. unfold on_grid.
  assert (Hf : (t - t mod step) mod step = 0) by (by apply Z_mod_sub_mod).
  split; [done|]. split.
  { destruct (Z.eqb_spec (t mod step) 0); [done|]. by rewrite Z_mod_add_step. }
  split.
  { apply Z_mod0_sub; [done|apply Z.mod_same; lia|done]. }
  intros x Hx. split; [|split].
  - split; [lia|]. intros Hxt. assert (¬ t - t mod step < x); [|lia]. intros Hlt.
    pose proof (Z_mod_mult_between _ _ step Hs Hf Hx Hlt). lia.
  - destruct (Z.eqb_spec (t mod step) 0) as [Hz|Hz]; [done|]. split; [lia|]. intros Htx.
    apply Z_mod_mult_between; [done..|]. lia.
  - by apply last_closed_greatest.
Qed.

Lemma grid_functions_spec_witness :
  0 < 60000 ∧ align_to_grid 119999 60000 = Ok 60000 ∧
  ∃ f c l, align_to_grid 119999 60000 = Ok f ∧ ceil_to_grid 119999 60000 = Ok c ∧
    last_closed_open_time_ms 119999 60000 = Ok l ∧
    on_grid 60000 f ∧ on_grid 60000 c ∧ on_grid 60000 l ∧
    ∀ x, on_grid 60000 x →
      (x ≤ f ↔ x ≤ 119999) ∧ (c ≤ x ↔ 119999 ≤ x) ∧ (x ≤ l ↔ x + 60000 ≤ 119999).
Proof. split; [lia|]. split; [reflexivity|]. apply grid_functions_spec. lia. Defined.
