(* ===== verification/Identity.v ===== *)
(** * Instrument and stream identities (domain/identity.py)

    The constructors normalise their text, so [InstrumentKey_new] is the only way the
    code builds a key; [key_wf] is what it guarantees. *)

From S2P Require Import Prelude PyStr Timeframes.

Record InstrumentKey := mkInstrumentKey { ticker : string }.

#[export] Instance InstrumentKey_eq_dec : EqDecision InstrumentKey.
Proof. solve_decision. Defined.
#[export] Instance InstrumentKey_countable : Countable InstrumentKey.
Proof. by apply (inj_countable' ticker mkInstrumentKey); intros []. Defined.

Record StreamKey := mkStreamKey { instrument : InstrumentKey; timeframe : Timeframe }.

#[export] Instance StreamKey_eq_dec : EqDecision StreamKey.
Proof. solve_decision. Defined.

#[export] Instance Timeframe_countable : Countable Timeframe.
Proof. apply (inj_countable tf_id find_timeframe). intros. apply find_timeframe_id. Defined.

#[export] Instance StreamKey_countable : Countable StreamKey.
Proof.
  by apply (inj_countable' (λ k, (instrument k, timeframe k)) (λ p, mkStreamKey p.1 p.2)); intros [].
Defined.

(** [InstrumentKey.__post_init__] *)
Definition InstrumentKey_new (t : string) : res InstrumentKey :=
  let ticker := upper (strip t) in
  _ ← raise_if (bool_decide (ticker = ""%string)) ExcValueError "ticker must not be empty";
  _ ← raise_if (negb (isascii ticker)) ExcValueError
        "ticker must contain only ASCII characters";
  _ ← raise_if (negb (endswith ticker ".P")) ExcValueError
        "v1 ticker must use the perpetual suffix .P";
  let core := drop_last 2 ticker in
  _ ← raise_if (bool_decide (core = ""%string) || negb (isalnum core)) ExcValueError
        "ticker core must contain only ASCII letters and digits";
  mret (mkInstrumentKey ticker).

(** [StreamKey.__post_init__] *)
Definition StreamKey_new (k : InstrumentKey) (tf : string) : res StreamKey :=
  tf ← get_timeframe tf;
  mret (mkStreamKey k tf).

Definition instrument_canonical_id (k : InstrumentKey) : string := ticker k.

Definition stream_canonical_id (k : StreamKey) : string :=
  instrument_canonical_id (instrument k) +:+ ":" +:+ tf_id (timeframe k).

Definition stream_step (k : StreamKey) : Z := duration_ms (timeframe k).

Lemma stream_step_pos k : 0 < stream_step k.
Proof. apply duration_pos. Qed.
#[export] Hint Resolve stream_step_pos : mds.

(** A key that the constructor returns. *)
Definition key_wf (k : InstrumentKey) : Prop := InstrumentKey_new (ticker k) = Ok k.
Definition stream_wf (k : StreamKey) : Prop := key_wf (instrument k).

(** ** Facts *)

Definition ticker_ok (u : string) : bool :=
  isascii u && endswith u ".P" && isalnum (drop_last 2 u).

Lemma InstrumentKey_new_ok t k :
  InstrumentKey_new t = Ok k ↔ ticker_ok (upper (strip t)) = true ∧ k = mkInstrumentKey (upper (strip t)).
Proof.
  unfold InstrumentKey_new, ticker_ok. set (u := upper (strip t)).
  cbv zeta. rewrite !raise_if_bind_ok. unfold mret, res_ret. split.
  - intros (_ & H1 & H2 & H3 & [= <-]). bool_hyps. by rewrite H1, H2, H0.
  - intros [H ->]. bool_hyps. rewrite H, H1, H0.
    rewrite !bool_decide_eq_false_2; [done|..]; intros E; rewrite E in *; done.
Qed.

Lemma to_upper_space c : is_space (to_upper c) = is_space c.
Proof.
  unfold to_upper. destruct (is_lower c) eqn:E; [|done]. unfold is_lower in E.
  unfold is_space. rewrite code_chr by lia. lia.
Qed.

Lemma to_upper_idemp c : to_upper (to_upper c) = to_upper c.
Proof.
  unfold to_upper. destruct (is_lower c) eqn:E; [|by rewrite E].
  assert (is_lower (chr (code c - 32)) = false) as ->; [|done].
  unfold is_lower in *. rewrite code_chr by lia. lia.
Qed.

Lemma upper_idemp s : upper (upper s) = upper s.
Proof.
  unfold upper. rewrite chars_text, map_map. f_equal. apply map_ext. apply to_upper_idemp.
Qed.

Lemma strip_nospace s : Forall (λ c, is_space c = false) (chars s) → strip s = s.
Proof.
  intros HF. unfold strip. rewrite <- (text_chars s) at 2. f_equal.
  assert (drop_while is_space (chars s) = chars s) as ->.
  { destruct HF as [|c l Hc _]; [done|]. by apply drop_while_id. }
  apply drop_while_end_id. intros l' c E. rewrite E in HF.
  apply Forall_app in HF as [_ HF]. by apply Forall_cons in HF as [? _].
Qed.

Lemma alnum_not_space c : is_alnum c = true → is_space c = false.
Proof. unfold is_alnum, is_digit, is_upper, is_lower, is_space. lia. Qed.

(** A ticker is letters and digits and the suffix. *)
Lemma ticker_ok_shape u :
  ticker_ok u = true →
  ∃ core, chars u = core ++ chars ".P" ∧ core ≠ [] ∧ Forall (λ c, is_alnum c = true) core.
Proof.
  unfold ticker_ok, endswith. cbv zeta. intros H. bool_hyps.
  exists (take (length (chars u) - 2) (chars u)).
  split; [rewrite <- (take_drop (length (chars u) - 2) (chars u)) at 1; by f_equal|].
  unfold isalnum, drop_last in *. rewrite chars_text in *.
  destruct (take _ _) as [|c l]; [done|]. split; [done|].
  apply Forall_forall. intros x Hx. eapply forallb_forall; [eassumption|].
  by apply list_elem_of_In.
Qed.

Lemma ticker_ok_nospace u : ticker_ok u = true → Forall (λ c, is_space c = false) (chars u).
Proof.
  intros (core & -> & _ & HF)%ticker_ok_shape. apply Forall_app. split.
  - eapply Forall_impl; [exact HF|]. apply alnum_not_space.
  - by repeat constructor.
Qed.

Lemma InstrumentKey_new_wf t k : InstrumentKey_new t = Ok k → key_wf k.
Proof.
  intros [Hok ->]%InstrumentKey_new_ok. unfold key_wf. cbn [ticker].
  apply InstrumentKey_new_ok. rewrite strip_nospace, upper_idemp by (by apply ticker_ok_nospace).
  by split.
Qed.

Lemma tf_id_chars tf : Forall (λ c, Ascii.eqb (chr 58) c = false) (chars (tf_id tf)).
Proof. destruct tf; by repeat constructor. Qed.

Lemma chars_app s t : chars (s +:+ t) = chars s ++ chars t.
Proof. 
  induction s as [|c s IH]; [done|].
  change (c :: chars (s +:+ t) = c :: (chars s ++ chars t)). by rewrite IH.
Qed.

(** The part of a list before the last separator is determined. *)
Lemma last_sep_inj {A} (x : A) l1 l1' l2 l2' :
  x ∉ l2 → x ∉ l2' → l1 ++ x :: l2 = l1' ++ x :: l2' → l1 = l1' ∧ l2 = l2'.
Proof.
  intros H2 H2' E. apply app_eq_inv in E as [(k & E1 & E2)|(k & E1 & E2)].
  - destruct k as [|y k]; [cbn in E2; simplify_eq; by rewrite app_nil_r|]. cbn in E2. simplify_eq.
    exfalso. apply H2. set_solver.
  - destruct k as [|y k]; [cbn in E2; simplify_eq; by rewrite app_nil_r|]. cbn in E2. simplify_eq.
    exfalso. apply H2'. set_solver.
Qed.

Lemma stream_canonical_id_inj k k' : stream_canonical_id k = stream_canonical_id k' → k = k'.
Proof.
  destruct k as [[t] tf], k' as [[t'] tf']. unfold stream_canonical_id. cbn.
  intros H%(f_equal chars). rewrite !chars_app in H.
  assert (Hnot : ∀ tf, chr 58 ∉ chars (tf_id tf)).
  { intros tf0 Hin. pose proof (tf_id_chars tf0) as HF. rewrite Forall_forall in HF.
    specialize (HF _ Hin). by rewrite Ascii.eqb_refl in HF. }
  change (chars ":") with [chr 58] in H. cbn [app] in H.
  apply last_sep_inj in H as [H1 H2]; [|apply Hnot..].
  assert (t = t') as -> by (rewrite <- (text_chars t), H1; apply text_chars).
  assert (tf = tf') as -> by (apply tf_id_inj; rewrite <- (text_chars (tf_id tf)), H2; apply text_chars).
  done.
Qed.

(** ** Properties *)

(** Identities are canonical: the key built from any accepted ticker and timeframe text is
    rebuilt unchanged from its own ticker and timeframe id, and two streams with the same
    canonical id are the same stream. *)
Theorem stream_identity_canonical (t tf : string) (i : InstrumentKey) (k : StreamKey) :
  InstrumentKey_new t = Ok i → StreamKey_new i tf = Ok k →
  InstrumentKey_new (ticker (instrument k)) = Ok (instrument k) ∧
  StreamKey_new (instrument k) (tf_id (timeframe k)) = Ok k ∧
  (∃ core, chars (ticker i) = core ++ chars ".P" ∧ core ≠ [] ∧
           Forall (λ c, is_alnum c = true ∧ to_upper c = c) core) ∧
  ∀ k', stream_canonical_id k = stream_canonical_id k' → k = k'.
Proof.
  intros Hi Hk. unfold StreamKey_new in Hk. apply res_bind_ok in Hk as (tf' & _ & [= <-]).
  cbn [instrument timeframe]. pose proof (InstrumentKey_new_wf _ _ Hi) as Hwf.
  split; [done|]. split; [unfold StreamKey_new; by rewrite get_timeframe_id|]. split.
  - apply InstrumentKey_new_ok in Hi as [Hok ->]. cbn [ticker].
    destruct (ticker_ok_shape _ Hok) as (core & Hc & Hne & HF). exists core. do 2 (split; [done|]).
    apply Forall_forall. intros c Hin. split; [by eapply Forall_forall in HF|].
    assert (Hcu : c ∈ chars (upper (strip t))) by (rewrite Hc; set_solver).
    unfold upper in Hcu. rewrite chars_text in Hcu. apply list_elem_of_In, in_map_iff in Hcu.
    destruct Hcu as (c0 & <- & _). apply to_upper_idemp.
  - apply stream_canonical_id_inj.
Qed.

Lemma stream_identity_canonical_witness :
  InstrumentKey_new " btcusdt.p " = Ok (mkInstrumentKey "BTCUSDT.P") ∧
  InstrumentKey_new "BTCUSDT.P" = Ok (mkInstrumentKey "BTCUSDT.P") ∧
  StreamKey_new (mkInstrumentKey "BTCUSDT.P") "1h" =
    Ok (mkStreamKey (mkInstrumentKey "BTCUSDT.P") TF_1h) ∧
  (∃ core, chars "BTCUSDT.P" = core ++ chars ".P" ∧ core ≠ [] ∧
           Forall (λ c, is_alnum c = true ∧ to_upper c = c) core) ∧
  ∀ k', stream_canonical_id (mkStreamKey (mkInstrumentKey "BTCUSDT.P") TF_1h) =
        stream_canonical_id k' → mkStreamKey (mkInstrumentKey "BTCUSDT.P") TF_1h = k'.
Proof.
  split; [by vm_compute|].
  apply (stream_identity_canonical " btcusdt.p " " 1H " (mkInstrumentKey "BTCUSDT.P")
           (mkStreamKey (mkInstrumentKey "BTCUSDT.P") TF_1h)); by vm_compute.
Defined.
