(* ===== verification/Gaps.v ===== *)
(** * Gaps, fetch windows and continuity

    domain/gaps.py and domain/continuity.py.  The two loops run on fuel: the number of
    grid steps (of fetch windows) between cursor and end, which the theorems show is
    enough.  [gaps_spec] is the abstract specification of gap detection; it determines
    the result. *)

From S2P Require Import Prelude PyStr Timeframes Identity.

(** Never reached: the loops below run out of fuel on no input. *)
Definition out_of_fuel {A} : res A := raise (ExcForeign "OutOfFuel" false) "".

(** ** domain/gaps.py *)

Record Gap := mkGap { gap_start : Z; gap_end : Z }.

#[export] Instance Gap_eq_dec : EqDecision Gap.
Proof. solve_decision. Defined.

Definition Gap_new (s e : Z) : res Gap :=
  _ ← raise_if (e <=? s) ExcValueError "gap must satisfy start_ms < end_ms";
  mret (mkGap s e).

(** [Gap.window] *)
Definition gap_window (g : Gap) : res TimeWindow := TimeWindow_new (gap_start g) (gap_end g).

(** The [while cursor < audit_window.end_ms] loop: [pending] is [gap_start], and the value
    is the gaps so far and the pending start. *)
Fixpoint gap_loop (fuel : nat) (observed : gset Z) (end_ms step_ms cursor : Z)
    (pending : option Z) (gaps : list Gap) : res (list Gap * option Z) :=
  if cursor <? end_ms then
    match fuel with
    | O => out_of_fuel
    | S fuel =>
        '(pending, gaps) ←
          (if bool_decide (cursor ∉ observed) then
             mret (match pending with None => Some cursor | Some _ => pending end, gaps)
           else match pending with
                | Some s => g ← Gap_new s cursor; mret (None, gaps ++ [g])
                | None => mret (None, gaps)
                end);
        gap_loop fuel observed end_ms step_ms (cursor + step_ms) pending gaps
    end
  else mret (gaps, pending).

Definition grid_steps (start_ms end_ms step_ms : Z) : nat :=
  Z.to_nat ((end_ms - start_ms + step_ms - 1) / step_ms).

Definition find_gaps (observed_open_times_ms : list Z) (audit_window : TimeWindow) (step_ms : Z) :
    res (list Gap) :=
  _ ← raise_if (step_ms <=? 0) ExcValueError "step_ms must be positive";
  _ ← raise_if (negb (start_ms audit_window mod step_ms =? 0)
                || negb (end_ms audit_window mod step_ms =? 0))
        ExcValueError "audit window must be aligned to step_ms";
  let observed : gset Z :=
    list_to_set (List.filter (window_contains audit_window) observed_open_times_ms) in
  let misaligned := List.filter (λ v, negb (v mod step_ms =? 0)) (elements observed) in
  _ ← raise_if (match misaligned with [] => false | _ => true end) ExcValueError
        ("observed timestamps are off-grid: " +:+ repr_int_list (take 3 (py_sorted misaligned)));
  '(gaps, pending) ←
    gap_loop (grid_steps (start_ms audit_window) (end_ms audit_window) step_ms) observed
      (end_ms audit_window) step_ms (start_ms audit_window) None [];
  match pending with
  | Some s => g ← Gap_new s (end_ms audit_window); mret (gaps ++ [g])
  | None => mret gaps
  end.

(** The generator, as the list of the windows it yields. *)
Fixpoint fetch_window_loop (fuel : nat) (end_ms max_span_ms cursor : Z) : res (list TimeWindow) :=
  if cursor <? end_ms then
    match fuel with
    | O => out_of_fuel
    | S fuel =>
        let e := Z.min (cursor + max_span_ms) end_ms in
        w ← TimeWindow_new cursor e;
        ws ← fetch_window_loop fuel end_ms max_span_ms e;
        mret (w :: ws)
    end
  else mret [].

Definition iter_fetch_windows (gap : Gap) (step_ms max_candles : Z) : res (list TimeWindow) :=
  _ ← raise_if (step_ms <=? 0) ExcValueError "step_ms must be positive";
  _ ← raise_if (max_candles <=? 0) ExcValueError "max_candles must be positive";
  _ ← raise_if (negb (gap_start gap mod step_ms =? 0) || negb (gap_end gap mod step_ms =? 0))
        ExcValueError "gap must be aligned to step_ms";
  let max_span_ms := step_ms * max_candles in
  fetch_window_loop (grid_steps (gap_start gap) (gap_end gap) max_span_ms)
    (gap_end gap) max_span_ms (gap_start gap).

(** ** domain/continuity.py *)

Record ContinuityReport := mkContinuityReport {
  report_stream : StreamKey;
  checked_start_ms : Z;
  checked_end_ms : Z;
  candle_count : Z;
  is_continuous : bool;
  report_gaps : list Gap
}.

Definition build_continuity_report (stream : StreamKey) (audit_window : TimeWindow)
    (observed_open_times_ms : list Z) (step_ms : Z) : res ContinuityReport :=
  match observed_open_times_ms with
  | [] =>
      g ← Gap_new (start_ms audit_window) (end_ms audit_window);
      mret (mkContinuityReport stream (start_ms audit_window) (end_ms audit_window) 0 false [g])
  | _ =>
      gaps ← find_gaps observed_open_times_ms audit_window step_ms;
      mret (mkContinuityReport stream (start_ms audit_window) (end_ms audit_window)
              (Z.of_nat (size (list_to_set observed_open_times_ms : gset Z)))
              (match gaps with [] => true | _ => false end) gaps)
  end.

(** ** Facts *)

Lemma Gap_new_ok s e g : Gap_new s e = Ok g ↔ s < e ∧ g = mkGap s e.
Proof.
  unfold Gap_new. rewrite raise_if_bind_ok. unfold mret, res_ret. split.
  - intros [H [= <-]]. bool_hyps. done.
  - intros [H ->]. split; [lia|done].
Qed.

Lemma Gap_new_lt s e : s < e → Gap_new s e = Ok (mkGap s e).
Proof. intros. by apply Gap_new_ok. Qed.

Definition in_gap (t : Z) (g : Gap) : Prop := gap_start g ≤ t < gap_end g.
Definition in_gaps (t : Z) (gaps : list Gap) : Prop := ∃ g, g ∈ gaps ∧ in_gap t g.

Lemma in_gaps_snoc t gaps g : in_gaps t (gaps ++ [g]) ↔ in_gaps t gaps ∨ in_gap t g.
Proof.
  unfold in_gaps. setoid_rewrite elem_of_app. setoid_rewrite list_elem_of_singleton.
  split.
  - intros (g' & [H| ->] & Hg); [left; by exists g'|by right].
  - intros [(g' & H & Hg)|Hg]; [exists g'|exists g]; auto.
Qed.

(** What gap detection means: aligned gaps inside the window, in order and never touching
    each other, whose grid points are the grid points of the window that [obs] lacks. *)
Record gaps_spec (obs : Z → Prop) (lo hi step : Z) (gaps : list Gap) : Prop := {
  gs_in : Forall (λ g, lo ≤ gap_start g ∧ gap_start g < gap_end g ∧ gap_end g ≤ hi) gaps;
  gs_aligned : Forall (λ g, on_grid step (gap_start g) ∧ on_grid step (gap_end g)) gaps;
  gs_separate : StronglySorted (λ g h, gap_end g < gap_start h) gaps;
  gs_cover : ∀ t, on_grid step t → lo ≤ t < hi → in_gaps t gaps ↔ ¬ obs t
}.

Lemma StronglySorted_snoc {A} (R : A → A → Prop) l x :
  StronglySorted R l → Forall (λ y, R y x) l → StronglySorted R (l ++ [x]).
Proof.
  induction 1 as [|y l Hl IH Hy]; intros HF; cbn.
  - repeat constructor.
  - apply Forall_cons in HF as [Hyx HF]. constructor; [by apply IH|].
    apply Forall_app. by split; [|constructor].
Qed.

(** The loop invariant at [cursor]. *)
Record gap_inv (obs : Z → Prop) (lo step cursor : Z) (pending : option Z) (gaps : list Gap) :
    Prop := {
  gi_grid : on_grid step cursor ∧ lo ≤ cursor;
  gi_pending : ∀ s, pending = Some s → on_grid step s ∧ lo ≤ s < cursor;
  gi_in : Forall (λ g, lo ≤ gap_start g ∧ gap_start g < gap_end g ∧
                       gap_end g < default cursor pending) gaps;
  gi_aligned : Forall (λ g, on_grid step (gap_start g) ∧ on_grid step (gap_end g)) gaps;
  gi_separate : StronglySorted (λ g h, gap_end g < gap_start h) gaps;
  gi_cover : ∀ t, on_grid step t → lo ≤ t < cursor →
             (in_gaps t gaps ∨ (∃ s, pending = Some s ∧ s ≤ t)) ↔ ¬ obs t
}.

Section loop.
Context (observed : gset Z) (lo hi step : Z) (Hstep : 0 < step).

Abbreviation obs := (λ t, t ∈ observed).

(** A grid point before the next cursor is the cursor or before it. *)
Lemma before_next cursor t :
  on_grid step cursor → on_grid step t → t < cursor + step → t < cursor ∨ t = cursor.
Proof.
  intros Hc Ht Hlt. destruct (decide (cursor < t)) as [H|H]; [|lia].
  pose proof (Z_mod_mult_between cursor t step Hstep Hc Ht H). lia.
Qed.

Lemma gap_inv_missing cursor pending gaps :
  gap_inv obs lo step cursor pending gaps → cursor ∉ observed →
  gap_inv obs lo step (cursor + step)
    (match pending with None => Some cursor | Some _ => pending end) gaps.
Proof.
  intros [[Hg Hlo] Hp Hin Hal Hsep Hcov] Hc.
  assert (Hg' : on_grid step (cursor + step)) by (unfold on_grid; by rewrite Z_mod_add_step).
  split; [split; [done|lia]| | |done|done|].
  - intros s Hs. destruct pending as [s'|]; simplify_eq; [|split; [done|lia]].
    destruct (Hp s eq_refl). split; [done|lia].
  - by destruct pending.
  - intros t Ht Hrange. destruct (before_next cursor t Hg Ht ltac:(lia)) as [Hlt| ->].
    + rewrite <- (Hcov t Ht ltac:(lia)). destruct pending as [s|]; [done|].
      split; intros [H|(s & ? & ?)]; simplify_eq; auto; lia.
    + split; [done|]. intros _. right. destruct pending as [s|].
      * exists s. destruct (Hp s eq_refl). split; [done|lia].
      * exists cursor. split; [done|lia].
Qed.

Lemma gap_inv_close cursor s gaps :
  gap_inv obs lo step cursor (Some s) gaps → cursor ∈ observed →
  gap_inv obs lo step (cursor + step) None (gaps ++ [mkGap s cursor]).
Proof.
  intros [[Hg Hlo] Hp Hin Hal Hsep Hcov] Hc. destruct (Hp s eq_refl) as [Hs Hsr]. cbn in Hin.
  assert (Hg' : on_grid step (cursor + step)) by (unfold on_grid; by rewrite Z_mod_add_step).
  split; [split; [done|lia]|done| | | |].
  - apply Forall_app. split; [|by repeat constructor; cbn; lia].
    eapply Forall_impl; [exact Hin|]. cbn. lia.
  - apply Forall_app. split; [done|]. by repeat constructor.
  - apply StronglySorted_snoc; [done|]. eapply Forall_impl; [exact Hin|]. cbn. lia.
  - intros t Ht Hrange. rewrite in_gaps_snoc. unfold in_gap at 1. cbn.
    destruct (before_next cursor t Hg Ht ltac:(lia)) as [Hlt| ->].
    + rewrite <- (Hcov t Ht ltac:(lia)). split.
      * intros [[H|H]|(? & ? & _)]; [by left| |done]. right. exists s. split; [done|lia].
      * intros [H|(s' & ? & ?)]; [by left; left|]. simplify_eq. left. right. lia.
    + split; [|done]. intros [[(g & Hg1 & Hg2)|H]|(? & ? & _)]; [|lia|done].
      exfalso. rewrite Forall_forall in Hin. specialize (Hin g Hg1). unfold in_gap in Hg2. lia.
Qed.

Lemma gap_inv_present cursor gaps :
  gap_inv obs lo step cursor None gaps → cursor ∈ observed →
  gap_inv obs lo step (cursor + step) None gaps.
Proof.
  intros [[Hg Hlo] _ Hin Hal Hsep Hcov] Hc. cbn in Hin.
  split; [split; [unfold on_grid; by rewrite Z_mod_add_step|lia]|done| |done|done|].
  - eapply Forall_impl; [exact Hin|]. cbn. lia.
  - intros t Ht Hrange. destruct (before_next cursor t Hg Ht ltac:(lia)) as [Hlt| ->].
    + apply Hcov; [done|lia].
    + split; [|done]. intros [(g & Hg1 & Hg2)|(? & ? & _)]; [|done].
      exfalso. rewrite Forall_forall in Hin. specialize (Hin g Hg1). unfold in_gap in Hg2. lia.
Qed.

Lemma grid_steps_step cursor : cursor < hi → grid_steps cursor hi step = S (grid_steps (cursor + step) hi step).
Proof.
  intros H. unfold grid_steps.
  replace (hi - cursor + step - 1) with (hi - (cursor + step) + step - 1 + 1 * step) by lia.
  rewrite Z.div_add by lia.
  assert (0 ≤ (hi - (cursor + step) + step - 1) / step) by (apply Z.div_pos; lia). lia.
Qed.

Lemma gap_loop_correct fuel cursor pending gaps :
  (grid_steps cursor hi step ≤ fuel)%nat → on_grid step hi → cursor ≤ hi →
  gap_inv obs lo step cursor pending gaps →
  ∃ gaps' pending', gap_loop fuel observed hi step cursor pending gaps = Ok (gaps', pending') ∧
    gap_inv obs lo step hi pending' gaps'.
Proof.
  intros Hf Hhi. revert cursor pending gaps Hf.
  induction fuel as [|fuel IH]; intros cursor pending gaps Hf Hle Hinv; cbn [gap_loop];
    (destruct (Z.ltb_spec cursor hi) as [Hlt|Hge];
     [|exists gaps, pending; assert (cursor = hi) as <- by lia; done]).
  { rewrite grid_steps_step in Hf by done. lia. }
  rewrite grid_steps_step in Hf by done.
  assert (Hnext : cursor + step ≤ hi)
    by (apply Z_mod_mult_between; [done|apply (gi_grid _ _ _ _ _ _ Hinv)|done|done]).
  case_bool_decide as Hc.
  - cbn [mbind res_bind mret res_ret]. apply IH; [lia|done|]. by apply gap_inv_missing.
  - destruct pending as [s|].
    + destruct (gi_pending _ _ _ _ _ _ Hinv s eq_refl).
      rewrite Gap_new_lt by lia. cbn [mbind res_bind mret res_ret]. apply IH; [lia|done|].
      by apply gap_inv_close.
    + cbn [mbind res_bind mret res_ret]. apply IH; [lia|done|]. by apply gap_inv_present.
Qed.

Lemma gap_inv_init : on_grid step lo → gap_inv obs lo step lo None [].
Proof.
  intros Hlo. split; [split; [done|lia]|done|constructor|constructor|constructor|].
  intros t _ ?. lia.
Qed.

Lemma gap_inv_final_none gaps :
  gap_inv obs lo step hi None gaps → gaps_spec obs lo hi step gaps.
Proof.
  intros [_ _ Hin Hal Hsep Hcov]. split; [|done|done|].
  - eapply Forall_impl; [exact Hin|]. cbn. lia.
  - intros t Ht Hr. rewrite <- (Hcov t Ht Hr). split; [by left|].
    by intros [H|(? & ? & _)].
Qed.

Lemma gap_inv_final_some s gaps :
  gap_inv obs lo step hi (Some s) gaps → gaps_spec obs lo hi step (gaps ++ [mkGap s hi]).
Proof.
  intros [[Hhi _] Hp Hin Hal Hsep Hcov]. destruct (Hp s eq_refl). cbn in Hin. split.
  - apply Forall_app. split; [|by repeat constructor; cbn; lia].
    eapply Forall_impl; [exact Hin|]. cbn. lia.
  - apply Forall_app. split; [done|]. by repeat constructor.
  - apply StronglySorted_snoc; [done|]. eapply Forall_impl; [exact Hin|]. cbn. lia.
  - intros t Ht Hr. rewrite in_gaps_snoc, <- (Hcov t Ht Hr). unfold in_gap at 1. cbn. split.
    + intros [Hg|Hg]; [by left|]. right. exists s. split; [done|lia].
    + intros [Hg|(s' & ? & ?)]; [by left|]. simplify_eq. right. lia.
Qed.
End loop.

(** The conditions under which [find_gaps] returns. *)
Definition gaps_input_ok (obs : list Z) (w : TimeWindow) (step : Z) : bool :=
  (0 <? step) && (start_ms w mod step =? 0) && (end_ms w mod step =? 0) &&
  forallb (λ v, negb (window_contains w v) || (v mod step =? 0)) obs.

Lemma misaligned_nil (obs : list Z) w step :
  List.filter (λ v, negb (v mod step =? 0))
    (elements (list_to_set (List.filter (window_contains w) obs) : gset Z)) = [] ↔
  forallb (λ v, negb (window_contains w v) || (v mod step =? 0)) obs = true.
Proof.
  rewrite forallb_forall. split.
  - intros H v Hv. destruct (window_contains w v) eqn:Hw; [|done]. cbn.
    destruct (v mod step =? 0) eqn:E; [done|]. exfalso.
    assert (Hin : v ∈ List.filter (λ v, negb (v mod step =? 0))
      (elements (list_to_set (List.filter (window_contains w) obs) : gset Z))).
    { apply list_elem_of_In, filter_In. rewrite E. split; [|done]. apply list_elem_of_In.
      apply elem_of_elements, elem_of_list_to_set, list_elem_of_In, filter_In. done. }
    rewrite H in Hin. by apply elem_of_nil in Hin.
  - intros H. destruct (List.filter _ (elements _)) as [|v l] eqn:E; [done|]. exfalso.
    assert (Hin : In v (v :: l)) by (by left). rewrite <- E in Hin.
    apply filter_In in Hin as [Hin Hmod]. apply list_elem_of_In, elem_of_elements,
      elem_of_list_to_set, list_elem_of_In, filter_In in Hin as [Hin Hw].
    specialize (H v Hin). by rewrite Hw, (proj1 (negb_true_iff _) Hmod) in H.
Qed.

Lemma elem_window_set (obs : list Z) w t :
  start_ms w ≤ t < end_ms w →
  t ∈ (list_to_set (List.filter (window_contains w) obs) : gset Z) ↔ t ∈ obs.
Proof.
  intros Ht. rewrite elem_of_list_to_set, !list_elem_of_In, filter_In, window_contains_spec. tauto.
Qed.

Lemma gaps_spec_iff obs obs' lo hi step gaps :
  (∀ t, lo ≤ t < hi → obs t ↔ obs' t) → gaps_spec obs lo hi step gaps → gaps_spec obs' lo hi step gaps.
Proof.
  intros Heq [H1 H2 H3 H4]. split; [done..|]. intros t Ht Hr. rewrite <- (Heq t Hr). by apply H4.
Qed.

Lemma find_gaps_correct obs w step :
  window_wf w → gaps_input_ok obs w step = true →
  ∃ gaps, find_gaps obs w step = Ok gaps ∧
    gaps_spec (λ t, t ∈ obs) (start_ms w) (end_ms w) step gaps.
Proof.
  unfold window_wf, gaps_input_ok. intros Hw H. bool_hyps. rename H0 into Hal. unfold find_gaps.
  rewrite !raise_if_bind_false by lia. cbv zeta.
  rewrite (proj2 (misaligned_nil obs w step) Hal), raise_if_bind_false by done.
  set (observed := list_to_set _ : gset Z).
  assert (Hobs : ∀ t, start_ms w ≤ t < end_ms w → t ∈ observed ↔ t ∈ obs)
    by (intros; by apply elem_window_set).
  destruct (gap_loop_correct observed (start_ms w) (end_ms w) step ltac:(lia)
    (grid_steps (start_ms w) (end_ms w) step) (start_ms w) None []) as (gaps & p & -> & Hinv);
    [lia|done|lia|by apply gap_inv_init|].
  cbn [mbind res_bind]. destruct p as [s|].
  - destruct (gi_pending _ _ _ _ _ _ Hinv s eq_refl). rewrite Gap_new_lt by lia.
    eexists. split; [done|]. eapply gaps_spec_iff; [exact Hobs|].
    by apply gap_inv_final_some.
  - eexists. split; [done|]. eapply gaps_spec_iff; [exact Hobs|]. by apply gap_inv_final_none.
Qed.

(** Every input outside [gaps_input_ok] raises. *)
Lemma find_gaps_error obs w step :
  gaps_input_ok obs w step = false → ∃ msg, find_gaps obs w step = raise ExcValueError msg.
Proof.
  intros H. unfold find_gaps. destruct (Z.leb_spec step 0) as [|Hs]; [by eexists|].
  cbn [raise_if mbind res_bind]. unfold gaps_input_ok in H.
  destruct (start_ms w mod step =? 0) eqn:E1; [|by eexists].
  destruct (end_ms w mod step =? 0) eqn:E2; [|by eexists].
  cbn [negb orb raise_if mbind res_bind]. cbv zeta.
  destruct (List.filter _ (elements _)) as [|v l] eqn:E; [|by eexists].
  apply misaligned_nil in E. rewrite E in H. lia.
Qed.

Lemma separate_cases gaps g h :
  StronglySorted (λ g h, gap_end g < gap_start h) gaps → g ∈ gaps → h ∈ gaps →
  g = h ∨ gap_end g < gap_start h ∨ gap_end h < gap_start g.
Proof.
  induction 1 as [|x l _ IH Hx]; [by intros ?%elem_of_nil|]. rewrite Forall_forall in Hx.
  intros [->|Hg]%elem_of_cons [->|Hh]%elem_of_cons; auto.
Qed.

Section unique.
Context (obs : Z → Prop) (lo hi step : Z) (Hstep : 0 < step).

Lemma gaps_spec_elem gaps g :
  gaps_spec obs lo hi step gaps → g ∈ gaps →
  lo ≤ gap_start g ∧ gap_start g < gap_end g ∧ gap_end g ≤ hi ∧
  on_grid step (gap_start g) ∧ on_grid step (gap_end g).
Proof.
  intros [H1 H2 _ _] Hg. rewrite Forall_forall in H1, H2.
  specialize (H1 g Hg). specialize (H2 g Hg). tauto.
Qed.

(** The grid point before a gap is not missing, nor is the one at its end. *)
Lemma gap_before_present gaps g h :
  gaps_spec obs lo hi step gaps → g ∈ gaps → h ∈ gaps → ¬ in_gap (gap_start g - step) h.
Proof.
  intros Hs Hg Hh [H1 H2]. pose proof (gaps_spec_elem _ _ Hs Hg) as Hg'.
  pose proof (gaps_spec_elem _ _ Hs Hh) as Hh'.
  destruct (separate_cases _ g h (gs_separate _ _ _ _ _ Hs) Hg Hh) as [<-|[H|H]]; [lia|lia|].
  assert (gap_end h + step ≤ gap_start g); [|lia].
  apply Z_mod_mult_between; unfold on_grid in *; tauto.
Qed.

Lemma gap_end_present gaps g h :
  gaps_spec obs lo hi step gaps → g ∈ gaps → h ∈ gaps → ¬ in_gap (gap_end g) h.
Proof.
  intros Hs Hg Hh [H1 H2]. pose proof (gaps_spec_elem _ _ Hs Hg) as Hg'.
  destruct (separate_cases _ g h (gs_separate _ _ _ _ _ Hs) Hg Hh) as [<-|[H|H]]; lia.
Qed.

Lemma cover_transfer g1 g2 t :
  gaps_spec obs lo hi step g1 → gaps_spec obs lo hi step g2 →
  on_grid step t → lo ≤ t < hi → in_gaps t g1 → in_gaps t g2.
Proof. intros H1 H2 Ht Hr. by rewrite (gs_cover _ _ _ _ _ H1), (gs_cover _ _ _ _ _ H2). Qed.

Lemma gaps_spec_incl gaps1 gaps2 g :
  gaps_spec obs lo hi step gaps1 → gaps_spec obs lo hi step gaps2 → g ∈ gaps1 → g ∈ gaps2.
Proof.
  intros H1 H2 Hg. pose proof (gaps_spec_elem _ _ H1 Hg) as (Ha & Hb & Hc & Hd & He).
  destruct (cover_transfer gaps1 gaps2 (gap_start g) H1 H2) as (h & Hh & Hgh);
    [done|lia|exists g; split; [done|unfold in_gap; lia]|].
  pose proof (gaps_spec_elem _ _ H2 Hh) as (Ha' & Hb' & Hc' & Hd' & He'). unfold in_gap in Hgh.
  assert (gap_start h = gap_start g) as Es.
  { destruct (decide (gap_start h = gap_start g)) as [|Hne]; [done|exfalso].
    assert (gap_start h + step ≤ gap_start g) by (apply Z_mod_mult_between; [done..|lia]).
    destruct (cover_transfer gaps2 gaps1 (gap_start g - step) H2 H1) as (k & Hk & Hkg);
      [apply Z_mod0_sub; [done|apply Z.mod_same; lia|done]|lia| |].
    - exists h. split; [done|]. unfold in_gap. lia.
    - exact (gap_before_present _ g k H1 Hg Hk Hkg). }
  assert (gap_end h = gap_end g) as Ee.
  { destruct (Z.lt_trichotomy (gap_end h) (gap_end g)) as [Hlt|[|Hlt]]; [exfalso|done|exfalso].
    - destruct (cover_transfer gaps1 gaps2 (gap_end h) H1 H2) as (k & Hk & Hkh); [done|lia| |].
      + exists g. split; [done|]. unfold in_gap. lia.
      + exact (gap_end_present _ h k H2 Hh Hk Hkh).
    - destruct (cover_transfer gaps2 gaps1 (gap_end g) H2 H1) as (k & Hk & Hkg); [done|lia| |].
      + exists h. split; [done|]. unfold in_gap. lia.
      + exact (gap_end_present _ g k H1 Hg Hk Hkg). }
  destruct g, h. cbn in Es, Ee. by subst.
Qed.

(** The specification determines the gaps. *)
Lemma gaps_spec_unique gaps1 gaps2 :
  gaps_spec obs lo hi step gaps1 → gaps_spec obs lo hi step gaps2 → gaps1 = gaps2.
Proof.
  intros H1 H2.
  assert (Heq : ∀ g, g ∈ gaps1 ↔ g ∈ gaps2) by (split; eapply gaps_spec_incl; eauto).
  assert (Hl1 : Forall (λ g, gap_start g < gap_end g) gaps1)
    by (eapply Forall_impl; [exact (gs_in _ _ _ _ _ H1)|]; cbn; lia).
  assert (Hl2 : Forall (λ g, gap_start g < gap_end g) gaps2)
    by (eapply Forall_impl; [exact (gs_in _ _ _ _ _ H2)|]; cbn; lia).
  apply gs_separate in H1, H2. revert gaps2 Heq H2 Hl2.
  induction H1 as [|g l1 Hs1 IH Hg]; intros [|h l2] Heq H2 Hl2; [done| | |].
  { exfalso. apply (not_elem_of_nil h), Heq. constructor. }
  { exfalso. apply (not_elem_of_nil g), Heq. constructor. }
  apply StronglySorted_inv in H2 as [Hs2 Hh].
  apply Forall_cons in Hl1 as [Hlg Hl1]. apply Forall_cons in Hl2 as [Hlh Hl2].
  rewrite Forall_forall in Hg, Hh, Hl1, Hl2.
  assert (g = h) as <-.
  { assert (g ∈ h :: l2) as [->|H]%elem_of_cons by (apply Heq; constructor); [done|].
    assert (h ∈ g :: l1) as [->|H']%elem_of_cons by (apply Heq; constructor); [done|].
    specialize (Hg _ H'). specialize (Hh _ H). lia. }
  f_equal. apply IH; [by apply Forall_forall| |done|by apply Forall_forall]. intros k.
  specialize (Heq k). rewrite !elem_of_cons in Heq. split; intros Hk.
  - destruct (proj1 Heq (or_intror Hk)) as [->|]; [|done]. specialize (Hg _ Hk). lia.
  - destruct (proj2 Heq (or_intror Hk)) as [->|]; [|done]. specialize (Hh _ Hk). lia.
Qed.
End unique.

(** *** Fetch windows *)

(** Adjacent windows that cover [a, b). *)
Fixpoint window_chain (a b : Z) (ws : list TimeWindow) : Prop :=
  match ws with
  | [] => a = b
  | w :: ws => start_ms w = a ∧ window_wf w ∧ window_chain (end_ms w) b ws
  end.

Definition fetch_window_ok (step max_span : Z) (w : TimeWindow) : Prop :=
  window_wf w ∧ end_ms w - start_ms w ≤ max_span ∧
  on_grid step (start_ms w) ∧ on_grid step (end_ms w).

Lemma grid_steps_min cursor e span :
  0 < span → cursor < e →
  grid_steps cursor e span = S (grid_steps (Z.min (cursor + span) e) e span).
Proof.
  intros Hs Hlt. rewrite grid_steps_step by done. f_equal.
  destruct (Z.le_ge_cases (cursor + span) e); [by rewrite Z.min_l|rewrite Z.min_r by done].
  unfold grid_steps. rewrite Z.sub_diag.
  rewrite !Z.div_small by lia. done.
Qed.

Lemma fetch_window_loop_correct fuel e step n cursor :
  0 < step → 0 < n → on_grid step e → on_grid step cursor → cursor ≤ e →
  (grid_steps cursor e (step * n) ≤ fuel)%nat →
  ∃ ws, fetch_window_loop fuel e (step * n) cursor = Ok ws ∧
    window_chain cursor e ws ∧ Forall (fetch_window_ok step (step * n)) ws ∧
    length ws = grid_steps cursor e (step * n).
Proof.
  intros Hs Hn He. revert cursor. assert (0 < step * n) by lia.
  assert (Hend : grid_steps e e (step * n) = 0%nat).
  { unfold grid_steps. rewrite Z.sub_diag, Z.div_small by lia. done. }
  induction fuel as [|fuel IH]; intros cursor Hc Hle Hf; cbn [fetch_window_loop];
    (destruct (Z.ltb_spec cursor e) as [Hlt|Hge];
     [rewrite grid_steps_min in Hf |- * by lia|
      assert (cursor = e) as -> by lia; exists []; rewrite Hend; by repeat constructor]); [lia|].
  rewrite TimeWindow_new_lt by lia. cbn [mbind res_bind].
  assert (Hg : on_grid step (Z.min (cursor + step * n) e)).
  { destruct (Z.le_ge_cases (cursor + step * n) e); [rewrite Z.min_l by done|by rewrite Z.min_r].
    unfold on_grid in *. rewrite (Z.mul_comm step n). by rewrite Z_mod_add_mult. }
  destruct (IH (Z.min (cursor + step * n) e)) as (ws & -> & Hch & Hall & Hlen); [done|lia|lia|].
  eexists. split; [done|]. cbn [window_chain length]. split.
  - split; [done|]. split; [unfold window_wf; cbn; lia|done].
  - split; [|by rewrite Hlen]. constructor; [|done].
    unfold fetch_window_ok, window_wf. cbn. split; [lia|]. split; [lia|done].
Qed.

Definition fetch_input_ok (g : Gap) (step max_candles : Z) : bool :=
  (0 <? step) && (0 <? max_candles) && (gap_start g mod step =? 0) && (gap_end g mod step =? 0).

Lemma iter_fetch_windows_ok g step n :
  gap_start g < gap_end g → fetch_input_ok g step n = true →
  ∃ ws, iter_fetch_windows g step n = Ok ws ∧ window_chain (gap_start g) (gap_end g) ws ∧
    Forall (fetch_window_ok step (step * n)) ws ∧
    length ws = grid_steps (gap_start g) (gap_end g) (step * n).
Proof.
  unfold fetch_input_ok. intros Hg H. bool_hyps. unfold iter_fetch_windows.
  rewrite !raise_if_bind_false by lia. cbv zeta.
  by apply fetch_window_loop_correct; unfold on_grid; try lia.
Qed.

Lemma iter_fetch_windows_error g step n :
  fetch_input_ok g step n = false → ∃ msg, iter_fetch_windows g step n = raise ExcValueError msg.
Proof.
  unfold fetch_input_ok, iter_fetch_windows. intros H.
  destruct (Z.leb_spec step 0); [by eexists|]. destruct (Z.leb_spec n 0); [by eexists|].
  cbn [raise_if mbind res_bind].
  destruct (negb (gap_start g mod step =? 0) || negb (gap_end g mod step =? 0)) eqn:E;
    [by eexists|lia].
Qed.

(** Every grid point of the interval is in exactly one window of a chain. *)
Lemma window_chain_le a b ws : window_chain a b ws → a ≤ b.
Proof.
  revert a. induction ws as [|w ws IH]; intros a; cbn; [lia|].
  intros (<- & Hw & Hch). unfold window_wf in Hw. specialize (IH _ Hch). lia.
Qed.

Lemma window_chain_cover a b ws t :
  window_chain a b ws → a ≤ t < b ↔ ∃ w, w ∈ ws ∧ window_contains w t = true.
Proof.
  revert a. induction ws as [|w ws IH]; intros a; cbn.
  - intros ->. split; [lia|]. by intros (w & ?%elem_of_nil & _).
  - intros (<- & Hw & Hch). pose proof (window_chain_le _ _ _ Hch). unfold window_wf in Hw.
    specialize (IH _ Hch). setoid_rewrite elem_of_cons. split.
    + intros Ht. destruct (decide (t < end_ms w)) as [Hlt|Hge].
      * exists w. split; [by left|]. apply window_contains_spec. lia.
      * destruct (proj1 IH ltac:(lia)) as (w' & ? & ?). exists w'. auto.
    + intros (w' & [->|Hin] & Ht); [apply window_contains_spec in Ht; lia|].
      assert (end_ms w ≤ t < b) by (apply IH; eauto). lia.
Qed.

(** *** Continuity *)

Lemma gaps_spec_nil_iff obs lo hi step gaps :
  0 < step → gaps_spec obs lo hi step gaps →
  gaps = [] ↔ ∀ t, on_grid step t → lo ≤ t < hi → ¬ ¬ obs t.
Proof.
  intros Hs Hg. split.
  - intros -> t Ht Hr Hn. apply (gs_cover _ _ _ _ _ Hg t Ht Hr) in Hn as (g & ?%elem_of_nil & _). done.
  - intros H. destruct gaps as [|g gaps]; [done|]. exfalso.
    destruct (gaps_spec_elem obs lo hi step (g :: gaps) g Hg) as (? & ? & ? & Ha & _); [constructor|].
    apply (H (gap_start g)); [done|lia|]. apply (gs_cover _ _ _ _ _ Hg); [done|lia|].
    exists g. split; [constructor|]. unfold in_gap. lia.
Qed.

Definition report_input_ok (obs : list Z) (w : TimeWindow) (step : Z) : bool :=
  match obs with [] => true | _ => gaps_input_ok obs w step end.

Lemma build_report_ok k obs w step :
  window_wf w → gaps_input_ok obs w step = true →
  ∃ r, build_continuity_report k w obs step = Ok r ∧ report_stream r = k ∧
    checked_start_ms r = start_ms w ∧ checked_end_ms r = end_ms w ∧
    gaps_spec (λ t, t ∈ obs) (start_ms w) (end_ms w) step (report_gaps r) ∧
    (is_continuous r = true ↔ report_gaps r = []).
Proof.
  intros Hw Hok. unfold build_continuity_report. destruct obs as [|o obs].
  - unfold window_wf in Hw. rewrite Gap_new_lt by done. eexists. split; [done|].
    cbn. do 3 (split; [done|]). split; [|by split]. unfold gaps_input_ok in Hok. bool_hyps.
    split.
    + repeat constructor; cbn; lia.
    + by repeat constructor.
    + by repeat constructor.
    + intros t Ht Hr. split; [intros _; apply not_elem_of_nil|]. intros _.
      exists (mkGap (start_ms w) (end_ms w)). split; [constructor|]. done.
  - destruct (find_gaps_correct (o :: obs) w step Hw Hok) as (gaps & -> & Hg).
    eexists. split; [done|]. cbn. do 4 (split; [done|]). by destruct gaps.
Qed.

(** ** Properties *)

(** C5. [find_gaps] returns, or raises [ValueError], on every valid window and any step, and
    returns exactly on aligned input.  What it returns is the one list of aligned,
    ordered, never touching gaps inside the window whose grid points are the grid points
    of the window missing from the observed times. *)
Theorem find_gaps_exact (obs : list Z) (w : TimeWindow) (step : Z) :
  window_wf w →
  match find_gaps obs w step with
  | Ok gaps =>
      gaps_input_ok obs w step = true ∧
      gaps_spec (λ t, t ∈ obs) (start_ms w) (end_ms w) step gaps ∧
      ∀ gaps', gaps_spec (λ t, t ∈ obs) (start_ms w) (end_ms w) step gaps' → gaps' = gaps
  | Raise e => exn_cls e = ExcValueError ∧ gaps_input_ok obs w step = false
  end.
Proof.
  intros Hw. destruct (gaps_input_ok obs w step) eqn:E.
  - destruct (find_gaps_correct obs w step Hw E) as (gaps & -> & Hg).
    do 2 (split; [done|]). intros gaps' Hg'. unfold gaps_input_ok in E.
    eapply gaps_spec_unique; [|done..]. bool_hyps. lia.
  - by destruct (find_gaps_error obs w step E) as [msg ->].
Qed.

Lemma find_gaps_exact_witness :
  window_wf (mkTimeWindow 0 300) ∧
  find_gaps [240; 60; 60; 900] (mkTimeWindow 0 300) 60 = Ok [mkGap 0 60; mkGap 120 240] ∧
  match find_gaps [240; 60; 60; 900] (mkTimeWindow 0 300) 60 with
  | Ok gaps =>
      gaps_input_ok [240; 60; 60; 900] (mkTimeWindow 0 300) 60 = true ∧
      gaps_spec (λ t, t ∈ [240; 60; 60; 900]) 0 300 60 gaps ∧
      ∀ gaps', gaps_spec (λ t, t ∈ [240; 60; 60; 900]) 0 300 60 gaps' → gaps' = gaps
  | Raise e => exn_cls e = ExcValueError ∧
      gaps_input_ok [240; 60; 60; 900] (mkTimeWindow 0 300) 60 = false
  end.
Proof.
  split; [reflexivity|]. split; [by vm_compute|].
  apply (find_gaps_exact [240; 60; 60; 900] (mkTimeWindow 0 300) 60). reflexivity.
Defined.

(** C24. [iter_fetch_windows] ends on every gap, and raises [ValueError] exactly on a bad step,
    bound or alignment; otherwise the windows tile the gap in order, each aligned and of at
    most [max_candles] steps, as few as the bound allows, and every time of the gap is in
    exactly one of them. *)
Theorem iter_fetch_windows_partition (g : Gap) (step max_candles : Z) :
  gap_start g < gap_end g →
  match iter_fetch_windows g step max_candles with
  | Ok ws =>
      fetch_input_ok g step max_candles = true ∧
      window_chain (gap_start g) (gap_end g) ws ∧
      Forall (fetch_window_ok step (step * max_candles)) ws ∧
      length ws = grid_steps (gap_start g) (gap_end g) (step * max_candles) ∧
      ∀ t, in_gap t g ↔ ∃ w, w ∈ ws ∧ window_contains w t = true
  | Raise e => exn_cls e = ExcValueError ∧ fetch_input_ok g step max_candles = false
  end.
Proof.
  intros Hg. destruct (fetch_input_ok g step max_candles) eqn:E.
  - destruct (iter_fetch_windows_ok g step max_candles Hg E) as (ws & -> & Hch & Hall & Hlen).
    do 4 (split; [done|]). intros t. by apply window_chain_cover.
  - by destruct (iter_fetch_windows_error g step max_candles E) as [msg ->].
Qed.

Lemma iter_fetch_windows_partition_witness :
  iter_fetch_windows (mkGap 0 300) 60 2 =
    Ok [mkTimeWindow 0 120; mkTimeWindow 120 240; mkTimeWindow 240 300] ∧
  match iter_fetch_windows (mkGap 0 300) 60 2 with
  | Ok ws =>
      fetch_input_ok (mkGap 0 300) 60 2 = true ∧
      window_chain 0 300 ws ∧ Forall (fetch_window_ok 60 (60 * 2)) ws ∧
      length ws = grid_steps 0 300 (60 * 2) ∧
      ∀ t, in_gap t (mkGap 0 300) ↔ ∃ w, w ∈ ws ∧ window_contains w t = true
  | Raise e => exn_cls e = ExcValueError ∧ fetch_input_ok (mkGap 0 300) 60 2 = false
  end.
Proof.
  split; [by vm_compute|]. apply (iter_fetch_windows_partition (mkGap 0 300) 60 2). reflexivity.
Defined.

(** A continuity report says continuous exactly when every grid point of the audited
    window was observed, and its gaps are the missing points, also for no observation. *)
Theorem continuity_report_exact (k : StreamKey) (w : TimeWindow) (obs : list Z) (step : Z) :
  window_wf w → gaps_input_ok obs w step = true →
  ∃ r, build_continuity_report k w obs step = Ok r ∧
    gaps_spec (λ t, t ∈ obs) (start_ms w) (end_ms w) step (report_gaps r) ∧
    (is_continuous r = true ↔ ∀ t, on_grid step t → start_ms w ≤ t < end_ms w → t ∈ obs).
Proof.
  intros Hw Hok. destruct (build_report_ok k obs w step Hw Hok) as (r & -> & _ & _ & _ & Hg & Hc).
  exists r. do 2 (split; [done|]). rewrite Hc.
  rewrite (gaps_spec_nil_iff (λ t, t ∈ obs) (start_ms w) (end_ms w) step); [|unfold gaps_input_ok in Hok; lia|done].
  split; intros H t Ht Hr; [by apply dec_stable, H|]. intros Hn. by apply Hn, H.
Qed.

Lemma continuity_report_exact_witness :
  let k := mkStreamKey (mkInstrumentKey "BTCUSDT.P") TF_1m in
  build_continuity_report k (mkTimeWindow 0 180) [0; 120] 60 =
    Ok (mkContinuityReport k 0 180 2 false [mkGap 60 120]) ∧
  ∃ r, build_continuity_report k (mkTimeWindow 0 180) [0; 120] 60 = Ok r ∧
    gaps_spec (λ t, t ∈ [0; 120]) 0 180 60 (report_gaps r) ∧
    (is_continuous r = true ↔ ∀ t, on_grid 60 t → 0 ≤ t < 180 → t ∈ [0; 120]).
Proof.
  intros k. split; [by vm_compute|].
  apply (continuity_report_exact k (mkTimeWindow 0 180) [0; 120] 60); reflexivity.
Defined.
