(* ===== verification/Candles.v ===== *)
(** * Candles: contracts, validation and classification

    domain/candles.py, domain/candle_validation.py, domain/candle_comparison.py and
    domain/classification.py.  The constructors parse their decimal fields, so a candle
    holds decimals as [parse_decimal] returns them. *)

From S2P Require Import Prelude PyStr DecimalValues Timeframes Identity.

Inductive ObservationSource := BYBIT_REST | BYBIT_WEBSOCKET.

#[export] Instance ObservationSource_eq_dec : EqDecision ObservationSource.
Proof. solve_decision. Defined.

Definition source_value (s : ObservationSource) : string :=
  match s with BYBIT_REST => "bybit_rest" | BYBIT_WEBSOCKET => "bybit_websocket" end.

(** [ObservationSource(value)] *)
Definition source_of_value (v : string) : res ObservationSource :=
  if bool_decide (v = "bybit_rest"%string) then Ok BYBIT_REST
  else if bool_decide (v = "bybit_websocket"%string) then Ok BYBIT_WEBSOCKET
  else raise ExcValueError (repr v +:+ " is not a valid ObservationSource").

(** The five decimal fields the two candle classes share. *)
Record Ohlcv := mkOhlcv { o_open : Dec; o_high : Dec; o_low : Dec; o_close : Dec; o_volume : Dec }.

#[export] Instance Ohlcv_eq_dec : EqDecision Ohlcv.
Proof. solve_decision. Defined.

Record ObservedCandle := mkObservedCandle {
  oc_stream : StreamKey;
  oc_open_time_ms : Z;
  oc_close_time_ms : Z;
  oc_values : Ohlcv;
  oc_confirmed : bool;
  oc_observed_at_ms : Z;
  oc_source : ObservationSource
}.

Record CanonicalCandle := mkCanonicalCandle {
  cc_stream : StreamKey;
  cc_open_time_ms : Z;
  cc_close_time_ms : Z;
  cc_values : Ohlcv;
  cc_source : ObservationSource;
  cc_committed_at_ms : Z
}.

#[export] Instance ObservedCandle_eq_dec : EqDecision ObservedCandle.
Proof. solve_decision. Defined.
#[export] Instance CanonicalCandle_eq_dec : EqDecision CanonicalCandle.
Proof. solve_decision. Defined.

(** The shared part of the two [__post_init__]: the fields are parsed in order. *)
Definition parse_ohlcv (o h l c v : DecimalInput) : res Ohlcv :=
  o ← parse_decimal o;
  h ← parse_decimal h;
  l ← parse_decimal l;
  c ← parse_decimal c;
  v ← parse_decimal v;
  mret (mkOhlcv o h l c v).

Definition ObservedCandle_new (stream : StreamKey) (open_time close_time : Z)
    (o h l c v : DecimalInput) (confirmed : bool) (observed_at : Z) (source : ObservationSource) :
    res ObservedCandle :=
  values ← parse_ohlcv o h l c v;
  mret (mkObservedCandle stream open_time close_time values confirmed observed_at source).

Definition CanonicalCandle_new (stream : StreamKey) (open_time close_time : Z)
    (o h l c v : DecimalInput) (source : ObservationSource) (committed_at : Z) :
    res CanonicalCandle :=
  values ← parse_ohlcv o h l c v;
  mret (mkCanonicalCandle stream open_time close_time values source committed_at).

(** [ohlcv_text]: [decimal_to_canonical_text] of a field that is already a [Decimal]. *)
Definition ohlcv_text (v : Ohlcv) : list string :=
  [dec_text (o_open v); dec_text (o_high v); dec_text (o_low v); dec_text (o_close v);
   dec_text (o_volume v)].

(** [CanonicalCandle.from_observation]: the fields are parsed again. *)
Definition from_observation (candle : ObservedCandle) (committed_at_ms : Z) : res CanonicalCandle :=
  let v := oc_values candle in
  let fin d := InDecimal (DFinite d) in
  CanonicalCandle_new (oc_stream candle) (oc_open_time_ms candle) (oc_close_time_ms candle)
    (fin (o_open v)) (fin (o_high v)) (fin (o_low v)) (fin (o_close v)) (fin (o_volume v))
    (oc_source candle) committed_at_ms.

(** ** domain/classification.py *)

Inductive IngestionClassification :=
| COMMITTED | DUPLICATE | CORRECTED
| REJECTED_INVALID | REJECTED_UNCONFIGURED | REJECTED_UNCONFIRMED.

#[export] Instance IngestionClassification_eq_dec : EqDecision IngestionClassification.
Proof. solve_decision. Defined.

(** ** domain/candle_comparison.py *)

Definition classify_against_existing (existing : option CanonicalCandle) (incoming : ObservedCandle) :
    res IngestionClassification :=
  match existing with
  | None => mret COMMITTED
  | Some e =>
      _ ← raise_if (negb (bool_decide (cc_stream e = oc_stream incoming))
                    || negb (cc_open_time_ms e =? oc_open_time_ms incoming))
            ExcValueError "existing and incoming candle identities must match";
      mret (if bool_decide (ohlcv_text (cc_values e) = ohlcv_text (oc_values incoming))
            then DUPLICATE else CORRECTED)
  end.

(** ** domain/candle_validation.py *)

Inductive CandleValidationCode :=
| UNCONFIRMED | NEGATIVE_TIMESTAMP | OFF_GRID_OPEN_TIME | INVALID_CLOSE_TIME
| INVALID_OHLC | NEGATIVE_VOLUME.

#[export] Instance CandleValidationCode_eq_dec : EqDecision CandleValidationCode.
Proof. solve_decision. Defined.

Definition validation_code_value (c : CandleValidationCode) : string :=
  match c with
  | UNCONFIRMED => "unconfirmed"
  | NEGATIVE_TIMESTAMP => "negative_timestamp"
  | OFF_GRID_OPEN_TIME => "off_grid_open_time"
  | INVALID_CLOSE_TIME => "invalid_close_time"
  | INVALID_OHLC => "invalid_ohlc"
  | NEGATIVE_VOLUME => "negative_volume"
  end.

Record CandleValidationIssue := mkIssue { issue_code : CandleValidationCode; issue_detail : string }.

Definition issue_if (b : bool) (c : CandleValidationCode) (detail : string) :
    list CandleValidationIssue := if b then [mkIssue c detail] else [].

Definition validate_observed_candle (candle : ObservedCandle) : list CandleValidationIssue :=
  let tf := timeframe (oc_stream candle) in
  let v := oc_values candle in
  let expected_close_time_ms := oc_open_time_ms candle + duration_ms tf - 1 in
  issue_if (negb (oc_confirmed candle)) UNCONFIRMED "candle is not closed" ++
  issue_if ((oc_open_time_ms candle <? 0) || (oc_close_time_ms candle <? 0)) NEGATIVE_TIMESTAMP
    "open_time_ms and close_time_ms must be non-negative" ++
  issue_if (negb (oc_open_time_ms candle mod duration_ms tf =? 0)) OFF_GRID_OPEN_TIME
    ("open_time_ms is not aligned to " +:+ tf_id tf) ++
  issue_if (negb (oc_close_time_ms candle =? expected_close_time_ms)) INVALID_CLOSE_TIME
    ("close_time_ms must equal " +:+ str_of_Z expected_close_time_ms) ++
  issue_if (dec_ltb (o_high v) (dec_max (dec_max (o_open v) (o_close v)) (o_low v))) INVALID_OHLC
    "high must be greater than or equal to open, close, and low" ++
  issue_if (dec_ltb (dec_min (dec_min (o_open v) (o_close v)) (o_high v)) (o_low v)) INVALID_OHLC
    "low must be less than or equal to open, close, and high" ++
  issue_if (dec_ltb (o_volume v) dec_zero) NEGATIVE_VOLUME "volume must be non-negative".

(** ** Facts *)

(** The fields as the constructors leave them. *)
Definition ohlcv_parsed (v : Ohlcv) : Prop :=
  Forall dec_parsed [o_open v; o_high v; o_low v; o_close v; o_volume v].

Definition ohlcv_eqv (a b : Ohlcv) : Prop :=
  dec_eqv (o_open a) (o_open b) ∧ dec_eqv (o_high a) (o_high b) ∧ dec_eqv (o_low a) (o_low b) ∧
  dec_eqv (o_close a) (o_close b) ∧ dec_eqv (o_volume a) (o_volume b).

(** The range of prices and the volume make sense. *)
Definition ohlcv_valid (v : Ohlcv) : Prop :=
  dec_leb (o_low v) (o_open v) = true ∧ dec_leb (o_low v) (o_close v) = true ∧
  dec_leb (o_low v) (o_high v) = true ∧ dec_leb (o_open v) (o_high v) = true ∧
  dec_leb (o_close v) (o_high v) = true ∧ dec_leb dec_zero (o_volume v) = true.

(** A closed candle of the stream's grid. *)
Definition candle_times_valid (k : StreamKey) (open_time close_time : Z) : Prop :=
  0 ≤ open_time ∧ on_grid (stream_step k) open_time ∧
  close_time = open_time + stream_step k - 1.

Lemma source_of_value_value s : source_of_value (source_value s) = Ok s.
Proof. by destruct s. Qed.

Lemma parse_decimal_fixed d : dec_parsed d → parse_decimal (InDecimal (DFinite d)) = Ok d.
Proof.
  intros [Hwf Hz]. unfold parse_decimal. destruct (Z.eqb_spec (dec_coef d) 0) as [H|H]; [|done].
  by rewrite (Hz H).
Qed.

Lemma parse_ohlcv_parsed o h l c v r :
  input_wf o → input_wf h → input_wf l → input_wf c → input_wf v →
  parse_ohlcv o h l c v = Ok r → ohlcv_parsed r.
Proof.
  intros Ho Hh Hl Hc Hv H. unfold parse_ohlcv in H.
  repeat (apply res_bind_ok in H as (? & ? & H)). injection H as <-.
  unfold ohlcv_parsed. cbn [o_open o_high o_low o_close o_volume].
  rewrite !Forall_cons. split_and!; by eauto using parse_decimal_parsed.
Qed.

Lemma parse_ohlcv_fixed v :
  ohlcv_parsed v →
  parse_ohlcv (InDecimal (DFinite (o_open v))) (InDecimal (DFinite (o_high v)))
    (InDecimal (DFinite (o_low v))) (InDecimal (DFinite (o_close v)))
    (InDecimal (DFinite (o_volume v))) = Ok v.
Proof.
  unfold ohlcv_parsed. rewrite !Forall_cons. intros (Ho & Hh & Hl & Hc & Hv & _).
  unfold parse_ohlcv. rewrite !parse_decimal_fixed by done. by destruct v.
Qed.

Lemma from_observation_ok c t :
  ohlcv_parsed (oc_values c) →
  from_observation c t = Ok (mkCanonicalCandle (oc_stream c) (oc_open_time_ms c)
    (oc_close_time_ms c) (oc_values c) (oc_source c) t).
Proof.
  intros H. unfold from_observation, CanonicalCandle_new. cbv zeta.
  by rewrite parse_ohlcv_fixed.
Qed.

Lemma ohlcv_text_eqv a b :
  ohlcv_parsed a → ohlcv_parsed b → ohlcv_text a = ohlcv_text b ↔ ohlcv_eqv a b.
Proof.
  unfold ohlcv_parsed, ohlcv_text, ohlcv_eqv. rewrite !Forall_cons.
  intros (? & ? & ? & ? & ? & _) (? & ? & ? & ? & ? & _).
  rewrite <- !dec_text_eqv by done. split; [by intros [= -> -> -> -> ->]|].
  by intros (-> & -> & -> & -> & ->).
Qed.

Lemma issue_if_nil b c d : issue_if b c d = [] ↔ b = false.
Proof. by destruct b. Qed.

Lemma dec_max3_le a b c d :
  dec_leb (dec_max (dec_max a b) c) d = dec_leb a d && dec_leb b d && dec_leb c d.
Proof. by rewrite !dec_max_le. Qed.

Lemma dec_min3_ge a b c d :
  dec_leb d (dec_min (dec_min a b) c) = dec_leb d a && dec_leb d b && dec_leb d c.
Proof. by rewrite !dec_min_ge. Qed.

Lemma elem_issue_if x b c d : x ∈ map issue_code (issue_if b c d) ↔ b = true ∧ x = c.
Proof.
  destruct b; cbn; rewrite ?list_elem_of_singleton, ?elem_of_nil; [by split; [|intros []]|].
  by split; [|intros []].
Qed.

(** Validity only depends on the numbers. *)
#[export] Instance ohlcv_eqv_equiv : Equivalence ohlcv_eqv.
Proof.
  split.
  - intros a. unfold ohlcv_eqv. repeat split; reflexivity.
  - intros a b (? & ? & ? & ? & ?). unfold ohlcv_eqv. repeat split; by symmetry.
  - intros a b c (? & ? & ? & ? & ?) (? & ? & ? & ? & ?). unfold ohlcv_eqv.
    repeat split; by etrans.
Qed.

#[export] Instance ohlcv_valid_proper : Proper (ohlcv_eqv ==> iff) ohlcv_valid.
Proof.
  intros a b (H1 & H2 & H3 & H4 & H5). unfold ohlcv_valid. by rewrite H1, H2, H3, H4, H5.
Qed.

(** The unfolded conditions of the validation. *)
Lemma validate_nil c :
  validate_observed_candle c = [] ↔
  oc_confirmed c = true ∧
  candle_times_valid (oc_stream c) (oc_open_time_ms c) (oc_close_time_ms c) ∧
  ohlcv_valid (oc_values c).
Proof.
  pose proof (stream_step_pos (oc_stream c)) as Hstep.
  unfold validate_observed_candle, candle_times_valid, on_grid, ohlcv_valid.
  fold (stream_step (oc_stream c)). cbv zeta.
  rewrite !(dec_ltb_leb (o_high _)), !(dec_ltb_leb _ (o_low _)), (dec_ltb_leb (o_volume _)).
  rewrite dec_max3_le, dec_min3_ge.
  set (v := oc_values c). set (t := oc_open_time_ms c). set (u := oc_close_time_ms c).
  split.
  - intros H. repeat (apply app_nil in H as [?%issue_if_nil H]). apply issue_if_nil in H.
    bool_hyps. repeat split; try done; try lia; congruence.
  - intros (-> & (Ht & Hg & Hu) & H1 & H2 & H3 & H4 & H5 & H6).
    rewrite H1, H2, H3, H4, H5, H6.
    replace (t <? 0) with false by lia. replace (u <? 0) with false by lia.
    replace (t mod stream_step (oc_stream c) =? 0) with true by lia.
    replace (u =? t + stream_step (oc_stream c) - 1) with true by lia. done.
Qed.

(** The canonical texts of parsed values, parsed again. *)
Lemma parse_ohlcv_text v :
  ohlcv_parsed v →
  ∃ v', parse_ohlcv (InStr (dec_text (o_open v))) (InStr (dec_text (o_high v)))
          (InStr (dec_text (o_low v))) (InStr (dec_text (o_close v)))
          (InStr (dec_text (o_volume v))) = Ok v' ∧
        ohlcv_parsed v' ∧ ohlcv_eqv v v'.
Proof.
  unfold ohlcv_parsed. rewrite !Forall_cons. intros (Ho & Hh & Hl & Hc & Hv & _).
  destruct (dec_of_dec_text _ Ho) as (o & Eo & ? & ?). destruct (dec_of_dec_text _ Hh) as (h & Eh & ? & ?).
  destruct (dec_of_dec_text _ Hl) as (l & El & ? & ?). destruct (dec_of_dec_text _ Hc) as (c & Ec & ? & ?).
  destruct (dec_of_dec_text _ Hv) as (w & Ew & ? & ?). unfold dec_of_text in *.
  exists (mkOhlcv o h l c w). unfold parse_ohlcv. rewrite Eo, Eh, El, Ec, Ew.
  split; [done|]. split; [|by repeat split]. cbn [o_open o_high o_low o_close o_volume].
  rewrite !Forall_cons. by split_and!.
Qed.

(** ** Properties *)

(** Validation accepts exactly the closed candles of the stream's grid whose prices lie
    between low and high and whose volume is not negative, and each code is reported
    exactly when its rule is broken. *)
Theorem validation_exact (c : ObservedCandle) :
  let issues := map issue_code (validate_observed_candle c) in
  (issues = [] ↔
   oc_confirmed c = true ∧
   candle_times_valid (oc_stream c) (oc_open_time_ms c) (oc_close_time_ms c) ∧
   ohlcv_valid (oc_values c)) ∧
  (UNCONFIRMED ∈ issues ↔ oc_confirmed c = false) ∧
  (OFF_GRID_OPEN_TIME ∈ issues ↔ ¬ on_grid (stream_step (oc_stream c)) (oc_open_time_ms c)) ∧
  (INVALID_CLOSE_TIME ∈ issues ↔
   oc_close_time_ms c ≠ oc_open_time_ms c + stream_step (oc_stream c) - 1) ∧
  (NEGATIVE_VOLUME ∈ issues ↔ dec_ltb (o_volume (oc_values c)) dec_zero = true).
Proof.
  cbv zeta. split.
  { rewrite <- validate_nil. split; [by intros H%map_eq_nil|by intros ->]. }
  unfold validate_observed_candle, on_grid. fold (stream_step (oc_stream c)). cbv zeta.
  set (v := oc_values c). set (t := oc_open_time_ms c). set (u := oc_close_time_ms c).
  rewrite !map_app, !elem_of_app, !elem_issue_if. split_and!; split.
  - by intros [[? _]|[[_ ?]|[[_ ?]|[[_ ?]|[[_ ?]|[[_ ?]|[_ ?]]]]]]]; bool_hyps.
  - intros ->. by left.
  - intros [[_ ?]|[[_ ?]|[[? _]|[[_ ?]|[[_ ?]|[[_ ?]|[_ ?]]]]]]]; try done. lia.
  - intros Hn. right; right; left. split; [lia|done].
  - intros [[_ ?]|[[_ ?]|[[_ ?]|[[? _]|[[_ ?]|[[_ ?]|[_ ?]]]]]]]; try done. lia.
  - intros Hn. do 3 right; left. split; [lia|done].
  - by intros [[_ ?]|[[_ ?]|[[_ ?]|[[_ ?]|[[_ ?]|[[_ ?]|[? _]]]]]]].
  - intros ->. by do 6 right.
Qed.
