(* ===== verification/StreamState.v ===== *)
(** * The lifecycle of a stream (domain/stream_state.py, domain/readiness.py)

    The persisted snapshot, its constructor check (which [dataclasses.replace] runs
    again), the transition table and [transition_stream_state]; the readiness
    projections. *)

From S2P Require Import Prelude PyStr Timeframes Identity.

Inductive StreamLifecycleState :=
| UNINITIALIZED | BOOTSTRAPPING | AUDITING | REPAIRING | CONNECTING | READY | DEGRADED | FAILED.

#[export] Instance StreamLifecycleState_eq_dec : EqDecision StreamLifecycleState.
Proof. solve_decision. Defined.

Definition lifecycle_value (s : StreamLifecycleState) : string :=
  match s with
  | UNINITIALIZED => "uninitialized"
  | BOOTSTRAPPING => "bootstrapping"
  | AUDITING => "auditing"
  | REPAIRING => "repairing"
  | CONNECTING => "connecting"
  | READY => "ready"
  | DEGRADED => "degraded"
  | FAILED => "failed"
  end.

Definition all_lifecycle_states : list StreamLifecycleState :=
  [UNINITIALIZED; BOOTSTRAPPING; AUDITING; REPAIRING; CONNECTING; READY; DEGRADED; FAILED].

(** [StreamLifecycleState(value)] *)
Definition lifecycle_of_value (v : string) : res StreamLifecycleState :=
  match List.find (λ s, bool_decide (lifecycle_value s = v)) all_lifecycle_states with
  | Some s => Ok s
  | None => raise ExcValueError (repr v +:+ " is not a valid StreamLifecycleState")
  end.

(** [_ALLOWED_TRANSITIONS] *)
Definition allowed_transitions (s : StreamLifecycleState) : list StreamLifecycleState :=
  match s with
  | UNINITIALIZED => [BOOTSTRAPPING; FAILED]
  | BOOTSTRAPPING => [AUDITING; DEGRADED; FAILED]
  | AUDITING => [REPAIRING; CONNECTING; DEGRADED; FAILED]
  | REPAIRING => [AUDITING; DEGRADED; FAILED]
  | CONNECTING => [READY; DEGRADED; FAILED]
  | READY => [DEGRADED; FAILED]
  | DEGRADED => [BOOTSTRAPPING; AUDITING; CONNECTING; FAILED]
  | FAILED => [UNINITIALIZED; AUDITING]
  end.

Record StreamStateSnapshot := mkSnapshot {
  ss_stream : StreamKey;
  ss_state : StreamLifecycleState;
  earliest_available_open_time_ms : option Z;
  lower_bound_discovery_next_open_time_ms : option Z;
  latest_committed_open_time_ms : option Z;
  last_audit_at_ms : option Z;
  last_rest_success_at_ms : option Z;
  last_ws_message_at_ms : option Z;
  last_error_code : option string;
  last_error_detail : option string;
  state_changed_at_ms : Z;
  updated_at_ms : Z
}.

#[export] Instance StreamStateSnapshot_eq_dec : EqDecision StreamStateSnapshot.
Proof. solve_decision. Defined.

Definition negative (v : option Z) : bool := match v with Some x => x <? 0 | None => false end.

(** [StreamStateSnapshot.__post_init__] *)
Definition snapshot_check (s : StreamStateSnapshot) : res StreamStateSnapshot :=
  _ ← raise_if (negative (earliest_available_open_time_ms s)) ExcValueError
        "earliest_available_open_time_ms must be non-negative";
  _ ← raise_if (negative (lower_bound_discovery_next_open_time_ms s)) ExcValueError
        "lower_bound_discovery_next_open_time_ms must be non-negative";
  _ ← raise_if (negative (latest_committed_open_time_ms s)) ExcValueError
        "latest_committed_open_time_ms must be non-negative";
  _ ← raise_if (negative (last_audit_at_ms s)) ExcValueError
        "last_audit_at_ms must be non-negative";
  _ ← raise_if (negative (last_rest_success_at_ms s)) ExcValueError
        "last_rest_success_at_ms must be non-negative";
  _ ← raise_if (negative (last_ws_message_at_ms s)) ExcValueError
        "last_ws_message_at_ms must be non-negative";
  _ ← raise_if (state_changed_at_ms s <? 0) ExcValueError
        "state_changed_at_ms must be non-negative";
  _ ← raise_if (updated_at_ms s <? 0) ExcValueError "updated_at_ms must be non-negative";
  match lower_bound_discovery_next_open_time_ms s with
  | None => mret s
  | Some cursor =>
      _ ← raise_if (negb (cursor mod stream_step (ss_stream s) =? 0)) ExcValueError
            "lower_bound_discovery_next_open_time_ms must be timeframe-aligned";
      _ ← raise_if (bool_decide (is_Some (earliest_available_open_time_ms s))) ExcValueError
            "resolved lower bound cannot retain a discovery cursor";
      mret s
  end.

(** [StreamStateSnapshot(stream, state)] with every other field at its default. *)
Definition initial_snapshot (k : StreamKey) (st : StreamLifecycleState) (changed updated : Z) :
    res StreamStateSnapshot :=
  snapshot_check (mkSnapshot k st None None None None None None None None changed updated).

Definition is_ready (s : StreamStateSnapshot) : bool := bool_decide (ss_state s = READY).

Definition can_transition (current target : StreamLifecycleState) : bool :=
  bool_decide (target ∈ allowed_transitions current).

(** [replace(snapshot, state=..., last_error_code=..., last_error_detail=...,
    state_changed_at_ms=..., updated_at_ms=...)] before its check. *)
Definition set_state (s : StreamStateSnapshot) (st : StreamLifecycleState)
    (code detail : option string) (changed updated : Z) : StreamStateSnapshot :=
  mkSnapshot (ss_stream s) st (earliest_available_open_time_ms s)
    (lower_bound_discovery_next_open_time_ms s) (latest_committed_open_time_ms s)
    (last_audit_at_ms s) (last_rest_success_at_ms s) (last_ws_message_at_ms s)
    code detail changed updated.

(** The other [replace] calls of the code, one setter per group of fields. *)
Definition set_bounds (s : StreamStateSnapshot) (earliest discovery : option Z) :
    StreamStateSnapshot :=
  mkSnapshot (ss_stream s) (ss_state s) earliest discovery (latest_committed_open_time_ms s)
    (last_audit_at_ms s) (last_rest_success_at_ms s) (last_ws_message_at_ms s)
    (last_error_code s) (last_error_detail s) (state_changed_at_ms s) (updated_at_ms s).

Definition set_latest (s : StreamStateSnapshot) (latest : option Z) : StreamStateSnapshot :=
  mkSnapshot (ss_stream s) (ss_state s) (earliest_available_open_time_ms s)
    (lower_bound_discovery_next_open_time_ms s) latest
    (last_audit_at_ms s) (last_rest_success_at_ms s) (last_ws_message_at_ms s)
    (last_error_code s) (last_error_detail s) (state_changed_at_ms s) (updated_at_ms s).

Definition set_marks (s : StreamStateSnapshot) (audit rest ws : option Z) : StreamStateSnapshot :=
  mkSnapshot (ss_stream s) (ss_state s) (earliest_available_open_time_ms s)
    (lower_bound_discovery_next_open_time_ms s) (latest_committed_open_time_ms s)
    audit rest ws
    (last_error_code s) (last_error_detail s) (state_changed_at_ms s) (updated_at_ms s).

Definition set_error (s : StreamStateSnapshot) (code detail : option string) : StreamStateSnapshot :=
  mkSnapshot (ss_stream s) (ss_state s) (earliest_available_open_time_ms s)
    (lower_bound_discovery_next_open_time_ms s) (latest_committed_open_time_ms s)
    (last_audit_at_ms s) (last_rest_success_at_ms s) (last_ws_message_at_ms s)
    code detail (state_changed_at_ms s) (updated_at_ms s).

Definition set_updated (s : StreamStateSnapshot) (updated : Z) : StreamStateSnapshot :=
  mkSnapshot (ss_stream s) (ss_state s) (earliest_available_open_time_ms s)
    (lower_bound_discovery_next_open_time_ms s) (latest_committed_open_time_ms s)
    (last_audit_at_ms s) (last_rest_success_at_ms s) (last_ws_message_at_ms s)
    (last_error_code s) (last_error_detail s) (state_changed_at_ms s) updated.

Definition keeps_error (target : StreamLifecycleState) : bool :=
  bool_decide (target = DEGRADED ∨ target = FAILED).

Definition transition_stream_state (snapshot : StreamStateSnapshot) (target : StreamLifecycleState)
    (changed_at_ms : Z) (error_code error_detail : option string) : res StreamStateSnapshot :=
  _ ← raise_if (bool_decide (target = ss_state snapshot)) ExcInvalidStreamTransition
        ("stream is already in state " +:+ lifecycle_value target);
  _ ← raise_if (negb (can_transition (ss_state snapshot) target)) ExcInvalidStreamTransition
        ("illegal stream transition " +:+ lifecycle_value (ss_state snapshot) +:+ " -> "
         +:+ lifecycle_value target);
  _ ← raise_if (changed_at_ms <? updated_at_ms snapshot) ExcValueError
        "changed_at_ms must not move backwards";
  let clear_error := negb (keeps_error target) in
  snapshot_check
    (set_state snapshot target (if clear_error then None else error_code)
       (if clear_error then None else error_detail) changed_at_ms changed_at_ms).

(** ** domain/readiness.py *)

Record StreamReadiness := mkReadiness {
  rd_stream : StreamKey;
  rd_ready : bool;
  rd_state : string;
  rd_reason : option string
}.

Definition project_stream_readiness (s : StreamStateSnapshot) : StreamReadiness :=
  mkReadiness (ss_stream s) (is_ready s) (lifecycle_value (ss_state s))
    (if is_ready s then None
     else Some (or_str (last_error_code s) (lifecycle_value (ss_state s)))).

Definition strict_aggregate_readiness (snapshots : list StreamStateSnapshot) : bool :=
  match snapshots with [] => false | _ => forallb is_ready snapshots end.

(** ** Facts *)

Definition nonneg (v : option Z) : Prop := ∀ x, v = Some x → 0 ≤ x.

(** What the constructor guarantees of every snapshot. *)
Record snapshot_valid (s : StreamStateSnapshot) : Prop := {
  sv_earliest : nonneg (earliest_available_open_time_ms s);
  sv_discovery : nonneg (lower_bound_discovery_next_open_time_ms s);
  sv_latest : nonneg (latest_committed_open_time_ms s);
  sv_audit : nonneg (last_audit_at_ms s);
  sv_rest : nonneg (last_rest_success_at_ms s);
  sv_ws : nonneg (last_ws_message_at_ms s);
  sv_changed : 0 ≤ state_changed_at_ms s;
  sv_updated : 0 ≤ updated_at_ms s;
  sv_aligned : ∀ c, lower_bound_discovery_next_open_time_ms s = Some c →
               on_grid (stream_step (ss_stream s)) c;
  sv_resolved : ∀ c, lower_bound_discovery_next_open_time_ms s = Some c →
                earliest_available_open_time_ms s = None
}.

Lemma negative_false v : negative v = false ↔ nonneg v.
Proof.
  unfold nonneg. destruct v as [x|]; cbn; [|by split]. rewrite Z.ltb_ge. split.
  - by intros ? y [= <-].
  - intros H. by apply H.
Qed.

Lemma lifecycle_of_value_value s : lifecycle_of_value (lifecycle_value s) = Ok s.
Proof. by destruct s. Qed.

Lemma snapshot_check_ok s s' : snapshot_check s = Ok s' ↔ s' = s ∧ snapshot_valid s.
Proof.
  unfold snapshot_check. rewrite !raise_if_bind_ok, !negative_false, !Z.ltb_ge.
  destruct (lower_bound_discovery_next_open_time_ms s) as [c|] eqn:Ec.
  - rewrite !raise_if_bind_ok. unfold mret, res_ret. split.
    + intros (? & ? & ? & ? & ? & ? & ? & ? & Hg & He & [= <-]). split; [done|].
      split; rewrite ?Ec; try done.
      * intros c' [= <-]. bool_hyps. done.
      * intros c' _. apply bool_decide_eq_false in He. by apply eq_None_not_Some.
    + intros [-> [? ? ? ? ? ? ? ? Ha Hr]]. rewrite Ec in *. repeat (split; [done|]).
      specialize (Ha c eq_refl). specialize (Hr c eq_refl). unfold on_grid in Ha.
      split; [lia|]. split; [|done]. rewrite Hr. apply bool_decide_eq_false.
      by intros [? ?].
  - unfold mret, res_ret. split.
    + intros (? & ? & ? & ? & ? & ? & ? & ? & [= <-]). split; [done|].
      split; rewrite ?Ec; done.
    + intros [-> []]. rewrite Ec in *. by repeat (split; [done|]).
Qed.

Lemma snapshot_check_valid s : snapshot_valid s → snapshot_check s = Ok s.
Proof. intros. by apply snapshot_check_ok. Qed.

Lemma snapshot_check_error s e : snapshot_check s = Raise e → exn_cls e = ExcValueError.
Proof.
  unfold snapshot_check.
  repeat (rewrite raise_if_bind_raise; intros [[_ ->]|[_ H]]; [done|revert H]).
  destruct (lower_bound_discovery_next_open_time_ms s); [|done].
  by repeat (rewrite raise_if_bind_raise; intros [[_ ->]|[_ H]]; [done|revert H]).
Qed.

Lemma set_state_valid s st code detail t :
  snapshot_valid s → 0 ≤ t → snapshot_valid (set_state s st code detail t t).
Proof. intros []. by split. Qed.

Lemma set_latest_valid s v : snapshot_valid s → nonneg v → snapshot_valid (set_latest s v).
Proof. intros []. by split. Qed.

Lemma set_error_valid s c d : snapshot_valid s → snapshot_valid (set_error s c d).
Proof. intros []. by split. Qed.

Lemma set_updated_valid s t : snapshot_valid s → 0 ≤ t → snapshot_valid (set_updated s t).
Proof. intros []. by split. Qed.

Lemma set_marks_valid s a r w :
  snapshot_valid s → nonneg a → nonneg r → nonneg w → snapshot_valid (set_marks s a r w).
Proof. intros []. by split. Qed.

Lemma set_bounds_resolved_valid s e :
  snapshot_valid s → nonneg e → snapshot_valid (set_bounds s e None).
Proof. intros []. by split. Qed.

Lemma set_bounds_cursor_valid s c :
  snapshot_valid s → 0 ≤ c → on_grid (stream_step (ss_stream s)) c →
  snapshot_valid (set_bounds s None (Some c)).
Proof.
  intros [] ? ?. split; try done.
  - by intros x [= <-].
  - by intros x [= <-].
Qed.

Lemma nonneg_Some x : 0 ≤ x → nonneg (Some x).
Proof. by intros ? y [= <-]. Qed.
Lemma nonneg_None : nonneg None.
Proof. by intros ? ?. Qed.

#[export] Hint Resolve set_state_valid set_latest_valid set_error_valid set_updated_valid
  set_marks_valid set_bounds_resolved_valid set_bounds_cursor_valid nonneg_Some nonneg_None
  sv_earliest sv_discovery sv_latest sv_audit sv_rest sv_ws sv_changed sv_updated : mds.

Definition lifecycle_step (a b : StreamLifecycleState) : Prop := can_transition a b = true.

Lemma lifecycle_step_elem a b : lifecycle_step a b ↔ b ∈ allowed_transitions a.
Proof. unfold lifecycle_step, can_transition. by rewrite bool_decide_eq_true. Qed.

Lemma can_transition_irrefl a : can_transition a a = false.
Proof. by destruct a. Qed.

(** What a transition does when it is taken. *)
Definition transition_result (s s' : StreamStateSnapshot) (target : StreamLifecycleState)
    (t : Z) (code detail : option string) : Prop :=
  s' = set_state s target (if keeps_error target then code else None)
         (if keeps_error target then detail else None) t t.

Lemma transition_ok s target t code detail s' :
  snapshot_valid s →
  transition_stream_state s target t code detail = Ok s' ↔
  lifecycle_step (ss_state s) target ∧ updated_at_ms s ≤ t ∧
  transition_result s s' target t code detail.
Proof.
  intros Hv. unfold transition_stream_state, lifecycle_step, transition_result. cbv zeta.
  rewrite !raise_if_bind_ok, snapshot_check_ok, bool_decide_eq_false, negb_false_iff, Z.ltb_ge.
  rewrite !if_negb. split; [by intros (? & ? & ? & -> & _)|].
  intros (Hc & Ht & ->). split; [|split; [done|split; [done|split; [done|]]]].
  - intros ->. by rewrite can_transition_irrefl in Hc.
  - apply set_state_valid; [done|]. pose proof (sv_updated _ Hv). lia.
Qed.

(** One transition between snapshots. *)
Definition snapshot_step (s s' : StreamStateSnapshot) : Prop :=
  ∃ target t code detail, transition_stream_state s target t code detail = Ok s'.

Lemma transition_error s target t code detail e :
  snapshot_valid s → transition_stream_state s target t code detail = Raise e →
  (¬ lifecycle_step (ss_state s) target ∧ exn_cls e = ExcInvalidStreamTransition) ∨
  (lifecycle_step (ss_state s) target ∧ t < updated_at_ms s ∧ exn_cls e = ExcValueError).
Proof.
  intros Hv. unfold transition_stream_state, lifecycle_step. cbv zeta.
  rewrite !raise_if_bind_raise.
  intros [[Ht%bool_decide_eq_true ->]|[_ [[Hc%negb_true_iff ->]|[Hc%negb_false_iff
    [[Hlt%Z.ltb_lt ->]|[Hlt%Z.ltb_ge He]]]]]].
  - left. subst. by rewrite can_transition_irrefl.
  - left. by rewrite Hc.
  - by right.
  - exfalso. rewrite snapshot_check_valid in He; [done|].
    apply set_state_valid; [done|]. pose proof (sv_updated _ Hv). lia.
Qed.

(** Every state can reach every other one: the lifecycle has no dead end. *)
Lemma to_uninitialized a : rtc lifecycle_step a UNINITIALIZED.
Proof.
  assert (Hf : rtc lifecycle_step FAILED UNINITIALIZED) by (by apply rtc_once).
  destruct a; [reflexivity|..|exact Hf]; by apply (rtc_l _ _ FAILED).
Qed.

Lemma from_uninitialized b : rtc lifecycle_step UNINITIALIZED b.
Proof.
  assert (Hb : rtc lifecycle_step UNINITIALIZED BOOTSTRAPPING) by (by apply rtc_once).
  assert (Ha : rtc lifecycle_step UNINITIALIZED AUDITING)
    by (by eapply (rtc_r _ BOOTSTRAPPING)).
  assert (Hc : rtc lifecycle_step UNINITIALIZED CONNECTING)
    by (by eapply (rtc_r _ AUDITING)).
  destruct b; [reflexivity|done|done|by eapply (rtc_r _ AUDITING)|done|
    by eapply (rtc_r _ CONNECTING)|by eapply (rtc_r _ BOOTSTRAPPING)|by apply rtc_once].
Qed.

Lemma lifecycle_connected a b : rtc lifecycle_step a b.
Proof. transitivity UNINITIALIZED; [apply to_uninitialized|apply from_uninitialized]. Qed.

Lemma ready_predecessor a : lifecycle_step a READY → a = CONNECTING.
Proof. by destruct a. Qed.

(** What any sequence of transitions keeps. *)
Definition same_data (s s' : StreamStateSnapshot) : Prop :=
  ss_stream s' = ss_stream s ∧
  earliest_available_open_time_ms s' = earliest_available_open_time_ms s ∧
  lower_bound_discovery_next_open_time_ms s' = lower_bound_discovery_next_open_time_ms s ∧
  latest_committed_open_time_ms s' = latest_committed_open_time_ms s ∧
  last_audit_at_ms s' = last_audit_at_ms s ∧
  last_rest_success_at_ms s' = last_rest_success_at_ms s ∧
  last_ws_message_at_ms s' = last_ws_message_at_ms s.

#[export] Instance same_data_preorder : PreOrder same_data.
Proof.
  split.
  - intros s. unfold same_data. by repeat split.
  - intros a b c. unfold same_data. intros (? & ? & ? & ? & ? & ? & ?) (? & ? & ? & ? & ? & ? & ?).
    repeat split; by etrans.
Qed.

Lemma snapshot_step_facts s s' :
  snapshot_valid s → snapshot_step s s' →
  snapshot_valid s' ∧ same_data s s' ∧ updated_at_ms s ≤ updated_at_ms s' ∧
  lifecycle_step (ss_state s) (ss_state s').
Proof.
  intros Hv (target & t & code & detail & H). apply transition_ok in H as (Hs & Ht & ->); [|done].
  pose proof (sv_updated _ Hv). split; [apply set_state_valid; [done|lia]|].
  unfold same_data. by repeat split.
Qed.

(** ** Properties *)

(** A lifecycle transition is taken exactly when the table allows it and time does not move
    backwards: it then sets the state and both times, keeps the error only on the way to
    [DEGRADED] or [FAILED], and keeps every other field and the snapshot's validity.
    Otherwise it raises [InvalidStreamTransition] for the table, [ValueError] for time. *)
Theorem transition_exact (s : StreamStateSnapshot) (target : StreamLifecycleState) (t : Z)
    (code detail : option string) :
  snapshot_valid s →
  match transition_stream_state s target t code detail with
  | Ok s' =>
      lifecycle_step (ss_state s) target ∧ updated_at_ms s ≤ t ∧
      transition_result s s' target t code detail ∧ snapshot_valid s'
  | Raise e =>
      (¬ lifecycle_step (ss_state s) target ∧ exn_cls e = ExcInvalidStreamTransition) ∨
      (lifecycle_step (ss_state s) target ∧ t < updated_at_ms s ∧ exn_cls e = ExcValueError)
  end.
Proof.
  intros Hv. destruct (transition_stream_state s target t code detail) as [s'|e] eqn:E.
  - assert (Hst : snapshot_step s s') by (by exists target, t, code, detail).
    apply snapshot_step_facts in Hst as [Hv' _]; [|done]. by apply transition_ok in E as (? & ? & ?).
  - by eapply transition_error.
Qed.

Definition example_stream : StreamKey := mkStreamKey (mkInstrumentKey "BTCUSDT.P") TF_1m.
Definition example_snapshot (st : StreamLifecycleState) : StreamStateSnapshot :=
  mkSnapshot example_stream st (Some 0) None (Some 60000) None None None None None 10 10.

Lemma example_snapshot_valid st : snapshot_valid (example_snapshot st).
Proof. by apply (snapshot_check_ok _ (example_snapshot st)). Qed.

Lemma transition_exact_witness :
  snapshot_valid (example_snapshot CONNECTING) ∧
  is_ok (transition_stream_state (example_snapshot CONNECTING) READY 20 None None) = true ∧
  match transition_stream_state (example_snapshot CONNECTING) READY 20 None None with
  | Ok s' =>
      lifecycle_step CONNECTING READY ∧ 10 ≤ 20 ∧
      transition_result (example_snapshot CONNECTING) s' READY 20 None None ∧ snapshot_valid s'
  | Raise e =>
      (¬ lifecycle_step CONNECTING READY ∧ exn_cls e = ExcInvalidStreamTransition) ∨
      (lifecycle_step CONNECTING READY ∧ 20 < 10 ∧ exn_cls e = ExcValueError)
  end.
Proof.
  split; [apply example_snapshot_valid|]. split; [reflexivity|].
  apply (transition_exact (example_snapshot CONNECTING) READY 20 None None).
  apply example_snapshot_valid.
Defined.

(** Every history of transitions keeps the snapshot valid, keeps the stream, the bounds, the
    latest candle and the marks, and never moves time backwards; a stream that became ready
    did so in one step from [CONNECTING]; and from every state every other can be reached. *)
Theorem lifecycle_history (s s' : StreamStateSnapshot) :
  snapshot_valid s → rtc snapshot_step s s' →
  snapshot_valid s' ∧ same_data s s' ∧ updated_at_ms s ≤ updated_at_ms s' ∧
  rtc lifecycle_step (ss_state s) (ss_state s') ∧
  (is_ready s' = true → s' = s ∨
    ∃ m, rtc snapshot_step s m ∧ ss_state m = CONNECTING ∧ snapshot_step m s') ∧
  ∀ b, rtc lifecycle_step (ss_state s') b.
Proof.
  intros Hv H. assert (snapshot_valid s' ∧ same_data s s' ∧ updated_at_ms s ≤ updated_at_ms s' ∧
    rtc lifecycle_step (ss_state s) (ss_state s')) as (H1 & H2 & H3 & H4).
  { revert Hv. induction H as [s|s m s' Hsm _ IH]; intros Hv; [split; [done|]; by split|].
    destruct (snapshot_step_facts s m Hv Hsm) as (Hm & Hd & Hu & Hl).
    destruct (IH Hm) as (? & ? & ? & ?). split; [done|]. split; [by etrans|]. split; [lia|].
    by eapply rtc_l. }
  do 4 (split; [done|]). split; [|intros; apply lifecycle_connected].
  intros Hr. apply bool_decide_eq_true in Hr. apply rtc_inv_r in H as [->|(m & Hm & Hms)]; [by left|].
  right. exists m. split; [done|]. split; [|done]. apply ready_predecessor. rewrite <- Hr.
  apply (snapshot_step_facts m s'); [|done].
  clear - Hv Hm. induction Hm as [|? ? ? Hst _ IH]; [done|]. apply IH.
  by apply (snapshot_step_facts _ _ Hv Hst).
Qed.

Lemma lifecycle_history_witness :
  let s := example_snapshot CONNECTING in
  let s' := set_state s READY None None 20 20 in
  snapshot_valid s ∧ rtc snapshot_step s s' ∧
  (snapshot_valid s' ∧ same_data s s' ∧ updated_at_ms s ≤ updated_at_ms s' ∧
   rtc lifecycle_step (ss_state s) (ss_state s') ∧
   (is_ready s' = true → s' = s ∨
     ∃ m, rtc snapshot_step s m ∧ ss_state m = CONNECTING ∧ snapshot_step m s') ∧
   ∀ b, rtc lifecycle_step (ss_state s') b).
Proof.
  intros s s'. assert (Hr : rtc snapshot_step s s').
  { apply rtc_once. exists READY, 20, None, None. reflexivity. }
  split; [apply example_snapshot_valid|]. split; [done|].
  apply (lifecycle_history s s'); [apply example_snapshot_valid|done].
Defined.

(** Aggregate readiness means at least one stream and all of them ready, and a stream that is
    not ready always has a reason. *)
Theorem readiness_exact (l : list StreamStateSnapshot) (s : StreamStateSnapshot) :
  (strict_aggregate_readiness l = true ↔ l ≠ [] ∧ Forall (λ s, ss_state s = READY) l) ∧
  (rd_reason (project_stream_readiness s) = None ↔ ss_state s = READY) ∧
  rd_ready (project_stream_readiness s) = is_ready s.
Proof.
  split; [|split; [|done]].
  - unfold strict_aggregate_readiness. rewrite Forall_forall. destruct l as [|x l]; [by split; [|intros []]|].
    rewrite forallb_forall. unfold is_ready. setoid_rewrite bool_decide_eq_true.
    setoid_rewrite <- list_elem_of_In. by split; [|intros []].
  - unfold project_stream_readiness, is_ready. cbn. case_bool_decide; by split.
Qed.
