(* ===== verification/Instruments.v ===== *)
(** * Instruments, market configuration and backfill requests

    domain/instruments.py, domain/backfill.py, application/backfill.py,
    application/market_metadata.py and config/markets.py.  The TOML reader is not part of
    the repository: [load_market_config] takes the value it returned, or what it raised. *)

From S2P Require Import Prelude PyStr Timeframes Identity.

(** ** domain/instruments.py *)

Inductive HistoryPolicy := FULL_AVAILABLE.

#[export] Instance HistoryPolicy_eq_dec : EqDecision HistoryPolicy.
Proof. solve_decision. Defined.

Definition HistoryPolicy_of_value (v : string) : res HistoryPolicy :=
  if bool_decide (v = "full_available"%string) then Ok FULL_AVAILABLE
  else raise ExcValueError (repr v +:+ " is not a valid HistoryPolicy").

Record InstrumentMetadata := mkInstrumentMetadata {
  im_instrument : InstrumentKey;
  im_exchange_symbol : string;
  im_launch_time_ms : option Z;
  im_fetched_at_ms : option Z
}.

#[export] Instance InstrumentMetadata_eq_dec : EqDecision InstrumentMetadata.
Proof. solve_decision. Defined.

Definition opt_negative (v : option Z) : bool := match v with Some x => x <? 0 | None => false end.

Definition InstrumentMetadata_new (instrument : InstrumentKey) (exchange_symbol : string)
    (launch_time_ms fetched_at_ms : option Z) : res InstrumentMetadata :=
  let symbol := upper (strip exchange_symbol) in
  _ ← raise_if (bool_decide (symbol = ""%string) || negb (isascii symbol) || negb (isalnum symbol))
        ExcValueError "exchange_symbol must contain only ASCII letters and digits";
  _ ← raise_if (opt_negative launch_time_ms) ExcValueError "launch_time_ms must be non-negative";
  _ ← raise_if (opt_negative fetched_at_ms) ExcValueError "fetched_at_ms must be non-negative";
  mret (mkInstrumentMetadata instrument symbol launch_time_ms fetched_at_ms).

Record InstrumentCoverage := mkInstrumentCoverage {
  ic_instrument : InstrumentKey;
  ic_exchange_symbol : string;
  ic_enabled : bool;
  ic_canonical_timeframes : list Timeframe;
  ic_history_policy : HistoryPolicy;
  ic_open_interest : bool
}.

(** [tuple(StreamKey(self.instrument, value).timeframe for value in ...)] *)
Fixpoint normalize_timeframes (k : InstrumentKey) (values : list string) : res (list Timeframe) :=
  match values with
  | [] => mret []
  | v :: values =>
      key ← StreamKey_new k v;
      rest ← normalize_timeframes k values;
      mret (timeframe key :: rest)
  end.

Definition InstrumentCoverage_new (instrument : InstrumentKey) (exchange_symbol : string)
    (enabled : bool) (canonical_timeframes : list string) (policy : HistoryPolicy)
    (open_interest : bool) : res InstrumentCoverage :=
  metadata ← InstrumentMetadata_new instrument exchange_symbol None None;
  _ ← raise_if (bool_decide (canonical_timeframes = [])) ExcValueError
        "canonical_timeframes must not be empty";
  normalized ← normalize_timeframes instrument canonical_timeframes;
  _ ← raise_if (negb (size (list_to_set normalized : gset Timeframe) =? length normalized)%nat)
        ExcValueError "canonical_timeframes must not contain duplicates";
  _ ← raise_if (open_interest && negb (bool_decide (TF_5m ∈ normalized))) ExcValueError
        "open_interest requires the 5m timeframe";
  mret (mkInstrumentCoverage instrument (im_exchange_symbol metadata) enabled normalized policy
          open_interest).

Definition stream_keys (c : InstrumentCoverage) : list StreamKey :=
  map (mkStreamKey (ic_instrument c)) (ic_canonical_timeframes c).

Definition coverage_open_interest_streams (c : InstrumentCoverage) : list StreamKey :=
  if ic_open_interest c then [mkStreamKey (ic_instrument c) TF_5m] else [].

Record ExchangeInstrumentSpecification := mkSpecification {
  es_instrument : InstrumentKey;
  es_exchange_symbol : string;
  es_category : string;
  es_contract_type : string;
  es_status : string;
  es_settle_coin : string;
  es_launch_time_ms : Z
}.

Definition Specification_new (instrument : InstrumentKey)
    (exchange_symbol category contract_type status settle_coin : string) (launch_time_ms : Z) :
    res ExchangeInstrumentSpecification :=
  let symbol := upper (strip exchange_symbol) in
  let category := lower (strip category) in
  let contract := strip contract_type in
  let status := strip status in
  let settle := upper (strip settle_coin) in
  let empty (s : string) := bool_decide (s = ""%string) in
  _ ← raise_if (empty symbol) ExcValueError "exchange_symbol must not be empty";
  _ ← raise_if (empty category) ExcValueError "category must not be empty";
  _ ← raise_if (empty contract) ExcValueError "contract_type must not be empty";
  _ ← raise_if (empty status) ExcValueError "status must not be empty";
  _ ← raise_if (empty settle) ExcValueError "settle_coin must not be empty";
  _ ← raise_if (launch_time_ms <? 0) ExcValueError "launch_time_ms must be non-negative";
  mret (mkSpecification instrument symbol category contract status settle launch_time_ms).

(** ** domain/backfill.py and application/backfill.py *)

Inductive BackfillSelection := ONE_STREAM | ALL_STREAMS.

#[export] Instance BackfillSelection_eq_dec : EqDecision BackfillSelection.
Proof. solve_decision. Defined.

Record BackfillBudget := mkBudget { max_windows : Z }.

Definition BackfillBudget_new (n : Z) : res BackfillBudget :=
  _ ← raise_if (n <=? 0) ExcValueError "max_windows must be positive";
  mret (mkBudget n).

Record BackfillRequest := mkBackfillRequest {
  br_selection : BackfillSelection;
  br_budget : BackfillBudget;
  br_stream : option StreamKey
}.

Definition BackfillRequest_new (selection : BackfillSelection) (budget : BackfillBudget)
    (stream : option StreamKey) : res BackfillRequest :=
  _ ← raise_if (bool_decide (selection = ONE_STREAM) && bool_decide (stream = None)) ExcValueError
        "one_stream selection requires stream";
  _ ← raise_if (bool_decide (selection = ALL_STREAMS) && negb (bool_decide (stream = None)))
        ExcValueError "all_streams selection must not pin one stream";
  mret (mkBackfillRequest selection budget stream).

Record BackfillRunPlan := mkPlan { plan_streams : list StreamKey; max_windows_per_stream : Z }.

Definition BackfillRunPlan_new (streams : list StreamKey) (n : Z) : res BackfillRunPlan :=
  _ ← raise_if (bool_decide (streams = [])) ExcValueError
        "backfill plan requires at least one stream";
  _ ← raise_if (negb (size (list_to_set streams : gset StreamKey) =? length streams)%nat)
        ExcValueError "backfill plan streams must be unique";
  _ ← raise_if (n <=? 0) ExcValueError "max_windows_per_stream must be positive";
  mret (mkPlan streams n).

(** [tuple(dict.fromkeys(xs))]: the first of each value, in order. *)
Fixpoint dict_fromkeys (seen : gset StreamKey) (l : list StreamKey) : list StreamKey :=
  match l with
  | [] => []
  | k :: l => if decide (k ∈ seen) then dict_fromkeys seen l
              else k :: dict_fromkeys ({[k]} ∪ seen) l
  end.

(** [str(stream)], the dataclass representation. *)
Definition repr_stream (k : StreamKey) : string :=
  "StreamKey(instrument=InstrumentKey(ticker=" +:+ repr (ticker (instrument k)) +:+ "), timeframe="
  +:+ repr (tf_id (timeframe k)) +:+ ")".

Definition plan_sequential_backfill (request : BackfillRequest) (configured : list StreamKey) :
    res BackfillRunPlan :=
  let unique_streams := dict_fromkeys ∅ configured in
  selected ←
    match br_stream request with
    | Some k =>
        _ ← raise_if (negb (bool_decide (k ∈ unique_streams))) ExcValueError
              ("stream is not configured: " +:+ repr_stream k);
        mret [k]
    | None =>
        _ ← raise_if (bool_decide (unique_streams = [])) ExcValueError
              "no configured streams available for backfill";
        mret unique_streams
    end;
  BackfillRunPlan_new selected (max_windows (br_budget request)).

(** ** application/market_metadata.py *)

(** The five compared facts, in the order of [expected]. *)
Definition expected_facts (category : string) (c : InstrumentCoverage) : list (string * string) :=
  [("exchange_symbol", ic_exchange_symbol c); ("category", lower (strip category));
   ("contract_type", "LinearPerpetual"); ("status", "Trading"); ("settle_coin", "USDT")]%string.

Definition actual_facts (s : ExchangeInstrumentSpecification) : list string :=
  [es_exchange_symbol s; es_category s; es_contract_type s; es_status s; es_settle_coin s].

Definition metadata_mismatches (category : string) (c : InstrumentCoverage)
    (s : ExchangeInstrumentSpecification) : list string :=
  flat_map (λ '((name, expected), actual),
      if bool_decide (actual = expected) then []
      else [name +:+ ": expected=" +:+ repr expected +:+ " actual=" +:+ repr actual])
    (zip (expected_facts category c) (actual_facts s)).

(** [VerifyConfiguredInstrumentMetadata.execute]; [fetched] is what the source returned. *)
Definition verify_configured_metadata (category : string)
    (fetched : res ExchangeInstrumentSpecification) (c : InstrumentCoverage) :
    res (InstrumentCoverage * ExchangeInstrumentSpecification) :=
  s ← fetched;
  let mismatches := metadata_mismatches category c s in
  _ ← raise_if (negb (bool_decide (mismatches = []))) ExcInstrumentMetadataMismatch
        ("metadata mismatch for " +:+ ticker (ic_instrument c) +:+ ": " +:+ join "; " mismatches);
  mret (c, s).

(** ** config/markets.py *)

(** A parsed TOML value; [TomlOther] is a float or a date. *)
Inductive toml :=
| TomlStr (s : string)
| TomlInt (z : Z)
| TomlBool (b : bool)
| TomlArray (l : list toml)
| TomlTable (fields : list (string * toml))
| TomlOther.

Definition table := list (string * toml).

(** [payload.get(key)] *)
Fixpoint table_get (t : table) (key : string) : option toml :=
  match t with
  | [] => None
  | (k, v) :: t => if bool_decide (k = key) then Some v else table_get t key
  end.

Record MarketSourceConfig := mkMarketSource { ms_venue : string; ms_category : string }.

Record ValidatedMarketConfig := mkMarketConfig {
  mc_schema_version : Z;
  mc_source : MarketSourceConfig;
  mc_instruments : list InstrumentCoverage
}.

Definition enabled_instruments (c : ValidatedMarketConfig) : list InstrumentCoverage :=
  List.filter ic_enabled (mc_instruments c).
Definition enabled_streams (c : ValidatedMarketConfig) : list StreamKey :=
  flat_map stream_keys (enabled_instruments c).
Definition open_interest_streams (c : ValidatedMarketConfig) : list StreamKey :=
  flat_map coverage_open_interest_streams (enabled_instruments c).
Definition exchange_symbols (c : ValidatedMarketConfig) : gmap string string :=
  list_to_map (rev (map (λ i, (ticker (ic_instrument i), ic_exchange_symbol i))
                      (enabled_instruments c))).

Definition config_error {A} (msg : string) : res A := raise ExcMarketConfigError msg.

Definition required_table (t : table) (key context : string) : res table :=
  match table_get t key with
  | Some (TomlTable f) => Ok f
  | _ => config_error (context +:+ "." +:+ key +:+ " must be a table")
  end.

Definition required_string (t : table) (key context : string) : res string :=
  match table_get t key with
  | Some (TomlStr s) =>
      if bool_decide (strip s = ""%string)
      then config_error (context +:+ "." +:+ key +:+ " must be a non-empty string")
      else Ok (strip s)
  | _ => config_error (context +:+ "." +:+ key +:+ " must be a non-empty string")
  end.

Definition required_bool (t : table) (key context : string) : res bool :=
  match table_get t key with
  | Some (TomlBool b) => Ok b
  | _ => config_error (context +:+ "." +:+ key +:+ " must be a boolean")
  end.

Definition required_int (t : table) (key context : string) : res Z :=
  match table_get t key with
  | Some (TomlInt z) => Ok z
  | _ => config_error (context +:+ "." +:+ key +:+ " must be an integer")
  end.

(** The strings of an array, when every item is one. *)
Fixpoint toml_strings (l : list toml) : option (list string) :=
  match l with
  | [] => Some []
  | TomlStr s :: l => cons s <$> toml_strings l
  | _ => None
  end.

(** One element of the [instruments] array. *)
Definition load_instrument (index : nat) (raw : toml) : res InstrumentCoverage :=
  let context := "instruments[" +:+ str_of_Z (Z.of_nat index) +:+ "]" in
  match raw with
  | TomlTable raw =>
      ticker ← required_string raw "ticker" context;
      exchange_symbol ← required_string raw "exchange_symbol" context;
      enabled ← required_bool raw "enabled" context;
      raw_timeframes ←
        match table_get raw "canonical_timeframes" with
        | Some (TomlArray (x :: l)) => mret (x :: l)
        | _ => config_error (context +:+ ".canonical_timeframes must be a non-empty array")
        end;
      timeframes ←
        match toml_strings raw_timeframes with
        | Some l => mret l
        | None => config_error (context +:+ ".canonical_timeframes must contain strings")
        end;
      history_policy_raw ← required_string raw "history_policy" context;
      open_interest ←
        match table_get raw "open_interest" with
        | None => mret false
        | Some (TomlBool b) => mret b
        | Some _ => config_error (context +:+ ".open_interest must be a boolean")
        end;
      match (policy ← HistoryPolicy_of_value history_policy_raw;
             instrument ← InstrumentKey_new ticker;
             InstrumentCoverage_new instrument exchange_symbol enabled timeframes policy
               open_interest) with
      | Ok coverage => Ok coverage
      | Raise e =>
          if isinstance e ExcValueError
          then config_error ("invalid " +:+ context +:+ ": " +:+ exn_str e)
          else Raise e
      end
  | _ => config_error (context +:+ " must be a table")
  end.

Fixpoint load_instruments (index : nat) (l : list toml) : res (list InstrumentCoverage) :=
  match l with
  | [] => mret []
  | raw :: l =>
      c ← load_instrument index raw;
      rest ← load_instruments (S index) l;
      mret (c :: rest)
  end.

Fixpoint reject_stream_duplicates (keys : list StreamKey) (streams : gset StreamKey) :
    res (gset StreamKey) :=
  match keys with
  | [] => mret streams
  | k :: keys =>
      if decide (k ∈ streams)
      then config_error ("duplicate normalized stream identity: " +:+ stream_canonical_id k)
      else reject_stream_duplicates keys ({[k]} ∪ streams)
  end.

Fixpoint reject_duplicates (coverages : list InstrumentCoverage) (tickers symbols : gset string)
    (streams : gset StreamKey) : res () :=
  match coverages with
  | [] => mret ()
  | c :: coverages =>
      let t := ticker (ic_instrument c) in
      if decide (t ∈ tickers) then config_error ("duplicate canonical ticker: " +:+ t)
      else if decide (ic_exchange_symbol c ∈ symbols)
      then config_error ("duplicate exact exchange symbol: " +:+ ic_exchange_symbol c)
      else
        streams ← reject_stream_duplicates (stream_keys c) streams;
        reject_duplicates coverages ({[t]} ∪ tickers) ({[ic_exchange_symbol c]} ∪ symbols) streams
  end.

(** [loaded]: the value of [tomllib.loads(path.read_text())], or its exception. *)
Definition load_market_config (path : string) (loaded : res toml) : res ValidatedMarketConfig :=
  payload ←
    match loaded with
    | Ok v => Ok v
    | Raise e =>
        if bool_decide (class_name (exn_cls e) ∈ ["OSError"; "TOMLDecodeError"]%string)
        then config_error ("cannot load market config " +:+ path +:+ ": " +:+ exn_str e)
        else Raise e
    end;
  match payload with
  | TomlTable payload =>
      schema_version ← required_int payload "schema_version" "root";
      _ ← raise_if (negb (schema_version =? 1)) ExcMarketConfigError
            ("unsupported schema_version=" +:+ str_of_Z schema_version +:+ "; expected 1");
      source_payload ← required_table payload "source" "root";
      venue ← lower <$> required_string source_payload "venue" "source";
      category ← lower <$> required_string source_payload "category" "source";
      _ ← raise_if (negb (bool_decide (venue = "bybit"%string))) ExcMarketConfigError
            ("unsupported source.venue=" +:+ repr venue);
      _ ← raise_if (negb (bool_decide (category = "linear"%string))) ExcMarketConfigError
            ("unsupported source.category=" +:+ repr category);
      raw_instruments ←
        match table_get payload "instruments" with
        | Some (TomlArray (x :: l)) => mret (x :: l)
        | _ => config_error "instruments must be a non-empty array of tables"
        end;
      coverages ← load_instruments 0 raw_instruments;
      _ ← reject_duplicates coverages ∅ ∅ ∅;
      mret (mkMarketConfig schema_version (mkMarketSource venue category) coverages)
  | _ => config_error "market config root must be a table"
  end.

(** ** Facts *)

Lemma normalize_timeframes_ok k values tfs :
  normalize_timeframes k values = Ok tfs → length tfs = length values.
Proof.
  revert tfs. induction values as [|v values IH]; cbn; intros tfs; [by intros [= <-]|].
  intros H. apply res_bind_ok in H as (key & _ & H). apply res_bind_ok in H as (rest & Hr & [= <-]).
  cbn. f_equal. by apply IH.
Qed.

(** What an accepted coverage guarantees. *)
Definition coverage_wf (c : InstrumentCoverage) : Prop :=
  ic_canonical_timeframes c ≠ [] ∧ NoDup (ic_canonical_timeframes c) ∧
  (ic_open_interest c = true → TF_5m ∈ ic_canonical_timeframes c).

Lemma InstrumentCoverage_new_wf i symbol enabled tfs policy oi c :
  InstrumentCoverage_new i symbol enabled tfs policy oi = Ok c →
  coverage_wf c ∧ ic_instrument c = i ∧ ic_enabled c = enabled.
Proof.
  unfold InstrumentCoverage_new. intros H. apply res_bind_ok in H as (m & _ & H).
  apply raise_if_bind_ok in H as [Hne%bool_decide_eq_false H].
  apply res_bind_ok in H as (n & Hn & H). rewrite !raise_if_bind_ok in H.
  destruct H as (Hnd & Hoi & [= <-]). apply negb_false_iff, Nat.eqb_eq in Hnd.
  apply size_list_to_set_NoDup in Hnd. unfold coverage_wf.
  cbn [ic_canonical_timeframes ic_open_interest ic_instrument ic_enabled].
  split; [|done]. split; [|split; [done|]].
  - intros ->. apply normalize_timeframes_ok in Hn. by destruct tfs.
  - intros ->. bool_hyps. cbn in Hoi. by apply negb_false_iff, bool_decide_eq_true in Hoi.
Qed.

Lemma stream_keys_NoDup c : NoDup (ic_canonical_timeframes c) → NoDup (stream_keys c).
Proof. intros H. apply NoDup_fmap_2; [|done]. by intros ? ? [= ->]. Qed.

Lemma coverage_oi_subset c k :
  coverage_wf c → k ∈ coverage_open_interest_streams c → k ∈ stream_keys c ∧ timeframe k = TF_5m.
Proof.
  intros (_ & _ & Hoi). unfold coverage_open_interest_streams. destruct (ic_open_interest c);
    [|by intros ?%elem_of_nil]. intros ->%list_elem_of_singleton. split; [|done].
  apply list_elem_of_fmap. exists TF_5m. auto.
Qed.

Lemma load_instrument_ok index raw c :
  load_instrument index raw = Ok c → coverage_wf c ∧ key_wf (ic_instrument c).
Proof.
  unfold load_instrument. destruct raw; try done. intros H.
  repeat (apply res_bind_ok in H as (? & _ & H)).
  match type of H with match ?m with _ => _ end = _ => destruct m as [c'|e] eqn:E end;
    [|by destruct (isinstance _ _)].
  injection H as ->. apply res_bind_ok in E as (p & _ & E). apply res_bind_ok in E as (i & Hi & E).
  apply InstrumentCoverage_new_wf in E as (Hwf & -> & _). split; [done|].
  by eapply InstrumentKey_new_wf.
Qed.

Lemma load_instruments_ok l index cs :
  load_instruments index l = Ok cs →
  length cs = length l ∧ Forall (λ c, coverage_wf c ∧ key_wf (ic_instrument c)) cs.
Proof.
  revert index cs. induction l as [|raw l IH]; cbn; intros index cs; [by intros [= <-]|].
  intros H. apply res_bind_ok in H as (c & Hc & H). apply res_bind_ok in H as (rest & Hr & [= <-]).
  apply IH in Hr as [Hlen HF]. apply load_instrument_ok in Hc. split; [cbn; by f_equal|by constructor].
Qed.

Lemma reject_stream_duplicates_ok keys streams streams' :
  reject_stream_duplicates keys streams = Ok streams' →
  NoDup keys ∧ (∀ k, k ∈ keys → k ∉ streams) ∧ streams' = list_to_set keys ∪ streams.
Proof.
  revert streams. induction keys as [|k keys IH]; cbn; intros streams.
  - intros [= <-]. split; [constructor|]. split; [|set_solver]. by intros k ?%elem_of_nil.
  - destruct (decide (k ∈ streams)) as [|Hk]; [done|]. intros (Hnd & Hdis & ->)%IH.
    split; [constructor; [intros Hin; specialize (Hdis _ Hin); set_solver|done]|].
    split; [|set_solver]. intros k' [->|Hk']%elem_of_cons; [done|]. specialize (Hdis _ Hk'). set_solver.
Qed.

Lemma reject_duplicates_ok cs tickers symbols streams :
  reject_duplicates cs tickers symbols streams = Ok () →
  NoDup (map (λ c, ticker (ic_instrument c)) cs) ∧ NoDup (map ic_exchange_symbol cs) ∧
  NoDup (flat_map stream_keys cs) ∧
  (∀ t, t ∈ map (λ c, ticker (ic_instrument c)) cs → t ∉ tickers) ∧
  (∀ s, s ∈ map ic_exchange_symbol cs → s ∉ symbols) ∧
  (∀ k, k ∈ flat_map stream_keys cs → k ∉ streams).
Proof.
  revert tickers symbols streams. induction cs as [|c cs IH]; cbn; intros tickers symbols streams.
  - intros _. repeat split; try constructor; by intros ? ?%elem_of_nil.
  - destruct (decide (_ ∈ tickers)) as [|Ht]; [done|].
    destruct (decide (_ ∈ symbols)) as [|Hs]; [done|].
    intros H. apply res_bind_ok in H as (streams' & Hst & H).
    apply reject_stream_duplicates_ok in Hst as (Hnd & Hdis & ->).
    apply IH in H as (H1 & H2 & H3 & H4 & H5 & H6). split_and!.
    + constructor; [intros Hin; specialize (H4 _ Hin); set_solver|done].
    + constructor; [intros Hin; specialize (H5 _ Hin); set_solver|done].
    + apply NoDup_app. split; [done|]. split; [|done]. intros k Hk Hin. specialize (H6 _ Hin). set_solver.
    + intros t [->|Hin]%elem_of_cons; [done|]. specialize (H4 _ Hin). set_solver.
    + intros s [->|Hin]%elem_of_cons; [done|]. specialize (H5 _ Hin). set_solver.
    + intros k [Hin|Hin]%elem_of_app; [by apply Hdis|]. specialize (H6 _ Hin). set_solver.
Qed.

Lemma flat_map_filter_sublist {A B} (f : A → list B) (p : A → bool) l :
  sublist (flat_map f (List.filter p l)) (flat_map f l).
Proof.
  induction l as [|x l IH]; cbn; [done|]. destruct (p x); cbn.
  - by apply sublist_app.
  - by apply sublist_inserts_l.
Qed.

Lemma elem_of_flat_map {A B} (f : A → list B) l y : y ∈ flat_map f l ↔ ∃ x, x ∈ l ∧ y ∈ f x.
Proof.
  rewrite list_elem_of_In, in_flat_map. setoid_rewrite <- list_elem_of_In. done.
Qed.

Lemma dict_fromkeys_spec seen l :
  NoDup (dict_fromkeys seen l) ∧ ∀ k, k ∈ dict_fromkeys seen l ↔ k ∈ l ∧ k ∉ seen.
Proof.
  revert seen. induction l as [|x l IH]; cbn; intros seen.
  - split; [constructor|]. intros k. split; [by intros ?%elem_of_nil|by intros [?%elem_of_nil _]].
  - destruct (decide (x ∈ seen)) as [Hx|Hx].
    + destruct (IH seen) as [Hnd Hin]. split; [done|]. intros k. rewrite Hin. set_solver.
    + destruct (IH ({[x]} ∪ seen)) as [Hnd Hin]. split.
      * constructor; [|done]. rewrite Hin. set_solver.
      * intros k. rewrite elem_of_cons, Hin. destruct (decide (k = x)) as [->|]; set_solver.
Qed.

(** *** Errors *)

Lemma get_timeframe_raises s : raises_only ExcValueError (get_timeframe s).
Proof. unfold get_timeframe. cbv zeta. raises_only_tac. Qed.
#[export] Hint Resolve get_timeframe_raises : mds.

Lemma StreamKey_new_raises k s : raises_only ExcValueError (StreamKey_new k s).
Proof. unfold StreamKey_new. raises_only_tac. Qed.
#[export] Hint Resolve StreamKey_new_raises : mds.

Lemma InstrumentKey_new_raises t : raises_only ExcValueError (InstrumentKey_new t).
Proof. unfold InstrumentKey_new. cbv zeta. raises_only_tac. Qed.
#[export] Hint Resolve InstrumentKey_new_raises : mds.

Lemma normalize_timeframes_raises k l : raises_only ExcValueError (normalize_timeframes k l).
Proof. induction l; cbn [normalize_timeframes]; raises_only_tac. Qed.
#[export] Hint Resolve normalize_timeframes_raises : mds.

Lemma InstrumentMetadata_new_raises i s l f :
  raises_only ExcValueError (InstrumentMetadata_new i s l f).
Proof. unfold InstrumentMetadata_new. cbv zeta. raises_only_tac. Qed.
#[export] Hint Resolve InstrumentMetadata_new_raises : mds.

Lemma InstrumentCoverage_new_raises i s e l p o :
  raises_only ExcValueError (InstrumentCoverage_new i s e l p o).
Proof. unfold InstrumentCoverage_new. raises_only_tac. Qed.
#[export] Hint Resolve InstrumentCoverage_new_raises : mds.

Lemma HistoryPolicy_raises s : raises_only ExcValueError (HistoryPolicy_of_value s).
Proof. unfold HistoryPolicy_of_value. raises_only_tac. Qed.
#[export] Hint Resolve HistoryPolicy_raises : mds.

Lemma config_error_raises {A} msg : raises_only ExcMarketConfigError (@config_error A msg).
Proof. apply raises_only_raise. Qed.
#[export] Hint Resolve config_error_raises : mds.

Lemma required_table_raises t k c : raises_only ExcMarketConfigError (required_table t k c).
Proof. unfold required_table. raises_only_tac. Qed.
Lemma required_string_raises t k c : raises_only ExcMarketConfigError (required_string t k c).
Proof. unfold required_string. raises_only_tac. Qed.
Lemma required_bool_raises t k c : raises_only ExcMarketConfigError (required_bool t k c).
Proof. unfold required_bool. raises_only_tac. Qed.
Lemma required_int_raises t k c : raises_only ExcMarketConfigError (required_int t k c).
Proof. unfold required_int. raises_only_tac. Qed.
#[export] Hint Resolve required_table_raises required_string_raises required_bool_raises
  required_int_raises : mds.

(** [except ValueError] around a computation that only raises [ValueError]. *)
Lemma catch_value_error_raises {A} (m : res A) (f : exn → string) :
  raises_only ExcValueError m →
  raises_only ExcMarketConfigError
    match m with
    | Ok a => Ok a
    | Raise e => if isinstance e ExcValueError then config_error (f e) else Raise e
    end.
Proof.
  intros Hm. destruct m as [a|e]; [apply raises_only_ret|].
  assert (isinstance e ExcValueError = true) as ->.
  { unfold isinstance. rewrite (Hm e eq_refl). done. }
  apply config_error_raises.
Qed.

Lemma load_instrument_raises i raw : raises_only ExcMarketConfigError (load_instrument i raw).
Proof.
  unfold load_instrument. cbv zeta. destruct raw; [raises_only_tac..| |raises_only_tac].
  do 3 (apply raises_only_bind; [eauto with mds|intros ?]).
  apply raises_only_bind; [raises_only_tac|intros ?].
  apply raises_only_bind; [raises_only_tac|intros ?].
  apply raises_only_bind; [eauto with mds|intros ?].
  apply raises_only_bind; [raises_only_tac|intros ?].
  apply catch_value_error_raises. raises_only_tac.
Qed.
#[export] Hint Resolve load_instrument_raises : mds.

Lemma load_instruments_raises i l : raises_only ExcMarketConfigError (load_instruments i l).
Proof. revert i. induction l; intros i; cbn [load_instruments]; raises_only_tac. Qed.

Lemma reject_stream_duplicates_raises keys s :
  raises_only ExcMarketConfigError (reject_stream_duplicates keys s).
Proof. revert s. induction keys; intros s; cbn [reject_stream_duplicates]; raises_only_tac. Qed.
#[export] Hint Resolve load_instruments_raises reject_stream_duplicates_raises : mds.

Lemma reject_duplicates_raises cs t s k :
  raises_only ExcMarketConfigError (reject_duplicates cs t s k).
Proof. revert t s k. induction cs; intros; cbn [reject_duplicates]; cbv zeta; raises_only_tac. Qed.
#[export] Hint Resolve reject_duplicates_raises : mds.

Lemma load_market_config_raises path v :
  raises_only ExcMarketConfigError (load_market_config path (Ok v)).
Proof.
  unfold load_market_config. apply raises_only_bind; [apply raises_only_ret|intros p].
  raises_only_tac.
Qed.

(** ** Properties *)

(** The configuration an operator file loads to names each ticker, exchange symbol and stream
    once, every enabled stream comes from a normalised instrument, and every open interest
    stream is an enabled 5m stream.  Anything wrong in a readable file is a
    [MarketConfigError]. *)
Theorem load_market_config_sound (path : string) (v : toml) :
  match load_market_config path (Ok v) with
  | Ok cfg =>
      mc_instruments cfg ≠ [] ∧
      NoDup (map (λ c, ticker (ic_instrument c)) (mc_instruments cfg)) ∧
      NoDup (map ic_exchange_symbol (mc_instruments cfg)) ∧
      NoDup (enabled_streams cfg) ∧
      (∀ k, k ∈ enabled_streams cfg → stream_wf k) ∧
      (∀ k, k ∈ open_interest_streams cfg → k ∈ enabled_streams cfg ∧ timeframe k = TF_5m) ∧
      Forall coverage_wf (mc_instruments cfg)
  | Raise e => exn_cls e = ExcMarketConfigError
  end.
Proof.
  destruct (load_market_config path (Ok v)) as [cfg|e] eqn:E;
    [|by apply (load_market_config_raises path v)].
  unfold load_market_config in E. cbn [mbind res_bind] in E. destruct v as [| | | |fields|]; try done.
  apply res_bind_ok in E as (version & _ & E). apply raise_if_bind_ok in E as [_ E].
  apply res_bind_ok in E as (source & _ & E). apply res_bind_ok in E as (venue & _ & E).
  apply res_bind_ok in E as (category & _ & E). rewrite !raise_if_bind_ok in E.
  destruct E as (_ & _ & E). apply res_bind_ok in E as (raw & Hraw & E).
  apply res_bind_ok in E as (cs & Hcs & E). apply res_bind_ok in E as ([] & Hdup & [= <-]).
  cbn [mc_instruments]. apply load_instruments_ok in Hcs as [Hlen HF].
  apply reject_duplicates_ok in Hdup as (Ht & Hs & Hk & _). rewrite Forall_forall in HF.
  split_and!; [|done|done| | | |].
  - intros ->. destruct (table_get _ _) as [[]|]; try done. destruct l; try done.
    cbn in Hraw. injection Hraw as <-. done.
  - eapply sublist_NoDup; [exact Hk|]. apply flat_map_filter_sublist.
  - intros k (c & Hc & Hkc)%elem_of_flat_map. unfold enabled_instruments in Hc. cbn in Hc.
    apply list_elem_of_In, filter_In in Hc as [Hc%list_elem_of_In _].
    apply list_elem_of_fmap in Hkc as (tf & -> & _). by apply HF.
  - intros k (c & Hc & Hkc)%elem_of_flat_map. unfold enabled_instruments in Hc. cbn in Hc.
    pose proof Hc as Hc'. apply list_elem_of_In, filter_In in Hc' as [Hc'%list_elem_of_In _].
    destruct (coverage_oi_subset c k) as [? ?]; [by apply HF|done|]. split; [|done].
    apply elem_of_flat_map. by exists c.
  - apply Forall_forall. intros c Hc. by apply HF.
Qed.

Lemma stream_keys_nonempty c : coverage_wf c → stream_keys c ≠ [].
Proof. intros [Hne _] H. apply Hne. unfold stream_keys in H. by apply map_eq_nil in H. Qed.

Lemma instruments_loaded path v cfg : load_market_config path (Ok v) = Ok cfg → Forall coverage_wf (mc_instruments cfg).
Proof. intros H. pose proof (load_market_config_sound path v) as Hs. rewrite H in Hs. tauto. Qed.

Lemma enabled_streams_loaded path v cfg : load_market_config path (Ok v) = Ok cfg → NoDup (enabled_streams cfg).
Proof. intros H. pose proof (load_market_config_sound path v) as Hs. rewrite H in Hs. tauto. Qed.

Example load_market_config_example :
  let instrument := TomlTable [("ticker", TomlStr " btcusdt.p"); ("exchange_symbol", TomlStr "btcusdt");
    ("enabled", TomlBool true); ("canonical_timeframes", TomlArray [TomlStr "1H"; TomlStr "5m"]);
    ("history_policy", TomlStr "full_available"); ("open_interest", TomlBool true)]%string in
  let source := TomlTable [("venue", TomlStr "Bybit"); ("category", TomlStr "linear")]%string in
  let config := λ l, TomlTable [("schema_version", TomlInt 1); ("source", source);
                                ("instruments", TomlArray l)]%string in
  (enabled_streams <$> load_market_config "m" (Ok (config [instrument])) =
   Ok [mkStreamKey (mkInstrumentKey "BTCUSDT.P") TF_1h; mkStreamKey (mkInstrumentKey "BTCUSDT.P") TF_5m]) ∧
  load_market_config "m" (Ok (config [instrument; instrument])) =
    config_error "duplicate canonical ticker: BTCUSDT.P".
Proof. by vm_compute. Qed.

(** A sequential plan runs the requested stream when it is configured, else every configured
    stream once in a configured order, within the requested budget; the only refusals are an
    unknown stream, an empty configuration and an empty budget. *)
Theorem plan_sequential_backfill_exact (r : BackfillRequest) (configured : list StreamKey) :
  match plan_sequential_backfill r configured with
  | Ok p =>
      NoDup (plan_streams p) ∧ plan_streams p ≠ [] ∧
      max_windows_per_stream p = max_windows (br_budget r) ∧ 0 < max_windows_per_stream p ∧
      ∀ k, k ∈ plan_streams p ↔ k ∈ configured ∧ (br_stream r = None ∨ br_stream r = Some k)
  | Raise e =>
      exn_cls e = ExcValueError ∧
      (max_windows (br_budget r) ≤ 0 ∨
       match br_stream r with Some k => k ∉ configured | None => configured = [] end)
  end.
Proof.
  destruct (dict_fromkeys_spec ∅ configured) as [Hnd Hin].
  assert (Hemp : dict_fromkeys ∅ configured = [] → configured = []).
  { intros H. rewrite H in Hin. destruct configured as [|x l]; [done|].
    destruct (not_elem_of_nil x). apply Hin. split; [constructor|set_solver]. }
  unfold plan_sequential_backfill, BackfillRunPlan_new. set (u := dict_fromkeys ∅ configured) in *.
  cbv zeta. destruct (br_stream r) as [k|].
  - destruct (decide (k ∈ u)) as [Hk|Hk].
    + rewrite (bool_decide_eq_true_2 _ Hk). cbn [negb raise_if mbind res_bind mret res_ret].
      apply Hin in Hk as [Hk _]. rewrite (bool_decide_eq_false_2 ([k] = [])) by done.
      rewrite (proj2 (size_list_to_set_NoDup [k])), Nat.eqb_refl by apply NoDup_singleton.
      cbn [negb raise_if mbind res_bind].
      destruct (Z.leb_spec (max_windows (br_budget r)) 0); cbn; [auto|].
      split_and!; [apply NoDup_singleton|done|done|done|]. intros k'. rewrite list_elem_of_singleton.
      split; [intros ->; auto|]. intros [_ [?|?]]; congruence.
    + rewrite (bool_decide_eq_false_2 _ Hk). cbn. split; [done|]. right. intros ?. apply Hk, Hin.
      split; [done|set_solver].
  - destruct u as [|x l] eqn:Eu; [cbn; auto|]. cbn [bool_decide raise_if].
    rewrite (bool_decide_eq_false_2 (x :: l = [])) by done. cbn [raise_if mbind res_bind mret res_ret].
    rewrite (bool_decide_eq_false_2 (x :: l = [])) by done. cbn [raise_if mbind res_bind mret res_ret].
    rewrite (proj2 (size_list_to_set_NoDup (x :: l))), Nat.eqb_refl by done.
    destruct (Z.leb_spec (max_windows (br_budget r)) 0); cbn; [auto|].
    split_and!; [done..|]. intros k. rewrite Hin. set_solver.
Qed.
