(* ===== verification/OpenInterest.v ===== *)
(** * Open interest points and track progress (domain/open_interest.py) *)

From S2P Require Import Prelude PyStr DecimalValues Timeframes Identity Candles.

Definition OPEN_INTEREST_TRACK : string := "open_interest".
Definition OPEN_INTEREST_TIMEFRAME : Timeframe := TF_5m.

Record ObservedOpenInterest := mkObservedOI {
  oi_stream : StreamKey;
  oi_open_time_ms : Z;
  oi_value : DecimalInput;
  oi_observed_at_ms : Z
}.

Record CanonicalOpenInterest := mkCanonicalOI {
  co_stream : StreamKey;
  co_open_time_ms : Z;
  co_open_interest : string;
  co_committed_at_ms : Z
}.

#[export] Instance CanonicalOpenInterest_eq_dec : EqDecision CanonicalOpenInterest.
Proof. solve_decision. Defined.

Record TrackProgress := mkProgress {
  tp_stream : StreamKey;
  tp_track : string;
  tp_earliest : option Z;
  tp_discovery_next : option Z;
  tp_latest : option Z;
  tp_last_audit_at_ms : option Z;
  tp_last_audit_gap_count : option Z;
  tp_last_success_at_ms : option Z;
  tp_last_error_code : option string;
  tp_last_error_detail : option string;
  tp_updated_at_ms : Z
}.

#[export] Instance TrackProgress_eq_dec : EqDecision TrackProgress.
Proof. solve_decision. Defined.

(** [TrackProgress.__post_init__] *)
Definition TrackProgress_check (p : TrackProgress) : res TrackProgress :=
  _ ← raise_if (bool_decide (is_Some (tp_earliest p)) && bool_decide (is_Some (tp_discovery_next p)))
        ExcValueError "resolved lower bound cannot coexist with a discovery cursor";
  mret p.

(** [TrackProgress(stream=..., track=...)] *)
Definition empty_progress (k : StreamKey) (track : string) : TrackProgress :=
  mkProgress k track None None None None None None None None 0.

Definition open_interest_issue (point : ObservedOpenInterest) : option string :=
  let k := oi_stream point in
  if negb (bool_decide (timeframe k = OPEN_INTEREST_TIMEFRAME))
  then Some "open_interest_timeframe"%string
  else if oi_open_time_ms point <? 0 then Some "open_interest_negative_time"%string
  else if negb (oi_open_time_ms point mod duration_ms (timeframe k) =? 0)
  then Some "open_interest_off_grid"%string
  else match parse_decimal (oi_value point) with
       | Raise _ => Some "invalid_open_interest"%string
       | Ok value => if dec_ltb value dec_zero then Some "invalid_open_interest"%string else None
       end.

Definition canonical_open_interest (point : ObservedOpenInterest) (committed_at_ms : Z) :
    res CanonicalOpenInterest :=
  t ← decimal_to_canonical_text (oi_value point);
  mret (mkCanonicalOI (oi_stream point) (oi_open_time_ms point) t committed_at_ms).

Definition classify_open_interest (incoming : CanonicalOpenInterest)
    (existing : option CanonicalOpenInterest) : IngestionClassification :=
  match existing with
  | None => COMMITTED
  | Some e =>
      if bool_decide (co_open_interest e = co_open_interest incoming) then DUPLICATE else CORRECTED
  end.

(** ** Facts *)

Lemma TrackProgress_check_ok p q :
  TrackProgress_check p = Ok q ↔ q = p ∧ (tp_earliest p = None ∨ tp_discovery_next p = None).
Proof.
  unfold TrackProgress_check. rewrite raise_if_bind_ok, andb_false_iff, !bool_decide_eq_false,
    <- !eq_None_not_Some. unfold mret, res_ret. split; [by intros [? [= <-]]|by intros [-> ?]].
Qed.

(** A point without an issue has a canonical form. *)
Lemma open_interest_issue_none point t :
  open_interest_issue point = None →
  timeframe (oi_stream point) = TF_5m ∧ 0 ≤ oi_open_time_ms point ∧
  on_grid (stream_step (oi_stream point)) (oi_open_time_ms point) ∧
  ∃ d, parse_decimal (oi_value point) = Ok d ∧ dec_leb dec_zero d = true ∧
       canonical_open_interest point t =
         Ok (mkCanonicalOI (oi_stream point) (oi_open_time_ms point) (dec_text d) t).
Proof.
  unfold open_interest_issue, canonical_open_interest, on_grid. cbv zeta.
  destruct (negb _) eqn:E1; [done|]. destruct (_ <? 0) eqn:E2; [done|].
  destruct (negb (_ =? 0)) eqn:E3; [done|]. bool_hyps.
  destruct (parse_decimal (oi_value point)) as [d|e] eqn:Ed; [|done].
  destruct (dec_ltb d dec_zero) eqn:E4; [done|]. intros _.
  split; [done|]. split; [done|]. split; [done|]. exists d. split; [done|]. split.
  - rewrite dec_ltb_leb in E4. by apply negb_false_iff in E4.
  - by rewrite (decimal_to_canonical_text_ok _ d).
Qed.
