(* ===== verification/Storage.v ===== *)
(** * The storage port and the effects of a use case

    ports/storage.py and ports/market_data_source.py.  A use case is a [prog]: a finite
    tree of the calls it makes on the outside, whose leaves are results.  The calls are the
    operations of the unit of work ([store_op]), the transaction's life, reads of
    committed data, the clock and the exchange.  [run] executes a program over any
    implementation of the port ([Storage]) and any environment ([Env]); two
    implementations related by a simulation give the same results to every program
    ([run_sim]). *)

From S2P Require Import Prelude PyStr DecimalValues Timeframes Identity Candles StreamState.
From S2P Require Import Instruments OpenInterest.

(** ** ports/storage.py *)

Record QuarantineRecord := mkQuarantine {
  q_stream : StreamKey;
  q_start_ms : Z;
  q_end_ms : Z;
  q_reason_code : string;
  q_detail : string;
  q_payload_json : option string;
  q_created_at_ms : Z
}.

#[export] Instance QuarantineRecord_eq_dec : EqDecision QuarantineRecord.
Proof. solve_decision. Defined.

(** The operations of [CanonicalStorageUnitOfWork], and the joined read of the consumer
    reader ([ListCandlesWithOpenInterest]). *)
Inductive store_op : Type → Type :=
| StreamExists (k : StreamKey) : store_op bool
| GetInstrumentMetadata (i : InstrumentKey) : store_op InstrumentMetadata
| SaveInstrumentMetadata (m : InstrumentMetadata) : store_op ()
| GetCandle (k : StreamKey) (open_time_ms : Z) : store_op (option CanonicalCandle)
| ListCandles (k : StreamKey) (start_time_ms end_time_ms : Z) : store_op (list CanonicalCandle)
| ListCandlesWithOpenInterest (k : StreamKey) (start_time_ms end_time_ms : Z) :
    store_op (list (CanonicalCandle * option string))
| GetCommittedCandleBounds (k : StreamKey) : store_op (option Z * option Z)
| InsertCandle (c : CanonicalCandle) : store_op ()
| ReplaceCandle (c : CanonicalCandle) : store_op ()
| GetStreamState (k : StreamKey) : store_op StreamStateSnapshot
| SaveStreamState (s : StreamStateSnapshot) : store_op ()
| RecordQuarantine (q : QuarantineRecord) : store_op ()
| RecordQuarantineOnce (q : QuarantineRecord) : store_op bool
| GetOpenInterest (k : StreamKey) (open_time_ms : Z) : store_op (option CanonicalOpenInterest)
| SaveOpenInterest (p : CanonicalOpenInterest) : store_op ()
| ListOpenInterestTimes (k : StreamKey) (start_time_ms end_time_ms : Z) : store_op (list Z)
| GetTrackProgress (k : StreamKey) (track : string) : store_op TrackProgress
| SaveTrackProgress (p : TrackProgress) : store_op ().

(** The integers of a statement: [sqlite3] binds an [int] of Python as a signed integer of 64
    bits, and raises [OverflowError] before the statement runs when it does not fit. *)
Definition sql_int (z : Z) : bool := (- 2 ^ 63 <=? z) && (z <? 2 ^ 63).
Definition sql_overflow : exn :=
  Exn ExcOverflowError "Python int too large to convert to SQLite INTEGER".
Definition bind_ints (l : list Z) : res () :=
  if forallb sql_int l then Ok () else Raise sql_overflow.

Lemma bind_ints_ok l u : bind_ints l = Ok u ↔ Forall (λ z, - 2 ^ 63 ≤ z < 2 ^ 63) l.
Proof.
  unfold bind_ints. rewrite Forall_forall. destruct (forallb sql_int l) eqn:E; destruct u.
  - rewrite forallb_forall in E. split; [|done]. intros _ z Hz%list_elem_of_In.
    specialize (E z Hz). unfold sql_int in E. lia.
  - split; [done|]. intros H. rewrite (proj2 (forallb_forall sql_int l)) in E; [done|].
    intros z Hz%list_elem_of_In. specialize (H z Hz). unfold sql_int. lia.
Qed.

Lemma bind_ints_raise l e : bind_ints l = Raise e → e = sql_overflow.
Proof. unfold bind_ints. destruct (forallb sql_int l); [done|]. by intros [= <-]. Qed.

(** An implementation of the port: an operation either returns or raises, and leaves a
    state. *)
Class Storage (S : Type) := store_step : ∀ {R}, store_op R → S → res R * S.

(** The calls a use case makes. *)
Inductive event : Type → Type :=
| EvBegin : event (res ())
| EvCommit : event (res ())
| EvEnd : event ()
| EvOp {R} (o : store_op R) : event (res R)
| EvRead {R} (o : store_op R) : event (res R)
| EvNow : event Z
| EvFetchCandles (k : StreamKey) (w : TimeWindow) (observed_at_ms : Z) :
    event (res (list ObservedCandle))
| EvFetchOpenInterest (k : StreamKey) (w : TimeWindow) (observed_at_ms : Z) :
    event (res (list ObservedOpenInterest))
| EvLaunchTime (i : InstrumentKey) : event (res Z)
| EvSpecification (i : InstrumentKey) : event (res ExchangeInstrumentSpecification).

(** ** Programs *)

Inductive prog (A : Type) : Type :=
| PRet (a : A)
| PVis {R : Type} (e : event R) (k : R → prog A).
Arguments PRet {A} a.
Arguments PVis {A R} e k.

Fixpoint pbind {A B} (m : prog A) (f : A → prog B) : prog B :=
  match m with
  | PRet a => f a
  | PVis e k => PVis e (λ r, pbind (k r) f)
  end.

(** A program that returns or raises. *)
Definition M (A : Type) : Type := prog (res A).

#[export] Instance M_ret : MRet M := λ A a, PRet (Ok a).
#[export] Instance M_bind : MBind M := λ A B f m,
  pbind m (λ r, match r with Ok a => f a | Raise e => PRet (Raise e) end).

Definition lift {A} (r : res A) : M A := PRet r.
Definition throw {A} (e : exn) : M A := PRet (Raise e).
Definition call {R} (e : event (res R)) : M R := PVis e PRet.
Definition op {R} (o : store_op R) : M R := call (EvOp o).
Definition read_op {R} (o : store_op R) : M R := call (EvRead o).
Definition now_ms : M Z := PVis EvNow (λ t, PRet (Ok t)).
Definition commit : M () := call EvCommit.

(** [try: m except Exception as exc: h exc] *)
Definition try_catch {A} (m : M A) (h : exn → M A) : M A :=
  pbind m (λ r, match r with Ok a => PRet (Ok a) | Raise e => h e end).

(** [try: m except Exception as exc: ...], the result as a value. *)
Definition attempt {A} (m : M A) : M (res A) := pbind m (λ r, PRet (Ok r)).

(** [with self._unit_of_work_factory() as unit_of_work: body]: leaving the block drops what
    was not committed, whether or not the body raised. *)
Definition with_uow {A} (body : M A) : M A :=
  _ ← call EvBegin;
  pbind body (λ r, PVis EvEnd (λ _, PRet r)).

(** [for x in xs: body] *)
Fixpoint for_each {A} (l : list A) (body : A → M ()) : M () :=
  match l with
  | [] => mret ()
  | x :: l => _ ← body x; for_each l body
  end.

(** A loop that threads a value. *)
Fixpoint fold_m {A B} (f : B → A → M B) (b : B) (l : list A) : M B :=
  match l with
  | [] => mret b
  | x :: l => b ← f b x; fold_m f b l
  end.

(** ** Execution *)

(** The code outside the repository and the time: the exchange answers by the number of
    calls made before, the clock by the number of readings. *)
Class Env := {
  env_clock : nat → Z;
  env_fetch_closed_candles : nat → StreamKey → TimeWindow → Z → res (list ObservedCandle);
  env_fetch_open_interest : nat → StreamKey → TimeWindow → Z → res (list ObservedOpenInterest);
  env_launch_time_ms : nat → InstrumentKey → res Z;
  env_specification : nat → InstrumentKey → res ExchangeInstrumentSpecification
}.

Record World (S : Type) := mkWorld {
  w_db : S;                 (* committed *)
  w_tx : option S;          (* the open transaction *)
  w_ticks : nat;
  w_calls : nat
}.
Arguments mkWorld {S}.
Arguments w_db {S}.
Arguments w_tx {S}.
Arguments w_ticks {S}.
Arguments w_calls {S}.

Section run.
Context {S : Type} `{!Storage S} `{!Env}.

Definition tick (w : World S) : World S := mkWorld (w_db w) (w_tx w) (Datatypes.S (w_ticks w)) (w_calls w).
Definition called (w : World S) : World S := mkWorld (w_db w) (w_tx w) (w_ticks w) (Datatypes.S (w_calls w)).
Definition set_tx (w : World S) (tx : option S) : World S := mkWorld (w_db w) tx (w_ticks w) (w_calls w).
Definition set_db (w : World S) (db : S) : World S := mkWorld db (w_tx w) (w_ticks w) (w_calls w).

Definition handle {R} (e : event R) : World S → R * World S :=
  match e in event R return World S → R * World S with
  | EvBegin => λ w,
      match w_tx w with
      | None => (Ok (), set_tx w (Some (w_db w)))
      | Some _ => (raise ExcOperationalError "database is locked", w)
      end
  | EvCommit => λ w,
      match w_tx w with
      | Some s => (Ok (), set_db w s)
      | None => (raise ExcRuntimeError "unit of work is not active", w)
      end
  | EvEnd => λ w, ((), set_tx w None)
  | EvOp o => λ w,
      match w_tx w with
      | Some s => let '(r, s') := store_step o s in (r, set_tx w (Some s'))
      | None => (raise ExcRuntimeError "unit of work is not active", w)
      end
  | EvRead o => λ w, ((store_step o (w_db w)).1, w)
  | EvNow => λ w, (env_clock (w_ticks w), tick w)
  | EvFetchCandles k win t => λ w, (env_fetch_closed_candles (w_calls w) k win t, called w)
  | EvFetchOpenInterest k win t => λ w, (env_fetch_open_interest (w_calls w) k win t, called w)
  | EvLaunchTime i => λ w, (env_launch_time_ms (w_calls w) i, called w)
  | EvSpecification i => λ w, (env_specification (w_calls w) i, called w)
  end.

Fixpoint run {A} (m : prog A) (w : World S) : A * World S :=
  match m with
  | PRet a => (a, w)
  | PVis e k => let '(r, w') := handle e w in run (k r) w'
  end.

Lemma run_pbind {A B} (m : prog A) (f : A → prog B) w :
  run (pbind m f) w = let '(a, w') := run m w in run (f a) w'.
Proof.
  revert w. induction m as [a|R e k IH]; intros w; cbn; [done|].
  destruct (handle e w) as [r w']. apply IH.
Qed.

Lemma run_ret {A} (a : A) w : run (mret (M:=M) a) w = (Ok a, w).
Proof. reflexivity. Qed.

Lemma run_lift {A} (r : res A) w : run (lift r) w = (r, w).
Proof. reflexivity. Qed.

Lemma run_bind {A B} (m : M A) (f : A → M B) w :
  run (x ← m; f x) w =
  match run m w with (Ok a, w') => run (f a) w' | (Raise e, w') => (Raise e, w') end.
Proof.
  unfold mbind, M_bind. rewrite run_pbind. destruct (run m w) as [[a|e] w']; reflexivity.
Qed.

Lemma run_bind_ok {A B} (m : M A) (f : A → M B) w b w' :
  run (x ← m; f x) w = (Ok b, w') → ∃ a w1, run m w = (Ok a, w1) ∧ run (f a) w1 = (Ok b, w').
Proof. rewrite run_bind. destruct (run m w) as [[a|e] w1]; [|done]. eauto. Qed.

Lemma run_attempt {A} (m : M A) w : run (attempt m) w = let '(r, w') := run m w in (Ok r, w').
Proof. unfold attempt. rewrite run_pbind. by destruct (run m w). Qed.

Lemma run_try {A} (m : M A) h w :
  run (try_catch m h) w =
  match run m w with (Ok a, w') => (Ok a, w') | (Raise e, w') => run (h e) w' end.
Proof. unfold try_catch. rewrite run_pbind. destruct (run m w) as [[a|e] w']; reflexivity. Qed.

(** A block of a unit of work entered with no transaction open. *)
Lemma run_with_uow {A} (body : M A) db t c :
  run (with_uow body) (mkWorld db None t c) =
  let '(r, w) := run body (mkWorld db (Some db) t c) in (r, set_tx w None).
Proof.
  unfold with_uow. rewrite run_bind. cbn. unfold set_tx at 1. cbn. rewrite run_pbind.
  by destruct (run body _).
Qed.

Lemma run_op {R} (o : store_op R) db s t c :
  run (op o) (mkWorld db (Some s) t c) =
  let '(r, s') := store_step o s in (r, mkWorld db (Some s') t c).
Proof. unfold op, call. cbn. by destruct (store_step o s). Qed.

Lemma run_read {R} (o : store_op R) w : run (read_op o) w = ((store_step o (w_db w)).1, w).
Proof. reflexivity. Qed.

Lemma run_now w : run now_ms w = (Ok (env_clock (w_ticks w)), tick w).
Proof. reflexivity. Qed.

Lemma run_commit db s t c :
  run commit (mkWorld db (Some s) t c) = (Ok (), mkWorld s (Some s) t c).
Proof. reflexivity. Qed.
End run.

(** ** Simulation between two implementations *)

(** The related states give equal results to every operation and stay related.  [op_ok]
    restricts the arguments the callers use. *)
Class StoreSim {S T : Type} `{!Storage S, !Storage T} (R : S → T → Prop) : Prop :=
  sim_step : ∀ A (o : store_op A) s t, R s t →
    (store_step o s).1 = (store_step o t).1 ∧ R (store_step o s).2 (store_step o t).2.

Section sim.
Context {S T : Type} `{!Storage S, !Storage T} `{!Env} (R : S → T → Prop) `{!StoreSim R}.

Definition world_rel (w : World S) (v : World T) : Prop :=
  R (w_db w) (w_db v) ∧ option_Forall2 R (w_tx w) (w_tx v) ∧
  w_ticks w = w_ticks v ∧ w_calls w = w_calls v.

Lemma handle_sim {A} (e : event A) w v :
  world_rel w v → (handle e w).1 = (handle e v).1 ∧ world_rel (handle e w).2 (handle e v).2.
Proof.
  destruct w as [db tx t c], v as [db' tx' t' c']. unfold world_rel. cbn.
  intros (Hdb & Htx & <- & <-). destruct e; cbn; try by repeat split.
  - destruct Htx as [s s' Hs|]; cbn; repeat split; try done; by constructor.
  - destruct Htx as [s s' Hs|]; cbn; repeat split; try done; by constructor.
  - repeat split; try done. constructor.
  - destruct Htx as [s s' Hs|]; cbn; [|repeat split; try done; by constructor].
    destruct (sim_step _ o s s' Hs) as [H1 H2].
    destruct (store_step o s) as [r s1], (store_step o s') as [r' s1']. cbn in *. subst.
    repeat split; try done. by constructor.
  - destruct (sim_step _ o db db' Hdb) as [H1 _]. repeat split; done.
Qed.

(** Every program gives the same result over related implementations. *)
Lemma run_sim {A} (m : prog A) w v :
  world_rel w v → (run m w).1 = (run m v).1 ∧ world_rel (run m w).2 (run m v).2.
Proof.
  revert w v. induction m as [a|B e k IH]; intros w v Hwv; cbn; [done|].
  destruct (handle_sim e w v Hwv) as [H1 H2].
  destruct (handle e w) as [r w'], (handle e v) as [r' v']. cbn in *. subst. by apply IH.
Qed.
End sim.
