(* ===== verification/AbsStore.v ===== *)
(** * The abstract store

    What the storage port promises, without tables, row ids or SQL: a record per
    registered stream with its lifecycle snapshot, its candle rows by open time, its open
    interest by open time and its track progress; the instruments by ticker; the
    quarantine records in insertion order.  The operations raise where the database's
    constraints do. *)

From S2P Require Import Prelude PyStr DecimalValues Timeframes Identity Candles StreamState.
From S2P Require Import Instruments OpenInterest Storage.

(** A row of [candles] without its key: the texts as stored. *)
Record CandleRow := mkCandleRow {
  cr_open : string;
  cr_high : string;
  cr_low : string;
  cr_close : string;
  cr_volume : string;
  cr_source : string;
  cr_committed_at_ms : Z
}.

#[export] Instance CandleRow_eq_dec : EqDecision CandleRow.
Proof. solve_decision. Defined.

(** A row of [open_interest] without its key. *)
Record OiRow := mkOiRow { or_value : string; or_source : string; or_committed_at_ms : Z }.

(** A row of [instruments] without its ticker, as the port sees it. *)
Record InstrumentRow := mkInstrumentRow {
  ir_exchange_symbol : string;
  ir_launch_time_ms : option Z;
  ir_fetched_at_ms : option Z
}.

Record StreamRec := mkStreamRec {
  sr_state : StreamStateSnapshot;
  sr_candles : gmap Z CandleRow;
  sr_oi : gmap Z OiRow;
  sr_progress : gmap string TrackProgress
}.

Record AbsStore := mkAbsStore {
  ab_streams : gmap StreamKey StreamRec;
  ab_instruments : gmap string InstrumentRow;
  ab_quarantine : list QuarantineRecord
}.

(** ** Rows *)

Definition candle_row (c : CanonicalCandle) : CandleRow :=
  let v := cc_values c in
  mkCandleRow (dec_text (o_open v)) (dec_text (o_high v)) (dec_text (o_low v))
    (dec_text (o_close v)) (dec_text (o_volume v)) (source_value (cc_source c))
    (cc_committed_at_ms c).

(** The candle a row is read as. *)
Definition candle_of_row (k : StreamKey) (open_time_ms : Z) (r : CandleRow) : res CanonicalCandle :=
  source ← source_of_value (cr_source r);
  CanonicalCandle_new k open_time_ms (open_time_ms + stream_step k - 1)
    (InStr (cr_open r)) (InStr (cr_high r)) (InStr (cr_low r)) (InStr (cr_close r))
    (InStr (cr_volume r)) source (cr_committed_at_ms r).

(** [... WHERE open_time_ms >= ? AND open_time_ms < ? ORDER BY open_time_ms] *)
Definition range_times {A} (rows : gmap Z A) (start_time_ms end_time_ms : Z) : list Z :=
  py_sorted (List.filter (λ t, (start_time_ms <=? t) && (t <? end_time_ms)) (elements (dom rows))).

Definition select_range {A} (rows : gmap Z A) (start_time_ms end_time_ms : Z) : list (Z * A) :=
  omap (λ t, pair t <$> rows !! t) (range_times rows start_time_ms end_time_ms).

(** A tuple comprehension over rows, each of which may raise. *)
Fixpoint map_res {A B} (f : A → res B) (l : list A) : res (list B) :=
  match l with
  | [] => mret []
  | x :: l => y ← f x; ys ← map_res f l; mret (y :: ys)
  end.

Definition list_min (l : list Z) : option Z :=
  match l with [] => None | x :: l => Some (fold_left Z.min l x) end.
Definition list_max (l : list Z) : option Z :=
  match l with [] => None | x :: l => Some (fold_left Z.max l x) end.

(** The CHECK constraints of the schema. *)
Definition integrity {A} (what : string) : res A := raise ExcIntegrityError what.
Definition opt_nonneg (v : option Z) : bool := match v with Some x => 0 <=? x | None => true end.

Definition state_row_ok (s : StreamStateSnapshot) : bool :=
  opt_nonneg (lower_bound_discovery_next_open_time_ms s) &&
  (bool_decide (earliest_available_open_time_ms s = None) ||
   bool_decide (lower_bound_discovery_next_open_time_ms s = None)).

Definition quarantine_row_ok (q : QuarantineRecord) : bool :=
  (0 <=? q_start_ms q) && (0 <=? q_end_ms q) && (q_start_ms q <? q_end_ms q).

Definition progress_row_ok (p : TrackProgress) : bool :=
  bool_decide (tp_track p = OPEN_INTEREST_TRACK) &&
  (bool_decide (tp_earliest p = None) || bool_decide (tp_discovery_next p = None)).

(** ** Operations *)

Definition key_error {A} (id : string) : res A := raise ExcKeyError (repr id).

(** An operation on a registered stream. *)
Definition on_stream {A} (k : StreamKey) (a : AbsStore) (f : StreamRec → res A * StreamRec) :
    res A * AbsStore :=
  match ab_streams a !! k with
  | None => (key_error (stream_canonical_id k), a)
  | Some r =>
      let '(x, r') := f r in
      (x, mkAbsStore (<[k := r']> (ab_streams a)) (ab_instruments a) (ab_quarantine a))
  end.

Definition read_stream {A} (k : StreamKey) (a : AbsStore) (f : StreamRec → res A) :
    res A * AbsStore :=
  (match ab_streams a !! k with
   | None => key_error (stream_canonical_id k)
   | Some r => f r
   end, a).

Definition upd_state (r : StreamRec) (s : StreamStateSnapshot) : StreamRec :=
  mkStreamRec s (sr_candles r) (sr_oi r) (sr_progress r).
Definition upd_candles (r : StreamRec) (c : gmap Z CandleRow) : StreamRec :=
  mkStreamRec (sr_state r) c (sr_oi r) (sr_progress r).
Definition upd_oi (r : StreamRec) (o : gmap Z OiRow) : StreamRec :=
  mkStreamRec (sr_state r) (sr_candles r) o (sr_progress r).
Definition upd_progress (r : StreamRec) (p : gmap string TrackProgress) : StreamRec :=
  mkStreamRec (sr_state r) (sr_candles r) (sr_oi r) p.

Definition abs_insert_candle (c : CanonicalCandle) (r : StreamRec) : res () * StreamRec :=
  if negb (0 <=? cc_open_time_ms c) then (integrity "CHECK constraint failed: candles", r)
  else match sr_candles r !! cc_open_time_ms c with
       | Some _ => (integrity "UNIQUE constraint failed: candles", r)
       | None => (Ok (), upd_candles r (<[cc_open_time_ms c := candle_row c]> (sr_candles r)))
       end.

Definition abs_replace_candle (c : CanonicalCandle) (r : StreamRec) : res () * StreamRec :=
  match sr_candles r !! cc_open_time_ms c with
  | Some _ => (Ok (), upd_candles r (<[cc_open_time_ms c := candle_row c]> (sr_candles r)))
  | None => (Ok (), r)
  end.

Definition abs_record_quarantine (q : QuarantineRecord) (a : AbsStore) : res () * AbsStore :=
  match ab_streams a !! q_stream q with
  | None => (key_error (stream_canonical_id (q_stream q)), a)
  | Some _ =>
      if quarantine_row_ok q
      then (Ok (), mkAbsStore (ab_streams a) (ab_instruments a) (ab_quarantine a ++ [q]))
      else (integrity "CHECK constraint failed: quarantine", a)
  end.

Definition same_quarantine (q q' : QuarantineRecord) : bool :=
  bool_decide (q_stream q = q_stream q') && (q_start_ms q =? q_start_ms q') &&
  (q_end_ms q =? q_end_ms q') && bool_decide (q_reason_code q = q_reason_code q').

Definition abs_record_quarantine_once (q : QuarantineRecord) (a : AbsStore) : res bool * AbsStore :=
  match ab_streams a !! q_stream q with
  | None => (key_error (stream_canonical_id (q_stream q)), a)
  | Some _ =>
      if existsb (same_quarantine q) (ab_quarantine a) then (Ok false, a)
      else match abs_record_quarantine q a with
           | (Ok _, a') => (Ok true, a')
           | (Raise e, a') => (Raise e, a')
           end
  end.

Definition abs_get_metadata (i : InstrumentKey) (a : AbsStore) : res InstrumentMetadata :=
  match ab_instruments a !! ticker i with
  | None => key_error (ticker i)
  | Some r =>
      i' ← InstrumentKey_new (ticker i);
      InstrumentMetadata_new i' (ir_exchange_symbol r) (ir_launch_time_ms r) (ir_fetched_at_ms r)
  end.

(** Another instrument already has the symbol. *)
Definition symbol_taken (m : gmap string InstrumentRow) (t symbol : string) : bool :=
  existsb (λ p, negb (bool_decide (p.1 = t)) && bool_decide (ir_exchange_symbol p.2 = symbol))
    (map_to_list m).

Definition abs_save_metadata (m : InstrumentMetadata) (a : AbsStore) : res () * AbsStore :=
  match im_fetched_at_ms m with
  | None => (raise ExcValueError
               "instrument metadata fetched_at_ms is required for persistence", a)
  | Some fetched =>
      let t := ticker (im_instrument m) in
      match ab_instruments a !! t with
      | None => (Ok (), a)
      | Some _ =>
          if bool_decide (im_exchange_symbol m = ""%string) || negb (opt_nonneg (im_launch_time_ms m))
             || negb (0 <=? fetched)
          then (integrity "CHECK constraint failed: instruments", a)
          else if symbol_taken (ab_instruments a) t (im_exchange_symbol m)
          then (integrity "UNIQUE constraint failed: instruments.exchange_symbol", a)
          else (Ok (), mkAbsStore (ab_streams a)
                  (<[t := mkInstrumentRow (im_exchange_symbol m) (im_launch_time_ms m) (Some fetched)]>
                     (ab_instruments a)) (ab_quarantine a))
      end
  end.

Definition oi_of_row (k : StreamKey) (t : Z) (r : OiRow) : CanonicalOpenInterest :=
  mkCanonicalOI k t (or_value r) (or_committed_at_ms r).

Definition abs_save_oi (p : CanonicalOpenInterest) (r : StreamRec) : res () * StreamRec :=
  if negb (0 <=? co_open_time_ms p) then (integrity "CHECK constraint failed: open_interest", r)
  else (Ok (), upd_oi r (<[co_open_time_ms p :=
          mkOiRow (co_open_interest p) "bybit_rest" (co_committed_at_ms p)]> (sr_oi r))).

Definition abs_save_progress (p : TrackProgress) (r : StreamRec) : res () * StreamRec :=
  if progress_row_ok p then (Ok (), upd_progress r (<[tp_track p := p]> (sr_progress r)))
  else (integrity "CHECK constraint failed: track_progress", r).

(** [TrackProgress(stream=stream, track=track, ...)] of the columns of a row. *)
Definition progress_of_row (k : StreamKey) (track : string) (p : TrackProgress) : TrackProgress :=
  mkProgress k track (tp_earliest p) (tp_discovery_next p) (tp_latest p) (tp_last_audit_at_ms p)
    (tp_last_audit_gap_count p) (tp_last_success_at_ms p) (tp_last_error_code p)
    (tp_last_error_detail p) (tp_updated_at_ms p).

Definition abs_get_progress (k : StreamKey) (track : string) (r : StreamRec) : res TrackProgress :=
  match sr_progress r !! track with
  | None => TrackProgress_check (empty_progress k track)
  | Some p => TrackProgress_check (progress_of_row k track p)
  end.

#[export] Instance abs_storage : Storage AbsStore := λ R o,
  match o in store_op R return AbsStore → res R * AbsStore with
  | StreamExists k => λ a, (Ok (bool_decide (is_Some (ab_streams a !! k))), a)
  | GetInstrumentMetadata i => λ a, (abs_get_metadata i a, a)
  | SaveInstrumentMetadata m => abs_save_metadata m
  | GetCandle k t => λ a, read_stream k a (λ r,
      match sr_candles r !! t with
      | None => mret None
      | Some row => Some <$> candle_of_row k t row
      end)
  | ListCandles k s e => λ a, read_stream k a (λ r,
      map_res (λ '(t, row), candle_of_row k t row) (select_range (sr_candles r) s e))
  | ListCandlesWithOpenInterest k s e => λ a, read_stream k a (λ r,
      map_res (λ '(t, row), c ← candle_of_row k t row; mret (c, or_value <$> sr_oi r !! t))
        (select_range (sr_candles r) s e))
  | GetCommittedCandleBounds k => λ a, read_stream k a (λ r,
      mret (list_min (elements (dom (sr_candles r))), list_max (elements (dom (sr_candles r)))))
  | InsertCandle c => λ a, on_stream (cc_stream c) a (abs_insert_candle c)
  | ReplaceCandle c => λ a, on_stream (cc_stream c) a (abs_replace_candle c)
  | GetStreamState k => λ a, read_stream k a (λ r, snapshot_check (sr_state r))
  | SaveStreamState s => λ a, on_stream (ss_stream s) a (λ r,
      if state_row_ok s then (Ok (), upd_state r s)
      else (integrity "CHECK constraint failed: stream_state", r))
  | RecordQuarantine q => abs_record_quarantine q
  | RecordQuarantineOnce q => abs_record_quarantine_once q
  | GetOpenInterest k t => λ a, read_stream k a (λ r, mret (oi_of_row k t <$> sr_oi r !! t))
  | SaveOpenInterest p => λ a, on_stream (co_stream p) a (abs_save_oi p)
  | ListOpenInterestTimes k s e => λ a, read_stream k a (λ r, mret (range_times (sr_oi r) s e))
  | GetTrackProgress k track => λ a, read_stream k a (abs_get_progress k track)
  | SaveTrackProgress p => λ a, on_stream (tp_stream p) a (abs_save_progress p)
  end.

(** ** The invariant of the canonical store *)

(** A stored row: the canonical text of a valid candle of the grid. *)
Definition row_ok (k : StreamKey) (t : Z) (row : CandleRow) : Prop :=
  ∃ c, candle_of_row k t row = Ok c ∧ candle_row c = row ∧ ohlcv_parsed (cc_values c) ∧
       ohlcv_valid (cc_values c) ∧ candle_times_valid k t (cc_close_time_ms c).

Record stream_inv (k : StreamKey) (r : StreamRec) : Prop := {
  si_key : ss_stream (sr_state r) = k;
  si_state : snapshot_valid (sr_state r);
  si_rows : map_Forall (row_ok k) (sr_candles r);
  si_latest : ∀ t, is_Some (sr_candles r !! t) →
              ∃ l, latest_committed_open_time_ms (sr_state r) = Some l ∧ t ≤ l
}.

Definition store_inv (a : AbsStore) : Prop := map_Forall stream_inv (ab_streams a).

Definition with_stream (a : AbsStore) (k : StreamKey) (r : StreamRec) : AbsStore :=
  mkAbsStore (<[k := r]> (ab_streams a)) (ab_instruments a) (ab_quarantine a).
Definition with_quarantine (a : AbsStore) (q : QuarantineRecord) : AbsStore :=
  mkAbsStore (ab_streams a) (ab_instruments a) (ab_quarantine a ++ [q]).

(** ** Facts: rows *)

Lemma candle_of_own_row k c :
  ohlcv_parsed (cc_values c) →
  ∃ v, candle_of_row k (cc_open_time_ms c) (candle_row c) =
         Ok (mkCanonicalCandle k (cc_open_time_ms c) (cc_open_time_ms c + stream_step k - 1) v
               (cc_source c) (cc_committed_at_ms c)) ∧
       ohlcv_parsed v ∧ ohlcv_eqv (cc_values c) v.
Proof.
  intros Hp. destruct (parse_ohlcv_text _ Hp) as (v & Hv & Hpv & Heqv). exists v.
  split; [|done]. unfold candle_of_row, CanonicalCandle_new, candle_row.
  cbn [cr_open cr_high cr_low cr_close cr_volume cr_source cr_committed_at_ms].
  rewrite source_of_value_value. cbn [mbind res_bind]. by rewrite Hv.
Qed.

Lemma row_ok_own_row k c :
  ohlcv_parsed (cc_values c) → ohlcv_valid (cc_values c) →
  candle_times_valid k (cc_open_time_ms c) (cc_open_time_ms c + stream_step k - 1) →
  row_ok k (cc_open_time_ms c) (candle_row c).
Proof.
  intros Hp Hval Ht. destruct (candle_of_own_row k c Hp) as (v & Hc & Hpv & Heqv).
  eexists. split; [exact Hc|]. cbn [cc_values cc_close_time_ms].
  split; [|split; [done|split; [by rewrite <- Heqv|done]]].
  unfold candle_row. cbn [cc_values cc_source cc_committed_at_ms].
  pose proof (proj2 (ohlcv_text_eqv _ _ Hp Hpv) Heqv) as [= -> -> -> -> ->]. done.
Qed.

(** ** Facts: the operations of the abstract store *)

Section ops.
Context {E : Env}.
Context {db : AbsStore} {n c : nat}.

Abbreviation W a := (mkWorld db (Some a) n c).

Lemma with_stream_id a k r : ab_streams a !! k = Some r → with_stream a k r = a.
Proof. intros H. unfold with_stream. rewrite insert_id by done. by destruct a. Qed.

Lemma run_stream_exists a k :
  run (op (StreamExists k)) (W a) = (Ok (bool_decide (is_Some (ab_streams a !! k))), W a).
Proof. by rewrite run_op. Qed.

Lemma run_get_state a k r :
  ab_streams a !! k = Some r → snapshot_valid (sr_state r) →
  run (op (GetStreamState k)) (W a) = (Ok (sr_state r), W a).
Proof.
  intros H Hv. rewrite run_op. cbn [store_step abs_storage]. unfold read_stream.
  by rewrite H, snapshot_check_valid.
Qed.

Lemma run_save_state a k r s :
  ab_streams a !! k = Some r → ss_stream s = k → snapshot_valid s →
  run (op (SaveStreamState s)) (W a) = (Ok (), W (with_stream a k (upd_state r s))).
Proof.
  intros H <- Hv. rewrite run_op. cbn [store_step abs_storage]. unfold on_stream. rewrite H.
  assert (state_row_ok s = true) as ->; [|done].
  pose proof (sv_discovery _ Hv) as Hd. pose proof (sv_resolved _ Hv) as Hr.
  unfold state_row_ok, opt_nonneg.
  destruct (lower_bound_discovery_next_open_time_ms s) as [x|].
  - specialize (Hd x eq_refl). rewrite (Hr x eq_refl).
    rewrite bool_decide_eq_true_2 by done. lia.
  - rewrite (bool_decide_eq_true_2 (None = None)) by done. by rewrite orb_true_r.
Qed.

Lemma run_get_candle a k t r :
  ab_streams a !! k = Some r →
  run (op (GetCandle k t)) (W a) =
    (match sr_candles r !! t with None => Ok None | Some row => Some <$> candle_of_row k t row end, W a).
Proof. intros H. rewrite run_op. cbn [store_step abs_storage]. unfold read_stream. by rewrite H. Qed.

Lemma run_insert_candle a cd r :
  ab_streams a !! cc_stream cd = Some r → 0 ≤ cc_open_time_ms cd →
  sr_candles r !! cc_open_time_ms cd = None →
  run (op (InsertCandle cd)) (W a) =
    (Ok (), W (with_stream a (cc_stream cd)
                (upd_candles r (<[cc_open_time_ms cd := candle_row cd]> (sr_candles r))))).
Proof.
  intros H H0 Hn. rewrite run_op. cbn [store_step abs_storage]. unfold on_stream, abs_insert_candle.
  rewrite H, Hn. by replace (0 <=? cc_open_time_ms cd) with true by lia.
Qed.

Lemma run_replace_candle a cd r row :
  ab_streams a !! cc_stream cd = Some r → sr_candles r !! cc_open_time_ms cd = Some row →
  run (op (ReplaceCandle cd)) (W a) =
    (Ok (), W (with_stream a (cc_stream cd)
                (upd_candles r (<[cc_open_time_ms cd := candle_row cd]> (sr_candles r))))).
Proof.
  intros H Hr. rewrite run_op. cbn [store_step abs_storage]. unfold on_stream, abs_replace_candle.
  by rewrite H, Hr.
Qed.

Lemma run_quarantine a q :
  is_Some (ab_streams a !! q_stream q) → quarantine_row_ok q = true →
  run (op (RecordQuarantine q)) (W a) = (Ok (), W (with_quarantine a q)).
Proof.
  intros [r Hr] Hok. rewrite run_op. cbn [store_step abs_storage]. unfold abs_record_quarantine.
  by rewrite Hr, Hok.
Qed.

Lemma run_unregistered a k :
  ab_streams a !! k = None →
  run (op (StreamExists k)) (W a) = (Ok false, W a).
Proof. intros H. by rewrite run_stream_exists, H. Qed.

Lemma lookup_with_stream a k r : ab_streams (with_stream a k r) !! k = Some r.
Proof. apply lookup_insert_eq. Qed.

Lemma with_stream_twice a k r r' : with_stream (with_stream a k r) k r' = with_stream a k r'.
Proof. unfold with_stream. cbn. by rewrite insert_insert_eq. Qed.
End ops.

Lemma store_inv_lookup a k r : store_inv a → ab_streams a !! k = Some r → stream_inv k r.
Proof. intros H Hk. exact (H k r Hk). Qed.

Lemma store_inv_with_stream a k r : store_inv a → stream_inv k r → store_inv (with_stream a k r).
Proof. intros H Hr. by apply map_Forall_insert_2. Qed.

Lemma store_inv_with_quarantine a q : store_inv a → store_inv (with_quarantine a q).
Proof. done. Qed.
#[export] Hint Resolve store_inv_lookup store_inv_with_stream store_inv_with_quarantine : mds.


(** ** Facts: reads of a range *)

Lemma range_times_elem {A} (m : gmap Z A) s e t :
  t ∈ range_times m s e ↔ is_Some (m !! t) ∧ s ≤ t < e.
Proof.
  unfold range_times. rewrite py_sorted_elem, list_elem_of_In, filter_In, <- list_elem_of_In,
    elem_of_elements, elem_of_dom, andb_true_iff, Z.leb_le, Z.ltb_lt. done.
Qed.

Lemma range_times_sorted {A} (m : gmap Z A) s e : StronglySorted Z.lt (range_times m s e).
Proof.
  apply py_sorted_strict. apply NoDup_ListNoDup, List.NoDup_filter, NoDup_ListNoDup, NoDup_elements.
Qed.

(** Reading the rows at the given times through [f]. *)
Lemma map_res_rows {A B} (f : Z → A → res B) (m : gmap Z A) (l : list Z) :
  (∀ t, t ∈ l → is_Some (m !! t)) →
  (∀ t row, m !! t = Some row → ∃ b, f t row = Ok b) →
  ∃ bs, map_res (λ p, f p.1 p.2) (omap (λ t, pair t <$> m !! t) l) = Ok bs ∧
    Forall2 (λ t b, ∃ row, m !! t = Some row ∧ f t row = Ok b) l bs.
Proof.
  intros Hl Hf. induction l as [|t l IH]; [by exists []; split; [|constructor]|].
  destruct IH as (bs & Hbs & HF); [intros u Hu; apply Hl; by right|].
  destruct (Hl t) as [row Hrow]; [by left|]. destruct (Hf t row Hrow) as [b Hb].
  exists (b :: bs). cbn. rewrite Hrow. cbn. rewrite Hb, Hbs. split; [done|].
  constructor; [by exists row|done].
Qed.

Lemma candle_of_row_ok k t row c :
  candle_of_row k t row = Ok c → cc_stream c = k ∧ cc_open_time_ms c = t.
Proof.
  unfold candle_of_row, CanonicalCandle_new. intros (source & _ & H)%res_bind_ok.
  apply res_bind_ok in H as (v & _ & H). by injection H as <-.
Qed.

Lemma list_candles_ok k r s e :
  stream_inv k r →
  ∃ l, map_res (λ '(t, row), candle_of_row k t row) (select_range (sr_candles r) s e) = Ok l ∧
    Forall2 (λ t c, ∃ row, sr_candles r !! t = Some row ∧ candle_of_row k t row = Ok c ∧
                          cc_stream c = k ∧ cc_open_time_ms c = t) (range_times (sr_candles r) s e) l.
Proof.
  intros [_ _ Hrows _].
  destruct (map_res_rows (candle_of_row k) (sr_candles r) (range_times (sr_candles r) s e)) as (l & Hl & HF).
  - intros t Ht. by apply range_times_elem in Ht as [? _].
  - intros t row Hrow. destruct (Hrows t row Hrow) as (c & Hc & _). by exists c.
  - exists l. split.
    + rewrite <- Hl. unfold select_range. generalize (omap (λ t, pair t <$> sr_candles r !! t)
        (range_times (sr_candles r) s e)). intros q. induction q as [|[t row] q IH]; [done|]. cbn. by rewrite IH.
    + eapply Forall2_impl; [exact HF|]. intros t c (row & Hrow & Hc). exists row.
      do 2 (split; [done|]). by eapply candle_of_row_ok.
Qed.

Lemma list_with_oi_ok k r s e :
  stream_inv k r →
  ∃ l, map_res (λ '(t, row), c ← candle_of_row k t row; mret (c, or_value <$> sr_oi r !! t))
         (select_range (sr_candles r) s e) = Ok l ∧
    Forall2 (λ t p, ∃ row, sr_candles r !! t = Some row ∧ candle_of_row k t row = Ok p.1 ∧
                           cc_open_time_ms p.1 = t ∧ p.2 = or_value <$> sr_oi r !! t)
      (range_times (sr_candles r) s e) l.
Proof.
  intros [_ _ Hrows _].
  destruct (map_res_rows (λ t row, c ← candle_of_row k t row; mret (c, or_value <$> sr_oi r !! t))
    (sr_candles r) (range_times (sr_candles r) s e)) as (l & Hl & HF).
  - intros t Ht. by apply range_times_elem in Ht as [? _].
  - intros t row Hrow. destruct (Hrows t row Hrow) as (c & -> & _). by eexists.
  - exists l. split.
    + rewrite <- Hl. unfold select_range. generalize (omap (λ t, pair t <$> sr_candles r !! t)
        (range_times (sr_candles r) s e)). intros q. induction q as [|[t row] q IH]; [done|]. cbn. by rewrite IH.
    + eapply Forall2_impl; [exact HF|]. intros t p (row & Hrow & Hp). exists row. split; [done|].
      apply res_bind_ok in Hp as (c & Hc & [= <-]). cbn. split; [done|]. split; [|done].
      by eapply candle_of_row_ok.
Qed.

(** ** Facts: extremes of a list *)

Lemma fold_min_spec l x : fold_left Z.min l x ∈ x :: l ∧ ∀ y, y ∈ x :: l → fold_left Z.min l x ≤ y.
Proof.
  revert x. induction l as [|z l IH]; intros x; cbn.
  - split; [constructor|]. intros y [->|?%elem_of_nil]%elem_of_cons; [lia|done].
  - destruct (IH (Z.min x z)) as [H1 H2]. split.
    + apply elem_of_cons in H1 as [H1|H1]; [|do 2 right; done].
      rewrite H1. destruct (Z.le_ge_cases x z); [rewrite Z.min_l by done; left|
        rewrite Z.min_r by done; right; left].
    + intros y [->|[->|Hy]%elem_of_cons]%elem_of_cons.
      * specialize (H2 (Z.min x z) ltac:(left)). lia.
      * specialize (H2 (Z.min x z) ltac:(left)). lia.
      * apply H2. by right.
Qed.

Lemma list_min_spec l m : list_min l = Some m → m ∈ l ∧ ∀ y, y ∈ l → m ≤ y.
Proof. destruct l as [|x l]; [done|]. intros [= <-]. apply fold_min_spec. Qed.

Lemma list_min_none l : list_min l = None ↔ l = [].
Proof. by destruct l. Qed.

Lemma fold_max_spec l x : fold_left Z.max l x ∈ x :: l ∧ ∀ y, y ∈ x :: l → y ≤ fold_left Z.max l x.
Proof.
  revert x. induction l as [|z l IH]; intros x; cbn.
  - split; [constructor|]. intros y [->|?%elem_of_nil]%elem_of_cons; [lia|done].
  - destruct (IH (Z.max x z)) as [H1 H2]. split.
    + apply elem_of_cons in H1 as [H1|H1]; [|do 2 right; done].
      rewrite H1. destruct (Z.le_ge_cases x z); [rewrite Z.max_r by done; right; left|
        rewrite Z.max_l by done; left].
    + intros y [->|[->|Hy]%elem_of_cons]%elem_of_cons.
      * specialize (H2 (Z.max x z) ltac:(left)). lia.
      * specialize (H2 (Z.max x z) ltac:(left)). lia.
      * apply H2. by right.
Qed.

Lemma list_max_spec l m : list_max l = Some m → m ∈ l ∧ ∀ y, y ∈ l → y ≤ m.
Proof. destruct l as [|x l]; [done|]. intros [= <-]. apply fold_max_spec. Qed.

(** The extremes depend only on the elements. *)
Lemma list_min_ext l l' : (∀ x, x ∈ l ↔ x ∈ l') → list_min l = list_min l'.
Proof.
  intros H. destruct (list_min l) as [m|] eqn:E, (list_min l') as [m'|] eqn:E'.
  - apply list_min_spec in E as [H1 H2], E' as [H3 H4]. f_equal.
    specialize (H2 m' ltac:(by apply H)). specialize (H4 m ltac:(by apply H)). lia.
  - apply list_min_none in E' as ->. apply list_min_spec in E as [H1 _].
    by apply H, elem_of_nil in H1.
  - apply list_min_none in E as ->. apply list_min_spec in E' as [H1 _].
    by apply H, elem_of_nil in H1.
  - done.
Qed.

Lemma list_max_ext l l' : (∀ x, x ∈ l ↔ x ∈ l') → list_max l = list_max l'.
Proof.
  intros H. destruct (list_max l) as [m|] eqn:E, (list_max l') as [m'|] eqn:E'.
  - apply list_max_spec in E as [H1 H2], E' as [H3 H4]. f_equal.
    specialize (H2 m' ltac:(by apply H)). specialize (H4 m ltac:(by apply H)). lia.
  - destruct l'; [|done]. apply list_max_spec in E as [H1 _]. by apply H, elem_of_nil in H1.
  - destruct l; [|done]. apply list_max_spec in E' as [H1 _]. by apply H, elem_of_nil in H1.
  - done.
Qed.
