(* ===== verification/Ingest.v ===== *)
(** * Ingestion of one observation (application/ingest.py)

    [ingest_in_uow] is [IngestObservedCandle.execute_in_unit_of_work] and
    [ingest_execute] is [execute].  [store_inv] is the invariant of the canonical store
    that every use case keeps; [ingest_outcome] is what one observation may do to it. *)

From S2P Require Import Prelude PyStr DecimalValues Timeframes Identity Candles StreamState.
From S2P Require Import Instruments OpenInterest Storage AbsStore.

Record IngestionResult := mkIngestionResult {
  ing_classification : IngestionClassification;
  ing_issue_codes : list string
}.

Definition advance_stream_state (candle : CanonicalCandle) : M () :=
  state ← op (GetStreamState (cc_stream candle));
  let latest := latest_committed_open_time_ms state in
  if match latest with None => true | Some l => l <? cc_open_time_ms candle end then
    state ← lift (snapshot_check
      (set_updated (set_latest state (Some (cc_open_time_ms candle)))
         (Z.max (updated_at_ms state) (cc_committed_at_ms candle))));
    op (SaveStreamState state)
  else mret ().

Definition correction_detail (existing incoming : CanonicalCandle) : string :=
  "existing=" +:+ repr_tuple (ohlcv_text (cc_values existing)) +:+ "; incoming="
  +:+ repr_tuple (ohlcv_text (cc_values incoming)).

Definition handle_correction (existing : option CanonicalCandle) (incoming : CanonicalCandle) :
    M () :=
  match existing with
  | None => lift (raise ExcRuntimeError "correction requires an existing candle")
  | Some existing =>
      _ ← op (RecordQuarantine (mkQuarantine (cc_stream incoming) (cc_open_time_ms incoming)
            (cc_close_time_ms incoming + 1) "candle_correction_detected"
            (correction_detail existing incoming) None (cc_committed_at_ms incoming)));
      if bool_decide (cc_source incoming = BYBIT_REST) then
        _ ← op (ReplaceCandle incoming);
        advance_stream_state incoming
      else mret ()
  end.

Definition issue_text (i : CandleValidationIssue) : string :=
  validation_code_value (issue_code i) +:+ ": " +:+ issue_detail i.

Definition rejection_record (candle : ObservedCandle) (issues : list CandleValidationIssue)
    (committed_at_ms : Z) : QuarantineRecord :=
  let start_ms := Z.max 0 (oc_open_time_ms candle) in
  let end_ms := Z.max (start_ms + 1) (oc_close_time_ms candle + 1) in
  mkQuarantine (oc_stream candle) start_ms end_ms "candle_validation_failed"
    (join "; " (map issue_text issues)) None committed_at_ms.

Definition rejection (issues : list CandleValidationIssue) : IngestionResult :=
  mkIngestionResult
    (if existsb (λ i, bool_decide (issue_code i = UNCONFIRMED)) issues
     then REJECTED_UNCONFIRMED else REJECTED_INVALID)
    (map (λ i, validation_code_value (issue_code i)) issues).

Definition ingest_in_uow (candle : ObservedCandle) (committed_at_ms : Z) : M IngestionResult :=
  let issues := validate_observed_candle candle in
  known ← op (StreamExists (oc_stream candle));
  if negb known then mret (mkIngestionResult REJECTED_UNCONFIGURED [])
  else match issues with
  | _ :: _ =>
      _ ← op (RecordQuarantine (rejection_record candle issues committed_at_ms));
      mret (rejection issues)
  | [] =>
      existing ← op (GetCandle (oc_stream candle) (oc_open_time_ms candle));
      classification ← lift (classify_against_existing existing candle);
      canonical ← lift (from_observation candle committed_at_ms);
      _ ← match classification with
          | COMMITTED =>
              _ ← op (InsertCandle canonical);
              advance_stream_state canonical
          | CORRECTED => handle_correction existing canonical
          | _ => mret ()
          end;
      mret (mkIngestionResult classification [])
  end.

Definition ingest_execute (candle : ObservedCandle) (committed_at_ms : Z) : M IngestionResult :=
  with_uow (result ← ingest_in_uow candle committed_at_ms; _ ← commit; mret result).

(** ** What one observation does *)

(** [r'] is [r] with the row of the candle written and the latest candle moved to it when
    it is later. *)
Definition written (candle : ObservedCandle) (committed_at_ms : Z) (r r' : StreamRec) : Prop :=
  ∃ row, row_ok (oc_stream candle) (oc_open_time_ms candle) row ∧
    cr_committed_at_ms row = committed_at_ms ∧
    cr_source row = source_value (oc_source candle) ∧
    [cr_open row; cr_high row; cr_low row; cr_close row; cr_volume row] =
      ohlcv_text (oc_values candle) ∧
    sr_candles r' = <[oc_open_time_ms candle := row]> (sr_candles r) ∧
    sr_oi r' = sr_oi r ∧ sr_progress r' = sr_progress r ∧
    ss_state (sr_state r') = ss_state (sr_state r) ∧
    earliest_available_open_time_ms (sr_state r') = earliest_available_open_time_ms (sr_state r) ∧
    latest_committed_open_time_ms (sr_state r') =
      Some (Z.max (oc_open_time_ms candle)
              (default (oc_open_time_ms candle) (latest_committed_open_time_ms (sr_state r)))).

Inductive ingest_outcome (a : AbsStore) (candle : ObservedCandle) (t : Z) :
    IngestionResult → AbsStore → Prop :=
| ing_unconfigured :
    ab_streams a !! oc_stream candle = None →
    ingest_outcome a candle t (mkIngestionResult REJECTED_UNCONFIGURED []) a
| ing_rejected issues :
    is_Some (ab_streams a !! oc_stream candle) →
    validate_observed_candle candle = issues → issues ≠ [] →
    ingest_outcome a candle t (rejection issues)
      (with_quarantine a (rejection_record candle issues t))
| ing_committed r r' :
    ab_streams a !! oc_stream candle = Some r → validate_observed_candle candle = [] →
    sr_candles r !! oc_open_time_ms candle = None →
    written candle t r r' →
    ingest_outcome a candle t (mkIngestionResult COMMITTED []) (with_stream a (oc_stream candle) r')
| ing_duplicate r row c :
    ab_streams a !! oc_stream candle = Some r → validate_observed_candle candle = [] →
    sr_candles r !! oc_open_time_ms candle = Some row →
    candle_of_row (oc_stream candle) (oc_open_time_ms candle) row = Ok c →
    ohlcv_eqv (cc_values c) (oc_values candle) →
    ingest_outcome a candle t (mkIngestionResult DUPLICATE []) a
| ing_correction_kept r row c q :
    ab_streams a !! oc_stream candle = Some r → validate_observed_candle candle = [] →
    sr_candles r !! oc_open_time_ms candle = Some row →
    candle_of_row (oc_stream candle) (oc_open_time_ms candle) row = Ok c →
    ¬ ohlcv_eqv (cc_values c) (oc_values candle) →
    oc_source candle = BYBIT_WEBSOCKET →
    q_reason_code q = "candle_correction_detected"%string →
    ingest_outcome a candle t (mkIngestionResult CORRECTED []) (with_quarantine a q)
| ing_correction_written r r' row c q :
    ab_streams a !! oc_stream candle = Some r → validate_observed_candle candle = [] →
    sr_candles r !! oc_open_time_ms candle = Some row →
    candle_of_row (oc_stream candle) (oc_open_time_ms candle) row = Ok c →
    ¬ ohlcv_eqv (cc_values c) (oc_values candle) →
    oc_source candle = BYBIT_REST →
    q_reason_code q = "candle_correction_detected"%string →
    written candle t r r' →
    ingest_outcome a candle t (mkIngestionResult CORRECTED [])
      (with_stream (with_quarantine a q) (oc_stream candle) r').

(** ** Facts *)

Section ops.
Context {E : Env} {db : AbsStore} {n c : nat}.
Abbreviation W a := (mkWorld db (Some a) n c).

(** Moving the latest candle. *)
Lemma run_advance a r cd :
  ab_streams a !! cc_stream cd = Some r → stream_inv (cc_stream cd) r ∨
    (ss_stream (sr_state r) = cc_stream cd ∧ snapshot_valid (sr_state r)) →
  0 ≤ cc_open_time_ms cd →
  ∃ s, run (advance_stream_state cd) (W a) = (Ok (), W (with_stream a (cc_stream cd) (upd_state r s))) ∧
    ss_stream s = cc_stream cd ∧ snapshot_valid s ∧ ss_state s = ss_state (sr_state r) ∧
    earliest_available_open_time_ms s = earliest_available_open_time_ms (sr_state r) ∧
    latest_committed_open_time_ms s =
      Some (Z.max (cc_open_time_ms cd)
              (default (cc_open_time_ms cd) (latest_committed_open_time_ms (sr_state r)))).
Proof.
  intros Hr Hinv Hpos.
  assert (Hk : ss_stream (sr_state r) = cc_stream cd ∧ snapshot_valid (sr_state r))
    by (destruct Hinv as [[]|]; done).
  destruct Hk as [Hk Hv]. unfold advance_stream_state. rewrite run_bind, (run_get_state a _ r) by done.
  assert (Hsave : let s := set_updated (set_latest (sr_state r) (Some (cc_open_time_ms cd)))
           (Z.max (updated_at_ms (sr_state r)) (cc_committed_at_ms cd)) in
           snapshot_valid s).
  { cbv zeta. pose proof (sv_updated _ Hv). apply set_updated_valid; [|cbn; lia].
    apply set_latest_valid; [done|]. by apply nonneg_Some. }
  cbv zeta in Hsave.
  destruct (latest_committed_open_time_ms (sr_state r)) as [l|] eqn:El;
    [destruct (Z.ltb_spec l (cc_open_time_ms cd))|].
  - rewrite run_bind, run_lift, snapshot_check_valid by done.
    rewrite (run_save_state a (cc_stream cd) r) by done.
    eexists. split; [done|]. split_and!; [done..|]. cbn. f_equal. lia.
  - exists (sr_state r). rewrite run_ret.
    assert (upd_state r (sr_state r) = r) as -> by (by destruct r).
    rewrite with_stream_id by done. split; [done|]. split_and!; [done..|].
    rewrite El. cbn. f_equal. lia.
  - rewrite run_bind, run_lift, snapshot_check_valid by done.
    rewrite (run_save_state a (cc_stream cd) r) by done.
    eexists. split; [done|]. split_and!; [done..|]. cbn. f_equal. lia.
Qed.
End ops.

(** The invariant after a row is written and the latest candle follows. *)
Lemma stream_inv_written candle t r r' :
  stream_inv (oc_stream candle) r → written candle t r r' →
  ss_stream (sr_state r') = oc_stream candle → snapshot_valid (sr_state r') →
  stream_inv (oc_stream candle) r'.
Proof.
  intros [Hk Hs Hrows Hlat] (row & Hrow & _ & _ & _ & Hc & _ & _ & _ & _ & Hl) Hk' Hv'. split; [done|done| |].
  - rewrite Hc. by apply map_Forall_insert_2.
  - intros u Hu. rewrite Hc in Hu. eexists. split; [exact Hl|].
    destruct (decide (u = oc_open_time_ms candle)) as [->|Hne]; [lia|].
    rewrite lookup_insert_ne in Hu by done. destruct (Hlat u Hu) as (l & -> & Hle). cbn. lia.
Qed.

(** The canonical candle an accepted observation becomes. *)
Definition canonical_of (candle : ObservedCandle) (t : Z) : CanonicalCandle :=
  mkCanonicalCandle (oc_stream candle) (oc_open_time_ms candle) (oc_close_time_ms candle)
    (oc_values candle) (oc_source candle) t.

Lemma canonical_row_ok candle t :
  ohlcv_parsed (oc_values candle) → validate_observed_candle candle = [] →
  row_ok (oc_stream candle) (oc_open_time_ms candle) (candle_row (canonical_of candle t)).
Proof.
  intros Hp Hval. apply validate_nil in Hval as (_ & (H0 & Hg & Hc) & Hv).
  by apply (row_ok_own_row _ (canonical_of candle t)).
Qed.

Lemma rejection_record_ok candle issues t : quarantine_row_ok (rejection_record candle issues t) = true.
Proof. unfold quarantine_row_ok, rejection_record. cbn. lia. Qed.

Lemma stream_inv_of_advance candle t r s :
  let r1 := upd_candles r (<[oc_open_time_ms candle := candle_row (canonical_of candle t)]>
              (sr_candles r)) in
  stream_inv (oc_stream candle) r → ohlcv_parsed (oc_values candle) →
  validate_observed_candle candle = [] →
  ss_stream s = oc_stream candle → snapshot_valid s → ss_state s = ss_state (sr_state r) →
  earliest_available_open_time_ms s = earliest_available_open_time_ms (sr_state r) →
  latest_committed_open_time_ms s =
    Some (Z.max (oc_open_time_ms candle)
            (default (oc_open_time_ms candle) (latest_committed_open_time_ms (sr_state r)))) →
  written candle t r (upd_state r1 s) ∧ stream_inv (oc_stream candle) (upd_state r1 s).
Proof.
  intros r1 Hinv Hp Hval Hk Hv Hst He Hl.
  assert (Hw : written candle t r (upd_state r1 s)).
  { exists (candle_row (canonical_of candle t)). by split_and!; [apply canonical_row_ok|..]. }
  split; [done|]. by eapply stream_inv_written.
Qed.

(** *** The cases of an ingestion *)

Section ingest.
Context {E : Env} {db : AbsStore} {n c : nat}.
Abbreviation W a := (mkWorld db (Some a) n c).
Context (a : AbsStore) (candle : ObservedCandle) (t : Z) (Hinv : store_inv a)
  (Hp : ohlcv_parsed (oc_values candle)).

Definition ingest_post (p : res IngestionResult * World AbsStore) : Prop :=
  ∃ res a', p = (Ok res, W a') ∧ ingest_outcome a candle t res a' ∧ store_inv a'.

Lemma ingest_post_unregistered :
  ab_streams a !! oc_stream candle = None → ingest_post (run (ingest_in_uow candle t) (W a)).
Proof using Hinv.
  intros Hn. unfold ingest_in_uow. rewrite run_bind, run_unregistered by done. cbn [negb].
  eexists _, _. split; [reflexivity|]. split; [by constructor|done].
Qed.

Lemma ingest_post_rejected :
  is_Some (ab_streams a !! oc_stream candle) → validate_observed_candle candle ≠ [] →
  ingest_post (run (ingest_in_uow candle t) (W a)).
Proof using Hinv.
  intros Hk Hval. unfold ingest_in_uow. rewrite run_bind, run_stream_exists.
  rewrite (bool_decide_eq_true_2 _ Hk). cbn [negb].
  destruct (validate_observed_candle candle) as [|i l] eqn:Ei; [done|].
  rewrite run_bind, run_quarantine by (done || apply rejection_record_ok).
  eexists _, _. split; [reflexivity|]. split; [|by apply store_inv_with_quarantine].
  by constructor.
Qed.

(** What an accepted observation runs, up to the classification. *)
Lemma run_ingest_valid r existing cls :
  ab_streams a !! oc_stream candle = Some r → validate_observed_candle candle = [] →
  match sr_candles r !! oc_open_time_ms candle with
  | None => Ok None
  | Some row => Some <$> candle_of_row (oc_stream candle) (oc_open_time_ms candle) row
  end = Ok existing →
  classify_against_existing existing candle = Ok cls →
  run (ingest_in_uow candle t) (W a) =
  run (_ ← match cls with
           | COMMITTED => _ ← op (InsertCandle (canonical_of candle t));
                          advance_stream_state (canonical_of candle t)
           | CORRECTED => handle_correction existing (canonical_of candle t)
           | _ => mret ()
           end; mret (mkIngestionResult cls [])) (W a).
Proof using Hp.
  intros Hr Hval Hex Hcls. unfold ingest_in_uow. rewrite run_bind, run_stream_exists.
  rewrite (bool_decide_eq_true_2 (is_Some _)) by (by exists r). cbn [negb]. rewrite Hval.
  rewrite run_bind, (run_get_candle a _ _ r) by done. rewrite Hex.
  rewrite run_bind, run_lift, Hcls, run_bind, run_lift, from_observation_ok by done.
  reflexivity.
Qed.

Lemma ingest_post_committed r :
  ab_streams a !! oc_stream candle = Some r → validate_observed_candle candle = [] →
  sr_candles r !! oc_open_time_ms candle = None → ingest_post (run (ingest_in_uow candle t) (W a)).
Proof using Hinv Hp.
  intros Hr Hval Hn. rewrite (run_ingest_valid r None COMMITTED) by (done || by rewrite Hn).
  pose proof (proj1 (validate_nil _) Hval) as (_ & (H0 & _) & _).
  pose proof (store_inv_lookup _ _ _ Hinv Hr) as Hri.
  rewrite run_bind, run_bind, (run_insert_candle a (canonical_of candle t) r) by done.
  cbn [cc_stream cc_open_time_ms canonical_of]. set (r1 := upd_candles r _).
  destruct (run_advance (E:=E) (db:=db) (n:=n) (c:=c) (with_stream a (oc_stream candle) r1) r1
    (canonical_of candle t)) as (s & -> & Hk & Hv & Hst & He & Hl);
    [apply lookup_with_stream|right; split; apply Hri|done|].
  rewrite with_stream_twice. cbn [cc_stream canonical_of].
  destruct (stream_inv_of_advance candle t r s) as [Hw Hi]; [done..|].
  eexists _, _. split; [reflexivity|]. split; [by eapply ing_committed|].
  by apply store_inv_with_stream.
Qed.

Lemma classify_row row :
  row_ok (oc_stream candle) (oc_open_time_ms candle) row →
  ∃ cd, candle_of_row (oc_stream candle) (oc_open_time_ms candle) row = Ok cd ∧
    (ohlcv_eqv (cc_values cd) (oc_values candle) ∧
     classify_against_existing (Some cd) candle = Ok DUPLICATE ∨
     ¬ ohlcv_eqv (cc_values cd) (oc_values candle) ∧
     classify_against_existing (Some cd) candle = Ok CORRECTED).
Proof using Hp.
  intros (cd & Hcd & _ & Hpc & _). exists cd. split; [done|].
  assert (cc_stream cd = oc_stream candle ∧ cc_open_time_ms cd = oc_open_time_ms candle) as [H1 H2].
  { unfold candle_of_row, CanonicalCandle_new in Hcd. apply res_bind_ok in Hcd as (? & _ & Hcd).
    by apply res_bind_ok in Hcd as (? & _ & [= <-]). }
  unfold classify_against_existing. rewrite H1, H2, Z.eqb_refl.
  rewrite (bool_decide_eq_true_2 (oc_stream candle = oc_stream candle)) by done.
  cbn [negb orb raise_if mbind res_bind mret res_ret].
  case_bool_decide as Ht; [left|right]; split; try done.
  - by apply ohlcv_text_eqv.
  - by rewrite <- ohlcv_text_eqv.
Qed.

Lemma correction_record_ok cd :
  validate_observed_candle candle = [] →
  quarantine_row_ok (mkQuarantine (oc_stream candle) (oc_open_time_ms candle)
    (oc_close_time_ms candle + 1) "candle_correction_detected"
    (correction_detail cd (canonical_of candle t)) None t) = true.
Proof.
  intros Hval. apply validate_nil in Hval as (_ & (H0 & _ & Hc) & _).
  pose proof (stream_step_pos (oc_stream candle)). unfold quarantine_row_ok. cbn. lia.
Qed.

Lemma ingest_post_existing r row :
  ab_streams a !! oc_stream candle = Some r → validate_observed_candle candle = [] →
  sr_candles r !! oc_open_time_ms candle = Some row →
  ingest_post (run (ingest_in_uow candle t) (W a)).
Proof using Hinv Hp.
  intros Hr Hval Hrow. pose proof (store_inv_lookup _ _ _ Hinv Hr) as Hri.
  pose proof (si_rows _ _ Hri _ _ Hrow) as Hok.
  destruct (classify_row row Hok) as (cd & Hcd & [[Heqv Hcls]|[Hneq Hcls]]).
  { rewrite (run_ingest_valid r (Some cd) DUPLICATE) by (done || by rewrite Hrow, Hcd).
    eexists _, _. split; [reflexivity|]. split; [by eapply ing_duplicate|done]. }
  rewrite (run_ingest_valid r (Some cd) CORRECTED) by (done || by rewrite Hrow, Hcd).
  rewrite run_bind. unfold handle_correction. rewrite run_bind.
  rewrite run_quarantine by (by exists r || by apply correction_record_ok).
  set (q := mkQuarantine _ _ _ _ _ _ _). cbn [cc_source canonical_of].
  case_bool_decide as Hsrc; cycle 1.
  { rewrite run_ret. eexists _, _. split; [reflexivity|].
    split; [|by apply store_inv_with_quarantine].
    eapply ing_correction_kept; try done. by destruct (oc_source candle). }
  rewrite run_bind, (run_replace_candle (with_quarantine a q) (canonical_of candle t) r row) by done.
  cbn [cc_stream cc_open_time_ms canonical_of]. set (r1 := upd_candles r _).
  pose proof (proj1 (validate_nil _) Hval) as (_ & (H0 & _) & _).
  destruct (run_advance (E:=E) (db:=db) (n:=n) (c:=c)
    (with_stream (with_quarantine a q) (oc_stream candle) r1) r1
    (canonical_of candle t)) as (s & -> & Hk & Hv & Hst & He & Hl);
    [apply lookup_with_stream|right; split; apply Hri|done|].
  rewrite with_stream_twice. cbn [cc_stream canonical_of].
  destruct (stream_inv_of_advance candle t r s) as [Hw Hi]; [done..|].
  eexists _, _. split; [reflexivity|]. split; [by eapply ing_correction_written|].
  apply store_inv_with_stream; [by apply store_inv_with_quarantine|done].
Qed.

Lemma ingest_correct : ingest_post (run (ingest_in_uow candle t) (W a)).
Proof using Hinv Hp.
  destruct (ab_streams a !! oc_stream candle) as [r|] eqn:Hr; [|by apply ingest_post_unregistered].
  destruct (decide (validate_observed_candle candle = [])) as [Hval|Hval].
  - destruct (sr_candles r !! oc_open_time_ms candle) as [row|] eqn:Hrow.
    + by eapply ingest_post_existing.
    + by eapply ingest_post_committed.
  - by apply ingest_post_rejected.
Qed.
End ingest.

(** An ingestion in a transaction of its own. *)
Lemma run_ingest_execute `{E : Env} a n c candle t :
  store_inv a → ohlcv_parsed (oc_values candle) →
  ∃ res a', run (ingest_execute candle t) (mkWorld a None n c) = (Ok res, mkWorld a' None n c) ∧
    ingest_outcome a candle t res a' ∧ store_inv a'.
Proof.
  intros Hinv Hp. unfold ingest_execute. rewrite run_with_uow, run_bind.
  destruct (ingest_correct (db:=a) (n:=n) (c:=c) a candle t Hinv Hp) as (res & a' & -> & Ho & Hi).
  rewrite run_bind, run_commit, run_ret. by exists res, a'.
Qed.

Lemma row_texts_eqv k t row cd v :
  row_ok k t row → candle_of_row k t row = Ok cd → ohlcv_parsed v →
  [cr_open row; cr_high row; cr_low row; cr_close row; cr_volume row] = ohlcv_text v →
  ohlcv_eqv (cc_values cd) v.
Proof.
  intros (cd' & Hcd' & Hrow & Hp & _) Hcd Hv Ht. assert (cd' = cd) as -> by congruence.
  apply ohlcv_text_eqv; [done..|]. rewrite <- Ht, <- Hrow. reflexivity.
Qed.

(** The row of [candle] holds its values. *)
Definition holds (a : AbsStore) (candle : ObservedCandle) : Prop :=
  ∃ r row cd, ab_streams a !! oc_stream candle = Some r ∧
    sr_candles r !! oc_open_time_ms candle = Some row ∧
    candle_of_row (oc_stream candle) (oc_open_time_ms candle) row = Ok cd ∧
    ohlcv_eqv (cc_values cd) (oc_values candle).

(** The observation is now in the store. *)
Definition accepted (candle : ObservedCandle) (res : IngestionResult) : Prop :=
  ing_classification res = COMMITTED ∨ ing_classification res = DUPLICATE ∨
  (ing_classification res = CORRECTED ∧ oc_source candle = BYBIT_REST).

Lemma written_holds a candle t r r' :
  ohlcv_parsed (oc_values candle) → written candle t r r' →
  holds (with_stream a (oc_stream candle) r') candle.
Proof.
  intros Hp (row & Hrow & _ & _ & Htext & Hc & _). pose proof Hrow as (cd & Hcd & _).
  exists r', row, cd. split; [apply lookup_with_stream|]. split; [rewrite Hc; apply lookup_insert_eq|].
  split; [done|]. by eapply row_texts_eqv.
Qed.

Lemma rejection_not_accepted candle issues : ¬ accepted candle (rejection issues).
Proof.
  unfold accepted, rejection. cbn [ing_classification].
  destruct (existsb _ issues); by intros [?|[?|[? ?]]].
Qed.

Lemma outcome_accepted_holds a candle t res a' :
  ohlcv_parsed (oc_values candle) → ingest_outcome a candle t res a' → accepted candle res →
  holds a' candle ∧ validate_observed_candle candle = [].
Proof.
  intros Hp Ho Hacc. destruct Ho.
  - exfalso. destruct Hacc as [?|[?|[? ?]]]; done.
  - by apply rejection_not_accepted in Hacc.
  - split; [by eapply written_holds|done].
  - split; [|done]. by exists r, row, c.
  - exfalso. destruct Hacc as [?|[?|[_ ?]]]; [done|done|congruence].
  - split; [by eapply written_holds|done].
Qed.

(** An observation the store holds is a duplicate. *)
Lemma outcome_of_held a candle t res a' :
  holds a candle → validate_observed_candle candle = [] → ingest_outcome a candle t res a' →
  res = mkIngestionResult DUPLICATE [] ∧ a' = a.
Proof.
  intros (r0 & row0 & cd0 & Hr & Hrow & Hcd & Heqv) Hval Ho. destruct Ho; try congruence; [done|..];
    simplify_eq; exfalso; simplify_eq; congruence.
Qed.

(** ** Properties *)


(** Ingestion is idempotent: once an observation was accepted, ingesting it again, at any
    time, is a duplicate and leaves the store as it is. *)
Theorem ingest_idempotent `{E : Env} (a a' : AbsStore) (n c : nat) (candle : ObservedCandle)
    (t t' : Z) (res : IngestionResult) :
  store_inv a → ohlcv_parsed (oc_values candle) →
  run (ingest_execute candle t) (mkWorld a None n c) = (Ok res, mkWorld a' None n c) →
  accepted candle res →
  run (ingest_execute candle t') (mkWorld a' None n c) =
    (Ok (mkIngestionResult DUPLICATE []), mkWorld a' None n c).
Proof.
  intros Hinv Hp Hrun Hacc.
  destruct (run_ingest_execute a n c candle t Hinv Hp) as (res0 & a0 & Hrun0 & Ho & Hi).
  rewrite Hrun in Hrun0. injection Hrun0 as <- <-.
  apply outcome_accepted_holds in Ho as [Hh Hval]; [|done..].
  destruct (run_ingest_execute a' n c candle t' Hi Hp) as (res1 & a1 & -> & Ho1 & _).
  by apply outcome_of_held in Ho1 as [-> ->].
Qed.

(** *** A concrete store *)

Definition example_env : Env := {|
  env_clock := λ n, 1000 + Z.of_nat n;
  env_fetch_closed_candles := λ _ _ _ _, Ok [];
  env_fetch_open_interest := λ _ _ _ _, Ok [];
  env_launch_time_ms := λ _ _, Ok 0;
  env_specification := λ _ i, Specification_new i "BTCUSDT" "linear" "LinearPerpetual" "Trading" "USDT" 0
|}.

Definition example_rec : StreamRec :=
  mkStreamRec (mkSnapshot example_stream READY (Some 0) None None None None None None None 10 10)
    ∅ ∅ ∅.

Definition example_store : AbsStore :=
  mkAbsStore {[ example_stream := example_rec ]}
    {[ "BTCUSDT.P"%string := mkInstrumentRow "BTCUSDT" None None ]} [].

#[local] Existing Instance example_env.

Lemma example_store_inv : store_inv example_store.
Proof.
  intros k r Hk. unfold example_store in Hk. cbn [ab_streams] in Hk.
  apply lookup_singleton_Some in Hk as [<- <-]. split; [done| | |].
  - by apply (snapshot_check_ok _ (sr_state example_rec)).
  - apply map_Forall_empty.
  - intros t [? Ht]. done.
Qed.

Definition example_candle (t : Z) (close : Z) (source : ObservationSource) : ObservedCandle :=
  mkObservedCandle example_stream t (t + 59999)
    (mkOhlcv (mkDec false 10 0) (mkDec false 12 0) (mkDec false 9 0) (mkDec false close 0)
       (mkDec false 5 (-1))) true 900 source.

Lemma example_candle_parsed t close source :
  0 < close → ohlcv_parsed (oc_values (example_candle t close source)).
Proof.
  intros H. unfold ohlcv_parsed, dec_parsed, dec_wf. cbn.
  repeat constructor; cbn; try lia; try done.
Qed.


Lemma ingest_idempotent_witness :
  let candle := example_candle 60000 11 BYBIT_REST in
  let a' := w_db (run (ingest_execute candle 950) (mkWorld example_store None 0 0)).2 in
  (is_Some (ab_streams a' !! example_stream ≫= λ r, sr_candles r !! 60000)) ∧
  run (ingest_execute candle 960) (mkWorld a' None 0%nat 0%nat) =
    (Ok (mkIngestionResult DUPLICATE []), mkWorld a' None 0%nat 0%nat).
Proof.
  intros candle a'. split; [by vm_compute; eexists|].
  apply (ingest_idempotent example_store a' 0 0 candle 950 960 (mkIngestionResult COMMITTED []));
    [apply example_store_inv|by apply example_candle_parsed|by vm_compute|by left].
Defined.
