(* ===== verification/ImportWindow.v ===== *)
(** * One historical window, fetched and ingested (application/import_window.py) *)

From S2P Require Import Prelude PyStr DecimalValues Timeframes Identity Candles StreamState.
From S2P Require Import Instruments OpenInterest Storage AbsStore Ingest.

Record ImportWindowResult := mkImportResult {
  iw_observed : Z;
  iw_committed : Z;
  iw_duplicates : Z;
  iw_corrected : Z;
  iw_rejected : Z;
  iw_unexpected : Z
}.

(** [counts: dict[IngestionClassification, int]] *)
Definition Counts := IngestionClassification → Z.
Definition no_counts : Counts := λ _, 0.
Definition bump (counts : Counts) (cls : IngestionClassification) : Counts :=
  λ x, if decide (x = cls) then counts x + 1 else counts x.

Definition unexpected_record (requested_stream : StreamKey) (requested_window : TimeWindow)
    (candle : ObservedCandle) (created_at_ms : Z) : QuarantineRecord :=
  let open_time_ms := oc_open_time_ms candle in
  let end_time := Z.max (open_time_ms + 1) (oc_close_time_ms candle + 1) in
  mkQuarantine requested_stream (Z.max 0 open_time_ms)
    (Z.max (Z.max 0 open_time_ms + 1) end_time) "unexpected_historical_candle"
    ("requested_stream=" +:+ stream_canonical_id requested_stream +:+ " requested_window=["
     +:+ str_of_Z (start_ms requested_window) +:+ ", " +:+ str_of_Z (end_ms requested_window)
     +:+ ") observed_stream=" +:+ stream_canonical_id (oc_stream candle))
    None created_at_ms.

Definition is_expected (stream : StreamKey) (window : TimeWindow) (candle : ObservedCandle) : bool :=
  bool_decide (oc_stream candle = stream) && window_contains window (oc_open_time_ms candle).

(** The loop of [execute], with the counters it updates. *)
Fixpoint import_loop (stream : StreamKey) (window : TimeWindow) (candles : list ObservedCandle)
    (counts : Counts) (unexpected : Z) : M (Counts * Z) :=
  match candles with
  | [] => mret (counts, unexpected)
  | candle :: candles =>
      if negb (is_expected stream window candle) then
        now ← now_ms;
        _ ← op (RecordQuarantine (unexpected_record stream window candle now));
        import_loop stream window candles counts (unexpected + 1)
      else
        now ← now_ms;
        result ← ingest_in_uow candle now;
        import_loop stream window candles (bump counts (ing_classification result)) unexpected
  end.

Definition import_result (observed : Z) (counts : Counts) (unexpected : Z) : ImportWindowResult :=
  mkImportResult observed (counts COMMITTED) (counts DUPLICATE) (counts CORRECTED)
    (counts REJECTED_INVALID + counts REJECTED_UNCONFIRMED + counts REJECTED_UNCONFIGURED)
    unexpected.

(** [ImportHistoricalWindow.execute] *)
Definition import_window (stream : StreamKey) (window : TimeWindow) : M ImportWindowResult :=
  observed_at_ms ← now_ms;
  candles ← call (EvFetchCandles stream window observed_at_ms);
  '(counts, unexpected) ←
    with_uow (result ← import_loop stream window candles no_counts 0; _ ← commit; mret result);
  mret (import_result (Z.of_nat (length candles)) counts unexpected).

(** ** Facts *)

(** What an import may change: rows of the requested stream inside the window. *)
Record import_frame (k : StreamKey) (w : TimeWindow) (a a' : AbsStore) : Prop := {
  if_others : ∀ k', k' ≠ k → ab_streams a' !! k' = ab_streams a !! k';
  if_instruments : ab_instruments a' = ab_instruments a;
  if_stream : is_Some (ab_streams a !! k) ↔ is_Some (ab_streams a' !! k);
  if_rows : ∀ r r', ab_streams a !! k = Some r → ab_streams a' !! k = Some r' →
            (∀ t, window_contains w t = false → sr_candles r' !! t = sr_candles r !! t) ∧
            (∀ t, is_Some (sr_candles r !! t) → is_Some (sr_candles r' !! t)) ∧
            sr_oi r' = sr_oi r ∧ sr_progress r' = sr_progress r ∧
            ss_state (sr_state r') = ss_state (sr_state r)
}.

#[export] Instance import_frame_preorder k w : PreOrder (import_frame k w).
Proof.
  split.
  - intros a. split; try done. intros r r' -> [= <-]. by repeat split.
  - intros a b c [H1 H2 H3 H4] [H1' H2' H3' H4']. split.
    + intros k' Hk. by rewrite H1', H1.
    + congruence.
    + by rewrite H3.
    + intros r r'' Hr Hr''. destruct (proj1 H3 (ex_intro _ r Hr)) as [r' Hr'].
      destruct (H4 r r' Hr Hr') as (A & B & C & D & E).
      destruct (H4' r' r'' Hr' Hr'') as (A' & B' & C' & D' & E').
      split_and!; [|auto|congruence..]. intros t Ht. by rewrite A', A.
Qed.

Lemma import_frame_same k w a a' :
  ab_streams a' = ab_streams a → ab_instruments a' = ab_instruments a → import_frame k w a a'.
Proof.
  intros Hs Hi. split; rewrite ?Hs; try done. intros r r' -> [= <-]. by repeat split.
Qed.

(** How many rows the stream has. *)
Definition row_count (a : AbsStore) (k : StreamKey) : nat :=
  match ab_streams a !! k with Some r => size (sr_candles r) | None => 0%nat end.

Lemma written_frame (w : TimeWindow) a a1 candle t r r' :
  ab_streams a !! oc_stream candle = Some r →
  window_contains w (oc_open_time_ms candle) = true → written candle t r r' →
  ab_streams a1 = ab_streams a → ab_instruments a1 = ab_instruments a →
  import_frame (oc_stream candle) w a (with_stream a1 (oc_stream candle) r').
Proof.
  intros Hr Hw (row & _ & _ & _ & _ & Hc & Ho & Hpr & Hst & _) Hs Hi. split; cbn.
  - intros k' Hk. by rewrite lookup_insert_ne, Hs.
  - done.
  - rewrite lookup_insert_eq, Hr. split; by eexists.
  - intros r0 r1 Hr0. rewrite lookup_insert_eq. intros [= <-].
    assert (r0 = r) as -> by congruence. split_and!; [| |done..].
    + intros u Hu. rewrite Hc, lookup_insert_ne; [done|]. intros <-. congruence.
    + intros u Hu. rewrite Hc. destruct (decide (u = oc_open_time_ms candle)) as [->|].
      * rewrite lookup_insert_eq. by eexists.
      * by rewrite lookup_insert_ne.
Qed.

Lemma outcome_frame w a candle t res a' :
  window_contains w (oc_open_time_ms candle) = true →
  ingest_outcome a candle t res a' →
  import_frame (oc_stream candle) w a a' ∧
  row_count a' (oc_stream candle) =
    (row_count a (oc_stream candle) +
     if decide (ing_classification res = COMMITTED) then 1 else 0)%nat.
Proof.
  intros Hw Ho. assert (Hq : ∀ q, import_frame (oc_stream candle) w a (with_quarantine a q))
    by (intros q; by apply import_frame_same).
  destruct Ho as [Hn|issues Hs Hval Hne|r r' Hr Hval Hn Hwr|r row c Hr Hval Hrow|
    r row c q Hr Hval Hrow|r r' row c q Hr Hval Hrow Hcd Hneq Hsrc Hcode Hwr]; cbn [ing_classification].
  - split; [done|]. rewrite decide_False by done. lia.
  - split; [done|]. unfold rejection, row_count. cbn [ing_classification].
    rewrite decide_False by (by destruct (existsb _ issues)). cbn. lia.
  - split; [by eapply written_frame|].
    unfold row_count. rewrite lookup_with_stream, Hr. destruct Hwr as (row & _ & _ & _ & _ & Hc & _).
    rewrite Hc, map_size_insert, Hn, decide_True by done. lia.
  - split; [done|]. rewrite decide_False by done. lia.
  - split; [done|]. rewrite decide_False by done. unfold row_count. cbn. lia.
  - split; [by eapply written_frame|].
    unfold row_count. rewrite lookup_with_stream, Hr. destruct Hwr as (rw & _ & _ & _ & _ & Hc & _).
    rewrite Hc, map_size_insert, Hrow, decide_False by done. cbn. lia.
Qed.

Lemma unexpected_record_ok k w candle t : quarantine_row_ok (unexpected_record k w candle t) = true.
Proof. unfold quarantine_row_ok, unexpected_record. cbn. lia. Qed.

Definition total (counts : Counts) : Z :=
  counts COMMITTED + counts DUPLICATE + counts CORRECTED + counts REJECTED_INVALID +
  counts REJECTED_UNCONFIGURED + counts REJECTED_UNCONFIRMED.

Lemma total_bump counts cls : total (bump counts cls) = total counts + 1.
Proof. unfold total, bump. destruct cls; repeat case_decide; simplify_eq; lia. Qed.

Lemma bump_committed counts cls :
  bump counts cls COMMITTED = counts COMMITTED + if decide (cls = COMMITTED) then 1 else 0.
Proof. unfold bump. destruct cls; repeat case_decide; simplify_eq; lia. Qed.

(** The readings of the clock a loop makes move only the clock. *)
Lemma import_loop_correct `{E : Env} k w db n c candles counts unexpected a :
  store_inv a → is_Some (ab_streams a !! k) → Forall (λ cd, ohlcv_parsed (oc_values cd)) candles →
  ∃ counts' unexpected' a' n',
    run (import_loop k w candles counts unexpected) (mkWorld db (Some a) n c) =
      (Ok (counts', unexpected'), mkWorld db (Some a') n' c) ∧
    store_inv a' ∧ import_frame k w a a' ∧
    total counts' + unexpected' = total counts + unexpected + Z.of_nat (length candles) ∧
    Z.of_nat (row_count a' k) - counts' COMMITTED = Z.of_nat (row_count a k) - counts COMMITTED.
Proof.
  revert n counts unexpected a. induction candles as [|cd candles IH];
    intros n counts unexpected a Hinv Hk HF; cbn [import_loop].
  - eexists _, _, _, _. split; [reflexivity|]. split; [done|]. split; [done|]. cbn. lia.
  - apply Forall_cons in HF as [Hp HF]. destruct (is_expected k w cd) eqn:Hex; cbn [negb];
      rewrite run_bind, run_now; unfold tick; cbn [w_db w_tx w_ticks w_calls]; rewrite run_bind.
    + unfold is_expected in Hex. bool_hyps. subst k.
      destruct (ingest_correct (db:=db) (n:=Datatypes.S n) (c:=c) a cd (env_clock n) Hinv Hp)
        as (res & a1 & -> & Ho & Hi).
      destruct (outcome_frame w a cd (env_clock n) res a1) as [Hf Hsz]; [done|done|].
      destruct (IH (Datatypes.S n) (bump counts (ing_classification res)) unexpected a1)
        as (counts' & u' & a' & n' & -> & Hi' & Hf' & Ht & Hc); [done|by apply (if_stream _ _ _ _ Hf)|done|].
      exists counts', u', a', n'. split; [done|]. split; [done|]. split; [by etrans|].
      rewrite total_bump in Ht. rewrite bump_committed, Hsz in Hc. cbn [length].
      destruct (decide _); lia.
    + rewrite run_quarantine by (done || apply unexpected_record_ok).
      destruct (IH (Datatypes.S n) counts (unexpected + 1)
        (with_quarantine a (unexpected_record k w cd (env_clock n))))
        as (counts' & u' & a' & n' & -> & Hi' & Hf' & Ht & Hc); [done|done|done|].
      exists counts', u', a', n'. split; [done|]. split; [done|]. split.
      * etrans; [|exact Hf']. by apply import_frame_same.
      * cbn [length]. unfold row_count in Hc at 2. cbn in Hc. fold (row_count a k) in Hc. lia.
Qed.

(** The import, given what the exchange answered. *)
Lemma run_import_window `{E : Env} k w a n c l :
  store_inv a → is_Some (ab_streams a !! k) →
  env_fetch_closed_candles c k w (env_clock n) = Ok l →
  Forall (λ cd, ohlcv_parsed (oc_values cd)) l →
  ∃ counts unexpected a' n',
    run (import_window k w) (mkWorld a None n c) =
      (Ok (import_result (Z.of_nat (length l)) counts unexpected), mkWorld a' None n' (S c)) ∧
    store_inv a' ∧ import_frame k w a a' ∧
    total counts + unexpected = Z.of_nat (length l) ∧
    Z.of_nat (row_count a' k) = Z.of_nat (row_count a k) + counts COMMITTED.
Proof.
  intros Hinv Hk Hf HF. unfold import_window. rewrite run_bind, run_now, run_bind. cbn [run call handle].
  unfold tick, called. cbn [w_db w_tx w_ticks w_calls]. rewrite Hf. cbn [run].
  rewrite run_bind, run_with_uow, run_bind.
  destruct (import_loop_correct k w a (S n) (S c) l no_counts 0 a) as
    (counts & u & a' & n' & -> & Hi & Hfr & Ht & Hc); [done..|].
  rewrite run_bind, run_commit, run_ret. cbn [set_tx w_db w_ticks w_calls]. rewrite run_ret.
  exists counts, u, a', n'. split; [done|]. split; [done|]. split; [done|].
  unfold total at 2, no_counts in Ht. unfold no_counts in Hc. lia.
Qed.

Lemma run_import_window_failed `{E : Env} k w a n c e :
  env_fetch_closed_candles c k w (env_clock n) = Raise e →
  run (import_window k w) (mkWorld a None n c) = (Raise e, mkWorld a None (S n) (S c)).
Proof.
  intros Hf. unfold import_window. rewrite run_bind, run_now, run_bind. cbn [run call handle].
  unfold tick, called. cbn [w_db w_tx w_ticks w_calls]. by rewrite Hf.
Qed.

(** ** Properties *)

(** C11. Importing a window of a registered stream accounts for every candle the exchange
    returned, commits all of them in one transaction that adds as many rows as it counts
    committed, and changes nothing but rows of that stream inside that window (and its latest
    candle); a failed fetch raises and leaves the store as it was. *)
Theorem import_window_exact `{E : Env} (k : StreamKey) (w : TimeWindow) (a : AbsStore) (n c : nat) :
  store_inv a → is_Some (ab_streams a !! k) →
  (∀ l, env_fetch_closed_candles c k w (env_clock n) = Ok l →
        Forall (λ cd, ohlcv_parsed (oc_values cd)) l) →
  match run (import_window k w) (mkWorld a None n c) with
  | (Ok r, world) =>
      ∃ l a', env_fetch_closed_candles c k w (env_clock n) = Ok l ∧ w_db world = a' ∧
        w_tx world = None ∧ store_inv a' ∧ import_frame k w a a' ∧
        iw_observed r = Z.of_nat (length l) ∧
        iw_committed r + iw_duplicates r + iw_corrected r + iw_rejected r + iw_unexpected r =
          iw_observed r ∧
        Z.of_nat (row_count a' k) = Z.of_nat (row_count a k) + iw_committed r
  | (Raise e, world) =>
      env_fetch_closed_candles c k w (env_clock n) = Raise e ∧ w_db world = a ∧ w_tx world = None
  end.
Proof.
  intros Hinv Hk Hl. destruct (env_fetch_closed_candles c k w (env_clock n)) as [l|e] eqn:Ef.
  - destruct (run_import_window k w a n c l) as (counts & u & a' & n' & -> & Hi & Hf & Ht & Hc);
      [done|done|done|by apply Hl|].
    exists l, a'. do 6 (split; [done|]). unfold import_result, total in *. cbn. lia.
  - by rewrite (run_import_window_failed k w a n c e).
Qed.

Definition import_env : Env := {|
  env_clock := λ n, 1000000 + Z.of_nat n;
  env_fetch_closed_candles := λ _ k _ _,
    Ok [example_candle 0 11 BYBIT_REST; example_candle 60000 11 BYBIT_REST;
        example_candle 60000 10 BYBIT_REST; example_candle 60000 10 BYBIT_REST;
        example_candle 600000 10 BYBIT_REST; example_candle 90000 10 BYBIT_REST];
  env_fetch_open_interest := λ _ _ _ _, Ok [];
  env_launch_time_ms := λ _ _, Ok 0;
  env_specification := λ _ i, Specification_new i "BTCUSDT" "linear" "LinearPerpetual" "Trading" "USDT" 0
|}.

#[local] Existing Instance import_env.

Lemma import_window_exact_witness :
  let w := mkTimeWindow 0 120000 in
  (run (S:=AbsStore) (import_window example_stream w) (mkWorld example_store None 0 0)).1 =
    Ok (mkImportResult 6 2 1 1 1 1) ∧
  match run (import_window example_stream w) (mkWorld example_store None 0 0) with
  | (Ok r, world) =>
      ∃ l a', env_fetch_closed_candles 0 example_stream w (env_clock 0) = Ok l ∧ w_db world = a' ∧
        w_tx world = None ∧ store_inv a' ∧ import_frame example_stream w example_store a' ∧
        iw_observed r = Z.of_nat (length l) ∧
        iw_committed r + iw_duplicates r + iw_corrected r + iw_rejected r + iw_unexpected r =
          iw_observed r ∧
        Z.of_nat (row_count a' example_stream) =
          Z.of_nat (row_count example_store example_stream) + iw_committed r
  | (Raise e, world) =>
      env_fetch_closed_candles 0 example_stream w (env_clock 0) = Raise e ∧
      w_db world = example_store ∧ w_tx world = None
  end.
Proof.
  intros w. split; [by vm_compute|].
  apply (import_window_exact (E:=import_env) example_stream w example_store 0 0);
    [apply example_store_inv|by vm_compute; eexists|].
  intros l [= <-]. repeat (constructor; [by apply example_candle_parsed|]). constructor.
Defined.
