(* ===== verification/UseCase.v ===== *)
(** * Reasoning about use cases

    [keeps I m]: the program [m] keeps an invariant [I] of the committed store and of the
    open transaction, whatever it returns or raises.  [good k a0] is the invariant of a use
    case on the stream [k] started in the store [a0]: the store stays canonical, the other
    streams stay as they were, and no stored row of [k] disappears.

    [update_state] is the pattern of every write of a lifecycle snapshot: one unit of work
    that gets the snapshot, computes the next one, saves it when there is one, and
    commits.  application/source_failure.py and application/stream_failure.py are the
    first use cases in that form. *)

From S2P Require Import Prelude PyStr DecimalValues Timeframes Identity Gaps Candles StreamState.
From S2P Require Import Instruments OpenInterest Storage AbsStore Ingest ImportWindow.

(** ** The shared patterns *)

(** [with uow: return uow.get_stream_state(stream)] *)
Definition read_state (k : StreamKey) : M StreamStateSnapshot :=
  with_uow (op (GetStreamState k)).

(** [with uow: s = get; (save(f(s))); commit] *)
Definition update_state (k : StreamKey)
    (f : StreamStateSnapshot → res (option StreamStateSnapshot)) : M () :=
  with_uow (
    snapshot ← op (GetStreamState k);
    next ← lift (f snapshot);
    _ ← match next with Some s => op (SaveStreamState s) | None => mret () end;
    commit).

(** ** application/source_failure.py *)

Inductive SourceFailureDisposition := RECOVERABLE | FATAL.

#[export] Instance SourceFailureDisposition_eq_dec : EqDecision SourceFailureDisposition.
Proof. solve_decision. Defined.

Record SourceFailureDecision := mkDecision {
  sf_disposition : SourceFailureDisposition;
  sf_target_state : StreamLifecycleState;
  sf_code : string;
  sf_detail : string
}.

Definition classify_source_failure (exc : exn) : SourceFailureDecision :=
  let recoverable := is_recoverable_failure exc in
  mkDecision (if recoverable then RECOVERABLE else FATAL)
    (if recoverable then DEGRADED else FAILED) (class_name (exn_cls exc)) (exn_str exc).

(** ** application/stream_failure.py *)

(** The snapshot a failure leads to: the transition, or only the error when the lifecycle
    does not allow it. *)
Definition failed_snapshot (decision : SourceFailureDecision) (changed_at_ms : Z)
    (s : StreamStateSnapshot) : res (option StreamStateSnapshot) :=
  match transition_stream_state s (sf_target_state decision) changed_at_ms
          (Some (sf_code decision)) (Some (sf_detail decision)) with
  | Ok s' => Ok (Some s')
  | Raise e =>
      if isinstance e ExcInvalidStreamTransition then
        Some <$> snapshot_check
          (set_updated (set_error s (Some (sf_code decision)) (Some (sf_detail decision)))
             changed_at_ms)
      else Raise e
  end.

Definition record_stream_failure (k : StreamKey) (exc : exn) (now : Z) : M SourceFailureDecision :=
  let decision := classify_source_failure exc in
  _ ← update_state k (failed_snapshot decision now);
  mret decision.

(** ** Programs that keep an invariant *)

Section keeps.
Context {S : Type} {ST : Storage S} {E : Env} (I : S → Prop).

Definition holds_in (w : World S) : Prop := I (w_db w) ∧ ∀ s, w_tx w = Some s → I s.

(** The invariant is kept, and a program started with no transaction open leaves none. *)
Definition keeps {A} (m : prog A) : Prop := ∀ w, holds_in w →
  holds_in (run m w).2 ∧ (w_tx w = None → w_tx (run m w).2 = None).

Lemma keeps_pret {A} (a : A) : keeps (PRet a).
Proof. by intros w. Qed.

Lemma keeps_pbind {A B} (m : prog A) (f : A → prog B) :
  keeps m → (∀ a, keeps (f a)) → keeps (pbind m f).
Proof.
  intros Hm Hf w Hw. rewrite run_pbind. destruct (Hm w Hw) as [H1 H2]. destruct (run m w) as [a w'].
  destruct (Hf a w' H1) as [H3 H4]. auto.
Qed.

Lemma keeps_ret {A} (a : A) : keeps (mret (M:=M) a).
Proof. apply keeps_pret. Qed.
Lemma keeps_lift {A} (r : res A) : keeps (lift r).
Proof. apply keeps_pret. Qed.
Lemma keeps_throw {A} e : keeps (throw (A:=A) e).
Proof. apply keeps_pret. Qed.

Lemma keeps_bind {A B} (m : M A) (f : A → M B) :
  keeps m → (∀ a, keeps (f a)) → keeps (x ← m; f x).
Proof. intros Hm Hf. apply keeps_pbind; [done|]. intros [a|e]; [apply Hf|apply keeps_pret]. Qed.

Lemma keeps_try {A} (m : M A) (h : exn → M A) :
  keeps m → (∀ e, keeps (h e)) → keeps (try_catch m h).
Proof. intros Hm Hh. apply keeps_pbind; [done|]. intros [a|e]; [apply keeps_pret|apply Hh]. Qed.

Lemma keeps_attempt {A} (m : M A) : keeps m → keeps (attempt m).
Proof. intros Hm. apply keeps_pbind; [done|]. intros ?. apply keeps_pret. Qed.

Lemma keeps_now : keeps now_ms.
Proof. by intros w. Qed.

Lemma keeps_fetch {A} (e : event (res A)) :
  (∀ w, w_db (handle e w).2 = w_db w ∧ w_tx (handle e w).2 = w_tx w) → keeps (call e).
Proof.
  intros H w [Hdb Htx]. unfold call. cbn. destruct (H w) as [H1 H2].
  destruct (handle e w) as [r w']. cbn in *. rewrite H2. split; [|done]. split; [by rewrite H1|].
  intros s. rewrite H2. apply Htx.
Qed.

Lemma keeps_fetch_candles k win t : keeps (call (EvFetchCandles k win t)).
Proof. by apply keeps_fetch. Qed.
Lemma keeps_fetch_oi k win t : keeps (call (EvFetchOpenInterest k win t)).
Proof. by apply keeps_fetch. Qed.
Lemma keeps_launch i : keeps (call (EvLaunchTime i)).
Proof. by apply keeps_fetch. Qed.
Lemma keeps_specification i : keeps (call (EvSpecification i)).
Proof. by apply keeps_fetch. Qed.
Lemma keeps_read {A} (o : store_op A) : keeps (read_op o).
Proof. by apply keeps_fetch. Qed.

Lemma keeps_commit : keeps commit.
Proof.
  intros w [Hdb Htx]. unfold commit, call. cbn. destruct (w_tx w) as [s|] eqn:Ew; cbn.
  - split; [|done]. split; cbn; [by apply Htx|]. rewrite Ew. exact Htx.
  - by repeat split; rewrite ?Ew.
Qed.

Lemma keeps_op {A} (o : store_op A) : (∀ s, I s → I (store_step o s).2) → keeps (op o).
Proof.
  intros Ho w [Hdb Htx]. unfold op, call. cbn. destruct (w_tx w) as [s|] eqn:Ew; cbn.
  - specialize (Ho s (Htx s eq_refl)). destruct (store_step o s) as [r s']. cbn in *.
    split; [|done]. split; [done|]. by intros ? [= <-].
  - by repeat split; rewrite ?Ew.
Qed.

(** A block whose world is known: enough to look at it with no transaction open. *)
Lemma keeps_block {A} (body : M A) :
  (∀ a n c, I a → I (w_db (run body (mkWorld a (Some a) n c)).2)) → keeps (with_uow body).
Proof.
  intros H [db [s|] n c] [Hdb Htx]; [by repeat split|]. rewrite run_with_uow.
  specialize (H db n c Hdb). destruct (run body _) as [r w]. by repeat split.
Qed.

Lemma keeps_with_uow {A} (body : M A) : keeps body → keeps (with_uow body).
Proof.
  intros Hb. apply keeps_block. intros a n c Ha.
  assert (Hw : holds_in (mkWorld a (Some a) n c)) by (split; [done|by intros s [= <-]]).
  by destruct (Hb _ Hw) as [[Hdb _] _].
Qed.

Lemma keeps_for_each {A} (l : list A) (body : A → M ()) :
  (∀ x, keeps (body x)) → keeps (for_each l body).
Proof.
  intros Hb. induction l as [|x l IH]; cbn; [apply keeps_ret|]. by apply keeps_bind.
Qed.
End keeps.

(** The continuation of a pure step may use its value. *)
Lemma keeps_lift_bind {S A B} `{ST : Storage S} `{E : Env} (I : S → Prop) (r : res A) (f : A → M B) :
  (∀ a, r = Ok a → keeps I (f a)) → keeps I (x ← lift r; f x).
Proof. intros H w Hw. rewrite run_bind, run_lift. destruct r as [a|e]; [by apply H|by split]. Qed.

Lemma keeps_fold_m {S A B} `{ST : Storage S} `{E : Env} (I : S → Prop) (f : B → A → M B) b l :
  (∀ b x, keeps I (f b x)) → keeps I (fold_m f b l).
Proof.
  intros Hf. revert b. induction l as [|x l IH]; intros b; cbn [fold_m]; [apply keeps_ret|].
  apply keeps_bind; [apply Hf|intros b'; apply IH].
Qed.

#[export] Hint Resolve keeps_pret keeps_ret keeps_lift keeps_throw keeps_now keeps_commit
  keeps_fetch_candles keeps_fetch_oi keeps_launch keeps_specification keeps_read : keeps.

(** Prove [keeps] along the structure of the program. *)
Ltac keeps_tac :=
  repeat match goal with
  | |- keeps _ (mbind _ _) => apply keeps_bind; [|intros ?]
  | |- keeps _ (try_catch _ _) => apply keeps_try; [|intros ?]
  | |- keeps _ (attempt _) => apply keeps_attempt
  | |- keeps _ (match ?x with _ => _ end) => destruct x
  | |- keeps _ _ => solve [eauto with keeps]
  | |- keeps _ (with_uow _) => apply keeps_with_uow
  | |- ∀ _, keeps _ _ => intros ?
  end.

(** ** The invariant of a use case on one stream *)

Record stream_frame (k : StreamKey) (a a' : AbsStore) : Prop := {
  sfr_others : ∀ k', k' ≠ k → ab_streams a' !! k' = ab_streams a !! k';
  sfr_stream : is_Some (ab_streams a !! k) ↔ is_Some (ab_streams a' !! k);
  sfr_rows : ∀ r r', ab_streams a !! k = Some r → ab_streams a' !! k = Some r' →
             ∀ t, (is_Some (sr_candles r !! t) → is_Some (sr_candles r' !! t)) ∧
                  (is_Some (sr_oi r !! t) → is_Some (sr_oi r' !! t))
}.

#[export] Instance stream_frame_preorder k : PreOrder (stream_frame k).
Proof.
  split.
  - intros a. split; try done. intros r r' -> [= <-]. done.
  - intros a b c [H1 H2 H3] [H1' H2' H3']. split.
    + intros k' Hk. by rewrite H1', H1.
    + by rewrite H2.
    + intros r r'' Hr Hr'' t. destruct (proj1 H2 (ex_intro _ r Hr)) as [r' Hr'].
      destruct (H3 r r' Hr Hr' t), (H3' r' r'' Hr' Hr'' t). auto.
Qed.

Definition good (k : StreamKey) (a0 a : AbsStore) : Prop := store_inv a ∧ stream_frame k a0 a.

Lemma good_refl k a : store_inv a → good k a a.
Proof. by split. Qed.

Lemma good_trans k a0 a a' : good k a0 a → store_inv a' → stream_frame k a a' → good k a0 a'.
Proof. intros [_ Hf] Hi Hf'. split; [done|]. by etrans. Qed.

(** A new snapshot for the stream. *)
Lemma stream_inv_upd_state k r s :
  stream_inv k r → ss_stream s = k → snapshot_valid s →
  latest_committed_open_time_ms s = latest_committed_open_time_ms (sr_state r) →
  stream_inv k (upd_state r s).
Proof. intros [H1 H2 H3 H4] Hk Hv Hl. split; try done. cbn. by rewrite Hl. Qed.

Lemma good_upd_state k a0 a r s :
  good k a0 a → ab_streams a !! k = Some r → ss_stream s = k → snapshot_valid s →
  latest_committed_open_time_ms s = latest_committed_open_time_ms (sr_state r) →
  good k a0 (with_stream a k (upd_state r s)).
Proof.
  intros Hg Hr Hk Hv Hl. destruct Hg as [Hi Hf] eqn:Eg.
  assert (Hri : stream_inv k (upd_state r s)) by (apply stream_inv_upd_state; eauto with mds).
  eapply good_trans; [exact Hg|by apply store_inv_with_stream|]. split; cbn.
  - intros k' Hne. by rewrite lookup_insert_ne.
  - rewrite lookup_insert_eq, Hr. split; by eexists.
  - intros r0 r1 Hr0. rewrite lookup_insert_eq. intros [= <-] t. by assert (r0 = r) as -> by congruence.
Qed.

(** A step of the lifecycle that keeps the latest candle and the stream. *)
Definition state_step (k : StreamKey)
    (f : StreamStateSnapshot → res (option StreamStateSnapshot)) : Prop :=
  ∀ s s', snapshot_valid s → ss_stream s = k → f s = Ok (Some s') →
    ss_stream s' = k ∧ snapshot_valid s' ∧
    latest_committed_open_time_ms s' = latest_committed_open_time_ms s.

(** What an update of the snapshot does, in a transaction of its own. *)
Lemma run_update_state `{E : Env} a n c k r f :
  store_inv a → ab_streams a !! k = Some r → state_step k f →
  run (update_state k f) (mkWorld a None n c) =
  match f (sr_state r) with
  | Ok (Some s) => (Ok (), mkWorld (with_stream a k (upd_state r s)) None n c)
  | Ok None => (Ok (), mkWorld a None n c)
  | Raise e => (Raise e, mkWorld a None n c)
  end.
Proof.
  intros Hi Hr Hf. pose proof (store_inv_lookup _ _ _ Hi Hr) as [Hk Hv _ _].
  unfold update_state. rewrite run_with_uow, run_bind, (run_get_state a k r) by done.
  rewrite run_bind, run_lift. destruct (f (sr_state r)) as [[s|]|e] eqn:Ef; [| |done].
  - destruct (Hf (sr_state r) s Hv Hk Ef) as (Hk' & Hv' & _).
    by rewrite run_bind, (run_save_state a k r s), run_commit by done.
  - by rewrite run_bind, run_ret, run_commit.
Qed.

Lemma run_get_state_unregistered `{E : Env} (db a : AbsStore) n c k :
  ab_streams a !! k = None →
  run (op (GetStreamState k)) (mkWorld db (Some a) n c) =
    (key_error (stream_canonical_id k), mkWorld db (Some a) n c).
Proof. intros H. rewrite run_op. cbn [store_step abs_storage]. unfold read_stream. by rewrite H. Qed.

Lemma run_read_state `{E : Env} a n c k r :
  store_inv a → ab_streams a !! k = Some r →
  run (read_state k) (mkWorld a None n c) = (Ok (sr_state r), mkWorld a None n c).
Proof.
  intros Hi Hr. pose proof (store_inv_lookup _ _ _ Hi Hr) as [_ Hv _ _].
  unfold read_state. by rewrite run_with_uow, (run_get_state a k r).
Qed.

Lemma keeps_update_state `{E : Env} k a0 f : state_step k f → keeps (good k a0) (update_state k f).
Proof.
  intros Hf w Hw. destruct w as [db [s|] n c]; [by split|].
  destruct Hw as [Hdb _]. cbn in Hdb. destruct (ab_streams db !! k) as [r|] eqn:Hr.
  - pose proof Hdb as [Hi _]. rewrite (run_update_state db n c k r f) by done.
    pose proof (store_inv_lookup _ _ _ Hi Hr) as [Hk Hv _ _].
    destruct (f (sr_state r)) as [[s|]|e] eqn:Ef; [|by (split; [split|])..].
    destruct (Hf (sr_state r) s Hv Hk Ef) as (Hk' & Hv' & Hl'). split; [|done]. split; [|done].
    by apply good_upd_state.
  - unfold update_state. rewrite run_with_uow, run_bind, run_get_state_unregistered by done.
    by (split; [split|]).
Qed.

(** Operations of the store that only read. *)
Definition reads {A} (o : store_op A) : bool :=
  match o with
  | StreamExists _ | GetInstrumentMetadata _ | GetCandle _ _ | ListCandles _ _ _
  | ListCandlesWithOpenInterest _ _ _ | GetCommittedCandleBounds _ | GetStreamState _
  | GetOpenInterest _ _ | ListOpenInterestTimes _ _ _ | GetTrackProgress _ _ => true
  | _ => false
  end.

Lemma reads_state {A} (o : store_op A) (a : AbsStore) : reads o = true → (store_step o a).2 = a.
Proof. by destruct o. Qed.

Lemma keeps_reads `{E : Env} {A} (I : AbsStore → Prop) (o : store_op A) :
  reads o = true → keeps I (op o).
Proof. intros Ho. apply keeps_op. intros s Hs. by rewrite reads_state. Qed.
#[export] Hint Extern 2 (keeps _ (op _)) => (apply keeps_reads; reflexivity) : keeps.

Lemma keeps_read_state `{E : Env} k k' a0 : keeps (good k a0) (read_state k').
Proof. unfold read_state. keeps_tac. Qed.

#[export] Hint Resolve keeps_read_state : keeps.

(** *** Steps of the lifecycle *)

Lemma state_step_none k : state_step k (λ _, Ok None).
Proof. by intros s s'. Qed.

Lemma state_step_check k (g : StreamStateSnapshot → StreamStateSnapshot) :
  (∀ s, ss_stream (g s) = ss_stream s ∧
        latest_committed_open_time_ms (g s) = latest_committed_open_time_ms s) →
  state_step k (λ s, Some <$> snapshot_check (g s)).
Proof.
  intros Hg s s' Hv Hk H. destruct (snapshot_check (g s)) as [s1|] eqn:E; [|done].
  injection H as <-. apply snapshot_check_ok in E as [-> Hv']. destruct (Hg s) as [H1 H2].
  by rewrite H1.
Qed.

Lemma state_step_transition k target t code detail :
  state_step k (λ s, Some <$> transition_stream_state s target (t s) code detail).
Proof.
  intros s s' Hv Hk H. destruct (transition_stream_state s target (t s) code detail) as [s1|] eqn:E; [|done].
  injection H as <-. assert (Hst : snapshot_step s s1) by (by exists target, (t s), code, detail).
  apply snapshot_step_facts in Hst as (Hv' & Hd & _); [|done].
  unfold same_data in Hd. by destruct Hd as (-> & _ & _ & -> & _).
Qed.

Lemma state_step_if k (b : StreamStateSnapshot → bool) f g :
  state_step k f → state_step k g → state_step k (λ s, if b s then f s else g s).
Proof. intros Hf Hg s s'. destruct (b s); [apply Hf|apply Hg]. Qed.

Lemma state_step_raise k e : state_step k (λ _, Raise e).
Proof. by intros s s'. Qed.

Lemma state_step_failed k decision (t : StreamStateSnapshot → Z) :
  state_step k (λ s, failed_snapshot decision (t s) s).
Proof.
  intros s s' Hv Hk H. unfold failed_snapshot in H.
  destruct (transition_stream_state _ _ _ _ _) as [s1|e] eqn:E.
  - injection H as <-. apply (state_step_transition k (sf_target_state decision) t
      (Some (sf_code decision)) (Some (sf_detail decision)) s s1); [done..|]. by rewrite E.
  - destruct (isinstance _ _); [|done].
    by apply (state_step_check k (λ s0, set_updated (set_error s0 (Some (sf_code decision))
      (Some (sf_detail decision))) (t s0))) in H.
Qed.

#[export] Hint Resolve state_step_none state_step_transition state_step_if state_step_raise : mds.

Lemma keeps_record_stream_failure `{E : Env} k a0 exc now :
  keeps (good k a0) (record_stream_failure k exc now).
Proof.
  unfold record_stream_failure. cbv zeta. apply keeps_bind; [|intros; apply keeps_ret].
  apply keeps_update_state. apply (state_step_failed k _ (λ _, now)).
Qed.
#[export] Hint Resolve keeps_record_stream_failure : keeps.

(** *** Ingestion and import *)

Lemma import_frame_stream k w a a' : import_frame k w a a' → stream_frame k a a'.
Proof.
  intros [H1 _ H3 H4]. split; [done|done|].
  intros r r' Hr Hr' t. destruct (H4 r r' Hr Hr') as (_ & Hc & Ho & _). split; [apply Hc|by rewrite Ho].
Qed.

Lemma good_outcome k a0 a candle t res a' :
  good k a0 a → oc_stream candle = k → ingest_outcome a candle t res a' → store_inv a' →
  good k a0 a'.
Proof.
  intros Hg Hk Ho Hi. eapply good_trans; [exact Hg|done|].
  apply (import_frame_stream k (mkTimeWindow (oc_open_time_ms candle) (oc_open_time_ms candle + 1))).
  subst k. eapply (proj1 (outcome_frame _ _ _ _ _ _ _ Ho)).
  Unshelve. apply window_contains_spec. cbn. lia.
Qed.

Lemma keeps_ingest `{E : Env} k a0 candle t :
  oc_stream candle = k → ohlcv_parsed (oc_values candle) →
  keeps (good k a0) (ingest_in_uow candle t).
Proof.
  intros Hk Hp [db [s|] n c] [Hdb Htx]; [|by (split; [split|])]. cbn in Htx.
  destruct (Htx s eq_refl) as [Hi Hf].
  destruct (ingest_correct (db:=db) (n:=n) (c:=c) s candle t Hi Hp) as (res & a' & -> & Ho & Hi').
  split; [|done]. split; [done|]. intros ? [= <-]. eapply (good_outcome k a0 s); [by split|exact Hk|exact Ho|exact Hi'].
Qed.
#[export] Hint Resolve keeps_ingest : keeps.

Lemma good_quarantine k a0 a q : good k a0 a → good k a0 (with_quarantine a q).
Proof. intros [Hi [H1 H2 H3]]. by split; [|split]. Qed.

Lemma keeps_quarantine `{E : Env} k a0 q : keeps (good k a0) (op (RecordQuarantine q)).
Proof.
  apply keeps_op. intros s Hs. cbn [store_step abs_storage]. unfold abs_record_quarantine.
  destruct (ab_streams s !! q_stream q); [|done].
  destruct (quarantine_row_ok q); [|done]. by apply good_quarantine.
Qed.

Lemma keeps_quarantine_once `{E : Env} k a0 q : keeps (good k a0) (op (RecordQuarantineOnce q)).
Proof.
  apply keeps_op. intros s Hs. cbn [store_step abs_storage].
  unfold abs_record_quarantine_once, abs_record_quarantine.
  destruct (ab_streams s !! q_stream q); [|done]. destruct (existsb _ _); [done|].
  destruct (quarantine_row_ok q); [|done]. by apply good_quarantine.
Qed.

Lemma keeps_save_metadata `{E : Env} k a0 m : keeps (good k a0) (op (SaveInstrumentMetadata m)).
Proof.
  apply keeps_op. intros s Hs. cbn [store_step abs_storage]. unfold abs_save_metadata.
  destruct (im_fetched_at_ms m); [|done]. cbv zeta. destruct (ab_instruments s !! _); [|done].
  destruct (_ || _); [done|]. destruct (symbol_taken _ _ _); [done|].
  destruct Hs as [Hi [H1 H2 H3]]. by split; [|split].
Qed.
#[export] Hint Resolve keeps_quarantine keeps_quarantine_once keeps_save_metadata : keeps.

(** The exchange adapter builds candles and points with their constructors. *)
Class EnvOk `{E : Env} : Prop :=
  env_candles_parsed : ∀ c k w t l,
    env_fetch_closed_candles c k w t = Ok l → Forall (λ cd, ohlcv_parsed (oc_values cd)) l.

Lemma keeps_import_loop `{E : Env} k a0 w l counts unexpected :
  Forall (λ cd, ohlcv_parsed (oc_values cd)) l →
  keeps (good k a0) (import_loop k w l counts unexpected).
Proof.
  intros HF. revert counts unexpected. induction HF as [|cd l Hp HF IH]; intros counts unexpected;
    cbn [import_loop]; [apply keeps_ret|].
  destruct (is_expected k w cd) eqn:Hex; cbn [negb].
  - unfold is_expected in Hex. bool_hyps. keeps_tac.
  - keeps_tac.
Qed.

(** The continuation of a fetch may use what the adapter guarantees. *)
Lemma keeps_fetch_bind `{E : Env} `{!EnvOk} {B} (I : AbsStore → Prop) k w t
    (f : list ObservedCandle → M B) :
  (∀ l, Forall (λ cd, ohlcv_parsed (oc_values cd)) l → keeps I (f l)) →
  keeps I (l ← call (EvFetchCandles k w t); f l).
Proof.
  intros Hf wd Hw. rewrite run_bind. cbn. pose proof (env_candles_parsed (w_calls wd) k w t) as Hp.
  destruct (env_fetch_closed_candles (w_calls wd) k w t) as [l|e]; [|by destruct Hw; (split; [split|])].
  apply (Hf l (Hp l eq_refl) (called wd)). by destruct Hw; split.
Qed.

Lemma keeps_import_window `{E : Env} `{!EnvOk} k a0 w : keeps (good k a0) (import_window k w).
Proof.
  unfold import_window. apply keeps_bind; [auto with keeps|intros t]. apply keeps_fetch_bind.
  intros l HF. apply keeps_bind.
  - apply keeps_with_uow. apply keeps_bind; [by apply keeps_import_loop|]. keeps_tac.
  - keeps_tac.
Qed.
#[export] Hint Resolve keeps_import_window : keeps.

(** ** Properties *)

Lemma failed_snapshot_ok exc t s s' :
  snapshot_valid s → failed_snapshot (classify_source_failure exc) t s = Ok (Some s') →
  let target := if is_recoverable_failure exc then DEGRADED else FAILED in
  ss_state s' = (if can_transition (ss_state s) target then target else ss_state s) ∧
  last_error_code s' = Some (class_name (exn_cls exc)) ∧
  last_error_detail s' = Some (exn_str exc) ∧ updated_at_ms s' = t.
Proof.
  intros Hv H target. unfold failed_snapshot in H. cbn [sf_target_state classify_source_failure] in H.
  fold target in H. destruct (transition_stream_state _ _ _ _ _) as [s1|e] eqn:E.
  - injection H as <-. apply transition_ok in E as (Hc & _ & ->); [|done].
    unfold lifecycle_step in Hc. rewrite Hc. unfold target, set_state. cbn.
    by destruct (is_recoverable_failure exc).
  - destruct (isinstance _ _) eqn:Ei; [|done].
    destruct (snapshot_check _) as [s1|] eqn:Es; [|done]. injection H as <-.
    apply snapshot_check_ok in Es as [-> _]. cbn.
    apply transition_error in E as [[Hn _]|(_ & _ & Hc)]; [| |done].
    + unfold lifecycle_step in Hn. fold target in Hn. by destruct (can_transition (ss_state s) target).
    + unfold isinstance in Ei. by rewrite Hc in Ei.
Qed.

Lemma failed_snapshot_error exc t s e :
  snapshot_valid s → failed_snapshot (classify_source_failure exc) t s = Raise e →
  exn_cls e = ExcValueError ∧ (t < updated_at_ms s ∨ t < 0).
Proof.
  intros Hv H. unfold failed_snapshot in H. destruct (transition_stream_state _ _ _ _ _) as [s1|e1] eqn:E;
    [done|]. pose proof (transition_error _ _ _ _ _ _ Hv E) as Ht. destruct (isinstance _ _) eqn:Ei.
  - destruct (snapshot_check _) as [s1|e2] eqn:Es; [done|]. injection H as <-.
    split; [by eapply snapshot_check_error|]. right.
    destruct (Z.le_gt_cases 0 t); [|lia]. rewrite snapshot_check_valid in Es; [done|].
    apply set_updated_valid; [by apply set_error_valid|done].
  - injection H as ->. destruct Ht as [[_ Hc]|(_ & Ht & Hc)]; [|by auto].
    unfold isinstance in Ei. by rewrite Hc in Ei.
Qed.

Lemma failed_snapshot_some exc t s : failed_snapshot (classify_source_failure exc) t s ≠ Ok None.
Proof.
  unfold failed_snapshot. destruct (transition_stream_state _ _ _ _ _); [done|].
  destruct (isinstance _ _); [|done]. by destruct (snapshot_check _).
Qed.

(** Recording the failure of a source puts the error on the stream in one transaction, moves
    it to [DEGRADED] (recoverable) or [FAILED] when the lifecycle allows, and never leaves it
    [READY]; the only refusal is a clock behind the stream, which changes nothing. *)
Theorem stream_failure_recorded `{E : Env} (k : StreamKey) (exc : exn) (now : Z) (a : AbsStore)
    (r : StreamRec) (n c : nat) :
  store_inv a → ab_streams a !! k = Some r →
  match run (record_stream_failure k exc now) (mkWorld a None n c) with
  | (Ok d, w) =>
      d = classify_source_failure exc ∧
      ∃ s', w = mkWorld (with_stream a k (upd_state r s')) None n c ∧ snapshot_valid s' ∧
        last_error_code s' = Some (class_name (exn_cls exc)) ∧
        last_error_detail s' = Some (exn_str exc) ∧ ss_state s' ≠ READY ∧
        ss_state s' = (if can_transition (ss_state (sr_state r)) (sf_target_state d)
                       then sf_target_state d else ss_state (sr_state r))
  | (Raise e, w) =>
      exn_cls e = ExcValueError ∧ w = mkWorld a None n c ∧
      (now < updated_at_ms (sr_state r) ∨ now < 0)
  end.
Proof.
  intros Hi Hr. pose proof (store_inv_lookup _ _ _ Hi Hr) as [Hk Hv _ _].
  unfold record_stream_failure. cbv zeta. rewrite run_bind.
  pose proof (state_step_failed k (classify_source_failure exc) (λ _, now)) as Hst.
  rewrite (run_update_state a n c k r) by done.
  destruct (failed_snapshot (classify_source_failure exc) now (sr_state r)) as [[s'|]|e] eqn:Ef.
  - rewrite run_ret. split; [done|]. exists s'. split; [done|].
    destruct (Hst (sr_state r) s' Hv Hk Ef) as (_ & Hv' & _). split; [done|].
    destruct (failed_snapshot_ok exc now (sr_state r) s' Hv Ef) as (Hs & Hc & Hd & _).
    do 2 (split; [done|]). rewrite Hs. cbn [sf_target_state classify_source_failure].
    split; [|done]. by destruct (ss_state (sr_state r)), (is_recoverable_failure exc).
  - by apply failed_snapshot_some in Ef.
  - by destruct (failed_snapshot_error exc now (sr_state r) e Hv Ef).
Qed.

#[local] Existing Instance example_env.

Lemma stream_failure_recorded_witness :
  let exc := Exn ExcBybitHttpError "timeout" in
  (run (record_stream_failure example_stream exc 20) (mkWorld example_store None 0 0)).1 =
    Ok (mkDecision RECOVERABLE DEGRADED "BybitHttpError" "timeout") ∧
  match run (record_stream_failure example_stream exc 20) (mkWorld example_store None 0 0) with
  | (Ok d, w) =>
      d = classify_source_failure exc ∧
      ∃ s', w = mkWorld (with_stream example_store example_stream (upd_state example_rec s')) None 0%nat 0%nat ∧
        snapshot_valid s' ∧ last_error_code s' = Some (class_name (exn_cls exc)) ∧
        last_error_detail s' = Some (exn_str exc) ∧ ss_state s' ≠ READY ∧
        ss_state s' = (if can_transition (ss_state (sr_state example_rec)) (sf_target_state d)
                       then sf_target_state d else ss_state (sr_state example_rec))
  | (Raise e, w) =>
      exn_cls e = ExcValueError ∧ w = mkWorld example_store None 0%nat 0%nat ∧
      (20 < updated_at_ms (sr_state example_rec) ∨ 20 < 0)
  end.
Proof.
  intros exc. split; [by vm_compute|].
  apply (stream_failure_recorded example_stream exc 20 example_store example_rec 0 0);
    [apply example_store_inv|reflexivity].
Defined.
