(* ===== verification/Backfill.v ===== *)
(** * Bounded backfill of one stream

    application/backfill_types.py and application/backfill_stream.py. *)

From S2P Require Import Prelude PyStr DecimalValues Timeframes Identity Gaps Candles StreamState.
From S2P Require Import Instruments OpenInterest Storage AbsStore Ingest ImportWindow UseCase.

Record BackfillStreamRequest := mkBackfillStream {
  bs_stream : StreamKey;
  bs_start_time_ms : Z;
  bs_end_time_ms : Z;
  bs_max_windows : Z;
  bs_resume_from_latest_committed : bool
}.

Definition BackfillStreamRequest_new (k : StreamKey) (start_time end_time max_windows : Z)
    (resume : bool) : res BackfillStreamRequest :=
  _ ← raise_if (end_time <=? start_time) ExcValueError
        "backfill range must satisfy start_time_ms < end_time_ms";
  _ ← raise_if (max_windows <=? 0) ExcValueError "max_windows must be positive";
  _ ← raise_if (negb (start_time mod stream_step k =? 0) || negb (end_time mod stream_step k =? 0))
        ExcValueError "backfill range must be aligned to stream timeframe";
  mret (mkBackfillStream k start_time end_time max_windows resume).

Record BackfillWindowResult := mkWindowResult {
  bw_window : TimeWindow;
  bw_observed : Z;
  bw_committed : Z;
  bw_duplicates : Z;
  bw_corrected : Z;
  bw_rejected : Z;
  bw_unexpected : Z
}.

Definition window_result (w : TimeWindow) (i : ImportWindowResult) : BackfillWindowResult :=
  mkWindowResult w (iw_observed i) (iw_committed i) (iw_duplicates i) (iw_corrected i)
    (iw_rejected i) (iw_unexpected i).

Record BackfillStreamResult := mkBackfillResult {
  bf_stream : StreamKey;
  bf_requested_window : TimeWindow;
  bf_attempted_windows : Z;
  bf_completed_windows : Z;
  bf_reached_end : bool;
  bf_next_start_time_ms : Z;
  bf_window_results : list BackfillWindowResult;
  bf_error_code : option string;
  bf_error_detail : option string;
  bf_failure_disposition : option SourceFailureDisposition
}.

(** [_ensure_bootstrapping] *)
Definition ensure_bootstrapping (k : StreamKey) : M () :=
  now ← now_ms;
  update_state k (λ s,
    if bool_decide (ss_state s = UNINITIALIZED ∨ ss_state s = DEGRADED)
    then Some <$> transition_stream_state s BOOTSTRAPPING now None None
    else Ok None).

(** [_record_window_success] *)
Definition record_window_success (k : StreamKey) : M () :=
  now ← now_ms;
  update_state k (λ s, Some <$> snapshot_check
    (set_updated (set_error (set_marks s (last_audit_at_ms s) (Some now) (last_ws_message_at_ms s))
                    None None) now)).

(** [_transition_to_auditing] *)
Definition transition_to_auditing (k : StreamKey) : M () :=
  now ← now_ms;
  update_state k (λ s,
    if bool_decide (ss_state s = BOOTSTRAPPING)
    then Some <$> transition_stream_state s AUDITING now None None
    else Ok None).

(** [_record_failure] *)
Definition record_failure (k : StreamKey) (exc : exn) : M SourceFailureDecision :=
  now ← now_ms;
  record_stream_failure k exc now.

(** [_resume_start] *)
Definition resume_start (request : BackfillStreamRequest) : M Z :=
  if negb (bs_resume_from_latest_committed request) then mret (bs_start_time_ms request)
  else
    snapshot ← read_state (bs_stream request);
    mret (match latest_committed_open_time_ms snapshot with
          | None => bs_start_time_ms request
          | Some latest => Z.max (bs_start_time_ms request) (latest + stream_step (bs_stream request))
          end).

Definition requested_window (request : BackfillStreamRequest) : TimeWindow :=
  mkTimeWindow (bs_start_time_ms request) (bs_end_time_ms request).

(** The [for window in islice(...)] loop: the results of the windows, or the result of the
    whole call when an import raised. *)
Fixpoint backfill_loop (request : BackfillStreamRequest) (windows : list TimeWindow)
    (results : list BackfillWindowResult) :
    M (list BackfillWindowResult + BackfillStreamResult) :=
  match windows with
  | [] => mret (inl results)
  | window :: windows =>
      imported ← attempt (import_window (bs_stream request) window);
      match imported with
      | Raise exc =>
          decision ← record_failure (bs_stream request) exc;
          mret (inr (mkBackfillResult (bs_stream request) (requested_window request)
            (Z.of_nat (length results) + 1) (Z.of_nat (length results)) false (start_ms window)
            results (Some (class_name (exn_cls exc))) (Some (exn_str exc))
            (Some (sf_disposition decision))))
      | Ok imported =>
          _ ← record_window_success (bs_stream request);
          backfill_loop request windows (results ++ [window_result window imported])
      end
  end.

(** [BackfillStreamHistory.execute] *)
Definition backfill_execute (max_candles_per_window : Z) (request : BackfillStreamRequest) :
    M BackfillStreamResult :=
  _ ← ensure_bootstrapping (bs_stream request);
  cursor ← resume_start request;
  requested ← lift (TimeWindow_new (bs_start_time_ms request) (bs_end_time_ms request));
  if bs_end_time_ms request <=? cursor then
    _ ← transition_to_auditing (bs_stream request);
    mret (mkBackfillResult (bs_stream request) requested 0 0 true (bs_end_time_ms request) []
            None None None)
  else
    gap ← lift (Gap_new cursor (bs_end_time_ms request));
    windows ← lift (iter_fetch_windows gap (stream_step (bs_stream request)) max_candles_per_window);
    outcome ← backfill_loop request (take (Z.to_nat (bs_max_windows request)) windows) [];
    match outcome with
    | inr result => mret result
    | inl results =>
        next_start_time_ms ←
          (if bs_resume_from_latest_committed request then resume_start request
           else mret (match last results with
                      | Some r => end_ms (bw_window r)
                      | None => cursor
                      end));
        let reached_end := bs_end_time_ms request <=? next_start_time_ms in
        _ ← (if reached_end then transition_to_auditing (bs_stream request) else mret ());
        mret (mkBackfillResult (bs_stream request) requested (Z.of_nat (length results))
                (Z.of_nat (length results)) reached_end
                (Z.min next_start_time_ms (bs_end_time_ms request)) results None None None)
    end.

(** ** Facts *)

Lemma ensure_bootstrapping_step k (now : Z) :
  state_step k (λ s,
    if bool_decide (ss_state s = UNINITIALIZED ∨ ss_state s = DEGRADED)
    then Some <$> transition_stream_state s BOOTSTRAPPING now None None else Ok None).
Proof.
  apply (state_step_if k (λ s, bool_decide _)); [|apply state_step_none].
  apply (state_step_transition k _ (λ _, now)).
Qed.

Lemma keeps_ensure_bootstrapping `{E : Env} k a0 : keeps (good k a0) (ensure_bootstrapping k).
Proof.
  unfold ensure_bootstrapping. apply keeps_bind; [auto with keeps|intros now].
  apply keeps_update_state, ensure_bootstrapping_step.
Qed.

Lemma keeps_record_window_success `{E : Env} k a0 : keeps (good k a0) (record_window_success k).
Proof.
  unfold record_window_success. apply keeps_bind; [auto with keeps|intros now].
  apply keeps_update_state. by apply (state_step_check k (λ s, set_updated _ now)).
Qed.

Lemma keeps_transition_to_auditing `{E : Env} k a0 : keeps (good k a0) (transition_to_auditing k).
Proof.
  unfold transition_to_auditing. apply keeps_bind; [auto with keeps|intros now].
  apply keeps_update_state, (state_step_if k (λ s, bool_decide _)); [|apply state_step_none].
  apply (state_step_transition k _ (λ _, now)).
Qed.

Lemma keeps_record_failure `{E : Env} k a0 exc : keeps (good k a0) (record_failure k exc).
Proof. unfold record_failure. keeps_tac. Qed.

#[export] Hint Resolve keeps_ensure_bootstrapping keeps_record_window_success
  keeps_transition_to_auditing keeps_record_failure : keeps.

Lemma keeps_resume_start `{E : Env} a0 r : keeps (good (bs_stream r) a0) (resume_start r).
Proof. unfold resume_start. keeps_tac. Qed.
#[export] Hint Resolve keeps_resume_start : keeps.

Lemma keeps_backfill_loop `{E : Env} `{!EnvOk} a0 r ws results :
  keeps (good (bs_stream r) a0) (backfill_loop r ws results).
Proof.
  revert results. induction ws as [|w ws IH]; intros results; cbn [backfill_loop]; keeps_tac.
Qed.
#[export] Hint Resolve keeps_backfill_loop : keeps.

Lemma keeps_backfill `{E : Env} `{!EnvOk} a0 n r :
  keeps (good (bs_stream r) a0) (backfill_execute n r).
Proof. unfold backfill_execute. cbv zeta. keeps_tac. Qed.
#[export] Hint Resolve keeps_backfill : keeps.

(** ** What a backfill reports *)

(** A chain of windows from [a] that stays at or before [b]. *)
Definition chain_upto (a b : Z) (ws : list TimeWindow) : Prop :=
  ∃ e, window_chain a e ws ∧ e ≤ b.

Lemma chain_upto_take a b ws n : window_chain a b ws → chain_upto a b (take n ws).
Proof.
  revert a n. induction ws as [|w ws IH]; intros a n; cbn.
  - intros ->. rewrite take_nil. exists b. cbn. split; [done|lia].
  - intros (<- & Hw & Hch). pose proof (window_chain_le _ _ _ Hch). unfold window_wf in Hw.
    destruct n as [|n]; cbn.
    + exists (start_ms w). cbn. split; [done|lia].
    + destruct (IH (end_ms w) n Hch) as (e & He & Hle). exists e. by split.
Qed.

Lemma window_chain_snoc a b ws w :
  window_chain a (start_ms w) ws → window_wf w → b = end_ms w → window_chain a b (ws ++ [w]).
Proof.
  revert a. induction ws as [|x ws IH]; intros a; cbn.
  - intros -> Hw ->. by repeat split.
  - intros (<- & Hx & Hch) Hw Hb. split; [done|]. split; [done|]. by apply IH.
Qed.

Lemma window_chain_app_inv a b ws1 ws2 :
  window_chain a b (ws1 ++ ws2) → ∃ m, window_chain a m ws1 ∧ window_chain m b ws2.
Proof.
  revert a. induction ws1 as [|w ws1 IH]; intros a; cbn; [by exists a|].
  intros (<- & Hw & Hch). destruct (IH _ Hch) as (m & H1 & H2). exists m. by repeat split.
Qed.

Definition result_windows (l : list BackfillWindowResult) : list TimeWindow := map bw_window l.

(** The facts a caller may rely on. *)
Record backfill_report (req : BackfillStreamRequest) (r : BackfillStreamResult) : Prop := {
  brp_stream : bf_stream r = bs_stream req;
  brp_requested : bf_requested_window r = requested_window req;
  brp_completed : bf_completed_windows r = Z.of_nat (length (bf_window_results r));
  brp_budget : bf_attempted_windows r ≤ bs_max_windows req;
  brp_end : bf_next_start_time_ms r ≤ bs_end_time_ms req;
  brp_reached : bf_reached_end r = true → bf_next_start_time_ms r = bs_end_time_ms req;
  brp_windows : ∃ c, bs_start_time_ms req ≤ c ∧
    chain_upto c (bs_end_time_ms req) (result_windows (bf_window_results r));
  brp_ok : bf_error_code r = None →
    bf_attempted_windows r = bf_completed_windows r ∧ bf_error_detail r = None ∧
    bf_failure_disposition r = None;
  brp_failed : bf_error_code r ≠ None →
    bf_attempted_windows r = bf_completed_windows r + 1 ∧ bf_reached_end r = false ∧
    is_Some (bf_failure_disposition r) ∧ is_Some (bf_error_detail r)
}.

Lemma resume_start_ge `{E : Env} req w t w' :
  run (resume_start req) w = (Ok t, w') → bs_start_time_ms req ≤ t.
Proof.
  unfold resume_start. destruct (negb _); [intros [= <-]; lia|].
  intros (s & w1 & _ & H)%run_bind_ok. injection H as <-.
  destruct (latest_committed_open_time_ms s); lia.
Qed.

(** The loop: what it was given and what is left tile an interval. *)
Lemma backfill_loop_inv `{E : Env} req windows results c e w out w' :
  window_chain c e (result_windows results ++ windows) → e ≤ bs_end_time_ms req →
  bs_start_time_ms req ≤ c →
  Z.of_nat (length results + length windows) ≤ bs_max_windows req →
  run (backfill_loop req windows results) w = (Ok out, w') →
  match out with
  | inl results' =>
      result_windows results' = result_windows results ++ windows
  | inr r => backfill_report req r ∧ bf_error_code r ≠ None
  end.
Proof.
  revert results w. induction windows as [|x windows IH]; intros results w Hch He Hc Hb; cbn [backfill_loop].
  - intros [= <- <-]. by rewrite app_nil_r.
  - intros (imported & w1 & _ & H)%run_bind_ok. destruct imported as [i|exc].
    + apply run_bind_ok in H as (u & w2 & _ & H).
      apply IH in H; [|..].
      * destruct out as [results'|r]; [|done]. rewrite H. unfold result_windows.
        rewrite map_app, <- app_assoc. done.
      * unfold result_windows in *. by rewrite map_app, <- app_assoc.
      * done.
      * done.
      * rewrite length_app. cbn in *. lia.
    + apply run_bind_ok in H as (d & w2 & _ & H). injection H as <- <-. split; [|done].
      apply window_chain_app_inv in Hch as (m & H1 & H2). cbn in H2. destruct H2 as (<- & Hw & H2).
      pose proof (window_chain_le _ _ _ H2). unfold window_wf in Hw.
      split; cbn; try done; [cbn in Hb; lia|lia|].
      exists c. split; [done|]. exists (start_ms x). split; [done|lia].
Qed.

Lemma backfill_execute_report `{E : Env} (n : Z) (req : BackfillStreamRequest) (w w' : World AbsStore)
    (r : BackfillStreamResult) :
  0 < bs_max_windows req →
  run (backfill_execute n req) w = (Ok r, w') →
  backfill_report req r.
Proof.
  intros Hmax H. unfold backfill_execute in H. apply run_bind_ok in H as (u & w1 & _ & H).
  apply run_bind_ok in H as (cursor & w2 & Hcur & H). apply resume_start_ge in Hcur.
  apply run_bind_ok in H as (q & w3 & Hq & H). injection Hq as Hq _.
  apply TimeWindow_new_ok in Hq as [Hlt ->].
  destruct (Z.leb_spec (bs_end_time_ms req) cursor).
  { apply run_bind_ok in H as (v & w4 & _ & H). injection H as <- <-.
    split; cbn; try done; try lia. exists (bs_start_time_ms req). split; [done|].
    exists (bs_start_time_ms req). split; [done|lia]. }
  apply run_bind_ok in H as (g & w4 & Hg & H). injection Hg as Hg _.
  apply Gap_new_ok in Hg as [_ ->].
  apply run_bind_ok in H as (ws & w5 & Hws & H). injection Hws as Hws _.
  destruct (fetch_input_ok (mkGap cursor (bs_end_time_ms req)) (stream_step (bs_stream req)) n) eqn:Eok;
    [|by apply iter_fetch_windows_error in Eok as [msg Hm]; rewrite Hm in Hws].
  apply iter_fetch_windows_ok in Eok as (ws' & Hws' & Hch & _); [|done].
  assert (ws' = ws) as -> by congruence. cbn [gap_start gap_end] in Hch.
  destruct (chain_upto_take _ _ _ (Z.to_nat (bs_max_windows req)) Hch) as (e & Hche & Hle).
  apply run_bind_ok in H as (out & w6 & Hloop & H).
  eapply (backfill_loop_inv req _ [] cursor e) in Hloop; [|done|done|done|rewrite length_take; cbn; lia].
  destruct out as [results|r'].
  2:{ injection H as <- <-. apply Hloop. }
  apply run_bind_ok in H as (next & w7 & _ & H). apply run_bind_ok in H as (v & w8 & _ & H).
  injection H as <- <-.
  assert (Hl : length results = length (take (Z.to_nat (bs_max_windows req)) ws)).
  { cbn in Hloop. rewrite <- Hloop. unfold result_windows. by rewrite length_map. }
  split; cbn; try done.
  - rewrite Hl, length_take. lia.
  - lia.
  - lia.
  - cbn in Hloop. rewrite <- Hloop in Hche. exists cursor. split; [done|]. by exists e.
Qed.

(** ** Properties *)

(** A backfill never does more window imports than its budget, imports consecutive windows
    from where it resumes and inside the requested range, reports the end exactly when its
    next start is the end of the range, and reports either a clean run or one failed import
    with its error and disposition. *)
Theorem backfill_reports `{E : Env} (n : Z) (req : BackfillStreamRequest) (w w' : World AbsStore)
    (r : BackfillStreamResult) :
  0 < bs_max_windows req →
  run (backfill_execute n req) w = (Ok r, w') →
  backfill_report req r.
Proof.
  intros Hmax H. by apply (backfill_execute_report n req w w' r).
Qed.

(** A backfill, whatever happens in it, leaves a canonical store with no open transaction,
    touches only its stream and loses none of its rows. *)
Theorem backfill_safe `{E : Env} `{!EnvOk} (n : Z) (req : BackfillStreamRequest) (a : AbsStore)
    (t c : nat) :
  store_inv a →
  let w' := (run (backfill_execute n req) (mkWorld a None t c)).2 in
  w_tx w' = None ∧ store_inv (w_db w') ∧ stream_frame (bs_stream req) a (w_db w').
Proof.
  intros Hi. cbv zeta.
  assert (Hg : holds_in (good (bs_stream req) a) (mkWorld a None t c)) by (split; [by apply good_refl|done]).
  apply (keeps_backfill a n req) in Hg as [[[Hi' Hf] _] Htx]. split; [by apply Htx|done].
Qed.

#[local] Existing Instance import_env.

#[local] Instance import_env_ok : EnvOk.
Proof.
  intros c k w t l [= <-]. repeat (constructor; [by apply example_candle_parsed|]). constructor.
Qed.

Definition example_request : BackfillStreamRequest :=
  mkBackfillStream example_stream 0 240000 3 true.

Lemma backfill_reports_witness :
  let p := run (S:=AbsStore) (backfill_execute 2 example_request) (mkWorld example_store None 0 0) in
  (λ r, (bf_attempted_windows r, bf_reached_end r, bf_next_start_time_ms r)) <$> p.1 =
    Ok (2, false, 120000) ∧
  ∀ r, p = (Ok r, p.2) → backfill_report example_request r.
Proof.
  intros p. split; [by vm_compute|]. intros r Hr.
  by apply (backfill_reports 2 example_request (mkWorld example_store None 0 0) p.2 r).
Defined.

Lemma backfill_safe_witness :
  let w' := (run (backfill_execute 2 example_request) (mkWorld example_store None 0 0)).2 in
  (row_count (w_db w') example_stream = 2%nat) ∧
  (w_tx w' = None ∧ store_inv (w_db w') ∧ stream_frame example_stream example_store (w_db w')).
Proof.
  intros w'. split; [by vm_compute|].
  apply (backfill_safe 2 example_request example_store 0 0). apply example_store_inv.
Defined.
