(* ===== verification/LowerBound.v ===== *)
(** * Historical lower bounds

    application/lower_bound.py, application/lower_bound_probe.py and
    application/lower_bound_state.py.  Discovery is written against two interfaces of the
    code, the probe of a track and its durable progress; [candle_probe] and
    [candle_progress] are the candle track, and the open interest track gives its own
    instance.  [ProgressSafe] is what discovery needs of a progress store. *)

From S2P Require Import Prelude PyStr DecimalValues Timeframes Identity Gaps Candles StreamState.
From S2P Require Import Instruments OpenInterest Storage AbsStore Ingest ImportWindow UseCase.

(** ** The interfaces (application/lower_bound_probe.py) *)

Record LowerBoundProbe := mkProbe {
  max_points_per_probe : Z;
  earliest_valid : StreamKey → TimeWindow → Z → M (option Z)
}.

Record LowerBoundProgress := mkLowerBoundProgress {
  cached_earliest : StreamKey → M (option Z);
  discovery_start : StreamKey → Z → M Z;
  current_discovery_cursor : StreamKey → M (option Z);
  advance_discovery : StreamKey → Z → M ();
  resolve_bound : StreamKey → Z → M ()
}.

(** [min(candidates)], or the failure of a probe that saw only invalid points. *)
Definition probe_answer (observed : nat) (candidates : list Z) (message : string) : res (option Z) :=
  match list_min candidates with
  | Some m => Ok (Some m)
  | None => match observed with
            | O => Ok None
            | _ => raise ExcHistoricalLowerBoundUnavailable message
            end
  end.

Definition candle_candidates (k : StreamKey) (w : TimeWindow) (candles : list ObservedCandle) : list Z :=
  map oc_open_time_ms
    (List.filter (λ c, is_expected k w c && bool_decide (map issue_code (validate_observed_candle c) = []))
       candles).

(** [CandleLowerBoundProbe] *)
Definition candle_probe (max_points : Z) : LowerBoundProbe :=
  mkProbe max_points (λ k w observed_at_ms,
    candles ← call (EvFetchCandles k w observed_at_ms);
    lift (probe_answer (length candles) (candle_candidates k w candles)
            "historical probe returned observations but no valid candle")).

Definition oi_candidates (k : StreamKey) (w : TimeWindow) (points : list ObservedOpenInterest) : list Z :=
  map oi_open_time_ms
    (List.filter (λ p, bool_decide (oi_stream p = k) && window_contains w (oi_open_time_ms p)
                       && bool_decide (open_interest_issue p = None)) points).

(** [OpenInterestLowerBoundProbe] *)
Definition open_interest_probe (max_points : Z) : LowerBoundProbe :=
  mkProbe max_points (λ k w observed_at_ms,
    points ← call (EvFetchOpenInterest k w observed_at_ms);
    lift (probe_answer (length points) (oi_candidates k w points)
            "open interest probe returned observations but no valid point")).

(** ** application/lower_bound_state.py *)

Definition candle_discovery_cursor (k : StreamKey) : M (option Z) :=
  s ← read_state k; mret (lower_bound_discovery_next_open_time_ms s).

(** [HistoricalLowerBoundState] *)
Definition candle_progress : LowerBoundProgress := {|
  cached_earliest := λ k, s ← read_state k; mret (earliest_available_open_time_ms s);
  discovery_start := λ k launch_search_start,
    cursor ← candle_discovery_cursor k;
    mret (match cursor with None => launch_search_start | Some c => Z.max launch_search_start c end);
  current_discovery_cursor := candle_discovery_cursor;
  advance_discovery := λ k next_open_time_ms,
    now ← now_ms;
    update_state k (λ s,
      match earliest_available_open_time_ms s with
      | Some _ => raise ExcRuntimeError "cannot advance discovery cursor after lower-bound resolution"
      | None =>
          Some <$> snapshot_check (set_updated (set_error
            (set_bounds s (earliest_available_open_time_ms s) (Some next_open_time_ms)) None None)
            (Z.max now (updated_at_ms s)))
      end);
  resolve_bound := λ k earliest_open_time_ms,
    now ← now_ms;
    update_state k (λ s,
      Some <$> snapshot_check (set_updated (set_error
        (set_bounds s (Some earliest_open_time_ms) None) None None) (Z.max now (updated_at_ms s))))
|}.

(** ** application/lower_bound.py *)

Record HistoricalLowerBoundResult := mkLowerBound {
  lb_stream : StreamKey;
  lb_launch_time_ms : Z;
  lb_search_start_time_ms : Z;
  lb_earliest_available_open_time_ms : option Z;
  lb_metadata_cached : bool;
  lb_lower_bound_cached : bool;
  lb_resolved : bool;
  lb_discovery_windows_used : Z;
  lb_unresolved_reason : option string;
  lb_next_search_start_time_ms : option Z
}.

(** [with uow: return uow.get_instrument_metadata(instrument)] *)
Definition read_metadata (i : InstrumentKey) : M InstrumentMetadata :=
  with_uow (op (GetInstrumentMetadata i)).

(** [_resolve_metadata] *)
Definition resolve_metadata (i : InstrumentKey) : M (InstrumentMetadata * bool) :=
  metadata ← read_metadata i;
  match im_launch_time_ms metadata with
  | Some _ => mret (metadata, true)
  | None =>
      launch_time_ms ← call (EvLaunchTime i);
      fetched_at_ms ← now_ms;
      metadata ← lift (InstrumentMetadata_new (im_instrument metadata) (im_exchange_symbol metadata)
                         (Some launch_time_ms) (Some fetched_at_ms));
      _ ← with_uow (_ ← op (SaveInstrumentMetadata metadata); commit);
      mret (metadata, false)
  end.

Section resolve.
Context (progress : LowerBoundProgress) (probe : LowerBoundProbe).

(** [_cached_result] *)
Definition cached_result (k : StreamKey) : M (option HistoricalLowerBoundResult) :=
  earliest ← cached_earliest progress k;
  match earliest with
  | None => mret None
  | Some e =>
      metadata ← read_metadata (instrument k);
      match im_launch_time_ms metadata with
      | None => lift (raise ExcHistoricalLowerBoundUnavailable
                        "observed lower bound is cached but instrument launch time is unresolved")
      | Some launch =>
          start ← lift (ceil_to_grid launch (stream_step k));
          mret (Some (mkLowerBound k launch start (Some e) true true true 0 None None))
      end
  end.

(** The [for window in iter_fetch_windows(...)] loop and what follows it. *)
Fixpoint discovery_loop (k : StreamKey) (launch search_start : Z) (metadata_cached : bool)
    (max_windows used : Z) (windows : list TimeWindow) : M HistoricalLowerBoundResult :=
  let unresolved reason :=
    cursor ← current_discovery_cursor progress k;
    mret (mkLowerBound k launch search_start None metadata_cached false false used (Some reason)
            cursor) in
  match windows with
  | [] => unresolved "historical source returned no valid candles"%string
  | window :: windows =>
      if max_windows <=? used then unresolved "discovery window budget exhausted"%string
      else
        now ← now_ms;
        earliest ← earliest_valid probe k window now;
        match earliest with
        | None =>
            _ ← advance_discovery progress k (end_ms window);
            discovery_loop k launch search_start metadata_cached max_windows (used + 1) windows
        | Some e =>
            _ ← resolve_bound progress k e;
            mret (mkLowerBound k launch search_start (Some e) metadata_cached false true (used + 1)
                    None None)
        end
  end.

(** [ResolveHistoricalLowerBound.execute] *)
Definition resolve_lower_bound (k : StreamKey) (max_windows : Z) : M HistoricalLowerBoundResult :=
  _ ← lift (raise_if (max_windows <=? 0) ExcValueError "max_windows must be positive");
  let step_ms := stream_step k in
  cached ← cached_result k;
  match cached with
  | Some r => mret r
  | None =>
      '(metadata, metadata_cached) ← resolve_metadata (instrument k);
      match im_launch_time_ms metadata with
      | None => lift (raise ExcHistoricalLowerBoundUnavailable "instrument launch time is unresolved")
      | Some launch =>
          launch_search_start ← lift (ceil_to_grid launch step_ms);
          search_start ← discovery_start progress k launch_search_start;
          now ← now_ms;
          last_closed ← lift (last_closed_open_time_ms now step_ms);
          let search_end := last_closed + step_ms in
          if search_end <=? search_start then
            mret (mkLowerBound k launch search_start None metadata_cached false false 0
                    (Some "no closed candles are searchable yet") (Some search_start))
          else
            gap ← lift (Gap_new search_start search_end);
            windows ← lift (iter_fetch_windows gap step_ms (max_points_per_probe probe));
            discovery_loop k launch search_start metadata_cached max_windows 0 windows
      end
  end.
End resolve.

(** ** Safety *)

(** The operations of a progress store keep the invariant of the use case. *)
Class ProgressSafe `{E : Env} (p : LowerBoundProgress) : Prop := {
  ps_cached : ∀ k a0, keeps (good k a0) (cached_earliest p k);
  ps_start : ∀ k a0 t, keeps (good k a0) (discovery_start p k t);
  ps_cursor : ∀ k a0, keeps (good k a0) (current_discovery_cursor p k);
  ps_advance : ∀ k a0 t, keeps (good k a0) (advance_discovery p k t);
  ps_resolve : ∀ k a0 t, keeps (good k a0) (resolve_bound p k t)
}.

Class ProbeSafe `{E : Env} (p : LowerBoundProbe) : Prop :=
  probe_safe : ∀ k a0 w t, keeps (good k a0) (earliest_valid p k w t).

#[export] Hint Resolve ps_cached ps_start ps_cursor ps_advance ps_resolve probe_safe : keeps.

#[export] Instance candle_probe_safe `{E : Env} n : ProbeSafe (candle_probe n).
Proof. intros k a0 w t. cbn [earliest_valid candle_probe open_interest_probe]. keeps_tac. Qed.

#[export] Instance open_interest_probe_safe `{E : Env} n : ProbeSafe (open_interest_probe n).
Proof. intros k a0 w t. cbn [earliest_valid candle_probe open_interest_probe]. keeps_tac. Qed.

Definition advance_snapshot (now next : Z) (s : StreamStateSnapshot) : res (option StreamStateSnapshot) :=
  match earliest_available_open_time_ms s with
  | Some _ => raise ExcRuntimeError "cannot advance discovery cursor after lower-bound resolution"
  | None =>
      Some <$> snapshot_check (set_updated (set_error
        (set_bounds s (earliest_available_open_time_ms s) (Some next)) None None)
        (Z.max now (updated_at_ms s)))
  end.

Lemma advance_snapshot_step k now next : state_step k (advance_snapshot now next).
Proof.
  intros s s' Hv Hk H. unfold advance_snapshot in H.
  destruct (earliest_available_open_time_ms s) eqn:Ee; [done|]. rewrite <- Ee in H.
  by apply (state_step_check k (λ s, set_updated (set_error (set_bounds s
    (earliest_available_open_time_ms s) (Some next)) None None) (Z.max now (updated_at_ms s)))) in H.
Qed.

Lemma resolve_snapshot_step k now e :
  state_step k (λ s, Some <$> snapshot_check (set_updated (set_error
    (set_bounds s (Some e) None) None None) (Z.max now (updated_at_ms s)))).
Proof.
  by apply (state_step_check k (λ s, set_updated (set_error (set_bounds s (Some e) None) None None)
    (Z.max now (updated_at_ms s)))).
Qed.

#[export] Instance candle_progress_safe `{E : Env} : ProgressSafe candle_progress.
Proof.
  split; intros k a0; intros; cbn [candle_progress cached_earliest discovery_start
    current_discovery_cursor advance_discovery resolve_bound]; unfold candle_discovery_cursor; keeps_tac.
  - apply (keeps_update_state k a0 (advance_snapshot _ _)), advance_snapshot_step.
  - apply keeps_update_state, resolve_snapshot_step.
Qed.

Lemma keeps_read_metadata `{E : Env} k a0 i : keeps (good k a0) (read_metadata i).
Proof. unfold read_metadata. keeps_tac. Qed.
#[export] Hint Resolve keeps_read_metadata : keeps.

Lemma keeps_resolve_metadata `{E : Env} k a0 i : keeps (good k a0) (resolve_metadata i).
Proof. unfold resolve_metadata. keeps_tac. Qed.
#[export] Hint Resolve keeps_resolve_metadata : keeps.

Section resolve_safe.
Context `{E : Env} (progress : LowerBoundProgress) `{!ProgressSafe progress}
  (probe : LowerBoundProbe) `{!ProbeSafe probe}.

Lemma keeps_cached_result k a0 : keeps (good k a0) (cached_result progress k).
Proof. unfold cached_result. keeps_tac. Qed.

Lemma keeps_discovery_loop k a0 launch start cached max used ws :
  keeps (good k a0) (discovery_loop progress probe k launch start cached max used ws).
Proof. revert used. induction ws as [|w ws IH]; intros used; cbn [discovery_loop]; keeps_tac. Qed.

Lemma keeps_resolve_lower_bound k a0 n : keeps (good k a0) (resolve_lower_bound progress probe k n).
Proof.
  pose proof (keeps_cached_result k a0). pose proof keeps_discovery_loop.
  unfold resolve_lower_bound. cbv zeta. keeps_tac.
Qed.
End resolve_safe.
#[export] Hint Resolve keeps_cached_result keeps_discovery_loop keeps_resolve_lower_bound : keeps.

(** ** What discovery reports *)

Lemma candle_candidates_elem k w l t :
  t ∈ candle_candidates k w l ↔
  ∃ c, c ∈ l ∧ oc_stream c = k ∧ oc_open_time_ms c = t ∧ window_contains w t = true ∧
       validate_observed_candle c = [].
Proof.
  unfold candle_candidates, is_expected. rewrite list_elem_of_In, in_map_iff. split.
  - intros (c & <- & Hc). apply filter_In in Hc as [Hc%list_elem_of_In Hb]. bool_hyps.
    exists c. split_and!; try done. by eapply map_eq_nil.
  - intros (c & Hc & <- & <- & Hw & Hv). exists c. split; [done|]. apply filter_In.
    split; [by apply list_elem_of_In|]. rewrite Hw, Hv. by rewrite !bool_decide_eq_true_2.
Qed.

(** The requests of a discovery from the call number [c] and the time [start]: contiguous windows,
    each but a last one that is found in answered with nothing at all.  The bound is the first
    of the valid candles of its answer. *)
Inductive probed `{E : Env} (k : StreamKey) : nat → Z → list TimeWindow → option Z → Z → Prop :=
| probed_none c start : probed k c start [] None start
| probed_empty c w ws t found stop : env_fetch_closed_candles c k w t = Ok [] →
    probed k (S c) (end_ms w) ws found stop → probed k c (start_ms w) (w :: ws) found stop
| probed_found c w t l e : env_fetch_closed_candles c k w t = Ok l → window_contains w e = true →
    e ∈ candle_candidates k w l → (∀ u, u ∈ candle_candidates k w l → e ≤ u) →
    probed k c (start_ms w) [w] (Some e) (end_ms w).

(** The requests that are not probes. *)
Definition metadata_requests (res : HistoricalLowerBoundResult) : nat := if lb_metadata_cached res then 0 else 1.

(** What [resolve_lower_bound] promises of the candle track, whose record was [r] and which had
    made [c] requests before. *)
Record lower_bound_report `{E : Env} (k : StreamKey) (points n : Z) (a : AbsStore) (r : StreamRec) (c : nat)
    (w' : World AbsStore) (res : HistoricalLowerBoundResult) : Prop := {
  lbr_stream : lb_stream res = k;
  lbr_budget : 0 ≤ lb_discovery_windows_used res ≤ n;
  lbr_requests : Z.of_nat (w_calls w') = Z.of_nat (c + metadata_requests res) + lb_discovery_windows_used res;
  lbr_resolved : lb_resolved res = true ↔ is_Some (lb_earliest_available_open_time_ms res);
  lbr_stored : ∃ r', ab_streams (w_db w') !! k = Some r' ∧
    earliest_available_open_time_ms (sr_state r') = lb_earliest_available_open_time_ms res;
  lbr_cached : lb_lower_bound_cached res = true →
    w_db w' = a ∧ lb_discovery_windows_used res = 0 ∧ lb_metadata_cached res = true ∧
    lb_earliest_available_open_time_ms res = earliest_available_open_time_ms (sr_state r);
  lbr_start : lb_lower_bound_cached res = false →
    ∃ first, ceil_to_grid (lb_launch_time_ms res) (stream_step k) = Ok first ∧
      lb_search_start_time_ms res =
        match lower_bound_discovery_next_open_time_ms (sr_state r) with None => first | Some u => Z.max first u end;
  lbr_probed : lb_lower_bound_cached res = false → ∃ asked stop,
    probed k (c + metadata_requests res) (lb_search_start_time_ms res) asked
      (lb_earliest_available_open_time_ms res) stop ∧
    Z.of_nat (length asked) = lb_discovery_windows_used res ∧
    Forall (fetch_window_ok (stream_step k) (stream_step k * points)) asked ∧
    (lb_resolved res = false → asked ≠ [] → lb_next_search_start_time_ms res = Some stop ∧
       ∃ r', ab_streams (w_db w') !! k = Some r' ∧
         lower_bound_discovery_next_open_time_ms (sr_state r') = Some stop);
  lbr_grid : lb_lower_bound_cached res = false → ∀ e,
    lb_earliest_available_open_time_ms res = Some e → 0 ≤ e ∧ on_grid (stream_step k) e;
  lbr_reason : lb_resolved res = false ↔ is_Some (lb_unresolved_reason res);
  lbr_exhausted : lb_unresolved_reason res = Some "discovery window budget exhausted"%string →
    lb_discovery_windows_used res = n
}.

Section candle.
Context `{E : Env} (k : StreamKey).

Lemma run_candle_probe points w t wd :
  run (earliest_valid (candle_probe points) k w t) wd =
  (match env_fetch_closed_candles (w_calls wd) k w t with
   | Ok l => probe_answer (length l) (candle_candidates k w l)
               "historical probe returned observations but no valid candle"
   | Raise e => Raise e
   end, called wd).
Proof.
  cbn [earliest_valid candle_probe]. rewrite run_bind. cbn.
  by destruct (env_fetch_closed_candles _ _ _ _).
Qed.

Lemma probe_answer_some n l msg e :
  probe_answer n l msg = Ok (Some e) → e ∈ l ∧ ∀ y, y ∈ l → e ≤ y.
Proof.
  unfold probe_answer. destruct (list_min l) as [m|] eqn:Em; [|by destruct n].
  intros [= <-]. by apply list_min_spec.
Qed.

Lemma candidate_grid w l e :
  e ∈ candle_candidates k w l → 0 ≤ e ∧ on_grid (stream_step k) e.
Proof.
  rewrite candle_candidates_elem. intros (c & _ & <- & <- & _ & Hv).
  by apply validate_nil in Hv as (_ & (H0 & Hg & _) & _).
Qed.

Lemma run_candle_cursor a t c r :
  store_inv a → ab_streams a !! k = Some r →
  run (current_discovery_cursor candle_progress k) (mkWorld a None t c) =
    (Ok (lower_bound_discovery_next_open_time_ms (sr_state r)), mkWorld a None t c).
Proof.
  intros Hi Hr. cbn [current_discovery_cursor candle_progress]. unfold candle_discovery_cursor.
  by rewrite run_bind, (run_read_state a t c k r).
Qed.

(** A successful update: the new record and the store. *)
Lemma run_update_ok a t c r f u w' :
  store_inv a → ab_streams a !! k = Some r → state_step k f → (∀ s, f s ≠ Ok None) →
  run (update_state k f) (mkWorld a None t c) = (Ok u, w') →
  ∃ s, f (sr_state r) = Ok (Some s) ∧ w' = mkWorld (with_stream a k (upd_state r s)) None t c ∧
    store_inv (with_stream a k (upd_state r s)).
Proof.
  intros Hi Hr Hf Hn H. rewrite (run_update_state a t c k r f) in H by done.
  destruct (f (sr_state r)) as [[s|]|e] eqn:Ef; [|by apply Hn in Ef|done].
  injection H as _ <-. exists s. split; [done|]. split; [done|].
  pose proof (store_inv_lookup _ _ _ Hi Hr) as Hri. pose proof Hri as [Hk Hv _ _].
  destruct (Hf _ _ Hv Hk Ef) as (? & ? & ?). apply store_inv_with_stream; [done|].
  by apply stream_inv_upd_state.
Qed.

(** Writing the progress of a discovery makes no request, whatever comes of it. *)
Lemma run_advance_bootstrap a t c r next :
  store_inv a → ab_streams a !! k = Some r →
  ∃ out a', run (advance_discovery candle_progress k next) (mkWorld a None t c) = (out, mkWorld a' None (S t) c) ∧
    (out = Ok () → ∃ r', a' = with_stream a k r' ∧ store_inv a' ∧
       earliest_available_open_time_ms (sr_state r') = None ∧
       lower_bound_discovery_next_open_time_ms (sr_state r') = Some next).
Proof.
  intros Hi Hr. cbn [advance_discovery candle_progress]. rewrite run_bind, run_now. unfold tick.
  cbn [w_calls w_ticks w_db w_tx].
  change (update_state k _) with (update_state k (advance_snapshot (env_clock t) next)).
  destruct (run (update_state k _) _) as [out w] eqn:H. pose proof H as H'.
  rewrite (run_update_state a (S t) c k r) in H by (done || apply advance_snapshot_step).
  assert (Hw : ∃ a', w = mkWorld a' None (S t) c) by (destruct (advance_snapshot _ _ _) as [[?|]|]; injection H as _ <-; by eexists).
  destruct Hw as [a' ->]. exists out, a'. split; [done|]. clear H. intros ->.
  apply (run_update_ok _ _ _ r) in H' as (s & Hs & [= ->] & Hi');
    [|done|done|apply advance_snapshot_step|
     by intros s; unfold advance_snapshot; destruct (earliest_available_open_time_ms s);
        [|destruct (snapshot_check _)]].
  unfold advance_snapshot in Hs. destruct (earliest_available_open_time_ms (sr_state r)) eqn:Ee; [done|].
  destruct (snapshot_check _) as [s1|] eqn:Es; [|done]. injection Hs as <-. apply snapshot_check_ok in Es as [-> _].
  by exists (upd_state r (set_updated (set_error (set_bounds (sr_state r) None (Some next)) None None)
    (Z.max (env_clock t) (updated_at_ms (sr_state r))))).
Qed.

Lemma run_resolve a t c r e :
  store_inv a → ab_streams a !! k = Some r →
  ∃ out a', run (resolve_bound candle_progress k e) (mkWorld a None t c) = (out, mkWorld a' None (S t) c) ∧
    (out = Ok () → ∃ r', a' = with_stream a k r' ∧ earliest_available_open_time_ms (sr_state r') = Some e).
Proof.
  intros Hi Hr. cbn [resolve_bound candle_progress]. rewrite run_bind, run_now. unfold tick.
  cbn [w_calls w_ticks w_db w_tx]. destruct (run (update_state k _) _) as [out w] eqn:H. pose proof H as H'.
  rewrite (run_update_state a (S t) c k r) in H by (done || apply resolve_snapshot_step).
  assert (Hw : ∃ a', w = mkWorld a' None (S t) c) by (destruct (snapshot_check _); injection H as _ <-; by eexists).
  destruct Hw as [a' ->]. exists out, a'. split; [done|]. clear H. intros ->.
  apply (run_update_ok _ _ _ r) in H' as (s & Hs & [= ->] & _);
    [|done|done|apply resolve_snapshot_step|by intros s; destruct (snapshot_check _)].
  destruct (snapshot_check _) as [s1|] eqn:Es; [|done]. injection Hs as <-. apply snapshot_check_ok in Es as [-> _].
  by eexists.
Qed.

(** What the loop comes to over the windows [ws] that are left of its search. *)
Definition loop_report (n launch start : Z) (cached : bool) (used : Z) (from : Z) (ws : list TimeWindow)
    (r : StreamRec) (c : nat) (w' : World AbsStore) (res : HistoricalLowerBoundResult) : Prop :=
  ∃ asked rest stop r', ws = asked ++ rest ∧ probed k c from asked (lb_earliest_available_open_time_ms res) stop ∧
    w_tx w' = None ∧ w_calls w' = (c + length asked)%nat ∧ ab_streams (w_db w') !! k = Some r' ∧
    earliest_available_open_time_ms (sr_state r') = lb_earliest_available_open_time_ms res ∧
    (lb_earliest_available_open_time_ms res = None →
       lower_bound_discovery_next_open_time_ms (sr_state r') =
         match asked with [] => lower_bound_discovery_next_open_time_ms (sr_state r) | _ => Some stop end) ∧
    res = match lb_earliest_available_open_time_ms res with
          | Some e => mkLowerBound k launch start (Some e) cached false true (used + Z.of_nat (length asked)) None None
          | None => mkLowerBound k launch start None cached false false (used + Z.of_nat (length asked))
                      (Some match rest with
                            | [] => "historical source returned no valid candles"%string
                            | _ => "discovery window budget exhausted"%string
                            end)
                      (lower_bound_discovery_next_open_time_ms (sr_state r'))
          end ∧
    (lb_earliest_available_open_time_ms res = None → rest ≠ [] → n ≤ used + Z.of_nat (length asked)).

Lemma loop_report_stop n launch start cached used from ws r a t c :
  ab_streams a !! k = Some r → earliest_available_open_time_ms (sr_state r) = None → (ws ≠ [] → n ≤ used) →
  loop_report n launch start cached used from ws r c (mkWorld a None t c)
    (mkLowerBound k launch start None cached false false used
       (Some match ws with
             | [] => "historical source returned no valid candles"%string
             | _ => "discovery window budget exhausted"%string
             end)
       (lower_bound_discovery_next_open_time_ms (sr_state r))).
Proof.
  intros Hr He Hb. exists [], ws, from, r. cbn. rewrite Z.add_0_r, Nat.add_0_r.
  split_and!; first [done|by constructor|by intros _].
Qed.

Lemma loop_report_next n launch start cached used w ws t0 r r1 c w' res :
  env_fetch_closed_candles c k w t0 = Ok [] → lower_bound_discovery_next_open_time_ms (sr_state r1) = Some (end_ms w) →
  loop_report n launch start cached (used + 1) (end_ms w) ws r1 (S c) w' res →
  loop_report n launch start cached used (start_ms w) (w :: ws) r c w' res.
Proof.
  intros Hf Hcur (asked & rest & stop & r' & -> & Hp & Htx & Hcalls & Hr' & He & Hnext & Hres & Hb).
  exists (w :: asked), rest, stop, r'. split_and!; try done.
  - by eapply probed_empty.
  - rewrite Hcalls. cbn. lia.
  - intros Hn. rewrite (Hnext Hn). destruct asked; [|done]. rewrite Hcur. by inversion Hp.
  - rewrite Hres at 1. cbn [length].
    replace (used + Z.of_nat (S (length asked))) with (used + 1 + Z.of_nat (length asked)) by lia. done.
  - intros Hn Hrest. specialize (Hb Hn Hrest). cbn [length]. lia.
Qed.

(** The loop makes a request for each window it counts, and no more than its budget allows. *)
Lemma run_discovery_loop points launch start cached n ws used from to a t c r out w' :
  store_inv a → ab_streams a !! k = Some r →
  earliest_available_open_time_ms (sr_state r) = None → 0 ≤ used ≤ n → window_chain from to ws →
  run (discovery_loop candle_progress (candle_probe points) k launch start cached n used ws)
    (mkWorld a None t c) = (out, w') →
  Z.of_nat (w_calls w') ≤ Z.of_nat c + (n - used) ∧
  ∀ res, out = Ok res → loop_report n launch start cached used from ws r c w' res ∧
    lb_discovery_windows_used res ≤ n.
Proof.
  revert used from a t c r. induction ws as [|w ws IH]; intros used from a t c r Hi Hr He Hu Hch H;
    cbn [discovery_loop] in H.
  { rewrite run_bind, (run_candle_cursor a t c r), run_ret in H by done. injection H as <- <-. cbn.
    split; [lia|]. intros res [= <-]. split; [by apply (loop_report_stop n launch start cached used from [])|cbn; lia]. }
  destruct Hch as (<- & Hwf & Hch). destruct (Z.leb_spec n used).
  { rewrite run_bind, (run_candle_cursor a t c r), run_ret in H by done. injection H as <- <-. cbn.
    split; [lia|]. intros res [= <-]. split; [|cbn; lia].
    by apply (loop_report_stop n launch start cached used (start_ms w) (w :: ws)). }
  rewrite run_bind, run_now, run_bind, run_candle_probe in H. unfold tick, called in H.
  cbn [w_calls w_ticks w_db w_tx] in H.
  destruct (env_fetch_closed_candles c k w (env_clock t)) as [l|e] eqn:Hl.
  2:{ injection H as <- <-. cbn. split; [lia|done]. }
  destruct (probe_answer _ _ _) as [[e|]|e] eqn:Hans.
  - destruct (run_resolve a (S t) (S c) r e Hi Hr) as (out1 & a' & Hrun & Hok). rewrite run_bind, Hrun in H.
    apply probe_answer_some in Hans as [Hin Hmin].
    destruct out1 as [[]|e1]; [rewrite run_ret in H|]; injection H as <- <-; cbn [w_calls]; (split; [lia|]); [|done].
    intros res [= <-]. destruct (Hok eq_refl) as (r' & -> & Hr'). split; [|cbn; lia].
    exists [w], ws, (end_ms w), r'. cbn. split_and!; try done; [|lia|apply lookup_with_stream].
    eapply probed_found; [exact Hl| |done|done]. by apply candle_candidates_elem in Hin as (cd & _ & _ & <- & ? & _).
  - destruct (run_advance_bootstrap a (S t) (S c) r (end_ms w) Hi Hr) as (out1 & a' & Hrun & Hok). rewrite run_bind, Hrun in H.
    destruct out1 as [[]|e1]; [|injection H as <- <-; cbn; split; [lia|done]].
    destruct (Hok eq_refl) as (r' & -> & Hi' & He' & Hcur').
    apply (IH (used + 1) (end_ms w) _ _ _ r') in H as [Hcalls Hres]; [|done|apply lookup_with_stream|done|lia|done].
    split; [lia|]. intros res Hr1. destruct (Hres res Hr1) as [Hrep Hb]. split; [|done].
    assert (l = []) as ->.
    { unfold probe_answer in Hans. destruct (list_min _); [done|]. by destruct l. }
    by eapply loop_report_next.
  - injection H as <- <-. cbn. split; [lia|done].
Qed.

Lemma run_read_metadata i a t c :
  run (read_metadata i) (mkWorld a None t c) = (abs_get_metadata i a, mkWorld a None t c).
Proof. unfold read_metadata. by rewrite run_with_uow, run_op. Qed.

Lemma save_metadata_streams m a : ab_streams (abs_save_metadata m a).2 = ab_streams a.
Proof.
  unfold abs_save_metadata. destruct (im_fetched_at_ms m); [|done]. cbv zeta.
  destruct (ab_instruments a !! _); [|done]. destruct (_ || _); [done|].
  by destruct (symbol_taken _ _ _).
Qed.

(** Resolving the metadata touches no stream, and makes one request unless it was known. *)
Lemma run_resolve_metadata i a t c :
  ∃ out a' t' (asked : bool), run (resolve_metadata i) (mkWorld a None t c) =
      (out, mkWorld a' None t' (if asked then S c else c)) ∧ ab_streams a' = ab_streams a ∧
    ∀ m cached, out = Ok (m, cached) → cached = negb asked.
Proof.
  unfold resolve_metadata. rewrite run_bind, run_read_metadata.
  destruct (abs_get_metadata i a) as [m|e]; [|by exists (Raise e), a, t, false].
  destruct (im_launch_time_ms m) as [launch|].
  { exists (Ok (m, true)), a, t, false. rewrite run_ret. split; [done|]. split; [done|]. by intros m' cached [= _ <-]. }
  rewrite run_bind. unfold call at 1. cbn [run handle]. unfold called. cbn [w_db w_tx w_ticks w_calls].
  destruct (env_launch_time_ms c i) as [launch|e]; [|by exists (Raise e), a, t, true].
  rewrite run_bind, run_now. unfold tick. cbn [w_db w_tx w_ticks w_calls]. rewrite run_bind, run_lift.
  destruct (InstrumentMetadata_new _ _ _ _) as [m'|e]; [|by exists (Raise e), a, (S t), true].
  rewrite run_bind, run_with_uow, run_bind, run_op. cbn [store_step abs_storage].
  pose proof (save_metadata_streams m' a) as Hst. destruct (abs_save_metadata m' a) as [[[]|e] a'].
  - rewrite run_commit. unfold set_tx. cbn [w_db w_tx w_ticks w_calls]. rewrite run_ret.
    exists (Ok (m', false)), a', (S t), true. split; [done|]. split; [done|]. by intros m2 cached [= _ <-].
  - by exists (Raise e), a, (S t), true.
Qed.

Lemma run_cached_result a t c r :
  store_inv a → ab_streams a !! k = Some r →
  ∃ out, run (cached_result candle_progress k) (mkWorld a None t c) = (out, mkWorld a None t c) ∧
    match out with
    | Ok None => earliest_available_open_time_ms (sr_state r) = None
    | Ok (Some res) => ∃ launch start e, earliest_available_open_time_ms (sr_state r) = Some e ∧
                         res = mkLowerBound k launch start (Some e) true true true 0 None None
    | Raise _ => True
    end.
Proof.
  intros Hi Hr. unfold cached_result. cbn [cached_earliest candle_progress].
  rewrite run_bind, run_bind, (run_read_state a t c k r), run_ret by done.
  destruct (earliest_available_open_time_ms (sr_state r)) as [e|]; [|by exists (Ok None)].
  rewrite run_bind, run_read_metadata. destruct (abs_get_metadata _ _) as [m|x]; [|by exists (Raise x)].
  destruct (im_launch_time_ms m) as [launch|]; [|eexists; split; [apply run_lift|done]].
  rewrite run_bind, run_lift. destruct (ceil_to_grid _ _) as [start|x]; [|by exists (Raise x)].
  rewrite run_ret. eexists. split; [done|]. by exists launch, start, e.
Qed.

(** The search after the metadata is known. *)
Definition search_from (probe : LowerBoundProbe) (launch : Z) (metadata_cached : bool) (max_windows : Z) :
    M HistoricalLowerBoundResult :=
  first ← lift (ceil_to_grid launch (stream_step k));
  search_start ← discovery_start candle_progress k first;
  now ← now_ms;
  last_closed ← lift (last_closed_open_time_ms now (stream_step k));
  let search_end := last_closed + stream_step k in
  if search_end <=? search_start then
    mret (mkLowerBound k launch search_start None metadata_cached false false 0
            (Some "no closed candles are searchable yet"%string) (Some search_start))
  else
    gap ← lift (Gap_new search_start search_end);
    windows ← lift (iter_fetch_windows gap (stream_step k) (max_points_per_probe probe));
    discovery_loop candle_progress probe k launch search_start metadata_cached max_windows 0 windows.

(** A report of the loop is a report of the search it is part of. *)
Lemma loop_report_search points n launch start first to cached ws r a c0 c w' res :
  loop_report n launch start cached 0 start ws r c w' res → lb_discovery_windows_used res ≤ n →
  c = (c0 + (if cached then 0 else 1))%nat → ceil_to_grid launch (stream_step k) = Ok first →
  start = match lower_bound_discovery_next_open_time_ms (sr_state r) with None => first | Some u => Z.max first u end →
  window_chain start to ws → Forall (fetch_window_ok (stream_step k) (stream_step k * points)) ws →
  lower_bound_report k points n a r c0 w' res.
Proof.
  intros (asked & rest & stop & r' & -> & Hp & Htx & Hcalls & Hr' & He & Hnext & Hres & Hb) Hn -> Hfirst Hstart Hch Hok.
  apply Forall_app in Hok as [Hok _].
  assert (Hgrid : ∀ e, lb_earliest_available_open_time_ms res = Some e → 0 ≤ e ∧ on_grid (stream_step k) e).
  { intros e Hearliest. rewrite Hearliest in Hp. revert Hp. clear. generalize start, (c0 + (if cached then 0 else 1))%nat.
    induction asked as [|w asked IH]; intros s c Hp; inversion Hp; subst; [by eapply IH|by eapply candidate_grid]. }
  revert Hp Hcalls He Hnext Hres Hgrid Hn Hb.
  destruct (lb_earliest_available_open_time_ms res) as [e|] eqn:Hearliest; intros Hp Hcalls He Hnext Hres Hgrid Hn Hb.
  - rewrite Hres in Hn |- *. cbn in Hn. split; unfold metadata_requests; cbn; try done; try lia.
    + by exists r'.
    + intros _. by exists first.
    + intros _. exists asked, stop. by split_and!.
  - specialize (Hnext eq_refl). specialize (Hb eq_refl). rewrite Hres in Hn |- *. cbn in Hn.
    split; unfold metadata_requests; cbn; try done; try lia.
    + by exists r'.
    + intros _. by exists first.
    + intros _. exists asked, stop. split_and!; try done. intros _ Hne. destruct asked; [done|].
      split; [done|]. by exists r'.
    + destruct rest as [|w rest]; [done|]. intros _. assert (w :: rest ≠ []) as Hne by done. specialize (Hb Hne). lia.
Qed.

Lemma run_search_from points n launch (cached : bool) (a : AbsStore) t (c0 c : nat) r (out : res HistoricalLowerBoundResult)
    (w' : World AbsStore) :
  store_inv a → ab_streams a !! k = Some r → earliest_available_open_time_ms (sr_state r) = None → 0 < n →
  c = (c0 + (if cached then 0 else 1))%nat →
  run (search_from (candle_probe points) launch cached n) (mkWorld a None t c) = (out, w') →
  Z.of_nat (w_calls w') ≤ Z.of_nat c + n ∧
  ∀ rep a0, out = Ok rep → w_tx w' = None ∧ lower_bound_report k points n a0 r c0 w' rep.
Proof.
  intros Hi Hr He Hn Hc. unfold search_from. rewrite run_bind, run_lift.
  destruct (ceil_to_grid launch (stream_step k)) as [first|e] eqn:Hfirst; [|intros [= <- <-]; cbn; split; [lia|done]].
  rewrite run_bind. cbn [discovery_start candle_progress].
  change (candle_discovery_cursor k) with (current_discovery_cursor candle_progress k).
  rewrite run_bind, (run_candle_cursor a t c r), run_ret by done. set (start := match _ with None => first | Some u => _ end).
  rewrite run_bind, run_now, run_bind, run_lift. unfold tick. cbn [w_calls w_ticks w_db w_tx].
  destruct (last_closed_open_time_ms _ _) as [lc|e]; [|intros [= <- <-]; cbn; split; [lia|done]]. cbv zeta.
  destruct (Z.leb_spec (lc + stream_step k) start) as [Hle|Hlt].
  { rewrite run_ret. intros [= <- <-]. cbn. split; [lia|]. intros res a0 [= <-]. split; [done|].
    split; cbn; try done; try lia; [destruct cached; unfold metadata_requests; cbn; lia|by exists r|intros _; by exists first|].
    intros _. exists [], start. split_and!; try done; constructor. }
  rewrite run_bind, run_lift, Gap_new_lt, run_bind, run_lift by done.
  destruct (fetch_input_ok (mkGap start (lc + stream_step k)) (stream_step k) (max_points_per_probe (candle_probe points))) eqn:Hok.
  2:{ destruct (iter_fetch_windows_error _ _ _ Hok) as [msg ->]. intros [= <- <-]. cbn. split; [lia|done]. }
  destruct (iter_fetch_windows_ok (mkGap start (lc + stream_step k)) (stream_step k) (max_points_per_probe (candle_probe points)) Hlt Hok)
    as (ws & -> & Hch & Hall & _). cbn [gap_start gap_end max_points_per_probe candle_probe] in *.
  intros Hrun. eapply (run_discovery_loop points launch start cached n ws 0 start _ _ _ _ r) in Hrun as [Hcalls Hres];
    [|done|done|done|lia|exact Hch].
  split; [lia|]. intros res a0 Hout. destruct (Hres res Hout) as [Hrep Hb]. split.
  - by destruct Hrep as (? & ? & ? & ? & _ & _ & ? & _).
  - by eapply loop_report_search.
Qed.
End candle.

(** ** Properties *)

(** C36. Discovery of a stream's historical lower bound asks the exchange for at most [max_windows]
    windows and, once, for the launch time, whether it returns or raises.  When it returns,
    the windows it counts are the requests it made: contiguous from the start of the search,
    which is the launch on the grid or the stored cursor, each answered with nothing but a
    last one; the bound is then the first valid candle of that answer, so no earlier window
    had one, and it is what the stream stores.  An unresolved run leaves the bound unknown,
    stores the end of what it asked for as the next start, and says why; a cached bound costs
    no request and changes nothing. *)
Theorem lower_bound_discovery `{E : Env} (k : StreamKey) (points n : Z) (a : AbsStore)
    (r : StreamRec) (t c : nat) :
  store_inv a → ab_streams a !! k = Some r →
  let p := run (resolve_lower_bound candle_progress (candle_probe points) k n) (mkWorld a None t c) in
  Z.of_nat (w_calls p.2) ≤ Z.of_nat c + 1 + Z.max 0 n ∧
  ∀ res, p.1 = Ok res → w_tx p.2 = None ∧ lower_bound_report k points n a r c p.2 res.
Proof.
  intros Hi Hr p. destruct p as [out w'] eqn:Hp. unfold p in Hp. clear p. cbn [fst snd]. revert Hp.
  unfold resolve_lower_bound. rewrite run_bind, run_lift. unfold raise_if at 1.
  destruct (Z.leb_spec n 0) as [Hn|Hn]; [intros [= <- <-]; cbn; split; [lia|done]|]. cbv zeta.
  rewrite run_bind. destruct (run_cached_result k a t c r Hi Hr) as (cached & -> & Hc).
  destruct cached as [[res|]|e]; [| |intros [= <- <-]; cbn; split; [lia|done]].
  { destruct Hc as (launch & start & e & He & ->). rewrite run_ret. intros [= <- <-]. cbn. split; [lia|].
    intros res [= <-]. split; [done|]. split; unfold metadata_requests; cbn; try done; try lia.
    by exists r. }
  rewrite run_bind. destruct (run_resolve_metadata (instrument k) a t c) as (m & a1 & t1 & asked & -> & Hst & Hm).
  destruct m as [[metadata cached]|e]; [|intros [= <- <-]; destruct asked; cbn; (split; [lia|done])].
  pose proof (Hm _ _ eq_refl) as ->. destruct (im_launch_time_ms metadata) as [launch|].
  2:{ rewrite run_lift. intros [= <- <-]. destruct asked; cbn; (split; [lia|done]). }
  intros Hrun. apply (run_search_from k points n launch (negb asked) a1 t1 c _ r) in Hrun as [Hcalls Hres].
  - split; [|intros res Hout; by apply Hres]. destruct asked; lia.
  - unfold store_inv. by rewrite Hst.
  - by rewrite Hst.
  - done.
  - done.
  - destruct asked; cbn; lia.
Qed.

Definition discovery_env : Env := {|
  env_clock := λ n, 1000000 + Z.of_nat n;
  env_fetch_closed_candles := λ n _ _ _,
    Ok (if (n =? 2)%nat then [example_candle 240000 11 BYBIT_REST; example_candle 180000 11 BYBIT_REST]
        else []);
  env_fetch_open_interest := λ _ _ _ _, Ok [];
  env_launch_time_ms := λ _ _, Ok 30000;
  env_specification := λ _ i, Specification_new i "BTCUSDT" "linear" "LinearPerpetual" "Trading" "USDT" 0
|}.

#[local] Existing Instance discovery_env.

Definition undiscovered : StreamRec :=
  mkStreamRec (mkSnapshot example_stream BOOTSTRAPPING None None None None None None None None 10 10)
    ∅ ∅ ∅.

Definition undiscovered_store : AbsStore := with_stream example_store example_stream undiscovered.

Lemma undiscovered_inv : store_inv undiscovered_store.
Proof.
  apply store_inv_with_stream; [apply example_store_inv|]. split; [done| | |].
  - by apply (snapshot_check_ok _ (sr_state undiscovered)).
  - apply map_Forall_empty.
  - by intros t [? ?].
Qed.

(** The launch time, an empty window and one with two candles: three requests. *)
Lemma lower_bound_discovery_witness :
  let p := run (resolve_lower_bound candle_progress (candle_probe 2) example_stream 5)
             (mkWorld undiscovered_store None 0 0) in
  ((λ r, (lb_earliest_available_open_time_ms r, lb_discovery_windows_used r)) <$> p.1 = Ok (Some 180000, 2) ∧
   w_calls p.2 = 3%nat) ∧
  Z.of_nat (w_calls p.2) ≤ 0 + 1 + Z.max 0 5 ∧
  ∀ res, p.1 = Ok res →
    w_tx p.2 = None ∧ lower_bound_report example_stream 2 5 undiscovered_store undiscovered 0 p.2 res.
Proof.
  intros p. split; [split; by vm_compute|].
  apply (lower_bound_discovery example_stream 2 5 undiscovered_store undiscovered 0 0);
    [apply undiscovered_inv|apply lookup_with_stream].
Defined.
