(* ===== verification/FullBootstrap.v ===== *)
(** * Full-history bootstrap of one stream and of all configured streams

    application/full_bootstrap.py and application/multi_stream_backfill.py. *)

From S2P Require Import Prelude PyStr DecimalValues Timeframes Identity Gaps Candles StreamState.
From S2P Require Import Instruments OpenInterest Storage AbsStore Ingest ImportWindow UseCase.
From S2P Require Import Backfill LowerBound.

(** ** application/full_bootstrap.py *)

Inductive FullBootstrapStatus := BACKFILLED | BOOTSTRAP_INCOMPLETE | LOWER_BOUND_UNRESOLVED.

#[export] Instance FullBootstrapStatus_eq_dec : EqDecision FullBootstrapStatus.
Proof. solve_decision. Defined.

Record FullHistoryBootstrapRequest := mkBootstrapRequest {
  fb_stream : StreamKey;
  fb_max_windows : Z
}.

Definition FullHistoryBootstrapRequest_new (k : StreamKey) (n : Z) : res FullHistoryBootstrapRequest :=
  _ ← raise_if (n <=? 0) ExcValueError "max_windows must be positive";
  mret (mkBootstrapRequest k n).

Record FullHistoryBootstrapResult := mkBootstrapResult {
  fr_stream : StreamKey;
  fr_status : FullBootstrapStatus;
  fr_max_windows : Z;
  fr_target_open_time_ms : option Z;
  fr_lower_bound : option HistoricalLowerBoundResult;
  fr_backfill : option BackfillStreamResult;
  fr_error_code : option string;
  fr_error_detail : option string;
  fr_failure_disposition : option SourceFailureDisposition
}.

Definition reached_target (r : FullHistoryBootstrapResult) : bool :=
  match fr_backfill r with Some b => bf_reached_end b | None => false end.
Definition lower_bound_resolved (r : FullHistoryBootstrapResult) : bool :=
  match fr_lower_bound r with Some l => lb_resolved l | None => false end.
Definition discovery_windows_used (r : FullHistoryBootstrapResult) : Z :=
  match fr_lower_bound r with Some l => lb_discovery_windows_used l | None => 0 end.
Definition backfill_windows_attempted (r : FullHistoryBootstrapResult) : Z :=
  match fr_backfill r with Some b => bf_attempted_windows b | None => 0 end.
Definition total_windows_used (r : FullHistoryBootstrapResult) : Z :=
  discovery_windows_used r + backfill_windows_attempted r.

(** The result after a lower bound failed; the second handler of the code does not pass the
    disposition on. *)
Definition unresolved_result (req : FullHistoryBootstrapRequest) (exc : exn)
    (disposition : option SourceFailureDisposition) : FullHistoryBootstrapResult :=
  mkBootstrapResult (fb_stream req) LOWER_BOUND_UNRESOLVED (fb_max_windows req) None None None
    (Some (class_name (exn_cls exc))) (Some (exn_str exc)) disposition.

Section bootstrap.
Context (progress : LowerBoundProgress) (probe : LowerBoundProbe) (max_candles_per_window : Z).

(** [BootstrapFullStreamHistory.execute] *)
Definition bootstrap_execute (req : FullHistoryBootstrapRequest) : M FullHistoryBootstrapResult :=
  let k := fb_stream req in
  _ ← ensure_bootstrapping k;
  lower_bound ← attempt (resolve_lower_bound progress probe k (fb_max_windows req));
  match lower_bound with
  | Raise exc =>
      if isinstance exc ExcHistoricalLowerBoundUnavailable then
        now ← now_ms;
        decision ← record_stream_failure k exc now;
        mret (unresolved_result req exc (Some (sf_disposition decision)))
      else
        now ← now_ms;
        decision ← record_stream_failure k exc now;
        mret (unresolved_result req exc None)
  | Ok lower_bound =>
      if negb (lb_resolved lower_bound) then
        mret (mkBootstrapResult k BOOTSTRAP_INCOMPLETE (fb_max_windows req) None (Some lower_bound)
                None None None None)
      else
        let step_ms := stream_step k in
        now ← now_ms;
        target_open_time_ms ← lift (last_closed_open_time_ms now step_ms);
        let remaining_budget := fb_max_windows req - lb_discovery_windows_used lower_bound in
        if remaining_budget <=? 0 then
          mret (mkBootstrapResult k BOOTSTRAP_INCOMPLETE (fb_max_windows req)
                  (Some target_open_time_ms) (Some lower_bound) None None None None)
        else match lb_earliest_available_open_time_ms lower_bound with
        | None => lift (raise ExcRuntimeError "resolved lower bound missing earliest open time")
        | Some earliest =>
            request ← lift (BackfillStreamRequest_new k earliest (target_open_time_ms + step_ms)
                              remaining_budget true);
            backfill ← backfill_execute max_candles_per_window request;
            mret (mkBootstrapResult k BACKFILLED (fb_max_windows req) (Some target_open_time_ms)
                    (Some lower_bound) (Some backfill) (bf_error_code backfill)
                    (bf_error_detail backfill) (bf_failure_disposition backfill))
        end
  end.
End bootstrap.

(** ** application/multi_stream_backfill.py *)

Record MultiStreamBackfillRequest := mkMultiRequest { max_windows_per_stream : Z }.

Definition MultiStreamBackfillRequest_new (n : Z) : res MultiStreamBackfillRequest :=
  _ ← raise_if (n <=? 0) ExcValueError "max_windows_per_stream must be positive";
  mret (mkMultiRequest n).

Record MultiStreamBackfillOutcome := mkOutcome {
  mo_coverage : InstrumentCoverage;
  mo_stream : StreamKey;
  mo_result : option FullHistoryBootstrapResult;
  mo_error_code : option string;
  mo_error_detail : option string;
  mo_failure_disposition : option SourceFailureDisposition
}.

Inductive MultiStatus := MULTI_COMPLETE | MULTI_INCOMPLETE | MULTI_FAILED.

#[export] Instance MultiStatus_eq_dec : EqDecision MultiStatus.
Proof. solve_decision. Defined.

Record MultiStreamBackfillResult := mkMultiResult {
  mr_outcomes : list MultiStreamBackfillOutcome;
  mr_status : MultiStatus
}.

Definition attempted_streams (r : MultiStreamBackfillResult) : nat := length (mr_outcomes r).
Definition has_errors (r : MultiStreamBackfillResult) : bool :=
  existsb (λ o, bool_decide (is_Some (mo_error_code o))) (mr_outcomes r).

(** The run is over any state: that of the store, or that of a command with its output. *)
Section multi.
Context {σ : Type} (metadata_verifier : InstrumentCoverage → StRes σ ())
  (bootstrap : InstrumentCoverage → StreamKey → FullHistoryBootstrapRequest → StRes σ FullHistoryBootstrapResult).

Definition stream_outcome (c : InstrumentCoverage) (k : StreamKey) (r : FullHistoryBootstrapResult) :
    MultiStreamBackfillOutcome :=
  mkOutcome c k (Some r) (fr_error_code r) (fr_error_detail r) (fr_failure_disposition r).

Definition rejected_outcomes (c : InstrumentCoverage) (d : SourceFailureDecision) :
    list MultiStreamBackfillOutcome :=
  map (λ k, mkOutcome c k None (Some (sf_code d)) (Some (sf_detail d)) (Some (sf_disposition d)))
    (stream_keys c).

(** The inner loop over the streams of a verified instrument: the flag says that the run
    ends. *)
Fixpoint bootstrap_streams (c : InstrumentCoverage) (n : Z) (keys : list StreamKey)
    (outcomes : list MultiStreamBackfillOutcome) (overall : MultiStatus) :
    StRes σ (list MultiStreamBackfillOutcome * MultiStatus * bool) :=
  match keys with
  | [] => mret (outcomes, overall, false)
  | k :: keys =>
      request ← sr_lift (FullHistoryBootstrapRequest_new k n);
      result ← bootstrap c k request;
      let outcomes := outcomes ++ [stream_outcome c k result] in
      if bool_decide (fr_failure_disposition result = Some FATAL) then
        mret (outcomes, MULTI_FAILED, true)
      else if bool_decide (is_Some (fr_error_code result)) || negb (reached_target result) then
        bootstrap_streams c n keys outcomes MULTI_INCOMPLETE
      else bootstrap_streams c n keys outcomes overall
  end.

Fixpoint bootstrap_coverages (n : Z) (coverages : list InstrumentCoverage)
    (outcomes : list MultiStreamBackfillOutcome) (overall : MultiStatus) :
    StRes σ MultiStreamBackfillResult :=
  match coverages with
  | [] => mret (mkMultiResult outcomes overall)
  | c :: coverages =>
      verified ← sr_attempt (metadata_verifier c);
      match verified with
      | Raise exc =>
          let decision := classify_source_failure exc in
          let outcomes := outcomes ++ rejected_outcomes c decision in
          if bool_decide (sf_disposition decision = FATAL)
          then mret (mkMultiResult outcomes MULTI_FAILED)
          else bootstrap_coverages n coverages outcomes MULTI_INCOMPLETE
      | Ok _ =>
          '(done_streams, stop) ← bootstrap_streams c n (stream_keys c) outcomes overall;
          let '(outcomes, overall) := (done_streams : list MultiStreamBackfillOutcome * MultiStatus) in
          if (stop : bool) then mret (mkMultiResult outcomes overall)
          else bootstrap_coverages n coverages outcomes overall
      end
  end.

(** [BackfillAllConfiguredStreams.execute] *)
Definition backfill_all (coverages : list InstrumentCoverage) (request : MultiStreamBackfillRequest) :
    StRes σ MultiStreamBackfillResult :=
  let enabled := List.filter ic_enabled coverages in
  match enabled with
  | [] => sr_lift (raise ExcValueError "no enabled instruments configured")
  | _ => bootstrap_coverages (max_windows_per_stream request) enabled [] MULTI_COMPLETE
  end.
End multi.

(** ** Facts *)

Lemma BackfillStreamRequest_new_ok k s e n b q :
  BackfillStreamRequest_new k s e n b = Ok q → q = mkBackfillStream k s e n b ∧ s < e ∧ 0 < n.
Proof.
  unfold BackfillStreamRequest_new.
  intros (H1 & (H2 & (_ & H)%raise_if_bind_ok)%raise_if_bind_ok)%raise_if_bind_ok.
  injection H as <-. bool_hyps. by repeat split.
Qed.

Section bootstrap_facts.
Context `{E : Env} (progress : LowerBoundProgress) (probe : LowerBoundProbe).

Lemma keeps_bootstrap `{!EnvOk} `{!ProgressSafe progress} `{!ProbeSafe probe} m req a0 :
  keeps (good (fb_stream req) a0) (bootstrap_execute progress probe m req).
Proof.
  unfold bootstrap_execute. cbv zeta.
  apply keeps_bind; [auto with keeps|intros _].
  apply keeps_bind; [apply keeps_attempt; auto with keeps|intros [lb|exc]]; [|keeps_tac].
  destruct (negb _); [keeps_tac|].
  apply keeps_bind; [auto with keeps|intros now]. apply keeps_bind; [auto with keeps|intros target].
  destruct (_ <=? _); [keeps_tac|]. destruct (lb_earliest_available_open_time_ms lb); [|keeps_tac].
  apply keeps_lift_bind. intros q (-> & _)%BackfillStreamRequest_new_ok.
  apply keeps_bind; [|keeps_tac]. by apply (keeps_backfill a0 m (mkBackfillStream _ _ _ _ _)).
Qed.

(** What every discovery reports, whatever the stores behind it. *)
Definition bound_ok (k : StreamKey) (n : Z) (l : HistoricalLowerBoundResult) : Prop :=
  lb_stream l = k ∧ 0 ≤ lb_discovery_windows_used l ≤ n ∧
  (lb_resolved l = true ↔ is_Some (lb_earliest_available_open_time_ms l)).

Lemma discovery_loop_ok k launch start cached n used ws w l w' :
  0 ≤ used ≤ n →
  run (discovery_loop progress probe k launch start cached n used ws) w = (Ok l, w') → bound_ok k n l.
Proof.
  assert (Hun : ∀ reason used w, 0 ≤ used ≤ n →
    run (cursor ← current_discovery_cursor progress k;
         mret (mkLowerBound k launch start None cached false false used (Some reason) cursor)) w =
      (Ok l, w') → bound_ok k n l).
  { intros reason u v Hu (c & v1 & _ & H)%run_bind_ok. injection H as <- _.
    split; [done|]. split; [done|]. by cbn. }
  revert used w. induction ws as [|win ws IH]; intros used w Hu; cbn [discovery_loop]; [by apply Hun|].
  destruct (Z.leb_spec n used) as [|Hlt]; [by apply Hun|].
  intros (now & w1 & _ & (e & w2 & _ & H)%run_bind_ok)%run_bind_ok. destruct e as [e|].
  - apply run_bind_ok in H as (u & w3 & _ & H). injection H as <- _.
    split; [done|]. split; [cbn; lia|]. by cbn.
  - apply run_bind_ok in H as (u & w3 & _ & H). apply IH in H; [done|lia].
Qed.

Lemma resolve_lower_bound_ok k n w l w' :
  run (resolve_lower_bound progress probe k n) w = (Ok l, w') → 0 < n ∧ bound_ok k n l.
Proof.
  unfold resolve_lower_bound. intros (u & w1 & Hn & Hr)%run_bind_ok. rename Hr into H.
  injection Hn as Hn _. apply raise_if_ok, Z.leb_gt in Hn. split; [done|].
  apply run_bind_ok in H as (cached & w2 & Hc & H). destruct cached as [l'|].
  - injection H as -> _. unfold cached_result in Hc.
    apply run_bind_ok in Hc as (e & w3 & _ & Hc). destruct e as [e|]; [|done].
    apply run_bind_ok in Hc as (m & w4 & _ & Hc). destruct (im_launch_time_ms m); [|done].
    apply run_bind_ok in Hc as (s & w5 & _ & Hc). injection Hc as <- _.
    split; [done|]. split; [cbn; lia|]. by cbn.
  - apply run_bind_ok in H as ([m b] & w3 & _ & H). destruct (im_launch_time_ms m); [|done].
    apply run_bind_ok in H as (ls & w4 & _ & H). apply run_bind_ok in H as (s & w5 & _ & H).
    apply run_bind_ok in H as (now & w6 & _ & H). apply run_bind_ok in H as (lc & w7 & _ & H).
    destruct (_ <=? _).
    + injection H as <- _. split; [done|]. split; [cbn; lia|]. by cbn.
    + apply run_bind_ok in H as (g & w8 & _ & H). apply run_bind_ok in H as (ws & w9 & _ & H).
      by apply discovery_loop_ok in H; [|lia].
Qed.
End bootstrap_facts.
#[export] Hint Resolve keeps_bootstrap : keeps.

(** What the run over all streams has done after some outcomes. *)
Definition outcome_fatal (o : MultiStreamBackfillOutcome) : Prop :=
  mo_failure_disposition o = Some FATAL.
Definition outcome_done (o : MultiStreamBackfillOutcome) : Prop :=
  mo_error_code o = None ∧ match mo_result o with Some r => reached_target r = true | None => False end.

Definition multi_ok (outcomes : list MultiStreamBackfillOutcome) (status : MultiStatus) : Prop :=
  match status with
  | MULTI_FAILED => Exists outcome_fatal outcomes
  | MULTI_INCOMPLETE => Forall (λ o, ¬ outcome_fatal o) outcomes ∧ Exists (λ o, ¬ outcome_done o) outcomes
  | MULTI_COMPLETE => Forall (λ o, ¬ outcome_fatal o) outcomes ∧ Forall outcome_done outcomes
  end.

Definition outcome_streams (l : list MultiStreamBackfillOutcome) : list StreamKey := map mo_stream l.

Lemma multi_ok_incomplete outcomes status new :
  status ≠ MULTI_FAILED → multi_ok outcomes status → Forall (λ o, ¬ outcome_fatal o) new →
  Exists (λ o, ¬ outcome_done o) new → multi_ok (outcomes ++ new) MULTI_INCOMPLETE.
Proof.
  intros Hs Hm Hf He. destruct status; [| |done]; destruct Hm as [H1 _]; cbn;
    (split; [by apply Forall_app_2|apply Exists_app; by right]).
Qed.

Lemma multi_ok_done outcomes status o :
  status ≠ MULTI_FAILED → multi_ok outcomes status → ¬ outcome_fatal o → outcome_done o →
  multi_ok (outcomes ++ [o]) status.
Proof.
  intros Hs Hm Hf He. destruct status; [| |done]; destruct Hm as [H1 H2]; cbn;
    (split; [apply Forall_app_2; [done|by constructor]|]).
  - apply Forall_app_2; [done|by constructor].
  - apply Exists_app. by left.
Qed.

Lemma multi_ok_failed outcomes new : Exists outcome_fatal new → multi_ok (outcomes ++ new) MULTI_FAILED.
Proof. intros H. apply Exists_app. by right. Qed.

Lemma Exists_Forall_absurd {A} (P Q : A → Prop) l :
  Exists P l → Forall Q l → (∀ x, P x → Q x → False) → False.
Proof. rewrite Exists_exists, Forall_forall. intros (x & Hx & HP) HQ Hn. exact (Hn x HP (HQ x Hx)). Qed.

Section multi_facts.
Context {σ : Type} (metadata_verifier : InstrumentCoverage → StRes σ ())
  (bootstrap : InstrumentCoverage → StreamKey → FullHistoryBootstrapRequest → StRes σ FullHistoryBootstrapResult).

Lemma bootstrap_streams_ok c n keys outcomes overall w outcomes' overall' stop w' :
  overall ≠ MULTI_FAILED → multi_ok outcomes overall →
  bootstrap_streams bootstrap c n keys outcomes overall w = (Ok (outcomes', overall', stop), w') →
  multi_ok outcomes' overall' ∧ (stop = true ↔ overall' = MULTI_FAILED) ∧
  ∃ d, outcome_streams outcomes' = outcome_streams outcomes ++ take d keys ∧
       (stop = false → take d keys = keys).
Proof.
  revert outcomes overall w. induction keys as [|k keys IH]; intros outcomes overall w Hs Hm;
    cbn [bootstrap_streams].
  - intros [= <- <- <- _]. split; [done|]. split; [done|]. exists O. by rewrite app_nil_r.
  - intros (q & w1 & _ & (r & w2 & _ & H)%sr_bind_ok)%sr_bind_ok. cbv zeta in H.
    assert (Hnext : ∀ st, st ≠ MULTI_FAILED → multi_ok (outcomes ++ [stream_outcome c k r]) st →
      bootstrap_streams bootstrap c n keys (outcomes ++ [stream_outcome c k r]) st w2 =
        (Ok (outcomes', overall', stop), w') →
      multi_ok outcomes' overall' ∧ (stop = true ↔ overall' = MULTI_FAILED) ∧
      ∃ d, outcome_streams outcomes' = outcome_streams outcomes ++ take d (k :: keys) ∧
           (stop = false → take d (k :: keys) = k :: keys)).
    { intros st Hst Hok Hrun. apply IH in Hrun as (H1 & H2 & d & H3 & H4); [|done..].
      split; [done|]. split; [done|]. exists (Datatypes.S d). cbn. unfold outcome_streams in *.
      rewrite H3, map_app, <- app_assoc. split; [done|]. intros Hf. by rewrite H4. }
    destruct (bool_decide (fr_failure_disposition r = Some FATAL)) eqn:Ef; bool_hyps.
    + injection H as <- <- <- _. split; [apply multi_ok_failed; by left|]. split; [done|].
      exists 1%nat. unfold outcome_streams. by rewrite map_app.
    + destruct (_ || _) eqn:Eb.
      * apply Hnext in H; [done|done|]. eapply multi_ok_incomplete; [done..|by constructor|].
        left. intros [H1 H2]. cbn in *. rewrite H1, H2 in Eb. by rewrite bool_decide_eq_false_2 in Eb by (by intros [? ?]).
      * bool_hyps. apply Hnext in H; [done|done|]. apply multi_ok_done; [done..|]. split; cbn; [|done].
        destruct (fr_error_code r); [|done]. by destruct H0.
Qed.

Lemma rejected_ok c d :
  stream_keys c ≠ [] →
  Exists (λ o, ¬ outcome_done o) (rejected_outcomes c d) ∧
  (sf_disposition d = FATAL → Exists outcome_fatal (rejected_outcomes c d)) ∧
  (sf_disposition d ≠ FATAL → Forall (λ o, ¬ outcome_fatal o) (rejected_outcomes c d)) ∧
  outcome_streams (rejected_outcomes c d) = stream_keys c.
Proof.
  intros Hne. unfold rejected_outcomes, outcome_streams. destruct (stream_keys c) as [|k l]; [done|].
  split_and!.
  - left. by intros [? _].
  - intros Hd. left. unfold outcome_fatal. cbn. by rewrite Hd.
  - intros Hd. apply Forall_map, Forall_true. intros k'. unfold outcome_fatal. cbn. congruence.
  - rewrite map_map. cbn. by rewrite map_id.
Qed.

Lemma bootstrap_coverages_ok n coverages outcomes overall w r w' :
  Forall (λ c, stream_keys c ≠ []) coverages → overall ≠ MULTI_FAILED → multi_ok outcomes overall →
  bootstrap_coverages metadata_verifier bootstrap n coverages outcomes overall w = (Ok r, w') →
  multi_ok (mr_outcomes r) (mr_status r) ∧
  ∃ d, outcome_streams (mr_outcomes r) =
         outcome_streams outcomes ++ take d (flat_map stream_keys coverages) ∧
       (mr_status r ≠ MULTI_FAILED →
        take d (flat_map stream_keys coverages) = flat_map stream_keys coverages).
Proof.
  intros HF. revert outcomes overall w.
  induction HF as [|c coverages Hc HF IH]; intros outcomes overall w Hs Hm; cbn [bootstrap_coverages].
  - intros [= <- _]. split; [done|]. exists O. by rewrite app_nil_r.
  - intros (v & w1 & _ & H)%sr_bind_ok. destruct v as [u|exc].
    + apply sr_bind_ok in H as ([[outcomes1 overall1] stop] & w2 & H1 & H2).
      apply bootstrap_streams_ok in H1 as (Hm1 & Hstop & d & Hd & Hall); [|done..].
      cbn [flat_map]. destruct stop.
      * injection H2 as <- _. cbn [mr_outcomes mr_status]. split; [done|].
        exists (d `min` length (stream_keys c))%nat. rewrite Hd.
        rewrite take_app_le by lia. rewrite <- take_take, firstn_all.
        split; [done|]. intros Hn. by destruct Hn, Hstop as [-> _].
      * assert (overall1 ≠ MULTI_FAILED) by (intros Hx; by apply Hstop in Hx).
        apply IH in H2 as (Hm2 & d2 & Hd2 & Hall2); [|done..]. split; [done|].
        exists (length (stream_keys c) + d2)%nat. rewrite Hd2, Hd, take_app_add, Hall by done.
        rewrite <- app_assoc. split; [done|]. intros Hn. by rewrite Hall2.
    + cbv zeta in H. destruct (rejected_ok c (classify_source_failure exc) Hc) as (H1 & H2 & H3 & H4).
      cbn [flat_map]. destruct (bool_decide (sf_disposition _ = FATAL)) eqn:Ed; bool_hyps.
      * injection H as <- _. cbn [mr_outcomes mr_status]. split; [by apply multi_ok_failed, H2|].
        exists (length (stream_keys c)). unfold outcome_streams in *. rewrite map_app, H4.
        by rewrite take_app_length.
      * apply IH in H as (Hm2 & d2 & Hd2 & Hall2); [|done|].
        2:{ eapply multi_ok_incomplete; [done..|by apply H3|done]. }
        split; [done|]. exists (length (stream_keys c) + d2)%nat.
        unfold outcome_streams in *. rewrite Hd2, map_app, H4, take_app_add, <- app_assoc.
        split; [done|]. intros Hn. by rewrite Hall2.
Qed.

(** *** What a run keeps, and what its outcomes are of *)

Section run_facts.
Context (P : σ → Prop) (n : Z) (coverages : list InstrumentCoverage).
Hypotheses (Hverify : ∀ c, c ∈ coverages → sr_keeps P (metadata_verifier c))
  (Hbootstrap : ∀ c k, c ∈ coverages → k ∈ stream_keys c → sr_keeps P (bootstrap c k (mkBootstrapRequest k n))).

Lemma sr_keeps_bootstrap_streams c keys outcomes overall :
  c ∈ coverages → keys ⊆ stream_keys c → sr_keeps P (bootstrap_streams bootstrap c n keys outcomes overall).
Proof using Hbootstrap.
  intros Hc. revert outcomes overall. induction keys as [|k keys IH]; intros outcomes overall Hk; cbn [bootstrap_streams].
  { apply sr_keeps_ret. }
  apply list_subseteq_cons_iff in Hk as [Hk Hkeys]. apply sr_keeps_lift_bind. intros q Hq.
  apply raise_if_bind_ok in Hq as [_ [= <-]]. apply sr_keeps_bind; [by apply Hbootstrap|]. intros r. cbv zeta.
  destruct (bool_decide _); [apply sr_keeps_ret|]. destruct (_ || _); by apply IH.
Qed.

Lemma sr_keeps_backfill_all :
  (∀ c, c ∈ coverages → ic_enabled c = true) →
  sr_keeps P (backfill_all metadata_verifier bootstrap coverages (mkMultiRequest n)).
Proof using Hverify Hbootstrap.
  intros Hen. assert (Hloop : ∀ cs outcomes overall, cs ⊆ coverages →
    sr_keeps P (bootstrap_coverages metadata_verifier bootstrap n cs outcomes overall)).
  { induction cs as [|c cs IH]; intros outcomes overall Hcs; cbn [bootstrap_coverages]; [apply sr_keeps_ret|].
    apply list_subseteq_cons_iff in Hcs as [Hc Hcs].
    apply sr_keeps_bind; [by apply sr_keeps_attempt, Hverify|]. intros [u|exc]; cbv zeta.
    - apply sr_keeps_bind; [by apply sr_keeps_bootstrap_streams|]. intros [[os st] [|]]; [apply sr_keeps_ret|by apply IH].
    - destruct (bool_decide _); [apply sr_keeps_ret|by apply IH]. }
  unfold backfill_all. cbv zeta. destruct (List.filter ic_enabled coverages) as [|c cs] eqn:Hf; [apply sr_keeps_lift|].
  apply Hloop. rewrite <- Hf. intros x [Hx _]%list_elem_of_In%filter_In. by apply list_elem_of_In.
Qed.
End run_facts.

(** Every result of the outcomes was reported by a bootstrap of its stream. *)
Definition outcome_of (Q : StreamKey → FullHistoryBootstrapResult → Prop) (o : MultiStreamBackfillOutcome) : Prop :=
  match mo_result o with
  | Some r => Q (mo_stream o) r ∧ mo_error_code o = fr_error_code r ∧ mo_failure_disposition o = fr_failure_disposition r
  | None => is_Some (mo_error_code o)
  end.

Section outcomes.
Context (Q : StreamKey → FullHistoryBootstrapResult → Prop) (n : Z).
Hypothesis HQ : ∀ c k w r w', 0 < n → bootstrap c k (mkBootstrapRequest k n) w = (Ok r, w') → Q k r.

Lemma bootstrap_streams_of c keys outcomes overall w outcomes' overall' stop w' :
  Forall (outcome_of Q) outcomes →
  bootstrap_streams bootstrap c n keys outcomes overall w = (Ok (outcomes', overall', stop), w') →
  Forall (outcome_of Q) outcomes'.
Proof using HQ.
  revert outcomes overall w. induction keys as [|k keys IH]; intros outcomes overall w Ho; cbn [bootstrap_streams].
  { by intros [= <- _ _ _]. }
  intros (q & w1 & Hq & (r & w2 & Hr & H)%sr_bind_ok)%sr_bind_ok. injection Hq as Hq <-.
  apply raise_if_bind_ok in Hq as [Hn [= <-]]. bool_hyps. apply HQ in Hr; [|done]. cbv zeta in H.
  assert (Ho' : Forall (outcome_of Q) (outcomes ++ [stream_outcome c k r])) by (apply Forall_app_2; [done|by repeat constructor]).
  destruct (bool_decide _); [by injection H as <- _ _ _|]. by destruct (_ || _); apply IH in H.
Qed.

Lemma bootstrap_coverages_of coverages outcomes overall w r w' :
  Forall (outcome_of Q) outcomes →
  bootstrap_coverages metadata_verifier bootstrap n coverages outcomes overall w = (Ok r, w') →
  Forall (outcome_of Q) (mr_outcomes r).
Proof using HQ.
  revert outcomes overall w. induction coverages as [|c coverages IH]; intros outcomes overall w Ho; cbn [bootstrap_coverages].
  { by intros [= <- _]. }
  intros (v & w1 & _ & H)%sr_bind_ok. destruct v as [u|exc].
  - apply sr_bind_ok in H as ([[outcomes1 overall1] stop] & w2 & H1 & H2).
    apply bootstrap_streams_of in H1; [|done]. destruct stop; [by injection H2 as <- _|by apply IH in H2].
  - cbv zeta in H.
    assert (Ho' : Forall (outcome_of Q) (outcomes ++ rejected_outcomes c (classify_source_failure exc))).
    { apply Forall_app_2; [done|]. apply Forall_map, Forall_true. intros k. by eexists. }
    destruct (bool_decide _); [by injection H as <- _|by apply IH in H].
Qed.
End outcomes.
End multi_facts.

(** ** Properties *)

(** What a bootstrap reports of the two steps it is made of. *)
Record bootstrap_report (req : FullHistoryBootstrapRequest) (r : FullHistoryBootstrapResult) : Prop := {
  brr_stream : fr_stream r = fb_stream req;
  brr_budget : total_windows_used r ≤ fb_max_windows req;
  brr_backfilled : fr_status r = BACKFILLED ↔ is_Some (fr_backfill r);
  brr_unresolved : fr_status r = LOWER_BOUND_UNRESOLVED ↔ fr_lower_bound r = None;
  brr_error : fr_lower_bound r = None → is_Some (fr_error_code r) ∧ is_Some (fr_error_detail r);
  brr_range : ∀ b, fr_backfill r = Some b → ∃ l e target,
    fr_lower_bound r = Some l ∧ lb_earliest_available_open_time_ms l = Some e ∧
    fr_target_open_time_ms r = Some target ∧
    bf_requested_window b = mkTimeWindow e (target + stream_step (fb_stream req)) ∧
    fr_error_code r = bf_error_code b;
  brr_incomplete : fr_status r = BOOTSTRAP_INCOMPLETE → fr_error_code r = None;
  brr_disposition : fr_error_code r = None → fr_failure_disposition r = None
}.

(** A full-history bootstrap spends at most its window budget over discovery and backfill
    together; it backfills exactly from the resolved lower bound to the last closed candle,
    reports the error of whichever step failed, and the missing-bound error of the code is
    never raised, whatever probe and progress store it is wired with. *)
Lemma full_bootstrap_reports `{E : Env} (progress : LowerBoundProgress) (probe : LowerBoundProbe)
    (m : Z) (req : FullHistoryBootstrapRequest) (w w' : World AbsStore) (r : FullHistoryBootstrapResult) :
  run (bootstrap_execute progress probe m req) w = (Ok r, w') → 0 < fb_max_windows req →
  bootstrap_report req r.
Proof.
  unfold bootstrap_execute. cbv zeta. intros (u & w1 & _ & H)%run_bind_ok Hn.
  apply run_bind_ok in H as (lb & w2 & Hlb & H). rewrite run_attempt in Hlb.
  destruct (run (resolve_lower_bound _ _ _ _) w1) as [r0 w3] eqn:Er. injection Hlb as -> <-.
  destruct lb as [l|exc].
  2:{ assert (∃ d, r = unresolved_result req exc d) as [d ->]; [|split; cbn; try done; unfold total_windows_used; cbn; try lia; by eauto].
      destruct (isinstance exc ExcHistoricalLowerBoundUnavailable);
        apply run_bind_ok in H as (now & w4 & _ & H); apply run_bind_ok in H as (dd & w5 & _ & H);
        injection H as <- _; by eexists. }
  apply resolve_lower_bound_ok in Er as (_ & Hk & Hu & Hres).
  destruct (lb_resolved l) eqn:Eres; cbn [negb] in H.
  2:{ injection H as <- _. split; cbn; try done; unfold total_windows_used; cbn; lia. }
  apply run_bind_ok in H as (now & w4 & _ & H). apply run_bind_ok in H as (target & w5 & _ & H).
  destruct (Z.leb_spec (fb_max_windows req - lb_discovery_windows_used l) 0) as [Hz|Hz].
  { injection H as <- _. split; cbn; try done; unfold total_windows_used; cbn; lia. }
  destruct (lb_earliest_available_open_time_ms l) as [e|] eqn:Ee; [|by destruct (proj1 Hres eq_refl)].
  apply run_bind_ok in H as (q & w6 & Hq & H). injection Hq as Hq _.
  apply BackfillStreamRequest_new_ok in Hq as (-> & _ & _).
  apply run_bind_ok in H as (b & w7 & Hb & H). injection H as <- _.
  apply backfill_execute_report in Hb as [? Hreq ? Hbud ? ? ? Hnone ?]; [|done].
  split; cbn in *; try done; [unfold total_windows_used; cbn; lia| |by intros (_ & _ & ?)%Hnone].
  intros b' [= <-]. by exists l, e, target.
Qed.

(** A run over all configured streams visits the streams of the enabled instruments in order;
    it is failed exactly when an outcome is fatal, and then stops there; otherwise it visits
    every stream, complete when all of them reached their target without an error. *)
Theorem backfill_all_outcomes {σ : Type} (metadata_verifier : InstrumentCoverage → StRes σ ())
    (bootstrap : InstrumentCoverage → StreamKey → FullHistoryBootstrapRequest → StRes σ FullHistoryBootstrapResult)
    (coverages : list InstrumentCoverage) (request : MultiStreamBackfillRequest)
    (w w' : σ) (r : MultiStreamBackfillResult) :
  Forall (λ c, ic_canonical_timeframes c ≠ []) coverages →
  backfill_all metadata_verifier bootstrap coverages request w = (Ok r, w') →
  let planned := flat_map stream_keys (List.filter ic_enabled coverages) in
  outcome_streams (mr_outcomes r) `prefix_of` planned ∧
  (mr_status r ≠ MULTI_FAILED → outcome_streams (mr_outcomes r) = planned) ∧
  (mr_status r = MULTI_FAILED ↔ Exists outcome_fatal (mr_outcomes r)) ∧
  (mr_status r = MULTI_COMPLETE ↔
     Forall (λ o, ¬ outcome_fatal o ∧ outcome_done o) (mr_outcomes r)).
Proof.
  intros HF Hrun planned. unfold backfill_all in Hrun. fold planned.
  assert (HF' : Forall (λ c, stream_keys c ≠ []) (List.filter ic_enabled coverages)).
  { apply Forall_forall. intros c [Hc _]%list_elem_of_In%filter_In. rewrite Forall_forall in HF.
    unfold stream_keys. intros Hn%map_eq_nil. by apply (HF c); [apply list_elem_of_In|]. }
  destruct (List.filter ic_enabled coverages) as [|c cs] eqn:Ec; [done|].
  apply bootstrap_coverages_ok in Hrun as (Hm & d & Hd & Hall); [|done..].
  cbn [outcome_streams map app] in Hd. fold planned in Hd, Hall. rewrite Hd.
  split; [by exists (drop d planned); rewrite take_drop|]. split; [done|].
  rewrite Forall_and. unfold multi_ok in Hm. destruct (mr_status r).
  - destruct Hm as [H1 H2]. split; [split; [done|]|done]. intros He. exfalso; apply (Exists_Forall_absurd _ _ _ He H1); tauto.
  - destruct Hm as [H1 H2]. split; [split; [done|]|split; [done|]].
    + intros He. exfalso; apply (Exists_Forall_absurd _ _ _ He H1); tauto.
    + intros [_ Hx]. exfalso; apply (Exists_Forall_absurd _ _ _ H2 Hx); tauto.
  - split; [done|]. split; [done|]. intros [Hx _]. exfalso; apply (Exists_Forall_absurd _ _ _ Hm Hx); tauto.
Qed.

(** A fatal failure of discovery that is not [HistoricalLowerBoundUnavailable] is reported
    without a disposition: the run over all streams then goes on to the next stream. *)
Lemma fatal_discovery_error_has_no_disposition req exc :
  is_recoverable_failure exc = false →
  sf_disposition (classify_source_failure exc) = FATAL ∧
  ∀ c k, ¬ outcome_fatal (stream_outcome c k (unresolved_result req exc None)).
Proof. intros H. unfold classify_source_failure. rewrite H. split; [done|]. by intros c k. Qed.

#[local] Existing Instance discovery_env.

Definition example_coverage (ticker : string) : InstrumentCoverage :=
  mkInstrumentCoverage (mkInstrumentKey ticker) "BTCUSDT" true [TF_1m; TF_5m] FULL_AVAILABLE false.

Lemma full_bootstrap_reports_witness :
  let p := run (bootstrap_execute candle_progress (candle_probe 2) 1000 (mkBootstrapRequest example_stream 9))
             (mkWorld undiscovered_store None 0 0) in
  fmap (λ r, (fr_status r, total_windows_used r, fr_error_code r)) p.1 = Ok (BACKFILLED, 3, None) ∧
  ∀ r, p = (Ok r, p.2) → bootstrap_report (mkBootstrapRequest example_stream 9) r.
Proof.
  intros p. split; [by vm_compute|]. intros r Hp.
  by apply (full_bootstrap_reports _ _ _ _ _ _ _ Hp).
Defined.

(** The second instrument is refused, which ends the run. *)
Definition example_verifier (c : InstrumentCoverage) : StRes (World AbsStore) () :=
  if bool_decide (ticker (ic_instrument c) = "BTCUSDT.P"%string) then mret ()
  else sr_lift (raise ExcInstrumentMetadataMismatch "symbol").
Definition example_bootstrap (c : InstrumentCoverage) (k : StreamKey)
    (req : FullHistoryBootstrapRequest) : StRes (World AbsStore) FullHistoryBootstrapResult :=
  mret (mkBootstrapResult k BACKFILLED (fb_max_windows req) None None
    (Some (mkBackfillResult k (mkTimeWindow 0 1) 1 1 true 1 [] None None None)) None None None).
Definition example_coverages : list InstrumentCoverage :=
  map example_coverage ["BTCUSDT.P"; "ETHUSDT.P"; "SOLUSDT.P"]%string.

Lemma backfill_all_outcomes_witness :
  let p := backfill_all example_verifier example_bootstrap example_coverages (mkMultiRequest 3)
             (mkWorld example_store None 0 0) in
  fmap (λ r, (length (mr_outcomes r), mr_status r)) p.1 = Ok (4%nat, MULTI_FAILED) ∧
  ∀ r, p = (Ok r, p.2) →
    (mr_status r = MULTI_FAILED ↔ Exists outcome_fatal (mr_outcomes r)).
Proof.
  intros p. split; [by vm_compute|]. intros r Hr.
  by apply (backfill_all_outcomes example_verifier example_bootstrap example_coverages
    (mkMultiRequest 3) (mkWorld example_store None 0 0) p.2 r);
    [repeat constructor; discriminate|exact Hr].
Defined.
