(* ===== verification/Repair.v ===== *)
(** * Continuity audit and bounded gap repair

    application/audit_continuity.py, application/repair_types.py,
    application/repair_state.py and application/repair_gaps.py.  A repair is written
    against two interfaces, the open times of a track ([OpenTimeReader]) and its recorder
    ([RepairRecorder]); [candle_open_times] and [repair_state] are the candle track.
    [RecorderSafe] and [ImporterSafe] are what a repair needs of them to be safe. *)

From S2P Require Import Prelude PyStr DecimalValues Timeframes Identity Gaps Candles StreamState.
From S2P Require Import Instruments OpenInterest Storage AbsStore Ingest ImportWindow UseCase.
From S2P Require Import Backfill FullBootstrap.

(** ** application/audit_continuity.py *)

Record AuditStreamContinuityRequest := mkAuditRequest {
  au_stream : StreamKey;
  au_start_time_ms : Z;
  au_end_time_ms : Z
}.

Definition AuditStreamContinuityRequest_new (k : StreamKey) (start_time end_time : Z) :
    res AuditStreamContinuityRequest :=
  _ ← raise_if (end_time <=? start_time) ExcValueError
        "audit range must satisfy start_time_ms < end_time_ms";
  _ ← raise_if (negb (start_time mod stream_step k =? 0) || negb (end_time mod stream_step k =? 0))
        ExcValueError "audit range must be aligned to stream timeframe";
  mret (mkAuditRequest k start_time end_time).

Definition OpenTimeReader : Type := StreamKey → Z → Z → M (list Z).

Definition candle_open_times : OpenTimeReader := λ k start_time end_time,
  candles ← op (ListCandles k start_time end_time);
  mret (map cc_open_time_ms candles).

Definition open_interest_open_times : OpenTimeReader := λ k start_time end_time,
  op (ListOpenInterestTimes k start_time end_time).

(** [AuditStreamContinuity.execute] *)
Definition audit_continuity (open_times : OpenTimeReader) (request : AuditStreamContinuityRequest) :
    M ContinuityReport :=
  let k := au_stream request in
  observed ← with_uow (
    registered ← op (StreamExists k);
    _ ← lift (raise_if (negb registered) ExcUnknownStreamError
                ("stream is not registered: " ++ stream_canonical_id k));
    open_times k (au_start_time_ms request) (au_end_time_ms request));
  window ← lift (TimeWindow_new (au_start_time_ms request) (au_end_time_ms request));
  lift (build_continuity_report k window observed (stream_step k)).

(** ** application/repair_types.py *)

Inductive RepairStatus := REPAIR_COMPLETE | REPAIR_INCOMPLETE | REPAIR_FAILED.

#[export] Instance RepairStatus_eq_dec : EqDecision RepairStatus.
Proof. solve_decision. Defined.

Record RepairStreamGapsRequest := mkRepairRequest {
  rq_stream : StreamKey;
  rq_start_time_ms : Z;
  rq_end_time_ms : Z;
  rq_max_windows : Z
}.

Definition RepairStreamGapsRequest_new (k : StreamKey) (start_time end_time max_windows : Z) :
    res RepairStreamGapsRequest :=
  _ ← raise_if (end_time <=? start_time) ExcValueError
        "repair range must satisfy start_time_ms < end_time_ms";
  _ ← raise_if (max_windows <=? 0) ExcValueError "max_windows must be positive";
  _ ← raise_if (negb (start_time mod stream_step k =? 0) || negb (end_time mod stream_step k =? 0))
        ExcValueError "repair range must be aligned to stream timeframe";
  mret (mkRepairRequest k start_time end_time max_windows).

(** [RepairWindowResult] has the fields of [BackfillWindowResult]. *)
Record RepairWindowResult := mkRepairWindow {
  rw_window : TimeWindow;
  rw_observed : Z;
  rw_committed : Z;
  rw_duplicates : Z;
  rw_corrected : Z;
  rw_rejected : Z;
  rw_unexpected : Z
}.

Definition repair_window_result (w : TimeWindow) (i : ImportWindowResult) : RepairWindowResult :=
  mkRepairWindow w (iw_observed i) (iw_committed i) (iw_duplicates i) (iw_corrected i)
    (iw_rejected i) (iw_unexpected i).

Record RepairProgressMarker := mkMarker {
  pm_requested_window : TimeWindow;
  pm_remaining_missing_candles : Z;
  pm_earliest_remaining_gap_start_ms : option Z
}.

Record RepairStreamGapsResult := mkRepairResult {
  rr_stream : StreamKey;
  rr_requested_window : TimeWindow;
  rr_status : RepairStatus;
  rr_pre_repair_audit : ContinuityReport;
  rr_post_repair_audit : option ContinuityReport;
  rr_attempted_windows : Z;
  rr_completed_windows : Z;
  rr_window_results : list RepairWindowResult;
  rr_error_code : option string;
  rr_error_detail : option string;
  rr_failure_disposition : option SourceFailureDisposition
}.

Definition repair_complete (r : RepairStreamGapsResult) : bool :=
  bool_decide (rr_status r = REPAIR_COMPLETE).

Definition progress_marker (r : RepairStreamGapsResult) : RepairProgressMarker :=
  let report := match rr_post_repair_audit r with
                | Some report => report
                | None => rr_pre_repair_audit r
                end in
  mkMarker (rr_requested_window r)
    (foldr Z.add 0 (map (λ g, (gap_end g - gap_start g) / stream_step (rr_stream r)) (report_gaps report)))
    (gap_start <$> head (report_gaps report)).

(** ** application/repair_state.py *)

(** [RepairRecorder] of repair_gaps.py. *)
Record RepairRecorder := mkRecorder {
  rec_ensure_auditing : StreamKey → M ();
  rec_record_audit : StreamKey → M ();
  rec_transition_to_repairing : StreamKey → M ();
  rec_record_rest_success : StreamKey → M ();
  rec_record_failure : StreamKey → exn → M ();
  rec_transition_repairing_to_auditing : StreamKey → M ();
  rec_record_unresolved_gaps : StreamKey → list Gap → M ()
}.

(** [transition_stream_state(..., changed_at_ms=max(now_ms, snapshot.updated_at_ms))] *)
Definition transition_later (s : StreamStateSnapshot) (target : StreamLifecycleState) (now : Z) :
    res (option StreamStateSnapshot) :=
  Some <$> transition_stream_state s target (Z.max now (updated_at_ms s)) None None.

Definition ensure_auditing (k : StreamKey) : M () :=
  now ← now_ms;
  update_state k (λ s,
    if bool_decide (ss_state s = AUDITING) then Ok None
    else if bool_decide (ss_state s ∉ [REPAIRING; DEGRADED; FAILED])
    then raise ExcInvalidStreamTransition
           ("repair requires auditing state, got " ++ lifecycle_value (ss_state s))
    else transition_later s AUDITING now).

Definition transition_to_repairing (k : StreamKey) : M () :=
  now ← now_ms;
  update_state k (λ s, transition_later s REPAIRING now).

Definition transition_repairing_to_auditing (k : StreamKey) : M () :=
  now ← now_ms;
  update_state k (λ s,
    if bool_decide (ss_state s = REPAIRING) then transition_later s AUDITING now else Ok None).

Definition record_audit (k : StreamKey) : M () :=
  now ← now_ms;
  update_state k (λ s, Some <$> snapshot_check
    (set_updated (set_marks s (Some now) (last_rest_success_at_ms s) (last_ws_message_at_ms s))
       (Z.max now (updated_at_ms s)))).

Definition record_rest_success (k : StreamKey) : M () :=
  now ← now_ms;
  update_state k (λ s, Some <$> snapshot_check
    (set_updated
       (set_error (set_marks s (last_audit_at_ms s) (Some now) (last_ws_message_at_ms s)) None None)
       (Z.max now (updated_at_ms s)))).

Definition repair_record_failure (k : StreamKey) (exc : exn) : M () :=
  now ← now_ms;
  update_state k (λ s,
    failed_snapshot (classify_source_failure exc) (Z.max now (updated_at_ms s)) s).

Definition record_unresolved_gaps (k : StreamKey) (gaps : list Gap) : M () :=
  now ← now_ms;
  with_uow (
    _ ← for_each gaps (λ g,
      _ ← op (RecordQuarantineOnce (mkQuarantine k (gap_start g) (gap_end g) "repair_incomplete_gap"
               "post-repair audit still reports a gap" None now));
      mret ());
    commit).

(** [RepairStateRecorder] *)
Definition repair_state : RepairRecorder :=
  mkRecorder ensure_auditing record_audit transition_to_repairing record_rest_success
    repair_record_failure transition_repairing_to_auditing record_unresolved_gaps.

(** ** application/repair_gaps.py *)

(** What the generator [_planned_windows] yields: its windows, and where it raises. *)
Fixpoint planned_windows (k : StreamKey) (max_candles : Z) (gaps : list Gap) : list (res TimeWindow) :=
  match gaps with
  | [] => []
  | g :: gaps =>
      match iter_fetch_windows g (stream_step k) max_candles with
      | Ok windows => map Ok windows ++ planned_windows k max_candles gaps
      | Raise e => [Raise e]
      end
  end.

Section repair.
Context (open_times : OpenTimeReader) (importer : StreamKey → TimeWindow → M ImportWindowResult)
  (state : RepairRecorder) (max_candles_per_window : Z).

(** [_audit] *)
Definition repair_audit (request : RepairStreamGapsRequest) : M ContinuityReport :=
  q ← lift (AuditStreamContinuityRequest_new (rq_stream request) (rq_start_time_ms request)
              (rq_end_time_ms request));
  audit_continuity open_times q.

(** The body of the [try]: the counters when it ended, and the exception that ended it. *)
Fixpoint repair_loop (k : StreamKey) (windows : list (res TimeWindow)) (attempted : Z)
    (results : list RepairWindowResult) : M (Z * list RepairWindowResult * option exn) :=
  match windows with
  | [] => mret (attempted, results, None)
  | Raise e :: _ => mret (attempted, results, Some e)
  | Ok window :: windows =>
      imported ← attempt (importer k window);
      match imported with
      | Raise e => mret (attempted + 1, results, Some e)
      | Ok imported =>
          let results := results ++ [repair_window_result window imported] in
          recorded ← attempt (rec_record_rest_success state k);
          match recorded with
          | Raise e => mret (attempted + 1, results, Some e)
          | Ok _ => repair_loop k windows (attempted + 1) results
          end
      end
  end.

(** [RepairStreamGaps.execute] *)
Definition repair_execute (request : RepairStreamGapsRequest) : M RepairStreamGapsResult :=
  let k := rq_stream request in
  requested_window ← lift (TimeWindow_new (rq_start_time_ms request) (rq_end_time_ms request));
  _ ← rec_ensure_auditing state k;
  pre ← repair_audit request;
  _ ← rec_record_audit state k;
  if is_continuous pre then
    mret (mkRepairResult k requested_window REPAIR_COMPLETE pre (Some pre) 0 0 [] None None None)
  else
    _ ← rec_transition_to_repairing state k;
    loop ← repair_loop k (take (Z.to_nat (rq_max_windows request))
                            (planned_windows k max_candles_per_window (report_gaps pre))) 0 [];
    match loop with
    | (attempted, results, Some exc) =>
        let decision := classify_source_failure exc in
        _ ← rec_record_failure state k exc;
        mret (mkRepairResult k requested_window REPAIR_FAILED pre None attempted
                (Z.of_nat (length results)) results (Some (class_name (exn_cls exc)))
                (Some (exn_str exc)) (Some (sf_disposition decision)))
    | (attempted, results, None) =>
        _ ← rec_transition_repairing_to_auditing state k;
        post ← repair_audit request;
        _ ← rec_record_audit state k;
        status ← (if is_continuous post then mret REPAIR_COMPLETE
                  else _ ← rec_record_unresolved_gaps state k (report_gaps post);
                       mret REPAIR_INCOMPLETE);
        mret (mkRepairResult k requested_window status pre (Some post) attempted
                (Z.of_nat (length results)) results None None None)
    end.
End repair.

(** ** Facts: the audit *)

(** A reader of a track: the times of the rows of the track, in the transaction it runs in,
    which it does not change. *)
Class TrackReader (open_times : OpenTimeReader) (stored : StreamRec → Z → Prop) : Prop := {
  track_reads : ∀ `{E : Env} db a n c k r s e obs w,
    stream_inv k r → ab_streams a !! k = Some r →
    run (open_times k s e) (mkWorld db (Some a) n c) = (Ok obs, w) →
    w = mkWorld db (Some a) n c ∧ ∀ t, t ∈ obs ↔ stored r t ∧ s ≤ t < e;
  track_keeps : ∀ r r' t,
    (is_Some (sr_candles r !! t) → is_Some (sr_candles r' !! t)) ∧
    (is_Some (sr_oi r !! t) → is_Some (sr_oi r' !! t)) → stored r t → stored r' t
}.

Definition candle_stored (r : StreamRec) (t : Z) : Prop := is_Some (sr_candles r !! t).
Definition oi_stored (r : StreamRec) (t : Z) : Prop := is_Some (sr_oi r !! t).

#[export] Instance candle_reader : TrackReader candle_open_times candle_stored.
Proof.
  split; [|by intros r r' t [? _]].
  intros E db a n c k r s e obs w Hri Hr. unfold candle_open_times. rewrite run_bind, run_op.
  cbn [store_step abs_storage]. unfold read_stream. rewrite Hr.
  destruct (list_candles_ok k r s e Hri) as (l & -> & HF). intros [= <- <-]. split; [done|].
  intros t. unfold candle_stored. rewrite <- range_times_elem.
  enough (map cc_open_time_ms l = range_times (sr_candles r) s e) as -> by done.
  induction HF as [|u cd us l (row & _ & _ & _ & Hu) HF IH]; [done|]. cbn. by rewrite Hu, IH.
Qed.

#[export] Instance oi_reader : TrackReader open_interest_open_times oi_stored.
Proof.
  split; [|by intros r r' t [_ ?]].
  intros E db a n c k r s e obs w Hri Hr. unfold open_interest_open_times. rewrite run_op.
  cbn [store_step abs_storage]. unfold read_stream. rewrite Hr. intros [= <- <-]. split; [done|].
  intros t. apply range_times_elem.
Qed.

Lemma AuditRequest_new_ok k s e q :
  AuditStreamContinuityRequest_new k s e = Ok q →
  q = mkAuditRequest k s e ∧ s < e ∧ on_grid (stream_step k) s ∧ on_grid (stream_step k) e.
Proof.
  unfold AuditStreamContinuityRequest_new, on_grid.
  intros (H1 & (H2 & H)%raise_if_bind_ok)%raise_if_bind_ok. injection H as <-. bool_hyps. by repeat split.
Qed.

Definition gap_inside (w : TimeWindow) (g : Gap) : Prop :=
  start_ms w ≤ gap_start g ∧ gap_start g < gap_end g ∧ gap_end g ≤ end_ms w.

(** What a report says of the times it was built from. *)
Lemma build_report_sound k w obs step rep :
  window_wf w → build_continuity_report k w obs step = Ok rep →
  (is_continuous rep = true ↔ report_gaps rep = []) ∧
  (is_continuous rep = true → ∀ t, on_grid step t → start_ms w ≤ t < end_ms w → t ∈ obs) ∧
  Forall (gap_inside w) (report_gaps rep).
Proof.
  intros Hw Hrep. destruct obs as [|o obs].
  - unfold build_continuity_report in Hrep. destruct (Gap_new _ _) eqn:Eg; [|done]. injection Hrep as <-.
    apply Gap_new_ok in Eg as [? ->]. split; [done|]. split; [done|]. repeat constructor; cbn; lia.
  - destruct (gaps_input_ok (o :: obs) w step) eqn:Hok.
    + destruct (build_report_ok k _ w step Hw Hok) as (r & Hr & _ & _ & _ & Hg & Hc).
      assert (r = rep) as -> by congruence. split; [done|]. split; [|apply Hg].
      intros Hn%Hc t Ht Hr'.
      assert (0 < step) by (unfold gaps_input_ok in Hok; bool_hyps; lia).
      apply dec_stable. by apply (gaps_spec_nil_iff _ _ _ _ _ ltac:(done) Hg).
    + unfold build_continuity_report in Hrep.
      destruct (find_gaps_error _ _ _ Hok) as [msg Hm]. by rewrite Hm in Hrep.
Qed.

Section audit.
Context `{E : Env} (open_times : OpenTimeReader) (stored : StreamRec → Z → Prop)
  `{HR : !TrackReader open_times stored}.

Lemma run_audit a t c q rep w' :
  store_inv a → au_start_time_ms q < au_end_time_ms q →
  run (audit_continuity open_times q) (mkWorld a None t c) = (Ok rep, w') →
  w' = mkWorld a None t c ∧ ∃ r, ab_streams a !! au_stream q = Some r ∧
    (is_continuous rep = true ↔ report_gaps rep = []) ∧
    (is_continuous rep = true → ∀ u, on_grid (stream_step (au_stream q)) u →
       au_start_time_ms q ≤ u < au_end_time_ms q → stored r u) ∧
    Forall (gap_inside (mkTimeWindow (au_start_time_ms q) (au_end_time_ms q))) (report_gaps rep).
Proof.
  intros Hi Hlt. unfold audit_continuity. cbv zeta. intros (obs & w1 & Hu & H)%run_bind_ok.
  rewrite run_with_uow, run_bind, run_stream_exists, run_bind, run_lift in Hu.
  destruct (ab_streams a !! au_stream q) as [r|] eqn:Hr.
  2:{ rewrite bool_decide_eq_false_2 in Hu by (by intros [? ?]). done. }
  rewrite bool_decide_eq_true_2 in Hu by done. cbn [negb raise_if] in Hu.
  destruct (run (open_times _ _ _) _) as [obs' w2] eqn:Eo. injection Hu as -> <-.
  eapply track_reads in Eo as [-> Hobs]; [|by eapply store_inv_lookup|done].
  apply run_bind_ok in H as (win & w3 & Hwin & H). injection Hwin as Hwin <-.
  apply TimeWindow_new_ok in Hwin as [_ ->].
  injection H as Hrep <-. split; [done|]. exists r. split; [done|].
  apply build_report_sound in Hrep as (H1 & H2 & H3); [|done]. split; [done|]. split; [|done].
  intros Hc u Hu Hr'. by apply Hobs, H2.
Qed.

(** An audit that returns reports exactly the aligned points of its range that are not stored. *)
Lemma run_audit_gaps a t c k from to rep w' :
  store_inv a → from < to → on_grid (stream_step k) from → on_grid (stream_step k) to →
  run (audit_continuity open_times (mkAuditRequest k from to)) (mkWorld a None t c) = (Ok rep, w') →
  w' = mkWorld a None t c ∧ ∃ r, ab_streams a !! k = Some r ∧
    report_stream rep = k ∧ checked_start_ms rep = from ∧ checked_end_ms rep = to ∧
    gaps_spec (stored r) from to (stream_step k) (report_gaps rep) ∧
    (is_continuous rep = true ↔ report_gaps rep = []).
Proof.
  intros Hi Hlt Hf Ht. unfold audit_continuity. cbv zeta. intros (obs & w1 & Hu & H)%run_bind_ok.
  cbn [au_stream au_start_time_ms au_end_time_ms] in *.
  rewrite run_with_uow, run_bind, run_stream_exists, run_bind, run_lift in Hu.
  destruct (ab_streams a !! k) as [r|] eqn:Hr.
  2:{ rewrite bool_decide_eq_false_2 in Hu by (by intros [? ?]). done. }
  rewrite bool_decide_eq_true_2 in Hu by done. cbn [negb raise_if] in Hu.
  destruct (run (open_times _ _ _) _) as [obs' w2] eqn:Eo. injection Hu as -> <-.
  eapply track_reads in Eo as [-> Hobs]; [|by eapply store_inv_lookup|done].
  apply run_bind_ok in H as (win & w3 & Hwin & H). injection Hwin as Hwin <-.
  apply TimeWindow_new_ok in Hwin as [_ ->]. injection H as Hrep <-. split; [done|]. exists r. split; [done|].
  assert (Hok : gaps_input_ok obs (mkTimeWindow from to) (stream_step k) = true ∨ obs = []).
  { destruct (gaps_input_ok obs _ _) eqn:Hok; [by left|right]. destruct obs as [|o obs]; [done|].
    unfold build_continuity_report in Hrep. destruct (find_gaps_error _ _ _ Hok) as [msg Hm]. by rewrite Hm in Hrep. }
  assert (Hok' : gaps_input_ok obs (mkTimeWindow from to) (stream_step k) = true).
  { destruct Hok as [?| ->]; [done|]. unfold gaps_input_ok, on_grid in *. cbn [start_ms end_ms forallb].
    rewrite Hf, Ht. by rewrite (proj2 (Z.ltb_lt _ _) (stream_step_pos k)). }
  destruct (build_report_ok k obs (mkTimeWindow from to) (stream_step k) Hlt Hok') as (r1 & Hr1 & H1 & H2 & H3 & H4 & H5).
  assert (r1 = rep) as -> by congruence. do 3 (split; [done|]). split; [|done].
  eapply gaps_spec_iff; [|exact H4]. intros u Hu. rewrite Hobs. tauto.
Qed.
End audit.

(** The audit of the candles of a registered stream, whose rows are all on its grid, always ends in
    the report of exactly what is missing. *)
Lemma run_candle_audit `{E : Env} a n c k r from to :
  store_inv a → ab_streams a !! k = Some r → from < to →
  on_grid (stream_step k) from → on_grid (stream_step k) to →
  ∃ rep, run (audit_continuity candle_open_times (mkAuditRequest k from to)) (mkWorld a None n c) =
           (Ok rep, mkWorld a None n c) ∧
    report_stream rep = k ∧ checked_start_ms rep = from ∧ checked_end_ms rep = to ∧
    gaps_spec (candle_stored r) from to (stream_step k) (report_gaps rep) ∧
    (is_continuous rep = true ↔ report_gaps rep = []).
Proof.
  intros Hi Hr Hlt Hf Ht. pose proof (store_inv_lookup _ _ _ Hi Hr) as Hri. unfold audit_continuity. cbv zeta.
  cbn [au_stream au_start_time_ms au_end_time_ms].
  rewrite run_bind, run_with_uow, run_bind, run_stream_exists, run_bind, run_lift, Hr, bool_decide_eq_true_2 by done.
  cbn [negb raise_if]. destruct (run (candle_open_times k from to) (mkWorld a (Some a) n c)) as [obs w] eqn:Ho.
  assert (exists l, obs = Ok l) as [l ->].
  { revert Ho. unfold candle_open_times. rewrite run_bind, run_op. cbn [store_step abs_storage]. unfold read_stream. rewrite Hr.
    destruct (list_candles_ok k r from to Hri) as (l & -> & _). intros [= <- _]. by eexists. }
  apply (track_reads (open_times := candle_open_times) (stored := candle_stored) a a n c k r) in Ho as [-> Hobs]; [|done..].
  cbn [set_tx w_db w_ticks w_calls]. rewrite run_bind, run_lift.
  rewrite (proj2 (TimeWindow_new_ok from to _) (conj Hlt eq_refl)), run_lift.
  destruct (build_report_ok k l (mkTimeWindow from to) (stream_step k)) as (rep & -> & H1 & H2 & H3 & H4 & H5).
  - exact Hlt.
  - unfold gaps_input_ok, on_grid in *. rewrite (proj2 (Z.ltb_lt _ _) (stream_step_pos k)). cbn [start_ms end_ms].
    rewrite Hf, Ht. cbn. apply forallb_forall. intros t [(row & Hrow) _]%list_elem_of_In%Hobs.
    destruct (si_rows _ _ Hri t row Hrow) as (cd & _ & _ & _ & _ & _ & Hg & _). unfold on_grid in Hg. by rewrite Hg, orb_true_r.
  - exists rep. do 4 (split; [done|]). split; [|done]. cbn [start_ms end_ms] in H4.
    eapply gaps_spec_iff; [|exact H4]. intros t Htr. rewrite Hobs. tauto.
Qed.

(** ** Safety *)

Class RecorderSafe `{E : Env} (s : RepairRecorder) : Prop := {
  rs_ensure : ∀ k a0, keeps (good k a0) (rec_ensure_auditing s k);
  rs_audit : ∀ k a0, keeps (good k a0) (rec_record_audit s k);
  rs_repairing : ∀ k a0, keeps (good k a0) (rec_transition_to_repairing s k);
  rs_success : ∀ k a0, keeps (good k a0) (rec_record_rest_success s k);
  rs_failure : ∀ k a0 e, keeps (good k a0) (rec_record_failure s k e);
  rs_back : ∀ k a0, keeps (good k a0) (rec_transition_repairing_to_auditing s k);
  rs_gaps : ∀ k a0 g, keeps (good k a0) (rec_record_unresolved_gaps s k g)
}.

Class ImporterSafe `{E : Env} (importer : StreamKey → TimeWindow → M ImportWindowResult) : Prop :=
  importer_safe : ∀ k a0 w, keeps (good k a0) (importer k w).

Class ReaderSafe `{E : Env} (open_times : OpenTimeReader) : Prop :=
  reader_safe : ∀ k a0 s e, keeps (good k a0) (open_times k s e).

#[export] Hint Resolve rs_ensure rs_audit rs_repairing rs_success rs_failure rs_back rs_gaps
  importer_safe reader_safe : keeps.

#[export] Instance candle_reader_safe `{E : Env} : ReaderSafe candle_open_times.
Proof. intros k a0 s e. unfold candle_open_times. keeps_tac. Qed.
#[export] Instance oi_reader_safe `{E : Env} : ReaderSafe open_interest_open_times.
Proof. intros k a0 s e. unfold open_interest_open_times. keeps_tac. Qed.
#[export] Instance import_window_safe `{E : Env} `{!EnvOk} : ImporterSafe import_window.
Proof. intros k a0 w. keeps_tac. Qed.

Lemma transition_later_step k target now : state_step k (λ s, transition_later s target now).
Proof. apply (state_step_transition k target (λ s, Z.max now (updated_at_ms s))). Qed.
#[export] Hint Resolve transition_later_step : mds.

#[export] Instance repair_state_safe `{E : Env} : RecorderSafe repair_state.
Proof.
  split; intros k a0; intros; cbn [repair_state rec_ensure_auditing rec_record_audit
    rec_transition_to_repairing rec_record_rest_success rec_record_failure
    rec_transition_repairing_to_auditing rec_record_unresolved_gaps];
    (apply keeps_bind; [auto with keeps|intros now]).
  - apply keeps_update_state.
    apply (state_step_if k (λ s, bool_decide _)); [apply state_step_none|].
    apply (state_step_if k (λ s, bool_decide _)); [|apply transition_later_step].
    by intros s s'.
  - apply keeps_update_state. by apply (state_step_check k (λ s, set_updated _ (Z.max now (updated_at_ms s)))).
  - apply keeps_update_state, transition_later_step.
  - apply keeps_update_state. by apply (state_step_check k (λ s, set_updated _ (Z.max now (updated_at_ms s)))).
  - apply keeps_update_state. apply (state_step_failed k _ (λ s, Z.max now (updated_at_ms s))).
  - apply keeps_update_state, (state_step_if k (λ s, bool_decide _));
      [apply transition_later_step|apply state_step_none].
  - apply keeps_with_uow, keeps_bind; [|auto with keeps]. apply keeps_for_each. intros ?. keeps_tac.
Qed.

Section repair_safe.
Context `{E : Env} (open_times : OpenTimeReader) `{!ReaderSafe open_times}
  (importer : StreamKey → TimeWindow → M ImportWindowResult) `{!ImporterSafe importer}
  (state : RepairRecorder) `{!RecorderSafe state}.

Lemma keeps_repair_audit k a0 req : rq_stream req = k → keeps (good k a0) (repair_audit open_times req).
Proof.
  intros <-. unfold repair_audit. apply keeps_lift_bind. intros q (-> & _)%AuditRequest_new_ok.
  unfold audit_continuity. cbv zeta. cbn [au_stream]. keeps_tac.
Qed.

Lemma keeps_repair_loop k a0 ws n results :
  keeps (good k a0) (repair_loop importer state k ws n results).
Proof.
  revert n results. induction ws as [|[w|e] ws IH]; intros n results; cbn [repair_loop]; keeps_tac.
Qed.

Lemma keeps_repair a0 m req :
  keeps (good (rq_stream req) a0) (repair_execute open_times importer state m req).
Proof.
  pose proof (keeps_repair_audit (rq_stream req) a0 req eq_refl) as Ha.
  pose proof (λ ws, keeps_repair_loop (rq_stream req) a0 ws) as Hl.
  unfold repair_execute. cbv zeta. keeps_tac.
Qed.
End repair_safe.
#[export] Hint Resolve keeps_repair_audit keeps_repair_loop keeps_repair : keeps.

(** ** What a repair reports *)

Record repair_report (stored : StreamRec → Z → Prop) (req : RepairStreamGapsRequest) (a' : AbsStore)
    (r : RepairStreamGapsResult) : Prop := {
  rp_stream : rr_stream r = rq_stream req;
  rp_requested : rr_requested_window r = mkTimeWindow (rq_start_time_ms req) (rq_end_time_ms req);
  rp_budget : rr_completed_windows r ≤ rr_attempted_windows r ≤ rq_max_windows req;
  rp_results : rr_completed_windows r = Z.of_nat (length (rr_window_results r));
  rp_windows : Forall (λ rw, ∃ g, g ∈ report_gaps (rr_pre_repair_audit r) ∧
                 gap_start g ≤ start_ms (rw_window rw) ∧ end_ms (rw_window rw) ≤ gap_end g)
                 (rr_window_results r);
  rp_complete : rr_status r = REPAIR_COMPLETE →
    ∃ r', ab_streams a' !! rq_stream req = Some r' ∧
      ∀ t, on_grid (stream_step (rq_stream req)) t → rq_start_time_ms req ≤ t < rq_end_time_ms req →
           stored r' t;
  rp_incomplete : rr_status r = REPAIR_INCOMPLETE →
    ∃ post, rr_post_repair_audit r = Some post ∧ report_gaps post ≠ [];
  rp_failed : rr_status r = REPAIR_FAILED ↔ is_Some (rr_error_code r);
  rp_disposition : is_Some (rr_error_code r) ↔ is_Some (rr_failure_disposition r);
  rp_no_post : rr_status r = REPAIR_FAILED ↔ rr_post_repair_audit r = None
}.

(** An audit of the range of a request over a store. *)
Definition audit_of (stored : StreamRec → Z → Prop) (req : RepairStreamGapsRequest) (a : AbsStore)
    (rep : ContinuityReport) : Prop :=
  ∃ r, ab_streams a !! rq_stream req = Some r ∧ report_stream rep = rq_stream req ∧
    checked_start_ms rep = rq_start_time_ms req ∧ checked_end_ms rep = rq_end_time_ms req ∧
    gaps_spec (stored r) (rq_start_time_ms req) (rq_end_time_ms req) (stream_step (rq_stream req))
      (report_gaps rep) ∧
    (is_continuous rep = true ↔ report_gaps rep = []).

(** What is stored of a stream is stored afterwards. *)
Definition rows_kept (stored : StreamRec → Z → Prop) (k : StreamKey) (a a' : AbsStore) : Prop :=
  ∀ r, ab_streams a !! k = Some r → ∃ r', ab_streams a' !! k = Some r' ∧ ∀ t, stored r t → stored r' t.

Section repair_exact.
Context `{E : Env} (stored : StreamRec → Z → Prop)
  (importer : StreamKey → TimeWindow → M ImportWindowResult) (state : RepairRecorder) (m : Z).

(** How the imports of a repair end early: the window after the completed ones fails, the
    recorder fails after the last completed one, or the next windows cannot be planned. *)
Inductive repair_stopped (k : StreamKey) (planned : list (res TimeWindow)) (completed : list TimeWindow)
    (attempted : Z) (exc : exn) (w : World AbsStore) : Prop :=
| stopped_import window rest w1 :
    planned = map Ok completed ++ Ok window :: rest → run (importer k window) w1 = (Raise exc, w) →
    attempted = Z.of_nat (length completed) + 1 → repair_stopped k planned completed attempted exc w
| stopped_record rest w1 :
    planned = map Ok completed ++ rest → completed ≠ [] →
    run (rec_record_rest_success state k) w1 = (Raise exc, w) →
    attempted = Z.of_nat (length completed) → repair_stopped k planned completed attempted exc w
| stopped_plan rest :
    planned = map Ok completed ++ Raise exc :: rest →
    attempted = Z.of_nat (length completed) → repair_stopped k planned completed attempted exc w.

(** A completed window is reported with the counts of its import. *)
Definition imported_as (k : StreamKey) (rw : RepairWindowResult) : Prop :=
  ∃ i w1 w2, run (importer k (rw_window rw)) w1 = (Ok i, w2) ∧ rw = repair_window_result (rw_window rw) i.

(** The whole report of a repair from [w0] to [w']. *)
Record repair_exact (req : RepairStreamGapsRequest) (w0 w' : World AbsStore) (r : RepairStreamGapsResult) :
    Prop := {
  rx_first : ∃ w1, run (rec_ensure_auditing state (rq_stream req)) w0 = (Ok (), w1) ∧
    audit_of stored req (w_db w1) (rr_pre_repair_audit r);
  rx_imports : Forall (imported_as (rq_stream req)) (rr_window_results r);
  rx_end :
    let k := rq_stream req in
    let planned := take (Z.to_nat (rq_max_windows req))
                     (planned_windows k m (report_gaps (rr_pre_repair_audit r))) in
    let completed := map rw_window (rr_window_results r) in
    match rr_status r with
    | REPAIR_FAILED =>
        rr_post_repair_audit r = None ∧ report_gaps (rr_pre_repair_audit r) ≠ [] ∧ ∃ exc w1,
          rr_error_code r = Some (class_name (exn_cls exc)) ∧ rr_error_detail r = Some (exn_str exc) ∧
          rr_failure_disposition r = Some (sf_disposition (classify_source_failure exc)) ∧
          repair_stopped k planned completed (rr_attempted_windows r) exc w1 ∧
          run (rec_record_failure state k exc) w1 = (Ok (), w')
    | status =>
        rr_error_code r = None ∧ rr_error_detail r = None ∧ rr_failure_disposition r = None ∧
        planned = map Ok completed ∧ rr_attempted_windows r = Z.of_nat (length completed) ∧
        ∃ post w1, rr_post_repair_audit r = Some post ∧ audit_of stored req (w_db w1) post ∧
          rows_kept stored k (w_db w1) (w_db w') ∧
          (report_gaps (rr_pre_repair_audit r) = [] → post = rr_pre_repair_audit r) ∧
          if bool_decide (status = REPAIR_COMPLETE) then report_gaps post = []
          else report_gaps post ≠ [] ∧ ∃ w2,
            run (rec_record_unresolved_gaps state k (report_gaps post)) w2 = (Ok (), w')
    end
}.

Lemma repair_loop_exact k ws n results w n' results' exc w' :
  n = Z.of_nat (length results) →
  run (repair_loop importer state k ws n results) w = (Ok (n', results', exc), w') →
  ∃ extra, results' = results ++ extra ∧ Forall (imported_as k) extra ∧
    match exc with
    | None => ws = map Ok (map rw_window extra) ∧ n' = n + Z.of_nat (length extra)
    | Some e =>
        (∃ window rest w1, ws = map Ok (map rw_window extra) ++ Ok window :: rest ∧
           run (importer k window) w1 = (Raise e, w') ∧ n' = n + Z.of_nat (length extra) + 1) ∨
        (∃ rest w1, ws = map Ok (map rw_window extra) ++ rest ∧ extra ≠ [] ∧
           run (rec_record_rest_success state k) w1 = (Raise e, w') ∧ n' = n + Z.of_nat (length extra)) ∨
        (∃ rest, ws = map Ok (map rw_window extra) ++ Raise e :: rest ∧ n' = n + Z.of_nat (length extra))
    end.
Proof.
  revert n results w. induction ws as [|[win|e] ws IH]; intros n results w Hn; cbn [repair_loop].
  - intros [= <- <- <- _]. exists []. rewrite app_nil_r. split_and!; [done|constructor|done|cbn; lia].
  - intros (i & w1 & Hi & H)%run_bind_ok. rewrite run_attempt in Hi.
    destruct (run (importer k win) w) as [i' w1'] eqn:Himp. injection Hi as <- <-. destruct i' as [i|e].
    2:{ injection H as <- <- <- <-. exists []. rewrite app_nil_r. split; [done|]. split; [constructor|].
        left. exists win, ws, w. split_and!; [done|done|cbn; lia]. }
    cbv zeta in H. apply run_bind_ok in H as (u & w2 & Hu & H). rewrite run_attempt in Hu.
    destruct (run (rec_record_rest_success state k) w1') as [u' w2'] eqn:Hrec. injection Hu as <- <-.
    assert (Has : imported_as k (repair_window_result win i)) by (by exists i, w, w1').
    destruct u' as [u|e].
    + apply IH in H as (extra & -> & HF & Hend); [|rewrite length_app; cbn; lia].
      exists (repair_window_result win i :: extra). rewrite <- app_assoc. split; [done|]. split; [by constructor|].
      destruct exc as [e|].
      * destruct Hend as [(window & rest & w3 & -> & Hr & ->)|[(rest & w3 & -> & Hne & Hr & ->)|(rest & -> & ->)]].
        -- left. exists window, rest, w3. split_and!; [done|done|cbn; lia].
        -- right; left. exists rest, w3. split_and!; [done|done|done|cbn; lia].
        -- right; right. exists rest. split; [done|cbn; lia].
      * destruct Hend as [-> ->]. split; [done|cbn; lia].
    + injection H as <- <- <- <-. exists [repair_window_result win i]. split; [done|].
      split; [by constructor|]. right; left. exists ws, w1'. split_and!; [done|done|done|cbn; lia].
  - intros [= <- <- <- <-]. exists []. rewrite app_nil_r. split; [done|]. split; [constructor|].
    right; right. exists ws. split; [done|cbn; lia].
Qed.

(** As one of the ways to stop. *)
Lemma repair_loop_stopped k ws w n' results' exc w' :
  run (repair_loop importer state k ws 0 []) w = (Ok (n', results', exc), w') →
  Forall (imported_as k) results' ∧
  match exc with
  | None => ws = map Ok (map rw_window results') ∧ n' = Z.of_nat (length (map rw_window results'))
  | Some e => repair_stopped k ws (map rw_window results') n' e w'
  end.
Proof.
  intros (extra & -> & HF & Hend)%repair_loop_exact; [|done]. cbn [app]. split; [done|].
  destruct exc as [e|]; rewrite ?Z.add_0_l in *; [|by rewrite length_map].
  destruct Hend as [(window & rest & w3 & Hp & Hr & ->)|[(rest & w3 & Hp & Hne & Hr & ->)|(rest & Hp & ->)]].
  - eapply stopped_import; [done..|by rewrite length_map].
  - eapply stopped_record; [done| |done|by rewrite length_map]. by destruct extra.
  - eapply stopped_plan; [done|by rewrite length_map].
Qed.
End repair_exact.

Definition inside_gap (gaps : list Gap) (w : TimeWindow) : Prop :=
  ∃ g, g ∈ gaps ∧ gap_start g ≤ start_ms w ∧ end_ms w ≤ gap_end g.

Lemma window_chain_inside a b ws w : window_chain a b ws → w ∈ ws → a ≤ start_ms w ∧ end_ms w ≤ b.
Proof.
  revert a. induction ws as [|x ws IH]; intros a; cbn; [by intros _ ?%elem_of_nil|].
  intros (<- & Hx & Hch). unfold window_wf in Hx. pose proof (window_chain_le _ _ _ Hch).
  intros [->|Hw]%elem_of_cons; [lia|]. specialize (IH _ Hch Hw). lia.
Qed.

Lemma planned_windows_inside w0 k n gaps w :
  Forall (gap_inside w0) gaps → Ok w ∈ planned_windows k n gaps → inside_gap gaps w.
Proof.
  intros HF. induction HF as [|g gaps (_ & Hg & _) HF IH]; cbn [planned_windows]; [by intros ?%elem_of_nil|].
  destruct (fetch_input_ok g (stream_step k) n) eqn:Hok.
  - destruct (iter_fetch_windows_ok g (stream_step k) n Hg Hok) as (ws & -> & Hch & _).
    intros [(w' & [= <-] & Hw)%list_elem_of_fmap|Hw]%elem_of_app.
    + exists g. split; [by left|]. by eapply window_chain_inside.
    + apply IH in Hw as (g' & ? & ?). exists g'. split; [by right|done].
  - destruct (iter_fetch_windows_error g (stream_step k) n Hok) as [msg ->].
    by intros ?%list_elem_of_singleton.
Qed.

Section repair_facts.
Context `{E : Env} (open_times : OpenTimeReader) (stored : StreamRec → Z → Prop)
  `{HR : !TrackReader open_times stored} `{!ReaderSafe open_times}
  (importer : StreamKey → TimeWindow → M ImportWindowResult) `{!ImporterSafe importer}
  (state : RepairRecorder) `{!RecorderSafe state} (m : Z).

Lemma repair_loop_report k gaps ws n results w n' results' exc w' :
  (∀ win, Ok win ∈ ws → inside_gap gaps win) →
  Forall (λ rw, inside_gap gaps (rw_window rw)) results → n = Z.of_nat (length results) →
  run (repair_loop importer state k ws n results) w = (Ok (n', results', exc), w') →
  Forall (λ rw, inside_gap gaps (rw_window rw)) results' ∧
  n ≤ n' ≤ n + Z.of_nat (length ws) ∧ Z.of_nat (length results') ≤ n'.
Proof.
  revert n results w. induction ws as [|[win|e] ws IH]; intros n results w Hws HF Hn; cbn [repair_loop].
  - intros [= <- <- <- _]. split; [done|]. cbn. lia.
  - intros (i & w1 & _ & H)%run_bind_ok. destruct i as [i|e].
    + cbv zeta in H. apply run_bind_ok in H as (u & w2 & _ & H).
      assert (HF' : Forall (λ rw, inside_gap gaps (rw_window rw))
                      (results ++ [repair_window_result win i])).
      { apply Forall_app_2; [done|]. repeat constructor. apply Hws. left. }
      destruct u as [u|e].
      * apply IH in H as (H1 & H2 & H3); [|intros ? ?; apply Hws; by right|done|rewrite length_app; cbn; lia].
        split; [done|]. cbn [length]. lia.
      * injection H as <- <- _ _. split; [done|]. rewrite length_app. cbn. lia.
    + injection H as <- <- _ _. split; [done|]. cbn [length]. lia.
  - intros [= <- <- _ _]. split; [done|]. cbn [length]. lia.
Qed.

(** A world with no transaction whose store satisfies the invariant. *)
Definition quiet (k : StreamKey) (a0 : AbsStore) (w : World AbsStore) : Prop :=
  w_tx w = None ∧ good k a0 (w_db w).

Lemma quiet_step {A} k a0 (p : prog A) w : keeps (good k a0) p → quiet k a0 w → quiet k a0 (run p w).2.
Proof.
  intros Hp [Htx Hg]. assert (Hw : holds_in (good k a0) w) by (split; [done|by rewrite Htx]).
  destruct (Hp w Hw) as [[Hg' _] Htx']. split; [by apply Htx'|done].
Qed.

Lemma run_repair_audit req w rep w' a0 :
  quiet (rq_stream req) a0 w → run (repair_audit open_times req) w = (Ok rep, w') →
  w' = w ∧ rq_start_time_ms req < rq_end_time_ms req ∧
  ∃ r, ab_streams (w_db w) !! rq_stream req = Some r ∧
    (is_continuous rep = true ↔ report_gaps rep = []) ∧
    (is_continuous rep = true → ∀ u, on_grid (stream_step (rq_stream req)) u →
       rq_start_time_ms req ≤ u < rq_end_time_ms req → stored r u) ∧
    Forall (gap_inside (mkTimeWindow (rq_start_time_ms req) (rq_end_time_ms req))) (report_gaps rep).
Proof.
  intros [Htx [Hi _]] (q & w1 & Hq & H)%run_bind_ok. injection Hq as Hq <-.
  apply AuditRequest_new_ok in Hq as (-> & Hlt & _). destruct w as [db tx n c]. cbn in Htx, Hi. subst tx.
  eapply run_audit in H as (-> & r & Hr & Hrep); [|done..]. split; [done|]. split; [done|]. by exists r.
Qed.

(** The stored points of an audit are still there after a step that keeps the invariant. *)
Lemma stored_after {A} k (p : prog A) w r :
  keeps (good k (w_db w)) p → w_tx w = None → store_inv (w_db w) → ab_streams (w_db w) !! k = Some r →
  ∃ r', ab_streams (w_db (run p w).2) !! k = Some r' ∧ ∀ t, stored r t → stored r' t.
Proof.
  intros Hp Htx Hi Hr. destruct (quiet_step k (w_db w) p w Hp) as [_ [_ [_ Hs Hrows]]].
  { split; [done|]. by apply good_refl. }
  destruct (proj1 Hs (ex_intro _ r Hr)) as [r' Hr']. exists r'. split; [done|].
  intros t. apply track_keeps. by apply Hrows.
Qed.

(** An audit and the step that records it. *)
Lemma audit_then {A} req (p : prog A) w rep w1 w2 x a0 :
  (∀ a1, keeps (good (rq_stream req) a1) p) → quiet (rq_stream req) a0 w →
  run (repair_audit open_times req) w = (Ok rep, w1) → run p w1 = (x, w2) →
  quiet (rq_stream req) a0 w2 ∧ rq_start_time_ms req < rq_end_time_ms req ∧
  (is_continuous rep = true ↔ report_gaps rep = []) ∧
  Forall (gap_inside (mkTimeWindow (rq_start_time_ms req) (rq_end_time_ms req))) (report_gaps rep) ∧
  (is_continuous rep = true → ∃ r', ab_streams (w_db w2) !! rq_stream req = Some r' ∧
     ∀ u, on_grid (stream_step (rq_stream req)) u →
       rq_start_time_ms req ≤ u < rq_end_time_ms req → stored r' u).
Proof.
  intros Hp Hq Ha Hx. apply (run_repair_audit _ _ _ _ a0) in Ha as (-> & Hlt & r & Hr & Hc & Hcov & Hin); [|done].
  assert (Hq2 : quiet (rq_stream req) a0 (run p w).2) by (by apply quiet_step).
  rewrite Hx in Hq2. split; [done|]. split; [done|]. split; [done|]. split; [done|].
  intros Hc'. destruct Hq as [Htx [Hi _]].
  destruct (stored_after (rq_stream req) p w r (Hp (w_db w)) Htx Hi Hr) as (r' & Hr' & Hs).
  rewrite Hx in Hr'. exists r'. split; [done|]. intros u Hu Hrange. by apply Hs, Hcov.
Qed.

Lemma run_repair_audit_of req w rep w' a0 :
  quiet (rq_stream req) a0 w → run (repair_audit open_times req) w = (Ok rep, w') →
  w' = w ∧ audit_of stored req (w_db w) rep.
Proof.
  intros [Htx [Hi _]] (q & w1 & Hq & H)%run_bind_ok. injection Hq as Hq <-.
  apply AuditRequest_new_ok in Hq as (-> & Hlt & Hf & Ht). destruct w as [db tx n c]. cbn in Htx, Hi. subst tx.
  eapply run_audit_gaps in H as (-> & r & Hr & Hrep); [|done..]. split; [done|]. by exists r.
Qed.

(** The rows of an audited store are kept by a step. *)
Lemma rows_kept_step {A} k a0 (p : prog A) w :
  (∀ a1, keeps (good k a1) p) → quiet k a0 w → rows_kept stored k (w_db w) (w_db (run p w).2).
Proof. intros Hp [Htx [Hi _]] r Hr. by apply (stored_after k p w r). Qed.

Lemma rows_kept_trans k a b c : rows_kept stored k a b → rows_kept stored k b c → rows_kept stored k a c.
Proof.
  intros H1 H2 r (r1 & Hr1 & Hs1)%H1. destruct (H2 r1 Hr1) as (r2 & Hr2 & Hs2). exists r2. split; [done|]. auto.
Qed.

Lemma repair_execute_exact req a t c r w' :
  store_inv a →
  run (repair_execute open_times importer state m req) (mkWorld a None t c) = (Ok r, w') →
  repair_exact stored importer state m req (mkWorld a None t c) w' r.
Proof.
  intros Hi. unfold repair_execute. cbv zeta. intros (win & w0 & Hwin & H)%run_bind_ok. injection Hwin as _ <-.
  assert (Hq : quiet (rq_stream req) a (mkWorld a None t c)) by (split; [done|by apply good_refl]).
  apply run_bind_ok in H as ([] & w1 & He & H).
  apply (quiet_step _ _ (rec_ensure_auditing state (rq_stream req))) in Hq; [|auto with keeps].
  rewrite He in Hq. cbn [snd] in Hq. apply run_bind_ok in H as (pre & w2 & Hpre & H).
  eapply run_repair_audit_of in Hpre as [-> Hof]; [|done].
  assert (Hcont : is_continuous pre = true ↔ report_gaps pre = []) by (by destruct Hof as (? & _ & _ & _ & _ & _ & ?)).
  apply run_bind_ok in H as (v & w3 & Hrec & H).
  assert (Hk3 : rows_kept stored (rq_stream req) (w_db w1) (w_db w3)).
  { change w3 with (Ok v, w3).2. rewrite <- Hrec. eapply rows_kept_step; [auto with keeps|done]. }
  apply (quiet_step _ _ (rec_record_audit state (rq_stream req))) in Hq; [|auto with keeps].
  rewrite Hrec in Hq. cbn [snd] in Hq. destruct (is_continuous pre) eqn:Ec.
  { injection H as <- <-. assert (Hn : report_gaps pre = []) by (by apply Hcont).
    split; cbn [rr_pre_repair_audit rr_window_results rr_status rr_error_code rr_error_detail
      rr_failure_disposition rr_attempted_windows rr_post_repair_audit]; [by exists w1|constructor|].
    rewrite Hn. cbn [planned_windows map]. rewrite take_nil. do 5 (split; [done|]). by exists pre, w1. }
  assert (Hn : report_gaps pre ≠ []) by (intros Hn%Hcont; congruence).
  apply run_bind_ok in H as (x & w4 & Hrep & H).
  apply (quiet_step _ _ (rec_transition_to_repairing state (rq_stream req))) in Hq; [|auto with keeps].
  rewrite Hrep in Hq. cbn [snd] in Hq. apply run_bind_ok in H as ([[attempted results] exc] & w5 & Hloop & H).
  pose proof (keeps_repair_loop importer state (rq_stream req) a
    (take (Z.to_nat (rq_max_windows req)) (planned_windows (rq_stream req) m (report_gaps pre))) 0 []) as Hk.
  apply (quiet_step _ _ _ _ Hk) in Hq as Hq5. rewrite Hloop in Hq5. cbn [snd] in Hq5. apply repair_loop_stopped in Hloop as [HF Hstop].
  destruct exc as [exc|].
  { apply run_bind_ok in H as ([] & w6 & Hfail & H). injection H as <- <-.
    split; cbn [rr_pre_repair_audit rr_window_results rr_status rr_error_code rr_error_detail
      rr_failure_disposition rr_attempted_windows rr_post_repair_audit]; [by exists w1|done|].
    split; [done|]. split; [done|]. by exists exc, w5. }
  destruct Hstop as [Hplan ->]. apply run_bind_ok in H as (y & w6 & Hback & H).
  apply (quiet_step _ _ (rec_transition_repairing_to_auditing state (rq_stream req))) in Hq5; [|auto with keeps].
  rewrite Hback in Hq5. cbn [snd] in Hq5. apply run_bind_ok in H as (post & w7 & Hpost & H).
  eapply run_repair_audit_of in Hpost as [-> Hof2]; [|done].
  assert (Hcont2 : is_continuous post = true ↔ report_gaps post = [])
    by (by destruct Hof2 as (? & _ & _ & _ & _ & _ & ?)).
  apply run_bind_ok in H as (z & w8 & Hrec2 & H).
  assert (Hk8 : rows_kept stored (rq_stream req) (w_db w6) (w_db w8)).
  { change w8 with (Ok z, w8).2. rewrite <- Hrec2. eapply rows_kept_step; [auto with keeps|done]. }
  apply (quiet_step _ _ (rec_record_audit state (rq_stream req))) in Hq5; [|auto with keeps].
  rewrite Hrec2 in Hq5. cbn [snd] in Hq5. apply run_bind_ok in H as (status & w9 & Hst & H). injection H as <- <-.
  split; cbn [rr_pre_repair_audit rr_window_results rr_status rr_error_code rr_error_detail
    rr_failure_disposition rr_attempted_windows rr_post_repair_audit]; [by exists w1|done|].
  destruct (is_continuous post) eqn:Ec2.
  - injection Hst as <- <-. do 5 (split; [done|]). exists post, w6. do 3 (split; [done|]). split; [done|].
    by apply Hcont2.
  - apply run_bind_ok in Hst as ([] & w10 & Hgaps & Hst). injection Hst as <- <-. do 5 (split; [done|]).
    exists post, w6. split; [done|]. split; [done|]. split.
    + eapply rows_kept_trans; [done|]. change w10 with (Ok (), w10).2. rewrite <- Hgaps.
      eapply rows_kept_step; [auto with keeps|done].
    + split; [done|]. split; [intros Hn2%Hcont2; congruence|]. by exists w8.
Qed.

Lemma repair_execute_report req a t c r w' :
  store_inv a → 0 < rq_max_windows req →
  run (repair_execute open_times importer state m req) (mkWorld a None t c) = (Ok r, w') →
  repair_report stored req (w_db w') r.
Proof.
  intros Hi Hmax. unfold repair_execute. cbv zeta. intros (win & w0 & Hwin & H)%run_bind_ok.
  injection Hwin as Hwin <-. apply TimeWindow_new_ok in Hwin as [_ ->].
  assert (Hq : quiet (rq_stream req) a (mkWorld a None t c)) by (split; [done|by apply good_refl]).
  apply run_bind_ok in H as (u & w1 & He & H).
  apply (quiet_step _ _ (rec_ensure_auditing state (rq_stream req))) in Hq; [|auto with keeps].
  rewrite He in Hq. clear He. cbn [snd] in Hq.
  apply run_bind_ok in H as (pre & w2 & Hpre & H). apply run_bind_ok in H as (v & w3 & Hrec & H).
  eapply audit_then in Hrec as (Hq3 & Hlt & Hc & Hin & Hcov); [|auto with keeps|done..].
  destruct (is_continuous pre) eqn:Ec.
  { injection H as <- <-. split; cbn; try done; [lia|].
    intros _. by apply Hcov. }
  apply run_bind_ok in H as (x & w4 & Hrep & H).
  apply (quiet_step _ _ (rec_transition_to_repairing state (rq_stream req))) in Hq3; [|auto with keeps].
  rewrite Hrep in Hq3. clear Hrep. cbn [snd] in Hq3.
  apply run_bind_ok in H as ([[attempted results] exc] & w5 & Hloop & H).
  pose proof (keeps_repair_loop importer state (rq_stream req) a
    (take (Z.to_nat (rq_max_windows req)) (planned_windows (rq_stream req) m (report_gaps pre))) 0 []) as Hk.
  apply (quiet_step _ _ _ _ Hk) in Hq3. rewrite Hloop in Hq3. cbn [snd] in Hq3.
  eapply (repair_loop_report _ (report_gaps pre)) in Hloop as (HF & Hn & Hlen); [| |constructor|done].
  2:{ intros w0 Hw0%elem_of_take. destruct Hw0 as (i & Hi0 & _).
      apply (planned_windows_inside _ (rq_stream req) m _ _ Hin). apply list_elem_of_lookup. by exists i. }
  rewrite length_take in Hn. destruct exc as [exc|].
  - apply run_bind_ok in H as (y & w6 & _ & H). injection H as <- <-.
    split; cbn; try done; lia.
  - apply run_bind_ok in H as (y & w6 & Hback & H).
    apply (quiet_step _ _ (rec_transition_repairing_to_auditing state (rq_stream req))) in Hq3; [|auto with keeps].
    rewrite Hback in Hq3. clear Hback. cbn [snd] in Hq3.
    apply run_bind_ok in H as (post & w7 & Hpost & H). apply run_bind_ok in H as (z & w8 & Hrec2 & H).
    eapply audit_then in Hrec2 as (Hq8 & _ & Hc2 & _ & Hcov2); [|auto with keeps|done..].
    apply run_bind_ok in H as (status & w9 & Hst & H). injection H as <- <-.
    assert (status ≠ REPAIR_FAILED ∧ (status = REPAIR_COMPLETE → is_continuous post = true ∧ w9 = w8) ∧
            (status = REPAIR_INCOMPLETE → is_continuous post = false)) as (Hs1 & Hs2 & Hs3).
    { destruct (is_continuous post); [injection Hst as <- <-; done|].
      apply run_bind_ok in Hst as (? & ? & _ & Hst). by injection Hst as <- _. }
    split; cbn; try done; [lia|..|].
    + intros [Hcont ->]%Hs2. by apply Hcov2.
    + intros Hf%Hs3. exists post. split; [done|]. intros Hnil%Hc2. congruence.
Qed.
End repair_facts.

(** ** Properties *)


(** A gap repair, whatever happens in it, leaves a canonical store with no open transaction,
    touches only its stream and loses none of its rows. *)
Theorem repair_safe `{E : Env} (open_times : OpenTimeReader) `{!ReaderSafe open_times}
    (importer : StreamKey → TimeWindow → M ImportWindowResult) `{!ImporterSafe importer}
    (state : RepairRecorder) `{!RecorderSafe state} (m : Z) (req : RepairStreamGapsRequest)
    (a : AbsStore) (t c : nat) :
  store_inv a →
  let w' := (run (repair_execute open_times importer state m req) (mkWorld a None t c)).2 in
  w_tx w' = None ∧ store_inv (w_db w') ∧ stream_frame (rq_stream req) a (w_db w').
Proof.
  intros Hi. cbv zeta. pose proof (keeps_repair open_times importer state a m req) as Hk.
  apply (quiet_step _ _ _ (mkWorld a None t c)) in Hk as [Htx [Hi' Hf]]; [done|].
  split; [done|by apply good_refl].
Qed.

#[local] Existing Instance import_env.
#[local] Existing Instance import_env_ok.

Definition example_repair : RepairStreamGapsRequest := mkRepairRequest example_stream 0 240000 3.
Definition repair_example_store : AbsStore :=
  with_stream example_store example_stream (upd_state example_rec
    (mkSnapshot example_stream AUDITING (Some 0) None None None None None None None 10 10)).

Lemma repair_example_inv : store_inv repair_example_store.
Proof.
  apply store_inv_with_stream; [apply example_store_inv|]. split; [done| | |].
  - by apply (snapshot_check_ok _ (mkSnapshot example_stream AUDITING (Some 0) None None None None None
      None None 10 10)).
  - apply map_Forall_empty.
  - by intros t [? ?].
Qed.


Lemma repair_safe_witness :
  let w' := (run (repair_execute candle_open_times import_window repair_state 2 example_repair)
               (mkWorld repair_example_store None 0 0)).2 in
  w_tx w' = None ∧ store_inv (w_db w') ∧ stream_frame example_stream repair_example_store (w_db w').
Proof.
  apply (repair_safe candle_open_times import_window repair_state 2 example_repair
    repair_example_store 0 0), repair_example_inv.
Defined.
