(* ===== verification/OpenInterestTrack.v ===== *)
(** * The open interest track of a stream

    application/open_interest_track_state.py, application/import_open_interest.py and
    application/open_interest_live.py.  [oi_track_progress] and [oi_track_recorder] are the
    instances of the lower-bound and repair interfaces for this track: discovery and repair
    of LowerBound.v and Repair.v apply to it unchanged. *)

From S2P Require Import Prelude PyStr DecimalValues Timeframes Identity Gaps Candles StreamState.
From S2P Require Import Instruments OpenInterest Storage AbsStore Ingest ImportWindow UseCase.
From S2P Require Import LowerBound Repair.

(** ** application/open_interest_track_state.py *)

(** [progress] *)
Definition track_progress (k : StreamKey) : M TrackProgress :=
  with_uow (op (GetTrackProgress k OPEN_INTEREST_TRACK)).

(** [_update]: [changes] is what [replace] changes besides [updated_at_ms]. *)
Definition update_progress (k : StreamKey) (changes : TrackProgress → TrackProgress) : M () :=
  now ← now_ms;
  with_uow (
    current ← op (GetTrackProgress k OPEN_INTEREST_TRACK);
    let p := changes current in
    next ← lift (TrackProgress_check
      (mkProgress (tp_stream p) (tp_track p) (tp_earliest p) (tp_discovery_next p) (tp_latest p)
         (tp_last_audit_at_ms p) (tp_last_audit_gap_count p) (tp_last_success_at_ms p)
         (tp_last_error_code p) (tp_last_error_detail p) (Z.max now (tp_updated_at_ms current))));
    _ ← op (SaveTrackProgress next);
    commit).

Definition with_bounds (p : TrackProgress) (earliest discovery : option Z) : TrackProgress :=
  mkProgress (tp_stream p) (tp_track p) earliest discovery (tp_latest p) (tp_last_audit_at_ms p)
    (tp_last_audit_gap_count p) (tp_last_success_at_ms p) (tp_last_error_code p)
    (tp_last_error_detail p) (tp_updated_at_ms p).
Definition with_error (p : TrackProgress) (code detail : option string) : TrackProgress :=
  mkProgress (tp_stream p) (tp_track p) (tp_earliest p) (tp_discovery_next p) (tp_latest p)
    (tp_last_audit_at_ms p) (tp_last_audit_gap_count p) (tp_last_success_at_ms p) code detail
    (tp_updated_at_ms p).
Definition with_audit (p : TrackProgress) (at_ms gap_count : option Z) : TrackProgress :=
  mkProgress (tp_stream p) (tp_track p) (tp_earliest p) (tp_discovery_next p) (tp_latest p) at_ms
    gap_count (tp_last_success_at_ms p) (tp_last_error_code p) (tp_last_error_detail p)
    (tp_updated_at_ms p).
Definition with_success (p : TrackProgress) (at_ms : option Z) : TrackProgress :=
  mkProgress (tp_stream p) (tp_track p) (tp_earliest p) (tp_discovery_next p) (tp_latest p)
    (tp_last_audit_at_ms p) (tp_last_audit_gap_count p) at_ms (tp_last_error_code p)
    (tp_last_error_detail p) (tp_updated_at_ms p).
Definition with_latest (p : TrackProgress) (latest : option Z) : TrackProgress :=
  mkProgress (tp_stream p) (tp_track p) (tp_earliest p) (tp_discovery_next p) latest
    (tp_last_audit_at_ms p) (tp_last_audit_gap_count p) (tp_last_success_at_ms p)
    (tp_last_error_code p) (tp_last_error_detail p) (tp_updated_at_ms p).

Definition oi_cached_earliest (k : StreamKey) : M (option Z) :=
  p ← track_progress k; mret (tp_earliest p).
Definition oi_discovery_cursor (k : StreamKey) : M (option Z) :=
  p ← track_progress k; mret (tp_discovery_next p).

(** The lower-bound progress store. *)
Definition oi_track_progress : LowerBoundProgress := {|
  cached_earliest := oi_cached_earliest;
  discovery_start := λ k launch_search_start,
    cursor ← oi_discovery_cursor k;
    mret (match cursor with None => launch_search_start | Some c => Z.max launch_search_start c end);
  current_discovery_cursor := oi_discovery_cursor;
  advance_discovery := λ k next_open_time_ms,
    earliest ← oi_cached_earliest k;
    match earliest with
    | Some _ => lift (raise ExcRuntimeError
                        "cannot advance discovery cursor after lower-bound resolution")
    | None => update_progress k (λ p, with_error (with_bounds p (tp_earliest p) (Some next_open_time_ms))
                                        None None)
    end;
  resolve_bound := λ k earliest_open_time_ms,
    update_progress k (λ p, with_error (with_bounds p (Some earliest_open_time_ms) None) None None)
|}.

(** The repair recorder: the track has no lifecycle transitions. *)
Definition oi_track_recorder : RepairRecorder := {|
  rec_ensure_auditing := λ _, mret ();
  rec_record_audit := λ k,
    at_ms ← now_ms;
    update_progress k (λ p, with_audit p (Some at_ms) (tp_last_audit_gap_count p));
  rec_transition_to_repairing := λ _, mret ();
  rec_record_rest_success := λ k,
    at_ms ← now_ms;
    update_progress k (λ p, with_error (with_success p (Some at_ms)) None None);
  rec_record_failure := λ k exc,
    update_progress k (λ p, with_error p (Some (class_name (exn_cls exc))) (Some (exn_str exc)));
  rec_transition_repairing_to_auditing := λ _, mret ();
  rec_record_unresolved_gaps := λ k gaps,
    update_progress k (λ p, with_audit p (tp_last_audit_at_ms p) (Some (Z.of_nat (length gaps))))
|}.

Definition oi_record_audit_result (k : StreamKey) (gap_count : Z) : M () :=
  at_ms ← now_ms;
  update_progress k (λ p, with_audit p (Some at_ms) (Some gap_count)).

(** ** application/import_open_interest.py *)

(** [_quarantine] *)
Definition quarantine_point (k : StreamKey) (point : ObservedOpenInterest) (reason_code : string) : M () :=
  let start := Z.max 0 (oi_open_time_ms point) in
  now ← now_ms;
  op (RecordQuarantine (mkQuarantine k start (start + 1) reason_code
        ("observed_stream=" +:+ stream_canonical_id (oi_stream point) +:+ " open_interest="
         +:+ repr_input (oi_value point)) None now)).

(** The counters of the loop: [counts], [unexpected], [latest]. *)
Record OiLoop := mkOiLoop { ol_counts : Counts; ol_unexpected : Z; ol_latest : option Z }.

Definition oi_expected (k : StreamKey) (w : TimeWindow) (point : ObservedOpenInterest) : bool :=
  bool_decide (oi_stream point = k) && window_contains w (oi_open_time_ms point).

(** One point of the loop of [execute]. *)
Definition oi_import_point (k : StreamKey) (w : TimeWindow) (s : OiLoop) (point : ObservedOpenInterest) :
    M OiLoop :=
  if negb (oi_expected k w point) then
    _ ← quarantine_point k point "unexpected_historical_open_interest";
    mret (mkOiLoop (ol_counts s) (ol_unexpected s + 1) (ol_latest s))
  else match open_interest_issue point with
  | Some issue =>
      _ ← quarantine_point k point issue;
      mret (mkOiLoop (bump (ol_counts s) REJECTED_INVALID) (ol_unexpected s) (ol_latest s))
  | None =>
      now ← now_ms;
      incoming ← lift (canonical_open_interest point now);
      existing ← op (GetOpenInterest k (oi_open_time_ms point));
      let classification := classify_open_interest incoming existing in
      _ ← (if bool_decide (classification ≠ DUPLICATE) then op (SaveOpenInterest incoming) else mret ());
      mret (mkOiLoop (bump (ol_counts s) classification) (ol_unexpected s)
              (Some (match ol_latest s with
                     | None => oi_open_time_ms point
                     | Some l => Z.max l (oi_open_time_ms point)
                     end)))
  end.

(** What follows the loop, before the commit. *)
Definition advance_latest (k : StreamKey) (latest : option Z) : M () :=
  match latest with
  | None => mret ()
  | Some latest =>
      progress ← op (GetTrackProgress k OPEN_INTEREST_TRACK);
      if (match tp_latest progress with None => true | Some previous => previous <? latest end)
      then next ← lift (TrackProgress_check (with_latest progress (Some latest)));
           op (SaveTrackProgress next)
      else mret ()
  end.

(** [ImportOpenInterestWindow.execute] *)
Definition import_open_interest (k : StreamKey) (w : TimeWindow) : M ImportWindowResult :=
  observed_at_ms ← now_ms;
  points ← call (EvFetchOpenInterest k w observed_at_ms);
  s ← with_uow (
    s ← fold_m (oi_import_point k w) (mkOiLoop no_counts 0 None) points;
    _ ← advance_latest k (ol_latest s);
    _ ← commit;
    mret s);
  mret (mkImportResult (Z.of_nat (length points)) (ol_counts s COMMITTED) (ol_counts s DUPLICATE)
          (ol_counts s CORRECTED) (ol_counts s REJECTED_INVALID) (ol_unexpected s)).

(** ** application/open_interest_live.py *)

(** [_stored] *)
Definition oi_is_stored (k : StreamKey) (open_time_ms : Z) : M bool :=
  with_uow (p ← op (GetOpenInterest k open_time_ms); mret (bool_decide (is_Some p))).

(** [AppendLiveOpenInterest.execute] *)
Definition append_live_open_interest (importer : StreamKey → TimeWindow → M ImportWindowResult)
    (k : StreamKey) (open_time_ms : Z) : M bool :=
  stored ← oi_is_stored k open_time_ms;
  if (stored : bool) then mret true
  else
    let step_ms := stream_step k in
    window ← lift (TimeWindow_new open_time_ms (open_time_ms + step_ms));
    _ ← importer k window;
    oi_is_stored k open_time_ms.

(** ** Safety *)

Lemma good_upd_rec k a0 a r r' :
  good k a0 a → ab_streams a !! k = Some r → sr_state r' = sr_state r → sr_candles r' = sr_candles r →
  (∀ t, is_Some (sr_oi r !! t) → is_Some (sr_oi r' !! t)) → good k a0 (with_stream a k r').
Proof.
  intros Hg Hr Hs Hc Ho. pose proof Hg as [Hi _].
  pose proof (store_inv_lookup _ _ _ Hi Hr) as [H1 H2 H3 H4].
  eapply good_trans; [exact Hg| |].
  - apply store_inv_with_stream; [done|]. split; rewrite ?Hs, ?Hc; done.
  - split; cbn.
    + intros k' Hne. by rewrite lookup_insert_ne.
    + rewrite lookup_insert_eq, Hr. split; by eexists.
    + intros r0 r1 Hr0. rewrite lookup_insert_eq. intros [= <-] t.
      assert (r0 = r) as -> by congruence. rewrite Hc. auto.
Qed.

Lemma keeps_save_progress `{E : Env} k a0 p : tp_stream p = k → keeps (good k a0) (op (SaveTrackProgress p)).
Proof.
  intros <-. apply keeps_op. intros s Hs. cbn [store_step abs_storage]. unfold on_stream, abs_save_progress.
  destruct (ab_streams s !! tp_stream p) as [r|] eqn:Hr; [|done].
  destruct (progress_row_ok p); cbn [snd]; eapply (good_upd_rec _ a0 s r); done.
Qed.

Lemma keeps_save_oi `{E : Env} k a0 p : co_stream p = k → keeps (good k a0) (op (SaveOpenInterest p)).
Proof.
  intros <-. apply keeps_op. intros s Hs. cbn [store_step abs_storage]. unfold on_stream, abs_save_oi.
  destruct (ab_streams s !! co_stream p) as [r|] eqn:Hr; [|done].
  destruct (negb _); cbn [snd]; eapply (good_upd_rec _ a0 s r); try done.
  intros t Ht. cbn. destruct (decide (t = co_open_time_ms p)) as [->|]; [rewrite lookup_insert_eq; by eexists|].
  by rewrite lookup_insert_ne.
Qed.
#[export] Hint Resolve keeps_save_progress keeps_save_oi : keeps.

Lemma get_progress_key k track r p :
  abs_get_progress k track r = Ok p → tp_stream p = k ∧ tp_track p = track.
Proof.
  unfold abs_get_progress. by destruct (sr_progress r !! track); intros [-> _]%TrackProgress_check_ok.
Qed.

(** The continuation of a read of the progress may use its key. *)
Lemma keeps_progress_bind `{E : Env} {B} I k track (f : TrackProgress → M B) :
  (∀ p, tp_stream p = k → tp_track p = track → keeps I (f p)) →
  keeps I (p ← op (GetTrackProgress k track); f p).
Proof.
  intros Hf w Hw. rewrite run_bind. destruct w as [db [s|] n c]; [|by split].
  rewrite run_op. cbn [store_step abs_storage]. unfold read_stream.
  destruct (ab_streams s !! k) as [r|]; [|by split].
  destruct (abs_get_progress k track r) as [p|] eqn:Ep; [|by split].
  apply get_progress_key in Ep as [H1 H2]. by apply Hf.
Qed.

(** A value of the [try]-free pure steps, in the middle of a program. *)
Lemma keeps_checked_save `{E : Env} k a0 p :
  tp_stream p = k → keeps (good k a0) (next ← lift (TrackProgress_check p); op (SaveTrackProgress next)).
Proof.
  intros Hp. apply keeps_lift_bind. intros q [-> _]%TrackProgress_check_ok. auto with keeps.
Qed.

Lemma keeps_update_progress `{E : Env} k a0 f :
  (∀ p, tp_stream (f p) = tp_stream p) → keeps (good k a0) (update_progress k f).
Proof.
  intros Hf. unfold update_progress. apply keeps_bind; [auto with keeps|intros now].
  apply keeps_with_uow, keeps_progress_bind. intros p Hp _. cbv zeta.
  apply keeps_lift_bind. intros q [-> _]%TrackProgress_check_ok.
  apply keeps_bind; [|auto with keeps]. apply keeps_save_progress. cbn. by rewrite Hf.
Qed.

Lemma keeps_track_progress `{E : Env} k k' a0 : keeps (good k a0) (track_progress k').
Proof. unfold track_progress. keeps_tac. Qed.
#[export] Hint Resolve keeps_track_progress : keeps.
#[export] Hint Extern 3 (keeps _ (update_progress _ _)) =>
  (apply keeps_update_progress; reflexivity) : keeps.

Lemma keeps_oi_cursor `{E : Env} k a0 : keeps (good k a0) (oi_discovery_cursor k).
Proof. unfold oi_discovery_cursor. keeps_tac. Qed.
Lemma keeps_oi_earliest `{E : Env} k a0 : keeps (good k a0) (oi_cached_earliest k).
Proof. unfold oi_cached_earliest. keeps_tac. Qed.
#[export] Hint Resolve keeps_oi_cursor keeps_oi_earliest : keeps.

#[export] Instance oi_progress_safe `{E : Env} : ProgressSafe oi_track_progress.
Proof.
  split; intros k a0; intros; cbn [oi_track_progress cached_earliest discovery_start
    current_discovery_cursor advance_discovery resolve_bound]; keeps_tac.
Qed.

#[export] Instance oi_recorder_safe `{E : Env} : RecorderSafe oi_track_recorder.
Proof.
  split; intros k a0; intros; cbn [oi_track_recorder rec_ensure_auditing rec_record_audit
    rec_transition_to_repairing rec_record_rest_success rec_record_failure
    rec_transition_repairing_to_auditing rec_record_unresolved_gaps]; keeps_tac.
Qed.

Lemma keeps_import_point `{E : Env} k a0 w s point : keeps (good k a0) (oi_import_point k w s point).
Proof.
  unfold oi_import_point, quarantine_point. cbv zeta. destruct (oi_expected k w point) eqn:He; cbn [negb].
  - destruct (open_interest_issue point); [keeps_tac|]. apply keeps_bind; [auto with keeps|intros now].
    apply keeps_lift_bind. intros p Hp. apply keeps_bind; [auto with keeps|intros e].
    apply keeps_bind; [|auto with keeps]. destruct (bool_decide _); [|auto with keeps].
    apply keeps_save_oi. unfold canonical_open_interest in Hp. apply res_bind_ok in Hp as (t & _ & Hp).
    injection Hp as <-. unfold oi_expected in He. by bool_hyps.
  - keeps_tac.
Qed.

Lemma keeps_advance_latest `{E : Env} k a0 latest : keeps (good k a0) (advance_latest k latest).
Proof.
  unfold advance_latest. destruct latest as [l|]; [|apply keeps_ret].
  apply keeps_progress_bind. intros p Hp _.
  assert (keeps (good k a0) (next ← lift (TrackProgress_check (with_latest p (Some l)));
                             op (SaveTrackProgress next))) by (by apply keeps_checked_save).
  destruct (tp_latest p) as [pr|]; [destruct (pr <? l)|]; first [assumption|apply keeps_ret].
Qed.
#[export] Hint Resolve keeps_import_point keeps_advance_latest : keeps.

#[export] Instance import_open_interest_safe `{E : Env} : ImporterSafe import_open_interest.
Proof.
  intros k a0 w. unfold import_open_interest.
  pose proof (λ s l, keeps_fold_m (good k a0) (oi_import_point k w) s l
    (λ b x, keeps_import_point k a0 w b x)). keeps_tac.
Qed.

(** ** What an import of points does *)

Definition oi_accepted (k : StreamKey) (w : TimeWindow) (p : ObservedOpenInterest) : bool :=
  oi_expected k w p && bool_decide (open_interest_issue p = None).

(** The canonical text of a point. *)
Definition oi_text (p : ObservedOpenInterest) : string :=
  match decimal_to_canonical_text (oi_value p) with Ok t => t | Raise _ => "" end.

(** The stored texts of a stream, and the texts after a point. *)
Definition oi_texts (r : StreamRec) : gmap Z string := or_value <$> sr_oi r.
Definition accept_text (k : StreamKey) (w : TimeWindow) (m : gmap Z string) (p : ObservedOpenInterest) :
    gmap Z string :=
  if oi_accepted k w p then <[oi_open_time_ms p := oi_text p]> m else m.
Definition accept_latest (k : StreamKey) (w : TimeWindow) (latest : option Z) (p : ObservedOpenInterest) :
    option Z :=
  if oi_accepted k w p
  then Some (match latest with None => oi_open_time_ms p | Some l => Z.max l (oi_open_time_ms p) end)
  else latest.

Definition oi_total (s : OiLoop) : Z :=
  ol_counts s COMMITTED + ol_counts s DUPLICATE + ol_counts s CORRECTED + ol_counts s REJECTED_INVALID +
  ol_unexpected s.

(** What the transaction has done after some points. *)
Record oi_imported (k : StreamKey) (w : TimeWindow) (points : list ObservedOpenInterest)
    (s s' : OiLoop) (a a' : AbsStore) (r r' : StreamRec) : Prop := {
  om_streams : ab_streams a' = <[k := r']> (ab_streams a);
  om_instruments : ab_instruments a' = ab_instruments a;
  om_state : sr_state r' = sr_state r;
  om_candles : sr_candles r' = sr_candles r;
  om_progress : sr_progress r' = sr_progress r;
  om_texts : oi_texts r' = fold_left (accept_text k w) points (oi_texts r);
  om_latest : ol_latest s' = fold_left (accept_latest k w) points (ol_latest s);
  om_total : oi_total s' = oi_total s + Z.of_nat (length points);
  om_rows : Z.of_nat (size (sr_oi r')) - ol_counts s' COMMITTED =
            Z.of_nat (size (sr_oi r)) - ol_counts s COMMITTED;
  om_quarantine : Z.of_nat (length (ab_quarantine a')) - ol_counts s' REJECTED_INVALID - ol_unexpected s' =
                  Z.of_nat (length (ab_quarantine a)) - ol_counts s REJECTED_INVALID - ol_unexpected s
}.

Lemma oi_imported_nil k w s a r : ab_streams a !! k = Some r → oi_imported k w [] s s a a r r.
Proof. intros Hr. split; try done; [by rewrite insert_id|cbn; lia]. Qed.

Lemma oi_imported_app k w l1 l2 s s1 s2 a a1 a2 r r1 r2 :
  oi_imported k w l1 s s1 a a1 r r1 → oi_imported k w l2 s1 s2 a1 a2 r1 r2 →
  oi_imported k w (l1 ++ l2) s s2 a a2 r r2.
Proof.
  intros [A1 A2 A3 A4 A5 A6 A7 A8 A9 A10] [B1 B2 B3 B4 B5 B6 B7 B8 B9 B10].
  split; rewrite ?fold_left_app, ?length_app; try congruence; try lia.
  by rewrite B1, A1, insert_insert_eq.
Qed.

Lemma oi_total_bump counts u l cls :
  cls ≠ REJECTED_UNCONFIGURED → cls ≠ REJECTED_UNCONFIRMED →
  oi_total (mkOiLoop (bump counts cls) u l) = oi_total (mkOiLoop counts u l) + 1.
Proof. intros H1 H2. unfold oi_total, bump. cbn. destruct cls; try done; repeat case_decide; simplify_eq; lia. Qed.

Section oi_import.
Context `{E : Env} (k : StreamKey) (w : TimeWindow).

Lemma run_quarantine_point db a n c r p code :
  ab_streams a !! k = Some r → ∃ q,
  run (quarantine_point k p code) (mkWorld db (Some a) n c) =
    (Ok (), mkWorld db (Some (with_quarantine a q)) (S n) c).
Proof.
  intros Hr. unfold quarantine_point. cbv zeta. rewrite run_bind, run_now. unfold tick.
  cbn [w_db w_tx w_ticks w_calls]. eexists. rewrite run_quarantine; [done|by exists r|].
  unfold quarantine_row_ok. cbn. lia.
Qed.

Lemma run_save_oi db a n c r p :
  ab_streams a !! co_stream p = Some r → 0 ≤ co_open_time_ms p →
  run (op (SaveOpenInterest p)) (mkWorld db (Some a) n c) =
    (Ok (), mkWorld db (Some (with_stream a (co_stream p) (upd_oi r (<[co_open_time_ms p :=
       mkOiRow (co_open_interest p) "bybit_rest" (co_committed_at_ms p)]> (sr_oi r))))) n c).
Proof.
  intros Hr H0. rewrite run_op. cbn [store_step abs_storage]. unfold on_stream, abs_save_oi.
  rewrite Hr. by replace (0 <=? co_open_time_ms p) with true by lia.
Qed.

Lemma run_get_oi db a n c r t :
  ab_streams a !! k = Some r →
  run (op (GetOpenInterest k t)) (mkWorld db (Some a) n c) =
    (Ok (oi_of_row k t <$> sr_oi r !! t), mkWorld db (Some a) n c).
Proof. intros Hr. rewrite run_op. cbn [store_step abs_storage]. unfold read_stream. by rewrite Hr. Qed.

Lemma accepted_text p t :
  open_interest_issue p = None → canonical_open_interest p t =
    Ok (mkCanonicalOI (oi_stream p) (oi_open_time_ms p) (oi_text p) t) ∧ 0 ≤ oi_open_time_ms p.
Proof.
  intros H. pose proof (open_interest_issue_none p t H) as (_ & H0 & _ & d & Hd & _ & Hc).
  split; [|done]. unfold canonical_open_interest, oi_text in *.
  by destruct (decimal_to_canonical_text (oi_value p)); [|done].
Qed.

Lemma import_point_ok db a n c r p s :
  ab_streams a !! k = Some r →
  ∃ s' a' r' n', run (oi_import_point k w s p) (mkWorld db (Some a) n c) =
      (Ok s', mkWorld db (Some a') n' c) ∧ oi_imported k w [p] s s' a a' r r'.
Proof.
  intros Hr. unfold oi_import_point. destruct (oi_expected k w p) eqn:He; cbn [negb].
  2:{ rewrite run_bind. destruct (run_quarantine_point db a n c r p
        "unexpected_historical_open_interest" Hr) as [q ->].
      eexists _, _, r, _. split; [reflexivity|].
      split; cbn; unfold accept_text, accept_latest, oi_accepted, oi_total;
        rewrite ?He; cbn; try done; rewrite ?insert_id, ?length_app; cbn; try done; lia. }
  destruct (open_interest_issue p) as [issue|] eqn:Ei.
  { rewrite run_bind. destruct (run_quarantine_point db a n c r p issue Hr) as [q ->].
    eexists _, _, r, _. split; [reflexivity|].
    split; cbn; unfold accept_text, accept_latest, oi_accepted;
      rewrite ?He, ?Ei, ?oi_total_bump by done; cbn; try done; rewrite ?insert_id, ?length_app;
      unfold bump; repeat case_decide; simplify_eq; cbn; try done; lia. }
  destruct (accepted_text p (env_clock n) Ei) as [Hc H0].
  assert (Hk : oi_stream p = k) by (unfold oi_expected in He; by bool_hyps).
  rewrite Hk in Hc. rewrite run_bind, run_now. unfold tick. cbn [w_db w_tx w_ticks w_calls].
  rewrite run_bind, run_lift, Hc, run_bind, (run_get_oi db a _ c r) by done. cbv zeta.
  assert (Hacc : oi_accepted k w p = true) by (unfold oi_accepted; by rewrite He, Ei).
  destruct (sr_oi r !! oi_open_time_ms p) as [row|] eqn:Erow; cbn [fmap option_fmap option_map classify_open_interest].
  - unfold oi_of_row. cbn [co_open_interest]. destruct (bool_decide (or_value row = _)) eqn:Eq; bool_hyps;
      cbv match.
    + rewrite (bool_decide_eq_false_2 (DUPLICATE ≠ DUPLICATE)) by (intros Hn; by apply Hn).
      rewrite run_bind, run_ret, run_ret. eexists _, a, r, _. split; [reflexivity|].
      split; cbn; unfold accept_text, accept_latest; rewrite ?Hacc, ?oi_total_bump by done;
        unfold bump; repeat case_decide; simplify_eq; try done; try lia.
      * by rewrite insert_id.
      * rewrite insert_id; [done|]. unfold oi_texts. by rewrite lookup_fmap, Erow, <- Eq.
    + rewrite bool_decide_eq_true_2, run_bind, (run_save_oi db a _ c r), run_ret by done.
      eexists _, _, _, _. split; [reflexivity|]. cbn [co_stream co_open_time_ms co_open_interest].
      split; cbn -[size]; unfold accept_text, accept_latest; rewrite ?Hacc, ?oi_total_bump by done;
        unfold bump; repeat case_decide; simplify_eq; try done; try lia.
      * unfold oi_texts. cbn. by rewrite fmap_insert.
      * cbn [sr_oi upd_oi]. rewrite map_size_insert, Erow. cbv match beta delta [id]. lia.
  - rewrite bool_decide_eq_true_2, run_bind, (run_save_oi db a _ c r), run_ret by done.
    eexists _, _, _, _. split; [reflexivity|]. cbn [co_stream co_open_time_ms co_open_interest].
    split; cbn -[size]; unfold accept_text, accept_latest; rewrite ?Hacc, ?oi_total_bump by done;
      unfold bump; repeat case_decide; simplify_eq; try done; try lia.
    + unfold oi_texts. cbn. by rewrite fmap_insert.
    + cbn [sr_oi upd_oi]. rewrite map_size_insert, Erow. cbv match beta delta [id]. lia.
Qed.

Lemma import_points_ok db a n c r l s :
  ab_streams a !! k = Some r →
  ∃ s' a' r' n', run (fold_m (oi_import_point k w) s l) (mkWorld db (Some a) n c) =
      (Ok s', mkWorld db (Some a') n' c) ∧ oi_imported k w l s s' a a' r r'.
Proof.
  revert a n r s. induction l as [|p l IH]; intros a n r s Hr; cbn [fold_m].
  - eexists _, _, _, _. split; [reflexivity|]. by apply oi_imported_nil.
  - rewrite run_bind. destruct (import_point_ok db a n c r p s Hr) as (s1 & a1 & r1 & n1 & -> & H1).
    destruct (IH a1 n1 r1 s1) as (s2 & a2 & r2 & n2 & -> & H2).
    { by rewrite (om_streams _ _ _ _ _ _ _ _ _ H1), lookup_insert_eq. }
    eexists _, _, _, _. split; [reflexivity|]. by apply (oi_imported_app k w [p] l s s1 s2 a a1 a2 r r1 r2).
Qed.

(** The progress of the track, and its validity. *)
Definition track_of (r : StreamRec) : TrackProgress :=
  match sr_progress r !! OPEN_INTEREST_TRACK with
  | None => empty_progress k OPEN_INTEREST_TRACK
  | Some p => progress_of_row k OPEN_INTEREST_TRACK p
  end.
Definition track_ok (r : StreamRec) : Prop := tp_earliest (track_of r) = None ∨ tp_discovery_next (track_of r) = None.

Lemma abs_get_track r : track_ok r → abs_get_progress k OPEN_INTEREST_TRACK r = Ok (track_of r).
Proof.
  unfold abs_get_progress, track_ok, track_of.
  destruct (sr_progress r !! OPEN_INTEREST_TRACK); intros H; by apply TrackProgress_check_ok.
Qed.

Lemma advance_latest_ok db a n c r latest :
  ab_streams a !! k = Some r → track_ok r →
  ∃ a' r', run (advance_latest k latest) (mkWorld db (Some a) n c) = (Ok (), mkWorld db (Some a') n c) ∧
    ab_streams a' = <[k := r']> (ab_streams a) ∧ ab_instruments a' = ab_instruments a ∧
    ab_quarantine a' = ab_quarantine a ∧ sr_state r' = sr_state r ∧ sr_candles r' = sr_candles r ∧
    sr_oi r' = sr_oi r ∧
    tp_latest (track_of r') = match latest, tp_latest (track_of r) with
                              | None, l => l
                              | Some l, None => Some l
                              | Some l, Some prev => Some (Z.max prev l)
                              end.
Proof.
  intros Hr Hok. unfold advance_latest. destruct latest as [l|].
  2:{ rewrite run_ret. exists a, r. rewrite insert_id by done. by split_and!. }
  rewrite run_bind, run_op. cbn [store_step abs_storage]. unfold read_stream. rewrite Hr, abs_get_track by done.
  destruct (match tp_latest (track_of r) with None => true | Some previous => previous <? l end) eqn:Eb.
  - assert (Hcheck : TrackProgress_check (with_latest (track_of r) (Some l)) =
      Ok (with_latest (track_of r) (Some l))) by (by apply TrackProgress_check_ok).
    assert (Hkey : tp_stream (track_of r) = k ∧ tp_track (track_of r) = OPEN_INTEREST_TRACK)
      by (unfold track_of; by destruct (sr_progress r !! OPEN_INTEREST_TRACK)).
    destruct Hkey as [Hk Ht].
    rewrite run_bind, run_lift, Hcheck, run_op. cbn [store_step abs_storage with_latest tp_stream].
    rewrite Hk. unfold on_stream, abs_save_progress. rewrite Hr.
    assert (progress_row_ok (with_latest (track_of r) (Some l)) = true) as Hrow.
    { unfold progress_row_ok. cbn. rewrite Ht, bool_decide_eq_true_2 by done. cbn.
      destruct Hok as [->| ->]; cbn; [done|apply orb_true_r]. }
    rewrite Hrow.
    eexists _, _. split; [reflexivity|]. do 6 (split; [done|]).
    unfold track_of at 1. cbn [sr_progress upd_progress tp_track with_latest]. rewrite Ht, lookup_insert_eq. cbn.
    destruct (tp_latest (track_of r)) as [prev|]; [|done]. f_equal. lia.
  - rewrite run_ret. exists a, r. rewrite insert_id by done. split_and!; try done.
    destruct (tp_latest (track_of r)) as [prev|]; [|done]. f_equal. lia.
Qed.
End oi_import.

(** ** Properties *)

(** What the store has of the open interest of a stream after an import of [points]. *)
Record oi_import_report (k : StreamKey) (w : TimeWindow) (points : list ObservedOpenInterest)
    (a a' : AbsStore) (r r' : StreamRec) (res : ImportWindowResult) : Prop := {
  oir_streams : ab_streams a' = <[k := r']> (ab_streams a);
  oir_instruments : ab_instruments a' = ab_instruments a;
  oir_state : sr_state r' = sr_state r;
  oir_candles : sr_candles r' = sr_candles r;
  oir_texts : oi_texts r' = fold_left (accept_text k w) points (oi_texts r);
  oir_latest : tp_latest (track_of k r') =
    match fold_left (accept_latest k w) points None, tp_latest (track_of k r) with
    | None, l => l
    | Some l, None => Some l
    | Some l, Some prev => Some (Z.max prev l)
    end;
  oir_observed : iw_observed res = Z.of_nat (length points);
  oir_total : iw_committed res + iw_duplicates res + iw_corrected res + iw_rejected res +
              iw_unexpected res = iw_observed res;
  oir_rows : Z.of_nat (size (sr_oi r')) = Z.of_nat (size (sr_oi r)) + iw_committed res;
  oir_quarantine : Z.of_nat (length (ab_quarantine a')) =
    Z.of_nat (length (ab_quarantine a)) + iw_rejected res + iw_unexpected res
}.

(** Importing a window of open interest stores exactly the canonical texts of the acceptable
    points of the window, the last one winning, quarantines every other point, accounts for
    all of them, moves the latest stored time of the track forward only, and touches neither
    candles nor the lifecycle; a failed fetch raises and changes nothing. *)
Theorem import_open_interest_exact `{E : Env} (k : StreamKey) (w : TimeWindow) (a : AbsStore)
    (r : StreamRec) (n c : nat) :
  ab_streams a !! k = Some r → track_ok k r →
  match run (import_open_interest k w) (mkWorld a None n c) with
  | (Ok res, world) => ∃ points r',
      env_fetch_open_interest c k w (env_clock n) = Ok points ∧ w_tx world = None ∧
      oi_import_report k w points a (w_db world) r r' res
  | (Raise e, world) =>
      env_fetch_open_interest c k w (env_clock n) = Raise e ∧ w_db world = a ∧ w_tx world = None
  end.
Proof.
  intros Hr Hok. unfold import_open_interest. rewrite run_bind, run_now, run_bind. cbn [run call handle].
  unfold tick, called. cbn [w_db w_tx w_ticks w_calls].
  destruct (env_fetch_open_interest c k w (env_clock n)) as [points|e]; [|done]. cbn [run].
  rewrite run_bind, run_with_uow, run_bind.
  destruct (import_points_ok k w a a (S n) (S c) r points (mkOiLoop no_counts 0 None) Hr)
    as (s & a1 & r1 & n1 & -> & H1). pose proof H1 as [A1 A2 A3 A4 A5 A6 A7 A8 A9 A10].
  rewrite run_bind. destruct (advance_latest_ok k a a1 n1 (S c) r1 (ol_latest s)) as
    (a2 & r2 & -> & B1 & B2 & B3 & B4 & B5 & B6 & B7).
  { by rewrite A1, lookup_insert_eq. }
  { unfold track_ok, track_of in *. by rewrite A5. }
  rewrite run_bind, run_commit, run_ret. cbn [set_tx w_db w_ticks w_calls]. rewrite run_ret.
  exists points, r2. split; [done|]. split; [done|]. unfold oi_total, no_counts in A8, A9, A10.
  cbn [ol_counts ol_unexpected] in *.
  assert (Htr : track_of k r1 = track_of k r) by (unfold track_of; by rewrite A5).
  split; cbn -[size]; try congruence; try lia.
  - by rewrite B1, A1, insert_insert_eq.
  - unfold oi_texts in *. by rewrite B6, A6.
  - by rewrite B7, A7, Htr.
  - rewrite B6. lia.
  - rewrite B3. lia.
Qed.

Definition oi_env : Env := {|
  env_clock := λ n, 1000000 + Z.of_nat n;
  env_fetch_closed_candles := λ _ _ _ _, Ok [];
  env_fetch_open_interest := λ _ k _ t,
    Ok [mkObservedOI k 300000 (InStr "10.50") t; mkObservedOI k 600000 (InStr "7") t;
        mkObservedOI k 300000 (InStr "10.5") t; mkObservedOI k 600000 (InStr "8.0") t;
        mkObservedOI k 600001 (InStr "8") t; mkObservedOI k 900000 (InStr "8") t];
  env_launch_time_ms := λ _ _, Ok 0;
  env_specification := λ _ i, Specification_new i "BTCUSDT" "linear" "LinearPerpetual" "Trading" "USDT" 0
|}.

Definition oi_stream_key : StreamKey := mkStreamKey (mkInstrumentKey "BTCUSDT.P") TF_5m.
Definition oi_rec : StreamRec :=
  mkStreamRec (mkSnapshot oi_stream_key READY (Some 0) None None None None None None None 10 10) ∅ ∅ ∅.
Definition oi_store : AbsStore := mkAbsStore {[ oi_stream_key := oi_rec ]} ∅ [].

#[local] Existing Instance oi_env.

Lemma import_open_interest_exact_witness :
  let w := mkTimeWindow 0 900000 in
  (run (S:=AbsStore) (import_open_interest oi_stream_key w) (mkWorld oi_store None 0 0)).1 =
    Ok (mkImportResult 6 2 1 1 1 1) ∧
  match run (import_open_interest oi_stream_key w) (mkWorld oi_store None 0 0) with
  | (Ok res, world) => ∃ points r',
      env_fetch_open_interest 0 oi_stream_key w (env_clock 0) = Ok points ∧ w_tx world = None ∧
      oi_import_report oi_stream_key w points oi_store (w_db world) oi_rec r' res
  | (Raise e, world) =>
      env_fetch_open_interest 0 oi_stream_key w (env_clock 0) = Raise e ∧ w_db world = oi_store ∧
      w_tx world = None
  end.
Proof.
  intros w. split; [by vm_compute|].
  apply (import_open_interest_exact oi_stream_key w oi_store oi_rec 0 0); [by vm_compute|by left].
Defined.
