(* ===== verification/Sqlite.v ===== *)
(** * The SQLite implementation of the storage port

    adapters/sqlite/: the catalog, candle, lifecycle, quarantine, open interest and
    progress repositories and the unit of work over them, as operations on tables with row
    ids.  A query is a function of the tables that reads the rows its WHERE, JOIN and ORDER BY
    describe; a statement that breaks a constraint of schema_v2.sql or
    schema_v3_tracks.sql raises [IntegrityError] and changes nothing, and one that binds an
    integer outside the signed 64 bits of SQLite raises [OverflowError] before it runs.

    SqliteRefinement.v relates the tables to the abstract store of AbsStore.v. *)

From S2P Require Import Prelude PyStr DecimalValues Timeframes Identity Candles StreamState.
From S2P Require Import Instruments OpenInterest Storage AbsStore.

(** ** Tables *)

Record InstrumentTableRow := mkInstrumentTable {
  it_ticker : string;
  it_exchange_symbol : string;
  it_launch_time_ms : option Z;
  it_metadata_fetched_at_ms : option Z;
  it_created_at_ms : Z;
  it_updated_at_ms : Z
}.

Record StreamTableRow := mkStreamTable {
  st_instrument_id : Z;
  st_timeframe : string;
  st_created_at_ms : Z
}.

Record StateTableRow := mkStateTable {
  sw_state : string;
  sw_earliest : option Z;
  sw_discovery : option Z;
  sw_latest : option Z;
  sw_last_audit : option Z;
  sw_last_rest : option Z;
  sw_last_ws : option Z;
  sw_error_code : option string;
  sw_error_detail : option string;
  sw_changed_at_ms : Z;
  sw_updated_at_ms : Z
}.

Record QuarantineTableRow := mkQuarantineTable {
  qw_stream_id : Z;
  qw_start_ms : Z;
  qw_end_ms : Z;
  qw_reason_code : string;
  qw_detail : string;
  qw_payload_json : option string;
  qw_created_at_ms : Z
}.

Record ProgressTableRow := mkProgressTable {
  pw_earliest : option Z;
  pw_discovery_next : option Z;
  pw_latest : option Z;
  pw_last_audit_at_ms : option Z;
  pw_last_audit_gap_count : option Z;
  pw_last_success_at_ms : option Z;
  pw_last_error_code : option string;
  pw_last_error_detail : option string;
  pw_updated_at_ms : Z
}.

(** The primary keys are the keys of the maps. *)
Record Tables := mkTables {
  t_instruments : gmap Z InstrumentTableRow;
  t_streams : gmap Z StreamTableRow;
  t_states : gmap Z StateTableRow;
  t_candles : gmap (Z * Z) CandleRow;
  t_quarantine : list QuarantineTableRow;
  t_oi : gmap (Z * Z) OiRow;
  t_progress : gmap (Z * string) ProgressTableRow
}.

Definition empty_tables : Tables := mkTables ∅ ∅ ∅ ∅ [] ∅ ∅.

Definition set_instruments (t : Tables) v : Tables :=
  mkTables v (t_streams t) (t_states t) (t_candles t) (t_quarantine t) (t_oi t) (t_progress t).
Definition set_streams (t : Tables) v : Tables :=
  mkTables (t_instruments t) v (t_states t) (t_candles t) (t_quarantine t) (t_oi t) (t_progress t).
Definition set_states (t : Tables) v : Tables :=
  mkTables (t_instruments t) (t_streams t) v (t_candles t) (t_quarantine t) (t_oi t) (t_progress t).
Definition set_candles (t : Tables) v : Tables :=
  mkTables (t_instruments t) (t_streams t) (t_states t) v (t_quarantine t) (t_oi t) (t_progress t).
Definition set_quarantine (t : Tables) v : Tables :=
  mkTables (t_instruments t) (t_streams t) (t_states t) (t_candles t) v (t_oi t) (t_progress t).
Definition set_oi (t : Tables) v : Tables :=
  mkTables (t_instruments t) (t_streams t) (t_states t) (t_candles t) (t_quarantine t) v (t_progress t).
Definition set_progress (t : Tables) v : Tables :=
  mkTables (t_instruments t) (t_streams t) (t_states t) (t_candles t) (t_quarantine t) (t_oi t) v.

(** ** Queries *)

(** The first row, with its id, that a condition selects. *)
Definition first_row {A} (P : Z → A → bool) (m : gmap Z A) : option (Z * A) :=
  head (List.filter (λ p, P p.1 p.2) (map_to_list m)).

(** An id for [INSERT] into a table with an [INTEGER PRIMARY KEY]. *)
Definition next_rowid {A} (m : gmap Z A) : Z :=
  match list_max (map fst (map_to_list m)) with None => 1 | Some m => m + 1 end.

(** [SELECT ... WHERE stream_id = ? AND open_time_ms >= ? AND open_time_ms < ?
    ORDER BY open_time_ms] *)
Definition key_times {A} (rows : gmap (Z * Z) A) (id : Z) (P : Z → bool) : list Z :=
  map (λ p : Z * Z * A, p.1.2) (List.filter (λ p, (p.1.1 =? id) && P p.1.2) (map_to_list rows)).
Definition rows_between {A} (rows : gmap (Z * Z) A) (id start_time_ms end_time_ms : Z) : list (Z * A) :=
  omap (λ t, pair t <$> rows !! (id, t))
    (py_sorted (key_times rows id (λ t, (start_time_ms <=? t) && (t <? end_time_ms)))).

(** [connection.execute(statement, parameters)]: the integers of the parameters are bound
    before the statement runs. *)
Definition execute {A} (ints : list Z) (t : Tables) (statement : res A * Tables) : res A * Tables :=
  match bind_ints ints with
  | Raise e => (Raise e, t)
  | Ok _ => statement
  end.

(** ** catalog_repository.py *)

(** [SELECT s.id FROM streams s JOIN instruments i ON i.id = s.instrument_id
    WHERE i.ticker = ? AND s.timeframe = ?] *)
Definition stream_matches (t : Tables) (k : StreamKey) (s : StreamTableRow) : bool :=
  match t_instruments t !! st_instrument_id s with
  | Some i => bool_decide (it_ticker i = ticker (instrument k)) &&
              bool_decide (st_timeframe s = tf_id (timeframe k))
  | None => false
  end.

Definition find_stream_id (t : Tables) (k : StreamKey) : option Z :=
  fst <$> first_row (λ _ s, stream_matches t k s) (t_streams t).

Definition stream_id (t : Tables) (k : StreamKey) : res Z :=
  match find_stream_id t k with
  | None => key_error (stream_canonical_id k)
  | Some id => Ok id
  end.

(** [try: self.stream_id(stream) except KeyError: return False] *)
Definition stream_exists (t : Tables) (k : StreamKey) : bool :=
  match stream_id t k with Ok _ => true | Raise _ => false end.

Definition find_instrument (t : Tables) (tk : string) : option (Z * InstrumentTableRow) :=
  first_row (λ _ i, bool_decide (it_ticker i = tk)) (t_instruments t).

(** [_instrument_id] *)
Definition instrument_id (t : Tables) (i : InstrumentKey) : res Z :=
  match find_instrument t (ticker i) with
  | None => key_error (ticker i)
  | Some p => Ok p.1
  end.

Definition get_instrument_metadata (t : Tables) (i : InstrumentKey) : res InstrumentMetadata :=
  match find_instrument t (ticker i) with
  | None => key_error (ticker i)
  | Some (_, row) =>
      i' ← InstrumentKey_new (it_ticker row);
      InstrumentMetadata_new i' (it_exchange_symbol row) (it_launch_time_ms row)
        (it_metadata_fetched_at_ms row)
  end.

(** The symbol of another instrument. *)
Definition symbol_used (t : Tables) (tk symbol : string) : bool :=
  existsb (λ p : Z * InstrumentTableRow,
             negb (bool_decide (it_ticker p.2 = tk)) && bool_decide (it_exchange_symbol p.2 = symbol))
    (map_to_list (t_instruments t)).

(** [UPDATE instruments SET ... WHERE ticker = ?] *)
Definition save_instrument_metadata (m : InstrumentMetadata) (t : Tables) : res () * Tables :=
  match im_fetched_at_ms m with
  | None => (raise ExcValueError
               "instrument metadata fetched_at_ms is required for persistence", t)
  | Some fetched =>
      let tk := ticker (im_instrument m) in
      execute (option_list (im_launch_time_ms m) ++ [fetched; fetched]) t
      match find_instrument t tk with
      | None => (Ok (), t)
      | Some _ =>
          if bool_decide (im_exchange_symbol m = ""%string) || negb (opt_nonneg (im_launch_time_ms m))
             || negb (0 <=? fetched)
          then (integrity "CHECK constraint failed: instruments", t)
          else if symbol_used t tk (im_exchange_symbol m)
          then (integrity "UNIQUE constraint failed: instruments.exchange_symbol", t)
          else (Ok (), set_instruments t
                  ((λ row, if bool_decide (it_ticker row = tk)
                           then mkInstrumentTable (it_ticker row) (im_exchange_symbol m)
                                  (im_launch_time_ms m) (Some fetched) (it_created_at_ms row) fetched
                           else row) <$> t_instruments t))
      end
  end.

(** [INSERT INTO instruments ... ON CONFLICT(ticker) DO UPDATE SET ...] *)
Definition upsert_instrument (tk symbol : string) (now : Z) (t : Tables) : res Tables :=
  _ ← bind_ints [now; now];
  if bool_decide (tk = ""%string) || bool_decide (symbol = ""%string)
  then integrity "CHECK constraint failed: instruments"
  else if symbol_used t tk symbol
  then integrity "UNIQUE constraint failed: instruments.exchange_symbol"
  else Ok (set_instruments t
    (match find_instrument t tk with
     | Some (id, row) =>
         <[id := mkInstrumentTable tk symbol (it_launch_time_ms row) (it_metadata_fetched_at_ms row)
                   (it_created_at_ms row) now]> (t_instruments t)
     | None =>
         <[next_rowid (t_instruments t) := mkInstrumentTable tk symbol None None now now]>
           (t_instruments t)
     end)).

Definition uninitialized_row (now : Z) : StateTableRow :=
  mkStateTable (lifecycle_value UNINITIALIZED) None None None None None None None None now now.

(** [register_stream] *)
Definition register_stream (k : StreamKey) (exchange_symbol : string) (now : Z) (t : Tables) :
    res (Z * Tables) :=
  t ← upsert_instrument (ticker (instrument k)) exchange_symbol now t;
  iid ← instrument_id t (instrument k);
  let t :=
    match first_row (λ _ s, (st_instrument_id s =? iid) &&
                            bool_decide (st_timeframe s = tf_id (timeframe k))) (t_streams t) with
    | Some _ => t
    | None => set_streams t (<[next_rowid (t_streams t) := mkStreamTable iid (tf_id (timeframe k)) now]>
                               (t_streams t))
    end in
  id ← stream_id t k;
  let t := match t_states t !! id with
           | Some _ => t
           | None => set_states t (<[id := uninitialized_row now]> (t_states t))
           end in
  mret (id, t).

(** ** candle_repository.py *)

(** [CanonicalCandle(...)] of a row: [candle_of_row] is the constructor call. *)
Definition candle_get (t : Tables) (k : StreamKey) (open_time_ms : Z) : res (option CanonicalCandle) :=
  id ← stream_id t k;
  _ ← bind_ints [open_time_ms];
  match t_candles t !! (id, open_time_ms) with
  | None => mret None
  | Some row => Some <$> candle_of_row k open_time_ms row
  end.

Definition candle_list_range (t : Tables) (k : StreamKey) (s e : Z) : res (list CanonicalCandle) :=
  id ← stream_id t k;
  _ ← bind_ints [s; e];
  map_res (λ '(time, row), candle_of_row k time row) (rows_between (t_candles t) id s e).

Definition candle_list_with_oi (t : Tables) (k : StreamKey) (s e : Z) :
    res (list (CanonicalCandle * option string)) :=
  id ← stream_id t k;
  _ ← bind_ints [s; e];
  map_res (λ '(time, row), c ← candle_of_row k time row; mret (c, or_value <$> t_oi t !! (id, time)))
    (rows_between (t_candles t) id s e).

Definition committed_bounds (t : Tables) (k : StreamKey) : res (option Z * option Z) :=
  id ← stream_id t k;
  let times := key_times (t_candles t) id (λ _, true) in
  mret (list_min times, list_max times).

Definition candle_insert (c : CanonicalCandle) (t : Tables) : res () * Tables :=
  match stream_id t (cc_stream c) with
  | Raise e => (Raise e, t)
  | Ok id =>
      execute [cc_open_time_ms c; cc_committed_at_ms c] t
      (if negb (0 <=? cc_open_time_ms c) then (integrity "CHECK constraint failed: candles", t)
      else match t_candles t !! (id, cc_open_time_ms c) with
           | Some _ => (integrity "UNIQUE constraint failed: candles", t)
           | None => (Ok (), set_candles t (<[(id, cc_open_time_ms c) := candle_row c]> (t_candles t)))
           end)
  end.

Definition candle_replace (c : CanonicalCandle) (t : Tables) : res () * Tables :=
  match stream_id t (cc_stream c) with
  | Raise e => (Raise e, t)
  | Ok id =>
      execute [cc_committed_at_ms c; cc_open_time_ms c] t
      (Ok (), match t_candles t !! (id, cc_open_time_ms c) with
              | Some _ => set_candles t (<[(id, cc_open_time_ms c) := candle_row c]> (t_candles t))
              | None => t
              end)
  end.

(** ** stream_state_repository.py *)

Definition state_row (s : StreamStateSnapshot) : StateTableRow :=
  mkStateTable (lifecycle_value (ss_state s)) (earliest_available_open_time_ms s)
    (lower_bound_discovery_next_open_time_ms s) (latest_committed_open_time_ms s)
    (last_audit_at_ms s) (last_rest_success_at_ms s) (last_ws_message_at_ms s)
    (last_error_code s) (last_error_detail s) (state_changed_at_ms s) (updated_at_ms s).

Definition state_of_row (k : StreamKey) (row : StateTableRow) : res StreamStateSnapshot :=
  state ← lifecycle_of_value (sw_state row);
  snapshot_check (mkSnapshot k state (sw_earliest row) (sw_discovery row) (sw_latest row)
    (sw_last_audit row) (sw_last_rest row) (sw_last_ws row) (sw_error_code row)
    (sw_error_detail row) (sw_changed_at_ms row) (sw_updated_at_ms row)).

Definition state_get (t : Tables) (k : StreamKey) : res StreamStateSnapshot :=
  id ← stream_id t k;
  match t_states t !! id with
  | None => key_error (stream_canonical_id k)
  | Some row => state_of_row k row
  end.

(** The CHECK constraints of [stream_state]. *)
Definition state_checks (row : StateTableRow) : bool :=
  opt_nonneg (sw_discovery row) &&
  (bool_decide (sw_earliest row = None) || bool_decide (sw_discovery row = None)).

Definition state_ints (s : StreamStateSnapshot) : list Z :=
  option_list (earliest_available_open_time_ms s) ++
  option_list (lower_bound_discovery_next_open_time_ms s) ++
  option_list (latest_committed_open_time_ms s) ++ option_list (last_audit_at_ms s) ++
  option_list (last_rest_success_at_ms s) ++ option_list (last_ws_message_at_ms s) ++
  [state_changed_at_ms s; updated_at_ms s].

Definition state_save (s : StreamStateSnapshot) (t : Tables) : res () * Tables :=
  match stream_id t (ss_stream s) with
  | Raise e => (Raise e, t)
  | Ok id =>
      execute (state_ints s) t
      match t_states t !! id with
      | None => (Ok (), t)
      | Some _ =>
          if state_checks (state_row s)
          then (Ok (), set_states t (<[id := state_row s]> (t_states t)))
          else (integrity "CHECK constraint failed: stream_state", t)
      end
  end.

(** ** quarantine_repository.py *)

Definition quarantine_add (q : QuarantineRecord) (t : Tables) : res () * Tables :=
  match stream_id t (q_stream q) with
  | Raise e => (Raise e, t)
  | Ok id =>
      execute [q_start_ms q; q_end_ms q; q_created_at_ms q] t
      (if (0 <=? q_start_ms q) && (0 <=? q_end_ms q) && (q_start_ms q <? q_end_ms q)
      then (Ok (), set_quarantine t (t_quarantine t ++
             [mkQuarantineTable id (q_start_ms q) (q_end_ms q) (q_reason_code q) (q_detail q)
                (q_payload_json q) (q_created_at_ms q)]))
      else (integrity "CHECK constraint failed: quarantine", t))
  end.

Definition quarantine_contains (t : Tables) (q : QuarantineRecord) : res bool :=
  id ← stream_id t (q_stream q);
  _ ← bind_ints [q_start_ms q; q_end_ms q];
  mret (existsb (λ row, (qw_stream_id row =? id) && (qw_start_ms row =? q_start_ms q) &&
                        (qw_end_ms row =? q_end_ms q) &&
                        bool_decide (qw_reason_code row = q_reason_code q)) (t_quarantine t)).

(** ** open_interest_repository.py *)

Definition oi_get (t : Tables) (k : StreamKey) (open_time_ms : Z) : res (option CanonicalOpenInterest) :=
  id ← stream_id t k;
  _ ← bind_ints [open_time_ms];
  mret ((λ row, mkCanonicalOI k open_time_ms (or_value row) (or_committed_at_ms row))
          <$> t_oi t !! (id, open_time_ms)).

Definition oi_save (p : CanonicalOpenInterest) (t : Tables) : res () * Tables :=
  match stream_id t (co_stream p) with
  | Raise e => (Raise e, t)
  | Ok id =>
      execute [co_open_time_ms p; co_committed_at_ms p] t
      (if negb (0 <=? co_open_time_ms p) then (integrity "CHECK constraint failed: open_interest", t)
       else (Ok (), set_oi t (<[(id, co_open_time_ms p) :=
               mkOiRow (co_open_interest p) "bybit_rest" (co_committed_at_ms p)]> (t_oi t))))
  end.

Definition oi_list_times (t : Tables) (k : StreamKey) (s e : Z) : res (list Z) :=
  id ← stream_id t k;
  _ ← bind_ints [s; e];
  mret (map fst (rows_between (t_oi t) id s e)).

Definition progress_row (p : TrackProgress) : ProgressTableRow :=
  mkProgressTable (tp_earliest p) (tp_discovery_next p) (tp_latest p) (tp_last_audit_at_ms p)
    (tp_last_audit_gap_count p) (tp_last_success_at_ms p) (tp_last_error_code p)
    (tp_last_error_detail p) (tp_updated_at_ms p).

Definition progress_get (t : Tables) (k : StreamKey) (track : string) : res TrackProgress :=
  id ← stream_id t k;
  match t_progress t !! (id, track) with
  | None => TrackProgress_check (empty_progress k track)
  | Some row =>
      TrackProgress_check (mkProgress k track (pw_earliest row) (pw_discovery_next row) (pw_latest row)
        (pw_last_audit_at_ms row) (pw_last_audit_gap_count row) (pw_last_success_at_ms row)
        (pw_last_error_code row) (pw_last_error_detail row) (pw_updated_at_ms row))
  end.

Definition progress_ints (p : TrackProgress) : list Z :=
  option_list (tp_earliest p) ++ option_list (tp_discovery_next p) ++ option_list (tp_latest p) ++
  option_list (tp_last_audit_at_ms p) ++ option_list (tp_last_audit_gap_count p) ++
  option_list (tp_last_success_at_ms p) ++ [tp_updated_at_ms p].

(** [INSERT OR REPLACE INTO track_progress] and its CHECK constraints. *)
Definition progress_save (p : TrackProgress) (t : Tables) : res () * Tables :=
  match stream_id t (tp_stream p) with
  | Raise e => (Raise e, t)
  | Ok id =>
      execute (progress_ints p) t
      (if bool_decide (tp_track p = "open_interest"%string) &&
         (bool_decide (tp_earliest p = None) || bool_decide (tp_discovery_next p = None))
      then (Ok (), set_progress t (<[(id, tp_track p) := progress_row p]> (t_progress t)))
      else (integrity "CHECK constraint failed: track_progress", t))
  end.

(** ** transaction.py *)

(** [SqliteUnitOfWork.record_quarantine_once] *)
Definition record_quarantine_once (q : QuarantineRecord) (t : Tables) : res bool * Tables :=
  match quarantine_contains t q with
  | Raise e => (Raise e, t)
  | Ok true => (Ok false, t)
  | Ok false =>
      match quarantine_add q t with
      | (Ok _, t') => (Ok true, t')
      | (Raise e, t') => (Raise e, t')
      end
  end.

(** The operations of [SqliteUnitOfWork], and the joined read of the consumer reader. *)
#[export] Instance sqlite_storage : Storage Tables := λ R o,
  match o in store_op R return Tables → res R * Tables with
  | StreamExists k => λ t, (Ok (stream_exists t k), t)
  | GetInstrumentMetadata i => λ t, (get_instrument_metadata t i, t)
  | SaveInstrumentMetadata m => save_instrument_metadata m
  | GetCandle k time => λ t, (candle_get t k time, t)
  | ListCandles k s e => λ t, (candle_list_range t k s e, t)
  | ListCandlesWithOpenInterest k s e => λ t, (candle_list_with_oi t k s e, t)
  | GetCommittedCandleBounds k => λ t, (committed_bounds t k, t)
  | InsertCandle c => candle_insert c
  | ReplaceCandle c => candle_replace c
  | GetStreamState k => λ t, (state_get t k, t)
  | SaveStreamState s => state_save s
  | RecordQuarantine q => quarantine_add q
  | RecordQuarantineOnce q => record_quarantine_once q
  | GetOpenInterest k time => λ t, (oi_get t k time, t)
  | SaveOpenInterest p => oi_save p
  | ListOpenInterestTimes k s e => λ t, (oi_list_times t k s e, t)
  | GetTrackProgress k track => λ t, (progress_get t k track, t)
  | SaveTrackProgress p => progress_save p
  end.
