(* ===== verification/SqliteRefinement.v ===== *)
(** * The SQLite unit of work refines the bounded store

    [bounded_storage] is the abstract store with the integers of a database: an operation
    that gets as far as binding an integer outside 64 bits raises [OverflowError] and
    changes nothing, and every other one is the operation of AbsStore.v.  [sql_rel] and the
    simulation: [sqlite_refines] for the operations of the port, [register_refines] for the
    registration of streams, and their consequence for every use case,
    [use_cases_over_sqlite]: over SQLite it does what it does over the bounded store, and
    what it does over the abstract store as long as the integers it passes fit. *)

From S2P Require Import Prelude PyStr DecimalValues Timeframes Identity Candles StreamState.
From S2P Require Import Instruments OpenInterest Storage AbsStore Ingest Sqlite.

(** ** The constraints of the schema *)

Record sql_wf (t : Tables) : Prop := {
  wf_ticker : ∀ id id' i i', t_instruments t !! id = Some i → t_instruments t !! id' = Some i' →
    it_ticker i = it_ticker i' → id = id';
  wf_stream : ∀ id id' s s', t_streams t !! id = Some s → t_streams t !! id' = Some s' →
    st_instrument_id s = st_instrument_id s' → st_timeframe s = st_timeframe s' → id = id';
  wf_instrument_fk : ∀ id s, t_streams t !! id = Some s → is_Some (t_instruments t !! st_instrument_id s);
  wf_stream_fk : ∀ id, t_streams t !! id = None →
    t_states t !! id = None ∧ (∀ u, t_candles t !! (id, u) = None) ∧
    (∀ u, t_oi t !! (id, u) = None) ∧ (∀ u, t_progress t !! (id, u) = None)
}.

Lemma first_row_some {A} (P : Z → A → bool) m p :
  first_row P m = Some p → m !! p.1 = Some p.2 ∧ P p.1 p.2 = true.
Proof.
  unfold first_row. intros H%head_Some_elem_of. apply list_elem_of_In, filter_In in H as [H1 H2].
  split; [|done]. apply elem_of_map_to_list. destruct p. by apply list_elem_of_In.
Qed.

Lemma first_row_none {A} (P : Z → A → bool) m :
  first_row P m = None ↔ ∀ id x, m !! id = Some x → P id x = false.
Proof.
  unfold first_row. rewrite head_None. split.
  - intros Hn id x Hx. destruct (P id x) eqn:E; [|done]. exfalso.
    assert (In (id, x) (List.filter (λ p, P p.1 p.2) (map_to_list m))) as Hin.
    { apply filter_In. split; [|done]. by apply list_elem_of_In, elem_of_map_to_list. }
    by rewrite Hn in Hin.
  - intros H. destruct (List.filter _ _) as [|[id x] l] eqn:E; [done|]. exfalso.
    assert (In (id, x) (List.filter (λ p, P p.1 p.2) (map_to_list m))) as Hin by (rewrite E; by left).
    apply filter_In in Hin as [Hin Hp]. apply list_elem_of_In, elem_of_map_to_list in Hin.
    cbn in Hp. by rewrite (H id x Hin) in Hp.
Qed.

(** A condition that selects at most one row selects that row. *)
Lemma first_row_unique {A} (P : Z → A → bool) m id x :
  (∀ id' x', m !! id' = Some x' → P id' x' = true → id' = id) →
  m !! id = Some x → P id x = true → first_row P m = Some (id, x).
Proof.
  intros Hu Hx Hp. destruct (first_row P m) as [[id' x']|] eqn:E.
  - apply first_row_some in E as [H1 H2]. cbn in *. assert (id' = id) as -> by eauto. congruence.
  - rewrite first_row_none in E. by rewrite (E id x Hx) in Hp.
Qed.

Lemma stream_matches_true t k s :
  stream_matches t k s = true ↔ ∃ i, t_instruments t !! st_instrument_id s = Some i ∧
    it_ticker i = ticker (instrument k) ∧ st_timeframe s = tf_id (timeframe k).
Proof.
  unfold stream_matches. destruct (t_instruments t !! st_instrument_id s) as [i|]; split.
  - intros H. bool_hyps. by exists i.
  - intros (i' & [= <-] & -> & ->). by rewrite !bool_decide_eq_true_2.
  - done.
  - by intros (i & ? & _).
Qed.

Section ids.
Context (t : Tables).

Lemma find_stream_id_row k id :
  find_stream_id t k = Some id → ∃ s, t_streams t !! id = Some s ∧ stream_matches t k s = true.
Proof.
  unfold find_stream_id. intros ([id' s] & H & ->)%fmap_Some. apply first_row_some in H. by exists s.
Qed.

(** Row ids of streams name their streams. *)
Lemma find_stream_id_inj k k' id :
  find_stream_id t k = Some id → find_stream_id t k' = Some id → k = k'.
Proof.
  intros (s & Hs & (i & Hi & H1 & H2)%stream_matches_true)%find_stream_id_row
         (s' & Hs' & (i' & Hi' & H3 & H4)%stream_matches_true)%find_stream_id_row.
  simplify_eq. destruct k as [[tk] tf], k' as [[tk'] tf']. cbn in *.
  assert (tf = tf') as -> by (apply (inj Some); rewrite <- !find_timeframe_id; congruence).
  congruence.
Qed.

Lemma find_stream_id_intro k id s :
  sql_wf t → t_streams t !! id = Some s → stream_matches t k s = true → find_stream_id t k = Some id.
Proof.
  intros Hwf Hs Hm. unfold find_stream_id.
  enough (first_row (λ _ s, stream_matches t k s) (t_streams t) = Some (id, s)) as ->; [done|].
  apply first_row_unique; [|done|done].
  intros id' s' Hs' Hm'. apply stream_matches_true in Hm as (i & Hi & H1 & H2), Hm' as (i' & Hi' & H3 & H4).
  eapply (wf_stream t Hwf); [done|done| |congruence]. eapply (wf_ticker t Hwf); [done|done|congruence].
Qed.
End ids.

(** The ids of streams depend only on the catalog. *)
Lemma find_stream_id_catalog t t' k :
  t_streams t' = t_streams t →
  (∀ sid s, t_streams t !! sid = Some s →
     it_ticker <$> t_instruments t' !! st_instrument_id s = it_ticker <$> t_instruments t !! st_instrument_id s) →
  find_stream_id t' k = find_stream_id t k.
Proof.
  intros Hs Hi. unfold find_stream_id. rewrite Hs. f_equal. unfold first_row. f_equal.
  apply filter_ext_in. intros [id s] Hin%list_elem_of_In%elem_of_map_to_list. cbn. unfold stream_matches.
  specialize (Hi id s Hin).
  destruct (t_instruments t' !! _), (t_instruments t !! _); try done. cbn in Hi. by injection Hi as ->.
Qed.

(** ** The relation *)

Record rec_rel (t : Tables) (k : StreamKey) (id : Z) (r : StreamRec) : Prop := {
  rr_key : ss_stream (sr_state r) = k;
  rr_state : t_states t !! id = Some (state_row (sr_state r));
  rr_candles : ∀ u, t_candles t !! (id, u) = sr_candles r !! u;
  rr_oi : ∀ u, t_oi t !! (id, u) = sr_oi r !! u;
  rr_progress : ∀ track, t_progress t !! (id, track) = progress_row <$> sr_progress r !! track
}.

Definition quarantine_rel (t : Tables) (q : QuarantineRecord) (row : QuarantineTableRow) : Prop :=
  ∃ id, find_stream_id t (q_stream q) = Some id ∧
    row = mkQuarantineTable id (q_start_ms q) (q_end_ms q) (q_reason_code q) (q_detail q)
            (q_payload_json q) (q_created_at_ms q).

Definition instrument_row (i : InstrumentTableRow) : InstrumentRow :=
  mkInstrumentRow (it_exchange_symbol i) (it_launch_time_ms i) (it_metadata_fetched_at_ms i).

Record sql_rel (t : Tables) (a : AbsStore) : Prop := {
  rel_wf : sql_wf t;
  rel_instruments : ∀ tk, ab_instruments a !! tk = (λ p, instrument_row p.2) <$> find_instrument t tk;
  rel_streams : ∀ k, match find_stream_id t k with
                     | None => ab_streams a !! k = None
                     | Some id => ∃ r, ab_streams a !! k = Some r ∧ rec_rel t k id r
                     end;
  rel_quarantine : Forall2 (quarantine_rel t) (ab_quarantine a) (t_quarantine t)
}.

(** ** The bounded store *)

(** The integers that the statements of an operation bind.  A quarantine record that is
    already stored is not inserted again, and its time is then not bound. *)
Definition op_ints {R} (o : store_op R) (a : AbsStore) : list Z :=
  match o with
  | StreamExists _ | GetInstrumentMetadata _ | GetCommittedCandleBounds _ | GetStreamState _
  | GetTrackProgress _ _ => []
  | SaveInstrumentMetadata m =>
      match im_fetched_at_ms m with
      | None => []
      | Some fetched => option_list (im_launch_time_ms m) ++ [fetched; fetched]
      end
  | GetCandle _ u | GetOpenInterest _ u => [u]
  | ListCandles _ s e | ListCandlesWithOpenInterest _ s e | ListOpenInterestTimes _ s e => [s; e]
  | InsertCandle c => [cc_open_time_ms c; cc_committed_at_ms c]
  | ReplaceCandle c => [cc_committed_at_ms c; cc_open_time_ms c]
  | SaveStreamState s => state_ints s
  | RecordQuarantine q => [q_start_ms q; q_end_ms q; q_created_at_ms q]
  | RecordQuarantineOnce q =>
      if existsb (same_quarantine q) (ab_quarantine a) then [q_start_ms q; q_end_ms q]
      else [q_start_ms q; q_end_ms q; q_created_at_ms q]
  | SaveOpenInterest p => [co_open_time_ms p; co_committed_at_ms p]
  | SaveTrackProgress p => progress_ints p
  end.

(** The stream whose id the operation looks up before. *)
Definition op_stream {R} (o : store_op R) : option StreamKey :=
  match o with
  | GetInstrumentMetadata _ | SaveInstrumentMetadata _ => None
  | StreamExists k | GetCommittedCandleBounds k | GetStreamState k | GetTrackProgress k _
  | GetCandle k _ | GetOpenInterest k _ | ListCandles k _ _ | ListCandlesWithOpenInterest k _ _
  | ListOpenInterestTimes k _ _ => Some k
  | InsertCandle c | ReplaceCandle c => Some (cc_stream c)
  | SaveStreamState s => Some (ss_stream s)
  | RecordQuarantine q | RecordQuarantineOnce q => Some (q_stream q)
  | SaveOpenInterest p => Some (co_stream p)
  | SaveTrackProgress p => Some (tp_stream p)
  end.

(** The operation gets as far as binding an integer that does not fit. *)
Definition overflows {R} (o : store_op R) (a : AbsStore) : bool :=
  match op_stream o with
  | Some k => bool_decide (is_Some (ab_streams a !! k))
  | None => true
  end && negb (forallb sql_int (op_ints o a)).

(** What the port promises of one operation over a database. *)
Definition bounded_step {R} (o : store_op R) (a : AbsStore) : res R * AbsStore :=
  if overflows o a then (Raise sql_overflow, a) else store_step o a.

Definition bounded_storage : Storage AbsStore := @bounded_step.

(** A program over the bounded store. *)
Definition run_bounded `{Env} {A} (m : prog A) (w : World AbsStore) : A * World AbsStore :=
  @run AbsStore bounded_storage _ A m w.

(** The integers of the operations that a run of a program over the abstract store makes. *)
Definition event_fits {R} (e : event R) (w : World AbsStore) : Prop :=
  match e with
  | EvOp o => match w_tx w with Some a => overflows o a = false | None => True end
  | EvRead o => overflows o (w_db w) = false
  | _ => True
  end.

Fixpoint ints_fit `{Env} {A} (m : prog A) (w : World AbsStore) : Prop :=
  match m with
  | PRet _ => True
  | PVis e k => event_fits e w ∧ ints_fit (k (handle e w).1) (handle e w).2
  end.

Lemma handle_bounded `{Env} {R} (e : event R) w :
  event_fits e w → @handle AbsStore bounded_storage _ R e w = handle e w.
Proof.
  destruct e; cbn [event_fits handle]; try done; cbv [bounded_storage bounded_step]; unfold store_step at 1.
  - destruct (w_tx w) as [a|]; [|done]. intros Hf. by rewrite Hf.
  - intros Hf. by rewrite Hf.
Qed.

Lemma run_bounded_fits `{Env} {A} (m : prog A) w : ints_fit m w → run_bounded m w = run m w.
Proof.
  unfold run_bounded. revert w. induction m as [x|R e k IH]; intros w; cbn [ints_fit run]; [done|].
  intros [He Hk]. rewrite (handle_bounded e w He). destruct (handle e w) as [r w']. by apply IH.
Qed.

(** ** Programs whose integers fit whatever they are answered *)

Definition op_fits {R} (o : store_op R) : Prop := ∀ a, overflows o a = false.

Definition event_always_fits {R} (e : event R) : Prop :=
  match e with
  | EvOp o => op_fits o
  | EvRead o => op_fits o
  | _ => True
  end.

Fixpoint always_fits {A} (m : prog A) : Prop :=
  match m with
  | PRet _ => True
  | PVis e k => event_always_fits e ∧ ∀ r, always_fits (k r)
  end.

Lemma always_fits_run `{Env} {A} (m : prog A) w : always_fits m → ints_fit m w.
Proof.
  revert w. induction m as [x|R e k IH]; intros w; cbn [always_fits ints_fit]; [done|].
  intros [He Hk]. split; [|by apply IH]. destruct e; try done; cbn in *; [destruct (w_tx w); [|done]|]; apply He.
Qed.

Lemma op_fits_ints {R} (o : store_op R) : (∀ a, bind_ints (op_ints o a) = Ok ()) → op_fits o.
Proof.
  intros H a. specialize (H a). unfold overflows, bind_ints in *.
  destruct (forallb _ _); [|done]. by rewrite andb_false_r.
Qed.

Lemma always_fits_pbind {A B} (m : prog A) (f : A → prog B) :
  always_fits m → (∀ x, always_fits (f x)) → always_fits (pbind m f).
Proof.
  intros Hm Hf. induction m as [x|R e k IH]; cbn [pbind always_fits] in *; [done|].
  destruct Hm as [He Hk]. split; [done|]. intros r. by apply IH.
Qed.

Lemma always_fits_bind {A B} (m : M A) (f : A → M B) :
  always_fits m → (∀ x, always_fits (f x)) → always_fits (x ← m; f x).
Proof. intros Hm Hf. apply always_fits_pbind; [done|]. intros [x|e]; [apply Hf|done]. Qed.

Lemma always_fits_bind_lift {A B} (r : res A) (f : A → M B) :
  (∀ x, r = Ok x → always_fits (f x)) → always_fits (x ← lift r; f x).
Proof. intros H. destruct r as [x|e]; cbn; [by apply H|done]. Qed.

Lemma always_fits_try {A} (m : M A) (h : exn → M A) :
  always_fits m → (∀ e, always_fits (h e)) → always_fits (try_catch m h).
Proof. intros Hm Hh. apply always_fits_pbind; [done|]. intros [x|e]; [done|apply Hh]. Qed.

Lemma always_fits_with_uow {A} (body : M A) : always_fits body → always_fits (with_uow body).
Proof.
  intros Hb. unfold with_uow. apply always_fits_bind; [by cbn|]. intros _. by apply always_fits_pbind.
Qed.

Lemma always_fits_op {R} (o : store_op R) : op_fits o → always_fits (op o).
Proof. by cbn. Qed.

Lemma always_fits_read {R} (o : store_op R) : op_fits o → always_fits (read_op o).
Proof. by cbn. Qed.

(** A known stream, or not. *)
Lemma rel_lookup t a k :
  sql_rel t a →
  (∃ id r, find_stream_id t k = Some id ∧ ab_streams a !! k = Some r ∧ rec_rel t k id r) ∨
  (find_stream_id t k = None ∧ ab_streams a !! k = None).
Proof.
  intros H. pose proof (rel_streams t a H k) as Hk. destruct (find_stream_id t k) as [id|]; [|by right].
  destruct Hk as (r & Hr & Hrel). left. by exists id, r.
Qed.

(** Two databases that differ only in the data of one stream. *)
Record same_but (id : Z) (t t' : Tables) : Prop := {
  sb_instruments : t_instruments t' = t_instruments t;
  sb_streams : t_streams t' = t_streams t;
  sb_quarantine : t_quarantine t' = t_quarantine t;
  sb_states : ∀ id', id' ≠ id → t_states t' !! id' = t_states t !! id';
  sb_candles : ∀ id' u, id' ≠ id → t_candles t' !! (id', u) = t_candles t !! (id', u);
  sb_oi : ∀ id' u, id' ≠ id → t_oi t' !! (id', u) = t_oi t !! (id', u);
  sb_progress : ∀ id' u, id' ≠ id → t_progress t' !! (id', u) = t_progress t !! (id', u)
}.

Lemma rel_with_stream t t' a k id r' :
  sql_rel t a → find_stream_id t k = Some id → same_but id t t' → rec_rel t' k id r' →
  sql_rel t' (with_stream a k r').
Proof.
  intros [Hwf Hi Hs Hq] Hid [B1 B2 B3 B4 B5 B6 B7] Hr'.
  assert (Hcat : ∀ k, find_stream_id t' k = find_stream_id t k)
    by (intros ?; apply find_stream_id_catalog; [done|by rewrite B1]).
  split.
  - destruct Hwf as [W1 W2 W3 W4]. split; rewrite ?B1, ?B2; try done. intros id' Hn.
    assert (id' ≠ id) as Hne.
    { intros ->. apply find_stream_id_row in Hid as (s & Hs' & _). congruence. }
    destruct (W4 id' Hn) as (C1 & C2 & C3 & C4). rewrite B4 by done.
    split_and!; [done|intros u; by rewrite B5|intros u; by rewrite B6|intros u; by rewrite B7].
  - intros tk. unfold find_instrument. rewrite B1. apply Hi.
  - intros k'. rewrite Hcat. cbn [ab_streams with_stream]. specialize (Hs k').
    destruct (decide (k' = k)) as [->|Hne].
    + rewrite Hid. exists r'. by rewrite lookup_insert_eq.
    + rewrite lookup_insert_ne by done. destruct (find_stream_id t k') as [id'|] eqn:Hid'; [|done].
      destruct Hs as (r & Hr & [C1 C2 C3 C4 C5]). exists r. split; [done|].
      assert (id' ≠ id) as Hd by (intros ->; by destruct Hne; eapply find_stream_id_inj).
      split; [done|by rewrite B4|intros u; by rewrite B5|intros u; by rewrite B6|intros u; by rewrite B7].
  - rewrite B3. eapply Forall2_impl; [exact Hq|]. intros q row (id' & Hq' & ->). exists id'. by rewrite Hcat.
Qed.

(** ** Ranges *)

Lemma key_times_elem {A} (rows : gmap (Z * Z) A) id P u :
  u ∈ key_times rows id P ↔ is_Some (rows !! (id, u)) ∧ P u = true.
Proof.
  unfold key_times. rewrite list_elem_of_In, in_map_iff. split.
  - intros ([[id' u'] x] & <- & [Hin Hb]%filter_In). cbn in *. bool_hyps. subst id'.
    apply list_elem_of_In, elem_of_map_to_list in Hin. split; [by exists x|done].
  - intros [[x Hx] Hp]. exists (id, u, x). split; [done|]. apply filter_In.
    split; [by apply list_elem_of_In, elem_of_map_to_list|]. cbn. by rewrite Z.eqb_refl, Hp.
Qed.

Lemma key_times_NoDup {A} (rows : gmap (Z * Z) A) id P : NoDup (key_times rows id P).
Proof.
  unfold key_times. apply (NoDup_fmap_2_strong (λ p : Z * Z * A, p.1.2)).
  - intros [[i u] x] [[i' u'] x'] Hx Hx'. cbn.
    apply list_elem_of_In, filter_In in Hx as [Hx Hb]. apply list_elem_of_In, filter_In in Hx' as [Hx' Hb'].
    cbn in *. bool_hyps. subst. intros ->.
    apply list_elem_of_In, elem_of_map_to_list in Hx. apply list_elem_of_In, elem_of_map_to_list in Hx'.
    congruence.
  - apply NoDup_ListNoDup, List.NoDup_filter, NoDup_ListNoDup, NoDup_map_to_list.
Qed.

Section ranges.
Context {A : Type} (rows : gmap (Z * Z) A) (m : gmap Z A) (id : Z)
  (Hrows : ∀ u, rows !! (id, u) = m !! u).

Lemma rows_between_select s e : rows_between rows id s e = select_range m s e.
Proof using Hrows.
  unfold rows_between, select_range.
  assert (py_sorted (key_times rows id (λ t, (s <=? t) && (t <? e))) = range_times m s e) as ->.
  { apply strictly_sorted_unique; [apply py_sorted_strict, key_times_NoDup|apply range_times_sorted|].
    intros u. rewrite py_sorted_elem, key_times_elem, range_times_elem, Hrows, andb_true_iff, Z.leb_le, Z.ltb_lt.
    done. }
  generalize (range_times m s e). intros l. induction l as [|u l IH]; cbn; [done|].
  rewrite Hrows. by rewrite IH.
Qed.

Lemma key_times_dom u : u ∈ key_times rows id (λ _, true) ↔ u ∈ elements (dom m).
Proof using Hrows. by rewrite key_times_elem, Hrows, elem_of_elements, elem_of_dom; split; [intros [? _]|]. Qed.
End ranges.

Lemma select_range_times {A} (m : gmap Z A) s e : map fst (select_range m s e) = range_times m s e.
Proof.
  unfold select_range. assert (Hl : ∀ u, u ∈ range_times m s e → is_Some (m !! u))
    by (intros u Hu; by apply range_times_elem in Hu as [? _]).
  induction (range_times m s e) as [|u l IH]; cbn; [done|].
  destruct (Hl u) as [x ->]; [by left|]. cbn. f_equal. apply IH. intros v Hv. apply Hl. by right.
Qed.

Lemma map_res_ext {A B} (f g : A → res B) l : (∀ x, f x = g x) → map_res f l = map_res g l.
Proof. intros H. induction l as [|x l IH]; cbn; [done|]. by rewrite H, IH. Qed.

Lemma state_of_row_row k s : ss_stream s = k → state_of_row k (state_row s) = snapshot_check s.
Proof.
  intros <-. unfold state_of_row, state_row. cbn [sw_state]. rewrite lifecycle_of_value_value. by destruct s.
Qed.

Lemma stream_id_some t k id : find_stream_id t k = Some id → stream_id t k = Ok id.
Proof. unfold stream_id. by intros ->. Qed.
Lemma stream_id_none t k : find_stream_id t k = None → stream_id t k = key_error (stream_canonical_id k).
Proof. unfold stream_id. by intros ->. Qed.

(** ** Reads *)

(** An operation that is refused when the stream is known and an integer does not fit. *)
Definition bounded {A} (k : StreamKey) (ints : list Z) (a : AbsStore) (p : res A * AbsStore) :
    res A * AbsStore :=
  if bool_decide (is_Some (ab_streams a !! k)) && negb (forallb sql_int ints)
  then (Raise sql_overflow, a) else p.

(** A read of a stream agrees when it agrees on related records. *)
Lemma read_refines {A} t a k ints (f : Z → res A) (g : StreamRec → res A) :
  sql_rel t a → (∀ id r, rec_rel t k id r → find_stream_id t k = Some id → f id = g r) →
  (id ← stream_id t k; _ ← bind_ints ints; f id) = (bounded k ints a (read_stream k a g)).1.
Proof.
  intros Hrel Hf. unfold read_stream, bounded, bind_ints.
  destruct (rel_lookup t a k Hrel) as [(id & r & Hid & Hr & Hrr)|[Hid Hr]]; rewrite Hr.
  - rewrite (stream_id_some _ _ _ Hid), bool_decide_eq_true_2 by done. cbn [andb mbind res_bind].
    destruct (forallb sql_int ints); [by apply Hf|done].
  - by rewrite (stream_id_none _ _ Hid), bool_decide_eq_false_2 by (by intros [? ?]).
Qed.

(** A read whose statement binds no integer of its caller. *)
Lemma read_free {A} t a k (f : Z → res A) (g : StreamRec → res A) :
  sql_rel t a → (∀ id r, rec_rel t k id r → find_stream_id t k = Some id → f id = g r) →
  (id ← stream_id t k; f id) = (read_stream k a g).1.
Proof.
  intros Hrel Hf. pose proof (read_refines t a k [] f g Hrel Hf) as H. unfold bounded in H.
  cbn [forallb negb] in H. by rewrite andb_false_r in H.
Qed.

(** A write of a stream refines when it does on related records: either both fail alike and
    change nothing, or both succeed and give related records. *)
Lemma write_refines t a k ints (f : Z → Tables → res () * Tables) (g : StreamRec → res () * StreamRec) :
  sql_rel t a →
  (∀ id r, rec_rel t k id r → find_stream_id t k = Some id →
     (f id t).1 = (g r).1 ∧ same_but id t (f id t).2 ∧ rec_rel (f id t).2 k id (g r).2) →
  let p := match stream_id t k with Raise e => (Raise e, t) | Ok id => execute ints t (f id t) end in
  let q := bounded k ints a (on_stream k a g) in
  p.1 = q.1 ∧ sql_rel p.2 q.2.
Proof.
  intros Hrel Hf. cbv zeta. unfold on_stream, bounded, execute, bind_ints.
  destruct (rel_lookup t a k Hrel) as [(id & r & Hid & Hr & Hrr)|[Hid Hr]]; rewrite Hr.
  - rewrite (stream_id_some _ _ _ Hid), bool_decide_eq_true_2 by done. cbn [andb].
    destruct (forallb sql_int ints); [|done]. destruct (Hf id r Hrr Hid) as (H1 & H2 & H3).
    destruct (g r) as [x r']. cbn in *. split; [done|]. by eapply (rel_with_stream t _ a k id).
  - by rewrite (stream_id_none _ _ Hid), bool_decide_eq_false_2 by (by intros [? ?]).
Qed.

Lemma same_but_refl id t : same_but id t t.
Proof. by split. Qed.

Ltac same_but_tac :=
  split; try done; intros; cbn;
  repeat match goal with
  | H : ?x ≠ ?y |- context [<[?y := _]> _ !! ?x] => rewrite lookup_insert_ne by congruence
  | |- context [<[_ := _]> _ !! _] => rewrite lookup_insert_ne by congruence
  end; try done.

Lemma candle_insert_refines t a c :
  sql_rel t a →
  let q := bounded (cc_stream c) [cc_open_time_ms c; cc_committed_at_ms c] a
             (on_stream (cc_stream c) a (abs_insert_candle c)) in
  (candle_insert c t).1 = q.1 ∧ sql_rel (candle_insert c t).2 q.2.
Proof.
  intros Hrel. apply (write_refines t a (cc_stream c) [cc_open_time_ms c; cc_committed_at_ms c] (λ id t,
    if negb (0 <=? cc_open_time_ms c) then (integrity "CHECK constraint failed: candles", t)
    else match t_candles t !! (id, cc_open_time_ms c) with
         | Some _ => (integrity "UNIQUE constraint failed: candles", t)
         | None => (Ok (), set_candles t (<[(id, cc_open_time_ms c) := candle_row c]> (t_candles t)))
         end)); [done|].
  intros id r Hrr Hid. unfold abs_insert_candle. destruct (negb _); [by auto using same_but_refl|].
  rewrite (rr_candles _ _ _ _ Hrr). destruct (sr_candles r !! cc_open_time_ms c);
    [by auto using same_but_refl|]. split; [done|]. split; [same_but_tac|].
  destruct Hrr as [H1 H2 H3 H4 H5]. split; try done. intros u. cbn.
  destruct (decide (u = cc_open_time_ms c)) as [->|]; [by rewrite !lookup_insert_eq|].
  by rewrite !lookup_insert_ne by congruence.
Qed.

Lemma candle_replace_refines t a c :
  sql_rel t a →
  let q := bounded (cc_stream c) [cc_committed_at_ms c; cc_open_time_ms c] a
             (on_stream (cc_stream c) a (abs_replace_candle c)) in
  (candle_replace c t).1 = q.1 ∧ sql_rel (candle_replace c t).2 q.2.
Proof.
  intros Hrel. apply (write_refines t a (cc_stream c) [cc_committed_at_ms c; cc_open_time_ms c] (λ id t,
    (Ok (), match t_candles t !! (id, cc_open_time_ms c) with
            | Some _ => set_candles t (<[(id, cc_open_time_ms c) := candle_row c]> (t_candles t))
            | None => t
            end))); [done|].
  intros id r Hrr Hid. unfold abs_replace_candle.
  rewrite (rr_candles _ _ _ _ Hrr). destruct (sr_candles r !! cc_open_time_ms c);
    [|by auto using same_but_refl]. split; [done|]. split; [same_but_tac|].
  destruct Hrr as [H1 H2 H3 H4 H5]. split; try done. intros u. cbn.
  destruct (decide (u = cc_open_time_ms c)) as [->|]; [by rewrite !lookup_insert_eq|].
  by rewrite !lookup_insert_ne by congruence.
Qed.

Lemma state_save_refines t a s :
  sql_rel t a →
  let g r := if state_row_ok s then (Ok (), upd_state r s)
             else (integrity "CHECK constraint failed: stream_state", r) in
  let q := bounded (ss_stream s) (state_ints s) a (on_stream (ss_stream s) a g) in
  (state_save s t).1 = q.1 ∧ sql_rel (state_save s t).2 q.2.
Proof.
  intros Hrel g. apply (write_refines t a (ss_stream s) (state_ints s) (λ id t,
    match t_states t !! id with
    | None => (Ok (), t)
    | Some _ =>
        if state_checks (state_row s)
        then (Ok (), set_states t (<[id := state_row s]> (t_states t)))
        else (integrity "CHECK constraint failed: stream_state", t)
    end)); [done|].
  intros id r Hrr Hid. rewrite (rr_state _ _ _ _ Hrr). unfold g.
  change (state_checks (state_row s)) with (state_row_ok s).
  destruct (state_row_ok s); [|by auto using same_but_refl]. split; [done|]. split; [same_but_tac|].
  destruct Hrr as [H1 H2 H3 H4 H5]. split; try done. cbn. by rewrite lookup_insert_eq.
Qed.

Lemma oi_save_refines t a p :
  sql_rel t a →
  let q := bounded (co_stream p) [co_open_time_ms p; co_committed_at_ms p] a
             (on_stream (co_stream p) a (abs_save_oi p)) in
  (oi_save p t).1 = q.1 ∧ sql_rel (oi_save p t).2 q.2.
Proof.
  intros Hrel. apply (write_refines t a (co_stream p) [co_open_time_ms p; co_committed_at_ms p] (λ id t,
    if negb (0 <=? co_open_time_ms p) then (integrity "CHECK constraint failed: open_interest", t)
    else (Ok (), set_oi t (<[(id, co_open_time_ms p) :=
            mkOiRow (co_open_interest p) "bybit_rest" (co_committed_at_ms p)]> (t_oi t))))); [done|].
  intros id r Hrr Hid. unfold abs_save_oi. destruct (negb _); [by auto using same_but_refl|].
  split; [done|]. split; [same_but_tac|]. destruct Hrr as [H1 H2 H3 H4 H5]. split; try done. intros u. cbn.
  destruct (decide (u = co_open_time_ms p)) as [->|]; [by rewrite !lookup_insert_eq|].
  by rewrite !lookup_insert_ne by congruence.
Qed.

Lemma progress_save_refines t a p :
  sql_rel t a →
  let q := bounded (tp_stream p) (progress_ints p) a
             (on_stream (tp_stream p) a (abs_save_progress p)) in
  (progress_save p t).1 = q.1 ∧ sql_rel (progress_save p t).2 q.2.
Proof.
  intros Hrel. apply (write_refines t a (tp_stream p) (progress_ints p) (λ id t,
    if bool_decide (tp_track p = "open_interest"%string) &&
       (bool_decide (tp_earliest p = None) || bool_decide (tp_discovery_next p = None))
    then (Ok (), set_progress t (<[(id, tp_track p) := progress_row p]> (t_progress t)))
    else (integrity "CHECK constraint failed: track_progress", t))); [done|].
  intros id r Hrr Hid. unfold abs_save_progress.
  change (_ && _) with (progress_row_ok p). destruct (progress_row_ok p); [|by auto using same_but_refl].
  split; [done|]. split; [same_but_tac|]. destruct Hrr as [H1 H2 H3 H4 H5]. split; try done. intros u. cbn.
  destruct (decide (u = tp_track p)) as [->|]; [by rewrite !lookup_insert_eq|].
  by rewrite !lookup_insert_ne by congruence.
Qed.

Lemma quarantine_add_refines t a q :
  sql_rel t a →
  let b := bounded (q_stream q) [q_start_ms q; q_end_ms q; q_created_at_ms q] a
             (abs_record_quarantine q a) in
  (quarantine_add q t).1 = b.1 ∧ sql_rel (quarantine_add q t).2 b.2.
Proof.
  intros Hrel. cbv zeta. unfold quarantine_add, abs_record_quarantine, bounded, execute, bind_ints.
  destruct (rel_lookup t a (q_stream q) Hrel) as [(id & r & Hid & Hr & Hrr)|[Hid Hr]]; rewrite Hr.
  - rewrite (stream_id_some _ _ _ Hid), bool_decide_eq_true_2 by done. rewrite andb_true_l.
    destruct (forallb sql_int _); [|done]. cbn [negb].
    change ((0 <=? q_start_ms q) && (0 <=? q_end_ms q) && (q_start_ms q <? q_end_ms q)) with (quarantine_row_ok q).
    destruct (quarantine_row_ok q); [|done]. split; [done|]. destruct Hrel as [Hwf Hi Hs Hq].
    split; cbn; [by destruct Hwf; split|done| |].
    + intros k. specialize (Hs k). change (find_stream_id (set_quarantine t _) k) with (find_stream_id t k).
      destruct (find_stream_id t k); [|done]. destruct Hs as (r0 & Hr0 & [H1 H2 H3 H4 H5]). by exists r0.
    + apply Forall2_app; [exact Hq|]. constructor; [|constructor]. by exists id.
  - by rewrite (stream_id_none _ _ Hid), bool_decide_eq_false_2 by (by intros [? ?]).
Qed.

Lemma existsb_Forall2 {A B} (R : A → B → Prop) (f : A → bool) (g : B → bool) l l' :
  Forall2 R l l' → (∀ x y, R x y → f x = g y) → existsb f l = existsb g l'.
Proof. intros HF H. induction HF as [|x y l l' Hxy HF IH]; cbn; [done|]. by rewrite (H x y Hxy), IH. Qed.

Lemma quarantine_contains_refines t a q id r :
  sql_rel t a → find_stream_id t (q_stream q) = Some id → ab_streams a !! q_stream q = Some r →
  quarantine_contains t q =
    (_ ← bind_ints [q_start_ms q; q_end_ms q]; Ok (existsb (same_quarantine q) (ab_quarantine a))).
Proof.
  intros Hrel Hid Hr. unfold quarantine_contains. rewrite (stream_id_some _ _ _ Hid).
  cbn [mbind res_bind]. destruct (bind_ints _); [|done]. cbn [mbind res_bind mret res_ret]. f_equal.
  symmetry. eapply existsb_Forall2; [apply (rel_quarantine t a Hrel)|].
  intros q' row (id' & Hid' & ->). unfold same_quarantine. cbn.
  rewrite (bool_decide_ext (q_reason_code q = q_reason_code q') (q_reason_code q' = q_reason_code q)) by done.
  rewrite (Z.eqb_sym (q_start_ms q)), (Z.eqb_sym (q_end_ms q)). do 3 f_equal.
  destruct (Z.eqb_spec id' id) as [->|Hne].
  - apply bool_decide_eq_true. by eapply find_stream_id_inj.
  - apply bool_decide_eq_false. intros Heq. rewrite Heq in Hid. congruence.
Qed.

Lemma record_once_refines t a q :
  sql_rel t a →
  let b := bounded (q_stream q) (op_ints (RecordQuarantineOnce q) a) a
             (abs_record_quarantine_once q a) in
  (record_quarantine_once q t).1 = b.1 ∧ sql_rel (record_quarantine_once q t).2 b.2.
Proof.
  intros Hrel. cbv zeta. unfold record_quarantine_once, abs_record_quarantine_once.
  destruct (rel_lookup t a (q_stream q) Hrel) as [(id & r & Hid & Hr & Hrr)|[Hid Hr]].
  2:{ unfold quarantine_contains, bounded. rewrite (stream_id_none _ _ Hid), Hr.
      by rewrite bool_decide_eq_false_2 by (by intros [? ?]). }
  destruct (quarantine_add_refines t a q Hrel) as [H1 H2].
  rewrite (quarantine_contains_refines t a q id r), Hr by done. unfold bounded, bind_ints in *. rewrite Hr in *.
  rewrite bool_decide_eq_true_2 in * by done. cbn [op_ints] in *.
  destruct (existsb _ _); [destruct (forallb sql_int [q_start_ms q; q_end_ms q]); (split; [done|exact Hrel])|].
  cbn [forallb] in *. destruct (sql_int (q_start_ms q)); [|done]. destruct (sql_int (q_end_ms q)); [|done].
  cbn [andb mbind res_bind] in *. destruct (sql_int (q_created_at_ms q)); cbn [andb negb] in *.
  - destruct (quarantine_add q t) as [[u|e] t'], (abs_record_quarantine q a) as [[u'|e'] a']; cbn in *;
      by simplify_eq.
  - destruct (quarantine_add q t) as [[u|e] t']; cbn in *; by simplify_eq.
Qed.

(** ** The catalog *)

Lemma find_instrument_spec t tk id i :
  sql_wf t → find_instrument t tk = Some (id, i) ↔ t_instruments t !! id = Some i ∧ it_ticker i = tk.
Proof.
  intros Hwf. unfold find_instrument. split.
  - intros [H1 H2]%first_row_some. cbn in *. by bool_hyps.
  - intros [Hi <-]. apply first_row_unique; [|done|by apply bool_decide_eq_true_2].
    intros id' i' Hi' Ht. bool_hyps. by eapply (wf_ticker t Hwf).
Qed.

Lemma find_instrument_none t tk :
  find_instrument t tk = None ↔ ∀ id i, t_instruments t !! id = Some i → it_ticker i ≠ tk.
Proof.
  unfold find_instrument. rewrite first_row_none. split.
  - intros H id i Hi. specialize (H id i Hi). by bool_hyps.
  - intros H id i Hi. apply bool_decide_eq_false. by eapply H.
Qed.

(** The symbols in use agree. *)
Lemma symbol_used_refines t a tk symbol :
  sql_rel t a → symbol_used t tk symbol = symbol_taken (ab_instruments a) tk symbol.
Proof.
  intros [Hwf Hi _ _]. apply eq_true_iff_eq. unfold symbol_used, symbol_taken. rewrite !existsb_exists. split.
  - intros ([id i] & Hin & Hb). cbn in Hb. bool_hyps. apply list_elem_of_In, elem_of_map_to_list in Hin.
    exists (it_ticker i, instrument_row i). split.
    + apply list_elem_of_In, elem_of_map_to_list. rewrite Hi.
      rewrite (proj2 (find_instrument_spec t (it_ticker i) id i Hwf)) by done. done.
    + cbn. by rewrite bool_decide_eq_false_2, bool_decide_eq_true_2.
  - intros ([tk' row] & Hin & Hb). cbn in Hb. bool_hyps. apply list_elem_of_In, elem_of_map_to_list in Hin.
    rewrite Hi in Hin. apply fmap_Some in Hin as ([id i] & Hf & ->).
    apply (find_instrument_spec t tk' id i Hwf) in Hf as [Hf <-]. exists (id, i).
    split; [by apply list_elem_of_In, elem_of_map_to_list|]. cbn in *.
    by rewrite bool_decide_eq_false_2, bool_decide_eq_true_2.
Qed.

(** A change of the instruments that keeps the tickers the streams refer to. *)
Lemma rel_instruments_update t a m instruments :
  sql_rel t a → sql_wf (set_instruments t m) →
  (∀ sid s, t_streams t !! sid = Some s →
     it_ticker <$> m !! st_instrument_id s = it_ticker <$> t_instruments t !! st_instrument_id s) →
  (∀ tk, instruments !! tk = (λ p, instrument_row p.2) <$> find_instrument (set_instruments t m) tk) →
  sql_rel (set_instruments t m) (mkAbsStore (ab_streams a) instruments (ab_quarantine a)).
Proof.
  intros [Hwf Hi Hs Hq] Hwf' Hm Hins.
  assert (Hcat : ∀ k, find_stream_id (set_instruments t m) k = find_stream_id t k)
    by (intros k; by apply find_stream_id_catalog).
  split; [done|done| |].
  - intros k. rewrite Hcat. specialize (Hs k). destruct (find_stream_id t k); [|done].
    destruct Hs as (r & Hr & [? ? ? ? ?]). by exists r.
  - cbn. eapply Forall2_impl; [exact Hq|]. intros q row (id & Hid & ->). exists id. by rewrite Hcat.
Qed.

Lemma sql_wf_update t m :
  sql_wf t → (∀ id, it_ticker <$> m !! id = it_ticker <$> t_instruments t !! id) →
  sql_wf (set_instruments t m).
Proof.
  intros [W1 W2 W3 W4] Hm.
  assert (Hold : ∀ id i, m !! id = Some i → ∃ i', t_instruments t !! id = Some i' ∧ it_ticker i' = it_ticker i).
  { intros id i Hid. specialize (Hm id). rewrite Hid in Hm. symmetry in Hm.
    apply fmap_Some in Hm as (i' & ? & ?). by exists i'. }
  split; cbn; try done.
  - intros id id' i i' (j & Hj & Ej)%Hold (j' & Hj' & Ej')%Hold Heq. eapply W1; [done|done|congruence].
  - intros id s Hid. destruct (W3 id s Hid) as [i Hi']. specialize (Hm (st_instrument_id s)).
    rewrite Hi' in Hm. apply fmap_Some in Hm as (j & Hj & _). by exists j.
Qed.

Lemma save_metadata_refines t a m :
  sql_rel t a →
  (save_instrument_metadata m t).1 = (bounded_step (SaveInstrumentMetadata m) a).1 ∧
  sql_rel (save_instrument_metadata m t).2 (bounded_step (SaveInstrumentMetadata m) a).2.
Proof.
  intros Hrel. unfold bounded_step, overflows. cbn [op_stream op_ints store_step abs_storage andb].
  unfold save_instrument_metadata, abs_save_metadata, execute, bind_ints.
  destruct (im_fetched_at_ms m) as [fetched|]; [|done]. cbv zeta.
  destruct (forallb sql_int _); [|done]. cbn [negb].
  set (tk := ticker (im_instrument m)). rewrite (rel_instruments t a Hrel tk).
  destruct (find_instrument t tk) as [[id row]|] eqn:Hf; [|done]. cbn [fmap option_fmap option_map].
  destruct (_ || _); [done|]. rewrite (symbol_used_refines t a tk) by done.
  destruct (symbol_taken _ _ _); [done|]. cbn [fst snd]. split; [done|].
  pose proof (rel_wf t a Hrel) as Hwf.
  set (upd := λ row : InstrumentTableRow, if bool_decide (it_ticker row = tk)
    then mkInstrumentTable (it_ticker row) (im_exchange_symbol m) (im_launch_time_ms m) (Some fetched)
           (it_created_at_ms row) fetched else row).
  assert (Hm : ∀ id, it_ticker <$> (upd <$> t_instruments t) !! id = it_ticker <$> t_instruments t !! id).
  { intros id'. rewrite lookup_fmap. destruct (t_instruments t !! id'); [|done]. cbn. unfold upd.
    by destruct (bool_decide _). }
  pose proof (sql_wf_update t _ Hwf Hm) as Hwf'.
  apply rel_instruments_update; [done|done|by intros|]. intros tk'.
  apply (find_instrument_spec t tk id row Hwf) in Hf as [Hrow Htk].
  destruct (decide (tk' = tk)) as [->|Hne].
  - rewrite lookup_insert_eq.
    rewrite (proj2 (find_instrument_spec _ tk id (upd row) Hwf')); [|split].
    + cbn. unfold instrument_row, upd. by rewrite bool_decide_eq_true_2.
    + cbn. by rewrite lookup_fmap, Hrow.
    + unfold upd. by rewrite bool_decide_eq_true_2.
  - rewrite lookup_insert_ne, (rel_instruments t a Hrel) by done.
    destruct (find_instrument t tk') as [[id' row']|] eqn:Hf'.
    + apply (find_instrument_spec t tk' id' row' Hwf) in Hf' as [Hrow' Htk'].
      rewrite (proj2 (find_instrument_spec _ tk' id' row' Hwf')); [done|]. split; [|done].
      cbn. rewrite lookup_fmap, Hrow'. cbn. unfold upd. by rewrite bool_decide_eq_false_2 by congruence.
    + rewrite find_instrument_none in Hf'.
      rewrite (proj2 (find_instrument_none _ tk')); [done|]. intros id' i'. cbn. rewrite lookup_fmap.
      intros (i & Hi & ->)%fmap_Some. specialize (Hf' id' i Hi). unfold upd. by destruct (bool_decide _).
Qed.

Lemma get_metadata_refines t a i :
  sql_rel t a → get_instrument_metadata t i = abs_get_metadata i a.
Proof.
  intros Hrel. unfold get_instrument_metadata, abs_get_metadata. rewrite (rel_instruments t a Hrel).
  destruct (find_instrument t (ticker i)) as [[id row]|] eqn:Hf; [|done]. cbn.
  apply (find_instrument_spec _ _ _ _ (rel_wf t a Hrel)) in Hf as [_ ->]. done.
Qed.

(** ** The simulation *)

Definition reads_only {A} (o : store_op A) : bool :=
  match o with
  | SaveInstrumentMetadata _ | InsertCandle _ | ReplaceCandle _ | SaveStreamState _
  | RecordQuarantine _ | RecordQuarantineOnce _ | SaveOpenInterest _ | SaveTrackProgress _ => false
  | _ => true
  end.

Lemma reads_refine {A} (o : store_op A) t a :
  sql_rel t a → reads_only o = true → (store_step o t).1 = (bounded_step o a).1.
Proof.
  intros Hrel Ho. unfold bounded_step, overflows.
  destruct o; try done; cbn [op_stream op_ints forallb negb]; rewrite ?andb_false_r;
    cbn [store_step sqlite_storage abs_storage fst].
  - unfold stream_exists. f_equal. destruct (rel_lookup t a k Hrel) as [(id & r & Hid & Hr & _)|[Hid Hr]].
    + rewrite (stream_id_some _ _ _ Hid), Hr. by rewrite bool_decide_eq_true_2.
    + rewrite (stream_id_none _ _ Hid), Hr. by rewrite bool_decide_eq_false_2 by (by intros [? ?]).
  - by apply get_metadata_refines.
  - apply (read_refines t a k [open_time_ms] (λ id, match t_candles t !! (id, open_time_ms) with
      | None => mret None | Some row => Some <$> candle_of_row k open_time_ms row end)); [done|].
    intros id r Hrr _. by rewrite (rr_candles _ _ _ _ Hrr).
  - apply (read_refines t a k [start_time_ms; end_time_ms] (λ id, map_res (λ '(time, row), candle_of_row k time row)
      (rows_between (t_candles t) id start_time_ms end_time_ms))); [done|]. intros id r Hrr _.
    by rewrite (rows_between_select _ _ _ (rr_candles _ _ _ _ Hrr)).
  - apply (read_refines t a k [start_time_ms; end_time_ms] (λ id, map_res (λ '(time, row), c ← candle_of_row k time row;
      mret (c, or_value <$> t_oi t !! (id, time))) (rows_between (t_candles t) id start_time_ms end_time_ms)));
      [done|]. intros id r Hrr _. rewrite (rows_between_select _ _ _ (rr_candles _ _ _ _ Hrr)).
    apply map_res_ext. intros [time row]. by rewrite (rr_oi _ _ _ _ Hrr).
  - apply (read_free t a k (λ id, mret (list_min (key_times (t_candles t) id (λ _, true)),
      list_max (key_times (t_candles t) id (λ _, true))))); [done|]. intros id r Hrr _. do 2 f_equal.
    + apply list_min_ext, key_times_dom, (rr_candles _ _ _ _ Hrr).
    + apply list_max_ext, key_times_dom, (rr_candles _ _ _ _ Hrr).
  - apply (read_free t a k (λ id, match t_states t !! id with
      | None => key_error (stream_canonical_id k) | Some row => state_of_row k row end)); [done|].
    intros id r Hrr _. rewrite (rr_state _ _ _ _ Hrr). apply state_of_row_row, (rr_key _ _ _ _ Hrr).
  - apply (read_refines t a k [open_time_ms] (λ id, mret ((λ row, mkCanonicalOI k open_time_ms (or_value row)
      (or_committed_at_ms row)) <$> t_oi t !! (id, open_time_ms)))); [done|].
    intros id r Hrr _. by rewrite (rr_oi _ _ _ _ Hrr).
  - apply (read_refines t a k [start_time_ms; end_time_ms]
      (λ id, mret (map fst (rows_between (t_oi t) id start_time_ms end_time_ms)))); [done|]. intros id r Hrr _.
    by rewrite (rows_between_select _ _ _ (rr_oi _ _ _ _ Hrr)), select_range_times.
  - apply (read_free t a k (λ id, match t_progress t !! (id, track) with
      | None => TrackProgress_check (empty_progress k track)
      | Some row => TrackProgress_check (mkProgress k track (pw_earliest row) (pw_discovery_next row)
          (pw_latest row) (pw_last_audit_at_ms row) (pw_last_audit_gap_count row)
          (pw_last_success_at_ms row) (pw_last_error_code row) (pw_last_error_detail row)
          (pw_updated_at_ms row)) end)); [done|].
    intros id r Hrr _. rewrite (rr_progress _ _ _ _ Hrr). unfold abs_get_progress.
    by destruct (sr_progress r !! track).
Qed.

Lemma store_refines {A} (o : store_op A) t a :
  sql_rel t a →
  (store_step o t).1 = (bounded_step o a).1 ∧ sql_rel (store_step o t).2 (bounded_step o a).2.
Proof.
  intros Hrel. destruct (reads_only o) eqn:Ho.
  - split; [by apply reads_refine|]. unfold bounded_step. destruct (overflows o a); by destruct o.
  - destruct o; try done.
    + by apply save_metadata_refines.
    + by apply candle_insert_refines.
    + by apply candle_replace_refines.
    + by apply state_save_refines.
    + by apply quarantine_add_refines.
    + by apply record_once_refines.
    + by apply oi_save_refines.
    + by apply progress_save_refines.
Qed.

Lemma overflows_true {A} (o : store_op A) a :
  overflows o a = true ↔
  match op_stream o with Some k => is_Some (ab_streams a !! k) | None => True end ∧
  ¬ Forall (λ z, - 2 ^ 63 ≤ z < 2 ^ 63) (op_ints o a).
Proof.
  unfold overflows. rewrite andb_true_iff. pose proof (bind_ints_ok (op_ints o a) ()) as Hb.
  unfold bind_ints in Hb. rewrite <- Hb. destruct (op_stream o) as [k|], (forallb _ _); cbn [negb];
    rewrite ?bool_decide_eq_true; naive_solver.
Qed.

(** A statement that does not bind leaves the tables as they are. *)
Lemma overflow_keeps_tables {A} (o : store_op A) t :
  (store_step o t).1 = Raise sql_overflow → store_step o t = (Raise sql_overflow, t).
Proof.
  destruct (reads_only o) eqn:Ho.
  { intros <-. by destruct o. }
  destruct o; try done; cbn [store_step sqlite_storage];
    unfold save_instrument_metadata, candle_insert, candle_replace, state_save, record_quarantine_once,
      quarantine_contains, quarantine_add, oi_save, progress_save, execute;
    repeat case_match; cbn; intros; simplify_eq; try done.
Qed.

Lemma sqlite_sim : @StoreSim Tables AbsStore sqlite_storage bounded_storage sql_rel.
Proof. intros A o t a. apply store_refines. Qed.

(** ** Registration *)

(** What registration does to the abstract store. *)
Definition abs_register (k : StreamKey) (symbol : string) (now : Z) (a : AbsStore) : res AbsStore :=
  let tk := ticker (instrument k) in
  if bool_decide (tk = ""%string) || bool_decide (symbol = ""%string)
  then integrity "CHECK constraint failed: instruments"
  else if symbol_taken (ab_instruments a) tk symbol
  then integrity "UNIQUE constraint failed: instruments.exchange_symbol"
  else
    let old := ab_instruments a !! tk in
    Ok (mkAbsStore
      (match ab_streams a !! k with
       | Some _ => ab_streams a
       | None => <[k := mkStreamRec (mkSnapshot k UNINITIALIZED None None None None None None None None
                                       now now) ∅ ∅ ∅]> (ab_streams a)
       end)
      (<[tk := mkInstrumentRow symbol (old ≫= ir_launch_time_ms) (old ≫= ir_fetched_at_ms)]>
         (ab_instruments a))
      (ab_quarantine a)).

(** Over a database the time of the registration must fit. *)
Definition bounded_register (k : StreamKey) (symbol : string) (now : Z) (a : AbsStore) : res AbsStore :=
  _ ← bind_ints [now; now]; abs_register k symbol now a.

Lemma next_rowid_fresh {A} (m : gmap Z A) : m !! next_rowid m = None.
Proof.
  destruct (m !! next_rowid m) as [x|] eqn:E; [|done]. exfalso. unfold next_rowid in E.
  assert (Hin : ∀ id y, m !! id = Some y → id ∈ map fst (map_to_list m)).
  { intros id y Hy. apply list_elem_of_fmap. exists (id, y). split; [done|]. by apply elem_of_map_to_list. }
  destruct (list_max (map fst (map_to_list m))) as [mx|] eqn:Em.
  - apply list_max_spec in Em as [_ Hmax]. specialize (Hmax _ (Hin _ _ E)). lia.
  - apply Hin in E. destruct (map fst (map_to_list m)); [by apply elem_of_nil in E|done].
Qed.

Lemma find_stream_id_iff t k id :
  sql_wf t → find_stream_id t k = Some id ↔ ∃ s, t_streams t !! id = Some s ∧ stream_matches t k s = true.
Proof.
  intros Hwf. split; [apply find_stream_id_row|]. intros (s & H1 & H2). by eapply find_stream_id_intro.
Qed.

(** The instrument is in the table afterwards, and the other instruments are as before. *)
Lemma upsert_instrument_refines t a tk symbol now t' :
  sql_rel t a → upsert_instrument tk symbol now t = Ok t' →
  (∃ iid row, find_instrument t' tk = Some (iid, row)) ∧ t_streams t' = t_streams t ∧
  sql_rel t' (mkAbsStore (ab_streams a)
    (<[tk := mkInstrumentRow symbol (ab_instruments a !! tk ≫= ir_launch_time_ms)
               (ab_instruments a !! tk ≫= ir_fetched_at_ms)]> (ab_instruments a)) (ab_quarantine a)).
Proof.
  intros Hrel. unfold upsert_instrument. destruct (bind_ints _); [|done]. cbn [mbind res_bind].
  destruct (_ || _); [done|]. destruct (symbol_used t tk symbol); [done|]. intros [= <-].
  pose proof (rel_wf t a Hrel) as Hwf. rewrite !(rel_instruments t a Hrel tk).
  assert (Hgen : ∀ id row, it_ticker row = tk →
    (∀ id' i, t_instruments t !! id' = Some i → it_ticker i = tk → id' = id) →
    (∀ i, t_instruments t !! id = Some i → it_ticker i = tk) →
    sql_wf (set_instruments t (<[id := row]> (t_instruments t))) ∧
    find_instrument (set_instruments t (<[id := row]> (t_instruments t))) tk = Some (id, row) ∧
    sql_rel (set_instruments t (<[id := row]> (t_instruments t)))
      (mkAbsStore (ab_streams a) (<[tk := instrument_row row]> (ab_instruments a)) (ab_quarantine a))).
  { intros id row Htk Hu Hid.
    assert (Hwf' : sql_wf (set_instruments t (<[id := row]> (t_instruments t)))).
    { destruct Hwf as [W1 W2 W3 W4]. split; cbn; try done.
      - intros i1 i2 r1 r2 H1 H2 Heq.
        apply lookup_insert_Some in H1 as [[<- <-]|[Hn1 H1]], H2 as [[<- <-]|[Hn2 H2]].
        + done.
        + symmetry. eapply Hu; [exact H2|congruence].
        + eapply Hu; [exact H1|congruence].
        + by eapply W1.
      - intros sid s Hs. destruct (decide (st_instrument_id s = id)) as [->|];
          [rewrite lookup_insert_eq; by eexists|]. rewrite lookup_insert_ne by done. by eapply W3. }
    split; [done|].
    assert (Hf : find_instrument (set_instruments t (<[id := row]> (t_instruments t))) tk = Some (id, row)).
    { apply find_instrument_spec; [done|]. split; [|done]. cbn. apply lookup_insert_eq. }
    split; [done|]. apply rel_instruments_update; [done|done| |].
    - intros sid s Hs. destruct (decide (st_instrument_id s = id)) as [Heq|Hne].
      + destruct (wf_instrument_fk t Hwf sid s Hs) as [i Hi]. rewrite Hi.
        rewrite Heq in Hi |- *. rewrite lookup_insert_eq. cbn. by rewrite Htk, (Hid i Hi).
      + by rewrite lookup_insert_ne.
    - intros tk'. destruct (decide (tk' = tk)) as [->|Hne]; [by rewrite lookup_insert_eq, Hf|].
      rewrite lookup_insert_ne, (rel_instruments t a Hrel) by done.
      destruct (find_instrument t tk') as [[id' row']|] eqn:Hf'.
      + apply (find_instrument_spec t tk' id' row' Hwf) in Hf' as [Hrow' Htk'].
        rewrite (proj2 (find_instrument_spec _ tk' id' row' Hwf')); [done|]. split; [|done]. cbn.
        rewrite lookup_insert_ne; [done|]. intros ->. apply Hne. rewrite <- Htk'. by apply Hid.
      + rewrite find_instrument_none in Hf'. rewrite (proj2 (find_instrument_none _ tk')); [done|].
        intros id' i'. cbn. rewrite lookup_insert_Some. intros [[<- <-]|[_ Hi']]; [congruence|by eapply Hf']. }
  destruct (find_instrument t tk) as [[id row]|] eqn:Hf; cbn [fmap option_fmap option_map mbind option_bind].
  - apply (find_instrument_spec t tk id row Hwf) in Hf as [Hrow Htk].
    destruct (Hgen id (mkInstrumentTable tk symbol (it_launch_time_ms row)
      (it_metadata_fetched_at_ms row) (it_created_at_ms row) now)) as (_ & Hf' & Hr); [done| |congruence|].
    { intros id' i Hi Ht. eapply (wf_ticker t Hwf); [done|done|congruence]. }
    split; [by eexists _, _|]. by split.
  - destruct (Hgen (next_rowid (t_instruments t)) (mkInstrumentTable tk symbol None None now now))
      as (_ & Hf' & Hr); [done| | |].
    { intros id' i Hi Ht. rewrite find_instrument_none in Hf. by destruct (Hf id' i Hi). }
    { intros i Hi. by rewrite next_rowid_fresh in Hi. }
    split; [by eexists _, _|]. by split.
Qed.

(** A new stream, with its lifecycle row. *)
Lemma new_stream_refines t a k iid row sid now :
  sql_rel t a → find_instrument t (ticker (instrument k)) = Some (iid, row) →
  find_stream_id t k = None → t_streams t !! sid = None →
  let t' := set_states (set_streams t (<[sid := mkStreamTable iid (tf_id (timeframe k)) now]> (t_streams t)))
              (<[sid := uninitialized_row now]> (t_states t)) in
  find_stream_id t' k = Some sid ∧
  sql_rel t' (mkAbsStore (<[k := mkStreamRec (mkSnapshot k UNINITIALIZED None None None None None None
    None None now now) ∅ ∅ ∅]> (ab_streams a)) (ab_instruments a) (ab_quarantine a)).
Proof.
  intros Hrel Hf Hn Hsid t'. pose proof (rel_wf t a Hrel) as Hwf.
  pose proof (proj1 (find_instrument_spec t _ iid row Hwf) Hf) as [Hrow Htk].
  assert (Hnew : stream_matches t k (mkStreamTable iid (tf_id (timeframe k)) now) = true).
  { apply stream_matches_true. exists row. cbn. by split_and!. }
  assert (Hother : ∀ s, stream_matches t k s = true ↔
                    st_instrument_id s = iid ∧ st_timeframe s = tf_id (timeframe k)).
  { intros s. rewrite stream_matches_true. split.
    - intros (i & Hi & H1 & H2). split; [|done]. eapply (wf_ticker t Hwf); [done|done|congruence].
    - intros [<- H2]. by exists row. }
  assert (Hwf' : sql_wf t').
  { destruct Hwf as [W1 W2 W3 W4]. split; cbn; try done.
    - intros i1 i2 s1 s2 H1 H2 Heq1 Heq2.
      apply lookup_insert_Some in H1 as [[<- <-]|[Hn1 H1]], H2 as [[<- <-]|[Hn2 H2]]; cbn in *.
      + done.
      + exfalso. assert (stream_matches t k s2 = true) as Hm by (by apply Hother).
        eapply find_stream_id_intro in Hm; [|by split|done]. congruence.
      + exfalso. assert (stream_matches t k s1 = true) as Hm by (by apply Hother).
        eapply find_stream_id_intro in Hm; [|by split|done]. congruence.
      + by eapply W2.
    - intros id s [[<- <-]|[_ Hs]]%lookup_insert_Some; [by eexists|by eapply W3].
    - intros id [Hid Hne]%lookup_insert_None. rewrite lookup_insert_ne by done. by apply W4. }
  assert (Hcat : ∀ k' id, find_stream_id t' k' = Some id ↔
            (id = sid ∧ k' = k) ∨ find_stream_id t k' = Some id).
  { intros k' id. rewrite !find_stream_id_iff by done. split.
    - intros (s & Hs & Hm). cbn in Hs. apply lookup_insert_Some in Hs as [[<- <-]|[Hne Hs]]; [left|right].
      + split; [done|]. apply stream_matches_true in Hm as (i & Hi & H1 & H2). cbn in *.
        destruct k as [[tk] tf], k' as [[tk'] tf']. cbn in *. assert (i = row) as -> by congruence.
        assert (tf' = tf) as -> by (apply (inj Some); rewrite <- !find_timeframe_id; congruence). congruence.
      + by exists s.
    - intros [[-> ->]|(s & Hs & Hm)].
      + eexists. cbn. rewrite lookup_insert_eq. split; [done|exact Hnew].
      + exists s. split; [|done]. cbn. rewrite lookup_insert_ne; [done|]. intros <-. congruence. }
  split; [apply Hcat; by left|]. split; [done| | |].
  - apply (rel_instruments t a Hrel).
  - intros k'. cbn [ab_streams]. destruct (decide (k' = k)) as [->|Hne].
    + rewrite (proj2 (Hcat k sid)) by (by left). eexists. rewrite lookup_insert_eq. split; [done|].
      destruct (wf_stream_fk t Hwf sid Hsid) as (C1 & C2 & C3 & C4).
      split; cbn; [done|by rewrite lookup_insert_eq|..]; intros u; rewrite lookup_empty; auto.
    + rewrite lookup_insert_ne by done. pose proof (rel_streams t a Hrel k') as Hs.
      destruct (find_stream_id t k') as [id|] eqn:Hid.
      * rewrite (proj2 (Hcat k' id)) by (by right). destruct Hs as (r & Hr & [D1 D2 D3 D4 D5]).
        exists r. split; [done|]. split; try done. cbn. rewrite lookup_insert_ne; [done|].
        intros <-. apply find_stream_id_row in Hid as (s & Hs & _). congruence.
      * destruct (find_stream_id t' k') as [id|] eqn:Hid'; [|done].
        apply Hcat in Hid' as [[_ ->]|?]; congruence.
  - eapply Forall2_impl; [apply (rel_quarantine t a Hrel)|]. intros q qrow (id & Hid & ->).
    exists id. split; [|done]. apply Hcat. by right.
Qed.

Lemma register_sim (k : StreamKey) (symbol : string) (now : Z) (t : Tables) (a : AbsStore) :
  sql_rel t a →
  match register_stream k symbol now t, bounded_register k symbol now a with
  | Ok (id, t'), Ok a' => find_stream_id t' k = Some id ∧ sql_rel t' a'
  | Raise e, Raise e' => e = e'
  | _, _ => False
  end.
Proof.
  intros Hrel. unfold register_stream, bounded_register, abs_register. cbv zeta.
  destruct (upsert_instrument (ticker (instrument k)) symbol now t) as [t1|e] eqn:Eu; cbn [mbind res_bind].
  2:{ unfold upsert_instrument in Eu. destruct (bind_ints _); [|by injection Eu as <-].
      cbn [mbind res_bind] in *. rewrite (symbol_used_refines t a) in Eu by done.
      destruct (_ || _); [by injection Eu as <-|].
      destruct (symbol_taken _ _ _); [by injection Eu as <-|done]. }
  assert (bind_ints [now; now] = Ok () ∧
    bool_decide (ticker (instrument k) = ""%string) || bool_decide (symbol = ""%string) = false
    ∧ symbol_taken (ab_instruments a) (ticker (instrument k)) symbol = false) as (-> & -> & ->).
  { unfold upsert_instrument in Eu. destruct (bind_ints _) as [[]|]; [|done].
    cbn [mbind res_bind] in Eu. split; [done|]. rewrite (symbol_used_refines t a) in Eu by done.
    destruct (_ || _); [done|]. by destruct (symbol_taken _ _ _). }
  apply (upsert_instrument_refines t a) in Eu as ((iid & row & Hf) & Hst & Hrel1); [|done].
  unfold instrument_id. rewrite Hf. cbn [mbind res_bind fst].
  pose proof (rel_wf _ _ Hrel1) as Hwf1. pose proof (proj1 (find_instrument_spec t1 _ iid row Hwf1) Hf) as [Hrow Htk].
  destruct (first_row _ (t_streams t1)) as [[sid s]|] eqn:Efr.
  - apply first_row_some in Efr as [Hs Hb]. cbn in Hs, Hb. bool_hyps. subst iid.
    assert (Hid : find_stream_id t1 k = Some sid).
    { eapply find_stream_id_intro; [done|done|]. apply stream_matches_true. by exists row. }
    rewrite (stream_id_some _ _ _ Hid). cbn [mbind res_bind mret res_ret].
    pose proof (rel_streams _ _ Hrel1 k) as Hk. rewrite Hid in Hk. destruct Hk as (r & Hr & Hrr).
    cbn in Hr. rewrite Hr, (rr_state _ _ _ _ Hrr). by split.
  - assert (Hnone : find_stream_id t1 k = None).
    { destruct (find_stream_id t1 k) as [sid|] eqn:Hid; [|done].
      apply find_stream_id_row in Hid as (s & Hs & (i & Hi & H1 & H2)%stream_matches_true).
      rewrite first_row_none in Efr. specialize (Efr sid s Hs). cbn in Efr.
      assert (st_instrument_id s = iid) as Hiid by (eapply (wf_ticker t1 Hwf1); [done|done|congruence]).
      by rewrite Hiid, Z.eqb_refl, H2, bool_decide_eq_true_2 in Efr. }
    destruct (new_stream_refines t1 _ k iid row (next_rowid (t_streams t1)) now Hrel1 Hf Hnone
                (next_rowid_fresh _)) as [Hid Hrel2].
    assert (Hid2 : find_stream_id (set_streams t1 (<[next_rowid (t_streams t1) :=
      mkStreamTable iid (tf_id (timeframe k)) now]> (t_streams t1))) k = Some (next_rowid (t_streams t1))) by exact Hid.
    rewrite (stream_id_some _ _ _ Hid2). cbn [mbind res_bind mret res_ret].
    destruct (wf_stream_fk t1 Hwf1 _ (next_rowid_fresh (t_streams t1))) as (C1 & _).
    cbn [t_states set_streams]. rewrite C1. split; [exact Hid|].
    pose proof (rel_streams _ _ Hrel1 k) as Hk. rewrite Hnone in Hk. cbn in Hk. rewrite Hk. exact Hrel2.
Qed.

(** ** Properties *)

(** C4. Every operation of the SQLite unit of work returns what the storage port promises and
    leaves tables that represent the promised store: reads by joined id, ordered ranges and
    aggregates, inserts, updates, upserts and their constraint failures alike.  The promise
    is [OverflowError] with the store unchanged when the operation binds an integer outside
    the signed 64 bits of SQLite, which it does only for a known stream or an instrument,
    and the step of the abstract store otherwise. *)
Theorem sqlite_refines {A} (o : store_op A) (t : Tables) (a : AbsStore) :
  sql_rel t a →
  let known := match op_stream o with Some k => is_Some (ab_streams a !! k) | None => True end in
  let fit := Forall (λ z, - 2 ^ 63 ≤ z < 2 ^ 63) (op_ints o a) in
  (known ∧ ¬ fit → store_step o t = (Raise sql_overflow, t)) ∧
  (¬ known ∨ fit →
     (store_step o t).1 = (store_step o a).1 ∧ sql_rel (store_step o t).2 (store_step o a).2).
Proof.
  intros Hrel known fit. destruct (store_refines o t a Hrel) as [H1 H2]. unfold bounded_step in H1, H2.
  destruct (overflows o a) eqn:Eo.
  - apply overflows_true in Eo as [Hk Hf]. split; [|by intros [?|?]]. intros _. by apply overflow_keeps_tables.
  - split; [|done]. intros [Hk Hf]. exfalso. assert (overflows o a = true) by (by apply overflows_true). congruence.
Qed.

(** C12. Every use case gives the same result over SQLite as over the bounded store, errors
    included, and leaves tables that represent the bounded result; and that is the result
    over the abstract store whenever the integers of the operations it makes there fit in
    64 bits, so the theorems about use cases hold of the program with its database. *)
Theorem use_cases_over_sqlite `{E : Env} {A} (m : M A) (t : Tables) (a : AbsStore) (n c : nat) :
  sql_rel t a →
  let sql := run m (mkWorld t None n c) in
  (sql.1 = (run_bounded m (mkWorld a None n c)).1 ∧
   sql_rel (w_db sql.2) (w_db (run_bounded m (mkWorld a None n c)).2)) ∧
  (ints_fit m (mkWorld a None n c) →
     sql.1 = (run m (mkWorld a None n c)).1 ∧ sql_rel (w_db sql.2) (w_db (run m (mkWorld a None n c)).2)).
Proof.
  intros Hrel sql. assert (Hw : world_rel sql_rel (mkWorld t None n c) (mkWorld a None n c)).
  { split; [done|]. split; [constructor|done]. }
  apply (@run_sim _ _ sqlite_storage bounded_storage _ sql_rel sqlite_sim _ m) in Hw as [Hres (Hdb & _)].
  split; [by split|]. intros Hf. rewrite <- (run_bounded_fits m _ Hf). by split.
Qed.

(** Registering a stream creates its instrument and lifecycle row when they are missing and
    otherwise only renames the symbol of its instrument; it fails exactly when the time does
    not fit in 64 bits or the symbol is empty or belongs to another instrument.  Starting from the empty database, every
    database the service makes represents an abstract store. *)
Theorem register_refines (k : StreamKey) (symbol : string) (now : Z) (t : Tables) (a : AbsStore) :
  sql_rel t a →
  match register_stream k symbol now t, bounded_register k symbol now a with
  | Ok (id, t'), Ok a' => find_stream_id t' k = Some id ∧ sql_rel t' a'
  | Raise e, Raise e' => e = e'
  | _, _ => False
  end.
Proof.
  intros Hrel. pose proof (register_sim k symbol now t a Hrel) as H.
  by destruct (register_stream k symbol now t) as [[id t']|e], (bounded_register k symbol now a) as [a'|e'].
Qed.

Lemma empty_rel : sql_rel empty_tables (mkAbsStore ∅ ∅ []).
Proof.
  split; [split; by intros|done| |constructor]. intros k. done.
Qed.

(** The database of the examples: two streams of one instrument. *)
Definition example_tables : Tables :=
  match register_stream (mkStreamKey (mkInstrumentKey "BTCUSDT.P") TF_5m) "BTCUSDT" 5 empty_tables with
  | Ok (_, t) => match register_stream example_stream "BTCUSDT" 10 t with Ok (_, t) => t | Raise _ => t end
  | Raise _ => empty_tables
  end.
Definition example_abs : AbsStore :=
  match bounded_register (mkStreamKey (mkInstrumentKey "BTCUSDT.P") TF_5m) "BTCUSDT" 5 (mkAbsStore ∅ ∅ []) with
  | Ok a => match bounded_register example_stream "BTCUSDT" 10 a with Ok a => a | Raise _ => a end
  | Raise _ => mkAbsStore ∅ ∅ []
  end.

Lemma example_tables_rel : sql_rel example_tables example_abs.
Proof.
  pose proof (register_sim (mkStreamKey (mkInstrumentKey "BTCUSDT.P") TF_5m) "BTCUSDT" 5 _ _ empty_rel) as H.
  unfold example_tables, example_abs.
  destruct (register_stream _ _ 5 _) as [[id t]|], (bounded_register _ _ 5 _) as [a|]; try done; try apply empty_rel.
  destruct H as [_ H]. pose proof (register_sim example_stream "BTCUSDT" 10 _ _ H) as H'.
  destruct (register_stream _ _ 10 _) as [[id' t']|], (bounded_register _ _ 10 _) as [a'|]; try done. apply H'.
Qed.

Lemma sqlite_refines_witness :
  (find_stream_id example_tables example_stream = Some 2 ∧
   fmap ss_state (store_step (GetStreamState example_stream) example_tables).1 = Ok UNINITIALIZED ∧
   op_ints (ListCandles example_stream 0 (2 ^ 63)) example_abs = [0; 9223372036854775808]) ∧
  ((store_step (GetStreamState example_stream) example_tables).1 =
     (store_step (GetStreamState example_stream) example_abs).1 ∧
   sql_rel (store_step (GetStreamState example_stream) example_tables).2
     (store_step (GetStreamState example_stream) example_abs).2) ∧
  store_step (ListCandles example_stream 0 (2 ^ 63)) example_tables = (Raise sql_overflow, example_tables).
Proof.
  split; [split_and!; by vm_compute|]. split.
  - apply (sqlite_refines (GetStreamState example_stream) example_tables example_abs); [apply example_tables_rel|].
    right. constructor.
  - apply (sqlite_refines (ListCandles example_stream 0 (2 ^ 63)) example_tables example_abs);
      [apply example_tables_rel|].
    split; [by vm_compute; eexists|]. cbn [op_ints]. intros H%Forall_cons. destruct H as [_ H%Forall_cons]. lia.
Defined.

#[local] Existing Instance example_env.

Lemma use_cases_over_sqlite_witness :
  let m := ingest_execute (example_candle 60000 11 BYBIT_REST) 20 in
  fmap ing_classification (run m (mkWorld example_tables None 0 0)).1 = Ok COMMITTED ∧
  (run m (mkWorld example_tables None 0 0)).1 = (run m (mkWorld example_abs None 0 0)).1 ∧
  sql_rel (w_db (run m (mkWorld example_tables None 0 0)).2) (w_db (run m (mkWorld example_abs None 0 0)).2).
Proof.
  intros m. split; [by vm_compute|].
  apply (use_cases_over_sqlite m example_tables example_abs 0 0); [apply example_tables_rel|].
  vm_compute. repeat split.
Defined.

Lemma register_refines_witness :
  fmap fst (register_stream example_stream "BTCUSDT" 30 example_tables) = Ok 2 ∧
  match register_stream example_stream "BTCUSDT" 30 example_tables,
        bounded_register example_stream "BTCUSDT" 30 example_abs with
  | Ok (id, t'), Ok a' => find_stream_id t' example_stream = Some id ∧ sql_rel t' a'
  | Raise e, Raise e' => e = e'
  | _, _ => False
  end.
Proof.
  split; [by vm_compute|].
  apply (register_refines example_stream "BTCUSDT" 30 example_tables example_abs), example_tables_rel.
Defined.
