(* ===== verification/Schema.v ===== *)
(** * The schema of the database and its migrations

    adapters/sqlite/schema.py with schema_v2.sql and schema_v3_tracks.sql, and
    [initialize_database] of adapters/sqlite/bootstrap.py.  A database is its tables: the columns
    and constraints of each, and its rows, in which an absent column is NULL.  The statements are
    those of SQLite the files use, with the errors they can end in; an index has no effect here.  A
    connection keeps what is on disk, the transaction that is open, and the states the disk went
    through, which are those a crash can leave.  Another process that holds the lock is left out;
    what the tables hold once the schema is there is in Sqlite.v. *)

From S2P Require Import Prelude PyStr DecimalValues Timeframes Identity Gaps Candles StreamState.
From S2P Require Import OpenInterest Storage AbsStore.

(** ** SQL *)

Inductive Value := VInt (n : Z) | VText (s : string).
Notation Row := (gmap string Value).

Inductive Constraint :=
| NotNull (c : string)
| Unique (cs : list string)
| CheckIn (c : string) (texts : list string)
| CheckNonEmpty (c : string)
| CheckNonNegative (c : string)
| CheckEitherNull (c c' : string)
| CheckAbove (c c' : string)
| References (c : string) (parent : string).

Record TableDef := mkTableDef { td_columns : list string; td_constraints : list Constraint }.
Record Table := mkTable { tb_def : TableDef; tb_rows : list Row }.
Notation Database := (gmap string Table).

#[export] Instance Value_eq_dec : EqDecision Value.
Proof. solve_decision. Defined.
#[export] Instance Constraint_eq_dec : EqDecision Constraint.
Proof. solve_decision. Defined.
#[export] Instance TableDef_eq_dec : EqDecision TableDef.
Proof. solve_decision. Defined.
#[export] Instance Table_eq_dec : EqDecision Table.
Proof. solve_decision. Defined.

Definition key_of (cs : list string) (r : Row) : list (option Value) := map (λ c, r !! c) cs.

(** A row beside the others of its table; a check of a NULL does not fail. *)
Definition holds (d : Database) (others : list Row) (r : Row) (c : Constraint) : bool :=
  match c with
  | NotNull c => bool_decide (is_Some (r !! c))
  | Unique cs => bool_decide (None ∈ key_of cs r) || negb (existsb (λ o, bool_decide (key_of cs o = key_of cs r)) others)
  | CheckIn c texts => match r !! c with Some (VText s) => bool_decide (s ∈ texts) | Some _ => false | None => true end
  | CheckNonEmpty c => negb (bool_decide (r !! c = Some (VText "")))
  | CheckNonNegative c => match r !! c with Some (VInt n) => 0 <=? n | _ => true end
  | CheckEitherNull c c' => bool_decide (r !! c = None) || bool_decide (r !! c' = None)
  | CheckAbove c c' => match r !! c, r !! c' with Some (VInt n), Some (VInt n') => n' >? n | _, _ => true end
  | References c parent =>
      match r !! c with
      | None => true
      | Some v => match d !! parent with
                  | Some t => existsb (λ p, bool_decide (p !! "id"%string = Some v)) (tb_rows t)
                  | None => false
                  end
      end
  end.

Definition row_ok (d : Database) (def : TableDef) (others : list Row) (r : Row) : bool :=
  forallb (holds d others r) (td_constraints def).

Inductive Stmt :=
| CreateTable (name : string) (def : TableDef)
| CreateIndex (table : string)
| InsertRow (table : string) (r : Row)
| InsertSelect (target source : string) (columns : list string)
| DropTable (name : string)
| RenameTable (name name' : string)
| UpdateMeta (key value : string).

Definition operational {A} (what : string) : res A := raise ExcOperationalError what.
Definition no_such_table {A} (name : string) : res A := operational ("no such table: " +:+ name).

Definition table_of (d : Database) (name : string) : res Table :=
  match d !! name with Some t => Ok t | None => no_such_table name end.

(** The rows are inserted one after the other, beside those inserted before. *)
Fixpoint insert_rows (name : string) (rows : list Row) (d : Database) : res Database :=
  match rows with
  | [] => mret d
  | r :: rows =>
      t ← table_of d name;
      if row_ok d (tb_def t) (tb_rows t) r
      then insert_rows name rows (<[name := mkTable (tb_def t) (tb_rows t ++ [r])]> d)
      else integrity ("constraint failed: " +:+ name)
  end.

(** Some row of another table refers to one of [name]. *)
Definition referenced (d : Database) (name : string) : bool :=
  existsb (λ nt, negb (bool_decide (nt.1 = name)) &&
    existsb (λ c, match c with
                  | References col parent => bool_decide (parent = name) &&
                      existsb (λ r : Row, bool_decide (is_Some (r !! col))) (tb_rows nt.2)
                  | _ => false
                  end) (td_constraints (tb_def nt.2))) (map_to_list d).

Definition select_columns (columns : list string) (r : Row) : Row := filter (λ cv, cv.1 ∈ columns) r.

Definition set_meta (key value : string) (r : Row) : Row :=
  if bool_decide (r !! "key"%string = Some (VText key)) then <["value"%string := VText value]> r else r.

Definition exec (s : Stmt) (d : Database) : res Database :=
  match s with
  | CreateTable name def =>
      match d !! name with
      | Some _ => operational ("table " +:+ name +:+ " already exists")
      | None => mret (<[name := mkTable def []]> d)
      end
  | CreateIndex table => _ ← table_of d table; mret d
  | InsertRow table r => insert_rows table [r] d
  | InsertSelect target source columns =>
      src ← table_of d source;
      _ ← table_of d target;
      insert_rows target (map (select_columns columns) (tb_rows src)) d
  | DropTable name =>
      _ ← table_of d name;
      if referenced d name then integrity "FOREIGN KEY constraint failed" else mret (delete name d)
  | RenameTable name name' =>
      t ← table_of d name;
      match d !! name' with
      | Some _ => operational ("there is already another table or index with this name: " +:+ name')
      | None => mret (<[name' := t]> (delete name d))
      end
  | UpdateMeta key value =>
      t ← table_of d "schema_meta";
      mret (<["schema_meta"%string := mkTable (tb_def t) (map (set_meta key value) (tb_rows t))]> d)
  end.

(** ** schema_v2.sql and schema_v3_tracks.sql *)

Section tables.
Open Scope string_scope.

Definition SCHEMA_VERSION : string := "3".

Definition primary_key (cs : list string) : list Constraint := Unique cs :: map NotNull cs.

Definition schema_meta_def : TableDef :=
  mkTableDef ["key"; "value"] [Unique ["key"]; NotNull "value"].
Definition instruments_def : TableDef :=
  mkTableDef ["id"; "ticker"; "exchange_symbol"; "launch_time_ms"; "metadata_fetched_at_ms"; "created_at_ms"; "updated_at_ms"]
    (primary_key ["id"] ++
     [NotNull "ticker"; Unique ["ticker"]; NotNull "exchange_symbol"; Unique ["exchange_symbol"]; NotNull "created_at_ms";
      NotNull "updated_at_ms"; CheckNonEmpty "ticker"; CheckNonEmpty "exchange_symbol"; CheckNonNegative "launch_time_ms";
      CheckNonNegative "metadata_fetched_at_ms"]).
Definition streams_def : TableDef :=
  mkTableDef ["id"; "instrument_id"; "timeframe"; "created_at_ms"]
    (primary_key ["id"] ++
     [NotNull "instrument_id"; NotNull "timeframe"; NotNull "created_at_ms"; References "instrument_id" "instruments";
      Unique ["instrument_id"; "timeframe"]; CheckNonEmpty "timeframe"]).
Definition candles_def : TableDef :=
  mkTableDef ["stream_id"; "open_time_ms"; "open_value"; "high_value"; "low_value"; "close_value"; "volume_value"; "source";
              "committed_at_ms"]
    (primary_key ["stream_id"; "open_time_ms"] ++
     [NotNull "open_value"; NotNull "high_value"; NotNull "low_value"; NotNull "close_value"; NotNull "volume_value";
      NotNull "source"; NotNull "committed_at_ms"; References "stream_id" "streams"; CheckNonNegative "open_time_ms";
      CheckIn "source" ["bybit_rest"; "bybit_websocket"]]).
Definition lifecycle_texts : list string :=
  ["uninitialized"; "bootstrapping"; "auditing"; "repairing"; "connecting"; "ready"; "degraded"; "failed"].
Definition stream_state_columns_v1 : list string :=
  ["stream_id"; "state"; "earliest_available_open_time_ms"; "latest_committed_open_time_ms"; "last_audit_at_ms";
   "last_rest_success_at_ms"; "last_ws_message_at_ms"; "last_error_code"; "last_error_detail"; "state_changed_at_ms";
   "updated_at_ms"].
Definition stream_state_constraints_v1 : list Constraint :=
  primary_key ["stream_id"] ++
  [NotNull "state"; NotNull "state_changed_at_ms"; NotNull "updated_at_ms"; References "stream_id" "streams";
   CheckIn "state" lifecycle_texts].
Definition discovery_column : string := "lower_bound_discovery_next_open_time_ms".
Definition stream_state_def : TableDef :=
  mkTableDef
    ["stream_id"; "state"; "earliest_available_open_time_ms"; discovery_column; "latest_committed_open_time_ms";
     "last_audit_at_ms"; "last_rest_success_at_ms"; "last_ws_message_at_ms"; "last_error_code"; "last_error_detail";
     "state_changed_at_ms"; "updated_at_ms"]
    (stream_state_constraints_v1 ++
     [CheckNonNegative discovery_column; CheckEitherNull "earliest_available_open_time_ms" discovery_column]).
Definition quarantine_def : TableDef :=
  mkTableDef ["id"; "stream_id"; "start_ms"; "end_ms"; "reason_code"; "detail"; "payload_json"; "created_at_ms"]
    (primary_key ["id"] ++
     [NotNull "reason_code"; NotNull "created_at_ms"; References "stream_id" "streams"; CheckNonNegative "start_ms";
      CheckNonNegative "end_ms"; CheckAbove "start_ms" "end_ms"]).
Definition open_interest_def : TableDef :=
  mkTableDef ["stream_id"; "open_time_ms"; "open_interest_value"; "source"; "committed_at_ms"]
    (primary_key ["stream_id"; "open_time_ms"] ++
     [NotNull "open_interest_value"; NotNull "source"; NotNull "committed_at_ms"; References "stream_id" "streams";
      CheckNonNegative "open_time_ms"; CheckIn "source" ["bybit_rest"]]).
Definition track_progress_def : TableDef :=
  mkTableDef ["stream_id"; "track"; "earliest_available_open_time_ms"; "discovery_next_open_time_ms";
              "latest_committed_open_time_ms"; "last_audit_at_ms"; "last_audit_gap_count"; "last_success_at_ms";
              "last_error_code"; "last_error_detail"; "updated_at_ms"]
    (primary_key ["stream_id"; "track"] ++
     [NotNull "updated_at_ms"; References "stream_id" "streams"; CheckIn "track" ["open_interest"];
      CheckEitherNull "earliest_available_open_time_ms" "discovery_next_open_time_ms"]).

Definition meta_row (version : string) : Row := {[ "key" := VText "schema_version"; "value" := VText version ]}.

(** schema_v2.sql *)
Definition schema_script : list Stmt :=
  [CreateTable "schema_meta" schema_meta_def;
   InsertRow "schema_meta" (meta_row "2");
   CreateTable "instruments" instruments_def;
   CreateTable "streams" streams_def;
   CreateTable "candles" candles_def;
   CreateTable "stream_state" stream_state_def;
   CreateTable "quarantine" quarantine_def;
   CreateIndex "quarantine"].

(** schema_v3_tracks.sql, split at its semicolons *)
Definition tracks_script : list Stmt :=
  [CreateTable "open_interest" open_interest_def; CreateTable "track_progress" track_progress_def].

Definition required_tables : list string :=
  ["schema_meta"; "instruments"; "streams"; "candles"; "stream_state"; "quarantine"; "open_interest"; "track_progress"].
End tables.

(** ** A connection *)

Record Connection := mkConnection { cn_disk : Database; cn_tx : option Database; cn_durable : list Database }.

Notation DbM := (StRes Connection).

Definition db_read : DbM Database := λ c, (Ok (default (cn_disk c) (cn_tx c)), c).
(** The disk after a commit: one of the states a crash can leave. *)
Definition to_disk (d : Database) (c : Connection) : Connection := mkConnection d None (cn_durable c ++ [d]).

(** Outside a transaction a statement is one of its own. *)
Definition execute (s : Stmt) : DbM () := λ c,
  match cn_tx c with
  | Some t => match exec s t with
              | Ok t' => (Ok (), mkConnection (cn_disk c) (Some t') (cn_durable c))
              | Raise e => (Raise e, c)
              end
  | None => match exec s (cn_disk c) with
            | Ok d => (Ok (), to_disk d c)
            | Raise e => (Raise e, c)
            end
  end.

Definition begin_immediate : DbM () := λ c,
  match cn_tx c with
  | Some _ => (operational "cannot start a transaction within a transaction", c)
  | None => (Ok (), mkConnection (cn_disk c) (Some (cn_disk c)) (cn_durable c))
  end.
Definition db_commit : DbM () := λ c,
  (Ok (), match cn_tx c with Some t => to_disk t c | None => c end).
Definition db_rollback (c : Connection) : Connection := mkConnection (cn_disk c) None (cn_durable c).

(** [try: ... except Exception: connection.rollback(); raise] *)
Definition or_rollback (m : DbM ()) : DbM () := λ c,
  match m c with (Raise e, c') => (Raise e, db_rollback c') | r => r end.

Fixpoint execute_all (ss : list Stmt) : DbM () :=
  match ss with
  | [] => mret ()
  | s :: ss => _ ← execute s; execute_all ss
  end.

(** The script commits what is pending; its statements are transactions of their own. *)
Definition executescript (ss : list Stmt) : DbM () := _ ← db_commit; execute_all ss.

(** ** schema.py *)

(** The value of a row whose [key] is the schema version. *)
Definition version_rows (t : Table) : list Row :=
  filter (λ r : Row, r !! "key"%string = Some (VText "schema_version")) (tb_rows t).
Definition version_value (t : Table) : option Value :=
  match version_rows t with r :: _ => r !! "value"%string | [] => None end.
Definition value_text (v : Value) : string := match v with VText s => s | VInt n => pretty n end.

(** [SELECT value FROM schema_meta WHERE key = 'schema_version'] *)
Definition read_version : DbM (option Value) :=
  d ← db_read;
  t ← sr_lift (table_of d "schema_meta");
  mret (version_value t).

Definition text_or_none (v : option Value) : string := match v with Some v => value_text v | None => "None" end.

Definition unsupported {A} (what : string) : res A := raise ExcUnsupportedSchemaVersion what.

(** [_migrate_v2_to_v3] *)
Definition migrate_v2_to_v3 : DbM () :=
  or_rollback (
    _ ← begin_immediate;
    _ ← execute_all tracks_script;
    _ ← execute (UpdateMeta "schema_version" SCHEMA_VERSION);
    db_commit).

(** [_migrate_v1_to_v2] *)
Definition migrate_v1_to_v2 : DbM () :=
  or_rollback (
    _ ← begin_immediate;
    _ ← execute (CreateTable "stream_state_v2" stream_state_def);
    _ ← execute (InsertSelect "stream_state_v2" "stream_state" stream_state_columns_v1);
    _ ← execute (DropTable "stream_state");
    _ ← execute (RenameTable "stream_state_v2" "stream_state");
    _ ← execute (UpdateMeta "schema_version" "2");
    db_commit).

(** [create_schema] *)
Definition create_schema : DbM () :=
  _ ← executescript schema_script;
  _ ← db_commit;
  migrate_v2_to_v3.

(** [migrate_schema] *)
Definition migrate_schema : DbM () :=
  row ← read_version;
  let actual := value_text <$> row in
  if bool_decide (actual = Some SCHEMA_VERSION) then mret ()
  else
    _ ← sr_lift (raise_if (negb (bool_decide (actual = Some "1"%string)) && negb (bool_decide (actual = Some "2"%string)))
                   ExcUnsupportedSchemaVersion
                   ("expected schema 1, 2 or " +:+ SCHEMA_VERSION +:+ ", found " +:+ text_or_none row));
    _ ← (if bool_decide (actual = Some "1"%string) then migrate_v1_to_v2 else mret ());
    migrate_v2_to_v3.

Definition repr_list (l : list string) : string := "[" +:+ join ", " (map repr l) +:+ "]".

(** [validate_schema] *)
Definition validate_schema : DbM () :=
  row ← read_version;
  _ ← sr_lift (raise_if (negb (bool_decide (row = Some (VText SCHEMA_VERSION)))) ExcUnsupportedSchemaVersion
                 ("expected schema " +:+ SCHEMA_VERSION +:+ ", found " +:+ text_or_none row));
  d ← db_read;
  let missing := filter (λ name, d !! name = None) required_tables in
  _ ← sr_lift (raise_if (negb (bool_decide (missing = []))) ExcUnsupportedSchemaVersion
                 ("schema " +:+ SCHEMA_VERSION +:+ " missing tables: " +:+ repr_list (merge_sort String.le missing)));
  t ← sr_lift (table_of d "stream_state");
  sr_lift (raise_if (negb (bool_decide (discovery_column ∈ td_columns (tb_def t)))) ExcUnsupportedSchemaVersion
             "schema 2 missing lower_bound_discovery_next_open_time_ms").

(** ** bootstrap.py *)

(** [_schema_exists] *)
Definition schema_exists : DbM bool := d ← db_read; mret (bool_decide (is_Some (d !! "schema_meta"%string))).

(** [initialize_database], over the disk it finds. *)
Definition initialize_connection : DbM () :=
  exists_ ← schema_exists;
  _ ← (if exists_ : bool then migrate_schema else create_schema);
  validate_schema.

Definition initialize_database (d : Database) : res () * Connection :=
  let r := initialize_connection (mkConnection d None [d]) in (r.1, db_rollback r.2).

(** ** What the versions look like *)

Section versions.
Open Scope string_scope.

(** schema_v1.sql *)
Definition stream_state_def_v1 : TableDef := mkTableDef stream_state_columns_v1 stream_state_constraints_v1.

Definition v1_tables : gmap string TableDef :=
  {[ "schema_meta" := schema_meta_def; "instruments" := instruments_def; "streams" := streams_def; "candles" := candles_def;
     "stream_state" := stream_state_def_v1; "quarantine" := quarantine_def ]}.
Definition v2_tables : gmap string TableDef := <["stream_state" := stream_state_def]> v1_tables.
Definition v3_tables : gmap string TableDef :=
  <["track_progress" := track_progress_def]> (<["open_interest" := open_interest_def]> v2_tables).

Definition tables_of (version : string) : option (gmap string TableDef) :=
  if bool_decide (version = "1") then Some v1_tables
  else if bool_decide (version = "2") then Some v2_tables
  else if bool_decide (version = "3") then Some v3_tables else None.
End versions.

(** Rows that were inserted in this order. *)
Fixpoint rows_consistent (d : Database) (def : TableDef) (others rows : list Row) : Prop :=
  match rows with
  | [] => True
  | r :: rows => row_ok d def others r = true ∧ (∀ c, is_Some (r !! c) → c ∈ td_columns def) ∧
                 rows_consistent d def (others ++ [r]) rows
  end.

(** A database that a release with the schema [version] made. *)
Record layout (version : string) (d : Database) : Prop := {
  ly_tables : Some (tb_def <$> d) = tables_of version;
  ly_version : version_value <$> d !! "schema_meta"%string = Some (Some (VText version));
  ly_rows : ∀ name t, d !! name = Some t → rows_consistent d (tb_def t) [] (tb_rows t)
}.

(** What the migrations make of a database. *)
Definition with_version (version : string) (d : Database) : Database :=
  alter (λ t, mkTable (tb_def t) (map (set_meta "schema_version" version) (tb_rows t))) "schema_meta"%string d.
Definition with_discovery (d : Database) : Database :=
  with_version "2" (alter (λ t, mkTable stream_state_def (tb_rows t)) "stream_state"%string d).
Definition with_tracks (d : Database) : Database :=
  with_version SCHEMA_VERSION
    (<["track_progress"%string := mkTable track_progress_def []]> (<["open_interest"%string := mkTable open_interest_def []]> d)).

(** A closed fact about the names of the schema. *)
Ltac by_decide := apply (bool_decide_eq_true_1 _); vm_compute; reflexivity.

(** ** Facts *)

Definition parents (def : TableDef) : list string :=
  omap (λ c, match c with References _ p => Some p | _ => None end) (td_constraints def).
Definition rows_of (d : Database) (name : string) : option (list Row) := tb_rows <$> d !! name.

Lemma row_ok_ext d d' def others r :
  (∀ p, p ∈ parents def → rows_of d p = rows_of d' p) → row_ok d def others r = row_ok d' def others r.
Proof.
  unfold row_ok, parents. generalize (td_constraints def) as cs. intros cs. induction cs as [|c cs IH]; intros Hp; [done|].
  cbn [forallb]. rewrite IH by (intros p Hin; apply Hp; cbn [omap list_omap]; destruct c; try done; by right). f_equal.
  destruct c as [| | | | | | |col parent]; try done. cbn [holds]. destruct (r !! col) as [v|]; [|done].
  specialize (Hp parent ltac:(by left)). unfold rows_of in Hp. destruct (d !! parent), (d' !! parent); try done. by injection Hp as ->.
Qed.

Lemma rows_consistent_ext d d' def others rows :
  (∀ p, p ∈ parents def → rows_of d p = rows_of d' p) → rows_consistent d def others rows → rows_consistent d' def others rows.
Proof.
  intros Hp. revert others. induction rows as [|r rows IH]; intros others; [done|]. intros (H1 & H2 & H3).
  split; [by rewrite <-(row_ok_ext d d')|]. split; [done|by apply IH].
Qed.

Lemma insert_rows_consistent name def d done_ rows :
  name ∉ parents def → rows_consistent d def done_ rows →
  insert_rows name rows (<[name := mkTable def done_]> d) = Ok (<[name := mkTable def (done_ ++ rows)]> d).
Proof.
  intros Hp. revert done_. induction rows as [|r rows IH]; intros done_; cbn [insert_rows]; [by rewrite app_nil_r|].
  intros (H1 & _ & H3). unfold table_of. rewrite lookup_insert_eq. cbn [mbind res_bind tb_def tb_rows].
  rewrite <-(row_ok_ext d). { rewrite H1, insert_insert_eq, IH by done. by rewrite <-app_assoc. }
  intros p Hin. unfold rows_of. rewrite lookup_insert_ne; [done|]. by intros ->.
Qed.

Lemma select_columns_all columns (r : Row) : (∀ c, is_Some (r !! c) → c ∈ columns) → select_columns columns r = r.
Proof.
  intros H. unfold select_columns. apply map_filter_id. intros c v Hc. apply H. by eexists.
Qed.

Lemma map_select_columns d def others rows :
  rows_consistent d def others rows → map (select_columns (td_columns def)) rows = rows.
Proof.
  revert others. induction rows as [|r rows IH]; intros others; [done|]. intros (_ & H & Hr). cbn [map].
  rewrite select_columns_all by done. by erewrite IH.
Qed.

(** The rows of the first version are rows of the second, with the new column NULL. *)
Lemma discovery_consistent d others rows :
  rows_consistent d stream_state_def_v1 others rows → rows_consistent d stream_state_def others rows.
Proof.
  revert others. induction rows as [|r rows IH]; intros others; [done|]. intros (H1 & H2 & H3).
  assert (Hnone : r !! discovery_column = None).
  { apply eq_None_not_Some. intros Hs. specialize (H2 _ Hs). revert H2.
    apply (bool_decide_eq_false_1 (discovery_column ∈ td_columns stream_state_def_v1)). by vm_compute. }
  split; [|split; [|by apply IH]].
  - unfold row_ok in *. cbn [td_constraints stream_state_def stream_state_def_v1] in *. rewrite forallb_app, H1. cbn [forallb holds].
    by rewrite Hnone, !(bool_decide_true (None = None)), orb_true_r.
  - intros c Hc. specialize (H2 c Hc). cbn [td_columns stream_state_def stream_state_def_v1] in *.
    assert (Hsub : ∀ x, x ∈ stream_state_columns_v1 → x ∈ td_columns stream_state_def); [|by apply Hsub].
    apply Forall_forall. by_decide.
Qed.

Lemma existsb_forallb_false {A} (f : A → bool) l : (∀ x, x ∈ l → f x = false) → existsb f l = false.
Proof.
  intros H. induction l as [|x l IH]; [done|]. cbn [existsb]. rewrite H by (by left). apply IH. intros y Hy. apply H. by right.
Qed.

Lemma alter_as_insert {A} (f : A → A) i x (m : gmap string A) : m !! i = Some x → alter f i m = <[i := f x]> m.
Proof. intros H. apply map_eq. intros j. destruct (decide (j = i)) as [->|]; by simplify_map_eq. Qed.

Lemma exec_update_meta version d :
  is_Some (d !! "schema_meta"%string) → exec (UpdateMeta "schema_version" version) d = Ok (with_version version d).
Proof.
  intros [t Ht]. cbn [exec]. unfold table_of. rewrite Ht. cbn [mbind res_bind mret res_ret]. unfold with_version.
  by rewrite (alter_as_insert _ _ t).
Qed.

Lemma exec_create name def d : d !! name = None → exec (CreateTable name def) d = Ok (<[name := mkTable def []]> d).
Proof. intros H. cbn [exec]. by rewrite H. Qed.

Lemma run_migrate_v2_to_v3 d h :
  is_Some (d !! "schema_meta"%string) → d !! "open_interest"%string = None → d !! "track_progress"%string = None →
  migrate_v2_to_v3 (mkConnection d None h) = (Ok (), mkConnection (with_tracks d) None (h ++ [with_tracks d])).
Proof.
  intros Hm Ho Ht. unfold migrate_v2_to_v3, or_rollback, begin_immediate, tracks_script, db_commit.
  cbn [execute_all]. unfold execute, mbind, StRes_bind, mret, StRes_ret. cbn [cn_tx cn_disk cn_durable].
  rewrite exec_create by done. cbn [cn_tx cn_disk cn_durable]. rewrite exec_create by (by rewrite lookup_insert_ne).
  cbn [cn_tx cn_disk cn_durable]. rewrite exec_update_meta by (by rewrite !lookup_insert_ne). done.
Qed.

(** No table refers to one that is no parent. *)
Lemma not_referenced d name :
  (∀ n t, d !! n = Some t → name ∉ parents (tb_def t)) → referenced d name = false.
Proof.
  intros H. unfold referenced. apply existsb_forallb_false. intros [n t] Hin%elem_of_map_to_list. cbn [fst snd].
  apply andb_false_iff. right. specialize (H n t Hin). apply existsb_forallb_false. intros c Hc. destruct c as [| | | | | | |col p]; try done.
  apply andb_false_iff. left. apply bool_decide_eq_false. intros ->. apply H. unfold parents. apply list_elem_of_omap. by exists (References col name).
Qed.

Lemma run_migrate_v1_to_v2 d h t :
  is_Some (d !! "schema_meta"%string) → d !! "stream_state"%string = Some t → d !! "stream_state_v2"%string = None →
  (∀ n t, d !! n = Some t → "stream_state"%string ∉ parents (tb_def t)) →
  tb_def t = stream_state_def_v1 → rows_consistent d stream_state_def_v1 [] (tb_rows t) →
  migrate_v1_to_v2 (mkConnection d None h) = (Ok (), mkConnection (with_discovery d) None (h ++ [with_discovery d])).
Proof.
  intros Hm Hs Hv Hp Hdef Hrows. unfold migrate_v1_to_v2, or_rollback, begin_immediate, db_commit.
  unfold execute, mbind, StRes_bind. cbn [cn_tx cn_disk cn_durable].
  rewrite exec_create by done. cbn [cn_tx cn_disk cn_durable].
  set (d1 := <["stream_state_v2"%string := mkTable stream_state_def []]> d).
  set (d2 := <["stream_state_v2"%string := mkTable stream_state_def (tb_rows t)]> d).
  assert (H1 : exec (InsertSelect "stream_state_v2" "stream_state" stream_state_columns_v1) d1 = Ok d2).
  { cbn [exec]. unfold table_of, d1. rewrite (lookup_insert_ne d "stream_state_v2"%string "stream_state"%string), Hs, lookup_insert_eq by done. cbn [mbind res_bind].
    pose proof (map_select_columns d _ [] _ Hrows) as Hsel. cbn [td_columns stream_state_def_v1] in Hsel. rewrite Hsel.
    rewrite insert_rows_consistent; [done|by_decide|].
    by apply discovery_consistent. }
  rewrite H1. cbn [cn_tx cn_disk cn_durable].
  assert (H2 : exec (DropTable "stream_state") d2 = Ok (delete "stream_state"%string d2)).
  { cbn [exec]. unfold table_of, d2. rewrite lookup_insert_ne, Hs by done. cbn [mbind res_bind].
    rewrite not_referenced; [done|]. intros n t' [[<- <-]|[_ Hn]]%lookup_insert_Some; [|by eapply Hp].
    cbn [tb_def]. by_decide. }
  rewrite H2. cbn [cn_tx cn_disk cn_durable].
  set (d3 := <["stream_state"%string := mkTable stream_state_def (tb_rows t)]> d).
  assert (H3 : exec (RenameTable "stream_state_v2" "stream_state") (delete "stream_state"%string d2) = Ok d3).
  { cbn [exec]. unfold table_of, d2. rewrite (lookup_delete_ne _ "stream_state"%string "stream_state_v2"%string), lookup_insert_eq by done. cbn [mbind res_bind].
    rewrite lookup_delete_eq. cbn [mret res_ret]. f_equal. apply map_eq. intros n. unfold d3.
    destruct (decide (n = "stream_state"%string)) as [->|]; [by rewrite !lookup_insert_eq|].
    rewrite !(lookup_insert_ne _ "stream_state"%string n) by done. destruct (decide (n = "stream_state_v2"%string)) as [->|];
      [by rewrite lookup_delete_eq|by rewrite !lookup_delete_ne, lookup_insert_ne by done]. }
  rewrite H3. cbn [cn_tx cn_disk cn_durable].
  rewrite exec_update_meta by (unfold d3; by rewrite lookup_insert_ne).
  assert (H4 : with_version "2" d3 = with_discovery d).
  { unfold with_discovery, d3. by rewrite (alter_as_insert _ _ t). }
  by rewrite H4.
Qed.

(** ** The migrations keep databases consistent *)

Definition consistent (d : Database) : Prop := ∀ name t, d !! name = Some t → rows_consistent d (tb_def t) [] (tb_rows t).
Definition parent_tables : list string := ["instruments"; "streams"]%string.
Definition grounded (tables : gmap string TableDef) : Prop :=
  map_Forall (λ _ def, Forall (λ p, p ∈ parent_tables) (parents def)) tables.

Lemma tables_of_grounded version tables : tables_of version = Some tables → grounded tables.
Proof.
  unfold tables_of. repeat case_bool_decide; intros [= <-]; by_decide.
Qed.

Lemma grounded_lookup d name t p :
  grounded (tb_def <$> d) → d !! name = Some t → p ∈ parents (tb_def t) → p ∈ parent_tables.
Proof.
  intros Hg Ht. pose proof (Hg name (tb_def t)) as H. rewrite lookup_fmap, Ht in H. specialize (H eq_refl).
  rewrite Forall_forall in H. apply H.
Qed.

(** A change that keeps the rows of the parents. *)
Lemma consistent_change d d' :
  consistent d → grounded (tb_def <$> d) → (∀ p, p ∈ parent_tables → rows_of d p = rows_of d' p) →
  (∀ name t', d' !! name = Some t' → d !! name = Some t' ∨ rows_consistent d (tb_def t') [] (tb_rows t') ∧
     ∀ p, p ∈ parents (tb_def t') → p ∈ parent_tables) →
  consistent d'.
Proof.
  intros Hc Hg Hp Hnew name t' Ht'. destruct (Hnew name t' Ht') as [Ht|[Hr Hpar]].
  - apply (rows_consistent_ext d); [|by eapply Hc]. intros p Hin. by apply Hp, (grounded_lookup d name t').
  - apply (rows_consistent_ext d); [|done]. intros p Hin. by apply Hp, Hpar.
Qed.

Lemma set_meta_key key version r : set_meta key version r !! "key"%string = r !! "key"%string.
Proof. unfold set_meta. case_bool_decide; [by rewrite lookup_insert_ne|done]. Qed.

Lemma set_meta_cases key version r :
  set_meta key version r = r ∨ set_meta key version r = <["value"%string := VText version]> r.
Proof. unfold set_meta. case_bool_decide; auto. Qed.

Lemma set_meta_consistent d key version others rows :
  rows_consistent d schema_meta_def others rows →
  rows_consistent d schema_meta_def (map (set_meta key version) others) (map (set_meta key version) rows).
Proof.
  revert others. induction rows as [|r rows IH]; intros others; [done|]. intros (H1 & H2 & H3). cbn [map]. split; [|split].
  - unfold row_ok in *. cbn [td_constraints schema_meta_def forallb holds key_of map] in *. rewrite set_meta_key.
    apply andb_true_iff in H1 as [Hu Hn]. rewrite andb_true_r in Hn |- *. apply andb_true_iff. split.
    + assert (He : existsb (λ o : Row, bool_decide ([o !! "key"%string] = [r !! "key"%string])) (map (set_meta key version) others) =
                   existsb (λ o : Row, bool_decide ([o !! "key"%string] = [r !! "key"%string])) others).
      { clear. induction others as [|o l IH]; [done|]. cbn [map existsb]. rewrite IH. by rewrite set_meta_key. }
      by rewrite He.
    + apply bool_decide_eq_true in Hn. apply bool_decide_eq_true. destruct (set_meta_cases key version r) as [-> | ->]; [done|].
      rewrite lookup_insert_eq. by eexists.
  - intros c. destruct (set_meta_cases key version r) as [-> | ->]; [apply H2|]. destruct (decide (c = "value"%string)) as [->|Hne].
    + intros _. cbn. set_solver.
    + rewrite lookup_insert_ne by done. apply H2.
  - specialize (IH _ H3). by rewrite map_app in IH.
Qed.

Lemma rows_of_with_version version d p : p ∈ parent_tables → rows_of (with_version version d) p = rows_of d p.
Proof.
  intros Hp. unfold rows_of, with_version. rewrite lookup_alter_ne; [done|]. intros <-. revert Hp.
  apply (bool_decide_eq_false_1 ("schema_meta"%string ∈ parent_tables)). by vm_compute.
Qed.

Lemma with_version_consistent version d :
  consistent d → grounded (tb_def <$> d) → (∀ t, d !! "schema_meta"%string = Some t → tb_def t = schema_meta_def) →
  consistent (with_version version d).
Proof.
  intros Hc Hg Hm. apply (consistent_change d); [done|done|intros p Hp; by rewrite rows_of_with_version|].
  intros name t'. unfold with_version. destruct (decide (name = "schema_meta"%string)) as [->|Hne].
  - rewrite lookup_alter_eq. intros (t & Ht & ->)%fmap_Some. right. cbn [tb_def tb_rows]. pose proof (Hc _ _ Ht) as Hr.
    rewrite (Hm t Ht) in *. split; [by apply (set_meta_consistent d _ _ [])|]. by intros p ?%elem_of_nil.
  - rewrite lookup_alter_ne by done. auto.
Qed.

Lemma fmap_with_version version d : tb_def <$> with_version version d = tb_def <$> d.
Proof.
  apply map_eq. intros n. rewrite !lookup_fmap. unfold with_version. destruct (decide (n = "schema_meta"%string)) as [->|].
  - rewrite lookup_alter_eq. by destruct (d !! _).
  - by rewrite lookup_alter_ne.
Qed.

Lemma version_with_version version d v :
  version_value <$> d !! "schema_meta"%string = Some (Some v) →
  version_value <$> with_version version d !! "schema_meta"%string = Some (Some (VText version)).
Proof.
  unfold with_version. rewrite lookup_alter_eq. destruct (d !! _) as [t|]; [|done]. cbn [fmap option_fmap option_map].
  intros [= H]. do 2 f_equal. unfold version_value, version_rows in *. cbn [tb_rows]. revert H.
  induction (tb_rows t) as [|r l IH]; [done|]. cbn [map]. rewrite !filter_cons, set_meta_key.
  destruct (decide (r !! "key"%string = Some (VText "schema_version"))) as [Hk|]; [|apply IH]. intros _.
  unfold set_meta. by rewrite bool_decide_true, lookup_insert_eq.
Qed.

Lemma layout_def version d name def :
  layout version d → (tables_of version ≫= λ tables, tables !! name) = Some def →
  ∃ rows, d !! name = Some (mkTable def rows).
Proof.
  intros [Ht _ _]. rewrite <-Ht. cbn. rewrite lookup_fmap. destruct (d !! name) as [[def' rows]|]; [|done].
  intros [= ->]. by exists rows.
Qed.

Lemma layout_absent version d name :
  layout version d → (tables_of version ≫= λ tables, tables !! name) = None → d !! name = None.
Proof. intros [Ht _ _]. rewrite <-Ht. cbn. rewrite lookup_fmap. by destruct (d !! name). Qed.

Lemma layout_grounded version d : layout version d → grounded (tb_def <$> d).
Proof. intros [Ht _ _]. by eapply tables_of_grounded. Qed.

Lemma layout_meta version d t : layout version d → d !! "schema_meta"%string = Some t → tb_def t = schema_meta_def.
Proof.
  intros [Ht _ _] Hm. assert (H : (tb_def <$> d) !! "schema_meta"%string = Some schema_meta_def).
  { unfold tables_of in Ht. repeat case_bool_decide; try done; injection Ht as ->; by vm_compute. }
  rewrite lookup_fmap, Hm in H. by injection H.
Qed.

Lemma layout_with_tracks d : layout "2" d → layout "3" (with_tracks d).
Proof.
  intros Hl. pose proof (layout_grounded _ _ Hl) as Hg. pose proof Hl as [Ht Hv Hr].
  set (d1 := <["open_interest"%string := mkTable open_interest_def []]> d).
  set (d2 := <["track_progress"%string := mkTable track_progress_def []]> d1).
  assert (H1 : tb_def <$> d2 = v3_tables).
  { unfold d2, d1. rewrite !fmap_insert. injection Ht as ->. done. }
  assert (Hc : consistent d2).
  { apply (consistent_change d); [exact Hr|done| |].
    - intros p Hp. unfold rows_of, d2, d1. rewrite !lookup_insert_ne; [done|..]; intros <-; revert Hp.
      + apply (bool_decide_eq_false_1 ("open_interest"%string ∈ parent_tables)). by vm_compute.
      + apply (bool_decide_eq_false_1 ("track_progress"%string ∈ parent_tables)). by vm_compute.
    - intros name t'. unfold d2, d1. intros [[_ <-]|[_ [[_ <-]|[_ H]]%lookup_insert_Some]]%lookup_insert_Some; [right..|by left];
        (split; [done|]); apply Forall_forall; by_decide. }
  split.
  - unfold with_tracks. fold d1. fold d2. by rewrite fmap_with_version, H1.
  - unfold with_tracks. eapply version_with_version. rewrite !lookup_insert_ne by done. exact Hv.
  - unfold with_tracks. fold d1. fold d2. apply with_version_consistent; [done|by rewrite H1; apply (tables_of_grounded "3")|].
    unfold d2, d1. rewrite !lookup_insert_ne by done. intros t. by apply (layout_meta "2").
Qed.

Lemma layout_with_discovery d : layout "1" d → layout "2" (with_discovery d).
Proof.
  intros Hl. pose proof (layout_grounded _ _ Hl) as Hg. pose proof Hl as [Ht Hv Hr].
  destruct (layout_def "1" d "stream_state" stream_state_def_v1 Hl) as [rows Hs]; [by vm_compute|].
  set (d1 := <["stream_state"%string := mkTable stream_state_def rows]> d).
  assert (Hd : alter (λ t, mkTable stream_state_def (tb_rows t)) "stream_state"%string d = d1).
  { unfold d1. by rewrite (alter_as_insert _ _ _ _ Hs). }
  assert (H1 : tb_def <$> d1 = v2_tables).
  { unfold d1. rewrite fmap_insert. injection Ht as ->. done. }
  assert (Hc : consistent d1).
  { apply (consistent_change d); [exact Hr|done| |].
    - intros p Hp. unfold rows_of, d1. rewrite lookup_insert_ne; [done|]. intros <-. revert Hp.
      apply (bool_decide_eq_false_1 ("stream_state"%string ∈ parent_tables)). by vm_compute.
    - intros name t'. unfold d1. intros [[_ <-]|[_ H]]%lookup_insert_Some; [right|by left]. cbn [tb_def tb_rows].
      split; [by apply discovery_consistent, (Hr _ _ Hs)|]. apply Forall_forall. by_decide. }
  unfold with_discovery. rewrite Hd. split.
  - by rewrite fmap_with_version, H1.
  - eapply version_with_version. unfold d1. rewrite lookup_insert_ne by done. exact Hv.
  - apply with_version_consistent; [done|by rewrite H1; apply (tables_of_grounded "2")|].
    unfold d1. rewrite lookup_insert_ne by done. intros t. by apply (layout_meta "1").
Qed.

(** ** [initialize_database] *)

Lemma run_read_version d h v :
  version_value <$> d !! "schema_meta"%string = Some v → read_version (mkConnection d None h) = (Ok v, mkConnection d None h).
Proof.
  intros H. unfold read_version, mbind, StRes_bind, db_read, sr_lift. cbn [cn_tx cn_disk default]. unfold table_of.
  destruct (d !! "schema_meta"%string) as [t|]; [|done]. cbn [fmap option_fmap option_map] in H. by injection H as <-.
Qed.

Lemma validate_layout d h : layout "3" d → validate_schema (mkConnection d None h) = (Ok (), mkConnection d None h).
Proof.
  intros Hl. pose proof Hl as [_ Hv _]. unfold validate_schema, mbind, StRes_bind. rewrite (run_read_version _ _ _ Hv).
  rewrite (bool_decide_true (Some (VText "3") = Some (VText SCHEMA_VERSION))) by done. cbn [negb raise_if].
  unfold sr_lift at 1, db_read. cbn [cn_tx cn_disk default mret res_ret].
  assert (Hm : filter (λ name, d !! name = None) required_tables = []).
  { assert (Hall : Forall (λ name, is_Some (v3_tables !! name)) required_tables) by by_decide.
    induction Hall as [|name l [def Hdef] _ IH]; [done|]. rewrite filter_cons_False; [done|].
    destruct (layout_def "3" d name def Hl) as [rows ->]; [exact Hdef|done]. }
  rewrite Hm. cbn [negb raise_if]. rewrite (bool_decide_true ([] = @nil string)) by done. cbn [negb raise_if].
  unfold sr_lift at 1. cbn [mret res_ret]. destruct (layout_def "3" d "stream_state" stream_state_def Hl) as [rows Hs]; [by vm_compute|].
  unfold sr_lift, table_of. rewrite Hs. cbn [mret res_ret tb_def].
  rewrite bool_decide_true by by_decide. done.
Qed.

Lemma schema_exists_layout version d h :
  layout version d → schema_exists (mkConnection d None h) = (Ok true, mkConnection d None h).
Proof.
  intros [_ Hv _]. unfold schema_exists, mbind, StRes_bind, db_read. cbn [cn_tx cn_disk default].
  rewrite bool_decide_true; [done|]. destruct (d !! _); [by eexists|done].
Qed.

Lemma layout_meta_some version d : layout version d → is_Some (d !! "schema_meta"%string).
Proof. intros [_ Hv _]. destruct (d !! _); [by eexists|done]. Qed.

Lemma initialize_v3 d : layout "3" d → initialize_database d = (Ok (), mkConnection d None [d]).
Proof.
  intros Hl. pose proof Hl as [_ Hv _]. unfold initialize_database, initialize_connection, mbind, StRes_bind.
  rewrite (schema_exists_layout _ _ _ Hl). unfold migrate_schema, mbind, StRes_bind. rewrite (run_read_version _ _ _ Hv).
  cbn [fmap option_fmap option_map value_text]. rewrite bool_decide_true by done. unfold mret, StRes_ret. rewrite (validate_layout _ _ Hl). done.
Qed.

Lemma migrate_layout_2 d h :
  layout "2" d → migrate_v2_to_v3 (mkConnection d None h) = (Ok (), mkConnection (with_tracks d) None (h ++ [with_tracks d])).
Proof.
  intros Hl. apply run_migrate_v2_to_v3; [by apply (layout_meta_some "2")|..]; apply (layout_absent "2" d); try done; by vm_compute.
Qed.

Lemma initialize_v2 d :
  layout "2" d → initialize_database d = (Ok (), mkConnection (with_tracks d) None [d; with_tracks d]).
Proof.
  intros Hl. pose proof Hl as [_ Hv _]. unfold initialize_database, initialize_connection, mbind, StRes_bind.
  rewrite (schema_exists_layout _ _ _ Hl). unfold migrate_schema, mbind, StRes_bind. rewrite (run_read_version _ _ _ Hv).
  cbn [fmap option_fmap option_map value_text]. rewrite (bool_decide_false (Some "2"%string = Some SCHEMA_VERSION)) by done.
  rewrite (bool_decide_false (Some "2"%string = Some "1"%string)) by done.
  rewrite (bool_decide_true (Some "2"%string = Some "2"%string)) by done. cbn [negb andb raise_if]. unfold sr_lift, mret, res_ret, StRes_ret.
  rewrite (migrate_layout_2 _ _ Hl), (validate_layout _ _ (layout_with_tracks _ Hl)). done.
Qed.

Lemma initialize_v1 d :
  layout "1" d → initialize_database d =
    (Ok (), mkConnection (with_tracks (with_discovery d)) None [d; with_discovery d; with_tracks (with_discovery d)]).
Proof.
  intros Hl. pose proof (layout_with_discovery d Hl) as Hl2. pose proof Hl as [_ Hv Hr].
  unfold initialize_database, initialize_connection, mbind, StRes_bind.
  rewrite (schema_exists_layout _ _ _ Hl). unfold migrate_schema, mbind, StRes_bind. rewrite (run_read_version _ _ _ Hv).
  cbn [fmap option_fmap option_map value_text]. rewrite (bool_decide_false (Some "1"%string = Some SCHEMA_VERSION)) by done.
  rewrite (bool_decide_false (Some "1"%string = Some "2"%string)) by done.
  rewrite (bool_decide_true (Some "1"%string = Some "1"%string)) by done. cbn [negb andb raise_if]. unfold sr_lift, mret, res_ret, StRes_ret.
  destruct (layout_def "1" d "stream_state" stream_state_def_v1 Hl) as [rows Hs]; [by vm_compute|].
  rewrite (run_migrate_v1_to_v2 d [d] (mkTable stream_state_def_v1 rows)); try done.
  - rewrite (migrate_layout_2 _ _ Hl2), (validate_layout _ _ (layout_with_tracks _ Hl2)). done.
  - by apply (layout_meta_some "1").
  - apply (layout_absent "1" d); [done|by vm_compute].
  - intros n t Ht Hin. apply (grounded_lookup d n t _ (layout_grounded _ _ Hl) Ht) in Hin. revert Hin.
    apply (bool_decide_eq_false_1 ("stream_state"%string ∈ parent_tables)). by vm_compute.
  - exact (Hr _ _ Hs).
Qed.

Lemma rows_with_version version d name :
  name ≠ "schema_meta"%string → rows_of (with_version version d) name = rows_of d name.
Proof. intros H. unfold rows_of, with_version. by rewrite lookup_alter_ne. Qed.

Lemma rows_with_tracks d name t :
  layout "2" d → d !! name = Some t → name ≠ "schema_meta"%string → rows_of (with_tracks d) name = Some (tb_rows t).
Proof.
  intros Hl Ht Hne. unfold with_tracks. rewrite rows_with_version by done. unfold rows_of.
  rewrite !lookup_insert_ne; [by rewrite Ht|..]; intros <-.
  - rewrite (layout_absent "2" d) in Ht; [done|done|by vm_compute].
  - rewrite (layout_absent "2" d) in Ht; [done|done|by vm_compute].
Qed.

Lemma rows_with_discovery d name :
  name ≠ "schema_meta"%string → rows_of (with_discovery d) name = rows_of d name.
Proof.
  intros Hne. unfold with_discovery. rewrite rows_with_version by done. unfold rows_of.
  destruct (decide (name = "stream_state"%string)) as [->|]; [|by rewrite lookup_alter_ne].
  rewrite lookup_alter_eq. by destruct (d !! _).
Qed.

(** The tables of a fresh database, before the tracks. *)
Definition fresh_v2 : Database :=
  <["quarantine" := mkTable quarantine_def []]> (<["stream_state" := mkTable stream_state_def []]>
  (<["candles" := mkTable candles_def []]> (<["streams" := mkTable streams_def []]>
  (<["instruments" := mkTable instruments_def []]> {[ "schema_meta" := mkTable schema_meta_def [meta_row "2"] ]}))))%string.

Lemma layout_fresh : layout "2" fresh_v2.
Proof.
  split; [by_decide|by_decide|].
  intros name t. unfold fresh_v2. repeat (intros [[<- <-]|[_ H]]%lookup_insert_Some; [exact I|revert H]).
  intros [<- <-]%lookup_singleton_Some. split; [by vm_compute|]. split; [|exact I]. intros c [v Hc]. unfold meta_row in Hc.
  apply lookup_insert_Some in Hc as [[<- _]|[_ [<- _]%lookup_singleton_Some]]; by_decide.
Qed.

(** The states the disk goes through while the schema is created. *)
Definition creation_states : list Database := cn_durable (initialize_database ∅).2.

Lemma initialize_fresh :
  (initialize_database ∅).1 = Ok () ∧ cn_disk (initialize_database ∅).2 = with_tracks fresh_v2.
Proof. split; [vm_compute; reflexivity|by_decide]. Qed.

(** ** Properties *)

(** C14. A database that any release made is brought to the current schema and validates; the rows of its
    tables stay what they were, except the version.  Wherever the process dies on the way, what is
    on disk then is brought to the same database by the next start.  A database with another version
    is refused and not touched; a new one gets the current schema. *)
Theorem initialize_database_migrates (d : Database) :
  let r := initialize_database d in
  (∀ version, layout version d →
     r.1 = Ok () ∧ layout "3" (cn_disk r.2) ∧
     (∀ name t, d !! name = Some t → name ≠ "schema_meta"%string → rows_of (cn_disk r.2) name = Some (tb_rows t)) ∧
     ∀ d', d' ∈ cn_durable r.2 →
       (initialize_database d').1 = Ok () ∧ cn_disk (initialize_database d').2 = cn_disk r.2) ∧
  (∀ v, version_value <$> d !! "schema_meta"%string = Some v → value_text <$> v ∉ [Some "1"; Some "2"; Some "3"]%string →
     (∃ what, r.1 = Raise (Exn ExcUnsupportedSchemaVersion what)) ∧ cn_disk r.2 = d ∧ cn_durable r.2 = [d]) ∧
  (d = ∅ → r.1 = Ok () ∧ layout "3" (cn_disk r.2)).
Proof.
  cbv zeta. split; [|split; [|intros ->; destruct initialize_fresh as [H1 H2]; rewrite H2; split;
                                 [exact H1|apply layout_with_tracks, layout_fresh]]].
  - intros version Hl. assert (Hv : version = "1"%string ∨ version = "2"%string ∨ version = "3"%string).
    { destruct Hl as [Ht _ _]. unfold tables_of in Ht. repeat case_bool_decide; try done; auto. }
    destruct Hv as [-> | [-> | ->]].
    + pose proof (layout_with_discovery d Hl) as Hl2. pose proof (layout_with_tracks _ Hl2) as Hl3.
      rewrite (initialize_v1 d Hl). cbn [fst snd cn_disk cn_durable]. split; [done|]. split; [done|]. split.
      * intros name t Ht Hne. pose proof (rows_with_discovery d name Hne) as Hd. unfold rows_of in Hd at 1 2.
        rewrite Ht in Hd. destruct (with_discovery d !! name) as [t'|] eqn:Ht'; [|done]. injection Hd as <-.
        by apply (rows_with_tracks (with_discovery d)).
      * intros d' [->|[->|[->|[]%elem_of_nil]%elem_of_cons]%elem_of_cons]%elem_of_cons.
        -- by rewrite (initialize_v1 d Hl).
        -- by rewrite (initialize_v2 _ Hl2).
        -- by rewrite (initialize_v3 _ Hl3).
    + pose proof (layout_with_tracks _ Hl) as Hl3. rewrite (initialize_v2 d Hl). cbn [fst snd cn_disk cn_durable].
      split; [done|]. split; [done|]. split; [intros name t; by apply rows_with_tracks|].
      intros d' [->|[->|[]%elem_of_nil]%elem_of_cons]%elem_of_cons; [by rewrite (initialize_v2 d Hl)|by rewrite (initialize_v3 _ Hl3)].
    + rewrite (initialize_v3 d Hl). cbn [fst snd cn_disk cn_durable]. split; [done|]. split; [done|].
      split; [intros name t Ht _; unfold rows_of; by rewrite Ht|]. intros d' ->%list_elem_of_singleton. by rewrite (initialize_v3 d Hl).
  - intros v Hv Hn. unfold initialize_database, initialize_connection, mbind, StRes_bind.
    assert (Hex : schema_exists (mkConnection d None [d]) = (Ok true, mkConnection d None [d])).
    { unfold schema_exists, mbind, StRes_bind, db_read. cbn [cn_tx cn_disk default]. rewrite bool_decide_true; [done|].
      destruct (d !! _); [by eexists|done]. }
    rewrite Hex. unfold migrate_schema, mbind, StRes_bind. rewrite (run_read_version _ _ _ Hv). cbv zeta.
    rewrite (bool_decide_false (value_text <$> v = Some SCHEMA_VERSION)) by (intros Heq; apply Hn; rewrite Heq; set_solver).
    rewrite (bool_decide_false (value_text <$> v = Some "1"%string)) by (intros Heq; apply Hn; rewrite Heq; set_solver).
    rewrite (bool_decide_false (value_text <$> v = Some "2"%string)) by (intros Heq; apply Hn; rewrite Heq; set_solver).
    cbn [negb andb raise_if]. unfold sr_lift. cbn. split; [by eexists|done].
Qed.

(** ** Examples *)

Definition example_v1 : Database :=
  <["stream_state" := mkTable stream_state_def_v1
      [ {[ "stream_id" := VInt 1; "state" := VText "ready"; "earliest_available_open_time_ms" := VInt 0;
           "state_changed_at_ms" := VInt 5; "updated_at_ms" := VInt 5 ]} ]]>
  (<["streams" := mkTable streams_def
      [ {[ "id" := VInt 1; "instrument_id" := VInt 7; "timeframe" := VText "1m"; "created_at_ms" := VInt 5 ]} ]]>
  (<["instruments" := mkTable instruments_def
      [ {[ "id" := VInt 7; "ticker" := VText "BTCUSDT.P"; "exchange_symbol" := VText "BTCUSDT"; "created_at_ms" := VInt 5;
           "updated_at_ms" := VInt 5 ]} ]]>
  (<["schema_meta" := mkTable schema_meta_def [meta_row "1"]]> fresh_v2)))%string.

(** One row is consistent by computation. *)
Lemma one_row_consistent d def r :
  row_ok d def [] r = true → Forall (λ cv, cv.1 ∈ td_columns def) (map_to_list r) → rows_consistent d def [] [r].
Proof.
  intros Hr Hc. split; [done|]. split; [|exact I]. intros c [v Hv]. rewrite Forall_forall in Hc. apply (Hc (c, v)).
  by apply elem_of_map_to_list.
Qed.

Lemma example_v1_layout : layout "1" example_v1.
Proof.
  split; [by_decide|by_decide|].
  intros name t. unfold example_v1, fresh_v2.
  repeat (intros [[<- <-]|[_ H]]%lookup_insert_Some;
            [first [exact I|apply one_row_consistent; [by vm_compute|by_decide]]|revert H]).
  intros [<- <-]%lookup_singleton_Some. apply one_row_consistent; [by vm_compute|by_decide].
Qed.

Lemma initialize_database_migrates_witness :
  length (cn_durable (initialize_database example_v1).2) = 3%nat ∧
  (initialize_database example_v1).1 = Ok () ∧ layout "3" (cn_disk (initialize_database example_v1).2) ∧
  ∀ d', d' ∈ cn_durable (initialize_database example_v1).2 →
    cn_disk (initialize_database d').2 = cn_disk (initialize_database example_v1).2.
Proof.
  split; [by vm_compute|].
  destruct (initialize_database_migrates example_v1) as [H _].
  destruct (H "1"%string example_v1_layout) as (H1 & H2 & _ & H4). split; [done|]. split; [done|].
  intros d' Hd. by apply H4.
Defined.

Definition starts (d : Database) : bool := match (initialize_database d).1 with Ok _ => true | Raise _ => false end.

(** The statements of the script that creates the schema are not one transaction: a process that dies
    among them leaves a database that no later start accepts. *)
Example creation_not_restartable :
  map (λ d, starts d) creation_states =
    [true; false; false; false; false; false; false; true; true; true] ∧
  map (λ d, starts (cn_disk (initialize_database d).2)) creation_states =
    [true; false; false; false; false; false; false; true; true; true].
Proof. split; vm_compute; reflexivity. Qed.
