(* ===== verification/Provenance.v ===== *)
(** * The identity of a candle range (application/consumer_read/provenance.py)

    The canonical JSON text that is hashed, character by character, and that it
    determines the range it describes.  SHA-256 (hashlib) is a parameter. *)

From S2P Require Import Prelude PyStr DecimalValues Timeframes Identity Candles.

(** ** json.dumps(..., sort_keys=True, separators=(",", ":"), ensure_ascii=False) *)

(** The escape of one character of a string. *)
Definition json_char (c : Ascii.ascii) : list Ascii.ascii :=
  let n := code c in
  if n =? 34 then [backslash; dquote]
  else if n =? 92 then [backslash; backslash]
  else if n =? 8 then chars "\b"
  else if n =? 9 then chars "\t"
  else if n =? 10 then chars "\n"
  else if n =? 12 then chars "\f"
  else if n =? 13 then chars "\r"
  else if n <? 32 then chars "\u00" ++ [hex_char (n / 16); hex_char (n mod 16)]
  else [c].

Definition json_chars (l : list Ascii.ascii) : list Ascii.ascii := flat_map json_char l.
Definition json_string (s : string) : list Ascii.ascii := dquote :: json_chars (chars s) ++ [dquote].
Definition json_int (z : Z) : list Ascii.ascii := chars (str_of_Z z).

(** A member of an object. *)
Definition json_member (name : string) (value : list Ascii.ascii) : list Ascii.ascii :=
  json_string name ++ chr 58 :: value.

Fixpoint json_list (l : list (list Ascii.ascii)) : list Ascii.ascii :=
  match l with
  | [] => []
  | [x] => x
  | x :: l => x ++ chr 44 :: json_list l
  end.
Definition json_object (members : list (list Ascii.ascii)) : list Ascii.ascii :=
  chr 123 :: json_list members ++ [chr 125].
Definition json_array (items : list (list Ascii.ascii)) : list Ascii.ascii :=
  chr 91 :: json_list items ++ [chr 93].

(** [_candle_document], its keys in sorted order *)
Definition candle_document (c : CanonicalCandle) : list Ascii.ascii :=
  let v := cc_values c in
  json_object [
    json_member "close" (json_string (dec_text (o_close v)));
    json_member "high" (json_string (dec_text (o_high v)));
    json_member "low" (json_string (dec_text (o_low v)));
    json_member "open" (json_string (dec_text (o_open v)));
    json_member "open_time_ms" (json_int (cc_open_time_ms c));
    json_member "volume" (json_string (dec_text (o_volume v)))].

(** The text [canonical_market_data_hash] hashes. *)
Definition market_data_payload (k : StreamKey) (from_ms to_ms : Z) (candles : list CanonicalCandle) :
    string :=
  text (json_object [
    json_member "candles" (json_array (map candle_document candles));
    json_member "from_ms" (json_int from_ms);
    json_member "ticker" (json_string (ticker (instrument k)));
    json_member "timeframe" (json_string (tf_id (timeframe k)));
    json_member "to_ms" (json_int to_ms)]).

Definition canonical_market_data_hash (sha256_hex : string → string) (k : StreamKey)
    (from_ms to_ms : Z) (candles : list CanonicalCandle) : string :=
  sha256_hex (market_data_payload k from_ms to_ms candles).

(** ** Reading the text back *)

(** The first character of an escaped string, and the rest. *)
Definition hex_value (c : Ascii.ascii) : Z := if is_digit c then code c - 48 else code c - 87.
Definition json_uncons (l : list Ascii.ascii) : option (Ascii.ascii * list Ascii.ascii) :=
  match l with
  | [] => None
  | c :: l =>
      if code c =? 34 then None
      else if negb (code c =? 92) then Some (c, l)
      else match l with
           | [] => None
           | e :: l =>
               let n := code e in
               if n =? 98 then Some (chr 8, l)
               else if n =? 116 then Some (chr 9, l)
               else if n =? 110 then Some (chr 10, l)
               else if n =? 102 then Some (chr 12, l)
               else if n =? 114 then Some (chr 13, l)
               else if n =? 117 then
                 match l with
                 | _ :: _ :: a :: b :: l => Some (chr (16 * hex_value a + hex_value b), l)
                 | _ => None
                 end
               else Some (e, l)
           end
  end.

Lemma json_uncons_char c r : json_uncons (json_char c ++ r) = Some (c, r).
Proof.
  by destruct c as [[] [] [] [] [] [] [] []].
Qed.

Lemma json_chars_inj l1 l2 r1 r2 :
  json_chars l1 ++ dquote :: r1 = json_chars l2 ++ dquote :: r2 → l1 = l2 ∧ r1 = r2.
Proof.
  unfold json_chars. revert l2. induction l1 as [|c1 l1 IH]; intros [|c2 l2] H; cbn [flat_map app] in H.
  - by injection H.
  - exfalso. apply (f_equal json_uncons) in H. rewrite <- app_assoc, json_uncons_char in H. done.
  - exfalso. apply (f_equal json_uncons) in H. rewrite <- app_assoc, json_uncons_char in H. done.
  - rewrite <- !app_assoc in H. apply (f_equal json_uncons) in H. rewrite !json_uncons_char in H.
    injection H as -> H. by apply IH in H as [-> ->].
Qed.

Lemma json_string_inj s1 s2 r1 r2 : json_string s1 ++ r1 = json_string s2 ++ r2 → s1 = s2 ∧ r1 = r2.
Proof.
  unfold json_string. cbn [app]. rewrite <- !app_assoc. intros [= H]. apply json_chars_inj in H as [H ->].
  split; [|done]. rewrite <- (text_chars s1), <- (text_chars s2). by rewrite H.
Qed.

(** Integers end at the first character that is not of an integer. *)
Definition int_char (c : Ascii.ascii) : bool := is_digit c || Ascii.eqb c minus.

Lemma json_int_chars z : Forall (λ c, int_char c = true) (json_int z).
Proof.
  assert (HN : ∀ n : N, Forall (λ c, int_char c = true) (chars (pretty n))).
  { intros n. eapply Forall_impl; [apply (pretty_digits n)|]. unfold int_char. by intros c ->. }
  unfold json_int, str_of_Z. destruct z as [|p|p]; [by repeat constructor|apply HN|].
  constructor; [done|]. apply HN.
Qed.

Lemma Forall_prefix_split {A} (P : A → Prop) l1 l2 x1 x2 r1 r2 :
  Forall P l1 → Forall P l2 → ¬ P x1 → ¬ P x2 → l1 ++ x1 :: r1 = l2 ++ x2 :: r2 →
  l1 = l2 ∧ x1 :: r1 = x2 :: r2.
Proof.
  intros H1. revert l2. induction H1 as [|y l1 Hy H1 IH]; intros l2 H2 Hx1 Hx2 H; destruct H2 as [|z l2 Hz H2].
  - done.
  - injection H as <- _. done.
  - injection H as -> _. done.
  - injection H as -> H. by destruct (IH l2 H2 Hx1 Hx2 H) as [-> ?].
Qed.

Lemma json_int_inj z1 z2 x1 x2 r1 r2 :
  int_char x1 = false → int_char x2 = false →
  json_int z1 ++ x1 :: r1 = json_int z2 ++ x2 :: r2 → z1 = z2 ∧ x1 :: r1 = x2 :: r2.
Proof.
  intros Hx1 Hx2 H. apply Forall_prefix_split with (P := λ c, int_char c = true) in H as [H ->];
    [|apply json_int_chars|apply json_int_chars|by rewrite Hx1|by rewrite Hx2].
  split; [|done]. unfold json_int in H. apply (f_equal text) in H. rewrite !text_chars in H.
  unfold str_of_Z in H. by apply (inj pretty) in H.
Qed.

Lemma json_member_inj name v1 v2 r1 r2 :
  json_member name v1 ++ r1 = json_member name v2 ++ r2 → v1 ++ r1 = v2 ++ r2.
Proof. unfold json_member. rewrite <- !app_assoc. intros H%app_inv_head. cbn in H. by injection H. Qed.

(** Bring the first part of both sides to the front. *)
Ltac json_norm H :=
  repeat first [rewrite <- app_assoc in H | rewrite <- app_comm_cons in H | rewrite app_nil_l in H].

Lemma cons_tail {A} (x : A) l1 l2 : x :: l1 = x :: l2 → l1 = l2.
Proof. by intros [= ->]. Qed.

(** A document, with what follows it, determines the open time and the texts. *)
Lemma candle_document_inj c1 c2 r1 r2 :
  candle_document c1 ++ r1 = candle_document c2 ++ r2 →
  cc_open_time_ms c1 = cc_open_time_ms c2 ∧ ohlcv_text (cc_values c1) = ohlcv_text (cc_values c2) ∧ r1 = r2.
Proof.
  unfold candle_document, json_object. cbv zeta. cbn [json_list]. intros H. json_norm H.
  apply cons_tail in H.
  apply json_member_inj, json_string_inj in H as [E1 H]. apply cons_tail in H.
  json_norm H.
  apply json_member_inj, json_string_inj in H as [E2 H]. apply cons_tail in H.
  json_norm H.
  apply json_member_inj, json_string_inj in H as [E3 H]. apply cons_tail in H.
  json_norm H.
  apply json_member_inj, json_string_inj in H as [E4 H]. apply cons_tail in H.
  json_norm H.
  apply json_member_inj in H. apply json_int_inj in H as [E5 H]; [|done|done]. apply cons_tail in H.
  json_norm H.
  apply json_member_inj, json_string_inj in H as [E6 H]. apply cons_tail in H.
  split; [done|]. split; [|done]. unfold ohlcv_text. congruence.
Qed.

(** The data a range identifies: the open time and the canonical texts of each candle. *)
Definition candle_identity (c : CanonicalCandle) : Z * list string :=
  (cc_open_time_ms c, ohlcv_text (cc_values c)).

Lemma candle_document_head c : ∃ l, candle_document c = chr 123 :: l.
Proof. by eexists. Qed.

Lemma json_list_inj l1 l2 r1 r2 :
  json_list (map candle_document l1) ++ chr 93 :: r1 = json_list (map candle_document l2) ++ chr 93 :: r2 →
  map candle_identity l1 = map candle_identity l2 ∧ r1 = r2.
Proof.
  revert l2. induction l1 as [|c1 l1 IH]; intros [|c2 l2] H.
  - by injection H.
  - exfalso. destruct (candle_document_head c2) as [x Hx]. cbn [map json_list] in H. rewrite Hx in H.
    by destruct l2.
  - exfalso. destruct (candle_document_head c1) as [x Hx]. cbn [map json_list] in H. rewrite Hx in H.
    by destruct l1.
  - assert (Hcase : ∀ c l, ∃ t, (json_list (map candle_document (c :: l)) = candle_document c ++ t) ∧
        t = match l with [] => [] | _ => chr 44 :: json_list (map candle_document l) end).
    { intros c [|d l]; eexists; (split; [|reflexivity]); cbn [map json_list]; by rewrite ?app_nil_r. }
    destruct (Hcase c1 l1) as (t1 & E1 & ->), (Hcase c2 l2) as (t2 & E2 & ->). rewrite E1, E2 in H.
    rewrite <- !app_assoc in H. apply candle_document_inj in H as (Ht & Hv & H).
    assert (Hid : candle_identity c1 = candle_identity c2) by (unfold candle_identity; congruence).
    destruct l1 as [|d1 l1], l2 as [|d2 l2]; cbn [app] in H; try done.
    + injection H as ->. cbn. by rewrite Hid.
    + apply cons_tail in H. apply (IH (d2 :: l2)) in H as [H ->]. split; [|done].
      cbn [map] in *. by rewrite Hid, H.
Qed.

Lemma payload_inj k1 k2 f1 f2 t1 t2 l1 l2 :
  market_data_payload k1 f1 t1 l1 = market_data_payload k2 f2 t2 l2 →
  k1 = k2 ∧ f1 = f2 ∧ t1 = t2 ∧ map candle_identity l1 = map candle_identity l2.
Proof.
  unfold market_data_payload. intros H%text_inj. unfold json_object, json_array in H.
  cbn [json_list] in H. json_norm H. apply cons_tail in H.
  json_norm H. apply json_member_inj in H. json_norm H. apply cons_tail in H.
  json_norm H. apply json_list_inj in H as [El H]. apply cons_tail in H.
  json_norm H. apply json_member_inj in H.
  apply json_int_inj in H as [Ef H]; [|done|done]. apply cons_tail in H.
  json_norm H.
  apply json_member_inj, json_string_inj in H as [Ek H]. apply cons_tail in H.
  json_norm H.
  apply json_member_inj, json_string_inj in H as [Et H]. apply cons_tail in H.
  apply json_member_inj in H. apply json_int_inj in H as [Eto H]; [|done|done].
  split; [|done]. destruct k1 as [[tk1] tf1], k2 as [[tk2] tf2]. cbn in *.
  assert (tf1 = tf2) as -> by (apply (inj Some); rewrite <- !find_timeframe_id; congruence). congruence.
Qed.

(** ** Properties *)

(** C37. The market data hash identifies the range: unless SHA-256 collides on the two texts, two
    ranges have the same hash exactly when they are of the same stream and window and have
    the same open times and the same canonical prices and volumes, in order. *)
Theorem market_data_hash_identifies (sha256_hex : string → string) (k1 k2 : StreamKey)
    (from1 from2 to1 to2 : Z) (l1 l2 : list CanonicalCandle) :
  (sha256_hex (market_data_payload k1 from1 to1 l1) = sha256_hex (market_data_payload k2 from2 to2 l2) →
   market_data_payload k1 from1 to1 l1 = market_data_payload k2 from2 to2 l2) →
  canonical_market_data_hash sha256_hex k1 from1 to1 l1 = canonical_market_data_hash sha256_hex k2 from2 to2 l2 ↔
  k1 = k2 ∧ from1 = from2 ∧ to1 = to2 ∧ map candle_identity l1 = map candle_identity l2.
Proof.
  intros Hinj. unfold canonical_market_data_hash. split.
  - intros H%Hinj. by apply payload_inj.
  - intros (<- & <- & <- & Hl). f_equal. unfold market_data_payload.
    enough (map candle_document l1 = map candle_document l2) as -> by done. clear Hinj.
    revert l2 Hl. induction l1 as [|c1 l1 IH]; intros [|c2 l2]; try done. cbn [map].
    intros [= Ht Eo Eh El Ec Ev Hl]. rewrite (IH _ Hl). f_equal. unfold candle_document. cbv zeta.
    by rewrite Ht, Eo, Eh, El, Ec, Ev.
Qed.

Definition example_range : list CanonicalCandle :=
  match CanonicalCandle_new (mkStreamKey (mkInstrumentKey "BTCUSDT.P") TF_1m) 0 59999
          (InStr "10.50") (InStr "12") (InStr "9") (InStr "11") (InStr "0.10") BYBIT_REST 5 with
  | Ok c => [c]
  | Raise _ => []
  end.

Lemma market_data_hash_identifies_witness :
  let k := mkStreamKey (mkInstrumentKey "BTCUSDT.P") TF_1m in
  chars (market_data_payload k 0 60000 example_range) =
    map (λ c, if Ascii.eqb c quote then dquote else c) (chars
      "{'candles':[{'close':'11','high':'12','low':'9','open':'10.5','open_time_ms':0,'volume':'0.1'}],'from_ms':0,'ticker':'BTCUSDT.P','timeframe':'1m','to_ms':60000}") ∧
  (canonical_market_data_hash id k 0 60000 example_range = canonical_market_data_hash id k 0 60000 [] ↔
   k = k ∧ 0 = 0 ∧ 60000 = 60000 ∧ map candle_identity example_range = map candle_identity []).
Proof.
  intros k. split; [by vm_compute|].
  apply (market_data_hash_identifies id k k 0 0 60000 60000 example_range []). exact (λ H, H).
Defined.
