(* ===== verification/ConsumerRead.v ===== *)
(** * Reads of candle ranges by consumers

    application/consumer_read/ (errors.py, models.py, validation.py, get_candle_range.py,
    get_historical_candle_range.py), ports/consumer_read.py and the reader of
    adapters/sqlite/consumer_candle_reader.py: one read transaction gives the lifecycle
    snapshot and the joined range. *)

From S2P Require Import Prelude PyStr DecimalValues Timeframes Identity Gaps Candles StreamState.
From S2P Require Import Instruments OpenInterest Storage AbsStore Ingest ImportWindow UseCase Provenance.

(** ** models.py and the port *)

Record CandleRangeRequest := mkRangeRequest {
  rg_ticker : string;
  rg_timeframe : string;
  rg_from_ms : Z;
  rg_to_ms : Z
}.

Record HistoricalCandleRangeRequest := mkHistoricalRequest {
  hq_ticker : string;
  hq_timeframe : string;
  hq_from_ms : Z;
  hq_to_ms : Z;
  hq_expected_market_data_hash : string
}.

Record CandleRangeResult := mkRangeResult {
  cg_stream : StreamKey;
  cg_from_ms : Z;
  cg_to_ms : Z;
  cg_market_data_hash : string;
  cg_candles : list CanonicalCandle;
  cg_open_interest : list (option string)
}.

Record ConsumerReadSnapshot := mkReadSnapshot {
  rs_state : StreamStateSnapshot;
  rs_candles : list CanonicalCandle;
  rs_open_interest : list (option string)
}.

(** [SqliteConsumerCandleReader.read_snapshot]: the bounds are bound by [sqlite3] once the
    stream was found, in the query of the rows. *)
Definition read_snapshot (k : StreamKey) (start_time_ms end_time_ms : Z) : M ConsumerReadSnapshot :=
  state ← read_op (GetStreamState k);
  _ ← lift (bind_ints [start_time_ms; end_time_ms]);
  rows ← read_op (ListCandlesWithOpenInterest k start_time_ms end_time_ms);
  mret (mkReadSnapshot state (map fst rows) (map snd rows)).

(** ** validation.py *)

Definition validate_requested_range (from_ms to_ms step_ms : Z) : res () :=
  _ ← raise_if ((from_ms <? 0) || (to_ms <? 0) || (to_ms <=? from_ms)) ExcInvalidRange
        "from_ms and to_ms must define a positive half-open range";
  raise_if (negb (from_ms mod step_ms =? 0) || negb (to_ms mod step_ms =? 0)) ExcRangeNotAligned
    "from_ms and to_ms must align to the timeframe grid".

Definition validate_available_range (from_ms to_ms available_from_ms available_to_ms : Z) : res () :=
  raise_if ((from_ms <? available_from_ms) || (available_to_ms <? to_ms)) ExcRangeOutOfBounds
    ("requested [" +:+ str_of_Z from_ms +:+ ", " +:+ str_of_Z to_ms +:+ ") outside ["
     +:+ str_of_Z available_from_ms +:+ ", " +:+ str_of_Z available_to_ms +:+ ")").

(** The loop over the candles, from the expected open time. *)
Fixpoint grid_loop (candles : list CanonicalCandle) (expected step_ms : Z) : res () :=
  match candles with
  | [] => mret ()
  | c :: candles =>
      _ ← raise_if (negb (cc_open_time_ms c =? expected)) ExcContinuityInvariantBroken
            "ready stream returned a gapped or unordered range";
      grid_loop candles (expected + step_ms) step_ms
  end.

Definition validate_complete_grid (candles : list CanonicalCandle) (from_ms to_ms step_ms : Z) : res () :=
  let expected_count := (to_ms - from_ms) / step_ms in
  _ ← raise_if (negb (Z.of_nat (length candles) =? expected_count)) ExcContinuityInvariantBroken
        "ready stream returned an incomplete candle grid";
  grid_loop candles from_ms step_ms.

(** ** get_candle_range.py and get_historical_candle_range.py *)

(** [StreamKey(InstrumentKey(ticker), timeframe)], refused unless it is configured. *)
Definition configured_stream (configured : list StreamKey) (tk tf : string) : res StreamKey :=
  match (i ← InstrumentKey_new tk; StreamKey_new i tf) with
  | Raise exc =>
      if isinstance exc ExcValueError then raise ExcConfiguredStreamNotFound (exn_str exc)
      else Raise exc
  | Ok k =>
      _ ← raise_if (negb (bool_decide (k ∈ configured))) ExcConfiguredStreamNotFound
            (stream_canonical_id k);
      mret k
  end.

Section consumer.
Context (sha256_hex : string → string) (config : ValidatedMarketConfig).

(** [GetCandleRange.execute] *)
Definition get_candle_range (request : CandleRangeRequest) : M CandleRangeResult :=
  k ← lift (configured_stream (enabled_streams config) (rg_ticker request) (rg_timeframe request));
  let step_ms := stream_step k in
  _ ← lift (validate_requested_range (rg_from_ms request) (rg_to_ms request) step_ms);
  snapshot ← read_snapshot k (rg_from_ms request) (rg_to_ms request);
  let state := rs_state snapshot in
  _ ← lift (raise_if (negb (bool_decide (ss_state state = READY))) ExcStreamNotReady
              (stream_canonical_id k +:+ " is " +:+ lifecycle_value (ss_state state)));
  match earliest_available_open_time_ms state, latest_committed_open_time_ms state with
  | Some earliest, Some latest =>
      let available_to := latest + step_ms in
      _ ← lift (validate_available_range (rg_from_ms request) (rg_to_ms request) earliest available_to);
      let candles := rs_candles snapshot in
      _ ← lift (validate_complete_grid candles (rg_from_ms request) (rg_to_ms request) step_ms);
      mret (mkRangeResult k (rg_from_ms request) (rg_to_ms request)
              (canonical_market_data_hash sha256_hex k (rg_from_ms request) (rg_to_ms request) candles)
              candles (rs_open_interest snapshot))
  | _, _ => lift (raise ExcStreamNotReady (stream_canonical_id k +:+ " has no proven available window"))
  end.

(** [re.compile(r"^[0-9a-f]{64}$").match(value)]: [$] also matches before a last newline. *)
Definition is_hex_digit (c : Ascii.ascii) : bool :=
  is_digit c || ((97 <=? code c) && (code c <=? 102)).
Definition canonical_hash_format (value : string) : bool :=
  let l := chars value in
  (length l =? 64)%nat && forallb is_hex_digit l ||
  (length l =? 65)%nat && forallb is_hex_digit (take 64 l) && bool_decide (last l = Some (chr 10)).

(** [GetHistoricalCandleRange.execute] *)
Definition get_historical_candle_range (request : HistoricalCandleRangeRequest) : M CandleRangeResult :=
  k ← lift (configured_stream (enabled_streams config) (hq_ticker request) (hq_timeframe request));
  _ ← lift (raise_if (negb (canonical_hash_format (hq_expected_market_data_hash request)))
              ExcInvalidRange "expected_market_data_hash must be a 64-character lowercase hex digest");
  let step_ms := stream_step k in
  _ ← lift (validate_requested_range (hq_from_ms request) (hq_to_ms request) step_ms);
  snapshot ← read_snapshot k (hq_from_ms request) (hq_to_ms request);
  let candles := rs_candles snapshot in
  _ ← lift (validate_complete_grid candles (hq_from_ms request) (hq_to_ms request) step_ms);
  let actual_hash := canonical_market_data_hash sha256_hex k (hq_from_ms request) (hq_to_ms request) candles in
  _ ← lift (raise_if (negb (bool_decide (actual_hash = hq_expected_market_data_hash request)))
              ExcCoverageStale "historical candle range no longer matches the audited market_data_hash");
  mret (mkRangeResult k (hq_from_ms request) (hq_to_ms request) actual_hash candles
          (rs_open_interest snapshot)).
End consumer.

(** ** Facts *)

(** The [n] points of the grid from [from_ms]. *)
Fixpoint grid_from (from_ms step : Z) (n : nat) : list Z :=
  match n with O => [] | S n => from_ms :: grid_from (from_ms + step) step n end.

Lemma grid_from_elem from step n t :
  0 < step → t ∈ grid_from from step n ↔ ∃ i, 0 ≤ i < Z.of_nat n ∧ t = from + i * step.
Proof.
  intros Hs. revert from. induction n as [|n IH]; intros from; cbn [grid_from].
  - split; [by intros ?%elem_of_nil|]. intros (i & ? & _). lia.
  - rewrite elem_of_cons, IH. split.
    + intros [->|(i & Hi & ->)]; [exists 0; lia|]. exists (i + 1). lia.
    + intros (i & Hi & ->). destruct (decide (i = 0)) as [->|]; [left; lia|]. right. exists (i - 1). lia.
Qed.

Lemma grid_from_sorted from step n : 0 < step → StronglySorted Z.lt (grid_from from step n).
Proof.
  intros Hs. revert from. induction n as [|n IH]; intros from; cbn [grid_from]; constructor; [apply IH|].
  apply Forall_forall. intros t (i & Hi & ->)%grid_from_elem; [|done]. nia.
Qed.

Lemma grid_from_length from step n : length (grid_from from step n) = n.
Proof. revert from. induction n as [|n IH]; intros from; cbn; [done|]. by rewrite IH. Qed.

(** The points of a range. *)
Definition range_grid (from_ms to_ms step : Z) : list Z :=
  grid_from from_ms step (Z.to_nat ((to_ms - from_ms) / step)).

Lemma range_grid_elem from to step t :
  0 < step → from < to → on_grid step from → on_grid step to →
  t ∈ range_grid from to step ↔ on_grid step t ∧ from ≤ t < to.
Proof.
  unfold range_grid, on_grid. intros Hs Hlt Hf Ht. rewrite grid_from_elem by done.
  apply Z.mod_divide in Hf as [a ->]; [|lia]. apply Z.mod_divide in Ht as [b ->]; [|lia].
  replace ((b * step - a * step) / step) with (b - a).
  2:{ rewrite <- Z.mul_sub_distr_r, Z.div_mul; lia. }
  assert (a < b) by nia. rewrite Z2Nat.id by lia. split.
  - intros (i & Hi & ->). replace (a * step + i * step) with ((a + i) * step) by lia.
    split; [by apply Z_mod_mult|nia].
  - intros [Hm Hr]. apply Z.mod_divide in Hm as [q ->]; [|lia]. exists (q - a). split; [nia|lia].
Qed.

Lemma grid_loop_ok candles expected step u :
  grid_loop candles expected step = Ok u ↔
  map cc_open_time_ms candles = grid_from expected step (length candles).
Proof.
  revert expected. induction candles as [|c candles IH]; intros expected; cbn [grid_loop map length grid_from].
  - by destruct u.
  - rewrite raise_if_bind_ok, IH. split.
    + intros [Hb ->]. bool_hyps. by rewrite Hb.
    + intros [= -> ->]. by rewrite Z.eqb_refl.
Qed.

Lemma complete_grid_ok candles from to step u :
  0 < step → from < to →
  validate_complete_grid candles from to step = Ok u ↔
  map cc_open_time_ms candles = range_grid from to step.
Proof.
  intros Hs Hlt. unfold validate_complete_grid, range_grid. cbv zeta. rewrite raise_if_bind_ok, grid_loop_ok.
  assert (0 ≤ (to - from) / step) by (apply Z.div_pos; lia). split.
  - intros [Hb ->]. bool_hyps. by rewrite <- Hb, Nat2Z.id.
  - intros H1. assert (Hl : length candles = Z.to_nat ((to - from) / step)).
    { apply (f_equal length) in H1. by rewrite length_map, grid_from_length in H1. }
    rewrite Hl. split; [|done]. apply negb_false_iff, Z.eqb_eq. lia.
Qed.

Lemma complete_grid_error candles from to step e :
  validate_complete_grid candles from to step = Raise e → exn_cls e = ExcContinuityInvariantBroken.
Proof.
  unfold validate_complete_grid. cbv zeta. intros [[_ ->]|[_ H]]%raise_if_bind_raise; [done|].
  revert from H. induction candles as [|c candles IH]; intros from; cbn [grid_loop]; [done|].
  intros [[_ ->]|[_ H]]%raise_if_bind_raise; [done|by eapply IH].
Qed.

Lemma requested_range_ok from to step u :
  validate_requested_range from to step = Ok u ↔
  0 ≤ from ∧ from < to ∧ on_grid step from ∧ on_grid step to.
Proof.
  unfold validate_requested_range, on_grid. rewrite raise_if_bind_ok, raise_if_ok. split.
  - intros [H1 H2]. bool_hyps. split_and!; lia.
  - intros (H1 & H2 & H3 & H4). rewrite H3, H4. split; [|done]. lia.
Qed.

(** What a stored range is read as. *)
Record range_content (k : StreamKey) (r : StreamRec) (from to : Z)
    (candles : list CanonicalCandle) (oi : list (option string)) : Prop := {
  rc_times : map cc_open_time_ms candles = range_times (sr_candles r) from to;
  rc_rows : Forall (λ c, ∃ row, sr_candles r !! cc_open_time_ms c = Some row ∧
                    candle_of_row k (cc_open_time_ms c) row = Ok c) candles;
  rc_oi : oi = map (λ c, or_value <$> sr_oi r !! cc_open_time_ms c) candles
}.

Definition complete_range (k : StreamKey) (r : StreamRec) (from to : Z) : Prop :=
  ∀ u, on_grid (stream_step k) u → from ≤ u < to → is_Some (sr_candles r !! u).

Lemma stored_on_grid k r u : stream_inv k r → is_Some (sr_candles r !! u) → on_grid (stream_step k) u.
Proof.
  intros [_ _ Hrows _] [row Hrow]. destruct (Hrows u row Hrow) as (c & _ & _ & _ & _ & (_ & Hg & _)). done.
Qed.

Lemma range_times_complete k r from to :
  stream_inv k r → from < to → on_grid (stream_step k) from → on_grid (stream_step k) to →
  range_times (sr_candles r) from to = range_grid from to (stream_step k) ↔ complete_range k r from to.
Proof.
  intros Hi Hlt Hf Ht. pose proof (stream_step_pos k) as Hs. split.
  - intros Heq u Hu Hr. assert (u ∈ range_times (sr_candles r) from to) as Hin
      by (rewrite Heq; by apply range_grid_elem). by apply range_times_elem in Hin as [? _].
  - intros Hc. apply strictly_sorted_unique; [apply range_times_sorted|by apply grid_from_sorted|].
    intros u. rewrite range_times_elem, range_grid_elem by done. split.
    + intros [Hu Hr]. split; [by eapply stored_on_grid|done].
    + intros [Hu Hr]. split; [by apply Hc|done].
Qed.

Section reads.
Context `{E : Env} (k : StreamKey) (a : AbsStore) (t c : nat) (r : StreamRec).
Context (Hi : store_inv a) (Hr : ab_streams a !! k = Some r).

Lemma run_read_snapshot from to :
  bind_ints [from; to] = Ok () →
  ∃ snap, run (read_snapshot k from to) (mkWorld a None t c) = (Ok snap, mkWorld a None t c) ∧
    rs_state snap = sr_state r ∧ range_content k r from to (rs_candles snap) (rs_open_interest snap).
Proof using Hi Hr.
  intros Hb. pose proof (store_inv_lookup _ _ _ Hi Hr) as Hri. unfold read_snapshot.
  rewrite run_bind, run_read. cbn [store_step abs_storage w_db]. unfold read_stream. rewrite Hr. cbn [fst].
  rewrite snapshot_check_valid by apply Hri. rewrite run_bind, run_lift, Hb, run_bind, run_read.
  cbn [store_step abs_storage w_db]. unfold read_stream. rewrite Hr. cbn [fst].
  destruct (list_with_oi_ok k r from to Hri) as (l & -> & HF). rewrite run_ret.
  eexists. split; [reflexivity|]. split; [done|]. cbn [rs_candles rs_open_interest]. split.
  - induction HF as [|u p us l (row & _ & _ & Hu & _) HF IH]; [done|]. cbn. by rewrite Hu, IH.
  - induction HF as [|u p us l (row & Hrow & Hc & Hu & _) HF IH]; constructor; [|done].
    exists row. by rewrite Hu.
  - induction HF as [|u p us l (row & _ & _ & Hu & Ho) HF IH]; [done|]. cbn. by rewrite Hu, Ho, IH.
Qed.

Lemma read_snapshot_overflow from to e :
  bind_ints [from; to] = Raise e →
  run (read_snapshot k from to) (mkWorld a None t c) = (Raise e, mkWorld a None t c).
Proof using Hi Hr.
  intros Hb. pose proof (store_inv_lookup _ _ _ Hi Hr) as Hri. unfold read_snapshot.
  rewrite run_bind, run_read. cbn [store_step abs_storage w_db]. unfold read_stream. rewrite Hr. cbn [fst].
  rewrite snapshot_check_valid by apply Hri. by rewrite run_bind, run_lift, Hb.
Qed.

(** A read that returned had bounds that fit. *)
Lemma read_snapshot_ok from to snap w :
  run (read_snapshot k from to) (mkWorld a None t c) = (Ok snap, w) → bind_ints [from; to] = Ok ().
Proof using Hi Hr.
  intros H. destruct (bind_ints [from; to]) as [[]|e] eqn:Hb; [done|].
  by rewrite (read_snapshot_overflow from to e Hb) in H.
Qed.
End reads.

(** The bounds of a range fit in a database. *)
Definition range_fits (from to : Z) : Prop := - 2 ^ 63 ≤ from < 2 ^ 63 ∧ - 2 ^ 63 ≤ to < 2 ^ 63.

Lemma bind_range from to : bind_ints [from; to] = Ok () ↔ range_fits from to.
Proof. rewrite bind_ints_ok, !Forall_cons, Forall_nil. unfold range_fits. naive_solver. Qed.

(** ** Properties *)

(** Why a read of a range is refused, with the class of its error. *)
Inductive range_refused (configured : list StreamKey) (a : AbsStore) (tk tf : string) (from to : Z) :
    exn_class → Prop :=
| refused_stream msg : configured_stream configured tk tf = raise ExcConfiguredStreamNotFound msg →
    range_refused configured a tk tf from to ExcConfiguredStreamNotFound
| refused_range k : configured_stream configured tk tf = Ok k →
    ¬ (0 ≤ from ∧ from < to) → range_refused configured a tk tf from to ExcInvalidRange
| refused_grid k : configured_stream configured tk tf = Ok k →
    ¬ (on_grid (stream_step k) from ∧ on_grid (stream_step k) to) →
    range_refused configured a tk tf from to ExcRangeNotAligned
| refused_state k r : configured_stream configured tk tf = Ok k → ab_streams a !! k = Some r →
    (ss_state (sr_state r) ≠ READY ∨ earliest_available_open_time_ms (sr_state r) = None ∨
     latest_committed_open_time_ms (sr_state r) = None) →
    range_refused configured a tk tf from to ExcStreamNotReady
| refused_bounds k r earliest latest : configured_stream configured tk tf = Ok k →
    ab_streams a !! k = Some r → earliest_available_open_time_ms (sr_state r) = Some earliest →
    latest_committed_open_time_ms (sr_state r) = Some latest →
    (from < earliest ∨ latest + stream_step k < to) →
    range_refused configured a tk tf from to ExcRangeOutOfBounds
| refused_gap k r : configured_stream configured tk tf = Ok k → ab_streams a !! k = Some r →
    ¬ complete_range k r from to → range_refused configured a tk tf from to ExcContinuityInvariantBroken
| refused_overflow k : configured_stream configured tk tf = Ok k → ¬ range_fits from to →
    range_refused configured a tk tf from to ExcOverflowError.

Lemma configured_stream_error configured tk tf e :
  configured_stream configured tk tf = Raise e →
  exn_cls e = ExcConfiguredStreamNotFound ∧ ∃ msg, configured_stream configured tk tf =
    raise ExcConfiguredStreamNotFound msg.
Proof.
  intros H. rewrite H. unfold configured_stream in H.
  destruct (i ← InstrumentKey_new tk; StreamKey_new i tf) as [k|exc] eqn:Ek.
  - apply raise_if_bind_raise in H as [[_ ->]|[_ H]]; [|done]. split; [done|]. by eexists.
  - assert (raises_only ExcValueError (i ← InstrumentKey_new tk; StreamKey_new i tf)) as Hv.
    { unfold InstrumentKey_new, StreamKey_new, get_timeframe. raises_only_tac. }
    apply Hv in Ek. unfold isinstance in H. rewrite Ek in H. cbn in H. injection H as <-.
    split; [done|]. by eexists.
Qed.

Lemma requested_range_error from to step e :
  validate_requested_range from to step = Raise e →
  (exn_cls e = ExcInvalidRange ∧ ¬ (0 ≤ from ∧ from < to)) ∨
  (exn_cls e = ExcRangeNotAligned ∧ ¬ (on_grid step from ∧ on_grid step to)).
Proof.
  unfold validate_requested_range, on_grid. intros [[Hb ->]|[_ H]]%raise_if_bind_raise.
  - left. split; [done|]. intros [? ?]. apply orb_true_iff in Hb as [[?|?]%orb_true_iff|?]; lia.
  - right. unfold raise_if in H. destruct (_ || _) eqn:Hb; [|done]. injection H as <-. split; [done|].
    intros [H1 H2]. rewrite H1, H2 in Hb. done.
Qed.

(** What a read comes to. *)
Lemma get_candle_range_report `{E : Env} (sha256_hex : string → string) (config : ValidatedMarketConfig)
    (q : CandleRangeRequest) (a : AbsStore) (t c : nat) :
  store_inv a → (∀ k, k ∈ enabled_streams config → is_Some (ab_streams a !! k)) →
  match run (get_candle_range sha256_hex config q) (mkWorld a None t c) with
  | (Ok res, w) => w = mkWorld a None t c ∧ ∃ k r earliest latest,
      configured_stream (enabled_streams config) (rg_ticker q) (rg_timeframe q) = Ok k ∧
      ab_streams a !! k = Some r ∧ ss_state (sr_state r) = READY ∧
      earliest_available_open_time_ms (sr_state r) = Some earliest ∧
      latest_committed_open_time_ms (sr_state r) = Some latest ∧
      earliest ≤ rg_from_ms q < rg_to_ms q ∧ rg_to_ms q ≤ latest + stream_step k ∧
      range_fits (rg_from_ms q) (rg_to_ms q) ∧
      complete_range k r (rg_from_ms q) (rg_to_ms q) ∧
      cg_stream res = k ∧ cg_from_ms res = rg_from_ms q ∧ cg_to_ms res = rg_to_ms q ∧
      range_content k r (rg_from_ms q) (rg_to_ms q) (cg_candles res) (cg_open_interest res) ∧
      map cc_open_time_ms (cg_candles res) = range_grid (rg_from_ms q) (rg_to_ms q) (stream_step k) ∧
      cg_market_data_hash res =
        canonical_market_data_hash sha256_hex k (rg_from_ms q) (rg_to_ms q) (cg_candles res)
  | (Raise e, w) => w = mkWorld a None t c ∧ range_refused (enabled_streams config) a (rg_ticker q) (rg_timeframe q)
                 (rg_from_ms q) (rg_to_ms q) (exn_cls e)
  end.
Proof.
  intros Hi Hreg. unfold get_candle_range. rewrite run_bind, run_lift.
  destruct (configured_stream _ _ _) as [k|e] eqn:Ek.
  2:{ split; [done|]. destruct (configured_stream_error _ _ _ _ Ek) as [-> [msg Hm]].
      by eapply refused_stream. }
  assert (Hin : k ∈ enabled_streams config).
  { unfold configured_stream in Ek. destruct (i ← _; _) as [k'|exc]; [|by destruct (isinstance _ _)].
    apply raise_if_bind_ok in Ek as [Hb [= <-]]. by bool_hyps. }
  destruct (Hreg k Hin) as [r Hr]. pose proof (store_inv_lookup _ _ _ Hi Hr) as Hri. cbv zeta.
  rewrite run_bind, run_lift. destruct (validate_requested_range _ _ _) as [[]|e] eqn:Ev.
  2:{ split; [done|].
      destruct (requested_range_error _ _ _ _ Ev) as [[-> H]|[-> H]]; [by eapply refused_range|by eapply refused_grid]. }
  apply requested_range_ok in Ev as (H0 & Hlt & Hf & Ht).
  destruct (bind_ints [rg_from_ms q; rg_to_ms q]) as [[]|e] eqn:Hb.
  2:{ rewrite run_bind, (read_snapshot_overflow k a t c r Hi Hr _ _ e Hb). split; [done|].
      rewrite (bind_ints_raise _ _ Hb). eapply refused_overflow; [done|]. rewrite <- bind_range. congruence. }
  destruct (run_read_snapshot k a t c r Hi Hr _ _ Hb) as (snap & Hsnap & Hst & Hcont).
  apply bind_range in Hb.
  rewrite run_bind, Hsnap, run_bind, run_lift, Hst. cbv zeta.
  destruct (bool_decide (ss_state (sr_state r) = READY)) eqn:Eready; cbn [negb raise_if]; bool_hyps.
  2:{ split; [done|]. eapply refused_state; [done|done|by left]. }
  destruct (earliest_available_open_time_ms (sr_state r)) as [earliest|] eqn:Ee.
  2:{ split; [done|]. eapply refused_state; [done|done|by right; left]. }
  destruct (latest_committed_open_time_ms (sr_state r)) as [latest|] eqn:El.
  2:{ split; [done|]. eapply refused_state; [done|done|by right; right]. }
  rewrite run_bind, run_lift. unfold validate_available_range at 1, raise_if at 1.
  destruct (_ || _) eqn:Eb.
  { split; [done|]. eapply refused_bounds; [done..|]. apply orb_true_iff in Eb. lia. }
  bool_hyps. rewrite run_bind, run_lift. pose proof (stream_step_pos k) as Hs.
  pose proof (rc_times _ _ _ _ _ _ Hcont) as Htimes.
  destruct (validate_complete_grid _ _ _ _) as [u|e] eqn:Eg.
  - apply complete_grid_ok in Eg; [|done..]. rewrite run_ret. split; [done|].
    exists k, r, earliest, latest. cbn. split_and!; try done; try lia.
    apply range_times_complete; [done..|]. congruence.
  - split; [done|]. rewrite (complete_grid_error _ _ _ _ _ Eg).
    eapply refused_gap; [done|done|]. intros Hc. apply range_times_complete in Hc; [|done..].
    assert (validate_complete_grid (rs_candles snap) (rg_from_ms q) (rg_to_ms q) (stream_step k) = Ok ())
      as Hok by (apply complete_grid_ok; [done|done|congruence]). congruence.
Qed.

(** C18. A consumer reads a range of a configured stream exactly when the stream is ready, the
    aligned range is inside its available window, its bounds fit in the 64 bits of SQLite and
    every point of it is stored; it then gets all of it, in order, as stored, with the open
    interest of each candle and the hash that identifies it; every refusal has its own error,
    [OverflowError] for bounds that do not fit, and reading changes nothing. *)
Theorem get_candle_range_exact `{E : Env} (sha256_hex : string → string) (config : ValidatedMarketConfig)
    (q : CandleRangeRequest) (a : AbsStore) (t c : nat) :
  store_inv a → (∀ k, k ∈ enabled_streams config → is_Some (ab_streams a !! k)) →
  match run (get_candle_range sha256_hex config q) (mkWorld a None t c) with
  | (Ok res, w) => w = mkWorld a None t c ∧ ∃ k r earliest latest,
      configured_stream (enabled_streams config) (rg_ticker q) (rg_timeframe q) = Ok k ∧
      ab_streams a !! k = Some r ∧ ss_state (sr_state r) = READY ∧
      earliest_available_open_time_ms (sr_state r) = Some earliest ∧
      latest_committed_open_time_ms (sr_state r) = Some latest ∧
      earliest ≤ rg_from_ms q < rg_to_ms q ∧ rg_to_ms q ≤ latest + stream_step k ∧
      range_fits (rg_from_ms q) (rg_to_ms q) ∧
      complete_range k r (rg_from_ms q) (rg_to_ms q) ∧
      cg_stream res = k ∧ cg_from_ms res = rg_from_ms q ∧ cg_to_ms res = rg_to_ms q ∧
      range_content k r (rg_from_ms q) (rg_to_ms q) (cg_candles res) (cg_open_interest res) ∧
      map cc_open_time_ms (cg_candles res) = range_grid (rg_from_ms q) (rg_to_ms q) (stream_step k) ∧
      cg_market_data_hash res =
        canonical_market_data_hash sha256_hex k (rg_from_ms q) (rg_to_ms q) (cg_candles res)
  | (Raise e, w) => w = mkWorld a None t c ∧ range_refused (enabled_streams config) a (rg_ticker q) (rg_timeframe q)
                 (rg_from_ms q) (rg_to_ms q) (exn_cls e)
  end.
Proof.
  intros Hi Hreg. pose proof (get_candle_range_report sha256_hex config q a t c Hi Hreg) as H.
  destruct (run _ _) as [[res|e] w]; exact H.
Qed.

(** Why an audited read is refused. *)
Inductive historical_refused (sha256_hex : string → string) (configured : list StreamKey) (a : AbsStore)
    (q : HistoricalCandleRangeRequest) : exn_class → Prop :=
| historical_range cls :
    range_refused configured a (hq_ticker q) (hq_timeframe q) (hq_from_ms q) (hq_to_ms q) cls →
    cls ≠ ExcStreamNotReady → cls ≠ ExcRangeOutOfBounds → historical_refused sha256_hex configured a q cls
| historical_hash : canonical_hash_format (hq_expected_market_data_hash q) = false →
    historical_refused sha256_hex configured a q ExcInvalidRange
| historical_stale k r candles oi :
    configured_stream configured (hq_ticker q) (hq_timeframe q) = Ok k → ab_streams a !! k = Some r →
    range_content k r (hq_from_ms q) (hq_to_ms q) candles oi →
    canonical_market_data_hash sha256_hex k (hq_from_ms q) (hq_to_ms q) candles ≠
      hq_expected_market_data_hash q →
    historical_refused sha256_hex configured a q ExcCoverageStale.

(** What a read comes to. *)
Lemma get_historical_range_report `{E : Env} (sha256_hex : string → string)
    (config : ValidatedMarketConfig) (q : HistoricalCandleRangeRequest) (a : AbsStore) (t c : nat) :
  store_inv a → (∀ k, k ∈ enabled_streams config → is_Some (ab_streams a !! k)) →
  match run (get_historical_candle_range sha256_hex config q) (mkWorld a None t c) with
  | (Ok res, w) => w = mkWorld a None t c ∧ ∃ k r,
      configured_stream (enabled_streams config) (hq_ticker q) (hq_timeframe q) = Ok k ∧
      ab_streams a !! k = Some r ∧ complete_range k r (hq_from_ms q) (hq_to_ms q) ∧
      cg_stream res = k ∧
      range_content k r (hq_from_ms q) (hq_to_ms q) (cg_candles res) (cg_open_interest res) ∧
      cg_market_data_hash res = hq_expected_market_data_hash q ∧
      canonical_market_data_hash sha256_hex k (hq_from_ms q) (hq_to_ms q) (cg_candles res) =
        hq_expected_market_data_hash q
  | (Raise e, w) =>
      w = mkWorld a None t c ∧ historical_refused sha256_hex (enabled_streams config) a q (exn_cls e)
  end.
Proof.
  intros Hi Hreg. unfold get_historical_candle_range. rewrite run_bind, run_lift.
  destruct (configured_stream _ _ _) as [k|e] eqn:Ek.
  2:{ split; [done|]. destruct (configured_stream_error _ _ _ _ Ek) as [-> [msg Hm]].
      apply historical_range; [by eapply refused_stream|done..]. }
  assert (Hin : k ∈ enabled_streams config).
  { unfold configured_stream in Ek. destruct (i ← _; _) as [k'|exc]; [|by destruct (isinstance _ _)].
    apply raise_if_bind_ok in Ek as [Hb [= <-]]. by bool_hyps. }
  destruct (Hreg k Hin) as [r Hr]. rewrite run_bind, run_lift.
  destruct (canonical_hash_format (hq_expected_market_data_hash q)) eqn:Eh; cbn [negb raise_if raise];
    [|split; [done|]; by apply historical_hash].
  rewrite run_bind, run_lift. destruct (validate_requested_range _ _ _) as [[]|e] eqn:Ev.
  2:{ split; [done|]. destruct (requested_range_error _ _ _ _ Ev) as [[-> H]|[-> H]];
        (apply historical_range; [|done..]); [by eapply refused_range|by eapply refused_grid]. }
  apply requested_range_ok in Ev as (H0 & Hlt & Hf & Ht). pose proof (stream_step_pos k) as Hs.
  pose proof (store_inv_lookup _ _ _ Hi Hr) as Hri.
  destruct (bind_ints [hq_from_ms q; hq_to_ms q]) as [[]|e] eqn:Hb.
  2:{ rewrite run_bind, (read_snapshot_overflow k a t c r Hi Hr _ _ e Hb). split; [done|].
      rewrite (bind_ints_raise _ _ Hb). apply historical_range; [|done..].
      eapply refused_overflow; [done|]. rewrite <- bind_range. congruence. }
  destruct (run_read_snapshot k a t c r Hi Hr _ _ Hb) as (snap & Hsnap & Hst & Hcont).
  apply bind_range in Hb.
  rewrite run_bind, Hsnap. cbv zeta. rewrite run_bind, run_lift.
  pose proof (rc_times _ _ _ _ _ _ Hcont) as Htimes.
  destruct (validate_complete_grid _ _ _ _) as [u|e] eqn:Eg.
  - apply complete_grid_ok in Eg; [|done..]. rewrite run_bind, run_lift.
    destruct (bool_decide (canonical_market_data_hash _ _ _ _ _ = _)) eqn:Eq; cbn [negb raise_if raise]; bool_hyps.
    + rewrite run_ret. split; [done|]. exists k, r. cbn. split_and!; try done.
      apply range_times_complete; [done..|]. congruence.
    + split; [done|]. by eapply historical_stale.
  - split; [done|]. rewrite (complete_grid_error _ _ _ _ _ Eg).
    apply historical_range; [|done..]. eapply refused_gap; [done|done|].
    intros Hc. apply range_times_complete in Hc; [|done..].
    assert (validate_complete_grid (rs_candles snap) (hq_from_ms q) (hq_to_ms q) (stream_step k) = Ok ())
      as Hok by (apply complete_grid_ok; [done|done|congruence]). congruence.
Qed.

(** A read of an audited range needs no readiness: it succeeds exactly when the aligned range
    is still completely stored and its data still has the hash of the audit, and then gives
    that data; reading changes nothing. *)
Theorem get_historical_range_exact `{E : Env} (sha256_hex : string → string)
    (config : ValidatedMarketConfig) (q : HistoricalCandleRangeRequest) (a : AbsStore) (t c : nat) :
  store_inv a → (∀ k, k ∈ enabled_streams config → is_Some (ab_streams a !! k)) →
  match run (get_historical_candle_range sha256_hex config q) (mkWorld a None t c) with
  | (Ok res, w) => w = mkWorld a None t c ∧ ∃ k r,
      configured_stream (enabled_streams config) (hq_ticker q) (hq_timeframe q) = Ok k ∧
      ab_streams a !! k = Some r ∧ complete_range k r (hq_from_ms q) (hq_to_ms q) ∧
      cg_stream res = k ∧
      range_content k r (hq_from_ms q) (hq_to_ms q) (cg_candles res) (cg_open_interest res) ∧
      cg_market_data_hash res = hq_expected_market_data_hash q ∧
      canonical_market_data_hash sha256_hex k (hq_from_ms q) (hq_to_ms q) (cg_candles res) =
        hq_expected_market_data_hash q
  | (Raise e, w) =>
      w = mkWorld a None t c ∧ historical_refused sha256_hex (enabled_streams config) a q (exn_cls e)
  end.
Proof.
  intros Hi Hreg. pose proof (get_historical_range_report sha256_hex config q a t c Hi Hreg) as H.
  destruct (run _ _) as [[res|e] w]; exact H.
Qed.

(** The pattern lets a digest with a last newline through: it is then stale instead of
    invalid. *)
Lemma hash_format_newline l :
  length l = 64%nat → forallb is_hex_digit l = true → canonical_hash_format (text (l ++ [chr 10])) = true.
Proof.
  intros Hl Hh. unfold canonical_hash_format. rewrite chars_text, length_app, Hl, take_app_le, take_ge, Hh by lia.
  rewrite last_snoc. by rewrite bool_decide_eq_true_2.
Qed.

#[local] Existing Instance example_env.

Definition range_config : ValidatedMarketConfig :=
  mkMarketConfig 1 (mkMarketSource "bybit" "linear")
    [mkInstrumentCoverage (mkInstrumentKey "BTCUSDT.P") "BTCUSDT" true [TF_1m] FULL_AVAILABLE false].

(** The store after one candle was ingested. *)
Definition range_store : AbsStore :=
  w_db (run (ingest_execute (example_candle 0 11 BYBIT_REST) 20) (mkWorld example_store None 0 0)).2.

Lemma range_store_inv : store_inv range_store.
Proof.
  assert (Hk : keeps (good example_stream example_store) (ingest_execute (example_candle 0 11 BYBIT_REST) 20)).
  { unfold ingest_execute. apply keeps_with_uow, keeps_bind; [|keeps_tac].
    apply keeps_ingest; [done|by apply example_candle_parsed]. }
  destruct (Hk (mkWorld example_store None 0%nat 0%nat)) as [[[H _] _] _]; [|exact H].
  split; [apply good_refl, example_store_inv|done].
Qed.

Lemma range_config_registered k : k ∈ enabled_streams range_config → is_Some (ab_streams range_store !! k).
Proof. intros Hk. apply list_elem_of_singleton in Hk as ->. by vm_compute; eexists. Qed.

Lemma get_candle_range_exact_witness :
  let q := mkRangeRequest "btcusdt.p" "1M" 0 60000 in
  let p := run (get_candle_range id range_config q) (mkWorld range_store None 0 0) in
  (λ r, (map cc_open_time_ms (cg_candles r), cg_open_interest r)) <$> p.1 = Ok ([0], [None]) ∧
  ∀ res, p = (Ok res, p.2) → p.2 = mkWorld range_store None 0%nat 0%nat.
Proof.
  intros q p. split; [by vm_compute|]. intros res Hp.
  pose proof (get_candle_range_exact id range_config q range_store 0 0 range_store_inv range_config_registered) as H.
  fold p in H. rewrite Hp in H. apply H.
Defined.

(** A bound that [sqlite3] cannot bind: 2^63 rounded up to the next minute. *)
Example overflowing_range :
  exn_cls <$> match (run (get_candle_range id range_config (mkRangeRequest "BTCUSDT.P" "1m" 0 9223372036854780000))
                       (mkWorld range_store None 0 0)).1 with Raise e => Some e | Ok _ => None end =
  Some ExcOverflowError.
Proof. by vm_compute. Qed.

Lemma get_historical_range_exact_witness :
  let q := mkHistoricalRequest "BTCUSDT.P" "1m" 0 60000 (String.concat "" (repeat "ab"%string 32)) in
  let p := run (get_historical_candle_range id range_config q) (mkWorld range_store None 0 0) in
  p = (Raise (Exn ExcCoverageStale
         "historical candle range no longer matches the audited market_data_hash"), p.2) ∧
  historical_refused id (enabled_streams range_config) range_store q ExcCoverageStale.
Proof.
  intros q p. assert (Hp : p = (Raise (Exn ExcCoverageStale
    "historical candle range no longer matches the audited market_data_hash"), p.2)) by (by vm_compute).
  split; [exact Hp|].
  pose proof (get_historical_range_exact id range_config q range_store 0 0 range_store_inv
                range_config_registered) as H.
  fold p in H. rewrite Hp in H. apply H.
Defined.
