(* ===== verification/HistoryPlanning.v ===== *)
(** * Planning of historical windows

    application/history_planning/: committed bounds of a stream and the audit of one of its
    ranges with its lifecycle state and provenance hash. *)

From S2P Require Import Prelude PyStr DecimalValues Timeframes Identity Gaps Candles StreamState.
From S2P Require Import Instruments OpenInterest Storage AbsStore Ingest ImportWindow UseCase.
From S2P Require Import Backfill FullBootstrap LowerBound Repair OpenInterestTrack Provenance ConsumerRead.

Record StreamBoundsResult := mkBounds {
  sb_stream : StreamKey;
  sb_state : string;
  sb_earliest_committed_open_time_ms : option Z;
  sb_latest_committed_open_time_ms : option Z
}.

Record ContinuityAuditResult := mkAuditResult {
  ca_stream : StreamKey;
  ca_checked_start_ms : Z;
  ca_checked_end_ms : Z;
  ca_candle_count : Z;
  ca_is_continuous : bool;
  ca_gaps : list Gap;
  ca_state : string;
  ca_market_data_hash : option string
}.

(** [_intersection] *)
Definition intersection (candles open_interest : option Z * option Z) : option Z * option Z :=
  match candles, open_interest with
  | (Some candle_earliest, Some candle_latest), (Some oi_earliest, Some oi_latest) =>
      let earliest := Z.max candle_earliest oi_earliest in
      let latest := Z.min candle_latest oi_latest in
      if latest <? earliest then (None, None) else (Some earliest, Some latest)
  | _, _ => (None, None)
  end.

(** [GetStreamBounds.execute] *)
Definition get_stream_bounds (open_interest_streams : list StreamKey) (k : StreamKey) :
    M StreamBoundsResult :=
  p ← with_uow (
    registered ← op (StreamExists k);
    _ ← lift (raise_if (negb registered) ExcUnknownStreamError
                ("stream is not registered: " +:+ stream_canonical_id k));
    bounds ← op (GetCommittedCandleBounds k);
    bounds ← (if bool_decide (k ∈ open_interest_streams) then
                progress ← op (GetTrackProgress k OPEN_INTEREST_TRACK);
                mret (intersection bounds (tp_earliest progress, tp_latest progress))
              else mret bounds);
    state ← op (GetStreamState k);
    mret (bounds, state));
  let '(bounds, state) := (p : option Z * option Z * StreamStateSnapshot) in
  mret (mkBounds k (lifecycle_value (ss_state state)) bounds.1 bounds.2).

(** [AuditStreamRange.execute]; [reader] says whether the use case was given a reader. *)
Definition audit_stream_range (sha256_hex : string → string) (reader : bool) (k : StreamKey)
    (start_time_ms end_time_ms : Z) : M ContinuityAuditResult :=
  request ← lift (AuditStreamContinuityRequest_new k start_time_ms end_time_ms);
  report ← audit_continuity candle_open_times request;
  state ← read_state k;
  market_data_hash ←
    (if is_continuous report && reader then
       snapshot ← read_snapshot k start_time_ms end_time_ms;
       mret (Some (canonical_market_data_hash sha256_hex k start_time_ms end_time_ms (rs_candles snapshot)))
     else mret None);
  mret (mkAuditResult k (checked_start_ms report) (checked_end_ms report) (candle_count report)
          (is_continuous report) (report_gaps report) (lifecycle_value (ss_state state))
          market_data_hash).

(** ** Properties *)

(** The bounds of the stored candles. *)
Definition candle_bounds (r : StreamRec) (b : option Z * option Z) : Prop :=
  (b = (None, None) ∧ sr_candles r = ∅) ∨
  ∃ lo hi, b = (Some lo, Some hi) ∧ is_Some (sr_candles r !! lo) ∧ is_Some (sr_candles r !! hi) ∧
    ∀ u, is_Some (sr_candles r !! u) → lo ≤ u ≤ hi.

Lemma committed_bounds_spec r :
  candle_bounds r (list_min (elements (dom (sr_candles r))), list_max (elements (dom (sr_candles r)))).
Proof.
  unfold candle_bounds. assert (Hdom : ∀ u, u ∈ elements (dom (sr_candles r)) ↔ is_Some (sr_candles r !! u))
    by (intros u; by rewrite elem_of_elements, elem_of_dom).
  destruct (list_min (elements (dom (sr_candles r)))) as [lo|] eqn:El.
  - apply list_min_spec in El as [Hlo Hmin]. destruct (list_max (elements (dom (sr_candles r)))) as [hi|] eqn:Eh.
    + apply list_max_spec in Eh as [Hhi Hmax]. right. exists lo, hi. split; [done|].
      rewrite <- !Hdom. split; [done|]. split; [done|]. intros u Hu%Hdom. auto.
    + destruct (elements (dom (sr_candles r))); [by apply elem_of_nil in Hlo|done].
  - apply list_min_none in El. left. rewrite El. split; [done|].
    apply map_empty. intros u. apply eq_None_not_Some. intros Hu%Hdom. rewrite El in Hu.
    by apply elem_of_nil in Hu.
Qed.

Lemma intersection_spec c o lo hi :
  intersection c o = (Some lo, Some hi) ↔
  ∃ cl ch ol oh, c = (Some cl, Some ch) ∧ o = (Some ol, Some oh) ∧ lo = Z.max cl ol ∧ hi = Z.min ch oh ∧ lo ≤ hi.
Proof.
  unfold intersection. split.
  - destruct c as [[cl|] [ch|]]; try done. destruct o as [[ol|] [oh|]]; try done. cbv zeta.
    destruct (Z.ltb_spec (Z.min ch oh) (Z.max cl ol)); [done|]. intros [= <- <-]. by exists cl, ch, ol, oh.
  - intros (cl & ch & ol & oh & -> & -> & -> & -> & H). cbv zeta.
    destruct (Z.ltb_spec (Z.min ch oh) (Z.max cl ol)); [lia|done].
Qed.

Lemma intersection_none c o :
  intersection c o = (None, None) ∨ ∃ lo hi, intersection c o = (Some lo, Some hi) ∧ lo ≤ hi.
Proof.
  unfold intersection. destruct c as [[cl|] [ch|]]; try by left. destruct o as [[ol|] [oh|]]; try by left.
  cbv zeta. destruct (Z.ltb_spec (Z.min ch oh) (Z.max cl ol)); [by left|right]. by eexists _, _.
Qed.

(** The bounds of a registered stream are the first and the last stored candle; for a stream
    that carries open interest they are intersected with the bounds of that track, both or
    neither and never crossed; an unregistered stream raises [UnknownStreamError]; nothing
    changes. *)
Theorem get_stream_bounds_exact `{E : Env} (oi_streams : list StreamKey) (k : StreamKey) (a : AbsStore)
    (t c : nat) :
  store_inv a → (∀ r, ab_streams a !! k = Some r → track_ok k r) →
  match run (get_stream_bounds oi_streams k) (mkWorld a None t c) with
  | (Ok res, w) => w = mkWorld a None t c ∧ ∃ r b,
      ab_streams a !! k = Some r ∧ candle_bounds r b ∧ sb_stream res = k ∧
      sb_state res = lifecycle_value (ss_state (sr_state r)) ∧
      (k ∉ oi_streams →
         (sb_earliest_committed_open_time_ms res, sb_latest_committed_open_time_ms res) = b) ∧
      (k ∈ oi_streams → ∀ lo hi,
         (sb_earliest_committed_open_time_ms res = Some lo ∧ sb_latest_committed_open_time_ms res = Some hi) ↔
         ∃ cl ch ol oh, b = (Some cl, Some ch) ∧ tp_earliest (track_of k r) = Some ol ∧
           tp_latest (track_of k r) = Some oh ∧ lo = Z.max cl ol ∧ hi = Z.min ch oh ∧ lo ≤ hi)
  | (Raise e, w) =>
      w = mkWorld a None t c ∧ ab_streams a !! k = None ∧ exn_cls e = ExcUnknownStreamError
  end.
Proof.
  intros Hi Htrack. unfold get_stream_bounds.
  rewrite run_bind, run_with_uow, run_bind, run_stream_exists, run_bind, run_lift.
  destruct (ab_streams a !! k) as [r|] eqn:Hr.
  2:{ rewrite bool_decide_eq_false_2 by (by intros [? ?]). done. }
  rewrite bool_decide_eq_true_2 by done. cbn [negb raise_if]. rewrite run_bind, run_op.
  cbn [store_step abs_storage]. unfold read_stream. rewrite Hr.
  set (b := (list_min _, list_max _)).
  pose proof (store_inv_lookup _ _ _ Hi Hr) as Hri. specialize (Htrack r eq_refl).
  cbn [mret res_ret]. rewrite run_bind. destruct (bool_decide (k ∈ oi_streams)) eqn:Ek; bool_hyps.
  - rewrite run_bind, run_op. cbn [store_step abs_storage]. unfold read_stream.
    rewrite Hr, abs_get_track, run_ret, run_bind, (run_get_state a k r), run_ret by (done || apply Hri).
    cbn [set_tx w_db w_ticks w_calls]. rewrite run_ret. split; [done|].
    exists r, b. split; [done|]. split; [apply committed_bounds_spec|]. do 2 (split; [done|]).
    split; [done|]. intros _ lo hi. cbn [sb_earliest_committed_open_time_ms sb_latest_committed_open_time_ms].
    pose proof (intersection_spec b (tp_earliest (track_of k r), tp_latest (track_of k r)) lo hi) as Hs.
    destruct (intersection _ _) as [x y]. cbn [fst snd]. split.
    + intros [-> ->]. destruct (proj1 Hs eq_refl) as (cl & ch & ol & oh & Hb & Ho & H). injection Ho as Ho1 Ho2.
      by exists cl, ch, ol, oh.
    + intros (cl & ch & ol & oh & Hb & Ho1 & Ho2 & H). destruct Hs as [_ Hs].
      assert ((x, y) = (Some lo, Some hi)) as [= -> ->]; [|done].
      apply Hs. exists cl, ch, ol, oh. by rewrite Ho1, Ho2.
  - rewrite run_ret, run_bind, (run_get_state a k r), run_ret by (done || apply Hri).
    cbn [set_tx w_db w_ticks w_calls]. rewrite run_ret. split; [done|].
    exists r, b. split; [done|]. split; [apply committed_bounds_spec|]. by split_and!.
Qed.

(** What an audit reports. *)
Lemma audit_stream_range_report `{E : Env} (sha256_hex : string → string) (reader : bool) (k : StreamKey)
    (from to : Z) (a : AbsStore) (r : StreamRec) (t c : nat) (res : ContinuityAuditResult)
    (w : World AbsStore) :
  store_inv a → ab_streams a !! k = Some r →
  run (audit_stream_range sha256_hex reader k from to) (mkWorld a None t c) = (Ok res, w) →
  w = mkWorld a None t c ∧ ca_state res = lifecycle_value (ss_state (sr_state r)) ∧
  (ca_is_continuous res = true ↔ ca_gaps res = []) ∧
  (ca_is_continuous res = true → complete_range k r from to) ∧
  (is_Some (ca_market_data_hash res) ↔ ca_is_continuous res = true ∧ reader = true) ∧
  (∀ h, ca_market_data_hash res = Some h → ∃ candles oi,
     range_content k r from to candles oi ∧
     map cc_open_time_ms candles = range_grid from to (stream_step k) ∧
     h = canonical_market_data_hash sha256_hex k from to candles) ∧
  from < to ∧ on_grid (stream_step k) from ∧ on_grid (stream_step k) to ∧
  (is_Some (ca_market_data_hash res) → bind_ints [from; to] = Ok ()).
Proof.
  intros Hi Hr. unfold audit_stream_range. intros (q & w1 & Hq & H)%run_bind_ok. injection Hq as Hq <-.
  apply AuditRequest_new_ok in Hq as (-> & Hlt & Hf & Ht).
  apply run_bind_ok in H as (report & w2 & Ha & H).
  eapply (run_audit candle_open_times candle_stored) in Ha as (-> & r' & Hr' & Hc & Hcov & _); [|done|done].
  cbn [au_stream au_start_time_ms au_end_time_ms] in *. assert (r' = r) as -> by congruence.
  apply run_bind_ok in H as (state & w3 & Hs & H). rewrite (run_read_state a t c k r) in Hs by done.
  injection Hs as <- <-. apply run_bind_ok in H as (h & w4 & Hh & H). injection H as <- <-. cbn.
  destruct (is_continuous report) eqn:Ec, reader; cbn [andb] in Hh.
  - apply run_bind_ok in Hh as (snap' & w5 & Hs5 & Hh).
    pose proof (read_snapshot_ok k a t c r Hi Hr from to snap' w5 Hs5) as Hb.
    destruct (run_read_snapshot k a t c r Hi Hr from to Hb) as (snap & Hsnap & Hst & Hcont).
    rewrite Hsnap in Hs5. injection Hs5 as <- <-.
    injection Hh as <- <-. specialize (Hcov eq_refl). split_and!; try done.
    intros h [= <-]. exists (rs_candles snap), (rs_open_interest snap). split; [done|]. split; [|done].
    rewrite (rc_times _ _ _ _ _ _ Hcont). apply range_times_complete; try done.
    by eapply store_inv_lookup.
  - injection Hh as <- <-. specialize (Hcov eq_refl). split_and!; try done;
      first [by intros [? ?]|by split; [intros [? ?]|intros [? ?]]].
  - injection Hh as <- <-. split_and!; try done;
      first [by intros [? ?]|by split; [intros [? ?]|intros [? ?]]].
  - injection Hh as <- <-. split_and!; try done;
      first [by intros [? ?]|by split; [intros [? ?]|intros [? ?]]].
Qed.

(** What is read of a range is determined by the store. *)
Lemma range_content_det k r from to l oi l' oi' :
  range_content k r from to l oi → range_content k r from to l' oi' → l = l'.
Proof.
  intros [H1 H2 _] [H3 H4 _]. rewrite <- H3 in H1. clear H3. revert l' H1 H4.
  induction H2 as [|c l (row & Hrow & Hc) HF IH]; intros [|c' l'] Ht HF'; cbn in Ht; try done.
  injection Ht as Ht Hl. apply Forall_cons in HF' as [(row' & Hrow' & Hc') HF']. f_equal; [|by apply IH].
  rewrite <- Ht in *. congruence.
Qed.

(** C26. A range that an audit found continuous can be read back with the hash the audit gave: the
    audited read of the same store, at any later time and whatever the lifecycle of the
    stream, returns every candle of the range under that hash. *)
Theorem audited_range_readable `{E : Env} (sha256_hex : string → string) (config : ValidatedMarketConfig)
    (tk tf : string) (k : StreamKey) (from to : Z) (a : AbsStore) (r : StreamRec)
    (t c t' c' : nat) (res : ContinuityAuditResult) (w : World AbsStore) :
  (∀ s, canonical_hash_format (sha256_hex s) = true) →
  store_inv a → ab_streams a !! k = Some r → 0 ≤ from →
  configured_stream (enabled_streams config) tk tf = Ok k →
  run (audit_stream_range sha256_hex true k from to) (mkWorld a None t c) = (Ok res, w) →
  ca_is_continuous res = true →
  ∃ h out, ca_market_data_hash res = Some h ∧
    run (get_historical_candle_range sha256_hex config (mkHistoricalRequest tk tf from to h))
      (mkWorld a None t' c') = (Ok out, mkWorld a None t' c') ∧
    cg_market_data_hash out = h ∧
    map cc_open_time_ms (cg_candles out) = range_grid from to (stream_step k).
Proof.
  intros Hsha Hi Hr H0 Hk Haudit Hc.
  apply (audit_stream_range_report sha256_hex true k from to a r) in Haudit as
    (_ & _ & _ & _ & Hh & Hcand & Hlt & Hf & Ht & Hb); [|done..].
  specialize (Hb (proj2 Hh (conj Hc eq_refl))).
  destruct (proj2 Hh (conj Hc eq_refl)) as [h Hh']. destruct (Hcand h Hh') as (candles & oi & Hcont & Hgrid & ->).
  destruct (run_read_snapshot k a t' c' r Hi Hr from to Hb) as (snap & Hsnap & _ & Hcont').
  assert (Heq : rs_candles snap = candles) by (by eapply range_content_det).
  eexists _, (mkRangeResult k from to _ (rs_candles snap) (rs_open_interest snap)).
  split; [exact Hh'|]. unfold get_historical_candle_range. cbn [hq_ticker hq_timeframe hq_from_ms hq_to_ms
    hq_expected_market_data_hash]. rewrite run_bind, run_lift, Hk, run_bind, run_lift.
  unfold canonical_market_data_hash at 1. rewrite Hsha. cbn [negb raise_if]. cbv zeta.
  assert (Hv : validate_requested_range from to (stream_step k) = Ok ()) by (by apply requested_range_ok).
  rewrite run_bind, run_lift, Hv, run_bind, Hsnap, run_bind, run_lift, Heq.
  assert (Hg : validate_complete_grid candles from to (stream_step k) = Ok ())
    by (apply complete_grid_ok; [apply stream_step_pos|done|done]).
  rewrite Hg, run_bind, run_lift, bool_decide_eq_true_2 by done. cbn [negb raise_if]. by rewrite run_ret.
Qed.

#[local] Existing Instance example_env.

Lemma get_stream_bounds_exact_witness :
  (run (get_stream_bounds [] example_stream) (mkWorld range_store None 0 0)).1 =
    Ok (mkBounds example_stream "ready" (Some 0) (Some 0)) ∧
  match run (get_stream_bounds [] example_stream) (mkWorld range_store None 0 0) with
  | (Ok res, w) => sb_stream res = example_stream
  | (Raise e, w) => exn_cls e = ExcUnknownStreamError
  end.
Proof.
  split; [by vm_compute|].
  pose proof (get_stream_bounds_exact [] example_stream range_store 0 0 range_store_inv) as H.
  destruct (run (get_stream_bounds [] example_stream) (mkWorld range_store None 0 0)) as [[res|e] w].
  - destruct H as (_ & r & b & H); [|apply H].
    intros r Hr. by injection Hr as <-; left.
  - apply H. intros r Hr. by injection Hr as <-; left.
Defined.

(** A digest of the right shape, for the example. *)
Definition example_digest (s : string) : string := String.concat "" (repeat "ab"%string 32).

Lemma audited_range_readable_witness :
  let p := run (audit_stream_range example_digest true example_stream 0 60000) (mkWorld range_store None 0 0) in
  (ca_is_continuous <$> p.1 = Ok true) ∧
  ∀ res, p = (Ok res, p.2) → ca_is_continuous res = true →
    ∃ h out, ca_market_data_hash res = Some h ∧
      run (get_historical_candle_range example_digest range_config
             (mkHistoricalRequest "BTCUSDT.P" "1m" 0 60000 h)) (mkWorld range_store None 7%nat 7%nat) =
        (Ok out, mkWorld range_store None 7%nat 7%nat) ∧
      cg_market_data_hash out = h ∧ map cc_open_time_ms (cg_candles out) = range_grid 0 60000 60000.
Proof.
  intros p. split; [by vm_compute|]. intros res Hp Hc.
  apply (audited_range_readable example_digest range_config "BTCUSDT.P" "1m" example_stream 0 60000
    range_store (default example_rec (ab_streams range_store !! example_stream)) 0 0 7 7 res p.2);
    [intros s; by vm_compute|apply range_store_inv|by vm_compute|done|by vm_compute|exact Hp|exact Hc].
Defined.
