(* ===== verification/RealtimeFacts.v ===== *)
(** * Realtime events, outcomes and the facts of a stream

    application/realtime/events.py, outcomes.py, frontier.py, supervisor_types.py and
    supervisor_state.py.  [RealtimeStreamFacts] is the record of the same name and
    [with_<field>] is [replace(facts, <field>=...)].  The dictionary from stream to facts
    is the list of its values in insertion order: the [stream] of a value is its key. *)

From S2P Require Import Prelude PyStr DecimalValues Timeframes Identity Candles.

(** ** events.py *)

Inductive RealtimeEvent :=
| Connected (connected_at_ms : Z)
| SubscriptionConfirmed (topics : list string) (observed_at_ms : Z)
| HeartbeatObserved (observed_at_ms : Z)
| CandleObserved (stream : StreamKey) (candle : ObservedCandle)
| TransportFailed (code detail : string) (observed_at_ms : Z)
| Disconnected (code : option Z) (reason : option string) (observed_at_ms : Z)
| ReconnectExhausted (attempts observed_at_ms : Z)
| Stopped (observed_at_ms : Z).

Inductive RecoveryReason :=
| STARTUP_RECONCILIATION | DISCONNECT | REASON_STALE | SEQUENCE_DISCONTINUITY
| REJECTED_OBSERVATION.

#[export] Instance RecoveryReason_eq_dec : EqDecision RecoveryReason.
Proof. solve_decision. Defined.

Definition recovery_reason_value (r : RecoveryReason) : string :=
  match r with
  | STARTUP_RECONCILIATION => "startup_reconciliation"
  | DISCONNECT => "disconnect"
  | REASON_STALE => "stale"
  | SEQUENCE_DISCONTINUITY => "sequence_discontinuity"
  | REJECTED_OBSERVATION => "rejected_observation"
  end.

Record RecoveryRequired := mkRecoveryRequired {
  rc_stream : StreamKey;
  rc_reason : RecoveryReason;
  rc_detected_at_ms : Z;
  rc_suspected_start_time_ms : option Z
}.

(** ** outcomes.py *)

Inductive RealtimeIngestionClassification :=
| RT_COMMITTED | RT_DUPLICATE | RT_CORRECTED | RT_REJECTED | RT_FAILED.

#[export] Instance RealtimeIngestionClassification_eq_dec : EqDecision RealtimeIngestionClassification.
Proof. solve_decision. Defined.

Definition rt_value (c : RealtimeIngestionClassification) : string :=
  match c with
  | RT_COMMITTED => "committed"
  | RT_DUPLICATE => "duplicate"
  | RT_CORRECTED => "corrected"
  | RT_REJECTED => "rejected"
  | RT_FAILED => "failed"
  end.

Record RealtimeIngestionOutcome := mkOutcome {
  ou_stream : StreamKey;
  ou_open_time_ms : Z;
  ou_classification : RealtimeIngestionClassification;
  ou_issue_codes : list string;
  ou_error_code : option string;
  ou_error_detail : option string
}.

(** ** frontier.py *)

(** [x or default] of an optional integer: zero is false too. *)
Definition int_or (x : option Z) (default : Z) : Z :=
  match x with Some v => if v =? 0 then default else v | None => default end.

Definition extend_frontier (previous : option Z) (open_time_ms : Z) (k : StreamKey) : Z :=
  match previous with
  | Some p =>
      if p + stream_step k <? open_time_ms then p else Z.max (int_or previous open_time_ms) open_time_ms
  | None => Z.max (int_or previous open_time_ms) open_time_ms
  end.

Definition advance_frontier (current restored_through : option Z) : option Z :=
  match current with
  | None => restored_through
  | Some c => Some (Z.max c (int_or restored_through c))
  end.

(** ** supervisor_types.py *)

Inductive RealtimeStreamStatus :=
| EXPECTED | SUBSCRIBED | LIVE | STALE | DISCONNECTED | RECOVERY_REQUIRED | RT_FAILED_STATUS
| STOPPED.

#[export] Instance RealtimeStreamStatus_eq_dec : EqDecision RealtimeStreamStatus.
Proof. solve_decision. Defined.

Definition realtime_status_value (s : RealtimeStreamStatus) : string :=
  match s with
  | EXPECTED => "expected"
  | SUBSCRIBED => "subscribed"
  | LIVE => "live"
  | STALE => "stale"
  | DISCONNECTED => "disconnected"
  | RECOVERY_REQUIRED => "recovery_required"
  | RT_FAILED_STATUS => "failed"
  | STOPPED => "stopped"
  end.

(** [StalePolicy.__post_init__]; the policy is its [grace_ms]. *)
Definition StalePolicy_new (grace_ms : Z) : res Z :=
  _ ← raise_if (grace_ms <? 0) ExcValueError "stale grace_ms must be non-negative";
  mret grace_ms.

Record RealtimeStreamFacts := mkFacts {
  f_stream : StreamKey;
  f_status : RealtimeStreamStatus;
  f_subscription_active : bool;
  f_last_transport_activity_ms : option Z;
  f_last_confirmed_observed_at_ms : option Z;
  f_last_confirmed_open_time_ms : option Z;
  f_last_successful_open_time_ms : option Z;
  f_last_checked_expected_open_ms : option Z;
  f_pending_expected_open_ms : option Z;
  f_last_ingestion_classification : option string;
  f_recovery_pending : bool;
  f_recovery_restored : bool;
  f_recovery_completed_at_ms : option Z;
  f_fatal_error_code : option string;
  f_open_interest_required : bool;
  f_last_open_interest_open_time_ms : option Z;
  f_expected_open_time_ms : option Z
}.

(** [replace(facts, field=v)], a field each. *)

Definition with_status (v : RealtimeStreamStatus) (f : RealtimeStreamFacts) :=
  mkFacts (f_stream f) v (f_subscription_active f) (f_last_transport_activity_ms f)
    (f_last_confirmed_observed_at_ms f) (f_last_confirmed_open_time_ms f)
    (f_last_successful_open_time_ms f) (f_last_checked_expected_open_ms f)
    (f_pending_expected_open_ms f) (f_last_ingestion_classification f) (f_recovery_pending f)
    (f_recovery_restored f) (f_recovery_completed_at_ms f) (f_fatal_error_code f)
    (f_open_interest_required f) (f_last_open_interest_open_time_ms f) (f_expected_open_time_ms f).
Definition with_subscription_active (v : bool) (f : RealtimeStreamFacts) :=
  mkFacts (f_stream f) (f_status f) v (f_last_transport_activity_ms f)
    (f_last_confirmed_observed_at_ms f) (f_last_confirmed_open_time_ms f)
    (f_last_successful_open_time_ms f) (f_last_checked_expected_open_ms f)
    (f_pending_expected_open_ms f) (f_last_ingestion_classification f) (f_recovery_pending f)
    (f_recovery_restored f) (f_recovery_completed_at_ms f) (f_fatal_error_code f)
    (f_open_interest_required f) (f_last_open_interest_open_time_ms f) (f_expected_open_time_ms f).
Definition with_last_transport_activity_ms (v : option Z) (f : RealtimeStreamFacts) :=
  mkFacts (f_stream f) (f_status f) (f_subscription_active f) v
    (f_last_confirmed_observed_at_ms f) (f_last_confirmed_open_time_ms f)
    (f_last_successful_open_time_ms f) (f_last_checked_expected_open_ms f)
    (f_pending_expected_open_ms f) (f_last_ingestion_classification f) (f_recovery_pending f)
    (f_recovery_restored f) (f_recovery_completed_at_ms f) (f_fatal_error_code f)
    (f_open_interest_required f) (f_last_open_interest_open_time_ms f) (f_expected_open_time_ms f).
Definition with_last_confirmed_observed_at_ms (v : option Z) (f : RealtimeStreamFacts) :=
  mkFacts (f_stream f) (f_status f) (f_subscription_active f) (f_last_transport_activity_ms f) v
    (f_last_confirmed_open_time_ms f) (f_last_successful_open_time_ms f)
    (f_last_checked_expected_open_ms f) (f_pending_expected_open_ms f)
    (f_last_ingestion_classification f) (f_recovery_pending f) (f_recovery_restored f)
    (f_recovery_completed_at_ms f) (f_fatal_error_code f) (f_open_interest_required f)
    (f_last_open_interest_open_time_ms f) (f_expected_open_time_ms f).
Definition with_last_confirmed_open_time_ms (v : option Z) (f : RealtimeStreamFacts) :=
  mkFacts (f_stream f) (f_status f) (f_subscription_active f) (f_last_transport_activity_ms f)
    (f_last_confirmed_observed_at_ms f) v (f_last_successful_open_time_ms f)
    (f_last_checked_expected_open_ms f) (f_pending_expected_open_ms f)
    (f_last_ingestion_classification f) (f_recovery_pending f) (f_recovery_restored f)
    (f_recovery_completed_at_ms f) (f_fatal_error_code f) (f_open_interest_required f)
    (f_last_open_interest_open_time_ms f) (f_expected_open_time_ms f).
Definition with_last_successful_open_time_ms (v : option Z) (f : RealtimeStreamFacts) :=
  mkFacts (f_stream f) (f_status f) (f_subscription_active f) (f_last_transport_activity_ms f)
    (f_last_confirmed_observed_at_ms f) (f_last_confirmed_open_time_ms f) v
    (f_last_checked_expected_open_ms f) (f_pending_expected_open_ms f)
    (f_last_ingestion_classification f) (f_recovery_pending f) (f_recovery_restored f)
    (f_recovery_completed_at_ms f) (f_fatal_error_code f) (f_open_interest_required f)
    (f_last_open_interest_open_time_ms f) (f_expected_open_time_ms f).
Definition with_last_checked_expected_open_ms (v : option Z) (f : RealtimeStreamFacts) :=
  mkFacts (f_stream f) (f_status f) (f_subscription_active f) (f_last_transport_activity_ms f)
    (f_last_confirmed_observed_at_ms f) (f_last_confirmed_open_time_ms f)
    (f_last_successful_open_time_ms f) v (f_pending_expected_open_ms f)
    (f_last_ingestion_classification f) (f_recovery_pending f) (f_recovery_restored f)
    (f_recovery_completed_at_ms f) (f_fatal_error_code f) (f_open_interest_required f)
    (f_last_open_interest_open_time_ms f) (f_expected_open_time_ms f).
Definition with_pending_expected_open_ms (v : option Z) (f : RealtimeStreamFacts) :=
  mkFacts (f_stream f) (f_status f) (f_subscription_active f) (f_last_transport_activity_ms f)
    (f_last_confirmed_observed_at_ms f) (f_last_confirmed_open_time_ms f)
    (f_last_successful_open_time_ms f) (f_last_checked_expected_open_ms f) v
    (f_last_ingestion_classification f) (f_recovery_pending f) (f_recovery_restored f)
    (f_recovery_completed_at_ms f) (f_fatal_error_code f) (f_open_interest_required f)
    (f_last_open_interest_open_time_ms f) (f_expected_open_time_ms f).
Definition with_last_ingestion_classification (v : option string) (f : RealtimeStreamFacts) :=
  mkFacts (f_stream f) (f_status f) (f_subscription_active f) (f_last_transport_activity_ms f)
    (f_last_confirmed_observed_at_ms f) (f_last_confirmed_open_time_ms f)
    (f_last_successful_open_time_ms f) (f_last_checked_expected_open_ms f)
    (f_pending_expected_open_ms f) v (f_recovery_pending f) (f_recovery_restored f)
    (f_recovery_completed_at_ms f) (f_fatal_error_code f) (f_open_interest_required f)
    (f_last_open_interest_open_time_ms f) (f_expected_open_time_ms f).
Definition with_recovery_pending (v : bool) (f : RealtimeStreamFacts) :=
  mkFacts (f_stream f) (f_status f) (f_subscription_active f) (f_last_transport_activity_ms f)
    (f_last_confirmed_observed_at_ms f) (f_last_confirmed_open_time_ms f)
    (f_last_successful_open_time_ms f) (f_last_checked_expected_open_ms f)
    (f_pending_expected_open_ms f) (f_last_ingestion_classification f) v (f_recovery_restored f)
    (f_recovery_completed_at_ms f) (f_fatal_error_code f) (f_open_interest_required f)
    (f_last_open_interest_open_time_ms f) (f_expected_open_time_ms f).
Definition with_recovery_restored (v : bool) (f : RealtimeStreamFacts) :=
  mkFacts (f_stream f) (f_status f) (f_subscription_active f) (f_last_transport_activity_ms f)
    (f_last_confirmed_observed_at_ms f) (f_last_confirmed_open_time_ms f)
    (f_last_successful_open_time_ms f) (f_last_checked_expected_open_ms f)
    (f_pending_expected_open_ms f) (f_last_ingestion_classification f) (f_recovery_pending f) v
    (f_recovery_completed_at_ms f) (f_fatal_error_code f) (f_open_interest_required f)
    (f_last_open_interest_open_time_ms f) (f_expected_open_time_ms f).
Definition with_recovery_completed_at_ms (v : option Z) (f : RealtimeStreamFacts) :=
  mkFacts (f_stream f) (f_status f) (f_subscription_active f) (f_last_transport_activity_ms f)
    (f_last_confirmed_observed_at_ms f) (f_last_confirmed_open_time_ms f)
    (f_last_successful_open_time_ms f) (f_last_checked_expected_open_ms f)
    (f_pending_expected_open_ms f) (f_last_ingestion_classification f) (f_recovery_pending f)
    (f_recovery_restored f) v (f_fatal_error_code f) (f_open_interest_required f)
    (f_last_open_interest_open_time_ms f) (f_expected_open_time_ms f).
Definition with_fatal_error_code (v : option string) (f : RealtimeStreamFacts) :=
  mkFacts (f_stream f) (f_status f) (f_subscription_active f) (f_last_transport_activity_ms f)
    (f_last_confirmed_observed_at_ms f) (f_last_confirmed_open_time_ms f)
    (f_last_successful_open_time_ms f) (f_last_checked_expected_open_ms f)
    (f_pending_expected_open_ms f) (f_last_ingestion_classification f) (f_recovery_pending f)
    (f_recovery_restored f) (f_recovery_completed_at_ms f) v (f_open_interest_required f)
    (f_last_open_interest_open_time_ms f) (f_expected_open_time_ms f).
Definition with_open_interest_required (v : bool) (f : RealtimeStreamFacts) :=
  mkFacts (f_stream f) (f_status f) (f_subscription_active f) (f_last_transport_activity_ms f)
    (f_last_confirmed_observed_at_ms f) (f_last_confirmed_open_time_ms f)
    (f_last_successful_open_time_ms f) (f_last_checked_expected_open_ms f)
    (f_pending_expected_open_ms f) (f_last_ingestion_classification f) (f_recovery_pending f)
    (f_recovery_restored f) (f_recovery_completed_at_ms f) (f_fatal_error_code f) v
    (f_last_open_interest_open_time_ms f) (f_expected_open_time_ms f).
Definition with_last_open_interest_open_time_ms (v : option Z) (f : RealtimeStreamFacts) :=
  mkFacts (f_stream f) (f_status f) (f_subscription_active f) (f_last_transport_activity_ms f)
    (f_last_confirmed_observed_at_ms f) (f_last_confirmed_open_time_ms f)
    (f_last_successful_open_time_ms f) (f_last_checked_expected_open_ms f)
    (f_pending_expected_open_ms f) (f_last_ingestion_classification f) (f_recovery_pending f)
    (f_recovery_restored f) (f_recovery_completed_at_ms f) (f_fatal_error_code f)
    (f_open_interest_required f) v (f_expected_open_time_ms f).
Definition with_expected_open_time_ms (v : option Z) (f : RealtimeStreamFacts) :=
  mkFacts (f_stream f) (f_status f) (f_subscription_active f) (f_last_transport_activity_ms f)
    (f_last_confirmed_observed_at_ms f) (f_last_confirmed_open_time_ms f)
    (f_last_successful_open_time_ms f) (f_last_checked_expected_open_ms f)
    (f_pending_expected_open_ms f) (f_last_ingestion_classification f) (f_recovery_pending f)
    (f_recovery_restored f) (f_recovery_completed_at_ms f) (f_fatal_error_code f)
    (f_open_interest_required f) (f_last_open_interest_open_time_ms f) v.

Definition continuity_frontier_ms (f : RealtimeStreamFacts) : option Z :=
  if negb (f_open_interest_required f) then f_last_successful_open_time_ms f
  else match f_last_successful_open_time_ms f, f_last_open_interest_open_time_ms f with
       | Some candle, Some oi => Some (Z.min candle oi)
       | _, _ => None
       end.

Definition current (f : RealtimeStreamFacts) : bool :=
  match f_expected_open_time_ms f, continuity_frontier_ms f with
  | Some expected, Some frontier => expected <=? frontier
  | _, _ => false
  end.

Definition data_ready (f : RealtimeStreamFacts) : bool :=
  f_subscription_active f && f_recovery_restored f && negb (f_recovery_pending f)
  && bool_decide (f_fatal_error_code f = None) && current f.

Definition published_through (f : RealtimeStreamFacts) (open_time_ms : Z) : bool :=
  match continuity_frontier_ms f with
  | Some frontier => data_ready f && (open_time_ms <=? frontier)
  | None => false
  end.

Definition realtime_live (f : RealtimeStreamFacts) : bool :=
  data_ready f && bool_decide (f_status f = LIVE)
  && match f_recovery_completed_at_ms f, f_last_confirmed_observed_at_ms f with
     | Some completed, Some observed => completed <=? observed
     | _, _ => false
     end.

(** ** supervisor_state.py *)

Definition FactsDict : Type := list RealtimeStreamFacts.

Definition find_facts (d : FactsDict) (k : StreamKey) : option RealtimeStreamFacts :=
  List.find (λ f, bool_decide (f_stream f = k)) d.

(** [str(KeyError(stream))] *)
Definition stream_repr (k : StreamKey) : string :=
  "StreamKey(instrument=InstrumentKey(ticker=" +:+ repr (ticker (instrument k))
  +:+ "), timeframe=" +:+ repr (tf_id (timeframe k)) +:+ ")".

(** [self._facts[stream]] *)
Definition get_facts (d : FactsDict) (k : StreamKey) : res RealtimeStreamFacts :=
  match find_facts d k with
  | Some f => Ok f
  | None => raise ExcKeyError (stream_repr k)
  end.

(** [facts = self._facts[stream]; self._facts[stream] = change(facts)] *)
Definition update_facts (k : StreamKey) (change : RealtimeStreamFacts → RealtimeStreamFacts)
    (d : FactsDict) : res FactsDict :=
  _ ← get_facts d k;
  mret (map (λ f, if bool_decide (f_stream f = k) then change f else f) d).

(** The keys of a dictionary built in the order of a sequence: each at its first place. *)
Definition dict_order (ks : list StreamKey) : list StreamKey :=
  fold_left (λ seen k, if bool_decide (k ∈ seen) then seen else seen ++ [k]) ks [].

(** [RealtimeSupervisorState.__init__]; a mapping without the key has [None] for it. *)
Definition initial_facts (streams : list StreamKey) (initial initial_oi : gmap StreamKey (option Z)) :
    res FactsDict :=
  _ ← raise_if (bool_decide (streams = [])) ExcValueError
        "at least one realtime stream is required";
  mret (map (λ k,
    mkFacts k EXPECTED false None None None (mjoin (initial !! k)) None None None false false None
      None (bool_decide (is_Some (initial_oi !! k))) (mjoin (initial_oi !! k)) None)
    (dict_order streams)).

Definition subscribe (observed_at_ms : Z) (f : RealtimeStreamFacts) : RealtimeStreamFacts :=
  with_status SUBSCRIBED (with_subscription_active true
    (with_last_transport_activity_ms (Some observed_at_ms) f)).

Definition observe_candle (c : ObservedCandle) (f : RealtimeStreamFacts) : RealtimeStreamFacts :=
  with_last_transport_activity_ms (Some (oc_observed_at_ms c))
    (if oc_confirmed c
     then with_last_confirmed_observed_at_ms (Some (oc_observed_at_ms c))
            (with_last_confirmed_open_time_ms (Some (oc_open_time_ms c)) f)
     else f).

Definition record_success (o : RealtimeIngestionOutcome) (f : RealtimeStreamFacts) :
    RealtimeStreamFacts :=
  with_status LIVE
    (with_last_successful_open_time_ms
       (Some (extend_frontier (f_last_successful_open_time_ms f) (ou_open_time_ms o) (ou_stream o)))
       (with_last_ingestion_classification (Some (rt_value (ou_classification o))) f)).

Definition synchronize_successful (open_time_ms : Z) (f : RealtimeStreamFacts) : RealtimeStreamFacts :=
  with_last_successful_open_time_ms
    (Some (Z.max (int_or (f_last_successful_open_time_ms f) open_time_ms) open_time_ms)) f.

Definition record_rejected (o : RealtimeIngestionOutcome) (f : RealtimeStreamFacts) :
    RealtimeStreamFacts :=
  with_status RECOVERY_REQUIRED
    (with_last_ingestion_classification (Some (rt_value (ou_classification o)))
       (with_recovery_pending true (with_recovery_restored false f))).

(** [x or default] of an optional string. *)
Definition str_or (x : option string) (default : string) : string :=
  match x with Some s => if bool_decide (s = ""%string) then default else s | None => default end.

Definition record_failed (o : RealtimeIngestionOutcome) (f : RealtimeStreamFacts) :
    RealtimeStreamFacts :=
  with_status RT_FAILED_STATUS
    (with_last_ingestion_classification (Some (rt_value (ou_classification o)))
       (with_fatal_error_code (Some (str_or (ou_error_code o) "realtime_ingestion_failed")) f)).

Definition require_recovery (status : RealtimeStreamStatus) (pending_expected : option Z)
    (f : RealtimeStreamFacts) : RealtimeStreamFacts :=
  with_status status (with_recovery_pending true (with_recovery_restored false
    (with_pending_expected_open_ms
       (match pending_expected with Some p => Some p | None => f_pending_expected_open_ms f end) f))).

Definition commit_checked (f : RealtimeStreamFacts) : option Z :=
  match f_pending_expected_open_ms f, f_last_checked_expected_open_ms f with
  | None, checked => checked
  | Some pending, None => Some pending
  | Some pending, Some checked => Some (Z.max checked pending)
  end.

Definition record_recovery_facts (restored fatal : bool) (completed_at_ms : Z)
    (restored_through : option Z) (f : RealtimeStreamFacts) : RealtimeStreamFacts :=
  if fatal then
    with_status RT_FAILED_STATUS (with_recovery_pending false (with_recovery_restored false
      (with_fatal_error_code (Some "recovery_fatal_failure"%string) f)))
  else
    with_status (if restored && f_subscription_active f then SUBSCRIBED else RECOVERY_REQUIRED)
    (with_recovery_pending (negb restored)
    (with_recovery_restored restored
    (with_recovery_completed_at_ms (if restored then Some completed_at_ms else None)
    (with_last_checked_expected_open_ms
       (if restored then commit_checked f else f_last_checked_expected_open_ms f)
    (with_pending_expected_open_ms (if restored then None else f_pending_expected_open_ms f)
    (with_last_successful_open_time_ms
       (if restored
        then Some (int_or (advance_frontier (f_last_successful_open_time_ms f) restored_through) 0)
        else f_last_successful_open_time_ms f)
    (with_last_open_interest_open_time_ms
       (if restored && f_open_interest_required f
        then advance_frontier (f_last_open_interest_open_time_ms f) restored_through
        else f_last_open_interest_open_time_ms f) f))))))).

Definition mark_disconnected (observed_at_ms : Z) (f : RealtimeStreamFacts) : RealtimeStreamFacts :=
  with_status DISCONNECTED (with_subscription_active false
    (with_last_transport_activity_ms (Some observed_at_ms) (with_recovery_restored false f))).

Definition mark_stopped (observed_at_ms : Z) (f : RealtimeStreamFacts) : RealtimeStreamFacts :=
  with_status STOPPED (with_subscription_active false
    (with_last_transport_activity_ms (Some observed_at_ms) f)).

Definition touch (observed_at_ms : Z) (f : RealtimeStreamFacts) : RealtimeStreamFacts :=
  with_last_transport_activity_ms (Some observed_at_ms) f.

Definition touch_subscribed (observed_at_ms : Z) (f : RealtimeStreamFacts) : RealtimeStreamFacts :=
  if f_subscription_active f then touch observed_at_ms f else f.
