(* ===== verification/Supervisor.v ===== *)
(** * The realtime supervisor

    application/realtime/supervisor.py.  A method is a computation [SM] on the supervisor:
    it may raise, and what it changed before raising stays changed.  [clock] is the
    injected [now_ms], read once per call.

    The theorems run the supervisor with the stores it reports on: [system_step]
    interleaves its methods with commits of rows, and [honest] is what the callers
    guarantee when they report a commit or a restored recovery. *)

From stdpp Require Import relations.
From S2P Require Import Prelude PyStr DecimalValues Timeframes Identity Gaps Candles RealtimeFacts.

Record Supervisor := mkSupervisor {
  sv_facts : FactsDict;
  sv_disconnected : bool;
  sv_ticks : nat
}.

Definition SM (A : Type) : Type := Supervisor → res A * Supervisor.

#[export] Instance SM_ret : MRet SM := λ A a s, (Ok a, s).
#[export] Instance SM_bind : MBind SM := λ A B f m s,
  match m s with (Ok a, s') => f a s' | (Raise e, s') => (Raise e, s') end.

Definition sm_lift {A} (r : res A) : SM A := λ s, (r, s).

Definition sm_get {A} (f : Supervisor → A) : SM A := λ s, (Ok (f s), s).

(** [self._facts[stream]] and its update through [RealtimeSupervisorState]. *)
Definition sm_facts (k : StreamKey) : SM RealtimeStreamFacts := λ s, (get_facts (sv_facts s) k, s).
Definition sm_update (k : StreamKey) (change : RealtimeStreamFacts → RealtimeStreamFacts) : SM () :=
  λ s, match update_facts k change (sv_facts s) with
       | Ok d => (Ok (), mkSupervisor d (sv_disconnected s) (sv_ticks s))
       | Raise e => (Raise e, s)
       end.
Definition sm_update_all (change : RealtimeStreamFacts → RealtimeStreamFacts) : SM () := λ s,
  (Ok (), mkSupervisor (map change (sv_facts s)) (sv_disconnected s) (sv_ticks s)).
Definition sm_set_disconnected (b : bool) : SM () := λ s,
  (Ok (), mkSupervisor (sv_facts s) b (sv_ticks s)).

(** A loop that collects signals. *)
Fixpoint sm_collect {A B} (f : A → SM (list B)) (l : list A) : SM (list B) :=
  match l with
  | [] => mret []
  | x :: l => here ← f x; rest ← sm_collect f l; mret (here ++ rest)
  end.

Section supervisor.
Context (topic_to_stream : gmap string StreamKey) (clock : nat → Z) (grace_ms : Z).

Definition sm_now : SM Z := λ s,
  (Ok (clock (sv_ticks s)), mkSupervisor (sv_facts s) (sv_disconnected s) (S (sv_ticks s))).

(** [_signal] *)
Definition signal (k : StreamKey) (reason : RecoveryReason) (suspected : option Z) :
    SM (list RecoveryRequired) :=
  facts ← sm_facts k;
  let suspected := match continuity_frontier_ms facts with
                   | Some frontier =>
                       let proven_next := frontier + stream_step k in
                       Some (Z.min (int_or suspected proven_next) proven_next)
                   | None => suspected
                   end in
  detected_at_ms ← sm_now;
  mret [mkRecoveryRequired k reason detected_at_ms suspected].

Definition expected_open_ms (k : StreamKey) (now : Z) : res Z :=
  aligned ← align_to_grid (now - grace_ms) (stream_step k);
  mret (aligned - stream_step k).

(** [_subscriptions_confirmed] *)
Definition confirm_topic (restored_after_disconnect : bool) (observed_at_ms : Z) (topic : string) :
    SM (list RecoveryRequired) :=
  k ← sm_lift (match topic_to_stream !! topic with
               | Some k => Ok k
               | None => raise ExcKeyError (repr topic)
               end);
  _ ← sm_update k (subscribe observed_at_ms);
  if restored_after_disconnect then
    _ ← sm_update k (require_recovery RECOVERY_REQUIRED None);
    signal k DISCONNECT None
  else mret [].

Definition subscriptions_confirmed (topics : list string) (observed_at_ms : Z) :
    SM (list RecoveryRequired) :=
  restored_after_disconnect ← sm_get sv_disconnected;
  _ ← sm_set_disconnected false;
  sm_collect (confirm_topic restored_after_disconnect observed_at_ms) topics.

Definition observe_event (event : RealtimeEvent) : SM (list RecoveryRequired) :=
  match event with
  | Connected t => _ ← sm_update_all (touch t); mret []
  | SubscriptionConfirmed topics t => subscriptions_confirmed topics t
  | HeartbeatObserved t => _ ← sm_update_all (touch_subscribed t); mret []
  | CandleObserved k candle => _ ← sm_update k (observe_candle candle); mret []
  | TransportFailed _ _ t | Disconnected _ _ t | ReconnectExhausted _ t =>
      _ ← sm_set_disconnected true;
      _ ← sm_update_all (mark_disconnected t);
      mret []
  | Stopped t => _ ← sm_update_all (mark_stopped t); mret []
  end.

(** What follows a live point of either track: a gap asks for a recovery. *)
Definition gap_signal (k : StreamKey) (previous : option Z) (open_time_ms : Z) :
    SM (list RecoveryRequired) :=
  match previous with
  | Some p =>
      if p + stream_step k <? open_time_ms then
        _ ← sm_update k (require_recovery RECOVERY_REQUIRED None);
        signal k SEQUENCE_DISCONTINUITY (Some (p + stream_step k))
      else mret []
  | None => mret []
  end.

Definition observe_outcome (o : RealtimeIngestionOutcome) : SM (list RecoveryRequired) :=
  match ou_classification o with
  | RT_FAILED => _ ← sm_update (ou_stream o) (record_failed o); mret []
  | RT_REJECTED =>
      _ ← sm_update (ou_stream o) (record_rejected o);
      signal (ou_stream o) REJECTED_OBSERVATION (Some (ou_open_time_ms o))
  | _ =>
      facts ← sm_facts (ou_stream o);
      _ ← sm_update (ou_stream o) (record_success o);
      gap_signal (ou_stream o) (f_last_successful_open_time_ms facts) (ou_open_time_ms o)
  end.

(** The changes of the open interest frontier, computed from the facts they change. *)
Definition extend_open_interest (k : StreamKey) (open_time_ms : Z) (f : RealtimeStreamFacts) :
    RealtimeStreamFacts :=
  with_last_open_interest_open_time_ms
    (Some (extend_frontier (f_last_open_interest_open_time_ms f) open_time_ms k)) f.

Definition synchronize_open_interest (open_time_ms : Z) (f : RealtimeStreamFacts) :
    RealtimeStreamFacts :=
  with_last_open_interest_open_time_ms
    (Some (Z.max (int_or (f_last_open_interest_open_time_ms f) open_time_ms) open_time_ms)) f.

Definition observe_open_interest (k : StreamKey) (open_time_ms : Z) : SM (list RecoveryRequired) :=
  facts ← sm_facts k;
  _ ← sm_update k (extend_open_interest k open_time_ms);
  gap_signal k (f_last_open_interest_open_time_ms facts) open_time_ms.

(** [if facts.fatal_error_code:] *)
Definition truthy (x : option string) : bool :=
  match x with Some s => negb (bool_decide (s = ""%string)) | None => false end.

(** The body of the loop of [detect_stale]. *)
Definition stale_signal (observed_now : Z) (f : RealtimeStreamFacts) : SM (list RecoveryRequired) :=
  if negb (f_subscription_active f) || f_recovery_pending f || truthy (f_fatal_error_code f)
  then mret []
  else match continuity_frontier_ms f with
  | None => mret []
  | Some frontier =>
      let k := f_stream f in
      expected ← sm_lift (expected_open_ms k observed_now);
      if expected <=? frontier then mret []
      else if match f_last_checked_expected_open_ms f with
              | Some checked => expected <=? checked
              | None => false
              end
      then mret []
      else
        _ ← sm_update k (require_recovery STALE (Some expected));
        signal k REASON_STALE (Some (frontier + stream_step k))
  end.

Definition detect_stale (now : option Z) : SM (list RecoveryRequired) :=
  observed_now ← match now with Some t => mret t | None => sm_now end;
  all ← sm_get sv_facts;
  sm_collect (stale_signal observed_now) all.

Definition record_recovery_result (k : StreamKey) (restored fatal : bool) (restored_through : option Z) :
    SM () :=
  completed_at_ms ← sm_now;
  sm_update k (record_recovery_facts restored fatal completed_at_ms restored_through).

Definition synchronize_successful_open_time (k : StreamKey) (open_time_ms : Z) : SM () :=
  sm_update k (synchronize_successful open_time_ms).

Definition synchronize_open_interest_open_time (k : StreamKey) (open_time_ms : Z) : SM () :=
  sm_update k (synchronize_open_interest open_time_ms).

Definition as_of_now (f : RealtimeStreamFacts) : SM RealtimeStreamFacts :=
  now ← sm_now;
  expected ← sm_lift (expected_open_ms (f_stream f) now);
  mret (with_expected_open_time_ms (Some expected) f).

Definition supervisor_facts (k : StreamKey) : SM RealtimeStreamFacts :=
  f ← sm_facts k;
  as_of_now f.

Definition all_facts : SM (list RealtimeStreamFacts) :=
  all ← sm_get sv_facts;
  sm_collect (λ f, f ← as_of_now f; mret [f]) all.
End supervisor.

(** [RealtimeSupervisor.__init__] *)
Definition Supervisor_new (streams : list StreamKey) (initial initial_oi : gmap StreamKey (option Z)) :
    res Supervisor :=
  d ← initial_facts streams initial initial_oi;
  mret (mkSupervisor d false 0).

(** ** Facts: what a method does to the facts of each stream *)

Lemma find_facts_stream d k f : find_facts d k = Some f → f_stream f = k.
Proof. intros H. apply List.find_some in H as [_ H]. by apply bool_decide_eq_true in H. Qed.

Lemma find_facts_none d k : find_facts d k = None → Forall (λ f, f_stream f ≠ k) d.
Proof.
  unfold find_facts. induction d as [|f d IH]; cbn; [done|]. case_bool_decide; [done|].
  intros H'. constructor; auto.
Qed.

Lemma Forall2_map_self {A} (R : A → A → Prop) (g : A → A) l : (∀ x, R x (g x)) → Forall2 R l (map g l).
Proof. intros H. induction l; cbn; auto. Qed.

Lemma find_facts_map g d k :
  (∀ f, f_stream (g f) = f_stream f) → find_facts (map g d) k = g <$> find_facts d k.
Proof.
  intros Hg. unfold find_facts. induction d as [|f d IH]; cbn; [done|]. rewrite Hg.
  by destruct (bool_decide (f_stream f = k)).
Qed.

(** The state after a method that may raise. *)
Definition after {A} (m : SM A) (s : Supervisor) : FactsDict := sv_facts (m s).2.

Section relations.
Context (R : RealtimeStreamFacts → RealtimeStreamFacts → Prop).

(** Whatever the method returns or raises, the facts of every stream move by [R]. *)
Definition moves {A} (m : SM A) : Prop := ∀ s, Forall2 R (sv_facts s) (after m s).

Context `{!Reflexive R} `{!Transitive R}.

Lemma moves_same {A} (m : SM A) : (∀ s, after m s = sv_facts s) → moves m.
Proof. intros H s. by rewrite H. Qed.

Lemma moves_bind {A B} (m : SM A) (f : A → SM B) :
  moves m → (∀ a, moves (f a)) → moves (x ← m; f x).
Proof.
  intros Hm Hf s. specialize (Hm s). unfold after, mbind, SM_bind in *.
  destruct (m s) as [[a|e] s']; [|done]. etrans; [exact Hm|apply Hf].
Qed.

Lemma moves_update k change : (∀ f, f_stream f = k → R f (change f)) → moves (sm_update k change).
Proof.
  intros H s. unfold after, sm_update, update_facts. destruct (get_facts _ _) as [f|e]; [|done].
  apply Forall2_map_self. intros g. case_bool_decide; [by apply H|done].
Qed.

Lemma moves_update_all change : (∀ f, R f (change f)) → moves (sm_update_all change).
Proof. intros H s. by apply Forall2_map_self. Qed.

Lemma moves_collect {A B} (f : A → SM (list B)) l : (∀ x, moves (f x)) → moves (sm_collect f l).
Proof.
  intros H. induction l as [|x l IH]; cbn [sm_collect]; [by apply moves_same|].
  apply moves_bind; [apply H|]. intros here. apply moves_bind; [exact IH|]. intros rest. by apply moves_same.
Qed.

Lemma moves_signal clock k reason suspected : moves (signal clock k reason suspected).
Proof.
  apply moves_bind; [by apply moves_same|]. intros f.
  apply moves_bind; [by apply moves_same|]. intros t. by apply moves_same.
Qed.
End relations.

(** The same stream before and after. *)
Lemma Forall2_find_facts (R : RealtimeStreamFacts → RealtimeStreamFacts → Prop) d d' k :
  (∀ f f', R f f' → f_stream f' = f_stream f) → Forall2 R d d' →
  match find_facts d k, find_facts d' k with
  | Some f, Some f' => R f f'
  | None, None => True
  | _, _ => False
  end.
Proof.
  intros HR. unfold find_facts. induction 1 as [|f f' d d' Hf _ IH]; cbn; [done|].
  rewrite (HR _ _ Hf). by destruct (bool_decide (f_stream f = k)).
Qed.

(** *** The methods that move no frontier *)

Inductive Track := CANDLES | OPEN_INTEREST.

#[export] Instance Track_eq_dec : EqDecision Track.
Proof. solve_decision. Defined.

Definition frontier (tr : Track) (f : RealtimeStreamFacts) : option Z :=
  match tr with
  | CANDLES => f_last_successful_open_time_ms f
  | OPEN_INTEREST => f_last_open_interest_open_time_ms f
  end.

(** A wanted recovery stays wanted, what is not restored stays so, and a fatal error stays. *)
Record gate_kept (f f' : RealtimeStreamFacts) : Prop := {
  gk_stream : f_stream f' = f_stream f;
  gk_required : f_open_interest_required f' = f_open_interest_required f;
  gk_pending : f_recovery_pending f = true → f_recovery_pending f' = true;
  gk_restored : f_recovery_restored f' = true → f_recovery_restored f = true;
  gk_fatal : f_fatal_error_code f' = None → f_fatal_error_code f = None
}.

Record quiet_facts (f f' : RealtimeStreamFacts) : Prop := {
  qf_gate : gate_kept f f';
  qf_frontier : ∀ tr, frontier tr f' = frontier tr f
}.

#[export] Instance gate_kept_preorder : PreOrder gate_kept.
Proof.
  split; [done|]. intros a b c [] []. split; try congruence; auto.
Qed.

#[export] Instance quiet_facts_preorder : PreOrder quiet_facts.
Proof.
  split; [done|]. intros a b c [H1 H2] [H3 H4]. split; [by etrans|]. intros tr. by rewrite H4.
Qed.

Lemma continuity_frontier_tracks f f' :
  f_open_interest_required f' = f_open_interest_required f → (∀ tr, frontier tr f' = frontier tr f) →
  continuity_frontier_ms f' = continuity_frontier_ms f.
Proof.
  intros Hr Hf. unfold continuity_frontier_ms. rewrite Hr.
  by rewrite (Hf CANDLES : f_last_successful_open_time_ms f' = _),
    (Hf OPEN_INTEREST : f_last_open_interest_open_time_ms f' = _).
Qed.

Ltac quiet := intros; repeat match goal with |- context [if ?b then _ else _] => destruct b end;
  (split; [split|by intros []]); cbn; done || congruence || auto.

Lemma require_recovery_quiet status p f : quiet_facts f (require_recovery status p f).
Proof. quiet. Qed.
Lemma subscribe_quiet t f : quiet_facts f (subscribe t f).
Proof. quiet. Qed.
Lemma observe_candle_quiet c f : quiet_facts f (observe_candle c f).
Proof. unfold observe_candle. quiet. Qed.
Lemma record_rejected_quiet o f : quiet_facts f (record_rejected o f).
Proof. quiet. Qed.
Lemma record_failed_quiet o f : quiet_facts f (record_failed o f).
Proof. quiet. Qed.
Lemma mark_disconnected_quiet t f : quiet_facts f (mark_disconnected t f).
Proof. quiet. Qed.
Lemma mark_stopped_quiet t f : quiet_facts f (mark_stopped t f).
Proof. quiet. Qed.
Lemma touch_quiet t f : quiet_facts f (touch t f).
Proof. quiet. Qed.
Lemma touch_subscribed_quiet t f : quiet_facts f (touch_subscribed t f).
Proof. unfold touch_subscribed. quiet. Qed.
#[export] Hint Resolve require_recovery_quiet subscribe_quiet observe_candle_quiet record_rejected_quiet
  record_failed_quiet mark_disconnected_quiet mark_stopped_quiet touch_quiet touch_subscribed_quiet : mds.

(** Prove [moves quiet_facts] along the method. *)
Ltac moves_tac :=
  repeat match goal with
  | |- moves _ (mbind _ _) => apply moves_bind; [exact _|..|intros ?]
  | |- moves _ (sm_update _ _) => apply moves_update; [exact _|intros; solve [eauto with mds]]
  | |- moves _ (sm_update_all _) => apply moves_update_all; intros; solve [eauto with mds]
  | |- moves _ (sm_collect _ _) => apply moves_collect; [exact _..|intros ?]
  | |- moves _ (signal _ _ _ _) => apply moves_signal; exact _
  | |- moves _ (match ?x with _ => _ end) => destruct x
  | |- moves _ _ => solve [apply moves_same; [exact _|done]]
  end.

Lemma gap_signal_quiet clock k p t : moves quiet_facts (gap_signal clock k p t).
Proof. unfold gap_signal. moves_tac. Qed.

Lemma observe_event_quiet topics clock event : moves quiet_facts (observe_event topics clock event).
Proof. destruct event; cbn [observe_event]; unfold subscriptions_confirmed, confirm_topic; moves_tac. Qed.

Lemma detect_stale_quiet clock grace now : moves quiet_facts (detect_stale clock grace now).
Proof. unfold detect_stale, stale_signal. moves_tac. Qed.

(** *** The methods as calls *)

(** The methods of [RealtimeSupervisor] that change it. *)
Inductive Call :=
| CallEvent (event : RealtimeEvent)
| CallOutcome (o : RealtimeIngestionOutcome)
| CallOpenInterest (k : StreamKey) (open_time_ms : Z)
| CallStale (now : option Z)
| CallRecovery (k : StreamKey) (restored fatal : bool) (restored_through : option Z)
| CallSyncCandles (k : StreamKey) (open_time_ms : Z)
| CallSyncOpenInterest (k : StreamKey) (open_time_ms : Z).

(** The outcome reports a stored candle. *)
Definition stored_outcome (o : RealtimeIngestionOutcome) : bool :=
  match ou_classification o with
  | RT_COMMITTED | RT_DUPLICATE | RT_CORRECTED => true
  | _ => false
  end.

(** What a call does to the frontiers of a stream: the specification of the methods. *)
Definition next_frontier (c : Call) (f : RealtimeStreamFacts) (tr : Track) : option Z :=
  let old := frontier tr f in
  let on k target (new : option Z) :=
    if bool_decide (f_stream f = k) && bool_decide (tr = target) then new else old in
  match c with
  | CallOutcome o =>
      if stored_outcome o
      then on (ou_stream o) CANDLES (Some (extend_frontier old (ou_open_time_ms o) (ou_stream o)))
      else old
  | CallOpenInterest k t => on k OPEN_INTEREST (Some (extend_frontier old t k))
  | CallRecovery k true false through =>
      if bool_decide (f_stream f = k) then
        match tr with
        | CANDLES => Some (int_or (advance_frontier old through) 0)
        | OPEN_INTEREST => if f_open_interest_required f then advance_frontier old through else old
        end
      else old
  | CallSyncCandles k t => on k CANDLES (Some (Z.max (int_or old t) t))
  | CallSyncOpenInterest k t => on k OPEN_INTEREST (Some (Z.max (int_or old t) t))
  | _ => old
  end.

Section calls.
Context (topic_to_stream : gmap string StreamKey) (clock : nat → Z) (grace_ms : Z).

Definition call_method (c : Call) : SM (list RecoveryRequired) :=
  match c with
  | CallEvent event => observe_event topic_to_stream clock event
  | CallOutcome o => observe_outcome clock o
  | CallOpenInterest k t => observe_open_interest clock k t
  | CallStale now => detect_stale clock grace_ms now
  | CallRecovery k restored fatal through =>
      _ ← record_recovery_result clock k restored fatal through; mret []
  | CallSyncCandles k t => _ ← synchronize_successful_open_time k t; mret []
  | CallSyncOpenInterest k t => _ ← synchronize_open_interest_open_time k t; mret []
  end.

(** The frontiers of a stream moved as [g] says. *)
Record moved (g : RealtimeStreamFacts → Track → option Z) (f f' : RealtimeStreamFacts) : Prop := {
  mv_stream : f_stream f' = f_stream f;
  mv_required : f_open_interest_required f' = f_open_interest_required f;
  mv_frontier : ∀ tr, frontier tr f' = g f tr
}.

Lemma moved_quiet g f f' f'' : moved g f f' → quiet_facts f' f'' → moved g f f''.
Proof. intros [H1 H2 H3] [[H4 H5 _ _ _] H6]. split; congruence. Qed.

Lemma quiet_moved g f f' : quiet_facts f f' → (∀ tr, g f tr = frontier tr f) → moved g f f'.
Proof. intros [[H1 H2 _ _ _] H3] H. split; try done. intros tr. by rewrite H, H3. Qed.

Lemma moves_impl {A} (R R' : RealtimeStreamFacts → RealtimeStreamFacts → Prop) (m : SM A) :
  (∀ f f', R f f' → R' f f') → moves R m → moves R' m.
Proof. intros H Hm s. by eapply Forall2_impl. Qed.

(** Composing a change with methods that move no frontier. *)
Lemma moves_then {A B} R (m : SM A) (h : A → SM B) :
  (∀ f f' f'', R f f' → quiet_facts f' f'' → R f f'') →
  moves R m → (∀ a, moves quiet_facts (h a)) → moves R (x ← m; h x).
Proof.
  intros HR Hm Hh s. specialize (Hm s). unfold after, mbind, SM_bind in *.
  destruct (m s) as [[a|e] s']; [|done]. specialize (Hh a s'). unfold after in Hh. cbn in Hm.
  revert Hm Hh. generalize (sv_facts s) (sv_facts s') (sv_facts (h a s').2).
  intros d d' d'' Hm. revert d''. induction Hm; intros d'' Hq; inversion Hq; subst; constructor; eauto.
Qed.

(** An update of one stream. *)
Lemma moves_update_stream (R : RealtimeStreamFacts → RealtimeStreamFacts → Prop) k change :
  (∀ f, f_stream f = k → R f (change f)) → (∀ f, f_stream f ≠ k → R f f) →
  moves R (sm_update k change).
Proof.
  intros H1 H2 s. unfold after, sm_update, update_facts, get_facts.
  destruct (find_facts _ k) as [f|] eqn:Ef; cbn.
  - apply Forall2_map_self. intros g. case_bool_decide; auto.
  - apply find_facts_none in Ef. induction Ef; constructor; auto.
Qed.

Lemma moves_read {A} (R : RealtimeStreamFacts → RealtimeStreamFacts → Prop) k
    (h : RealtimeStreamFacts → SM A) :
  (∀ f, f_stream f ≠ k → R f f) → (∀ f, moves R (h f)) → moves R (f ← sm_facts k; h f).
Proof.
  intros Hn Hh s. unfold after, mbind, SM_bind, sm_facts, get_facts.
  destruct (find_facts (sv_facts s) k) as [f|] eqn:Ef; cbn; [apply Hh|].
  apply find_facts_none in Ef. induction Ef; constructor; auto.
Qed.

Lemma moves_tick {A} (R : RealtimeStreamFacts → RealtimeStreamFacts → Prop) (h : Z → SM A) :
  (∀ t, moves R (h t)) → moves R (t ← sm_now clock; h t).
Proof. intros H s. apply (H _ (mkSupervisor (sv_facts s) (sv_disconnected s) (S (sv_ticks s)))). Qed.

(** An update of one stream, then methods that move no frontier. *)
Lemma moved_update {A} g k change (h : SM A) :
  (∀ f, f_stream f = k → moved g f (change f)) →
  (∀ f, f_stream f ≠ k → ∀ tr, g f tr = frontier tr f) →
  moves quiet_facts h → moves (moved g) (_ ← sm_update k change; h).
Proof.
  intros H1 H2 Hh. apply moves_then; [eauto using moved_quiet| |done].
  apply moves_update_stream; [done|]. intros f Hf. by apply quiet_moved; [|apply H2].
Qed.

(** Unfold a change of one stream and compute the frontiers on both sides. *)
Ltac frontiers :=
  intros; repeat split; cbn [next_frontier];
  repeat match goal with
  | H : stored_outcome _ = _ |- _ => rewrite H
  | H : f_stream _ = _ |- _ => rewrite H
  | tr : Track |- _ => destruct tr
  | |- ∀ _, _ => intros ?
  end; rewrite ?bool_decide_eq_true_2, ?bool_decide_eq_false_2 by done; try done.

(** Every method moves the frontiers as [next_frontier] says, whatever it raises. *)
Lemma call_frontiers c : moves (moved (next_frontier c)) (call_method c).
Proof.
  assert (Hq : ∀ m, (∀ f tr, next_frontier c f tr = frontier tr f) → moves quiet_facts m →
                    moves (A:=list RecoveryRequired) (moved (next_frontier c)) m).
  { intros m Hn. apply moves_impl. intros f f' Hf. by apply quiet_moved. }
  destruct c as [event|o|k t|now|k restored fatal through|k t|k t]; cbn [call_method].
  - apply Hq; [done|]. apply observe_event_quiet.
  - unfold observe_outcome. destruct (stored_outcome o) eqn:Ho.
    + replace (match ou_classification o with _ => _ end) with
        (f ← sm_facts (ou_stream o); _ ← sm_update (ou_stream o) (record_success o);
         gap_signal clock (ou_stream o) (f_last_successful_open_time_ms f) (ou_open_time_ms o))
        by (unfold stored_outcome in Ho; by destruct (ou_classification o)).
      apply moves_read; [by frontiers|]. intros f.
      apply moved_update; [by frontiers..|apply gap_signal_quiet].
    + apply Hq; [by intros; cbn; rewrite Ho|].
      unfold stored_outcome in Ho. destruct (ou_classification o); try done; moves_tac.
  - apply moves_read; [by frontiers|]. intros f.
    apply moved_update; [by frontiers..|apply gap_signal_quiet].
  - apply Hq; [done|]. apply detect_stale_quiet.
  - unfold record_recovery_result. apply moves_then; [eauto using moved_quiet| |intros []; moves_tac].
    apply moves_tick. intros completed. apply moves_update_stream.
    + destruct restored, fatal; by frontiers.
    + destruct restored, fatal; by frontiers.
  - apply moved_update; [by frontiers..|moves_tac].
  - apply moved_update; [by frontiers..|moves_tac].
Qed.
End calls.

(** *** Signals *)

(** The stream of a signal waits for recovery, and the recovery starts no later than the bar
    after the proven range of every track it requires. *)
Definition signal_sound (d : FactsDict) (sig : RecoveryRequired) : Prop :=
  ∃ f, find_facts d (rc_stream sig) = Some f ∧ f_recovery_pending f = true ∧
    f_recovery_restored f = false ∧
    ∀ fr, continuity_frontier_ms f = Some fr →
      ∃ st, rc_suspected_start_time_ms sig = Some st ∧ st ≤ fr + stream_step (rc_stream sig).

Lemma signal_sound_quiet d d' sig :
  Forall2 quiet_facts d d' → signal_sound d sig → signal_sound d' sig.
Proof.
  intros HF (f & Hf & Hp & Hr & Hs).
  pose proof (Forall2_find_facts quiet_facts d d' (rc_stream sig)) as H. rewrite Hf in H.
  specialize (H (λ f f' Hq, gk_stream _ _ (qf_gate _ _ Hq)) HF).
  destruct (find_facts d' (rc_stream sig)) as [f'|] eqn:Hf'; [|done]. destruct H as [[H1 H2 H3 H4 _] H5].
  exists f'. split; [done|]. split; [by apply H3|]. split.
  - destruct (f_recovery_restored f'); [|done]. by rewrite H4 in Hr.
  - intros fr. rewrite (continuity_frontier_tracks f f') by done. apply Hs.
Qed.

(** The signals a method returns are sound when it ends. *)
Definition signals_sound (m : SM (list RecoveryRequired)) : Prop :=
  ∀ s sigs s', m s = (Ok sigs, s') → Forall (signal_sound (sv_facts s')) sigs.

Lemma signals_none : signals_sound (mret []).
Proof. intros s sigs s' [= <- <-]. constructor. Qed.

Lemma signals_bind {A} (m : SM A) (h : A → SM (list RecoveryRequired)) :
  (∀ a, signals_sound (h a)) → signals_sound (x ← m; h x).
Proof.
  intros Hh s sigs s' H. unfold mbind, SM_bind in H. destruct (m s) as [[a|e] s1]; [|done]. by eapply Hh.
Qed.

Lemma signals_collect {A} (f : A → SM (list RecoveryRequired)) l :
  (∀ x, signals_sound (f x)) → (∀ x, moves quiet_facts (f x)) → signals_sound (sm_collect f l).
Proof.
  intros Hs Hq. induction l as [|x l IH]; cbn [sm_collect]; [apply signals_none|].
  intros s sigs s' H. unfold mbind, SM_bind in H. destruct (f x s) as [[here|e] s1] eqn:Ex; [|done].
  destruct (sm_collect f l s1) as [[rest|e] s2] eqn:El; [|done]. injection H as <- <-.
  apply Forall_app. split; [|by apply IH in El].
  apply Hs in Ex. eapply Forall_impl; [exact Ex|]. intros sig. apply signal_sound_quiet.
  pose proof (moves_collect quiet_facts f l Hq s1) as HF. unfold after in HF. by rewrite El in HF.
Qed.

Lemma update_find k change s u s' :
  sm_update k change s = (Ok u, s') → (∀ f, f_stream (change f) = f_stream f) →
  ∃ f, find_facts (sv_facts s) k = Some f ∧ find_facts (sv_facts s') k = Some (change f) ∧
    sv_disconnected s' = sv_disconnected s.
Proof.
  unfold sm_update, update_facts, get_facts. destruct (find_facts _ k) as [f|] eqn:Ef; [|done].
  cbn. intros [= _ <-] Hs. exists f. split; [done|]. cbn [sv_facts]. split; [|done].
  revert Ef. unfold find_facts. induction (sv_facts s) as [|g d IH]; cbn [map List.find]; [done|].
  case_bool_decide as Hk.
  - intros [= <-]. by rewrite Hs, bool_decide_eq_true_2.
  - rewrite (bool_decide_eq_false_2 _ Hk). done.
Qed.

(** A signal after the change that asks for the recovery. *)
Lemma signals_after_update clock k change reason suspected :
  (∀ f, quiet_facts f (change f)) →
  (∀ f, f_recovery_pending (change f) = true ∧ f_recovery_restored (change f) = false) →
  signals_sound (_ ← sm_update k change; signal clock k reason suspected).
Proof.
  intros Hq Hc s sigs s' H. unfold mbind at 1, SM_bind in H.
  destruct (sm_update k change s) as [[[]|e] s1] eqn:Eu; [|done].
  apply update_find in Eu as (f & _ & Hf & _); [|intros g; apply Hq].
  unfold signal, mbind, SM_bind, sm_facts, get_facts, sm_now in H. rewrite Hf in H. cbn in H.
  injection H as <- <-. constructor; [|constructor]. exists (change f). cbn [sv_facts rc_stream].
  split; [done|]. destruct (Hc f) as [Hp Hr]. do 2 (split; [done|]). intros fr ->.
  eexists. split; [done|]. lia.
Qed.

Ltac signals_tac :=
  repeat match goal with
  | |- signals_sound (_ ← sm_update _ _; signal _ _ _ _) =>
      apply signals_after_update; [intros; solve [eauto with mds]|intros; by split]
  | |- signals_sound (mbind _ _) => apply signals_bind; intros ?
  | |- signals_sound (match ?x with _ => _ end) => destruct x
  | |- signals_sound _ => solve [apply signals_none]
  end.

Lemma gap_signal_sound clock k p t : signals_sound (gap_signal clock k p t).
Proof. unfold gap_signal. signals_tac. Qed.

Section gate.
Context (topic_to_stream : gmap string StreamKey) (clock : nat → Z) (grace_ms : Z).

Lemma confirm_topic_sound b t topic : signals_sound (confirm_topic topic_to_stream clock b t topic).
Proof. unfold confirm_topic. signals_tac. Qed.

Lemma confirm_topic_quiet b t topic : moves quiet_facts (confirm_topic topic_to_stream clock b t topic).
Proof. unfold confirm_topic. moves_tac. Qed.

Lemma stale_signal_sound now f : signals_sound (stale_signal clock grace_ms now f).
Proof. unfold stale_signal. signals_tac. Qed.

Lemma stale_signal_quiet now f : moves quiet_facts (stale_signal clock grace_ms now f).
Proof. unfold stale_signal. moves_tac. Qed.

Lemma call_signals_sound c : signals_sound (call_method topic_to_stream clock grace_ms c).
Proof.
  destruct c as [[]|o|k t|now|k restored fatal through|k t|k t]; cbn [call_method observe_event];
    unfold subscriptions_confirmed, observe_outcome, observe_open_interest, detect_stale; signals_tac;
    auto using gap_signal_sound, signals_collect, confirm_topic_sound, confirm_topic_quiet,
      stale_signal_sound, stale_signal_quiet.
Qed.

(** *** Which signals a method returns *)

Definition is_signal (k : StreamKey) (reason : RecoveryReason) (sig : RecoveryRequired) : Prop :=
  rc_stream sig = k ∧ rc_reason sig = reason.

Lemma signal_run k reason suspected s sigs s' :
  signal clock k reason suspected s = (Ok sigs, s') → ∃ sig, sigs = [sig] ∧ is_signal k reason sig.
Proof.
  unfold signal, mbind, SM_bind, sm_facts, sm_now. destruct (get_facts _ _) as [f|e]; [|done].
  intros [= <- _]. eexists. split; [done|]. by split.
Qed.

Lemma update_signal_run k change reason suspected s sigs s' :
  (_ ← sm_update k change; signal clock k reason suspected) s = (Ok sigs, s') →
  ∃ sig, sigs = [sig] ∧ is_signal k reason sig.
Proof.
  unfold mbind at 1, SM_bind. destruct (sm_update k change s) as [[u|e] s1]; [|done]. apply signal_run.
Qed.

Lemma confirm_topic_run t topic s sigs s' :
  confirm_topic topic_to_stream clock true t topic s = (Ok sigs, s') →
  ∃ k sig, topic_to_stream !! topic = Some k ∧ sigs = [sig] ∧ is_signal k DISCONNECT sig.
Proof.
  unfold confirm_topic. unfold mbind at 1 2, SM_bind, sm_lift.
  destruct (topic_to_stream !! topic) as [k|]; [|done]. destruct (sm_update k _ s) as [[u|e] s1]; [|done].
  intros (sig & -> & Hs)%update_signal_run. by exists k, sig.
Qed.

Lemma collect_one {A} (P : A → RecoveryRequired → Prop) (f : A → SM (list RecoveryRequired)) l :
  (∀ x s sigs s', f x s = (Ok sigs, s') → ∃ sig, sigs = [sig] ∧ P x sig) →
  ∀ s sigs s', sm_collect f l s = (Ok sigs, s') → Forall2 P l sigs.
Proof.
  intros Hf. induction l as [|x l IH]; intros s sigs s'; cbn [sm_collect].
  - intros [= <- _]. constructor.
  - unfold mbind, SM_bind. destruct (f x s) as [[here|e] s1] eqn:Ex; [|done].
    destruct (sm_collect f l s1) as [[rest|e] s2] eqn:El; [|done]. intros [= <- _].
    apply Hf in Ex as (sig & -> & HP). constructor; [done|]. by eapply IH.
Qed.

(** The stream is subscribed, waits for no recovery, and its frontier is behind the last bar
    expected after the grace period, which no recovery has checked yet. *)
Definition stale_at (now : Z) (f : RealtimeStreamFacts) : bool :=
  let k := f_stream f in
  let expected := now - grace_ms - (now - grace_ms) mod stream_step k - stream_step k in
  f_subscription_active f && negb (f_recovery_pending f) && negb (truthy (f_fatal_error_code f)) &&
  match continuity_frontier_ms f with
  | Some frontier => frontier <? expected
  | None => false
  end &&
  match f_last_checked_expected_open_ms f with
  | Some checked => checked <? expected
  | None => true
  end.

Lemma stale_signal_run now f s sigs s' :
  stale_signal clock grace_ms now f s = (Ok sigs, s') →
  if stale_at now f then ∃ sig, sigs = [sig] ∧ is_signal (f_stream f) REASON_STALE sig else sigs = [].
Proof.
  unfold stale_signal, stale_at. destruct (f_subscription_active f); cbn [negb orb andb]; [|by intros [= <- _]].
  destruct (f_recovery_pending f); cbn [negb orb andb]; [by intros [= <- _]|].
  destruct (truthy _); cbn [negb andb]; [by intros [= <- _]|].
  destruct (continuity_frontier_ms f) as [fr|]; [|by intros [= <- _]].
  unfold mbind at 1, SM_bind, sm_lift, expected_open_ms. rewrite align_to_grid_ok by apply stream_step_pos.
  cbn [mbind res_bind mret res_ret]. set (e := now - grace_ms - _ - _). rewrite Z.ltb_antisym.
  destruct (e <=? fr); cbn [negb andb]; [by intros [= <- _]|].
  destruct (f_last_checked_expected_open_ms f) as [ch|]; [|by intros ?%update_signal_run].
  rewrite Z.ltb_antisym. destruct (e <=? ch); cbn [negb]; [by intros [= <- _]|by intros ?%update_signal_run].
Qed.

Lemma stale_collect now l : ∀ s sigs s',
  sm_collect (stale_signal clock grace_ms now) l s = (Ok sigs, s') →
  Forall2 (λ f sig, is_signal (f_stream f) REASON_STALE sig) (filter (λ f, stale_at now f = true) l) sigs.
Proof.
  induction l as [|f l IH]; intros s sigs s'; cbn [sm_collect].
  - intros [= <- _]. constructor.
  - unfold mbind, SM_bind. destruct (stale_signal _ _ now f s) as [[here|e] s1] eqn:Ex; [|done].
    destruct (sm_collect _ l s1) as [[rest|e] s2] eqn:El; [|done]. intros [= <- _].
    apply stale_signal_run in Ex. apply IH in El. rewrite filter_cons. destruct (stale_at now f) eqn:Es.
    + rewrite decide_True by done. destruct Ex as (sig & -> & Hs). by constructor.
    + rewrite decide_False by done. by rewrite Ex.
Qed.

Lemma gap_signal_run k p t s sigs s' :
  gap_signal clock k p t s = (Ok sigs, s') →
  if match p with Some p => p + stream_step k <? t | None => false end
  then ∃ sig, sigs = [sig] ∧ is_signal k SEQUENCE_DISCONTINUITY sig else sigs = [].
Proof.
  unfold gap_signal. destruct p as [p|]; [|by intros [= <- _]].
  destruct (_ <? t); [|by intros [= <- _]]. apply update_signal_run.
Qed.

Lemma observe_outcome_run o s sigs s' f :
  observe_outcome clock o s = (Ok sigs, s') → find_facts (sv_facts s) (ou_stream o) = Some f →
  match ou_classification o with
  | RT_FAILED => sigs = []
  | RT_REJECTED => ∃ sig, sigs = [sig] ∧ is_signal (ou_stream o) REJECTED_OBSERVATION sig
  | _ =>
      if match f_last_successful_open_time_ms f with
         | Some p => p + stream_step (ou_stream o) <? ou_open_time_ms o
         | None => false
         end
      then ∃ sig, sigs = [sig] ∧ is_signal (ou_stream o) SEQUENCE_DISCONTINUITY sig else sigs = []
  end.
Proof.
  unfold observe_outcome. intros H Hf.
  assert (Hgap : (facts ← sm_facts (ou_stream o); _ ← sm_update (ou_stream o) (record_success o);
    gap_signal clock (ou_stream o) (f_last_successful_open_time_ms facts) (ou_open_time_ms o)) s = (Ok sigs, s') →
    if match f_last_successful_open_time_ms f with
       | Some p => p + stream_step (ou_stream o) <? ou_open_time_ms o
       | None => false
       end
    then ∃ sig, sigs = [sig] ∧ is_signal (ou_stream o) SEQUENCE_DISCONTINUITY sig else sigs = []).
  { unfold mbind at 1 2, SM_bind, sm_facts, get_facts. rewrite Hf.
    destruct (sm_update _ _ s) as [[u|e] s1]; [|done]. apply gap_signal_run. }
  destruct (ou_classification o); [exact (Hgap H)..|exact (update_signal_run _ _ _ _ _ _ _ H)|].
  unfold mbind, SM_bind in H. destruct (sm_update _ _ s) as [[u|e] s1]; [|done]. by injection H as <- _.
Qed.
End gate.


Definition example_live_facts (k : StreamKey) (latest : Z) : RealtimeStreamFacts :=
  mkFacts k LIVE true None None None (Some latest) None None None false true (Some 0) None false None None.


Lemma supervisor_facts_ok clock grace k s f s' :
  supervisor_facts clock grace k s = (Ok f, s') →
  ∃ f0 now, find_facts (sv_facts s) k = Some f0 ∧ f = with_expected_open_time_ms
    (Some (now - grace - (now - grace) mod stream_step k - stream_step k)) f0 ∧ now = clock (sv_ticks s).
Proof.
  unfold supervisor_facts, mbind, SM_bind, sm_facts, get_facts.
  destruct (find_facts (sv_facts s) k) as [f0|] eqn:Ef; [|done]. pose proof (find_facts_stream _ _ _ Ef) as <-.
  unfold as_of_now, mbind, SM_bind, sm_now, sm_lift, expected_open_ms.
  rewrite align_to_grid_ok by apply stream_step_pos. cbn. intros [= <- _]. by exists f0, (clock (sv_ticks s)).
Qed.

(** *** Readiness is only regained by a restored recovery *)

Lemma quiet_gate f f' : quiet_facts f f' → gate_kept f f'.
Proof. by intros []. Qed.
Lemma record_success_gate o f : gate_kept f (record_success o f).
Proof. by split. Qed.
Lemma extend_open_interest_gate k t f : gate_kept f (extend_open_interest k t f).
Proof. by split. Qed.
Lemma synchronize_successful_gate t f : gate_kept f (synchronize_successful t f).
Proof. by split. Qed.
Lemma synchronize_open_interest_gate t f : gate_kept f (synchronize_open_interest t f).
Proof. by split. Qed.
#[export] Hint Resolve quiet_gate record_success_gate extend_open_interest_gate synchronize_successful_gate
  synchronize_open_interest_gate : mds.

(** The stream waits for a recovery, or was never restored. *)
Definition blocked (f : RealtimeStreamFacts) : Prop :=
  f_recovery_pending f = true ∨ f_recovery_restored f = false.

Definition restores (c : Call) (k : StreamKey) : Prop := ∃ through, c = CallRecovery k true false through.

#[export] Instance restores_dec c k : Decision (restores c k).
Proof.
  destruct c as [| | | |k' [] [] through| |]; try (right; by intros [? ?]).
  destruct (decide (k' = k)) as [->|]; [left; by exists through|right; by intros [? [= ? _]]].
Defined.

Record stays_blocked (c : Call) (f f' : RealtimeStreamFacts) : Prop := {
  sb_stream : f_stream f' = f_stream f;
  sb_blocked : ¬ restores c (f_stream f) → blocked f → blocked f';
  sb_fatal : f_fatal_error_code f ≠ None → f_fatal_error_code f' ≠ None
}.

Lemma gate_stays_blocked c f f' : gate_kept f f' → stays_blocked c f f'.
Proof.
  intros [H1 _ H2 H3 H4]. split; [done| |by intros Hf ?%H4].
  intros _ [Hp|Hr]; [left; auto|right]. destruct (f_recovery_restored f'); [|done]. by rewrite H3 in Hr.
Qed.

#[export] Instance stays_blocked_preorder c : PreOrder (stays_blocked c).
Proof.
  split; [done|]. intros x y z [H1 H2 H3] [H4 H5 H6]. rewrite H1 in H5. split; [congruence| |]; auto.
Qed.

Lemma record_recovery_blocked k restored fatal completed through f :
  f_stream f = k →
  stays_blocked (CallRecovery k restored fatal through) f
    (record_recovery_facts restored fatal completed through f).
Proof.
  intros <-. split.
  - by destruct fatal.
  - intros Hn _. destruct fatal; [by right|]. destruct restored; [by destruct Hn; exists through|by right].
  - by destruct fatal.
Qed.

(** A loss of the connection, as the connector reports it. *)
Definition connection_lost (e : RealtimeEvent) : bool :=
  match e with TransportFailed _ _ _ | Disconnected _ _ _ | ReconnectExhausted _ _ => true | _ => false end.

Section readiness.
Context (topic_to_stream : gmap string StreamKey) (clock : nat → Z) (grace_ms : Z).

Abbreviation method := (call_method topic_to_stream clock grace_ms).

Lemma call_stays_blocked c : moves (stays_blocked c) (method c).
Proof.
  assert (Hg : moves gate_kept (method c) → moves (stays_blocked c) (method c)).
  { apply moves_impl. intros f f'. apply gate_stays_blocked. }
  destruct c as [event|o|k t|now|k restored fatal through|k t|k t];
    [apply Hg|apply Hg|apply Hg|apply Hg| |apply Hg|apply Hg]; cbn [call_method].
  - eapply moves_impl; [|apply observe_event_quiet]. auto with mds.
  - unfold observe_outcome. destruct (ou_classification o);
      repeat (apply moves_bind; [exact _|moves_tac|intros ?]);
      solve [moves_tac | eapply moves_impl; [|apply gap_signal_quiet]; auto with mds].
  - unfold observe_open_interest. repeat (apply moves_bind; [exact _|moves_tac|intros ?]).
    eapply moves_impl; [|apply gap_signal_quiet]. auto with mds.
  - eapply moves_impl; [|apply detect_stale_quiet]. auto with mds.
  - unfold record_recovery_result. apply moves_bind; [exact _| |intros ?; moves_tac].
    apply moves_tick. intros completed. apply moves_update; [exact _|]. intros f Hf.
    by apply record_recovery_blocked.
  - unfold synchronize_successful_open_time. moves_tac.
  - unfold synchronize_open_interest_open_time. moves_tac.
Qed.

(** A run of calls, whatever they raise. *)
Definition run_calls (cs : list Call) (s : Supervisor) : Supervisor :=
  fold_left (λ s c, (method c s).2) cs s.

(** The stream is known and [P] of its facts. *)
Definition stream_has (P : RealtimeStreamFacts → Prop) (k : StreamKey) (s : Supervisor) : Prop :=
  ∃ f, find_facts (sv_facts s) k = Some f ∧ P f.

Lemma call_stream_blocked c s k f :
  find_facts (sv_facts s) k = Some f →
  ∃ f', find_facts (sv_facts (method c s).2) k = Some f' ∧ stays_blocked c f f'.
Proof.
  intros Hf. pose proof (Forall2_find_facts (stays_blocked c) (sv_facts s) (sv_facts (method c s).2) k) as H.
  rewrite Hf in H. specialize (H (λ f f' Hb, sb_stream _ _ _ Hb) (call_stays_blocked c s)).
  destruct (find_facts (sv_facts (method c s).2) k) as [f'|]; [by exists f'|done].
Qed.

Lemma call_stream_known c s k f' :
  find_facts (sv_facts (method c s).2) k = Some f' → is_Some (find_facts (sv_facts s) k).
Proof.
  intros Hf. pose proof (Forall2_find_facts (stays_blocked c) (sv_facts s) (sv_facts (method c s).2) k) as H.
  rewrite Hf in H. specialize (H (λ f f' Hb, sb_stream _ _ _ Hb) (call_stays_blocked c s)).
  by destruct (find_facts (sv_facts s) k).
Qed.

Lemma run_stays_blocked cs k s :
  (∀ c, c ∈ cs → ¬ restores c k) → stream_has blocked k s → stream_has blocked k (run_calls cs s).
Proof.
  revert s. induction cs as [|c cs IH]; intros s Hn (f & Hf & Hb); [by exists f|]. cbn.
  apply IH; [by intros c' ?; apply Hn; right|].
  destruct (call_stream_blocked c s k f Hf) as (f' & Hf' & H). exists f'. split; [done|].
  apply (sb_blocked _ _ _ H); [|done]. rewrite (find_facts_stream _ _ _ Hf). apply Hn. by left.
Qed.

Lemma run_stays_fatal cs k s :
  stream_has (λ f, f_fatal_error_code f ≠ None) k s →
  stream_has (λ f, f_fatal_error_code f ≠ None) k (run_calls cs s).
Proof.
  revert s. induction cs as [|c cs IH]; intros s (f & Hf & Hb); [by exists f|]. cbn. apply IH.
  destruct (call_stream_blocked c s k f Hf) as (f' & Hf' & H). exists f'. split; [done|].
  by apply (sb_fatal _ _ _ H).
Qed.

Lemma run_stream_known cs s k f' :
  find_facts (sv_facts (run_calls cs s)) k = Some f' → is_Some (find_facts (sv_facts s) k).
Proof.
  revert s. induction cs as [|c cs IH]; intros s Hf; [by eexists|]. cbn in Hf.
  apply IH in Hf as [f Hf]. by eapply call_stream_known.
Qed.

(** A call that loses the connection, or signals the stream, leaves it blocked. *)
Lemma lost_blocked event s k :
  connection_lost event = true → is_Some (find_facts (sv_facts s) k) →
  stream_has blocked k (method (CallEvent event) s).2.
Proof.
  intros Hl [f Hf]. assert (∃ t, (method (CallEvent event) s).2 =
    mkSupervisor (map (mark_disconnected t) (sv_facts s)) true (sv_ticks s)) as [t ->]
    by (destruct event; try done; by eexists).
  exists (mark_disconnected t f). split; [|by right]. cbn [sv_facts]. by rewrite find_facts_map, Hf.
Qed.

Lemma signalled_blocked c s s1 k sigs sig :
  method c s = (Ok sigs, s1) → sig ∈ sigs → rc_stream sig = k → stream_has blocked k s1.
Proof.
  intros H Hin <-. apply call_signals_sound in H. rewrite Forall_forall in H.
  destruct (H sig Hin) as (f & Hf & Hp & _). exists f. split; [done|by left].
Qed.

(** A fatal recovery and a failed ingestion leave a fatal error. *)
Lemma recovery_fatal k restored through s :
  is_Some (find_facts (sv_facts s) k) →
  stream_has (λ f, f_fatal_error_code f ≠ None) k (method (CallRecovery k restored true through) s).2.
Proof.
  intros [f Hf]. cbn [call_method]. unfold record_recovery_result, mbind, SM_bind, sm_now.
  destruct (sm_update k _ _) as [[u|e] s1] eqn:Eu.
  - apply update_find in Eu as (f0 & _ & Hf' & _); [|done]. by eexists.
  - unfold sm_update, update_facts, get_facts in Eu. cbn [sv_facts] in Eu. by rewrite Hf in Eu.
Qed.

Lemma outcome_fatal o s :
  ou_classification o = RT_FAILED → is_Some (find_facts (sv_facts s) (ou_stream o)) →
  stream_has (λ f, f_fatal_error_code f ≠ None) (ou_stream o) (method (CallOutcome o) s).2.
Proof.
  intros Ho [f Hf]. cbn [call_method]. unfold observe_outcome. rewrite Ho. unfold mbind, SM_bind.
  destruct (sm_update _ _ s) as [[u|e] s1] eqn:Eu.
  - apply update_find in Eu as (f0 & _ & Hf' & _); [|done]. by eexists.
  - unfold sm_update, update_facts, get_facts in Eu. by rewrite Hf in Eu.
Qed.
End readiness.

(** C30. A lost connection or a signal takes the readiness of the stream away, and only a recovery
    that was recorded as restored gives it back; a fatal recovery and a failed ingestion take it
    away for good. *)
Theorem readiness_needs_recovery (topic_to_stream : gmap string StreamKey) (clock : nat → Z)
    (grace_ms : Z) (c : Call) (cs : list Call) (k : StreamKey) (s : Supervisor)
    (f : RealtimeStreamFacts) (s' : Supervisor) :
  let call := call_method topic_to_stream clock grace_ms c s in
  supervisor_facts clock grace_ms k (run_calls topic_to_stream clock grace_ms (c :: cs) s) = (Ok f, s') →
  data_ready f = true →
  ((∃ event, c = CallEvent event ∧ connection_lost event = true) ∨
   (∃ sigs sig, call.1 = Ok sigs ∧ sig ∈ sigs ∧ rc_stream sig = k) →
   ∃ through, CallRecovery k true false through ∈ cs) ∧
  (∀ restored through, c ≠ CallRecovery k restored true through) ∧
  (∀ o, c = CallOutcome o → ou_stream o = k → ou_classification o ≠ RT_FAILED).
Proof.
  intros call Hf Hr. apply supervisor_facts_ok in Hf as (f0 & now & Hf0 & -> & _).
  assert (¬ blocked f0 ∧ f_fatal_error_code f0 = None) as [Hb Hn].
  { unfold data_ready in Hr. cbn in Hr. bool_hyps. split; [|done]. unfold blocked. intros [|]; congruence. }
  pose proof (run_stream_known _ _ _ _ _ _ _ Hf0) as Hk.
  change (find_facts (sv_facts (run_calls topic_to_stream clock grace_ms cs call.2)) k = Some f0) in Hf0.
  assert (Hfatal : ¬ stream_has (λ f, f_fatal_error_code f ≠ None) k call.2).
  { intros Hx%(run_stays_fatal topic_to_stream clock grace_ms cs). destruct Hx as (f1 & Hf1 & Hx).
    by assert (f1 = f0) as -> by congruence. }
  split; [|split].
  - intros Hc. destruct (decide (Exists (λ c, restores c k) cs)) as [He|Hno].
    { apply Exists_exists in He as (c' & Hin & through & ->). by exists through. }
    exfalso. assert (Hblk : stream_has blocked k call.2).
    { destruct Hc as [(event & -> & Hl)|(sigs & sig & Hs & Hin & Hsk)]; [by apply lost_blocked|].
      eapply signalled_blocked; [|done..]. rewrite <- Hs. apply surjective_pairing. }
    apply (run_stays_blocked topic_to_stream clock grace_ms cs) in Hblk as (f1 & Hf1 & Hx);
      [|by intros c' Hc' Hx; apply Hno, Exists_exists; exists c'].
    by assert (f1 = f0) as -> by congruence.
  - intros restored through ->. by apply Hfatal, recovery_fatal.
  - intros o -> <- Ho. by apply Hfatal, outcome_fatal.
Qed.

Lemma readiness_needs_recovery_witness :
  let k := mkStreamKey (mkInstrumentKey "BTCUSDT.P") TF_1m in
  let topics : gmap string StreamKey := {["kline.1.BTCUSDT"%string := k]} in
  let s := mkSupervisor [example_live_facts k 120000] false 0 in
  let cs := [CallEvent (SubscriptionConfirmed ["kline.1.BTCUSDT"%string] 190000);
             CallRecovery k true false (Some 120000)] in
  let lost := CallEvent (Disconnected None None 180000) in
  let after := supervisor_facts (λ _, 190000) 15000 k
                 (run_calls topics (λ _, 190000) 15000 (lost :: cs) s) in
  ∃ f, after = (Ok f, after.2) ∧ data_ready f = true ∧ ∃ through, CallRecovery k true false through ∈ cs.
Proof.
  intros k topics s cs lost after. destruct after.1 as [f|e] eqn:Ef; [|by vm_compute in Ef].
  assert (Ha : after = (Ok f, after.2)) by (rewrite <- Ef; apply surjective_pairing).
  assert (Hr : data_ready f = true) by (vm_compute in Ef; injection Ef as <-; reflexivity).
  exists f. split; [exact Ha|]. split; [exact Hr|].
  apply (readiness_needs_recovery topics (λ _, 190000) 15000 lost cs k s f after.2 Ha Hr).
  left. exists (Disconnected None None 180000). by split.
Defined.
