(* ===== verification/Continuity.v ===== *)
(** * What the supervisor's frontiers prove about the stores

    The supervisor only sees reports.  [System] puts it beside the stores the reports are
    about: the rows of the candle and of the open interest track of every stream, and the
    open time each frontier started from.  [system_step] interleaves commits with calls of
    the supervisor; [honest] is what its callers guarantee of a report, each clause the
    behaviour of the code that makes the call:
    - an outcome that says committed, duplicate or corrected is about a stored candle
      (application/ingest.py), and a live open interest point is reported when it is stored
      (application/open_interest_live.py);
    - a restored recovery audited a window without gaps that starts no later than the bar
      after the frontier of every required track, and reports its last open time
      (application/realtime/recovery.py);
    - a hand-off after startup reports the last candle of a track that was audited up to it
      (runtime/reconciliation.py). *)

From stdpp Require Import relations.
From S2P Require Import Prelude PyStr DecimalValues Timeframes Identity Gaps Candles RealtimeFacts.
From S2P Require Import Supervisor.

Record System := mkSystem {
  sys_supervisor : Supervisor;
  sys_stored : Track → StreamKey → Z → Prop;
  sys_floor : Track → StreamKey → option Z
}.

(** The tracks that gate a stream. *)
Definition required_track (f : RealtimeStreamFacts) (tr : Track) : bool :=
  match tr with CANDLES => true | OPEN_INTEREST => f_open_interest_required f end.

(** Every point of the grid of the stream from [from] to [through] is stored. *)
Definition covered (stored : Z → Prop) (k : StreamKey) (from through : Z) : Prop :=
  ∀ t, on_grid (stream_step k) t → from ≤ t ≤ through → stored t.

Definition bar (k : StreamKey) (t : Z) : Prop := 0 ≤ t ∧ on_grid (stream_step k) t.

(** What the callers guarantee of a report on the stream with the facts [f]. *)
Definition honest (sys : System) (f : RealtimeStreamFacts) (c : Call) : Prop :=
  let k := f_stream f in
  match c with
  | CallOutcome o =>
      ou_stream o = k → stored_outcome o = true →
      bar k (ou_open_time_ms o) ∧ sys_stored sys CANDLES k (ou_open_time_ms o)
  | CallOpenInterest k' t => k' = k → bar k t ∧ sys_stored sys OPEN_INTEREST k t
  | CallRecovery k' true false through =>
      k' = k → ∃ s e, through = Some e ∧ bar k e ∧ s ≤ e ∧
        ∀ tr, required_track f tr = true →
          covered (sys_stored sys tr k) k s e ∧
          ∀ p, frontier tr f = Some p → s ≤ p + stream_step k
  | CallSyncCandles k' t =>
      k' = k → bar k t ∧ sys_stored sys CANDLES k t ∧
      ∀ p, frontier CANDLES f = Some p → covered (sys_stored sys CANDLES k) k p t
  | CallSyncOpenInterest k' t =>
      k' = k → bar k t ∧ sys_stored sys OPEN_INTEREST k t ∧
      ∀ p, frontier OPEN_INTEREST f = Some p → covered (sys_stored sys OPEN_INTEREST k) k p t
  | _ => True
  end.

(** The open time a frontier started from is fixed when the frontier is first known. *)
Definition next_floor (sys : System) (d' : FactsDict) (tr : Track) (k : StreamKey) : option Z :=
  match sys_floor sys tr k with
  | Some b => Some b
  | None => find_facts d' k ≫= frontier tr
  end.

Section system.
Context (topic_to_stream : gmap string StreamKey) (clock : nat → Z) (grace_ms : Z).

(** The system after a call of the supervisor. *)
Definition call_system (c : Call) (sys : System) : System :=
  mkSystem (call_method topic_to_stream clock grace_ms c (sys_supervisor sys)).2 (sys_stored sys)
    (next_floor sys (sv_facts (call_method topic_to_stream clock grace_ms c (sys_supervisor sys)).2)).

Inductive system_step : System → System → Prop :=
| step_commit sys stored :
    (∀ tr k t, sys_stored sys tr k t → stored tr k t) →
    system_step sys (mkSystem (sys_supervisor sys) stored (sys_floor sys))
| step_call sys c :
    Forall (λ f, honest sys f c) (sv_facts (sys_supervisor sys)) →
    system_step sys (call_system c sys).

(** A frontier is known exactly when its floor is, and everything between is stored. *)
Definition track_sound (sys : System) (f : RealtimeStreamFacts) (tr : Track) : Prop :=
  let k := f_stream f in
  match frontier tr f, sys_floor sys tr k with
  | None, None => True
  | Some p, Some b => bar k p ∧ b ≤ p ∧ covered (sys_stored sys tr k) k b p
  | _, _ => False
  end.

Definition sound (sys : System) : Prop :=
  ∀ k f, find_facts (sv_facts (sys_supervisor sys)) k = Some f → ∀ tr, track_sound sys f tr.
End system.

(** ** Facts *)

Lemma int_or_nonneg p t : 0 ≤ p → 0 ≤ t → Z.max (int_or (Some p) t) t = Z.max p t.
Proof. intros. unfold int_or. destruct (Z.eqb_spec p 0); lia. Qed.

Lemma covered_join stored k b p s e :
  covered stored k b p → covered stored k s e → bar k p → s ≤ p + stream_step k →
  covered stored k b (Z.max p e).
Proof.
  intros H1 H2 [_ Hp] Hs t Ht Hr. destruct (decide (t ≤ p)); [apply H1; [done|lia]|].
  apply H2; [done|]. enough (p + stream_step k ≤ t) by lia.
  apply (Z_mod_mult_between p t (stream_step k) (stream_step_pos k) Hp Ht). lia.
Qed.

Lemma covered_point stored k t : stored t → covered stored k t t.
Proof. intros H u _ Hu. by replace u with t by lia. Qed.

Lemma bar_max k p e : bar k p → bar k e → bar k (Z.max p e).
Proof. intros Hp He. by destruct (Z.max_spec p e) as [[_ ->]|[_ ->]]. Qed.

(** [n] continues the proven range that ends at [p]. *)
Definition continues (stored : Z → Prop) (k : StreamKey) (old : option Z) (n : Z) : Prop :=
  bar k n ∧
  match old with
  | None => stored n
  | Some p => p ≤ n ∧ ∀ b, b ≤ p → covered stored k b p → covered stored k b n
  end.

Lemma continues_same stored k p : bar k p → continues stored k (Some p) p.
Proof. by split. Qed.

(** A range of stored bars that starts no later than the bar after the frontier. *)
Lemma continues_range stored k old s e :
  (∀ p, old = Some p → bar k p ∧ s ≤ p + stream_step k) → bar k e → s ≤ e → covered stored k s e →
  continues stored k old (match old with Some p => Z.max p e | None => e end).
Proof.
  intros Hp He Hs Hc. destruct old as [p|].
  - destruct (Hp p eq_refl) as [Hb Hsp]. split; [by apply bar_max|]. split; [lia|].
    intros b _ Hcb. by eapply covered_join.
  - split; [done|]. apply Hc; [apply He|lia].
Qed.

Lemma continues_extend stored k old t :
  (∀ p, old = Some p → bar k p) → bar k t → stored t →
  continues stored k old (extend_frontier old t k).
Proof.
  intros Hp Ht Hst. destruct old as [p|].
  - pose proof (Hp p eq_refl) as Hb. cbn [extend_frontier]. destruct (Z.ltb_spec (p + stream_step k) t).
    + by apply continues_same.
    + rewrite int_or_nonneg by (apply Hb || apply Ht).
      apply (continues_range stored k (Some p) t t); [|done|lia|by apply covered_point].
      intros q [= <-]. split; [done|lia].
  - unfold extend_frontier, int_or. rewrite Z.max_id. by split.
Qed.

Lemma continues_sync stored k old t :
  (∀ p, old = Some p → bar k p ∧ covered stored k p t) → bar k t → stored t →
  continues stored k old (Z.max (int_or old t) t).
Proof.
  intros Hp Ht Hst. destruct old as [p|].
  - destruct (Hp p eq_refl) as [Hb Hc]. rewrite int_or_nonneg by (apply Hb || apply Ht).
    split; [by apply bar_max|]. split; [lia|]. intros b _ Hcb.
    destruct (decide (p ≤ t)); [|by replace (Z.max p t) with p by lia].
    eapply covered_join; [exact Hcb|exact Hc|done|pose proof (stream_step_pos k); lia].
  - unfold int_or. rewrite Z.max_id. by split.
Qed.

Lemma int_or_zero p : int_or (Some p) 0 = p.
Proof. unfold int_or. by destruct (Z.eqb_spec p 0). Qed.

Lemma advance_frontier_range stored k old s e :
  (∀ p, old = Some p → bar k p ∧ s ≤ p + stream_step k) → bar k e → s ≤ e → covered stored k s e →
  ∃ n, advance_frontier old (Some e) = Some n ∧ continues stored k old n.
Proof.
  intros Hp He Hs Hc. pose proof (continues_range stored k old s e Hp He Hs Hc) as H.
  destruct old as [p|]; [|by exists e]. exists (Z.max p e). split; [|done].
  destruct (Hp p eq_refl) as [[Hb _] _]. destruct He as [He _]. cbn. f_equal.
  unfold int_or. destruct (Z.eqb_spec e 0); lia.
Qed.

(** A call on an honest report leaves a frontier, or continues what it proves. *)
Lemma next_frontier_sound sys f c tr :
  honest sys f c → (∀ p, frontier tr f = Some p → bar (f_stream f) p) →
  next_frontier c f tr = frontier tr f ∨
  ∃ n, next_frontier c f tr = Some n ∧
    continues (sys_stored sys tr (f_stream f)) (f_stream f) (frontier tr f) n.
Proof.
  intros Hh Hp. destruct c as [|o|k t|now|k [] [] through|k t|k t]; cbn [next_frontier]; try by left.
  - destruct (stored_outcome o) eqn:Ho; [|by left].
    destruct (decide (f_stream f = ou_stream o)) as [E|]; [|by left; rewrite bool_decide_eq_false_2].
    rewrite bool_decide_eq_true_2 by done. destruct tr; [|by left]. right. eexists. split; [done|].
    destruct (Hh (eq_sym E) Ho) as [Hb Hs]. rewrite <- E. by apply continues_extend.
  - destruct (decide (f_stream f = k)) as [<-|]; [|by left; rewrite bool_decide_eq_false_2].
    rewrite bool_decide_eq_true_2 by done. destruct tr; [by left|]. right. eexists. split; [done|].
    destruct (Hh eq_refl) as [Hb Hs]. by apply continues_extend.
  - destruct (decide (f_stream f = k)) as [<-|]; [|by left; rewrite bool_decide_eq_false_2].
    rewrite bool_decide_eq_true_2 by done. destruct (Hh eq_refl) as (s & e & -> & He & Hs & Hc).
    assert (Hr : required_track f tr = true → ∃ n, advance_frontier (frontier tr f) (Some e) = Some n ∧
      continues (sys_stored sys tr (f_stream f)) (f_stream f) (frontier tr f) n).
    { intros [H1 H2]%Hc. apply (advance_frontier_range _ _ _ s); [|done..]. auto. }
    destruct tr; cbn [required_track] in Hr.
    + destruct (Hr eq_refl) as (n & -> & Hn). right. exists n. by rewrite int_or_zero.
    + destruct (f_open_interest_required f); [|by left]. right. by apply Hr.
  - destruct (decide (f_stream f = k)) as [<-|]; [|by left; rewrite bool_decide_eq_false_2].
    rewrite bool_decide_eq_true_2 by done. destruct tr; [|by left]. right. eexists. split; [done|].
    destruct (Hh eq_refl) as (Hb & Hs & Hc). apply continues_sync; [auto|done..].
  - destruct (decide (f_stream f = k)) as [<-|]; [|by left; rewrite bool_decide_eq_false_2].
    rewrite bool_decide_eq_true_2 by done. destruct tr; [by left|]. right. eexists. split; [done|].
    destruct (Hh eq_refl) as (Hb & Hs & Hc). apply continues_sync; [auto|done..].
Qed.

(** ** The invariant *)

(** What a step of the system keeps of a track of a stream. *)
Record later (sys sys' : System) : Prop := {
  lt_streams : ∀ k f, find_facts (sv_facts (sys_supervisor sys)) k = Some f →
    ∃ f', find_facts (sv_facts (sys_supervisor sys')) k = Some f' ∧
      f_open_interest_required f' = f_open_interest_required f ∧
      ∀ tr p, frontier tr f = Some p → ∃ p', frontier tr f' = Some p' ∧ p ≤ p';
  lt_floor : ∀ tr k b, sys_floor sys tr k = Some b → sys_floor sys' tr k = Some b
}.

#[export] Instance later_preorder : PreOrder later.
Proof.
  split.
  - intros sys. split; [|done]. intros k f Hf. exists f. do 2 (split; [done|]). intros tr p Hp. by exists p.
  - intros a b c [H1 H2] [H3 H4]. split; [|auto]. intros k f (f' & Hf & Hr & Hp)%H1.
    destruct (H3 k f' Hf) as (f'' & Hf' & Hr' & Hp'). exists f''. split; [done|]. split; [congruence|].
    intros tr p (p' & Hq & Hle)%Hp. destruct (Hp' tr p' Hq) as (p'' & ? & ?). exists p''. split; [done|lia].
Qed.

Section invariant.
Context (topic_to_stream : gmap string StreamKey) (clock : nat → Z) (grace_ms : Z).

(** A stream before a call and after it. *)
Lemma call_stream c s k :
  match find_facts (sv_facts s) k,
    find_facts (sv_facts (call_method topic_to_stream clock grace_ms c s).2) k with
  | Some f, Some f' => moved (next_frontier c) f f'
  | None, None => True
  | _, _ => False
  end.
Proof.
  apply (Forall2_find_facts (moved (next_frontier c))); [by intros f f' [H _ _]|].
  apply (call_frontiers topic_to_stream clock grace_ms c s).
Qed.

(** A stream after a call, from the same stream before it. *)
Lemma call_find c s k f' :
  find_facts (sv_facts (call_method topic_to_stream clock grace_ms c s).2) k = Some f' →
  ∃ f, find_facts (sv_facts s) k = Some f ∧ f ∈ sv_facts s ∧ moved (next_frontier c) f f'.
Proof.
  intros Hf'. pose proof (call_stream c s k) as HF. rewrite Hf' in HF.
  destruct (find_facts (sv_facts s) k) as [f|] eqn:Hf; [|done]. exists f. split; [done|].
  split; [|done]. apply List.find_some in Hf as [Hin _]. by apply list_elem_of_In.
Qed.

Lemma step_sound sys sys' :
  system_step topic_to_stream clock grace_ms sys sys' → sound sys → sound sys'.
Proof.
  intros Hstep Hs. destruct Hstep as [sys stored Hst|sys c Hh].
  - intros k f Hf tr. specialize (Hs k f Hf tr). unfold track_sound in *. cbn.
    destruct (frontier tr f), (sys_floor _ _ _); try done. destruct Hs as (? & ? & Hc).
    do 2 (split; [done|]). intros t Ht Hr. by apply Hst, Hc.
  - intros k f' Hf' tr. destruct (call_find c _ k f' Hf') as (f & Hf & Hin & [Ek _ Hn]).
    rewrite Forall_forall in Hh. specialize (Hh f Hin). specialize (Hs k f Hf tr).
    pose proof (find_facts_stream _ _ _ Hf) as <-. unfold track_sound, call_system in *.
    cbn [sys_floor sys_stored sys_supervisor] in *. unfold next_floor. rewrite Ek, (Hn tr), Hf'. cbn [mbind option_bind].
    rewrite (Hn tr).
    destruct (next_frontier_sound sys f c tr Hh) as [->|(n & -> & Hb & Hc)].
    { intros p Hp. rewrite Hp in Hs. by destruct (sys_floor _ _ _); [destruct Hs|]. }
    + destruct (frontier tr f), (sys_floor sys tr (f_stream f)); done.
    + destruct (frontier tr f) as [p|], (sys_floor sys tr (f_stream f)) as [b|]; try done.
      * destruct Hs as (_ & Hbp & Hcov), Hc as [Hle Hc]. split; [done|]. split; [lia|]. by apply Hc.
      * split; [done|]. split; [lia|]. by apply covered_point.
Qed.

Lemma step_later sys sys' :
  system_step topic_to_stream clock grace_ms sys sys' → sound sys → later sys sys'.
Proof.
  intros Hstep Hs. destruct Hstep as [sys stored Hst|sys c Hh].
  - split; [|done]. intros k f Hf. exists f. do 2 (split; [done|]). intros tr p Hp. by exists p.
  - split; [|by unfold call_system, next_floor; cbn; intros tr k b ->]. intros k f Hf.
    pose proof (call_stream c (sys_supervisor sys) k) as HF. rewrite Hf in HF.
    unfold call_system. cbn [sys_supervisor sys_stored] in *.
    destruct (find_facts (sv_facts (call_method _ _ _ _ _).2) k) as [f'|]; [|done]. destruct HF as [_ Hr Hn].
    exists f'. do 2 (split; [done|]). intros tr p Hp. rewrite (Hn tr).
    assert (f ∈ sv_facts (sys_supervisor sys)) as Hin
      by (apply List.find_some in Hf as [Hin _]; by apply list_elem_of_In).
    rewrite Forall_forall in Hh. specialize (Hh f Hin). specialize (Hs k f Hf tr).
    destruct (next_frontier_sound sys f c tr Hh) as [->|(n & -> & _ & Hc)].
    + intros q Hq. unfold track_sound in Hs. rewrite Hq in Hs.
      by destruct (sys_floor _ _ _); [destruct Hs|].
    + exists p. by split.
    + rewrite Hp in Hc. exists n. by destruct Hc.
Qed.

Lemma steps_sound sys0 sys :
  sound sys0 → rtc (system_step topic_to_stream clock grace_ms) sys0 sys → sound sys ∧ later sys0 sys.
Proof.
  intros H0. apply (rtc_ind_r (λ sys, sound sys ∧ later sys0 sys)); [done|].
  intros y z _ Hstep [Hs Hl]. split; [by eapply step_sound|]. etrans; [exact Hl|by eapply step_later].
Qed.
End invariant.

(** The frontier that gates a stream is no later than that of a required track. *)
Lemma continuity_frontier_required f fr tr :
  continuity_frontier_ms f = Some fr → required_track f tr = true →
  ∃ p, frontier tr f = Some p ∧ fr ≤ p.
Proof.
  unfold continuity_frontier_ms. intros H Hr. destruct tr; cbn in *.
  - destruct (f_open_interest_required f); cbn in H; [|by exists fr].
    destruct (f_last_successful_open_time_ms f) as [p|]; [|done].
    destruct (f_last_open_interest_open_time_ms f); [|done]. injection H as <-. exists p. split; [done|lia].
  - rewrite Hr in H. cbn in H. destruct (f_last_successful_open_time_ms f); [|done].
    destruct (f_last_open_interest_open_time_ms f) as [p|]; [|done]. injection H as <-.
    exists p. split; [done|lia].
Qed.

(** C1. However commits and reports interleave, a bar the supervisor says is published is the end
    of a range without holes, on every track the stream requires, that starts where the track
    was first proven; the start never moves and a frontier never goes back. *)
Theorem published_is_proven (topic_to_stream : gmap string StreamKey) (clock : nat → Z) (grace_ms : Z)
    (sys0 sys : System) :
  sound sys0 → rtc (system_step topic_to_stream clock grace_ms) sys0 sys →
  (∀ k f s' t, supervisor_facts clock grace_ms k (sys_supervisor sys) = (Ok f, s') →
    published_through f t = true → ∀ tr, required_track f tr = true →
    ∃ b, sys_floor sys tr k = Some b ∧ covered (sys_stored sys tr k) k b t) ∧
  later sys0 sys.
Proof.
  intros H0 Hrtc. destruct (steps_sound _ _ _ _ _ H0 Hrtc) as [Hs Hl]. split; [|exact Hl].
  intros k f s' t Hf Hp tr Hr. destruct (supervisor_facts_ok _ _ _ _ _ _ Hf) as (f0 & now & Hf0 & -> & _).
  unfold published_through in Hp. destruct (continuity_frontier_ms _) as [fr|] eqn:Efr; [|done].
  bool_hyps. destruct (continuity_frontier_required _ fr tr Efr Hr) as (p & Hp' & Hle).
  specialize (Hs k f0 Hf0 tr). pose proof (find_facts_stream _ _ _ Hf0) as <-. unfold track_sound in Hs.
  assert (frontier tr f0 = Some p) as Hp0 by (by destruct tr). rewrite Hp0 in Hs.
  destruct (sys_floor sys tr (f_stream f0)) as [b|]; [|done]. destruct Hs as (_ & _ & Hc).
  exists b. split; [done|]. intros u Hu Hur. apply Hc; [done|lia].
Qed.

(** One stream, proven up to its second bar: the next bar is committed and a recovery that
    audited the last two bars is restored. *)
Definition example_key : StreamKey := mkStreamKey (mkInstrumentKey "BTCUSDT.P") TF_1m.
Definition example_topics : gmap string StreamKey := {["kline.1.BTCUSDT"%string := example_key]}.
Definition example_clock (n : nat) : Z := 190000.
Definition example_stored (through : Z) (tr : Track) (k : StreamKey) (t : Z) : Prop :=
  tr = CANDLES ∧ k = example_key ∧ 0 ≤ t ≤ through.
Definition example_system : System :=
  mkSystem
    (mkSupervisor [mkFacts example_key EXPECTED false None None None (Some 60000) None None None false
                     false None None false None None] false 0)
    (example_stored 60000)
    (λ tr k, if bool_decide (tr = CANDLES) && bool_decide (k = example_key) then Some 0 else None).

Lemma example_system_sound : sound example_system.
Proof.
  intros k f Hf tr. destruct (decide (k = example_key)) as [->|Hk].
  - injection Hf as <-. destruct tr; [|done]. repeat split; try by vm_compute. all: lia.
  - unfold find_facts in Hf. cbn in Hf. by rewrite bool_decide_eq_false_2 in Hf by done.
Qed.

Definition example_outcome (t : Z) : RealtimeIngestionOutcome :=
  mkOutcome example_key t RT_COMMITTED [] None None.

Definition example_system_end : System :=
  let step := call_system example_topics example_clock 15000 in
  step (CallRecovery example_key true false (Some 120000))
    (step (CallOutcome (example_outcome 120000))
      (step (CallEvent (SubscriptionConfirmed ["kline.1.BTCUSDT"%string] 130000))
        (mkSystem (sys_supervisor example_system) (example_stored 120000) (sys_floor example_system)))).

Lemma example_system_steps :
  rtc (system_step example_topics example_clock 15000) example_system example_system_end.
Proof.
  eapply rtc_l; [apply (step_commit _ _ _ _ (example_stored 120000)); intros tr k t (-> & -> & ?)|].
  { split; [done|]. split; [done|]. lia. }
  unfold example_system_end.
  eapply rtc_l; [apply (step_call _ _ _ _ (CallEvent (SubscriptionConfirmed ["kline.1.BTCUSDT"%string] 130000)))|].
  { by apply Forall_true. }
  eapply rtc_l; [apply (step_call _ _ _ _ (CallOutcome (example_outcome 120000)))|].
  { repeat constructor; by vm_compute. }
  eapply rtc_l; [apply (step_call _ _ _ _ (CallRecovery example_key true false (Some 120000)))|apply rtc_refl].
  constructor; [|constructor]. intros _. exists 60000, 120000. split; [done|].
  split; [by repeat split; vm_compute|]. split; [lia|].
  intros [] Hr; [|done]. split; [|by intros p [= <-]; vm_compute].
  intros t _ Ht. repeat split; lia.
Qed.

Lemma published_is_proven_witness :
  ∃ f s', supervisor_facts example_clock 15000 example_key (sys_supervisor example_system_end) = (Ok f, s') ∧
    published_through f 120000 = true ∧
    ∃ b, sys_floor example_system_end CANDLES example_key = Some b ∧
      covered (sys_stored example_system_end CANDLES example_key) example_key b 120000.
Proof.
  destruct (published_is_proven example_topics example_clock 15000 example_system example_system_end
    example_system_sound example_system_steps) as [H _].
  eexists _, _. split; [vm_compute; reflexivity|]. split; [vm_compute; reflexivity|].
  eapply (H example_key _ _ 120000); vm_compute; reflexivity.
Defined.
