(* ===== verification/LifecycleUpdate.v ===== *)
(** * Lifecycle transitions that read the clock when they happen

    The recorders of the realtime recovery and of the runtime write the lifecycle in one
    shape: a unit of work gets the snapshot, chooses a transition or none from it, makes it
    at [max(now_ms(), snapshot.updated_at_ms)], saves and commits.  The clock is read only
    when there is a transition to make. *)

From S2P Require Import Prelude PyStr DecimalValues Timeframes Identity Gaps Candles StreamState.
From S2P Require Import Instruments OpenInterest Storage AbsStore Ingest ImportWindow UseCase.

(** The target of a transition, with the error it records. *)
Record Transition := mkTransition {
  tn_target : StreamLifecycleState;
  tn_error_code : option string;
  tn_error_detail : option string
}.

Definition plain (target : StreamLifecycleState) : Transition := mkTransition target None None.

Definition apply_transition (s : StreamStateSnapshot) (t : Transition) (now : Z) : res StreamStateSnapshot :=
  transition_stream_state s (tn_target t) (Z.max now (updated_at_ms s)) (tn_error_code t) (tn_error_detail t).

Definition transition_in_uow (k : StreamKey)
    (choose : StreamStateSnapshot → res (option Transition)) : M StreamStateSnapshot :=
  with_uow (
    snapshot ← op (GetStreamState k);
    chosen ← lift (choose snapshot);
    next ← match chosen with
           | Some t =>
               now ← now_ms;
               next ← lift (apply_transition snapshot t now);
               _ ← op (SaveStreamState next);
               mret next
           | None => mret snapshot
           end;
    _ ← commit;
    mret next).

(** A transition keeps the stream and its latest candle, and is valid. *)
Lemma apply_transition_step k s t now s' :
  snapshot_valid s → ss_stream s = k → apply_transition s t now = Ok s' →
  ss_stream s' = k ∧ snapshot_valid s' ∧
  latest_committed_open_time_ms s' = latest_committed_open_time_ms s.
Proof.
  intros Hv Hk H.
  apply (state_step_transition k (tn_target t) (λ s, Z.max now (updated_at_ms s)) (tn_error_code t)
    (tn_error_detail t) s s' Hv Hk). unfold apply_transition in H. by rewrite H.
Qed.

(** A transition at a later time succeeds exactly when the lifecycle allows it. *)
Lemma apply_transition_ok s t now :
  snapshot_valid s →
  (lifecycle_step (ss_state s) (tn_target t) ↔ is_ok (apply_transition s t now) = true) ∧
  ∀ s', apply_transition s t now = Ok s' → ss_state s' = tn_target t.
Proof.
  intros Hv. unfold apply_transition.
  destruct (transition_stream_state s (tn_target t) (Z.max now (updated_at_ms s)) (tn_error_code t)
    (tn_error_detail t)) as [s'|e] eqn:E.
  - apply transition_ok in E as (H & _ & Hr); [|done]. split; [by split|].
    intros s1 [= <-]. by rewrite Hr.
  - split; [|done]. split; [|done]. intros H.
    apply transition_error in E as [[Hn _]|[_ [Hlt _]]]; [by destruct (Hn H)|lia|done].
Qed.

Section run.
Context `{E : Env}.

Lemma run_transition_in_uow a n c k r choose :
  store_inv a → ab_streams a !! k = Some r →
  run (transition_in_uow k choose) (mkWorld a None n c) =
  match choose (sr_state r) with
  | Raise e => (Raise e, mkWorld a None n c)
  | Ok None => (Ok (sr_state r), mkWorld a None n c)
  | Ok (Some t) =>
      match apply_transition (sr_state r) t (env_clock n) with
      | Ok s => (Ok s, mkWorld (with_stream a k (upd_state r s)) None (S n) c)
      | Raise e => (Raise e, mkWorld a None (S n) c)
      end
  end.
Proof.
  intros Hi Hr. pose proof (store_inv_lookup _ _ _ Hi Hr) as [Hk Hv _ _].
  unfold transition_in_uow. rewrite run_with_uow, run_bind, (run_get_state a k r) by done.
  rewrite run_bind, run_lift. destruct (choose (sr_state r)) as [[t|]|e]; [| |done].
  - rewrite run_bind, run_bind, run_now. cbn [w_ticks]. rewrite run_bind, run_lift.
    destruct (apply_transition (sr_state r) t (env_clock n)) as [s|e] eqn:Et; [|done].
    apply (apply_transition_step k) in Et as (Hk' & Hv' & _); [|done..].
    unfold tick. cbn [w_db w_tx w_ticks w_calls].
    rewrite run_bind, (run_save_state a k r s) by done. by rewrite run_ret, run_bind, run_commit.
  - by rewrite run_bind, run_ret, run_bind, run_commit.
Qed.

Lemma keeps_transition_in_uow k a0 choose : keeps (good k a0) (transition_in_uow k choose).
Proof.
  intros [db [s|] n c] Hw; [by split|]. destruct Hw as [Hdb _]. cbn in Hdb.
  destruct (ab_streams db !! k) as [r|] eqn:Hr.
  - pose proof Hdb as [Hi _]. rewrite (run_transition_in_uow db n c k r) by done.
    pose proof (store_inv_lookup _ _ _ Hi Hr) as [Hk Hv _ _].
    destruct (choose (sr_state r)) as [[t|]|e]; [|by (split; [split|])..].
    destruct (apply_transition (sr_state r) t (env_clock n)) as [s|e] eqn:Et; [|by (split; [split|])].
    apply (apply_transition_step k) in Et as (Hk' & Hv' & Hl'); [|done..].
    split; [|done]. split; [|done]. by apply good_upd_state.
  - unfold transition_in_uow. rewrite run_with_uow, run_bind, run_get_state_unregistered by done.
    by (split; [split|]).
Qed.
End run.
#[export] Hint Resolve keeps_transition_in_uow : keeps.
