(* ===== verification/RealtimeRecovery.v ===== *)
(** * Recovery of a realtime stream from the REST history

    application/realtime/handler.py, recovery_types.py, recovery_plan.py, recovery_state.py,
    recovery_open_interest.py and recovery.py.  [recover] is
    [RealtimeRecoveryCoordinator._execute_sync]; the lock per stream of [execute] makes the
    attempts of a stream one after the other, which is how a program runs here.  The gap
    repairs of the two tracks are parameters; [wired_repair] and [wired_oi_repair] are the
    ones runtime/wiring.py passes. *)

From S2P Require Import Prelude PyStr DecimalValues Timeframes Identity Gaps Candles StreamState.
From S2P Require Import Instruments OpenInterest Storage AbsStore Ingest ImportWindow UseCase.
From S2P Require Import Backfill FullBootstrap Repair OpenInterestTrack RealtimeFacts Supervisor.
From S2P Require Import Continuity LifecycleUpdate.

(** ** handler.py *)

(** [_CLASSIFICATION_MAP] *)
Definition realtime_classification (c : IngestionClassification) : RealtimeIngestionClassification :=
  match c with
  | COMMITTED => RT_COMMITTED
  | DUPLICATE => RT_DUPLICATE
  | CORRECTED => RT_CORRECTED
  | REJECTED_INVALID | REJECTED_UNCONFIRMED | REJECTED_UNCONFIGURED => RT_REJECTED
  end.

(** [RealtimeCandleHandler.handle] *)
Definition handle_candle (k : StreamKey) (candle : ObservedCandle) : M (option RealtimeIngestionOutcome) :=
  if negb (oc_confirmed candle) then mret None
  else
    result ← attempt (now ← now_ms; ingest_execute candle now);
    mret (Some match result with
    | Raise exc =>
        mkOutcome k (oc_open_time_ms candle) RT_FAILED [] (Some (class_name (exn_cls exc)))
          (Some (exn_str exc))
    | Ok result =>
        mkOutcome k (oc_open_time_ms candle) (realtime_classification (ing_classification result))
          (ing_issue_codes result) None None
    end).

(** ** recovery_types.py *)

Inductive RecoveryClassification := RESTORED | INCOMPLETE | RECOVERABLE_FAILURE | FATAL_FAILURE.

#[export] Instance RecoveryClassification_eq_dec : EqDecision RecoveryClassification.
Proof. solve_decision. Defined.

Record RealtimeRecoveryRequest := mkRecoveryRequest {
  rv_signal : RecoveryRequired;
  rv_max_windows : Z;
  rv_recovery_window : option TimeWindow
}.

Definition RealtimeRecoveryRequest_new (sig : RecoveryRequired) (max_windows : Z)
    (w : option TimeWindow) : res RealtimeRecoveryRequest :=
  _ ← raise_if (max_windows <=? 0) ExcValueError "max_windows must be positive";
  mret (mkRecoveryRequest sig max_windows w).

Record RealtimeRecoveryResult := mkRecoveryResult {
  vr_stream : StreamKey;
  vr_classification : RecoveryClassification;
  vr_recovery_window : option TimeWindow;
  vr_audit : option ContinuityReport;
  vr_repair : option RepairStreamGapsResult;
  vr_open_interest_repair : option RepairStreamGapsResult;
  vr_post_audit : option ContinuityReport;
  vr_next_recovery_window : option TimeWindow;
  vr_restored_through_open_time_ms : option Z;
  vr_error_code : option string;
  vr_error_detail : option string
}.

Definition vr_restored (r : RealtimeRecoveryResult) : bool :=
  bool_decide (vr_classification r = RESTORED).

Definition vr_progress_marker (r : RealtimeRecoveryResult) : option RepairProgressMarker :=
  progress_marker <$> vr_repair r.

(** [_window_results] *)
Definition vr_window_results (r : RealtimeRecoveryResult) : list RepairWindowResult :=
  from_option rr_window_results [] (vr_repair r)
  ++ from_option rr_window_results [] (vr_open_interest_repair r).

Definition committed_bars (r : RealtimeRecoveryResult) : Z :=
  foldr Z.add 0 (map rw_committed (vr_window_results r)).

Definition made_progress (r : RealtimeRecoveryResult) : bool :=
  bool_decide (is_Some (vr_next_recovery_window r))
  || existsb (λ w, (0 <? rw_committed w) || (0 <? rw_corrected w)) (vr_window_results r).

(** ** recovery_plan.py *)

(** Where the window starts, before it is compared with its end. *)
Definition recovery_start (latest step_ms : Z) (hinted earliest : option Z) : Z :=
  let default_start := latest + step_ms in
  let start_ms := match hinted with None => default_start | Some h => Z.min default_start h end in
  match earliest with Some e => Z.max start_ms e | None => start_ms end.

Definition derive_window (sig : RecoveryRequired) : M (option TimeWindow) :=
  let k := rc_stream sig in
  let step_ms := stream_step k in
  snapshot ← read_state k;
  match latest_committed_open_time_ms snapshot with
  | None => mret None
  | Some latest =>
      now ← now_ms;
      end_ms ← lift (align_to_grid now step_ms);
      let start_ms := recovery_start latest step_ms (rc_suspected_start_time_ms sig)
                        (earliest_available_open_time_ms snapshot) in
      if end_ms <=? start_ms
      then w ← lift (TimeWindow_new latest (latest + step_ms)); mret (Some w)
      else w ← lift (TimeWindow_new start_ms end_ms); mret (Some w)
  end.

(** ** recovery_state.py *)

Definition mark_unavailable (k : StreamKey) (reason : string) : M () :=
  _ ← transition_in_uow k (λ s, Ok (
        if bool_decide (ss_state s ∈ [READY; CONNECTING])
        then Some (mkTransition DEGRADED (Some "realtime_recovery_required"%string) (Some reason))
        else None));
  mret ().

Definition recovery_ensure_auditing (k : StreamKey) : M () :=
  _ ← transition_in_uow k (λ s,
        match ss_state s with
        | AUDITING => Ok None
        | DEGRADED | REPAIRING => Ok (Some (plain AUDITING))
        | st => raise ExcInvalidStreamTransition
                  ("realtime recovery requires degraded/auditing/repairing state, got "
                   +:+ lifecycle_value st)
        end);
  mret ().

Definition mark_restored (k : StreamKey) : M () :=
  _ ← transition_in_uow k (λ s, Ok (
        if bool_decide (ss_state s = AUDITING) then Some (plain CONNECTING) else None));
  mret ().

(** ** recovery_open_interest.py *)

Definition StreamRepair : Type := RepairStreamGapsRequest → M RepairStreamGapsResult.

Record OpenInterestRecoveryTrack := mkRecoveryTrack {
  ot_streams : list StreamKey;
  ot_repair : StreamRepair
}.

Definition track_required (t : OpenInterestRecoveryTrack) (k : StreamKey) : bool :=
  bool_decide (k ∈ ot_streams t).

Definition track_repair (t : OpenInterestRecoveryTrack) (k : StreamKey) (w : TimeWindow) (max_windows : Z) :
    M RepairStreamGapsResult :=
  request ← lift (RepairStreamGapsRequest_new k (start_ms w) (end_ms w) max_windows);
  ot_repair t request.

(** The classification of a failed repair. *)
Definition failure_class (disposition : option SourceFailureDisposition) : RecoveryClassification :=
  if bool_decide (disposition = Some RECOVERABLE) then RECOVERABLE_FAILURE else FATAL_FAILURE.

Definition unfinished (k : StreamKey) (w : TimeWindow) (repair oi_repair : RepairStreamGapsResult) :
    RealtimeRecoveryResult :=
  if bool_decide (rr_status oi_repair = REPAIR_FAILED) then
    mkRecoveryResult k (failure_class (rr_failure_disposition oi_repair)) (Some w)
      (Some (rr_pre_repair_audit repair)) (Some repair) (Some oi_repair) None None None
      (rr_error_code oi_repair) (rr_error_detail oi_repair)
  else
    mkRecoveryResult k INCOMPLETE (Some w) (Some (rr_pre_repair_audit repair)) (Some repair)
      (Some oi_repair) (rr_post_repair_audit oi_repair) None None
      (Some "post_recovery_open_interest_incomplete"%string)
      (Some "post-recovery open interest audit still reports gaps"%string).

(** ** recovery.py *)

Section recovery.
Context (repair : StreamRepair) (open_interest : option OpenInterestRecoveryTrack).

(** What follows the repairs of the tracks: the target must not have moved. *)
Definition finish_recovery (k : StreamKey) (w : TimeWindow) (r : RepairStreamGapsResult)
    (oi : option RepairStreamGapsResult) : M RealtimeRecoveryResult :=
  let step_ms := stream_step k in
  now ← now_ms;
  current_end_ms ← lift (align_to_grid now step_ms);
  if end_ms w <? current_end_ms then
    next ← lift (TimeWindow_new (end_ms w) current_end_ms);
    mret (mkRecoveryResult k INCOMPLETE (Some w) (Some (rr_pre_repair_audit r)) (Some r) oi
            (rr_post_repair_audit r) (Some next) None (Some "recovery_target_advanced"%string)
            (Some "latest closed boundary advanced during recovery"%string))
  else
    _ ← mark_restored k;
    mret (mkRecoveryResult k RESTORED (Some w) (Some (rr_pre_repair_audit r)) (Some r) oi
            (rr_post_repair_audit r) None (Some (end_ms w - step_ms)) None None).

(** The candle repair reports a continuous window. *)
Definition repair_continuous (r : RepairStreamGapsResult) : bool :=
  negb (bool_decide (rr_status r = REPAIR_INCOMPLETE))
  && from_option is_continuous false (rr_post_repair_audit r).

(** The body of the [try] once there is a window. *)
Definition recover_window (k : StreamKey) (w : TimeWindow) (max_windows : Z) : M RealtimeRecoveryResult :=
  _ ← recovery_ensure_auditing k;
  request ← lift (RepairStreamGapsRequest_new k (start_ms w) (end_ms w) max_windows);
  r ← repair request;
  if bool_decide (rr_status r = REPAIR_FAILED) then
    mret (mkRecoveryResult k (failure_class (rr_failure_disposition r)) (Some w)
            (Some (rr_pre_repair_audit r)) (Some r) None None None None (rr_error_code r)
            (rr_error_detail r))
  else if negb (repair_continuous r) then
    mret (mkRecoveryResult k INCOMPLETE (Some w) (Some (rr_pre_repair_audit r)) (Some r) None
            (rr_post_repair_audit r) None None (Some "post_recovery_continuity_incomplete"%string)
            (Some "post-recovery audit still reports gaps"%string))
  else match open_interest with
  | Some track =>
      if track_required track k then
        oi ← track_repair track k w max_windows;
        if bool_decide (rr_status oi = REPAIR_COMPLETE) then finish_recovery k w r (Some oi)
        else mret (unfinished k w r oi)
      else finish_recovery k w r None
  | None => finish_recovery k w r None
  end.

(** [_execute_sync] *)
Definition recover (request : RealtimeRecoveryRequest) : M RealtimeRecoveryResult :=
  let k := rc_stream (rv_signal request) in
  _ ← mark_unavailable k (recovery_reason_value (rc_reason (rv_signal request)));
  try_catch
    (window ← match rv_recovery_window request with
              | Some w => mret (Some w)
              | None => derive_window (rv_signal request)
              end;
     match window with
     | None =>
         mret (mkRecoveryResult k INCOMPLETE None None None None None None None
                 (Some "missing_durable_recovery_anchor"%string)
                 (Some "stream has no durable latest committed candle"%string))
     | Some w => recover_window k w (rv_max_windows request)
     end)
    (λ exc,
       let decision := classify_source_failure exc in
       mret (mkRecoveryResult k (failure_class (Some (sf_disposition decision))) None None None None
               None None None (Some (sf_code decision)) (Some (sf_detail decision)))).
End recovery.

(** ** The repairs runtime/wiring.py passes *)

Definition wired_repair (max_candles_per_window : Z) : StreamRepair :=
  repair_execute candle_open_times import_window repair_state max_candles_per_window.
Definition wired_oi_repair (max_candles_per_window : Z) : StreamRepair :=
  repair_execute open_interest_open_times import_open_interest oi_track_recorder max_candles_per_window.

(** ** What a recovery needs of the repair of a track *)

Class RepairPromise `{E : Env} (stored : StreamRec → Z → Prop) (repair : StreamRepair) : Prop := {
  rpr_keeps : ∀ a0 req, keeps (good (rq_stream req) a0) (repair req);
  rpr_report : ∀ req a t c r w', store_inv a → 0 < rq_max_windows req →
    run (repair req) (mkWorld a None t c) = (Ok r, w') → repair_report stored req (w_db w') r
}.

#[export] Instance wired_repair_promise `{E : Env} `{!EnvOk} m : RepairPromise candle_stored (wired_repair m).
Proof.
  split; [intros a0 req; apply keeps_repair; exact _|].
  intros req a t c r w'. apply (repair_execute_report candle_open_times candle_stored); exact _.
Qed.

#[export] Instance wired_oi_repair_promise `{E : Env} m : RepairPromise oi_stored (wired_oi_repair m).
Proof.
  split; [intros a0 req; apply keeps_repair; exact _|].
  intros req a t c r w'. apply (repair_execute_report open_interest_open_times oi_stored); exact _.
Qed.

(** ** Facts *)

Lemma RepairRequest_new_ok k s e m q :
  RepairStreamGapsRequest_new k s e m = Ok q →
  q = mkRepairRequest k s e m ∧ s < e ∧ 0 < m ∧ on_grid (stream_step k) s ∧ on_grid (stream_step k) e.
Proof.
  unfold RepairStreamGapsRequest_new, on_grid.
  intros (H1 & (H2 & (H3 & H)%raise_if_bind_ok)%raise_if_bind_ok)%raise_if_bind_ok. injection H as <-.
  bool_hyps. repeat split; [lia|lia|done|done].
Qed.

(** A covered range of a track, as the store has it. *)
Definition store_covered (stored : StreamRec → Z → Prop) (k : StreamKey) (a : AbsStore) (s e : Z) : Prop :=
  ∃ r, ab_streams a !! k = Some r ∧ covered (stored r) k s e.

Lemma store_covered_good stored open_times `{HR : !TrackReader open_times stored} k a a' s e :
  good k a a' → store_covered stored k a s e → store_covered stored k a' s e.
Proof.
  intros [_ [_ Hs Hrows]] (r & Hr & Hc). destruct (proj1 Hs (ex_intro _ r Hr)) as [r' Hr'].
  exists r'. split; [done|]. intros t Ht Hrange. eapply track_keeps; [by apply Hrows|by apply Hc].
Qed.

(** The grid points of a half-open aligned window are those up to its last one. *)
Lemma window_covered stored k s e :
  on_grid (stream_step k) e →
  (∀ t, on_grid (stream_step k) t → s ≤ t < e → stored t) → covered stored k s (e - stream_step k).
Proof. intros He H t Ht Hr. apply H; [done|]. pose proof (stream_step_pos k). lia. Qed.

Lemma window_last k s e :
  on_grid (stream_step k) s → on_grid (stream_step k) e → s < e →
  s ≤ e - stream_step k ∧ on_grid (stream_step k) (e - stream_step k).
Proof.
  intros Hs He Hlt. pose proof (stream_step_pos k) as Hp.
  pose proof (Z_mod_mult_between s e (stream_step k) Hp Hs He Hlt). split; [lia|].
  unfold on_grid in *. replace (e - stream_step k) with (e + -1 * stream_step k) by lia.
  by rewrite Z_mod_add_mult.
Qed.

(** A stored candle has an open time from zero on. *)
Lemma candle_bar k a r t : store_inv a → ab_streams a !! k = Some r → candle_stored r t → bar k t.
Proof.
  intros Hi Hr [row Hrow]. pose proof (store_inv_lookup _ _ _ Hi Hr) as [_ _ Hrows _].
  destruct (Hrows t row Hrow) as (cd & _ & _ & _ & _ & Ht). destruct Ht as (H1 & H2 & _). by split.
Qed.

Section facts.
Context `{E : Env}.

Lemma keeps_mark_unavailable k a0 reason : keeps (good k a0) (mark_unavailable k reason).
Proof. unfold mark_unavailable. keeps_tac. Qed.
Lemma keeps_recovery_auditing k a0 : keeps (good k a0) (recovery_ensure_auditing k).
Proof. unfold recovery_ensure_auditing. keeps_tac. Qed.
Lemma keeps_mark_restored k a0 : keeps (good k a0) (mark_restored k).
Proof. unfold mark_restored. keeps_tac. Qed.
Lemma keeps_derive_window sig k a0 : keeps (good k a0) (derive_window sig).
Proof. unfold derive_window. keeps_tac. Qed.

(** A stream that is registered can always be marked unavailable. *)
Lemma run_mark_unavailable k reason a n c :
  store_inv a → is_Some (ab_streams a !! k) →
  ∃ w, run (mark_unavailable k reason) (mkWorld a None n c) = (Ok (), w).
Proof.
  intros Hi [r Hr]. unfold mark_unavailable. rewrite run_bind, (run_transition_in_uow a n c k r) by done.
  pose proof (store_inv_lookup _ _ _ Hi Hr) as [_ Hv _ _].
  case_bool_decide as Hst; [|by eexists].
  set (t := mkTransition _ _ _). destruct (apply_transition_ok (sr_state r) t (env_clock n) Hv) as [[H _] _].
  assert (Hl : lifecycle_step (ss_state (sr_state r)) (tn_target t)).
  { cbn. rewrite !elem_of_cons in Hst. destruct Hst as [->|[->|?%elem_of_nil]]; done. }
  specialize (H Hl). destruct (apply_transition (sr_state r) t (env_clock n)); [by eexists|done].
Qed.

(** What a derived window covers: it starts no later than the hint, unless the hint is before the
    bound of the history or a stored candle is ahead of the clock. *)
Lemma derive_window_spec sig w r win w' :
  w_tx w = None → store_inv (w_db w) → ab_streams (w_db w) !! rc_stream sig = Some r →
  run (derive_window sig) w = (Ok (Some win), w') →
  w_db w' = w_db w ∧ w_tx w' = None ∧ window_wf win ∧
  ∃ latest, latest_committed_open_time_ms (sr_state r) = Some latest ∧
    start_ms win ≤ Z.max (latest + stream_step (rc_stream sig))
      (from_option id 0 (earliest_available_open_time_ms (sr_state r))) ∧
    ∀ h floor, rc_suspected_start_time_ms sig = Some h →
      (∀ b, earliest_available_open_time_ms (sr_state r) = Some b → b ≤ floor) →
      latest < env_clock (w_ticks w) - env_clock (w_ticks w) mod stream_step (rc_stream sig) →
      start_ms win ≤ Z.max h floor.
Proof.
  destruct w as [db tx n c]. cbn [w_db w_tx w_ticks]. intros -> Hi Hr. unfold derive_window. cbv zeta.
  rewrite run_bind, (run_read_state db n c (rc_stream sig) r) by done.
  pose proof (stream_step_pos (rc_stream sig)) as Hstep.
  destruct (latest_committed_open_time_ms (sr_state r)) as [latest|]; [|done].
  rewrite run_bind, run_now, run_bind, run_lift, align_to_grid_ok by done. cbn [w_ticks w_db w_tx tick].
  set (e := env_clock n - _). set (s := recovery_start _ _ _ _). intros H.
  assert (Hu : s ≤ Z.max (latest + stream_step (rc_stream sig))
                 (from_option id 0 (earliest_available_open_time_ms (sr_state r)))).
  { unfold s, recovery_start. destruct (rc_suspected_start_time_ms sig),
      (earliest_available_open_time_ms (sr_state r)); cbn; lia. }
  assert (Hh : ∀ h floor, rc_suspected_start_time_ms sig = Some h →
    (∀ b, earliest_available_open_time_ms (sr_state r) = Some b → b ≤ floor) → s ≤ Z.max h floor).
  { intros h floor Hh Hb. unfold s, recovery_start. rewrite Hh.
    destruct (earliest_available_open_time_ms (sr_state r)) as [b|]; [specialize (Hb b eq_refl)|]; lia. }
  clearbody s. destruct (Z.leb_spec e s); rewrite run_bind, run_lift in H;
    destruct (TimeWindow_new _ _) as [w1|] eqn:Ew; try done; injection H as <- <-;
    apply TimeWindow_new_ok in Ew as [Hlt ->]; (split; [done|]); (split; [done|]);
    (split; [exact Hlt|]); exists latest; (split; [done|]); cbn [start_ms]; (split; [lia|]);
    intros h floor Hhint Hb Hl; specialize (Hh h floor Hhint Hb); lia.
Qed.
End facts.
#[export] Hint Resolve keeps_mark_unavailable keeps_recovery_auditing keeps_mark_restored
  keeps_derive_window rpr_keeps : keeps.

(** ** What a recovery reports *)

Definition oi_required (open_interest : option OpenInterestRecoveryTrack) (k : StreamKey) : bool :=
  match open_interest with Some track => track_required track k | None => false end.

(** The window is proven on every required track, and reported up to its last bar. *)
Record restored_report (k : StreamKey) (oi : bool) (a' : AbsStore) (res : RealtimeRecoveryResult)
    (w : TimeWindow) : Prop := {
  rd_window : vr_recovery_window res = Some w;
  rd_through : vr_restored_through_open_time_ms res = Some (end_ms w - stream_step k);
  rd_bar : start_ms w ≤ end_ms w - stream_step k ∧ bar k (end_ms w - stream_step k);
  rd_candles : store_covered candle_stored k a' (start_ms w) (end_ms w - stream_step k);
  rd_oi : oi = true → store_covered oi_stored k a' (start_ms w) (end_ms w - stream_step k)
}.

(** Every bar of the window is stored on every required track. *)
Definition proven_window (k : StreamKey) (oi : bool) (a' : AbsStore) (w : TimeWindow) : Prop :=
  on_grid (stream_step k) (end_ms w) ∧
  store_covered candle_stored k a' (start_ms w) (end_ms w - stream_step k) ∧
  (oi = true → store_covered oi_stored k a' (start_ms w) (end_ms w - stream_step k)).

Record recovery_report `{E : Env} (k : StreamKey) (oi : bool) (requested : option TimeWindow)
    (a a' : AbsStore) (res : RealtimeRecoveryResult) : Prop := {
  vp_stream : vr_stream res = k;
  vp_store : good k a a';
  vp_restored : vr_classification res = RESTORED → ∃ w, restored_report k oi a' res w ∧
    ∃ n, env_clock n - env_clock n mod stream_step k ≤ end_ms w;
  vp_through : vr_classification res = RESTORED ↔ is_Some (vr_restored_through_open_time_ms res);
  vp_error : vr_classification res = RESTORED ↔ vr_error_code res = None;
  vp_next : ∀ next, vr_next_recovery_window res = Some next →
    vr_classification res = INCOMPLETE ∧ window_wf next ∧
    ∃ w, vr_recovery_window res = Some w ∧ start_ms next = end_ms w ∧ proven_window k oi a' w;
  vp_requested : ∀ w w', requested = Some w → vr_recovery_window res = Some w' → w' = w
}.

Section report.
Context `{E : Env} (repair : StreamRepair) `{HP : !RepairPromise candle_stored repair}
  (open_interest : option OpenInterestRecoveryTrack)
  `{HO : !RepairPromise oi_stored (from_option ot_repair repair open_interest)}.

(** The report of a recovery that is not restored. *)
Record plain_report (k : StreamKey) (oi : bool) (a' : AbsStore) (w : option TimeWindow) (res : RealtimeRecoveryResult) : Prop := {
  pp_stream : vr_stream res = k;
  pp_class : vr_classification res ≠ RESTORED;
  pp_window : vr_recovery_window res = w;
  pp_through : vr_restored_through_open_time_ms res = None;
  pp_error : is_Some (vr_error_code res);
  pp_next : ∀ next, vr_next_recovery_window res = Some next →
    vr_classification res = INCOMPLETE ∧ window_wf next ∧
    ∃ w0, w = Some w0 ∧ start_ms next = end_ms w0 ∧ proven_window k oi a' w0
}.

Lemma failure_class_plain d : failure_class d ≠ RESTORED.
Proof. unfold failure_class. by case_bool_decide. Qed.

Lemma plain_recovery_report k w oi requested a a' res :
  plain_report k oi a' w res → good k a a' → (∀ w1 w2, requested = Some w1 → w = Some w2 → w2 = w1) →
  recovery_report k oi requested a a' res.
Proof.
  intros [H1 H2 H3 H4 [code H5] H6] Hg Hr. split; try done.
  - rewrite H4. split; [done|by intros [? ?]].
  - rewrite H5. by split.
  - intros next Hn. rewrite H3. by apply H6.
  - intros w1 w2 Hw1. rewrite H3. by apply Hr.
Qed.

Lemma unfinished_plain k b a' w r oi :
  rr_status oi ≠ REPAIR_COMPLETE → (rr_status oi = REPAIR_FAILED → is_Some (rr_error_code oi)) →
  plain_report k b a' (Some w) (unfinished k w r oi).
Proof.
  intros Hc Hf. unfold unfinished. case_bool_decide; split; try done; [apply failure_class_plain|auto].
Qed.

(** What follows the repairs, from a quiet world. *)
Lemma finish_recovery_report k b w r oi v res v' :
  w_tx v = None → store_inv (w_db v) → proven_window k b (w_db v) w → run (finish_recovery k w r oi) v = (Ok res, v') →
  plain_report k b (w_db v') (Some w) res ∨
  good k (w_db v) (w_db v') ∧ vr_classification res = RESTORED ∧ vr_stream res = k ∧
  vr_recovery_window res = Some w ∧ vr_error_code res = None ∧ vr_next_recovery_window res = None ∧
  vr_restored_through_open_time_ms res = Some (end_ms w - stream_step k) ∧
  env_clock (w_ticks v) - env_clock (w_ticks v) mod stream_step k ≤ end_ms w.
Proof.
  intros Htx Hi Hp. unfold finish_recovery. cbv zeta.
  rewrite run_bind, run_now, run_bind, run_lift, align_to_grid_ok by apply stream_step_pos.
  set (e := env_clock _ - _). destruct (Z.ltb_spec (end_ms w) e) as [Hlt|Hle]; rewrite run_bind.
  - rewrite run_lift. destruct (TimeWindow_new (end_ms w) e) as [next|] eqn:En; [|done].
    apply TimeWindow_new_ok in En as [_ ->]. intros [= <- <-]. left. split; try done.
    intros next [= <-]. split; [done|]. split; [done|]. by exists w.
  - assert (Hq : quiet k (w_db v) (tick v)) by (split; [done|by apply good_refl]).
    pose proof (quiet_step k (w_db v) (mark_restored k) (tick v)
      (keeps_mark_restored k (w_db v)) Hq) as Hs.
    destruct (run (mark_restored k) (tick v)) as [[u|exc] v1]; [|done].
    intros [= <- <-]. right. destruct Hs as [_ Hg].
    split; [exact Hg|]. do 6 (split; [done|]). exact Hle.
Qed.

(** A complete repair of a track proves its window, and what follows keeps it. *)
Lemma run_track_repair stored repair' `{!RepairPromise stored repair'} k w mw q r v v' :
  RepairStreamGapsRequest_new k (start_ms w) (end_ms w) mw = Ok q →
  quiet k (w_db v) v → run (repair' q) v = (Ok r, v') →
  quiet k (w_db v) v' ∧ repair_report stored q (w_db v') r ∧
  (rr_status r = REPAIR_COMPLETE → store_covered stored k (w_db v') (start_ms w) (end_ms w - stream_step k)).
Proof.
  intros (-> & Hlt & Hmw & Hs & He)%RepairRequest_new_ok [Htx [Hi Hf]] H.
  assert (Hq : quiet k (w_db v) v') by
    (pose proof (quiet_step k (w_db v) (repair' (mkRepairRequest k (start_ms w) (end_ms w) mw)) v) as Hq;
     rewrite H in Hq; apply Hq; [apply (rpr_keeps _ (mkRepairRequest k (start_ms w) (end_ms w) mw))|by split]).
  split; [done|]. destruct v as [db tx n c]. cbn in Htx, Hi. subst tx.
  apply (rpr_report (stored:=stored)) in H; [|done..]. split; [done|].
  intros Hc. destruct (rp_complete _ _ _ _ H Hc) as (r' & Hr' & Hcov). exists r'. split; [done|].
  by apply window_covered.
Qed.

(** The repair of the second track, when there is one and it is required. *)
Abbreviation oi_promise := (from_option ot_repair repair open_interest).

Lemma keeps_recover_window k a0 w mw : keeps (good k a0) (recover_window repair open_interest k w mw).
Proof.
  unfold recover_window, finish_recovery. cbv zeta. apply keeps_bind; [auto with keeps|intros _].
  apply keeps_lift_bind. intros q Hq. pose proof (RepairRequest_new_ok _ _ _ _ _ Hq) as [-> _].
  apply keeps_bind; [apply (rpr_keeps a0 (mkRepairRequest k (start_ms w) (end_ms w) mw))|intros r].
  case_bool_decide; [auto with keeps|]. destruct (negb _); [auto with keeps|].
  assert (Hfin : ∀ x, keeps (good k a0) (finish_recovery k w r x))
    by (intros x; unfold finish_recovery; cbv zeta; keeps_tac).
  destruct open_interest as [track|]; [|apply Hfin]. destruct (track_required track k); [|apply Hfin].
  apply keeps_bind; [|intros oi; case_bool_decide; [apply Hfin|auto with keeps]].
  unfold track_repair. apply keeps_lift_bind. intros q' Hq'.
  pose proof (RepairRequest_new_ok _ _ _ _ _ Hq') as [-> _].
  apply (rpr_keeps (stored:=oi_stored) a0 (mkRepairRequest k (start_ms w) (end_ms w) mw)).
Qed.

Lemma keeps_recover a0 req :
  keeps (good (rc_stream (rv_signal req)) a0) (recover repair open_interest req).
Proof.
  unfold recover. cbv zeta. apply keeps_bind; [auto with keeps|intros _]. apply keeps_try; [|auto with keeps].
  apply keeps_bind; [destruct (rv_recovery_window req); auto with keeps|].
  intros [w|]; [apply keeps_recover_window|auto with keeps].
Qed.

(** A restored recovery, as a report of its window. *)
Definition restored_facts (k : StreamKey) (w : TimeWindow) (a' : AbsStore) (res : RealtimeRecoveryResult) :
    Prop :=
  vr_classification res = RESTORED ∧ vr_stream res = k ∧ vr_error_code res = None ∧
  vr_next_recovery_window res = None ∧ restored_report k (oi_required open_interest k) a' res w ∧
  ∃ n, env_clock n - env_clock n mod stream_step k ≤ end_ms w.

Lemma finish_restored k w r oi v v' res :
  start_ms w < end_ms w → on_grid (stream_step k) (start_ms w) → on_grid (stream_step k) (end_ms w) →
  w_tx v = None → store_inv (w_db v) →
  store_covered candle_stored k (w_db v) (start_ms w) (end_ms w - stream_step k) →
  (oi_required open_interest k = true →
   store_covered oi_stored k (w_db v) (start_ms w) (end_ms w - stream_step k)) →
  run (finish_recovery k w r oi) v = (Ok res, v') →
  plain_report k (oi_required open_interest k) (w_db v') (Some w) res ∨ restored_facts k w (w_db v') res.
Proof.
  intros Hlt Hs He Htx Hi Hc Hoi Hrun. destruct (window_last k _ _ Hs He Hlt) as [Hle Hlast].
  apply (finish_recovery_report k (oi_required open_interest k)) in Hrun
    as [Hp|(Hg & H1 & H2 & H3 & H4 & H5 & H6 & H7)]; [by left| |done..].
  right. do 4 (split; [done|]). split; [|by exists (w_ticks v)].
  pose proof (store_covered_good candle_stored candle_open_times k _ _ _ _ Hg Hc) as Hc'.
  split; [done|done| |done|].
  - split; [done|]. destruct Hc' as (r' & Hr' & Hc'). apply (candle_bar k (w_db v') r'); [apply Hg|done|].
    apply Hc'; [done|lia].
  - intros Hreq. by eapply (store_covered_good oi_stored open_interest_open_times); [exact Hg|apply Hoi].
Qed.

Lemma recover_window_report k w mw a0 v res v' :
  quiet k a0 v → run (recover_window repair open_interest k w mw) v = (Ok res, v') →
  plain_report k (oi_required open_interest k) (w_db v') (Some w) res ∨ restored_facts k w (w_db v') res.
Proof.
  intros Hq. unfold recover_window. intros (u & v1 & Ha & H)%run_bind_ok.
  apply (quiet_step _ _ _ _ (keeps_recovery_auditing k a0)) in Hq. rewrite Ha in Hq. clear Ha. cbn [snd] in Hq.
  apply run_bind_ok in H as (q & v2 & Hreq & H). injection Hreq as Hreq <-.
  pose proof (RepairRequest_new_ok _ _ _ _ _ Hreq) as (Eq & Hlt & Hmw & Hs & He).
  apply run_bind_ok in H as (r & v3 & Hrep & H).
  assert (Hq1 : quiet k (w_db v1) v1) by (destruct Hq as [? [? ?]]; by split; [|apply good_refl]).
  destruct (run_track_repair candle_stored repair k w mw q r v1 v3 Hreq Hq1 Hrep) as (Hq3 & Hrp & Hcov).
  case_bool_decide as Hf.
  { injection H as <- _. left. split; try done; [apply failure_class_plain|by apply (rp_failed _ _ _ _ Hrp)]. }
  destruct (repair_continuous r) eqn:Hc; cbn [negb] in H; [|injection H as <- _; by left].
  assert (Hok : rr_status r = REPAIR_COMPLETE).
  { unfold repair_continuous in Hc. bool_hyps. by destruct (rr_status r). }
  specialize (Hcov Hok).
  destruct Hq3 as [Htx3 Hg3]. pose proof Hg3 as [Hi3 _].
  assert (Hq3' : quiet k (w_db v3) v3) by (split; [done|by apply good_refl]).
  pose proof (finish_restored k w r) as Hfin. unfold oi_required in Hfin |- *.
  destruct open_interest as [track|] eqn:Et; [|by eapply Hfin].
  destruct (track_required track k) eqn:Ereq; [|by eapply Hfin].
  apply run_bind_ok in H as (oi & v4 & Hoi & H). unfold track_repair in Hoi.
  apply run_bind_ok in Hoi as (q' & v5 & Hreq' & Hoi). injection Hreq' as Hreq' <-.
  destruct (run_track_repair oi_stored (ot_repair track) k w mw q' oi v3 v4 Hreq' Hq3' Hoi) as (Hq4 & Hrp' & Hcov').
  case_bool_decide as Hst.
  { destruct Hq4 as [Htx4 Hg4]. eapply Hfin; try done; [by destruct Hg4| |by intros _; apply Hcov'].
    by eapply (store_covered_good candle_stored candle_open_times). }
  injection H as <- _. left. apply unfinished_plain; [done|]. by intros ?%(rp_failed _ _ _ _ Hrp').
Qed.
End report.

Section theorems.
Context `{E : Env} (repair : StreamRepair) `{HP : !RepairPromise candle_stored repair}
  (open_interest : option OpenInterestRecoveryTrack)
  `{HO : !RepairPromise oi_stored (from_option ot_repair repair open_interest)}.

Lemma restored_recovery_report k w a a' requested res :
  restored_facts open_interest k w a' res → good k a a' → (∀ w1, requested = Some w1 → w = w1) →
  recovery_report k (oi_required open_interest k) requested a a' res.
Proof.
  intros (H1 & H2 & H3 & H4 & H5 & H6) Hg Hr. pose proof (rd_window _ _ _ _ _ H5) as Hw.
  split; try done.
  - intros _. by exists w.
  - rewrite (rd_through _ _ _ _ _ H5). split; [by eexists|done].
  - by rewrite H4.
  - intros w1 w2 Hw1. rewrite Hw. intros [= <-]. by apply Hr.
Qed.

(** Where the window of a run comes from. *)
Definition window_origin (req : RealtimeRecoveryRequest) (a : AbsStore) (n c : nat) (w : TimeWindow) : Prop :=
  match rv_recovery_window req with
  | Some w1 => w = w1
  | None => ∃ v v',
      run (mark_unavailable (rc_stream (rv_signal req)) (recovery_reason_value (rc_reason (rv_signal req))))
        (mkWorld a None n c) = (Ok (), v) ∧
      run (derive_window (rv_signal req)) v = (Ok (Some w), v')
  end.

(** The window of a run, and what the run reports of it. *)
Lemma recover_cases req a n c :
  store_inv a → is_Some (ab_streams a !! rc_stream (rv_signal req)) →
  ∃ res w', run (recover repair open_interest req) (mkWorld a None n c) = (Ok res, w') ∧
    ((∃ ow, plain_report (rc_stream (rv_signal req)) (oi_required open_interest (rc_stream (rv_signal req)))
          (w_db w') ow res ∧ ∀ w, ow = Some w → window_origin req a n c w) ∨
     ∃ w, restored_facts open_interest (rc_stream (rv_signal req)) w (w_db w') res ∧ window_origin req a n c w).
Proof.
  set (k := rc_stream (rv_signal req)). intros Hi Hk.
  destruct (run_mark_unavailable k (recovery_reason_value (rc_reason (rv_signal req))) a n c Hi Hk) as [v Hv].
  unfold recover. cbv zeta. rewrite run_bind. fold k. rewrite Hv, run_try, run_bind.
  assert (Hq : quiet k a v).
  { pose proof (quiet_step k a (mark_unavailable k (recovery_reason_value (rc_reason (rv_signal req))))
      (mkWorld a None n c) (keeps_mark_unavailable _ _ _)) as Hq. rewrite Hv in Hq. apply Hq.
    split; [done|by apply good_refl]. }
  set (pw := match rv_recovery_window req with Some w => mret (Some w) | None => derive_window (rv_signal req) end).
  assert (Hq' : quiet k a (run pw v).2).
  { apply quiet_step; [|done]. unfold pw. destruct (rv_recovery_window req); auto with keeps. }
  destruct (run pw v) as [[[w|]|exc] v1] eqn:Epw.
  - assert (Hw : window_origin req a n c w).
    { unfold window_origin, pw in *. fold k. rewrite Hv.
      destruct (rv_recovery_window req); [by injection Epw as <- _|by exists v, v1]. }
    destruct (run (recover_window repair open_interest k w (rv_max_windows req)) v1) as [[res|exc] v2] eqn:Er.
    + exists res, v2. split; [done|].
      destruct (recover_window_report repair open_interest k w _ a v1 res v2 Hq' Er) as [Hp|Hr].
      * left. exists (Some w). split; [done|]. by intros w1 [= <-].
      * right. by exists w.
    + eexists _, _. split; [reflexivity|]. left. exists None. split; [|done].
      split; try done; apply failure_class_plain.
  - eexists _, _. split; [reflexivity|]. left. exists None. by split; [split|].
  - eexists _, _. split; [reflexivity|]. left. exists None. split; [|done].
    split; try done; apply failure_class_plain.
Qed.

(** The lifecycle and the latest candle after [mark_unavailable]. *)
Lemma mark_unavailable_keeps k reason a n c r v :
  store_inv a → ab_streams a !! k = Some r → run (mark_unavailable k reason) (mkWorld a None n c) = (Ok (), v) →
  ∃ r', ab_streams (w_db v) !! k = Some r' ∧
    latest_committed_open_time_ms (sr_state r') = latest_committed_open_time_ms (sr_state r) ∧
    earliest_available_open_time_ms (sr_state r') = earliest_available_open_time_ms (sr_state r).
Proof.
  intros Hi Hr. unfold mark_unavailable. rewrite run_bind, (run_transition_in_uow a n c k r) by done.
  pose proof (store_inv_lookup _ _ _ Hi Hr) as [Hk Hv _ _].
  case_bool_decide; [|by intros [= <-]; exists r]. set (t := mkTransition _ _ _).
  destruct (apply_transition (sr_state r) t (env_clock n)) as [s|e] eqn:Et; [|done].
  intros [= <-]. exists (upd_state r s). cbn [w_db ab_streams with_stream]. rewrite lookup_insert_eq.
  split; [done|]. unfold apply_transition in Et. apply transition_ok in Et as (_ & _ & ->); [|done]. done.
Qed.
End theorems.

(** C6. A recovery of a registered stream always returns a result.  Restored means that every bar of
    its window is stored on every required track, up to the closed boundary of the moment it
    ended, and it reports the last bar; every other result carries an error code and no proven
    bar, and a follow-up window only continues where the window ended.  The store stays canonical
    and only the stream is touched. *)
Theorem recovery_reports `{E : Env} (repair : StreamRepair) `{!RepairPromise candle_stored repair}
    (open_interest : option OpenInterestRecoveryTrack)
    `{!RepairPromise oi_stored (from_option ot_repair repair open_interest)}
    (req : RealtimeRecoveryRequest) (a : AbsStore) (n c : nat) :
  store_inv a → is_Some (ab_streams a !! rc_stream (rv_signal req)) →
  match run (recover repair open_interest req) (mkWorld a None n c) with
  | (Ok res, w') =>
      w_tx w' = None ∧
      recovery_report (rc_stream (rv_signal req)) (oi_required open_interest (rc_stream (rv_signal req)))
        (rv_recovery_window req) a (w_db w') res
  | (Raise _, _) => False
  end.
Proof.
  intros Hi Hk. destruct (recover_cases repair open_interest req a n c Hi Hk) as (res & w' & Hrun & Hc).
  pose proof (quiet_step _ a (recover repair open_interest req) (mkWorld a None n c)
    (keeps_recover repair open_interest a req)) as Hq.
  rewrite Hrun in Hq |- *. destruct Hq as [Htx Hg]; [by split; [|apply good_refl]|]. split; [exact Htx|].
  unfold window_origin in Hc. destruct Hc as [(ow & Hp & Hw)|(w & Hf & Hw)].
  - eapply plain_recovery_report; [exact Hp|exact Hg|]. intros w1 w2 Hw1 Hw2. specialize (Hw w2 Hw2).
    by rewrite Hw1 in Hw.
  - eapply restored_recovery_report; [exact Hf|exact Hg|]. intros w1 Hw1. by rewrite Hw1 in Hw.
Qed.

(** What the supervisor's model says is stored, when it is what a store has. *)
Definition stored_in (a : AbsStore) (tr : Track) (k : StreamKey) (t : Z) : Prop :=
  ∃ r, ab_streams a !! k = Some r ∧
    match tr with CANDLES => candle_stored r t | OPEN_INTEREST => oi_stored r t end.

Lemma store_covered_in a tr k s e :
  store_covered (match tr with CANDLES => candle_stored | OPEN_INTEREST => oi_stored end) k a s e →
  covered (stored_in a tr k) k s e.
Proof. intros (r & Hr & Hc) t Ht Hrange. exists r. split; [done|]. specialize (Hc t Ht Hrange). by destruct tr. Qed.

(** The supervisor may trust a restored recovery.  A recovery of a signal that starts no later
    than the bar after what every required track proves - which is how the supervisor signals -
    and is reported as restored is an honest report: every bar from the frontier to the reported
    one is stored on every required track.  It needs the proven bound of the history to be no
    later than the signal and no stored candle ahead of the clock. *)
Theorem restored_recovery_honest `{E : Env} (repair : StreamRepair) `{!RepairPromise candle_stored repair}
    (open_interest : option OpenInterestRecoveryTrack)
    `{!RepairPromise oi_stored (from_option ot_repair repair open_interest)}
    (sig : RecoveryRequired) (max_windows : Z) (a : AbsStore) (r : StreamRec) (n c : nat)
    (res : RealtimeRecoveryResult) (w' : World AbsStore) (sys : System) (f : RealtimeStreamFacts)
    (fr st : Z) :
  store_inv a → ab_streams a !! rc_stream sig = Some r →
  run (recover repair open_interest (mkRecoveryRequest sig max_windows None)) (mkWorld a None n c) =
    (Ok res, w') →
  vr_classification res = RESTORED →
  f_stream f = rc_stream sig → f_open_interest_required f = oi_required open_interest (rc_stream sig) →
  sys_stored sys = stored_in (w_db w') →
  continuity_frontier_ms f = Some fr →
  rc_suspected_start_time_ms sig = Some st → st ≤ fr + stream_step (rc_stream sig) →
  (∀ b, earliest_available_open_time_ms (sr_state r) = Some b → b ≤ st) →
  (∀ l m, latest_committed_open_time_ms (sr_state r) = Some l →
    l < env_clock m - env_clock m mod stream_step (rc_stream sig)) →
  honest sys f (CallRecovery (rc_stream sig) true false (vr_restored_through_open_time_ms res)).
Proof.
  intros Hi Hr Hrun Hres Hf Hreq Hst Hfr Hsig Hle Hb Hclock _.
  destruct (recover_cases repair open_interest (mkRecoveryRequest sig max_windows None) a n c Hi
    (ex_intro _ r Hr)) as (res' & v0 & Hrun' & Hc).
  rewrite Hrun in Hrun'. injection Hrun' as <- <-. destruct Hc as [(ow & Hp & _)|(w & Hd & v & v' & Hm & Hw)].
  { by destruct (pp_class _ _ _ _ _ Hp). }
  cbn [rv_signal rv_recovery_window] in *.
  destruct (mark_unavailable_keeps _ _ a n c r v Hi Hr Hm) as (r1 & Hr1 & Hlatest & Hearliest).
  pose proof (quiet_step (rc_stream sig) a (mark_unavailable (rc_stream sig)
    (recovery_reason_value (rc_reason sig))) (mkWorld a None n c) (keeps_mark_unavailable _ _ _)) as Hq.
  rewrite Hm in Hq. destruct Hq as [Htx [Hi1 _]]; [by split; [|apply good_refl]|]. cbn [snd] in Htx, Hi1.
  destruct (derive_window_spec sig v r1 w v' Htx Hi1 Hr1 Hw) as (_ & _ & _ & latest & Hl & _ & Hstart).
  specialize (Hstart st st Hsig). rewrite Hearliest in Hstart. rewrite Hlatest in Hl.
  specialize (Hstart Hb (Hclock latest (w_ticks v) Hl)).
  destruct Hd as (_ & _ & _ & _ & [Hrw Hthr [Hse Hbar] Hcan Hoi] & _).
  exists (start_ms w), (end_ms w - stream_step (rc_stream sig)). rewrite Hf, Hst. split; [done|].
  split; [done|]. split; [done|]. intros tr Htr. split.
  - apply store_covered_in. destruct tr; [done|]. apply Hoi. cbn in Htr. by rewrite <- Hreq.
  - intros p Hp. destruct (continuity_frontier_required f fr tr Hfr Htr) as (p' & Hp' & Hle').
    rewrite Hp in Hp'. injection Hp' as <-. lia.
Qed.

(** ** An example: one missing bar is imported and the stream is restored *)

Definition recovery_env : Env := {|
  env_clock := λ n, 130000 + Z.of_nat n;
  env_fetch_closed_candles := λ _ k _ _,
    Ok [example_candle 0 11 BYBIT_REST; example_candle 60000 11 BYBIT_REST];
  env_fetch_open_interest := λ _ _ _ _, Ok [];
  env_launch_time_ms := λ _ _, Ok 0;
  env_specification := λ _ i, Specification_new i "BTCUSDT" "linear" "LinearPerpetual" "Trading" "USDT" 0
|}.
#[local] Existing Instance recovery_env.

#[local] Instance recovery_env_ok : EnvOk.
Proof.
  intros c k w t l [= <-]. repeat (constructor; [by apply example_candle_parsed|]). constructor.
Qed.

(** The first bar is committed. *)
Definition recovery_store : AbsStore :=
  w_db (run (ingest_execute (example_candle 0 11 BYBIT_REST) 950) (mkWorld example_store None 0 0)).2.

Lemma recovery_store_inv : store_inv recovery_store.
Proof.
  destruct (run_ingest_execute example_store 0 0 (example_candle 0 11 BYBIT_REST) 950 example_store_inv
    ltac:(by apply example_candle_parsed)) as (res & a' & Hrun & _ & Hi).
  unfold recovery_store. by rewrite Hrun.
Qed.

Definition recovery_signal : RecoveryRequired :=
  mkRecoveryRequired example_stream SEQUENCE_DISCONTINUITY 130000 (Some 60000).
Definition recovery_request : RealtimeRecoveryRequest := mkRecoveryRequest recovery_signal 5 None.

#[local] Instance recovery_oi_promise :
  RepairPromise oi_stored (from_option ot_repair (wired_repair 1000) (Some (mkRecoveryTrack [] (wired_oi_repair 200)))).
Proof. cbn. exact _. Qed.

Lemma recovery_reports_witness :
  let track := Some (mkRecoveryTrack [] (wired_oi_repair 200)) in
  let p := run (recover (wired_repair 1000) track recovery_request) (mkWorld recovery_store None 0 0) in
  vr_classification <$> p.1 = Ok RESTORED ∧
  match p with
  | (Ok res, w') =>
      w_tx w' = None ∧ recovery_report example_stream false None recovery_store (w_db w') res
  | (Raise _, _) => False
  end.
Proof.
  intros track p. split; [by vm_compute|].
  apply (recovery_reports (wired_repair 1000) track recovery_request recovery_store 0 0);
    [apply recovery_store_inv|by vm_compute; eexists].
Defined.

Lemma restored_recovery_honest_witness :
  let track := Some (mkRecoveryTrack [] (wired_oi_repair 200)) in
  match run (recover (wired_repair 1000) track recovery_request) (mkWorld recovery_store None 0 0) with
  | (Ok res, w') =>
      honest (mkSystem (mkSupervisor [] false 0) (stored_in (w_db w')) (λ _ _, None))
        (example_live_facts example_stream 0)
        (CallRecovery example_stream true false (vr_restored_through_open_time_ms res))
  | (Raise _, _) => False
  end.
Proof.
  intros track.
  assert (Hc : vr_classification <$>
    (run (recover (wired_repair 1000) track recovery_request) (mkWorld recovery_store None 0 0)).1 = Ok RESTORED)
    by (by vm_compute).
  assert (Hr : ∃ r, ab_streams recovery_store !! example_stream = Some r ∧
    earliest_available_open_time_ms (sr_state r) = Some 0 ∧ latest_committed_open_time_ms (sr_state r) = Some 0)
    by (vm_compute; eexists; split; [reflexivity|by split]).
  destruct (run _ _) as [[res|e] w'] eqn:Hp; [|done]. destruct Hr as (r & Hr & Hb & Hl).
  injection Hc as Hres.
  refine (restored_recovery_honest (wired_repair 1000) track recovery_signal 5 recovery_store r 0 0 res w'
    (mkSystem (mkSupervisor [] false 0) (stored_in (w_db w')) (λ _ _, None))
    (example_live_facts example_stream 0) 0 60000 recovery_store_inv Hr Hp Hres
    eq_refl eq_refl eq_refl eq_refl eq_refl _ _ _).
  - by vm_compute.
  - rewrite Hb. intros b [= <-]. done.
  - rewrite Hl. intros l m [= <-]. change (env_clock m) with (130000 + Z.of_nat m).
    change (stream_step (rc_stream recovery_signal)) with 60000.
    pose proof (Z.mod_pos_bound (130000 + Z.of_nat m) 60000 ltac:(lia)). lia.
Defined.
