(* ===== verification/RuntimeStatus.v ===== *)
(** * The runtime's lifecycle recorder, admission gate and readiness projection

    runtime/lifecycle.py, runtime/admission.py, runtime/realtime_lifecycle.py and
    runtime/status.py.  [RuntimeLifecycleRecorder.snapshot] reads committed state through the
    read-only reader ([EvRead]); every transition is a unit of work of its own.
    [RuntimeStatus] is the state of [RuntimeStatusStore]; a method that raises [KeyError]
    keeps what it wrote before.  Logging is left out: no state depends on it. *)

From S2P Require Import Prelude PyStr DecimalValues Timeframes Identity Gaps Candles StreamState.
From S2P Require Import Instruments OpenInterest Storage AbsStore Ingest ImportWindow UseCase.
From S2P Require Import RealtimeFacts Supervisor LifecycleUpdate.

(** ** lifecycle.py *)

Definition snapshot (k : StreamKey) : M StreamStateSnapshot := read_op (GetStreamState k).

(** [_transition] *)
Definition transition (k : StreamKey) (t : Transition) : M StreamStateSnapshot :=
  transition_in_uow k (λ _, Ok (Some t)).

Definition prepare_for_bootstrap (k : StreamKey) : M StreamStateSnapshot :=
  s ← snapshot k;
  match ss_state s with
  | BOOTSTRAPPING => mret s
  | st =>
      s ← (if bool_decide (st = FAILED) then transition k (plain UNINITIALIZED)
           else if bool_decide (st ∉ [UNINITIALIZED; DEGRADED])
           then transition k (mkTransition DEGRADED (Some "startup_reconciliation_required"%string)
                  (Some "persisted state must be reconciled after process start"%string))
           else mret s);
      if bool_decide (ss_state s ≠ BOOTSTRAPPING) then transition k (plain BOOTSTRAPPING) else mret s
  end.

Definition mark_auditing (k : StreamKey) : M StreamStateSnapshot :=
  s ← snapshot k;
  match ss_state s with
  | AUDITING => mret s
  | REPAIRING | FAILED | DEGRADED | BOOTSTRAPPING => transition k (plain AUDITING)
  | st => lift (raise ExcValueError ("cannot enter auditing from " +:+ lifecycle_value st))
  end.

(** [mark_connecting], [mark_ready], [mark_degraded] and [mark_failed]: a transition unless the
    stream is there already. *)
Definition mark (k : StreamKey) (t : Transition) : M StreamStateSnapshot :=
  s ← snapshot k;
  if bool_decide (ss_state s = tn_target t) then mret s else transition k t.

Definition mark_connecting (k : StreamKey) : M StreamStateSnapshot := mark k (plain CONNECTING).
Definition mark_ready (k : StreamKey) : M StreamStateSnapshot := mark k (plain READY).
Definition mark_degraded (k : StreamKey) (reason : string) : M StreamStateSnapshot :=
  mark k (mkTransition DEGRADED (Some "runtime_degraded"%string) (Some reason)).
Definition mark_failed (k : StreamKey) (reason : string) : M StreamStateSnapshot :=
  mark k (mkTransition FAILED (Some "runtime_failed"%string) (Some reason)).

(** ** admission.py *)

Definition AdmissionGate : Type := list StreamKey.
Definition admit_stream (k : StreamKey) (gate : AdmissionGate) : AdmissionGate :=
  if bool_decide (k ∈ gate) then gate else gate ++ [k].
Definition allows (gate : AdmissionGate) (k : StreamKey) : bool := bool_decide (k ∈ gate).

(** [AdmissionGatedCandleHandler.handle] over the wrapped handler. *)
Definition gated_handle {A} (gate : AdmissionGate) (handler : StreamKey → ObservedCandle → M (option A))
    (k : StreamKey) (candle : ObservedCandle) : M (option A) :=
  if negb (allows gate k) then mret None else handler k candle.

(** ** status.py *)

Record RuntimeStreamStatus := mkStreamStatus {
  st_stream : string;
  st_durable_state : string;
  st_realtime_status : string;
  st_data_ready : bool;
  st_realtime_live : bool;
  st_ready : bool;
  st_reason : option string
}.

#[export] Instance RuntimeStreamStatus_eq_dec : EqDecision RuntimeStreamStatus.
Proof. solve_decision. Defined.

Record RuntimeStatus := mkStatus {
  sts_healthy : bool;
  sts_fatal_error : option string;
  sts_aggregate_ready : bool;
  sts_blocking : gmap StreamKey string;
  sts_streams : list (StreamKey * RuntimeStreamStatus)    (* the dictionary, in insertion order *)
}.

Definition initial_stream_status (k : StreamKey) : RuntimeStreamStatus :=
  mkStreamStatus (stream_canonical_id k) "uninitialized" "expected" false false false
    (Some "startup_pending"%string).

Definition RuntimeStatus_new (streams : list StreamKey) : RuntimeStatus :=
  mkStatus false None false ∅ (map (λ k, (k, initial_stream_status k)) (dict_order streams)).

Definition mark_healthy (s : RuntimeStatus) : RuntimeStatus :=
  mkStatus true None (sts_aggregate_ready s) (sts_blocking s) (sts_streams s).
Definition mark_fatal (detail : string) (s : RuntimeStatus) : RuntimeStatus :=
  mkStatus false (Some detail) (sts_aggregate_ready s) (sts_blocking s) (sts_streams s).

Definition find_status (l : list (StreamKey * RuntimeStreamStatus)) (k : StreamKey) :
    option RuntimeStreamStatus :=
  snd <$> List.find (λ p, bool_decide (p.1 = k)) l.

(** [bool(streams) and all(item.ready for item in streams)] *)
Definition aggregate (l : list (StreamKey * RuntimeStreamStatus)) : bool :=
  negb (bool_decide (l = [])) && forallb (λ p, st_ready p.2) l.

(** [_replace_stream_locked] *)
Definition replace_stream (k : StreamKey) (status : RuntimeStreamStatus) (s : RuntimeStatus) :
    res () * RuntimeStatus :=
  match find_status (sts_streams s) k with
  | None => (raise ExcKeyError (stream_repr k), s)
  | Some _ =>
      let streams := map (λ p, if bool_decide (p.1 = k) then (p.1, status) else p) (sts_streams s) in
      (Ok (), mkStatus (sts_healthy s) (sts_fatal_error s) (aggregate streams) (sts_blocking s) streams)
  end.

(** [_reason]; an empty text is no reason. *)
Definition truthy_text (x : option string) : option string :=
  match x with Some s => if bool_decide (s = ""%string) then None else Some s | None => None end.

Definition status_reason (durable : StreamStateSnapshot) (realtime : option RealtimeStreamFacts) : string :=
  match truthy_text (last_error_code durable) with
  | Some code => code
  | None =>
      if negb (is_ready durable) then lifecycle_value (ss_state durable)
      else match realtime with
      | None => "realtime_not_started"
      | Some f =>
          match truthy_text (f_fatal_error_code f) with
          | Some code => code
          | None =>
              if f_recovery_pending f then "recovery_pending"
              else if negb (f_subscription_active f) then "subscription_inactive"
              else if negb (f_recovery_restored f) then "recovery_not_restored"
              else realtime_status_value (f_status f)
          end
      end
  end%string.

Definition stream_status (blocking : gmap StreamKey string) (durable : StreamStateSnapshot)
    (realtime : option RealtimeStreamFacts) : RuntimeStreamStatus :=
  let ready := is_ready durable && from_option data_ready false realtime in
  let override := truthy_text (blocking !! ss_stream durable) in
  mkStreamStatus (stream_canonical_id (ss_stream durable)) (lifecycle_value (ss_state durable))
    (from_option (λ f, realtime_status_value (f_status f)) "not_started"%string realtime)
    ready (from_option realtime_live false realtime) ready
    (if ready then None
     else Some (match override with Some o => o | None => status_reason durable realtime end)).

Definition update_stream (durable : StreamStateSnapshot) (realtime : option RealtimeStreamFacts)
    (s : RuntimeStatus) : res () * RuntimeStatus :=
  replace_stream (ss_stream durable) (stream_status (sts_blocking s) durable realtime) s.

Definition set_blocking_reason (k : StreamKey) (reason : string) (s : RuntimeStatus) :
    res () * RuntimeStatus :=
  let s := mkStatus (sts_healthy s) (sts_fatal_error s) (sts_aggregate_ready s)
             (<[k := reason]> (sts_blocking s)) (sts_streams s) in
  match find_status (sts_streams s) k with
  | None => (raise ExcKeyError (stream_repr k), s)
  | Some c =>
      replace_stream k (mkStreamStatus (st_stream c) (st_durable_state c) (st_realtime_status c) false
                          (st_realtime_live c) false (Some reason)) s
  end.

Definition clear_blocking_reason (k : StreamKey) (s : RuntimeStatus) : RuntimeStatus :=
  mkStatus (sts_healthy s) (sts_fatal_error s) (sts_aggregate_ready s) (delete k (sts_blocking s))
    (sts_streams s).

(** [health_document] and [readiness_document], field by field. *)
Definition health_document (s : RuntimeStatus) : string * option string :=
  (if sts_healthy s then "healthy"%string else "unhealthy"%string, sts_fatal_error s).
Definition readiness_document (s : RuntimeStatus) : bool * list RuntimeStreamStatus :=
  (sts_aggregate_ready s, map snd (sts_streams s)).

(** ** realtime_lifecycle.py *)

(** The condition of the last branch: the facts do not support a connected stream. *)
Definition not_current (f : RealtimeStreamFacts) : bool :=
  f_recovery_pending f || negb (current f)
  || bool_decide (f_status f ∈ [DISCONNECTED; STALE; RECOVERY_REQUIRED]).

(** The lifecycle part of [synchronize_stream_lifecycle]: the durable snapshot it projects. *)
Definition synchronize_durable (f : RealtimeStreamFacts) (admitted : bool) : M StreamStateSnapshot :=
  let k := f_stream f in
  durable ← snapshot k;
  if negb admitted then mret durable
  else if bool_decide (is_Some (truthy_text (f_fatal_error_code f))) && bool_decide (ss_state durable ≠ FAILED)
  then mark_failed k (from_option id ""%string (f_fatal_error_code f))
  else if data_ready f then
    durable ← (if bool_decide (ss_state durable = DEGRADED) then mark_connecting k else mret durable);
    if bool_decide (ss_state durable = CONNECTING) then mark_ready k else mret durable
  else if not_current f && bool_decide (ss_state durable ∈ [CONNECTING; READY])
  then mark_degraded k (if current f then realtime_status_value (f_status f) else "stale"%string)
  else mret durable.

Definition synchronize_stream_lifecycle (f : RealtimeStreamFacts) (admitted : bool) (status : RuntimeStatus) :
    M RuntimeStatus :=
  durable ← synchronize_durable f admitted;
  match update_stream durable (Some f) status with
  | (Ok _, status) => mret status
  | (Raise e, _) => lift (Raise e)
  end.

(** ** Facts: the recorder *)

Lemma keeps_snapshot `{E : Env} k k' a0 : keeps (good k a0) (snapshot k').
Proof. unfold snapshot. auto with keeps. Qed.
Lemma keeps_transition `{E : Env} k a0 t : keeps (good k a0) (transition k t).
Proof. unfold transition. auto with keeps. Qed.
#[export] Hint Resolve keeps_snapshot keeps_transition : keeps.
Lemma keeps_mark `{E : Env} k a0 t : keeps (good k a0) (mark k t).
Proof. unfold mark. keeps_tac. Qed.
Lemma keeps_prepare_for_bootstrap `{E : Env} k a0 : keeps (good k a0) (prepare_for_bootstrap k).
Proof. unfold prepare_for_bootstrap. keeps_tac. Qed.
Lemma keeps_mark_auditing `{E : Env} k a0 : keeps (good k a0) (mark_auditing k).
Proof. unfold mark_auditing. keeps_tac. Qed.
Lemma keeps_synchronize `{E : Env} f admitted a0 :
  keeps (good (f_stream f) a0) (synchronize_durable f admitted).
Proof.
  pose proof (keeps_mark (f_stream f) a0) as H.
  unfold synchronize_durable, mark_failed, mark_connecting, mark_ready, mark_degraded. cbv zeta. keeps_tac.
Qed.
#[export] Hint Resolve keeps_mark keeps_prepare_for_bootstrap keeps_mark_auditing keeps_synchronize : keeps.

Section run.
Context `{E : Env}.

Lemma run_snapshot a n c k r :
  store_inv a → ab_streams a !! k = Some r →
  run (snapshot k) (mkWorld a None n c) = (Ok (sr_state r), mkWorld a None n c).
Proof.
  intros Hi Hr. pose proof (store_inv_lookup _ _ _ Hi Hr) as [_ Hv _ _].
  unfold snapshot. rewrite run_read. cbn [w_db store_step abs_storage]. unfold read_stream. rewrite Hr.
  by rewrite snapshot_check_valid.
Qed.

(** The outcome of a recorder method: the stream is in [target], with its clock moved on when it
    was not there before. *)
Definition recorded (k : StreamKey) (a : AbsStore) (r : StreamRec) (target : StreamLifecycleState)
    (s : StreamStateSnapshot) (w : World AbsStore) : Prop :=
  w_db w = (if bool_decide (ss_state (sr_state r) = target) then a else with_stream a k (upd_state r s)) ∧
  w_tx w = None ∧ ss_state s = target ∧ ss_stream s = k ∧ snapshot_valid s ∧
  latest_committed_open_time_ms s = latest_committed_open_time_ms (sr_state r) ∧
  (ss_state (sr_state r) = target → s = sr_state r).

Lemma run_transition a n c k r t :
  store_inv a → ab_streams a !! k = Some r → lifecycle_step (ss_state (sr_state r)) (tn_target t) →
  ∃ s w, run (transition k t) (mkWorld a None n c) = (Ok s, w) ∧
    w = mkWorld (with_stream a k (upd_state r s)) None (S n) c ∧
    ss_state s = tn_target t ∧ ss_stream s = k ∧ snapshot_valid s ∧
    latest_committed_open_time_ms s = latest_committed_open_time_ms (sr_state r).
Proof.
  intros Hi Hr Hl. pose proof (store_inv_lookup _ _ _ Hi Hr) as [Hk Hv _ _].
  unfold transition. rewrite (run_transition_in_uow a n c k r) by done. cbv beta iota.
  destruct (apply_transition_ok (sr_state r) t (env_clock n) Hv) as [H1 H2].
  destruct (apply_transition (sr_state r) t (env_clock n)) as [s|e] eqn:Et.
  - eexists s, _. split; [reflexivity|]. split; [done|]. split; [by apply H2|].
    by apply (apply_transition_step k) in Et as (? & ? & ?).
  - exfalso. apply H1 in Hl. done.
Qed.

Lemma run_mark a n c k r t :
  store_inv a → ab_streams a !! k = Some r →
  (ss_state (sr_state r) ≠ tn_target t → lifecycle_step (ss_state (sr_state r)) (tn_target t)) →
  ∃ s w, run (mark k t) (mkWorld a None n c) = (Ok s, w) ∧ recorded k a r (tn_target t) s w.
Proof.
  intros Hi Hr Hl. pose proof (store_inv_lookup _ _ _ Hi Hr) as [Hk Hv _ _].
  unfold mark. rewrite run_bind, (run_snapshot a n c k r) by done. unfold recorded.
  case_bool_decide as Hst.
  - eexists _, _. split; [reflexivity|]. by repeat (split; [done|]).
  - destruct (run_transition a n c k r t Hi Hr (Hl Hst)) as (s & w & -> & -> & H1 & H2 & H3 & H4).
    eexists s, _. split; [reflexivity|]. by repeat (split; [done|]).
Qed.
End run.

(** ** The projection of the facts *)

(** The lifecycle state a synchronisation leads to. *)
Definition lifecycle_target (f : RealtimeStreamFacts) (admitted : bool) (st : StreamLifecycleState) :
    StreamLifecycleState :=
  if negb admitted then st
  else if bool_decide (is_Some (truthy_text (f_fatal_error_code f))) then FAILED
  else if data_ready f then (if bool_decide (st ∈ [DEGRADED; CONNECTING]) then READY else st)
  else if not_current f && bool_decide (st ∈ [CONNECTING; READY]) then DEGRADED
  else st.

Lemma data_ready_not_fatal f : data_ready f = true → f_fatal_error_code f = None.
Proof. unfold data_ready. intros H. by bool_hyps. Qed.

(** What a synchronisation did to the store. *)
Definition synchronized (k : StreamKey) (a : AbsStore) (r : StreamRec) (s : StreamStateSnapshot)
    (w : World AbsStore) : Prop :=
  w_tx w = None ∧ store_inv (w_db w) ∧ stream_frame k a (w_db w) ∧
  ab_streams (w_db w) !! k = Some (upd_state r s) ∧ ss_stream s = k ∧ snapshot_valid s ∧
  latest_committed_open_time_ms s = latest_committed_open_time_ms (sr_state r).

Lemma upd_state_same r : upd_state r (sr_state r) = r.
Proof. by destruct r. Qed.

Lemma synchronized_same k a r n c :
  store_inv a → ab_streams a !! k = Some r → synchronized k a r (sr_state r) (mkWorld a None n c).
Proof.
  intros Hi Hr. pose proof (store_inv_lookup _ _ _ Hi Hr) as [Hk Hv _ _]. unfold synchronized. cbn.
  rewrite upd_state_same. by repeat (split; [done|]).
Qed.

Section sync.
Context `{E : Env}.

Lemma synchronized_mark a n c k r t :
  store_inv a → ab_streams a !! k = Some r →
  (ss_state (sr_state r) ≠ tn_target t → lifecycle_step (ss_state (sr_state r)) (tn_target t)) →
  ∃ s w, run (mark k t) (mkWorld a None n c) = (Ok s, w) ∧ ss_state s = tn_target t ∧ synchronized k a r s w.
Proof.
  intros Hi Hr Hl. destruct (run_mark a n c k r t Hi Hr Hl) as (s & w & Hrun & Hdb & Htx & H1 & H2 & H3 & H4 & H5).
  exists s, w. split; [done|]. split; [done|].
  assert (Hg : good k a (w_db w)).
  { destruct (keeps_mark k a t (mkWorld a None n c)) as [[Hg _] _]; [by split; [apply good_refl|]|].
    by rewrite Hrun in Hg. }
  destruct Hg as [Hi' Hf]. do 3 (split; [done|]). split; [|done]. rewrite Hdb. case_bool_decide as Hst.
  - by rewrite H5, upd_state_same.
  - cbn. by rewrite lookup_insert_eq.
Qed.

(** A second step after a first. *)
Lemma synchronized_trans k a r s1 w1 s2 w2 :
  synchronized k a r s1 w1 → synchronized k (w_db w1) (upd_state r s1) s2 w2 → synchronized k a r s2 w2.
Proof.
  intros (_ & Hi1 & Hf1 & _ & _ & _ & Hl1) (Ht & Hi & Hf & Hr & Hk & Hv & Hl). unfold synchronized.
  do 2 (split; [done|]). split; [by transitivity (w_db w1)|]. split; [by rewrite Hr|].
  split; [done|]. split; [done|]. by rewrite Hl.
Qed.

Lemma synchronized_mark_from a k r s1 w1 t :
  synchronized k a r s1 w1 →
  (ss_state s1 ≠ tn_target t → lifecycle_step (ss_state s1) (tn_target t)) →
  ∃ s w, run (mark k t) w1 = (Ok s, w) ∧ ss_state s = tn_target t ∧ synchronized k a r s w.
Proof.
  intros Hs Hl. pose proof Hs as (Ht & Hi1 & _ & Hr1 & _). destruct w1 as [a1 tx n1 c1]. cbn in Ht, Hi1, Hr1.
  subst tx. destruct (synchronized_mark a1 n1 c1 k _ t Hi1 Hr1 Hl) as (s & w & Hrun & Hst & H).
  exists s, w. split; [done|]. split; [done|]. by eapply synchronized_trans.
Qed.

(** What the lifecycle part of a synchronisation does. *)
Lemma run_synchronize_durable a n c f admitted r :
  store_inv a → ab_streams a !! f_stream f = Some r →
  ∃ s w, run (synchronize_durable f admitted) (mkWorld a None n c) = (Ok s, w) ∧
    ss_state s = lifecycle_target f admitted (ss_state (sr_state r)) ∧ synchronized (f_stream f) a r s w.
Proof.
  intros Hi Hr. pose proof (synchronized_same _ _ _ n c Hi Hr) as Hsame.
  unfold synchronize_durable, lifecycle_target, mark_failed, mark_connecting, mark_ready, mark_degraded.
  cbv zeta. rewrite run_bind, (run_snapshot a n c _ r) by done.
  destruct (negb admitted); [by eexists _, _|].
  destruct (bool_decide (is_Some _)) eqn:Hfatal.
  { destruct (bool_decide (ss_state (sr_state r) ≠ FAILED)) eqn:Hst; cbn [andb].
    - apply synchronized_mark; [done..|]. intros _. by destruct (ss_state (sr_state r)).
    - rewrite bool_decide_eq_false in Hst. apply dec_stable in Hst. rewrite Hst.
      destruct (data_ready f) eqn:Hd.
      { apply data_ready_not_fatal in Hd. by rewrite Hd in Hfatal. }
      rewrite andb_comm. cbn. by eexists _, _. }
  cbn [andb]. destruct (data_ready f).
  - rewrite run_bind. destruct (decide (ss_state (sr_state r) = DEGRADED)) as [Hst|Hst].
    + destruct (synchronized_mark a n c _ r (plain CONNECTING) Hi Hr) as (s & w & Hrun & Hs & Hsync);
        [by rewrite Hst|].
      rewrite !bool_decide_true, Hrun by set_solver. cbv iota beta. rewrite bool_decide_true by done.
      apply (synchronized_mark_from _ _ _ s w (plain READY)); [done|]. by rewrite Hs.
    + rewrite (bool_decide_false (_ = DEGRADED)), run_ret by done.
      destruct (decide (ss_state (sr_state r) = CONNECTING)) as [Hst'|Hst'].
      * rewrite Hst'. apply synchronized_mark; [done..|]. by rewrite Hst'.
      * rewrite !bool_decide_false by set_solver. by eexists _, _.
  - destruct (not_current f); cbn [andb]; [|by eexists _, _].
    destruct (bool_decide (ss_state (sr_state r) ∈ [CONNECTING; READY])) eqn:Hst; [|by eexists _, _].
    rewrite bool_decide_eq_true in Hst. apply synchronized_mark; [done..|]. intros _. cbn.
    apply elem_of_cons in Hst as [->|[->|[]%elem_of_nil]%elem_of_cons]; done.
Qed.
End sync.

(** ** The status projection *)

Lemma find_status_replaced l k status k' :
  find_status (map (λ p, if bool_decide (p.1 = k) then (p.1, status) else p) l) k' =
  if bool_decide (k' = k) then (λ _, status) <$> find_status l k' else find_status l k'.
Proof.
  induction l as [|[k0 x] l IH]; [by case_bool_decide|]. unfold find_status in *. cbn.
  destruct (decide (k0 = k)) as [->|Hk0].
  - rewrite !(bool_decide_true (k = k)) by done. cbn. destruct (decide (k = k')) as [->|Hk'].
    + by rewrite !(bool_decide_true (k' = k')).
    + by rewrite !(bool_decide_false (k = k')), IH.
  - rewrite !(bool_decide_false (k0 = k)) by done. cbn. destruct (decide (k0 = k')) as [->|Hk'].
    + by rewrite !(bool_decide_true (k' = k')), bool_decide_false.
    + by rewrite !(bool_decide_false (k0 = k')), IH.
Qed.

Lemma aggregate_exact l : aggregate l = true ↔ l ≠ [] ∧ ∀ p, p ∈ l → st_ready p.2 = true.
Proof.
  unfold aggregate. rewrite andb_true_iff, negb_true_iff, bool_decide_eq_false, forallb_forall.
  by setoid_rewrite list_elem_of_In.
Qed.

Lemma update_stream_exact durable realtime s old :
  find_status (sts_streams s) (ss_stream durable) = Some old →
  ∃ s', update_stream durable realtime s = (Ok (), s') ∧
    sts_aggregate_ready s' = aggregate (sts_streams s') ∧ sts_blocking s' = sts_blocking s ∧
    ∀ k, find_status (sts_streams s') k =
      if bool_decide (k = ss_stream durable) then Some (stream_status (sts_blocking s) durable realtime)
      else find_status (sts_streams s) k.
Proof.
  intros Hold. unfold update_stream, replace_stream. rewrite Hold. eexists. split; [reflexivity|].
  cbn [sts_aggregate_ready sts_streams sts_blocking].
  do 2 (split; [done|]). intros k. rewrite find_status_replaced. case_bool_decide as Hk; [|done].
  by rewrite Hk, Hold.
Qed.

Lemma stream_status_ready blocking durable f :
  st_ready (stream_status blocking durable (Some f)) = true ↔ ss_state durable = READY ∧ data_ready f = true.
Proof. cbn. unfold is_ready. by rewrite andb_true_iff, bool_decide_eq_true. Qed.

(** C27. Synchronising a registered stream of the status store never raises.  The durable state becomes
    the one [lifecycle_target] names: a stream that is not admitted is left alone, a fatal error
    fails it, supported data readiness leads a degraded or connecting stream to [READY], and a
    pending recovery, facts that are not current or a lost connection degrade a connecting or ready
    one.  Only that stream of the store changes, its latest candle does not, and the store stays
    canonical with no open transaction.  The stream is published as ready exactly when its durable
    state is then [READY] and the facts are data-ready; the other entries stay, and the aggregate
    is the conjunction of the entries, false for none. *)
Theorem lifecycle_sync_exact `{E : Env} a n c f admitted r status old :
  let k := f_stream f in
  store_inv a → ab_streams a !! k = Some r → find_status (sts_streams status) k = Some old →
  ∃ s status' w,
    run (synchronize_stream_lifecycle f admitted status) (mkWorld a None n c) = (Ok status', w) ∧
    ss_state s = lifecycle_target f admitted (ss_state (sr_state r)) ∧ synchronized k a r s w ∧
    (∀ k', find_status (sts_streams status') k' =
       if bool_decide (k' = k) then Some (stream_status (sts_blocking status) s (Some f))
       else find_status (sts_streams status) k') ∧
    (st_ready (stream_status (sts_blocking status) s (Some f)) = true ↔
       ss_state s = READY ∧ data_ready f = true) ∧
    (sts_aggregate_ready status' = true ↔
       sts_streams status' ≠ [] ∧ ∀ p, p ∈ sts_streams status' → st_ready p.2 = true).
Proof.
  intros k Hi Hr Hold. destruct (run_synchronize_durable a n c f admitted r Hi Hr) as (s & w & Hrun & Hst & Hs).
  pose proof Hs as (_ & _ & _ & _ & Hk & _). fold k in Hk. rewrite <- Hk in Hold.
  destruct (update_stream_exact s (Some f) status old Hold) as (status' & Hup & Hagg & _ & Hfind).
  exists s, status', w. unfold synchronize_stream_lifecycle. rewrite run_bind, Hrun, Hup.
  do 3 (split; [done|]). split; [by rewrite Hk in Hfind|]. split; [apply stream_status_ready|].
  rewrite Hagg. apply aggregate_exact.
Qed.

#[local] Existing Instance example_env.

(** A degraded stream with ready facts: it is connected and published as ready. *)
Definition degraded_rec : StreamRec :=
  mkStreamRec (mkSnapshot example_stream DEGRADED (Some 0) None None None None None None None 10 10) ∅ ∅ ∅.
Definition degraded_store : AbsStore := with_stream example_store example_stream degraded_rec.

Lemma degraded_store_inv : store_inv degraded_store.
Proof.
  intros k r Hk. unfold degraded_store in Hk. cbn [ab_streams with_stream] in Hk.
  apply lookup_insert_Some in Hk as [[<- <-]|[_ Hk]]; [|by apply (example_store_inv k)].
  split; [done| | |].
  - by apply (snapshot_check_ok _ (sr_state degraded_rec)).
  - apply map_Forall_empty.
  - by intros t [? Ht].
Qed.

Lemma lifecycle_sync_exact_witness :
  let f := with_expected_open_time_ms (Some 60000) (example_live_facts example_stream 60000) in
  let status := RuntimeStatus_new [example_stream] in
  store_inv degraded_store ∧
  ∃ s status' w,
    run (synchronize_stream_lifecycle f true status) (mkWorld degraded_store None 0 0) = (Ok status', w) ∧
    ss_state s = READY ∧ sts_aggregate_ready status' = true.
Proof.
  intros f status. split; [apply degraded_store_inv|].
  destruct (lifecycle_sync_exact (E := example_env) degraded_store 0 0 f true degraded_rec status
    (initial_stream_status example_stream) degraded_store_inv) as (s & status' & w & Hrun & Hst & _ & Hfind & _ & Hagg).
  { by apply lookup_insert_eq. }
  { by vm_compute. }
  exists s, status', w. split; [exact Hrun|]. split; [by rewrite Hst; vm_compute|].
  apply (f_equal fst) in Hrun. vm_compute in Hrun. injection Hrun as <-. by vm_compute.
Defined.
