(* ===== verification/PyFloat.v ===== *)
(** * Python floats

    A [float] of the source is an IEEE 754 binary64 number: the standard library's
    specification of them, with the two parameters of the format.  Comparisons with a NaN are
    false, as in Python.  [py_float] is [float(text)], [int_of_float] is [int(x)]. *)

From Stdlib Require Import Floats.SpecFloat.
From S2P Require Import Prelude PyStr DecimalValues.

Definition float : Type := spec_float.

#[export] Instance float_eq_dec : EqDecision float.
Proof. solve_decision. Defined.

Definition prec : Z := 53.
Definition emax : Z := 1024.

(** The nearest float of [m * 2 ^ e]. *)
Definition float_of (m e : Z) : float := binary_normalize prec emax m e false.
Definition float_of_Z (n : Z) : float := float_of n 0.

Definition fadd : float → float → float := SFadd prec emax.
Definition fsub : float → float → float := SFsub prec emax.
Definition fmul : float → float → float := SFmul prec emax.
Definition flt : float → float → bool := SFltb.
Definition fgt (x y : float) : bool := flt y x.
Definition fge (x y : float) : bool := SFleb y x.

(** [bool(x)]: every float but the zeros. *)
Definition ftruthy (x : float) : bool := negb (SFeqb x (S754_zero false)).

(** [min(x, y)] and [max(x, y)]: the first argument unless the second is strictly better. *)
Definition fmin (x y : float) : float := if flt y x then y else x.
Definition fmax (x y : float) : float := if flt x y then y else x.

(** [2.0 ** n] for a whole [n] that is not negative: exact up to the largest exponent, then
    [OverflowError]. *)
Definition pow2 (n : Z) : res float :=
  _ ← raise_if (emax <=? n) ExcOverflowError "(34, 'Numerical result out of range')";
  mret (float_of 1 n).

(** [int(x)]: towards zero. *)
Definition int_of_float (x : float) : res Z :=
  match x with
  | S754_zero _ => Ok 0
  | S754_infinity _ => raise ExcOverflowError "cannot convert float infinity to integer"
  | S754_nan => raise ExcValueError "cannot convert float NaN to integer"
  | S754_finite s m e =>
      let a := if 0 <=? e then Z.pos m * 2 ^ e else Z.pos m / 2 ^ (- e) in
      Ok (if s then - a else a)
  end.

(** [x == n] for an integer that is a float itself. *)
Definition feq_Z (x : float) (n : Z) : bool := SFeqb x (float_of_Z n).

(** The float nearest to [n / d], for [0 <= n] and [0 < d]. *)
Definition float_quot (neg : bool) (n d : Z) : float :=
  if n =? 0 then S754_zero neg
  else let '(q, e, l) := SFdiv_core_binary prec emax n 0 d 0 in binary_round_aux prec emax neg q e l.

(** The float nearest to a decimal. *)
Definition float_of_Dec (d : Dec) : float :=
  if 0 <=? dec_exp d then float_quot (dec_neg d) (dec_coef d * 10 ^ dec_exp d) 1
  else float_quot (dec_neg d) (dec_coef d) (10 ^ (- dec_exp d)).

(** Single underscores between digits are dropped; any other is an error. *)
Fixpoint drop_underscores (after_digit : bool) (l : list Ascii.ascii) : option (list Ascii.ascii) :=
  match l with
  | [] => Some []
  | c :: l' =>
      if Ascii.eqb c underscore then
        match l' with
        | d :: _ => if after_digit && is_digit d then drop_underscores false l' else None
        | [] => None
        end
      else cons c <$> drop_underscores (is_digit c) l'
  end.

(** [float(text)]: [None] is [ValueError]. *)
Definition py_float (s : string) : option float :=
  l ← drop_underscores false (chars (strip s));
  let '(neg, l) := take_sign l in
  let w := map to_lower l in
  if bool_decide (w = chars "inf") || bool_decide (w = chars "infinity") then Some (S754_infinity neg)
  else if bool_decide (w = chars "nan") then Some S754_nan
  else float_of_Dec <$> parse_number neg l.

Example float_tenth : py_float " 0.1" = Some (float_of 7205759403792794 (-56)).
Proof. by vm_compute. Qed.
Example float_texts : map py_float ["1_000.5e1"; "-2"; ".5"; "1__0"; "1e400"; "0x1"; "-inf"]%string =
  [Some (float_of_Z 10005); Some (float_of_Z (-2)); Some (float_of 1 (-1)); None;
   Some (S754_infinity false); None; Some (S754_infinity true)].
Proof. by vm_compute. Qed.

(** The bounds of [min] and [max]. *)
Lemma flt_irrefl x : flt x x = false.
Proof.
  unfold flt, SFltb. destruct x as [s|s| |s m e]; cbn; try done; [by destruct s|].
  rewrite Z.compare_refl. destruct s; cbn; by rewrite Pos.compare_cont_refl.
Qed.

Lemma flt_asym x y : flt x y = true → flt y x = false.
Proof.
  unfold flt, SFltb, SFcompare.
  destruct x as [sx|sx| |sx mx ex], y as [sy|sy| |sy my ey]; cbn; try done; try (by destruct sx, sy);
    try (by destruct sx); try (by destruct sy).
  rewrite (Z.compare_antisym ex ey).
  assert (Hm : Pos.compare_cont Eq my mx = CompOpp (Pos.compare_cont Eq mx my))
    by apply (Pos.compare_antisym mx my).
  destruct sx, sy, (ex ?= ey); cbn; try done; rewrite ?Hm; by destruct (Pos.compare_cont Eq mx my).
Qed.

Lemma fmin_le x y : flt x (fmin x y) = false.
Proof.
  unfold fmin. destruct (flt y x) eqn:H; [by apply flt_asym|apply flt_irrefl].
Qed.

Lemma fmax_ge x y : flt (fmax x y) x = false.
Proof.
  unfold fmax. destruct (flt x y) eqn:H; [by apply flt_asym|apply flt_irrefl].
Qed.

Example float_half : fmul (float_of_Z 3) (float_of 1 (-1)) = float_of 3 (-1).
Proof. by vm_compute. Qed.
