(* ===== verification/RecoveryWorker.v ===== *)
(** * The realtime recovery worker

    runtime/realtime_recovery_intent.py and runtime/realtime_recovery_worker.py.  An intent is a
    mutable object that the dictionary of streams, the queue and a running attempt share:
    [ws_heap] is the store of the objects and the other fields hold references.  The asyncio
    tasks interleave at the awaits: [worker_step] is one atomic step, of the worker ([ws_pc] is
    where it stands) or of a caller of [enqueue] and [mark_live_commit].  The calls of the
    worker to the supervisor, the status store, the lifecycle synchronisation and the notifier
    are the effects of a step, in order; they are for a stream all of these know.  The log
    lines are left out. *)

From S2P Require Import Prelude PyStr DecimalValues Timeframes Identity Gaps Candles StreamState.
From S2P Require Import Instruments OpenInterest Storage AbsStore Ingest ImportWindow UseCase Repair.
From S2P Require Import RealtimeFacts Supervisor Continuity LifecycleUpdate RealtimeRecovery PyFloat.

#[export] Instance res_eq_dec {A} `{EqDecision A} : EqDecision (res A).
Proof. solve_decision. Defined.
#[export] Instance RepairProgressMarker_eq_dec : EqDecision RepairProgressMarker.
Proof. solve_decision. Defined.

(** ** realtime_recovery_intent.py *)

Definition is_background (signal : RecoveryRequired) : bool :=
  bool_decide (rc_reason signal = REASON_STALE).

Record RecoveryIntent := mkIntent {
  in_stream : StreamKey;
  in_reason : RecoveryReason;
  in_detected_at_ms : Z;
  in_earliest_open_ms : option Z;
  in_urgent : bool;
  in_revision : Z;
  in_due_at : float;
  in_attempts_without_progress : Z;
  in_recovery_window : option TimeWindow;
  in_progress_marker : option RepairProgressMarker;
  in_retry_needed : bool;
  in_notify_open_ms : option Z
}.

Definition from_signal (signal : RecoveryRequired) : RecoveryIntent :=
  mkIntent (rc_stream signal) (rc_reason signal) (rc_detected_at_ms signal)
    (rc_suspected_start_time_ms signal) (negb (is_background signal)) 0 (float_of_Z 0) 0 None None false None.

(** [restart] *)
Definition restart (i : RecoveryIntent) : RecoveryIntent :=
  mkIntent (in_stream i) (in_reason i) (in_detected_at_ms i) (in_earliest_open_ms i) (in_urgent i)
    (in_revision i) (float_of_Z 0) 0 None None (in_retry_needed i) (in_notify_open_ms i).

(** The hint is earlier than what the intent wants. *)
Definition earlier_hint (earliest hint : option Z) : option Z :=
  match hint, earliest with
  | Some h, None => Some h
  | Some h, Some e => if h <? e then Some h else None
  | None, _ => None
  end.

Definition absorb (signal : RecoveryRequired) (i : RecoveryIntent) : bool * RecoveryIntent :=
  let earlier := earlier_hint (in_earliest_open_ms i) (rc_suspected_start_time_ms signal) in
  let upgrade := negb (is_background signal) && negb (in_urgent i) in
  let i1 := mkIntent (in_stream i) (if upgrade then rc_reason signal else in_reason i) (in_detected_at_ms i)
              (match earlier with Some h => Some h | None => in_earliest_open_ms i end)
              (in_urgent i || upgrade) (in_revision i) (in_due_at i) (in_attempts_without_progress i)
              (in_recovery_window i) (in_progress_marker i) (in_retry_needed i) (in_notify_open_ms i) in
  let changed := bool_decide (is_Some earlier) || upgrade in
  (changed,
   if changed
   then restart (mkIntent (in_stream i1) (in_reason i1) (in_detected_at_ms i1) (in_earliest_open_ms i1)
          (in_urgent i1) (in_revision i1 + 1) (in_due_at i1) (in_attempts_without_progress i1)
          (in_recovery_window i1) (in_progress_marker i1) (in_retry_needed i1) (in_notify_open_ms i1))
   else i1).

Definition request_signal (i : RecoveryIntent) : RecoveryRequired :=
  mkRecoveryRequired (in_stream i) (in_reason i) (in_detected_at_ms i) (in_earliest_open_ms i).

(** Assignments to one field. *)
Definition with_retry_needed (v : bool) (i : RecoveryIntent) : RecoveryIntent :=
  mkIntent (in_stream i) (in_reason i) (in_detected_at_ms i) (in_earliest_open_ms i) (in_urgent i)
    (in_revision i) (in_due_at i) (in_attempts_without_progress i) (in_recovery_window i)
    (in_progress_marker i) v (in_notify_open_ms i).
Definition with_notify (v : option Z) (i : RecoveryIntent) : RecoveryIntent :=
  mkIntent (in_stream i) (in_reason i) (in_detected_at_ms i) (in_earliest_open_ms i) (in_urgent i)
    (in_revision i) (in_due_at i) (in_attempts_without_progress i) (in_recovery_window i)
    (in_progress_marker i) (in_retry_needed i) v.
Definition with_cursor (w : option TimeWindow) (m : option RepairProgressMarker) (i : RecoveryIntent) :
    RecoveryIntent :=
  mkIntent (in_stream i) (in_reason i) (in_detected_at_ms i) (in_earliest_open_ms i) (in_urgent i)
    (in_revision i) (in_due_at i) (in_attempts_without_progress i) w m (in_retry_needed i) (in_notify_open_ms i).
Definition with_attempts (n : Z) (i : RecoveryIntent) : RecoveryIntent :=
  mkIntent (in_stream i) (in_reason i) (in_detected_at_ms i) (in_earliest_open_ms i) (in_urgent i)
    (in_revision i) (in_due_at i) n (in_recovery_window i) (in_progress_marker i) (in_retry_needed i)
    (in_notify_open_ms i).
Definition with_due_at (t : float) (i : RecoveryIntent) : RecoveryIntent :=
  mkIntent (in_stream i) (in_reason i) (in_detected_at_ms i) (in_earliest_open_ms i) (in_urgent i)
    (in_revision i) t (in_attempts_without_progress i) (in_recovery_window i) (in_progress_marker i)
    (in_retry_needed i) (in_notify_open_ms i).

(** ** realtime_recovery_worker.py *)

Record WorkerConfig := mkWorkerConfig {
  wc_max_windows : Z;
  wc_base_backoff : float;
  wc_max_backoff : float;
  wc_stale_first_retry : float;
  wc_stale_next_retry : float;
  wc_on_restored : bool
}.

(** The arguments of the constructor that runtime code leaves at their defaults. *)
Definition default_config (max_windows : Z) (on_restored : bool) : WorkerConfig :=
  mkWorkerConfig max_windows (float_of_Z 1) (float_of_Z 60) (float_of_Z 60) (float_of_Z 360) on_restored.

Inductive Effect :=
| RecordResult (k : StreamKey) (restored fatal : bool) (through : option Z)
| SetBlockingReason (k : StreamKey) (reason : string)
| ClearBlockingReason (k : StreamKey)
| SyncLifecycle
| OnRestored (k : StreamKey) (open_time_ms : Z).

Section worker.
Context (cfg : WorkerConfig).

(** [_retry_delay]: the intent it updates and the delay. *)
Definition retry_delay (i : RecoveryIntent) : res (RecoveryIntent * float) :=
  let attempts := in_attempts_without_progress i + 1 in
  let i := with_attempts attempts i in
  if in_urgent i then
    p ← pow2 (attempts - 1);
    mret (i, fmin (wc_max_backoff cfg) (fmul (wc_base_backoff cfg) p))
  else mret (i, if attempts =? 1 then wc_stale_first_retry cfg else wc_stale_next_retry cfg).

(** Whether an incomplete attempt got somewhere. *)
Definition attempt_progressed (i : RecoveryIntent) (r : RealtimeRecoveryResult) : bool :=
  let progressed := made_progress r ||
    (bool_decide (is_Some (vr_next_recovery_window r))
     && bool_decide (vr_next_recovery_window r ≠ in_recovery_window i)) in
  if negb progressed && bool_decide (is_Some (in_progress_marker i))
  then bool_decide (vr_progress_marker r ≠ in_progress_marker i)
  else progressed.

(** What an unfinished attempt leaves: the intent, the delay and the reason that blocks. *)
Definition plan_retry (i : RecoveryIntent) (r : RealtimeRecoveryResult) : res (RecoveryIntent * float * string) :=
  if bool_decide (vr_classification r = INCOMPLETE) then
    let progressed := attempt_progressed i r in
    let i := with_cursor (match vr_next_recovery_window r with Some w => Some w | None => vr_recovery_window r end)
               (vr_progress_marker r) i in
    if progressed then mret (with_attempts 0 i, float_of_Z 0, "realtime_recovery"%string)
    else d ← retry_delay i; mret (d.1, d.2, "realtime_recovery_no_progress_backoff"%string)
  else d ← retry_delay i; mret (d.1, d.2, "realtime_recovery_backoff"%string).

(** [_execute] after its await, at [loop.time() = now]: the effects, and the intent with whether
    it is to be retried, unless something raises. *)
Definition finish_attempt (now : float) (started_revision : Z) (r : RealtimeRecoveryResult)
    (i : RecoveryIntent) : list Effect * res (RecoveryIntent * bool) :=
  let k := in_stream i in
  let changed := negb (in_revision i =? started_revision) in
  let i := if negb (committed_bars r =? 0) then with_retry_needed true i else i in
  let fatal := bool_decide (vr_classification r = FATAL_FAILURE) in
  let record := RecordResult k (vr_restored r && negb changed) fatal (vr_restored_through_open_time_ms r) in
  if fatal then ([record], Ok (i, false))
  else if changed then ([record; SetBlockingReason k "realtime_recovery"], Ok (i, true))
  else if bool_decide (vr_classification r = RESTORED) then
    let i := if in_retry_needed i then with_notify (vr_restored_through_open_time_ms r) i else i in
    ([record; ClearBlockingReason k], Ok (i, false))
  else match plan_retry i r with
  | Ok (i, delay, reason) =>
      ([record; SetBlockingReason k reason],
       Ok (with_due_at (if ftruthy delay then fadd now delay else float_of_Z 0) i, true))
  | Raise e => ([record], Raise e)
  end.

(** Where the task of the worker stands. *)
Inductive WorkerPC :=
| AtQueue                                  (* await queue.get() *)
| Idling                                   (* await _wait() after a requeue *)
| AtGate (id : nat) (started_revision : Z)                           (* await the operation gate *)
| Recovering (id : nat) (started_revision : Z) (request : RealtimeRecoveryRequest)
| Ended (exc : option exn).

Record Worker := mkWorker {
  ws_heap : gmap nat RecoveryIntent;
  ws_next : nat;
  ws_intents : gmap StreamKey nat;
  ws_queue : list nat;
  ws_pc : WorkerPC
}.

Definition Worker_new : Worker := mkWorker ∅ 0 ∅ [] AtQueue.

Definition set_pc (w : Worker) (pc : WorkerPC) : Worker :=
  mkWorker (ws_heap w) (ws_next w) (ws_intents w) (ws_queue w) pc.
Definition put_intent (w : Worker) (id : nat) (i : RecoveryIntent) : Worker :=
  mkWorker (<[id := i]> (ws_heap w)) (ws_next w) (ws_intents w) (ws_queue w) (ws_pc w).

(** [enqueue] *)
Definition enqueue (signal : RecoveryRequired) (w : Worker) : Worker :=
  match ws_intents w !! rc_stream signal with
  | Some id =>
      match ws_heap w !! id with
      | Some i => put_intent w id (absorb signal i).2
      | None => w
      end
  | None =>
      let id := ws_next w in
      mkWorker (<[id := from_signal signal]> (ws_heap w)) (S id) (<[rc_stream signal := id]> (ws_intents w))
        (ws_queue w ++ [id]) (ws_pc w)
  end.

Definition mark_live_commit (k : StreamKey) (w : Worker) : Worker :=
  match ws_intents w !! k with
  | Some id =>
      match ws_heap w !! id with
      | Some i => put_intent w id (with_retry_needed true i)
      | None => w
      end
  | None => w
  end.

(** The [finally] of [run]. *)
Definition worker_end (exc : option exn) (w : Worker) : Worker :=
  mkWorker (ws_heap w) (ws_next w) ∅ (ws_queue w) (Ended exc).

(** The end of an iteration of [run], after [_execute] returned. *)
Definition settle (id : nat) (i : RecoveryIntent) (retry stopped : bool) (w : Worker) : Worker * list Effect :=
  let again := retry && negb stopped in
  let w := put_intent w id i in
  (mkWorker (ws_heap w) (ws_next w)
     (if again then ws_intents w else delete (in_stream i) (ws_intents w))
     (if again then ws_queue w ++ [id] else ws_queue w) AtQueue,
   SyncLifecycle ::
   (if negb retry && wc_on_restored cfg
    then match in_notify_open_ms i with Some t => [OnRestored (in_stream i) t] | None => [] end
    else [])).

Inductive Label :=
| Signal (signal : RecoveryRequired)          (* enqueue *)
| LiveCommit (k : StreamKey)                  (* mark_live_commit *)
| Take (now : float)                          (* the queue gives its first intent *)
| Wake                                        (* the wait is over *)
| Enter                                       (* the gate is ours *)
| Finish (now : float) (stopped : bool) (result : RealtimeRecoveryResult)   (* the recovery returns *)
| Stop                                        (* the stop event is seen *)
| Interrupt (exc : exn).                      (* a cancellation, or an error out of an await *)

(** One step; [None] when it cannot happen there. *)
Definition worker_step (w : Worker) (l : Label) : option (Worker * list Effect) :=
  match l with
  | Signal signal => Some (enqueue signal w, [])
  | LiveCommit k => Some (mark_live_commit k w, [])
  | Take now =>
      match ws_pc w, ws_queue w with
      | AtQueue, id :: queue =>
          i ← ws_heap w !! id;
          let w := mkWorker (ws_heap w) (ws_next w) (ws_intents w) queue (ws_pc w) in
          if fgt (in_due_at i) now
          then Some (mkWorker (ws_heap w) (ws_next w) (ws_intents w) (queue ++ [id]) Idling, [])
          else Some (set_pc w (AtGate id (in_revision i)), [])
      | _, _ => None
      end
  | Wake => match ws_pc w with Idling => Some (set_pc w AtQueue, []) | _ => None end
  | Enter =>
      match ws_pc w with
      | AtGate id started =>
          i ← ws_heap w !! id;
          match RealtimeRecoveryRequest_new (request_signal i) (wc_max_windows cfg) (in_recovery_window i) with
          | Ok request => Some (set_pc w (Recovering id started request), [])
          | Raise e => Some (worker_end (Some e) w, [])
          end
      | _ => None
      end
  | Finish now stopped result =>
      match ws_pc w with
      | Recovering id started _ =>
          i ← ws_heap w !! id;
          match finish_attempt now started result i with
          | (effects, Ok (i, retry)) =>
              let '(w, more) := settle id i retry stopped w in Some (w, effects ++ more)
          | (effects, Raise e) => Some (worker_end (Some e) w, effects)
          end
      | _ => None
      end
  | Stop => match ws_pc w with AtQueue | Idling => Some (worker_end None w, []) | _ => None end
  | Interrupt e => match ws_pc w with Ended _ => None | _ => Some (worker_end (Some e) w, []) end
  end.
End worker.

(** ** The backoff *)

(** The delays of an urgent intent up to the largest exponent, as a table. *)
Definition urgent_delay (cfg : WorkerConfig) (attempts : Z) : res float :=
  p ← pow2 (attempts - 1); mret (fmin (wc_max_backoff cfg) (fmul (wc_base_backoff cfg) p)).

Lemma default_delays_table :
  forallb (λ n, bool_decide (urgent_delay (default_config 1 true) (Z.of_nat n) =
                             Ok (float_of_Z (Z.min 60 (2 ^ (Z.of_nat n - 1))))))
    (seq 1 1024) = true.
Proof. by vm_compute. Qed.

Lemma default_delay m b n :
  1 ≤ n ≤ 1024 → urgent_delay (default_config m b) n = Ok (float_of_Z (Z.min 60 (2 ^ (n - 1)))).
Proof.
  intros Hn. pose proof default_delays_table as H. rewrite forallb_forall in H.
  specialize (H (Z.to_nat n)). rewrite in_seq, bool_decide_eq_true, Z2Nat.id in H by lia.
  change (urgent_delay (default_config 1 true) n) with (urgent_delay (default_config m b) n) in H.
  apply H. lia.
Qed.

(** C40. The backoff of the worker at its default settings.  Counting the attempts without progress
    from one, a background intent waits 60 seconds and then 360 each time; an urgent one waits
    1, 2, 4, 8, 16, 32 and then 60 seconds each time - as exact binary64 values - as long as
    there were at most 1024 such attempts.  From the 1025th on the power of two is computed
    before the limit is applied and raises [OverflowError] instead of giving 60 seconds. *)
Theorem retry_backoff (m : Z) (b : bool) (i : RecoveryIntent) :
  0 ≤ in_attempts_without_progress i →
  let n := in_attempts_without_progress i + 1 in
  retry_delay (default_config m b) i =
  if negb (in_urgent i) then Ok (with_attempts n i, float_of_Z (if n =? 1 then 60 else 360))
  else if n <=? 1024 then Ok (with_attempts n i, float_of_Z (Z.min 60 (2 ^ (n - 1))))
  else raise ExcOverflowError "(34, 'Numerical result out of range')".
Proof.
  intros Hi n. unfold retry_delay. fold n. cbv zeta. destruct (in_urgent i) eqn:Hu; cbn [negb in_urgent with_attempts].
  - rewrite Hu. destruct (Z.leb_spec n 1024) as [Hn|Hn].
    + pose proof (default_delay m b n ltac:(lia)) as H. unfold urgent_delay in H.
      unfold mbind, res_bind, mret, res_ret in *. destruct (pow2 (n - 1)) as [p|e]; [|discriminate H].
      apply Ok_inj in H. by rewrite H.
    + unfold pow2, emax. by rewrite (proj2 (Z.leb_le 1024 (n - 1))) by lia.
  - rewrite Hu. by destruct (n =? 1).
Qed.

Lemma retry_backoff_witness :
  let i := with_attempts 1024 (from_signal (mkRecoveryRequired
             (mkStreamKey (mkInstrumentKey "BTCUSDT.P") TF_1m) DISCONNECT 0 None)) in
  0 ≤ in_attempts_without_progress i ∧
  retry_delay (default_config 1 true) i = raise ExcOverflowError "(34, 'Numerical result out of range')".
Proof. intros i. split; [by vm_compute|]. rewrite (retry_backoff 1 true i); [|by vm_compute]. by vm_compute. Defined.

(** ** One recovery per stream *)

(** The intent the worker has taken from the queue. *)
Definition pc_ids (pc : WorkerPC) : list nat :=
  match pc with AtGate id _ | Recovering id _ _ => [id] | _ => [] end.
Definition running (w : Worker) : Prop := match ws_pc w with Ended _ => False | _ => True end.
Definition owned (w : Worker) : list nat := pc_ids (ws_pc w) ++ ws_queue w.

(** Every stream with an intent has it once, in the queue or taken by the worker, and there is no
    other work. *)
Record worker_inv (w : Worker) : Prop := {
  wi_intents : ∀ k id, ws_intents w !! k = Some id → ∃ i, ws_heap w !! id = Some i ∧ in_stream i = k;
  wi_fresh : ∀ id i, ws_heap w !! id = Some i → (id < ws_next w)%nat;
  wi_nodup : NoDup (owned w);
  wi_owned : ∀ id, id ∈ owned w ↔ ∃ k, ws_intents w !! k = Some id
}.

Lemma worker_new_inv : worker_inv Worker_new.
Proof.
  split; try done; [apply NoDup_nil_2|]. intros id. split; [by intros ?%elem_of_nil|].
  intros [k Hk]. done.
Qed.

Lemma absorb_stream sig i : in_stream (absorb sig i).2 = in_stream i.
Proof. unfold absorb. cbv zeta. by case_match. Qed.

Lemma put_intent_inv w id i0 i :
  worker_inv w → ws_heap w !! id = Some i0 → in_stream i = in_stream i0 → worker_inv (put_intent w id i).
Proof.
  intros [H1 H2 H3 H4] Hid Hs. split; [|intros id' i'|exact H3|exact H4]; cbn.
  - intros k id' Hk. destruct (H1 k id' Hk) as (i' & Hi' & Hk'). destruct (decide (id' = id)) as [->|Hne].
    + exists i. rewrite lookup_insert_eq. split; [done|]. rewrite Hid in Hi'. injection Hi' as <-. by rewrite Hs.
    + exists i'. by rewrite lookup_insert_ne.
  - intros [[<- _]|[_ Hi']]%lookup_insert_Some; [by apply (H2 id i0)|by apply (H2 id' i')].
Qed.

Lemma enqueue_inv sig w : worker_inv w → worker_inv (enqueue sig w).
Proof.
  intros Hw. unfold enqueue. destruct (ws_intents w !! rc_stream sig) as [id|] eqn:Hk.
  - destruct (ws_heap w !! id) as [i|] eqn:Hi; [|done].
    apply (put_intent_inv w id i); [done..|apply absorb_stream].
  - destruct Hw as [H1 H2 H3 H4].
    assert (Hnew : ∀ id, id ∈ owned w → (id < ws_next w)%nat).
    { intros id (k & Hk')%H4. destruct (H1 k id Hk') as (i & Hi & _). by apply (H2 id i). }
    split; cbn.
    + intros k id [[<- <-]|[Hne Hk']]%lookup_insert_Some.
      * exists (from_signal sig). by rewrite lookup_insert_eq.
      * destruct (H1 k id Hk') as (i & Hi & Hs). exists i. split; [|done].
        rewrite lookup_insert_ne; [done|]. pose proof (H2 id i Hi). lia.
    + intros id i [[<- _]|[_ Hi]]%lookup_insert_Some; [lia|]. pose proof (H2 id i Hi). lia.
    + unfold owned in *. cbn. rewrite app_assoc. apply NoDup_app. split; [done|]. split; [|apply NoDup_singleton].
      intros id Hid ->%list_elem_of_singleton. pose proof (Hnew _ Hid). lia.
    + intros id. unfold owned in *. cbn. rewrite app_assoc, elem_of_app, H4, list_elem_of_singleton. split.
      * intros [[k Hk']| ->]; [|exists (rc_stream sig); by rewrite lookup_insert_eq].
        exists k. rewrite lookup_insert_ne; [done|]. intros Heq. by rewrite Heq, Hk' in Hk.
      * intros [k [[<- <-]|[_ Hk']]%lookup_insert_Some]; [by right|left; by exists k].
Qed.

Lemma mark_live_commit_inv k w : worker_inv w → worker_inv (mark_live_commit k w).
Proof.
  intros Hw. unfold mark_live_commit. destruct (ws_intents w !! k) as [id|]; [|done].
  destruct (ws_heap w !! id) as [i|] eqn:Hi; [|done]. by apply (put_intent_inv w id i).
Qed.

(** The taken intent goes back to the queue, or its stream has none any more. *)
Lemma settle_inv cfg id i0 i retry stopped w :
  worker_inv w → pc_ids (ws_pc w) = [id] → ws_heap w !! id = Some i0 → in_stream i = in_stream i0 →
  worker_inv (settle cfg id i retry stopped w).1.
Proof.
  intros Hw Hpc Hi Hs. apply (put_intent_inv w id i0 i) in Hw as [H1 H2 H3 H4]; [|done..].
  unfold settle. cbv zeta. cbn [fst]. unfold owned in *. cbn [ws_pc put_intent] in H3, H4. rewrite Hpc in H3, H4.
  cbn in H3. apply NoDup_cons in H3 as [Hout Hnd]. destruct (retry && negb stopped).
  - split; [exact H1|exact H2|..]; unfold owned; cbn.
    + apply NoDup_app. split; [done|]. split; [|apply NoDup_singleton].
      by intros x Hx ->%list_elem_of_singleton.
    + intros x. rewrite <- H4. cbn. set_solver.
  - assert (Hk : ws_intents w !! in_stream i = Some id).
    { destruct (proj1 (H4 id)) as [k Hk]; [apply list_elem_of_here|]. destruct (H1 k id Hk) as (i' & Hi' & <-).
      cbn in Hi'. rewrite lookup_insert_eq in Hi'. by injection Hi' as ->. }
    split; unfold owned; cbn.
    + intros k x [_ Hx]%lookup_delete_Some. by apply H1.
    + exact H2.
    + done.
    + intros x. specialize (H4 x). cbn in H4. split.
      * intros Hx. destruct (proj1 H4) as [k Hk']; [by right|]. exists k. apply lookup_delete_Some.
        split; [|done]. intros <-. cbn in Hk'. rewrite Hk in Hk'. injection Hk' as <-. done.
      * intros [k [Hne Hx]%lookup_delete_Some]. pose proof (proj2 H4 (ex_intro _ k Hx)) as [->|Hq]%elem_of_cons; [|done].
        destruct (H1 k id Hx) as (i' & Hi' & <-). cbn in Hi'. rewrite lookup_insert_eq in Hi'.
        injection Hi' as <-. done.
Qed.

Lemma with_attempts_stream n i : in_stream (with_attempts n i) = in_stream i.
Proof. done. Qed.

Lemma retry_delay_stream cfg i d : retry_delay cfg i = Ok d → d.1 = with_attempts (in_attempts_without_progress i + 1) i.
Proof.
  unfold retry_delay. cbv zeta. destruct (in_urgent _).
  - unfold mbind, res_bind. destruct (pow2 _); [by intros [= <-]|done].
  - by intros [= <-].
Qed.

(** What an attempt leaves of the intent: the identity, the hint and the revision. *)
Definition same_intent (i i' : RecoveryIntent) : Prop :=
  in_stream i' = in_stream i ∧ in_earliest_open_ms i' = in_earliest_open_ms i ∧ in_revision i' = in_revision i.

Lemma finish_attempt_same cfg now started r i effects i' retry :
  finish_attempt cfg now started r i = (effects, Ok (i', retry)) → same_intent i i'.
Proof.
  unfold finish_attempt, plan_retry, same_intent. cbv zeta.
  set (j := if negb (committed_bars r =? 0) then _ else i).
  assert (Hj : in_stream j = in_stream i ∧ in_earliest_open_ms j = in_earliest_open_ms i ∧
    in_revision j = in_revision i) by (unfold j; by case_match). clearbody j.
  case_bool_decide; [by intros [= _ <- _]|]. destruct (negb _); [by intros [= _ <- _]|].
  case_bool_decide; [intros [= _ <- _]; by case_match|].
  case_bool_decide; [destruct (attempt_progressed _ _); [by intros [= _ <- _]|]|];
    unfold mbind, res_bind; destruct (retry_delay _ _) as [d|e] eqn:Hd; try done;
    apply retry_delay_stream in Hd; intros [= _ <- _]; cbn; rewrite Hd; done.
Qed.

Lemma worker_step_inv cfg w l w' effects :
  worker_inv w → worker_step cfg w l = Some (w', effects) → running w' → worker_inv w'.
Proof.
  intros Hw. destruct l as [sig|k|now| | |now stopped r| |e]; cbn.
  - intros [= <- _] _. by apply enqueue_inv.
  - intros [= <- _] _. by apply mark_live_commit_inv.
  - destruct (ws_pc w) eqn:Hpc; try done. destruct (ws_queue w) as [|id q] eqn:Hq; [done|].
    destruct (ws_heap w !! id) as [i|] eqn:Hi; [|done]. cbn. destruct Hw as [H1 H2 H3 H4].
    unfold owned in *. rewrite Hpc, Hq in H3, H4. cbn in H3, H4. apply NoDup_cons in H3 as [Hout Hnd].
    destruct (fgt _ _); intros [= <- _] _; (split; [exact H1|exact H2|..]); unfold owned; cbn.
    + apply NoDup_app. split; [done|]. split; [|apply NoDup_singleton]. by intros x Hx ->%list_elem_of_singleton.
    + intros x. rewrite <- H4. set_solver.
    + by constructor.
    + done.
  - destruct (ws_pc w) eqn:Hpc; try done. intros [= <- _] _. destruct Hw as [H1 H2 H3 H4].
    unfold owned in *. rewrite Hpc in H3, H4. by split.
  - destruct (ws_pc w) eqn:Hpc; try done. destruct (ws_heap w !! id) as [i|] eqn:Hi; [|done]. cbn.
    destruct (RealtimeRecoveryRequest_new _ _ _); intros [= <- _] Hr; [|done]. destruct Hw as [H1 H2 H3 H4].
    unfold owned in *. rewrite Hpc in H3, H4. by split.
  - destruct (ws_pc w) as [| | |id started req|] eqn:Hpc; try done.
    destruct (ws_heap w !! id) as [i|] eqn:Hi; [|done]. cbn.
    destruct (finish_attempt _ _ _ _ _) as [eff [[i' retry]|e]] eqn:Hf; [|by intros [= <- _]].
    pose proof (settle_inv cfg id i i' retry stopped w Hw) as Hset. rewrite Hpc in Hset.
    intros [= <- _] _. apply Hset; [done..|].
    by apply finish_attempt_same in Hf as [? _].
  - destruct (ws_pc w); try done; by intros [= <- _].
  - destruct (ws_pc w); try done; by intros [= <- _].
Qed.

(** ** What a restored episode proves *)

(** The signals enqueued for a stream since its intent was created. *)
Definition Episodes : Type := StreamKey → list RecoveryRequired.

Definition next_episodes (l : Label) (w' : Worker) (g : Episodes) : Episodes := λ k,
  match ws_intents w' !! k with
  | None => []
  | Some _ =>
      match l with
      | Signal sig => if bool_decide (rc_stream sig = k) then sig :: g k else g k
      | _ => g k
      end
  end.

Section episode.
Context (cfg : WorkerConfig) (required : StreamKey → Track → bool) (floor : StreamKey → Z).
Abbreviation Stored := (Track → StreamKey → Z → Prop).

(** Every bar from [s] before [e] is stored on the tracks the stream requires. *)
Definition proven (st : Stored) (k : StreamKey) (s e : Z) : Prop :=
  ∀ tr t, required k tr = true → on_grid (stream_step k) t → s ≤ t < e → st tr k t.

(** What the worker needs of an attempt, as [stored] stands when it returns: the window is the
    requested one, or starts no later than the hint above the floor of the history; a restored
    attempt and one whose target moved proved it. *)
Record attempt_report (st : Stored) (req : RealtimeRecoveryRequest) (r : RealtimeRecoveryResult) : Prop := {
  at_window : ∀ w, vr_recovery_window r = Some w →
    match rv_recovery_window req with
    | Some w1 => w = w1
    | None => ∀ h, rc_suspected_start_time_ms (rv_signal req) = Some h →
                start_ms w ≤ Z.max h (floor (rc_stream (rv_signal req)))
    end;
  at_restored : vr_classification r = RESTORED → ∃ w, vr_recovery_window r = Some w ∧
    vr_restored_through_open_time_ms r = Some (end_ms w - stream_step (rc_stream (rv_signal req))) ∧
    proven st (rc_stream (rv_signal req)) (start_ms w) (end_ms w);
  at_next : ∀ next, vr_next_recovery_window r = Some next → ∃ w, vr_recovery_window r = Some w ∧
    start_ms next = end_ms w ∧ proven st (rc_stream (rv_signal req)) (start_ms w) (end_ms w)
}.

(** The worker beside the stores, from an empty worker: the rows grow, the worker and its callers
    step, and an attempt returns what it promises. *)
Inductive reaches : Worker → Episodes → Stored → Prop :=
| reaches_new st : reaches Worker_new (λ _, []) st
| reaches_grow w g st st' :
    reaches w g st → (∀ tr k t, st tr k t → st' tr k t) → reaches w g st'
| reaches_step w g st l w' effects :
    reaches w g st → worker_step cfg w l = Some (w', effects) → running w' →
    (∀ now stopped r id started req, l = Finish now stopped r → ws_pc w = Recovering id started req →
       attempt_report st req r) →
    reaches w' (next_episodes l w' g) st.

(** The intent knows the earliest hint of its episode. *)
Definition hint_known (i : RecoveryIntent) (sig : RecoveryRequired) : Prop :=
  ∀ h, rc_suspected_start_time_ms sig = Some h → ∃ e, in_earliest_open_ms i = Some e ∧ e ≤ h.

(** What the earlier attempts of the revision proved, up to the cursor. *)
Definition cursor_ok (st : Stored) (i : RecoveryIntent) : Prop :=
  ∀ w, in_recovery_window i = Some w → ∃ s, proven st (in_stream i) s (start_ms w) ∧
    ∀ h, in_earliest_open_ms i = Some h → s ≤ Z.max h (floor (in_stream i)).

(** The attempt that runs was asked for what the intent still wants, unless it changed. *)
Definition request_ok (pc : WorkerPC) (id : nat) (i : RecoveryIntent) : Prop :=
  match pc with
  | AtGate id' started => id' = id → started ≤ in_revision i
  | Recovering id' started req => id' = id → started ≤ in_revision i ∧
      rc_stream (rv_signal req) = in_stream i ∧
      (started = in_revision i → rc_suspected_start_time_ms (rv_signal req) = in_earliest_open_ms i ∧
         rv_recovery_window req = in_recovery_window i)
  | _ => True
  end.

Record intent_ok (w : Worker) (g : Episodes) (st : Stored) (k : StreamKey) (id : nat) (i : RecoveryIntent) :
    Prop := {
  io_hints : Forall (hint_known i) (g k);
  io_cursor : cursor_ok st i;
  io_request : request_ok (ws_pc w) id i
}.

Definition episodes_ok (w : Worker) (g : Episodes) (st : Stored) : Prop :=
  (∀ k id i, ws_intents w !! k = Some id → ws_heap w !! id = Some i → intent_ok w g st k id i) ∧
  ∀ k, ws_intents w !! k = None → g k = [].

Lemma proven_trans st k s e e' : proven st k s e → proven st k e e' → proven st k s e'.
Proof. intros H1 H2 tr t Hr Hg Ht. destruct (Z_lt_le_dec t e); [apply H1|apply H2]; done || lia. Qed.

Lemma proven_mono (st st' : Stored) k s s' e :
  (∀ tr k t, st tr k t → st' tr k t) → s ≤ s' → proven st k s e → proven st' k s' e.
Proof. intros Hst Hs H tr t Hr Hg Ht. apply Hst, H; [done..|lia]. Qed.

(** *** Absorbing a signal *)

Lemma absorb_known sig i : hint_known (absorb sig i).2 sig.
Proof.
  intros h Hh. unfold absorb, earlier_hint. cbv zeta. rewrite Hh.
  destruct (in_earliest_open_ms i) as [e|]; [destruct (Z.ltb_spec h e)|].
  - exists h. by case_match.
  - exists e. case_match; (split; [done|lia]).
  - exists h. by case_match.
Qed.

Lemma absorb_keeps_known sig sig' i : hint_known i sig' → hint_known (absorb sig i).2 sig'.
Proof.
  intros H h Hh. destruct (H h Hh) as (e & He & Hle). unfold absorb, earlier_hint. cbv zeta. rewrite He.
  destruct (rc_suspected_start_time_ms sig) as [h'|]; [destruct (Z.ltb_spec h' e)|].
  - exists h'. case_match; (split; [done|lia]).
  - exists e. by case_match.
  - exists e. by case_match.
Qed.

Lemma absorb_cases sig i :
  (absorb sig i).2 = i ∨
  in_revision (absorb sig i).2 = in_revision i + 1 ∧ in_recovery_window (absorb sig i).2 = None.
Proof.
  unfold absorb. cbv zeta. destruct (earlier_hint _ _); cbn [is_Some].
  - right. by rewrite bool_decide_true by eauto.
  - rewrite bool_decide_false by (by intros [? ?]). destruct (negb (is_background sig) && negb (in_urgent i)) eqn:Hu.
    + by right.
    + left. cbn. rewrite orb_false_r. by destruct i.
Qed.

(** The invariant of an intent depends on these parts of it. *)
Lemma intent_ok_same w w' (g g' : Episodes) st k id i i' :
  intent_ok w g st k id i → same_intent i i' → in_recovery_window i' = in_recovery_window i →
  ws_pc w' = ws_pc w → g' k = g k → intent_ok w' g' st k id i'.
Proof.
  intros [H1 H2 H3] (Hs & He & Hr) Hw Hpc Hg. split.
  - rewrite Hg. unfold hint_known in *. by rewrite He.
  - unfold cursor_ok in *. by rewrite Hs, He, Hw.
  - rewrite Hpc. unfold request_ok in *. by rewrite Hs, He, Hr, Hw.
Qed.

Lemma absorb_ok w g st k id i sig w' (g' : Episodes) :
  intent_ok w g st k id i → ws_pc w' = ws_pc w → g' k = sig :: g k → intent_ok w' g' st k id (absorb sig i).2.
Proof.
  intros [H1 H2 H3] Hpc Hg. split.
  - rewrite Hg. constructor; [apply absorb_known|]. eapply Forall_impl; [exact H1|].
    intros sig' Hs. by apply absorb_keeps_known.
  - destruct (absorb_cases sig i) as [->|[_ Hw]]; [done|]. intros w0. by rewrite Hw.
  - rewrite Hpc. destruct (absorb_cases sig i) as [->|[Hr _]]; [done|]. unfold request_ok in *.
    rewrite Hr, absorb_stream. destruct (ws_pc w); try done.
    + intros Hid. specialize (H3 Hid). lia.
    + intros Hid. destruct (H3 Hid) as (? & ? & _). repeat split; try done; lia.
Qed.

(** Two streams never share an intent. *)
Lemma intents_inj w k k' id :
  worker_inv w → ws_intents w !! k = Some id → ws_intents w !! k' = Some id → k = k'.
Proof.
  intros [H1 _ _ _] H H'. destruct (H1 k id H) as (i & Hi & <-), (H1 k' id H') as (i' & Hi' & <-).
  rewrite Hi in Hi'. by injection Hi' as <-.
Qed.

Lemma pc_id_intent w id : worker_inv w → id ∈ pc_ids (ws_pc w) → ∃ k i, ws_intents w !! k = Some id ∧
  ws_heap w !! id = Some i ∧ in_stream i = k.
Proof.
  intros [H1 _ _ H4] Hid. destruct (proj1 (H4 id)) as [k Hk]; [apply elem_of_app; by left|].
  destruct (H1 k id Hk) as (i & Hi & Hs). by exists k, i.
Qed.

(** *** The steps *)

(** A step that replaces the intent of one stream. *)
Lemma put_ok w g st k id i (g' : Episodes) :
  worker_inv w → episodes_ok w g st → ws_intents w !! k = Some id →
  intent_ok (put_intent w id i) g' st k id i → (∀ k', k' ≠ k → g' k' = g k') →
  episodes_ok (put_intent w id i) g' st.
Proof.
  intros Hw [He Hn] Hk Hi Hg. split.
  - intros k' id' i' Hk'. cbn in Hk' |- *. destruct (decide (k' = k)) as [->|Hne].
    + rewrite Hk in Hk'. injection Hk' as <-. rewrite lookup_insert_eq. by intros [= <-].
    + rewrite lookup_insert_ne by (intros <-; by destruct (Hne (intents_inj w k' k id Hw Hk' Hk))).
      intros Hi'. eapply intent_ok_same; [by apply He|done..|]. by apply Hg.
  - intros k' Hk'. cbn in Hk'. rewrite Hg by (intros ->; by rewrite Hk in Hk'). by apply Hn.
Qed.

Lemma signal_ok w g st sig :
  worker_inv w → episodes_ok w g st →
  episodes_ok (enqueue sig w) (next_episodes (Signal sig) (enqueue sig w) g) st.
Proof.
  intros Hw Hok. pose proof Hok as [He Hn]. unfold enqueue.
  destruct (ws_intents w !! rc_stream sig) as [id|] eqn:Hk.
  - destruct (wi_intents w Hw _ _ Hk) as (i & Hi & Hs). rewrite Hi.
    apply (put_ok w g st (rc_stream sig)); [done..| |].
    + eapply absorb_ok; [by apply He|done|]. unfold next_episodes. cbn. by rewrite Hk, bool_decide_true.
    + intros k' Hne. unfold next_episodes. cbn. rewrite bool_decide_false by done.
      destruct (ws_intents w !! k') eqn:Hk'; [done|]. by rewrite Hn.
  - set (w' := mkWorker _ _ _ _ _). split.
    + intros k id i Hk'. cbn in Hk'. apply lookup_insert_Some in Hk' as [[<- <-]|[Hne Hk']]; cbn.
      * rewrite lookup_insert_eq. intros [= <-]. split.
        -- unfold next_episodes. cbn. rewrite lookup_insert_eq, bool_decide_true, (Hn _ Hk) by done.
           constructor; [|constructor]. intros h Hh. exists h. by split; [|lia].
        -- by intros w0.
        -- assert (Hfresh : ∀ id, id ∈ pc_ids (ws_pc w) → id ≠ ws_next w).
           { intros id0 Hid. destruct (pc_id_intent w id0 Hw Hid) as (_ & i0 & _ & Hi0 & _).
             pose proof (wi_fresh w Hw _ _ Hi0). lia. }
           cbn. destruct (ws_pc w) as [| |id0 st0|id0 st0 rq|]; try done; intros Heq;
             by destruct (Hfresh id0 (list_elem_of_here _ _)).
      * destruct (wi_intents w Hw _ _ Hk') as (i0 & Hi0 & _). pose proof (wi_fresh w Hw _ _ Hi0).
        rewrite lookup_insert_ne by lia. intros Hi. eapply intent_ok_same; [by apply He|done..|].
        unfold next_episodes. cbn. by rewrite lookup_insert_ne, Hk', bool_decide_false by done.
    + intros k Hk'. unfold next_episodes. by rewrite Hk'.
Qed.

(** *** An attempt *)

(** Everything from the hint, above the floor, is proven up to [x]. *)
Definition back_to_hint (st : Stored) (i : RecoveryIntent) (x : Z) : Prop :=
  ∃ s, proven st (in_stream i) s x ∧ ∀ h, in_earliest_open_ms i = Some h → s ≤ Z.max h (floor (in_stream i)).

Lemma back_extend st i x y : back_to_hint st i x → proven st (in_stream i) x y → back_to_hint st i y.
Proof. intros (s & Hs & Hh) Hp. exists s. split; [by eapply proven_trans|done]. Qed.

(** The window of an attempt the intent still wants continues what was proven. *)
Lemma attempt_back st id started req i r w :
  cursor_ok st i → request_ok (Recovering id started req) id i → started = in_revision i →
  attempt_report st req r → vr_recovery_window r = Some w → back_to_hint st i (start_ms w).
Proof.
  intros Hc Hr Hs Ha Hw. destruct (Hr eq_refl) as (_ & Hk & Hsame). destruct (Hsame Hs) as [Hh Hrw].
  pose proof (at_window _ _ _ Ha w Hw) as H. rewrite Hrw, Hh, Hk in H.
  destruct (in_recovery_window i) as [w1|] eqn:Ew; [subst; by apply Hc|].
  exists (start_ms w). split; [|exact H]. intros tr t _ _ ?. lia.
Qed.

Lemma finish_attempt_cursor now started r i effects i' retry :
  finish_attempt cfg now started r i = (effects, Ok (i', retry)) →
  in_recovery_window i' = in_recovery_window i ∨
  started = in_revision i ∧ in_recovery_window i' =
    match vr_next_recovery_window r with Some w => Some w | None => vr_recovery_window r end.
Proof.
  unfold finish_attempt, plan_retry. cbv zeta.
  set (j := if negb (committed_bars r =? 0) then _ else i).
  assert (Hj : in_recovery_window j = in_recovery_window i) by (unfold j; by case_match). clearbody j.
  case_bool_decide; [intros [= _ <- _]; by left|].
  destruct (Z.eqb_spec (in_revision i) started) as [->|]; cbn [negb]; [|intros [= _ <- _]; by left].
  case_bool_decide; [intros [= _ <- _]; left; by case_match|].
  case_bool_decide; [destruct (attempt_progressed _ _); [intros [= _ <- _]; by right|]|];
    unfold mbind, res_bind; destruct (retry_delay _ _) as [d|e] eqn:Hd; try done;
    apply retry_delay_stream in Hd; intros [= _ <- _]; cbn; rewrite Hd; cbn; [by right|by left].
Qed.

Lemma finish_ok st id started req now r i effects i' retry :
  cursor_ok st i → request_ok (Recovering id started req) id i → attempt_report st req r →
  finish_attempt cfg now started r i = (effects, Ok (i', retry)) → cursor_ok st i'.
Proof.
  intros Hc Hr Ha Hf. destruct (finish_attempt_same _ _ _ _ _ _ _ _ Hf) as (Hs & He & _).
  destruct (finish_attempt_cursor _ _ _ _ _ _ _ Hf) as [Hw|[Hst Hw]]; intros w Hw'; rewrite Hs, He.
  - rewrite Hw in Hw'. by apply Hc.
  - pose proof (attempt_back st id started req i r) as Hb. destruct (vr_next_recovery_window r) as [next|] eqn:Hn.
    + rewrite Hw in Hw'. injection Hw' as <-. destruct (at_next _ _ _ Ha _ Hn) as (w0 & Hw0 & -> & Hp).
      destruct (Hr eq_refl) as (_ & Hk & _). rewrite Hk in Hp. eapply back_extend; [by apply Hb|done].
    + apply Hb; [done..|]. by rewrite <- Hw.
Qed.

(** A restored report is about the window of an attempt nothing changed. *)
Lemma finish_restored_effect now started r i effects result k fatal through :
  finish_attempt cfg now started r i = (effects, result) → RecordResult k true fatal through ∈ effects →
  k = in_stream i ∧ fatal = false ∧ vr_classification r = RESTORED ∧
  through = vr_restored_through_open_time_ms r ∧ started = in_revision i.
Proof.
  clear required floor. unfold finish_attempt. cbv zeta. set (rec := RecordResult _ _ _ _). intros Hf Hin.
  assert (Hrec : RecordResult k true fatal through = rec).
  { revert Hf. case_bool_decide; [intros [= <- _]; set_solver|].
    destruct (negb (in_revision i =? started)); [intros [= <- _]; set_solver|].
    case_bool_decide; [intros [= <- _]; set_solver|].
    destruct (plan_retry _ _ _) as [[[? ?] ?]|]; intros [= <- _]; set_solver. }
  injection Hrec as -> Hr -> ->. symmetry in Hr. bool_hyps. unfold vr_restored in *. bool_hyps.
  rewrite bool_decide_false by congruence. repeat (split; [done|]). lia.
Qed.

(** *** All steps *)

Definition not_signal (l : Label) : Prop := match l with Signal _ => False | _ => True end.

Lemma next_episodes_other l w' g k :
  not_signal l → next_episodes l w' g k = match ws_intents w' !! k with None => [] | Some _ => g k end.
Proof. unfold next_episodes. by destruct (ws_intents w' !! k), l. Qed.

(** A step that changes neither intents nor the dictionary. *)
Lemma move_ok w w' g l st :
  episodes_ok w g st → ws_heap w' = ws_heap w → ws_intents w' = ws_intents w → not_signal l →
  (∀ k id i, ws_heap w !! id = Some i → intent_ok w g st k id i → request_ok (ws_pc w') id i) →
  episodes_ok w' (next_episodes l w' g) st.
Proof.
  intros [He Hn] Hh Hi Hl Hr. split; [|intros k Hk; by rewrite next_episodes_other, Hk].
  intros k id i. rewrite Hh, Hi. intros Hk Hid. pose proof (He k id i Hk Hid) as H.
  split; [|apply H|by eapply Hr]. rewrite next_episodes_other, Hi, Hk by done. apply H.
Qed.

(** The taken intent after its attempt. *)
Lemma settle_ok w g st id i i' retry stopped l :
  worker_inv w → episodes_ok w g st → id ∈ pc_ids (ws_pc w) → ws_heap w !! id = Some i →
  same_intent i i' → cursor_ok st i' → not_signal l →
  episodes_ok (settle cfg id i' retry stopped w).1
    (next_episodes l (settle cfg id i' retry stopped w).1 g) st.
Proof.
  intros Hw [He Hn] Hid Hi (Hs & Hearliest & Hrev) Hc Hl.
  destruct (pc_id_intent w id Hw Hid) as (k & i0 & Hk & Hi0 & Hki). rewrite Hi in Hi0. injection Hi0 as <-.
  unfold settle. cbv zeta. cbn [fst]. set (w' := mkWorker _ _ _ _ _).
  assert (Hint : ∀ k0 id0, ws_intents w' !! k0 = Some id0 → ws_intents w !! k0 = Some id0).
  { intros k0 id0. unfold w'. cbn. case_match; [done|]. by intros [_ ?]%lookup_delete_Some. }
  split; [|intros k0 Hk0; by rewrite next_episodes_other, Hk0].
  intros k0 id0 j Hk0 Hj. pose proof (Hint _ _ Hk0) as Hk0'. split; [|..].
  - rewrite next_episodes_other, Hk0 by done. cbn in Hj. destruct (decide (id0 = id)) as [->|Hne].
    + rewrite lookup_insert_eq in Hj. injection Hj as <-. pose proof (io_hints _ _ _ _ _ _ (He _ _ _ Hk0' Hi)) as H.
      unfold hint_known in *. by rewrite Hearliest.
    + rewrite lookup_insert_ne in Hj by done. apply (He _ _ _ Hk0' Hj).
  - cbn in Hj. destruct (decide (id0 = id)) as [->|Hne].
    + rewrite lookup_insert_eq in Hj. by injection Hj as <-.
    + rewrite lookup_insert_ne in Hj by done. apply (He _ _ _ Hk0' Hj).
  - done.
Qed.

(** A step keeps the invariant of the episodes. *)
Lemma worker_step_ok w g st l w' effects :
  worker_inv w → episodes_ok w g st → worker_step cfg w l = Some (w', effects) → running w' →
  (∀ now stopped r id started req, l = Finish now stopped r → ws_pc w = Recovering id started req →
     attempt_report st req r) →
  episodes_ok w' (next_episodes l w' g) st.
Proof.
  intros Hw Hok Hstep Hrun Ha. destruct l as [sig|k|now| | |now stopped r| |e]; cbn in Hstep.
  - injection Hstep as <- _. by apply signal_ok.
  - injection Hstep as <- _. unfold mark_live_commit. destruct (ws_intents w !! k) as [id|] eqn:Hk.
    + destruct (wi_intents w Hw _ _ Hk) as (i & Hi & _). rewrite Hi.
      apply (put_ok w g st k); [done..| |].
      * eapply intent_ok_same; [by apply Hok|done..|]. rewrite next_episodes_other by done. cbn. by rewrite Hk.
      * intros k' _. rewrite next_episodes_other by done. cbn.
        destruct (ws_intents w !! k') eqn:Hk'; [done|]. by rewrite (proj2 Hok).
    + apply (move_ok w); [done..|]. intros. by eapply io_request.
  - destruct (ws_pc w) eqn:Hpc; try done. destruct (ws_queue w) as [|id q]; [done|].
    destruct (ws_heap w !! id) as [i|] eqn:Hi; [|done]. cbn in Hstep.
    destruct (fgt _ _); injection Hstep as <- _; apply (move_ok w); try done.
    intros k id' i' Hi' _ <-. rewrite Hi in Hi'. injection Hi' as <-. lia.
  - destruct (ws_pc w) eqn:Hpc; try done. injection Hstep as <- _. by apply (move_ok w).
  - destruct (ws_pc w) as [| |id started| |] eqn:Hpc; try done.
    destruct (ws_heap w !! id) as [i|] eqn:Hi; [|done]. cbn in Hstep.
    destruct (RealtimeRecoveryRequest_new _ _ _) as [req|] eqn:Hreq; [|by injection Hstep as <- _].
    injection Hstep as <- _. apply (move_ok w); [done..|]. intros k id' i' Hi' H <-.
    rewrite Hi in Hi'. injection Hi' as <-. pose proof (io_request _ _ _ _ _ _ H) as Hr. rewrite Hpc in Hr.
    unfold RealtimeRecoveryRequest_new in Hreq. apply raise_if_bind_ok in Hreq as [_ [= <-]].
    split; [by apply Hr|]. split; [done|]. by intros _.
  - destruct (ws_pc w) as [| | |id started req|] eqn:Hpc; try done.
    destruct (ws_heap w !! id) as [i|] eqn:Hi; [|done]. cbn in Hstep.
    destruct (finish_attempt _ _ _ _ _) as [eff [[i' retry]|e]] eqn:Hf; [|by injection Hstep as <- _].
    injection Hstep as <- _. destruct (pc_id_intent w id Hw) as (k & i0 & Hk & Hi0 & _);
      [by rewrite Hpc; apply list_elem_of_here|]. rewrite Hi in Hi0. injection Hi0 as <-.
    destruct Hok as [He Hn]. destruct (He _ _ _ Hk Hi) as [_ Hc Hr]. rewrite Hpc in Hr.
    apply (settle_ok w g st id i i' retry stopped); try done.
    + by rewrite Hpc; apply list_elem_of_here.
    + by eapply finish_attempt_same.
    + eapply finish_ok; [exact Hc|exact Hr| |exact Hf]. by eapply Ha.
  - destruct (ws_pc w); try done; by injection Hstep as <- _.
  - destruct (ws_pc w); try done; by injection Hstep as <- _.
Qed.

Lemma reaches_inv w g st : reaches w g st → worker_inv w ∧ episodes_ok w g st.
Proof.
  induction 1 as [st|w g st st' _ [Hw [He Hn]] Hst|w g st l w' effects _ [Hw Hok] Hstep Hrun Ha].
  - split; [apply worker_new_inv|]. by split.
  - split; [done|]. split; [|done]. intros k id i Hk Hi. destruct (He k id i Hk Hi) as [H1 H2 H3].
    split; [done| |done]. intros win Hwin. destruct (H2 win Hwin) as (s & Hp & Hs). exists s.
    split; [|done]. by eapply proven_mono.
  - split; [by eapply worker_step_inv|by eapply worker_step_ok].
Qed.
End episode.

(** What a step of [run] reports to the supervisor comes from its attempt. *)
Lemma finish_step cfg w now stopped r id started req w' effects :
  ws_pc w = Recovering id started req → worker_step cfg w (Finish now stopped r) = Some (w', effects) →
  ∃ i eff result, ws_heap w !! id = Some i ∧ finish_attempt cfg now started r i = (eff, result) ∧
    (∀ k restored fatal through, RecordResult k restored fatal through ∈ effects ↔
       RecordResult k restored fatal through ∈ eff) ∧
    match result with
    | Ok (i', retry) => w' = (settle cfg id i' retry stopped w).1
    | Raise e => w' = worker_end (Some e) w
    end.
Proof.
  intros Hpc. cbn. rewrite Hpc. destruct (ws_heap w !! id) as [i|]; [|done]. cbn.
  destruct (finish_attempt _ _ _ _ _) as [eff [[i' retry]|e]] eqn:Hf; intros [= <- <-];
    exists i, eff; eexists; (split; [done|]); (split; [exact Hf|]); (split; [|done]); [|done].
  intros k restored fatal through. rewrite elem_of_app. split; [|by left]. intros [H|H]; [done|].
  apply elem_of_cons in H as [H|H]; [done|]. destruct (negb retry && wc_on_restored cfg); [|by apply elem_of_nil in H].
  destruct (in_notify_open_ms i'); [by apply list_elem_of_singleton in H|by apply elem_of_nil in H].
Qed.

(** C3. A restored episode covers what its signals asked for.  Whatever the tasks did in between - more
    signals before and during the attempts, live commits, other rows - when the worker tells the
    supervisor that a stream is restored up to a bar, that report is not fatal, and every bar from
    the earliest suspected start of the signals of the episode (above the floor of the history) to
    the reported one is stored on every track the stream requires: over several attempts whose
    target moved as well, and signals that came during the last attempt included. *)
Theorem restored_episode_covers (cfg : WorkerConfig) (required : StreamKey → Track → bool)
    (floor : StreamKey → Z) (w w' : Worker) (g : Episodes) (st : Track → StreamKey → Z → Prop)
    (now : float) (stopped : bool) (r : RealtimeRecoveryResult) (id : nat) (started : Z)
    (req : RealtimeRecoveryRequest) (effects : list Effect) (k : StreamKey) (fatal : bool) (through : option Z) :
  reaches cfg required floor w g st → ws_pc w = Recovering id started req → attempt_report required floor st req r →
  worker_step cfg w (Finish now stopped r) = Some (w', effects) →
  RecordResult k true fatal through ∈ effects →
  fatal = false ∧ ∃ e, through = Some e ∧
    ∀ sig h tr t, sig ∈ g k → rc_suspected_start_time_ms sig = Some h → required k tr = true →
      on_grid (stream_step k) t → Z.max h (floor k) ≤ t ≤ e → st tr k t.
Proof.
  intros Hreach Hpc Ha Hstep Hin. apply reaches_inv in Hreach as [Hw [He _]].
  destruct (finish_step _ _ _ _ _ _ _ _ _ _ Hpc Hstep) as (i & eff & result & Hi & Hf & Hrec & _).
  apply Hrec in Hin. destruct (finish_restored_effect _ _ _ _ _ _ _ _ _ _ Hf Hin) as (-> & -> & Hc & -> & Hst).
  split; [done|]. destruct (pc_id_intent w id Hw) as (k & i0 & Hk & Hi0 & Hki);
    [by rewrite Hpc; apply list_elem_of_here|]. rewrite Hi in Hi0. injection Hi0 as <-. rewrite Hki.
  destruct (He _ _ _ Hk Hi) as [Hh Hcur Hr]. rewrite Hpc in Hr.
  destruct (at_restored _ _ _ _ _ Ha Hc) as (win & Hwin & Hthr & Hp).
  pose proof (attempt_back _ _ _ _ _ _ _ _ _ Hcur Hr Hst Ha Hwin) as Hback.
  destruct (Hr eq_refl) as (_ & Hrk & _). rewrite Hrk in Hthr, Hp.
  destruct (back_extend _ _ _ _ _ _ Hback Hp) as (s & Hs & Hhint). rewrite Hki in *.
  eexists. split; [exact Hthr|]. intros sig h tr t Hsig Hsh Htr Hg Ht. rewrite Forall_forall in Hh.
  destruct (Hh sig Hsig h Hsh) as (e0 & He0 & Hle). specialize (Hhint e0 He0).
  pose proof (stream_step_pos k). apply Hs; [done..|lia].
Qed.

(** The dictionary of the intents after an attempt. *)
Lemma settle_intents cfg id i retry stopped w k x :
  ws_intents w !! k = Some x →
  ws_intents (settle cfg id i retry stopped w).1 !! k = Some x ∨ retry && negb stopped = false.
Proof.
  intros Hk. unfold settle. cbv zeta. cbn. destruct (retry && negb stopped) eqn:Ea; [by left|by right].
Qed.

(** An attempt that is not retried was reported as restored or fatal. *)
Lemma finish_attempt_done cfg now started r i eff i' :
  finish_attempt cfg now started r i = (eff, Ok (i', false)) →
  ∃ restored fatal through, RecordResult (in_stream i) restored fatal through ∈ eff ∧ (restored || fatal = true).
Proof.
  unfold finish_attempt. cbv zeta. set (rec := RecordResult _ _ _ _).
  case_bool_decide as Hf.
  { intros [= <- _]. do 3 eexists. split; [apply list_elem_of_here|]. by rewrite orb_true_r. }
  destruct (negb (in_revision i =? started)) eqn:Hc; [by intros [= _ _]|].
  case_bool_decide as Hr.
  { intros [= <- _]. do 3 eexists. split; [apply list_elem_of_here|].
    unfold vr_restored. by rewrite bool_decide_true. }
  by destruct (plan_retry _ _ _) as [[[? ?] ?]|].
Qed.

(** An intent leaves the dictionary only in these cases. *)
Lemma worker_step_keeps cfg w l w' effects k id :
  worker_inv w → worker_step cfg w l = Some (w', effects) → running w' → ws_intents w !! k = Some id →
  ws_intents w' !! k = Some id ∨
  (∃ restored fatal through, RecordResult k restored fatal through ∈ effects ∧ restored || fatal = true) ∨
  ∃ now r, l = Finish now true r.
Proof.
  intros Hw Hstep Hrun Hk. destruct l as [sig|k0|now| | |now stopped r| |e].
  - injection Hstep as <- _. left. unfold enqueue. destruct (ws_intents w !! rc_stream sig) as [id0|] eqn:Hs.
    + by case_match.
    + cbn. rewrite lookup_insert_ne; [done|]. intros Heq. by rewrite Heq, Hk in Hs.
  - injection Hstep as <- _. left. unfold mark_live_commit. by repeat case_match.
  - left. cbn in Hstep. destruct (ws_pc w), (ws_queue w); try done.
    destruct (ws_heap w !! _); [|done]. cbn in Hstep. destruct (fgt _ _); by injection Hstep as <- _.
  - left. cbn in Hstep. destruct (ws_pc w); try done. by injection Hstep as <- _.
  - left. cbn in Hstep. destruct (ws_pc w); try done. destruct (ws_heap w !! _); [|done]. cbn in Hstep.
    destruct (RealtimeRecoveryRequest_new _ _ _); by injection Hstep as <- _.
  - destruct (ws_pc w) as [| | |id0 started req|] eqn:Hpc; try (by cbn in Hstep; rewrite Hpc in Hstep).
    destruct (finish_step _ _ _ _ _ _ _ _ _ _ Hpc Hstep) as (i & eff & [[i' retry]|e] & Hi & Hf & Hrec & ->); [|done].
    destruct (decide (id0 = id)) as [->|Hne].
    + destruct (settle_intents cfg id i' retry stopped w k id Hk) as [?|Ha]; [by left|right].
      destruct stopped; [right; by exists now, r|left]. rewrite andb_true_r in Ha. subst retry.
      destruct (finish_attempt_done _ _ _ _ _ _ _ Hf) as (re & fa & th & Hin & Hor).
      destruct (wi_intents w Hw k id Hk) as (i0 & Hi0 & <-). rewrite Hi in Hi0. injection Hi0 as <-.
      exists re, fa, th. by rewrite Hrec.
    + left. unfold settle. cbv zeta. cbn. case_match; [done|]. rewrite lookup_delete_ne; [done|].
      intros Heq. destruct (pc_id_intent w id0 Hw) as (k1 & i1 & Hk1 & Hi1 & Hs1);
        [by rewrite Hpc; apply list_elem_of_here|]. rewrite Hi in Hi1. injection Hi1 as <-.
      apply finish_attempt_same in Hf as [Hs _]. rewrite Hs, Hs1 in Heq. subst k1. congruence.
  - cbn in Hstep. destruct (ws_pc w); try done; by injection Hstep as <- _.
  - cbn in Hstep. destruct (ws_pc w); try done; by injection Hstep as <- _.
Qed.

(** C28. The worker keeps one recovery per stream and forgets none.  In every reachable state the intents
    in the queue together with the one taken are distinct, each is the intent of exactly one
    stream, and a stream has an intent exactly when one of them is its own: no two attempts of a
    stream ever run side by side.  The intent of a stream knows a suspected start no later than
    that of every signal of its episode.  And it goes away only when the supervisor is told that
    the stream is restored or failed for good, or when the service stops. *)
Theorem single_recovery (cfg : WorkerConfig) (required : StreamKey → Track → bool) (floor : StreamKey → Z)
    (w : Worker) (g : Episodes) (st : Track → StreamKey → Z → Prop) :
  reaches cfg required floor w g st →
  NoDup (owned w) ∧
  (∀ id, id ∈ owned w → ∃ k i, ws_intents w !! k = Some id ∧ ws_heap w !! id = Some i ∧ in_stream i = k ∧
     ∀ k', ws_intents w !! k' = Some id → k' = k) ∧
  (∀ k, (∃ id i, ws_intents w !! k = Some id ∧ id ∈ owned w ∧ ws_heap w !! id = Some i ∧
                 Forall (hint_known i) (g k)) ∨
        (ws_intents w !! k = None ∧ g k = [])) ∧
  (∀ l w' effects k id, worker_step cfg w l = Some (w', effects) → running w' → ws_intents w !! k = Some id →
     ws_intents w' !! k = Some id ∨
     (∃ restored fatal through, RecordResult k restored fatal through ∈ effects ∧ restored || fatal = true) ∨
     ∃ now r, l = Finish now true r).
Proof.
  intros Hreach. apply reaches_inv in Hreach as [Hw [He Hn]]. pose proof Hw as [H1 H2 H3 H4].
  split; [done|]. split; [|split].
  - intros id (k & Hk)%H4. destruct (H1 k id Hk) as (i & Hi & Hki). exists k, i. do 3 (split; [done|]).
    intros k' Hk'. symmetry. by apply (intents_inj w k k' id).
  - intros k. destruct (ws_intents w !! k) as [id|] eqn:Hk; [left|right; by split; [|apply Hn]].
    destruct (H1 k id Hk) as (i & Hi & _). exists id, i. split; [done|]. split; [apply H4; by exists k|].
    split; [done|]. apply (He k id i Hk Hi).
  - intros l w' effects k id Hstep Hrun Hk. by eapply worker_step_keeps.
Qed.

(** ** The recovery is such an attempt *)

(** The tracks a recovery requires. *)
Definition recovery_required (open_interest : option OpenInterestRecoveryTrack) (k : StreamKey) (tr : Track) : bool :=
  match tr with CANDLES => true | OPEN_INTEREST => oi_required open_interest k end.

Section attempt.
Context `{E : Env} (repair : StreamRepair) `{HP : !RepairPromise candle_stored repair}
  (open_interest : option OpenInterestRecoveryTrack)
  `{HO : !RepairPromise oi_stored (from_option ot_repair repair open_interest)}.

Lemma store_covered_proven tr k a w :
  on_grid (stream_step k) (end_ms w) →
  store_covered (match tr with CANDLES => candle_stored | OPEN_INTEREST => oi_stored end) k a
    (start_ms w) (end_ms w - stream_step k) →
  ∀ t, on_grid (stream_step k) t → start_ms w ≤ t < end_ms w → stored_in a tr k t.
Proof.
  intros He Hc t Ht Hr. apply (store_covered_in a tr k _ _ Hc); [done|].
  destruct (window_last k t (end_ms w) Ht He); lia.
Qed.

Lemma proven_window_proven k a w :
  proven_window k (oi_required open_interest k) a w →
  proven (recovery_required open_interest) (stored_in a) k (start_ms w) (end_ms w).
Proof.
  intros (He & Hc & Ho) tr t Htr. apply (store_covered_proven tr k a w He). destruct tr; [done|by apply Ho].
Qed.

(** The derived window starts no later than the hint. *)
Lemma window_origin_start req a n c r floor w :
  store_inv a → ab_streams a !! rc_stream (rv_signal req) = Some r →
  (∀ b, earliest_available_open_time_ms (sr_state r) = Some b → b ≤ floor) →
  (∀ l m, latest_committed_open_time_ms (sr_state r) = Some l →
    l < env_clock m - env_clock m mod stream_step (rc_stream (rv_signal req))) →
  window_origin req a n c w →
  match rv_recovery_window req with
  | Some w1 => w = w1
  | None => ∀ h, rc_suspected_start_time_ms (rv_signal req) = Some h → start_ms w ≤ Z.max h floor
  end.
Proof.
  intros Hi Hr Hb Hclock. unfold window_origin. destruct (rv_recovery_window req); [done|].
  intros (v & v' & Hm & Hw) h Hh.
  destruct (mark_unavailable_keeps _ _ a n c r v Hi Hr Hm) as (r1 & Hr1 & Hlatest & Hearliest).
  pose proof (quiet_step _ a (mark_unavailable (rc_stream (rv_signal req))
    (recovery_reason_value (rc_reason (rv_signal req)))) (mkWorld a None n c) (keeps_mark_unavailable _ _ _)) as Hq.
  rewrite Hm in Hq. destruct Hq as [Htx [Hi1 _]]; [by split; [|apply good_refl]|]. cbn [snd] in Htx, Hi1.
  destruct (derive_window_spec _ v r1 w v' Htx Hi1 Hr1 Hw) as (_ & _ & _ & latest & Hl & _ & Hstart).
  rewrite Hlatest in Hl. apply (Hstart h floor Hh); [by rewrite Hearliest|by apply Hclock].
Qed.
End attempt.

(** The recovery coordinator is what the worker relies on.  Every result of a recovery of a registered
    stream is the report of an attempt, over the store it leaves: the window is the requested one
    or starts no later than the hint, above the bound of the history, and a restored recovery as
    well as one whose target moved on has every bar of its window stored on every required track.
    It needs no stored candle ahead of the clock. *)
Theorem recovery_attempt_reports `{E : Env} (repair : StreamRepair) `{!RepairPromise candle_stored repair}
    (open_interest : option OpenInterestRecoveryTrack)
    `{!RepairPromise oi_stored (from_option ot_repair repair open_interest)}
    (req : RealtimeRecoveryRequest) (a : AbsStore) (r : StreamRec) (n c : nat)
    (res : RealtimeRecoveryResult) (w' : World AbsStore) (floor : StreamKey → Z) :
  store_inv a → ab_streams a !! rc_stream (rv_signal req) = Some r →
  (∀ b, earliest_available_open_time_ms (sr_state r) = Some b → b ≤ floor (rc_stream (rv_signal req))) →
  (∀ l m, latest_committed_open_time_ms (sr_state r) = Some l →
    l < env_clock m - env_clock m mod stream_step (rc_stream (rv_signal req))) →
  run (recover repair open_interest req) (mkWorld a None n c) = (Ok res, w') →
  attempt_report (recovery_required open_interest) floor (stored_in (w_db w')) req res.
Proof.
  intros Hi Hr Hb Hclock Hrun.
  destruct (recover_cases repair open_interest req a n c Hi (ex_intro _ r Hr)) as (res' & v0 & Hrun' & Hc).
  rewrite Hrun in Hrun'. injection Hrun' as <- <-.
  destruct Hc as [(ow & [_ Hcls Hwin _ _ Hnext] & Ho)|(w & (Hcls & _ & _ & Hnext & [Hwin Hthr [_ Hbar] Hcan Hoi] & _) & Ho)].
  - split; [|by intros ?|].
    + intros w Hw. rewrite Hwin in Hw. by eapply window_origin_start, Ho.
    + intros next Hn. destruct (Hnext next Hn) as (_ & _ & w0 & -> & Hs & Hp). exists w0.
      split; [done|]. split; [done|]. by apply proven_window_proven.
  - assert (Hp : proven (recovery_required open_interest) (stored_in (w_db w')) (rc_stream (rv_signal req))
      (start_ms w) (end_ms w)).
    { apply proven_window_proven. split; [|by split]. destruct Hbar as [_ Hbar].
      replace (end_ms w) with (end_ms w - stream_step (rc_stream (rv_signal req)) + stream_step (rc_stream (rv_signal req)))
        by lia. unfold on_grid. by rewrite Z_mod_add_step. }
    split.
    + intros w1 Hw1. rewrite Hwin in Hw1. injection Hw1 as <-. by eapply window_origin_start.
    + intros _. by exists w.
    + intros next Hn. by rewrite Hnext in Hn.
Qed.

#[local] Existing Instances recovery_env recovery_env_ok recovery_oi_promise.

Lemma recovery_attempt_reports_witness :
  let track := Some (mkRecoveryTrack [] (wired_oi_repair 200)) in
  match run (recover (wired_repair 1000) track recovery_request) (mkWorld recovery_store None 0 0) with
  | (Ok res, w') =>
      vr_classification res = RESTORED ∧
      attempt_report (recovery_required track) (λ _, 0) (stored_in (w_db w')) recovery_request res
  | (Raise _, _) => False
  end.
Proof.
  intros track.
  assert (Hc : vr_classification <$>
    (run (recover (wired_repair 1000) track recovery_request) (mkWorld recovery_store None 0 0)).1 = Ok RESTORED)
    by (by vm_compute).
  assert (Hr : ∃ r, ab_streams recovery_store !! example_stream = Some r ∧
    earliest_available_open_time_ms (sr_state r) = Some 0 ∧ latest_committed_open_time_ms (sr_state r) = Some 0)
    by (vm_compute; eexists; split; [reflexivity|by split]).
  destruct (run _ _) as [[res|e] w'] eqn:Hp; [|done]. destruct Hr as (r & Hr & Hb & Hl).
  injection Hc as Hres. split; [done|].
  apply (recovery_attempt_reports (wired_repair 1000) track recovery_request recovery_store r 0 0 res w' (λ _, 0)
    recovery_store_inv Hr); [| |exact Hp].
  - rewrite Hb. by intros b [= <-].
  - rewrite Hl. intros l m [= <-]. change (env_clock m) with (130000 + Z.of_nat m).
    change (stream_step (rc_stream (rv_signal recovery_request))) with 60000.
    pose proof (Z.mod_pos_bound (130000 + Z.of_nat m) 60000 ltac:(lia)). lia.
Defined.

(** *** An example: a signal that arrives during the attempt is covered by it *)

(** A run of steps without the end of an attempt. *)
Fixpoint replay (cfg : WorkerConfig) (ls : list Label) (w : Worker) (g : Episodes) : option (Worker * Episodes) :=
  match ls with
  | [] => Some (w, g)
  | Finish _ _ _ :: _ => None
  | l :: ls =>
      match worker_step cfg w l with
      | Some (w', _) =>
          match ws_pc w' with Ended _ => None | _ => replay cfg ls w' (next_episodes l w' g) end
      | None => None
      end
  end.

Lemma replay_reaches cfg required floor st ls w g w' g' :
  reaches cfg required floor w g st → replay cfg ls w g = Some (w', g') → reaches cfg required floor w' g' st.
Proof.
  revert w g. induction ls as [|l ls IH]; intros w g Hr H; cbn [replay] in H; [by injection H as <- <-|].
  assert (Hl : ∃ w1 effects, worker_step cfg w l = Some (w1, effects) ∧ running w1 ∧
    (∀ now stopped r, l ≠ Finish now stopped r) ∧ replay cfg ls w1 (next_episodes l w1 g) = Some (w', g')).
  { destruct l; try discriminate H; destruct (worker_step cfg w _) as [[w1 eff]|]; try discriminate H;
      exists w1, eff; unfold running; by destruct (ws_pc w1). }
  destruct Hl as (w1 & eff & Hstep & Hrun & Hfin & Hrest). apply (IH w1 (next_episodes l w1 g)); [|done].
  eapply reaches_step; [done..|]. intros ? ? ? ? ? ? Heq. by destruct (Hfin _ _ _ Heq).
Qed.

Definition example_signal (reason : RecoveryReason) (h : Z) : RecoveryRequired :=
  mkRecoveryRequired example_stream reason 200000 (Some h).
Definition example_config : WorkerConfig := default_config 5 true.
Definition example_labels : list Label :=
  [Signal (example_signal SEQUENCE_DISCONTINUITY 60000); Take (float_of_Z 0); Enter;
   Signal (example_signal DISCONNECT 120000)].
Definition example_required (k : StreamKey) (tr : Track) : bool := bool_decide (tr = CANDLES).
Definition example_rows (tr : Track) (k : StreamKey) (t : Z) : Prop := tr = CANDLES ∧ 0 ≤ t < 180000.
Definition example_result : RealtimeRecoveryResult :=
  mkRecoveryResult example_stream RESTORED (Some (mkTimeWindow 60000 180000)) None None None None None
    (Some 120000) None None.

Lemma example_attempt req :
  rc_stream (rv_signal req) = example_stream → rv_recovery_window req = None →
  rc_suspected_start_time_ms (rv_signal req) = Some 60000 →
  attempt_report example_required (λ _, 0) example_rows req example_result.
Proof.
  intros Hk Hw Hh.
  assert (Hp : proven example_required example_rows example_stream 60000 180000).
  { intros tr t Htr _ Ht. unfold example_required in Htr. bool_hyps. split; [done|lia]. }
  split; rewrite ?Hk.
  - intros w [= <-]. rewrite Hw, Hh. intros h [= <-]. cbn. lia.
  - intros _. by exists (mkTimeWindow 60000 180000).
  - done.
Qed.

(** The example up to the end of the attempt, and the report it makes. *)
Definition example_check : bool :=
  match replay example_config example_labels Worker_new (λ _, []) with
  | Some (w, g) =>
      match ws_pc w with
      | Recovering _ _ req =>
          bool_decide (rc_stream (rv_signal req) = example_stream) && bool_decide (rv_recovery_window req = None)
          && bool_decide (rc_suspected_start_time_ms (rv_signal req) = Some 60000)
          && bool_decide (length (g example_stream) = 2%nat)
          && match worker_step example_config w (Finish (float_of_Z 1) false example_result) with
             | Some (_, RecordResult k restored fatal through :: _) =>
                 bool_decide (k = example_stream) && restored && negb fatal && bool_decide (through = Some 120000)
             | _ => false
             end
      | _ => false
      end
  | None => false
  end.

Lemma example_checked : ∃ w g id started req w' eff,
  replay example_config example_labels Worker_new (λ _, []) = Some (w, g) ∧
  reaches example_config example_required (λ _, 0) w g example_rows ∧
  ws_pc w = Recovering id started req ∧ length (g example_stream) = 2%nat ∧
  attempt_report example_required (λ _, 0) example_rows req example_result ∧
  worker_step example_config w (Finish (float_of_Z 1) false example_result) = Some (w', eff) ∧
  RecordResult example_stream true false (Some 120000) ∈ eff.
Proof.
  assert (Hc : example_check = true) by (vm_compute; reflexivity). unfold example_check in Hc.
  destruct (replay _ _ _ _) as [[w g]|] eqn:Hr; [|discriminate Hc].
  destruct (ws_pc w) as [| | |id started req|] eqn:Hpc; try discriminate Hc.
  destruct (worker_step _ w _) as [[w' [|[k re fa th| | | |] eff]]|] eqn:Hstep;
    try (rewrite andb_false_r in Hc; discriminate Hc).
  apply andb_true_iff in Hc as [Hc He]. bool_hyps. subst.
  exists w, g, id, started, req, w', (RecordResult example_stream true false (Some 120000) :: eff).
  split; [done|]. split; [by eapply replay_reaches; [apply reaches_new|]|]. split; [done|]. split; [done|].
  split; [by apply example_attempt|]. split; [done|]. apply list_elem_of_here.
Qed.

Lemma restored_episode_covers_witness :
  ∃ w g, replay example_config example_labels Worker_new (λ _, []) = Some (w, g) ∧
    length (g example_stream) = 2%nat ∧
    ∃ e, Some 120000 = Some e ∧
      ∀ sig h tr t, sig ∈ g example_stream → rc_suspected_start_time_ms sig = Some h →
        example_required example_stream tr = true → on_grid (stream_step example_stream) t →
        Z.max h 0 ≤ t ≤ e → example_rows tr example_stream t.
Proof.
  destruct example_checked as (w & g & id & started & req & w' & eff & Hr & Hreach & Hpc & Hg & Ha & Hstep & Hin).
  exists w, g. split; [done|]. split; [done|].
  eapply (restored_episode_covers example_config example_required (λ _, 0) w w' g example_rows);
    [exact Hreach|exact Hpc|exact Ha|exact Hstep|exact Hin].
Defined.

Lemma single_recovery_witness :
  ∃ w g, replay example_config example_labels Worker_new (λ _, []) = Some (w, g) ∧
    NoDup (owned w) ∧ length (g example_stream) = 2%nat.
Proof.
  destruct example_checked as (w & g & id & started & req & w' & eff & Hr & Hreach & _ & Hg & _).
  exists w, g. split; [done|]. split; [|done].
  by apply (single_recovery example_config example_required (λ _, 0) w g example_rows).
Defined.
