(* ===== verification/Coordinator.v ===== *)
(** * The realtime coordinator

    runtime/realtime.py with runtime/open_interest_publication.py and the queue of
    runtime/committed_bar_notification.py.  [Coordinator] is what the tasks of the event loop share: the supervisor, the
    recovery worker, the admission gate, the status store, the committed state and the
    notifications.  A handler is a computation [CM] on it that may raise and keeps what it
    changed before.  No handler awaits anything that suspends - the queues it puts to never
    block - so that the handlers and the steps of the recovery worker are the atomic steps
    ([CoStep]) that the tasks interleave; [CoWorker] runs a step of the worker with its effects.
    The repairs and the recovery itself run on threads and end in [Finish]. *)

From S2P Require Import Prelude PyStr DecimalValues Timeframes Identity Gaps Candles StreamState.
From S2P Require Import Instruments OpenInterest Storage AbsStore Ingest ImportWindow UseCase Repair.
From S2P Require Import RealtimeFacts Supervisor Continuity LifecycleUpdate RealtimeRecovery RuntimeStatus.
From S2P Require Import PyFloat RecoveryWorker.

(** ** committed_bar_notification.py *)

Record CommittedBarNotification := mkNotification {
  nt_instrument : string;
  nt_timeframe : Timeframe;
  nt_open_time_ms : Z
}.

#[export] Instance CommittedBarNotification_eq_dec : EqDecision CommittedBarNotification.
Proof. solve_decision. Defined.

Definition bar_notification (k : StreamKey) (open_time_ms : Z) : CommittedBarNotification :=
  mkNotification (instrument_canonical_id (instrument k)) (timeframe k) open_time_ms.

(** Where the task of [CommittedBarNotificationWorker] stands. *)
Inductive NotifierTask :=
| NotifierIdle
| Preparing (x : CommittedBarNotification)      (* await prepare(notification) *)
| Sending (x : CommittedBarNotification).       (* await the thread of the send *)

(** Its queue, [asyncio.Queue(maxsize=capacity)], and its task. *)
Record Notifier := mkNotifier {
  no_capacity : Z;
  no_queue : list CommittedBarNotification;
  no_task : NotifierTask
}.

Definition queue_full (n : Notifier) : bool :=
  (0 <? no_capacity n) && (no_capacity n <=? Z.of_nat (length (no_queue n))).

(** [enqueue]: a full queue drops the notification. *)
Definition notifier_enqueue (x : CommittedBarNotification) (n : Notifier) : Notifier :=
  if queue_full n then n else mkNotifier (no_capacity n) (no_queue n ++ [x]) (no_task n).

(** ** The shared state *)

Record Coordinator := mkCoordinator {
  co_supervisor : Supervisor;
  co_worker : Worker;
  co_gate : AdmissionGate;
  co_status : RuntimeStatus;
  co_world : World AbsStore;
  co_notifier : option Notifier
}.

Definition CM (A : Type) : Type := Coordinator → res A * Coordinator.

#[export] Instance CM_ret : MRet CM := λ A a c, (Ok a, c).
#[export] Instance CM_bind : MBind CM := λ A B f m c,
  match m c with (Ok a, c') => f a c' | (Raise e, c') => (Raise e, c') end.

Definition co_get {A} (f : Coordinator → A) : CM A := λ c, (Ok (f c), c).
Definition co_modify (f : Coordinator → Coordinator) : CM () := λ c, (Ok (), f c).

Definition set_supervisor (c : Coordinator) (s : Supervisor) : Coordinator :=
  mkCoordinator s (co_worker c) (co_gate c) (co_status c) (co_world c) (co_notifier c).
Definition set_worker (c : Coordinator) (w : Worker) : Coordinator :=
  mkCoordinator (co_supervisor c) w (co_gate c) (co_status c) (co_world c) (co_notifier c).
Definition set_gate (c : Coordinator) (g : AdmissionGate) : Coordinator :=
  mkCoordinator (co_supervisor c) (co_worker c) g (co_status c) (co_world c) (co_notifier c).
Definition set_status (c : Coordinator) (s : RuntimeStatus) : Coordinator :=
  mkCoordinator (co_supervisor c) (co_worker c) (co_gate c) s (co_world c) (co_notifier c).
Definition set_world (c : Coordinator) (w : World AbsStore) : Coordinator :=
  mkCoordinator (co_supervisor c) (co_worker c) (co_gate c) (co_status c) w (co_notifier c).
Definition set_notifier (c : Coordinator) (n : option Notifier) : Coordinator :=
  mkCoordinator (co_supervisor c) (co_worker c) (co_gate c) (co_status c) (co_world c) n.

(** A method of the supervisor, of the status store, and a program over the store. *)
Definition co_sm {A} (m : SM A) : CM A := λ c, let p := m (co_supervisor c) in (p.1, set_supervisor c p.2).
Definition co_status_method (m : RuntimeStatus → res () * RuntimeStatus) : CM () := λ c,
  let p := m (co_status c) in (p.1, set_status c p.2).

(** A loop over a sequence. *)
Fixpoint co_each {A} (f : A → CM ()) (l : list A) : CM () :=
  match l with
  | [] => mret ()
  | x :: l => _ ← f x; co_each f l
  end.

Section coordinator.
Context `{E : Env} (cfg : WorkerConfig) (streams : list StreamKey) (topic_to_stream : gmap string StreamKey)
  (clock : nat → Z) (grace_ms : Z) (oi_streams : list StreamKey).

Definition co_m {A} (p : M A) : CM A := λ c, let r := run p (co_world c) in (r.1, set_world c r.2).

Definition facts_of (k : StreamKey) : CM RealtimeStreamFacts := co_sm (supervisor_facts clock grace_ms k).

(** [_enqueue] *)
Definition co_enqueue (signal : RecoveryRequired) : CM () :=
  co_modify (λ c, set_worker c (enqueue signal (co_worker c))).
Definition co_notify (x : CommittedBarNotification) : CM () :=
  co_modify (λ c, set_notifier c (notifier_enqueue x <$> co_notifier c)).

(** The body of the loop of [_sync_lifecycle]. *)
Definition sync_one (f : RealtimeStreamFacts) : CM () :=
  gate ← co_get co_gate;
  status ← co_get co_status;
  status ← co_m (synchronize_stream_lifecycle f (allows gate (f_stream f)) status);
  co_modify (λ c, set_status c status).

Definition sync_lifecycle (k : option StreamKey) : CM () :=
  selected ← match k with
             | None => co_sm (all_facts clock grace_ms)
             | Some k => f ← facts_of k; mret [f]
             end;
  co_each sync_one selected.

(** ** The handlers *)

(** A recovery no symptom asked for. *)
Definition enqueue_startup (k : StreamKey) : CM () :=
  now ← co_m now_ms;
  co_enqueue (mkRecoveryRequired k STARTUP_RECONCILIATION now None).

Definition coordinator_admit (k : StreamKey) : CM () :=
  durable ← co_m (snapshot k);
  match latest_committed_open_time_ms durable with
  | None =>
      _ ← co_status_method (set_blocking_reason k "realtime_admission_missing_anchor");
      f ← facts_of k;
      co_status_method (update_stream durable (Some f))
  | Some latest =>
      _ ← co_sm (synchronize_successful_open_time k latest);
      _ ← co_modify (λ c, set_gate c (admit_stream k (co_gate c)));
      _ ← co_modify (λ c, set_status c (clear_blocking_reason k (co_status c)));
      f ← facts_of k;
      _ ← (if f_subscription_active f && negb (f_recovery_pending f) then enqueue_startup k else mret ());
      sync_lifecycle None
  end.

(** The loop over the configured streams after a confirmation. *)
Definition confirm_stream (k : StreamKey) : CM () :=
  gate ← co_get co_gate;
  if negb (allows gate k) then mret ()
  else
    f ← facts_of k;
    if f_subscription_active f && negb (f_recovery_restored f) then enqueue_startup k else mret ().

(** Transport activity changes no readiness. *)
Definition activity_only (event : RealtimeEvent) : bool :=
  match event with
  | Connected _ | HeartbeatObserved _ => true
  | CandleObserved _ candle => negb (oc_confirmed candle)
  | _ => false
  end.

Definition on_event (event : RealtimeEvent) : CM () :=
  gate ← co_get co_gate;
  if match event with CandleObserved k _ => negb (allows gate k) | _ => false end then mret ()
  else
    signals ← co_sm (observe_event topic_to_stream clock event);
    let signals := filter (λ s, allows gate (rc_stream s) = true) signals in
    _ ← match event with
        | SubscriptionConfirmed _ _ => co_each confirm_stream streams
        | _ => mret ()
        end;
    _ ← co_each co_enqueue signals;
    if activity_only event then mret () else sync_lifecycle None.

Definition on_outcome (o : RealtimeIngestionOutcome) : CM () :=
  gate ← co_get co_gate;
  if negb (allows gate (ou_stream o)) then mret ()
  else
    let committed := bool_decide (ou_classification o = RT_COMMITTED) in
    _ ← (if committed then co_notify (bar_notification (ou_stream o) (ou_open_time_ms o)) else mret ());
    signals ← co_sm (observe_outcome clock o);
    _ ← co_each co_enqueue signals;
    _ ← (if committed then co_modify (λ c, set_worker c (mark_live_commit (ou_stream o) (co_worker c)))
         else mret ());
    sync_lifecycle None.

(** [_notify_restored] *)
Definition notify_restored (k : StreamKey) (open_time_ms : Z) : CM () := co_notify (bar_notification k open_time_ms).

Definition request_recovery (signal : RecoveryRequired) : CM () :=
  gate ← co_get co_gate;
  if allows gate (rc_stream signal) then co_enqueue signal else mret ().

Definition on_open_interest_changed (k : StreamKey) : CM () := sync_lifecycle (Some k).

(** An iteration of [_stale_worker]. *)
Definition stale_tick : CM () :=
  signals ← co_sm (detect_stale clock grace_ms None);
  _ ← co_each request_recovery signals;
  sync_lifecycle None.

(** [_refresh_status] *)
Definition refresh_status : CM () :=
  all ← co_sm (all_facts clock grace_ms);
  co_each (λ f, s ← co_m (snapshot (f_stream f)); co_status_method (update_stream s (Some f))) all.

(** ** open_interest_publication.py *)

(** [self._streams.get((instrument, timeframe))]: the last stream of the key. *)
Definition publication_stream (x : CommittedBarNotification) : option StreamKey :=
  last (filter (λ k, bool_decide (instrument_canonical_id (instrument k) = nt_instrument x)
                     && bool_decide (timeframe k = nt_timeframe x) = true) oi_streams).

(** The facts the step compares. *)
Definition oi_projection (f : RealtimeStreamFacts) : option Z * RealtimeStreamStatus * bool * bool :=
  (f_last_open_interest_open_time_ms f, f_status f, f_recovery_pending f, f_recovery_restored f).

(** [prepare] once the append of the bar returned [stored], or failed ([false]). *)
Definition prepare (x : CommittedBarNotification) (stored : bool) : CM bool :=
  match publication_stream x with
  | None => mret true
  | Some k =>
      let t := nt_open_time_ms x in
      _ ← (if stored then
             before ← facts_of k;
             signals ← co_sm (observe_open_interest clock k t);
             _ ← co_each request_recovery signals;
             after ← facts_of k;
             if bool_decide (oi_projection before ≠ oi_projection after)
             then on_open_interest_changed k else mret ()
           else mret ());
      f ← facts_of k;
      mret (published_through f t)
  end.

(** [run] of the notification worker: it takes the first notification, prepares it when the append
    for it has ended, and sends it or goes on. *)
Definition take_notification : CM () := co_modify (λ c,
  match co_notifier c with
  | Some (mkNotifier capacity (x :: queue) NotifierIdle) =>
      set_notifier c (Some (mkNotifier capacity queue (Preparing x)))
  | _ => c
  end).

Definition set_task (task : NotifierTask) : CM () := co_modify (λ c,
  set_notifier c ((λ n, mkNotifier (no_capacity n) (no_queue n) task) <$> co_notifier c)).

Definition publish (stored : bool) : CM () :=
  n ← co_get co_notifier;
  match no_task <$> n with
  | Some (Preparing x) =>
      sent ← prepare x stored;
      set_task (if (sent : bool) then Sending x else NotifierIdle)
  | _ => mret ()
  end.

Definition sent_notification : CM () :=
  n ← co_get co_notifier;
  match no_task <$> n with
  | Some (Sending _) => set_task NotifierIdle
  | _ => mret ()
  end.

(** ** The recovery worker *)

Definition run_effect (effect : Effect) : CM () :=
  match effect with
  | RecordResult k restored fatal through => co_sm (record_recovery_result clock k restored fatal through)
  | SetBlockingReason k reason => co_status_method (set_blocking_reason k reason)
  | ClearBlockingReason k => co_modify (λ c, set_status c (clear_blocking_reason k (co_status c)))
  | SyncLifecycle => sync_lifecycle None
  | OnRestored k t => notify_restored k t
  end.

(** A step of the worker with its effects; an error in them ends the worker. *)
Definition worker_turn (l : Label) : CM () := λ c,
  match worker_step cfg (co_worker c) l with
  | None => (Ok (), c)
  | Some (w, effects) =>
      match co_each run_effect effects (set_worker c w) with
      | (Ok _, c') => (Ok (), c')
      | (Raise e, c') => (Raise e, set_worker c' (worker_end (Some e) (co_worker c')))
      end
  end.

(** ** The interleaving *)

Inductive CoStep :=
| CoAdmit (k : StreamKey)
| CoSyncOpenInterest (k : StreamKey) (open_time_ms : Z)      (* the hand-off of a flagged stream *)
| CoEvent (event : RealtimeEvent)
| CoOutcome (o : RealtimeIngestionOutcome)
| CoStale
| CoTake
| CoPublish (stored : bool)
| CoSent
| CoWorker (l : Label).

Definition co_step (s : CoStep) : CM () :=
  match s with
  | CoAdmit k => coordinator_admit k
  | CoSyncOpenInterest k t => co_sm (synchronize_open_interest_open_time k t)
  | CoEvent event => on_event event
  | CoOutcome o => on_outcome o
  | CoStale => stale_tick
  | CoTake => take_notification
  | CoPublish stored => publish stored
  | CoSent => sent_notification
  | CoWorker l => worker_turn l
  end.
End coordinator.

(** ** Facts: recoveries that were asked for *)

(** The pending recoveries after a computation are those before it and of the streams [ks]. *)
Definition asked (ks : list StreamKey) (f f' : RealtimeStreamFacts) : Prop :=
  f_stream f' = f_stream f ∧
  (f_recovery_pending f' = true → f_recovery_pending f = true ∨ f_stream f ∈ ks).

#[export] Instance asked_refl ks : Reflexive (asked ks).
Proof. intros f. split; [done|]. by left. Qed.

Lemma asked_trans ks ks' f f' f'' : asked ks f f' → asked ks' f' f'' → asked (ks ++ ks') f f''.
Proof.
  intros [H1 H2] [H3 H4]. split; [congruence|]. rewrite elem_of_app. intros H.
  destruct (H4 H) as [H5|H5]; [destruct (H2 H5); tauto|right; right; congruence].
Qed.

Lemma asked_all_trans ks ks' (d d' d'' : FactsDict) :
  Forall2 (asked ks) d d' → Forall2 (asked ks') d' d'' → Forall2 (asked (ks ++ ks')) d d''.
Proof.
  intros H. revert d''. induction H; intros d'' H'; inversion H'; subst; constructor; eauto using asked_trans.
Qed.

(** A method of the supervisor asks for no recovery it does not signal. *)
Definition signals_asked (m : SM (list RecoveryRequired)) : Prop :=
  ∀ s sigs s', m s = (Ok sigs, s') → Forall2 (asked (rc_stream <$> sigs)) (sv_facts s) (sv_facts s').

Definition asks_none {A} (m : SM A) : Prop := moves (asked []) m.

Lemma asked_none_preorder : PreOrder (asked []).
Proof. split; [exact _|]. intros f f' f'' H H'. exact (asked_trans [] [] f f' f'' H H'). Qed.
#[export] Existing Instance asked_none_preorder.

Lemma none_same {A} (m : SM A) : (∀ s, after m s = sv_facts s) → asks_none m.
Proof. intros H. apply moves_same; [exact _|exact H]. Qed.

Lemma none_bind {A B} (m : SM A) (h : A → SM B) : asks_none m → (∀ a, asks_none (h a)) → asks_none (x ← m; h x).
Proof. intros Hm Hh. by apply moves_bind; [exact _|..]. Qed.

Lemma asked_bind {A} (m : SM A) (h : A → SM (list RecoveryRequired)) :
  asks_none m → (∀ a, signals_asked (h a)) → signals_asked (x ← m; h x).
Proof.
  intros Hm Hh s sigs s' H. unfold mbind, SM_bind in H. specialize (Hm s). unfold after in Hm.
  destruct (m s) as [[a|e] s1]; [|done]. exact (asked_all_trans [] _ _ _ _ Hm (Hh a s1 sigs s' H)).
Qed.

Lemma asked_ret : signals_asked (mret []).
Proof. intros s sigs s' [= <- <-]. by apply Forall_Forall2_diag, Forall_true. Qed.

Lemma asked_collect {A} (f : A → SM (list RecoveryRequired)) l :
  (∀ x, signals_asked (f x)) → signals_asked (sm_collect f l).
Proof.
  intros Hf. induction l as [|x l IH]; [exact asked_ret|]. intros s sigs s' H. cbn [sm_collect] in H.
  unfold mbind, SM_bind in H. destruct (f x s) as [[here|e] s1] eqn:E1; [|done].
  destruct (sm_collect f l s1) as [[rest|e] s2] eqn:E2; [|done]. injection H as <- <-.
  rewrite fmap_app. eapply asked_all_trans; [by apply Hf in E1|by apply IH in E2].
Qed.

(** A change of one stream that signals it. *)
Lemma asked_signal clock k change reason suspected :
  (∀ f, f_stream (change f) = f_stream f) →
  signals_asked (_ ← sm_update k change; signal clock k reason suspected).
Proof.
  intros Hc s sigs s' H. unfold mbind at 1, SM_bind, sm_update, update_facts in H.
  destruct (get_facts (sv_facts s) k) as [f0|e]; [|done]. cbn in H.
  unfold signal, mbind, SM_bind, sm_facts in H. cbn in H.
  destruct (get_facts _ k) as [f|e]; [|done]. cbn in H. injection H as <- <-. cbn.
  apply Forall2_map_self. intros f'. case_bool_decide as Hk; [|done]. split; [by apply Hc|].
  intros _. right. rewrite Hk. apply list_elem_of_here.
Qed.

(** A change that leaves the stream and the pending flag alone. *)
Ltac calm := let f := fresh "f" in let H := fresh "H" in
  intros f; repeat match goal with |- context [if ?b then _ else _] => destruct b end;
  (split; [done|intros H; left; exact H]).

Ltac asked_tac :=
  repeat match goal with
  | |- signals_asked (_ ← sm_update _ _; signal _ _ _ _) => apply asked_signal; intros ?; done
  | |- signals_asked (mbind _ _) => apply asked_bind; [|intros ?]
  | |- signals_asked (sm_collect _ _) => apply asked_collect; intros ?
  | |- signals_asked (match ?x with _ => _ end) => destruct x
  | |- signals_asked (gap_signal _ _ _ _) => unfold gap_signal
  | |- signals_asked _ => solve [apply asked_ret]
  | |- asks_none (sm_update _ _) => apply moves_update; [exact _|intros f _; revert f; solve [calm]]
  | |- asks_none (sm_update_all _) => apply moves_update_all; solve [calm]
  | |- asks_none (match ?x with _ => _ end) => destruct x
  | |- asks_none _ => solve [apply moves_same; [exact _|done]]
  end.

Lemma observe_event_asked topics clock event : signals_asked (observe_event topics clock event).
Proof.
  destruct event; cbn [observe_event];
    unfold subscriptions_confirmed, confirm_topic, observe_candle, touch_subscribed; asked_tac.
Qed.

Lemma observe_outcome_asked clock o : signals_asked (observe_outcome clock o).
Proof. unfold observe_outcome. asked_tac. Qed.

Lemma observe_open_interest_asked clock k t : signals_asked (observe_open_interest clock k t).
Proof. unfold observe_open_interest. asked_tac. Qed.

Lemma detect_stale_asked clock grace now : signals_asked (detect_stale clock grace now).
Proof. unfold detect_stale, stale_signal. asked_tac. Qed.

(** ** Facts: what the handlers keep *)

(** Partial correctness of a computation that returns. *)
Definition triple {A} (P : Coordinator → Prop) (m : CM A) (Q : A → Coordinator → Prop) : Prop :=
  ∀ c a c', P c → m c = (Ok a, c') → Q a c'.

Lemma triple_bind {A B} P (m : CM A) Q (h : A → CM B) R :
  triple P m Q → (∀ a, triple (Q a) (h a) R) → triple P (x ← m; h x) R.
Proof.
  intros Hm Hh c b c' HP H. unfold mbind, CM_bind in H. destruct (m c) as [[a|e] c1] eqn:E; [|done].
  by eapply Hh, H; eapply Hm.
Qed.

Lemma triple_ret {A} (a : A) Q : triple (Q a) (mret a) Q.
Proof. intros c b c' H [= <- <-]. exact H. Qed.

Lemma triple_pre {A} P P' (m : CM A) Q : (∀ c, P c → P' c) → triple P' m Q → triple P m Q.
Proof. intros HP Hm c a c' H. by apply Hm, HP. Qed.

Lemma triple_get {A B} (g : Coordinator → A) P (h : A → CM B) Q :
  (∀ a, triple (λ c, P c ∧ g c = a) (h a) Q) → triple P (x ← co_get g; h x) Q.
Proof. intros H c b c' HP Hrun. by eapply (H (g c)). Qed.

(** Every admitted stream of [g] that waits for a recovery has an intent, but those of [ks]. *)
Definition waiting (g : AdmissionGate) (ks : list StreamKey) (c : Coordinator) : Prop :=
  ∀ k f, find_facts (sv_facts (co_supervisor c)) k = Some f → allows g k = true →
    f_recovery_pending f = true → is_Some (ws_intents (co_worker c) !! k) ∨ k ∈ ks.

(** With the gate as it stands and a sound worker. *)
Definition kept (h g : AdmissionGate) (ks : list StreamKey) (c : Coordinator) : Prop :=
  co_gate c = h ∧ worker_inv (co_worker c) ∧ waiting g ks c.

(** Reading the gate. *)
Lemma triple_gate {A} g ks (h : AdmissionGate → CM A) Q :
  triple (kept g g ks) (h g) Q → triple (kept g g ks) (gate ← co_get co_gate; h gate) Q.
Proof. intros H c b c' Hc Hrun. pose proof (proj1 Hc) as Hg. apply (H c b c' Hc). by rewrite <- Hg. Qed.

(** A computation that neither opens the gate nor forgets a recovery. *)
Definition inert {A} (m : CM A) : Prop := ∀ h g ks, triple (kept h g ks) m (λ _, kept h g ks).

Lemma inert_ret {A} (a : A) : inert (mret a).
Proof. intros h g ks. apply (triple_ret a (λ _, kept h g ks)). Qed.
Lemma inert_bind {A B} (m : CM A) (f : A → CM B) : inert m → (∀ a, inert (f a)) → inert (x ← m; f x).
Proof. intros Hm Hf h g ks. eapply triple_bind; [apply Hm|]. intros a. apply Hf. Qed.
Lemma inert_get {A} (f : Coordinator → A) : inert (co_get f).
Proof. intros h g ks c a c' H [= _ <-]. exact H. Qed.
Lemma inert_each {A} (f : A → CM ()) l : (∀ x, inert (f x)) → inert (co_each f l).
Proof. intros Hf. induction l; cbn [co_each]; [apply inert_ret|by apply inert_bind]. Qed.
Lemma inert_m `{E : Env} {A} (p : M A) : inert (co_m p).
Proof. intros h g ks c a c' H [= _ <-]. exact H. Qed.
Lemma inert_status_method m : inert (co_status_method m).
Proof. intros h g ks c a c' H [= _ <-]. exact H. Qed.
Lemma inert_status (f : RuntimeStatus → RuntimeStatus) : inert (co_modify (λ c, set_status c (f (co_status c)))).
Proof. intros h g ks c a c' H [= _ <-]. exact H. Qed.
Lemma inert_set_status s : inert (co_modify (λ c, set_status c s)).
Proof. exact (inert_status (λ _, s)). Qed.
Lemma inert_notify x : inert (co_notify x).
Proof. intros h g ks c a c' H [= _ <-]. exact H. Qed.
Lemma inert_set_task task : inert (set_task task).
Proof. intros h g ks c a c' H [= _ <-]. exact H. Qed.
Lemma inert_take : inert take_notification.
Proof. intros h g ks c a c' H [= _ <-]. by destruct (co_notifier c) as [[? [|] []]|]. Qed.

(** The streams after a method of the supervisor. *)
Lemma waiting_asked h g ks ks' c s' :
  kept h g ks c → Forall2 (asked ks') (sv_facts (co_supervisor c)) (sv_facts s') →
  kept h g (ks ++ ks') (set_supervisor c s').
Proof.
  intros (H1 & H2 & H3) HF. split; [done|]. split; [done|]. intros k f' Hf' Hg Hp. cbn in Hf'.
  pose proof (Forall2_find_facts (asked ks') _ _ k (λ _ _ H, proj1 H) HF) as H. rewrite Hf' in H.
  destruct (find_facts (sv_facts (co_supervisor c)) k) as [f|] eqn:Hf; [|done]. destruct H as [_ H].
  rewrite elem_of_app. pose proof (find_facts_stream _ _ _ Hf) as Hk.
  destruct (H Hp) as [Hp'|Hin]; [destruct (H3 k f Hf Hg Hp'); tauto|right; right; congruence].
Qed.

Lemma inert_sm {A} (m : SM A) : asks_none m → inert (co_sm m).
Proof.
  intros Hm h g ks c a c' H [= _ <-]. specialize (Hm (co_supervisor c)). unfold after in Hm.
  pose proof (waiting_asked h g ks [] c _ H Hm) as H'. by rewrite app_nil_r in H'.
Qed.

Lemma kept_mono h g ks ks' c : (∀ k, k ∈ ks → k ∈ ks') → kept h g ks c → kept h g ks' c.
Proof.
  intros Hks (H1 & H2 & H3). split; [done|]. split; [done|]. intros k f Hf Hg Hp. destruct (H3 k f Hf Hg Hp); auto.
Qed.

Lemma signals_kept m h g ks :
  signals_asked m → triple (kept h g ks) (co_sm m) (λ sigs, kept h g ((rc_stream <$> sigs) ++ ks)).
Proof.
  intros Hm c sigs c' H [= Hr <-]. apply (kept_mono h g (ks ++ (rc_stream <$> sigs))); [intros k; rewrite !elem_of_app; tauto|].
  apply (waiting_asked h g ks _ c _ H), (Hm (co_supervisor c) sigs). by rewrite <- Hr, <- surjective_pairing.
Qed.

(** A signal that is enqueued is no longer owed. *)
Lemma enqueue_intents sig w k :
  is_Some (ws_intents (enqueue sig w) !! k) ↔ is_Some (ws_intents w !! k) ∨ k = rc_stream sig.
Proof.
  unfold enqueue. destruct (ws_intents w !! rc_stream sig) as [id|] eqn:Hk.
  - replace (ws_intents _) with (ws_intents w) by (by case_match). split; [by left|].
    intros [?| ->]; [done|by eexists].
  - cbn. rewrite lookup_insert_is_Some. destruct (decide (rc_stream sig = k)) as [->|]; split; intuition congruence.
Qed.

Lemma enqueue_kept sig h g ks :
  triple (kept h g (rc_stream sig :: ks)) (co_enqueue sig) (λ _, kept h g ks).
Proof.
  intros c a c' (H1 & H2 & H3) [= _ <-]. split; [done|]. split; [by apply enqueue_inv|].
  intros k f Hf Hg Hp. cbn. rewrite enqueue_intents.
  destruct (H3 k f Hf Hg Hp) as [?|Hin]; [tauto|]. apply elem_of_cons in Hin as [->|]; tauto.
Qed.

Lemma inert_enqueue sig : inert (co_enqueue sig).
Proof.
  intros h g ks. eapply triple_pre, enqueue_kept. intros c. apply kept_mono. intros k. by right.
Qed.

Lemma each_enqueue_kept sigs h g ks :
  triple (kept h g ((rc_stream <$> sigs) ++ ks)) (co_each co_enqueue sigs) (λ _, kept h g ks).
Proof.
  induction sigs as [|sig sigs IH]; cbn [co_each]; [exact (triple_ret () (λ _, kept h g ks))|].
  eapply triple_bind; [apply enqueue_kept|]. by intros [].
Qed.

(** A stream the gate does not admit is owed nothing. *)
Lemma kept_drop h g k ks c : kept h g (k :: ks) c → allows g k = false → kept h g ks c.
Proof.
  intros (H1 & H2 & H3) Hk. split; [done|]. split; [done|]. intros k' f Hf Hg Hp.
  destruct (H3 k' f Hf Hg Hp) as [?|[->|?]%elem_of_cons]; [tauto|congruence|tauto].
Qed.

Lemma request_kept sig g ks : triple (kept g g (rc_stream sig :: ks)) (request_recovery sig) (λ _, kept g g ks).
Proof.
  apply triple_gate. destruct (allows g (rc_stream sig)) eqn:Ha; [apply enqueue_kept|].
  eapply triple_pre; [|exact (triple_ret () (λ _, kept g g ks))]. intros c H. by apply (kept_drop g g (rc_stream sig)).
Qed.

Lemma each_request_kept sigs g ks :
  triple (kept g g ((rc_stream <$> sigs) ++ ks)) (co_each request_recovery sigs) (λ _, kept g g ks).
Proof.
  induction sigs as [|sig sigs IH]; cbn [co_each]; [exact (triple_ret () (λ _, kept g g ks))|].
  eapply triple_bind; [apply request_kept|]. by intros [].
Qed.

Section handlers.
Context `{E : Env} (cfg : WorkerConfig) (streams : list StreamKey) (topic_to_stream : gmap string StreamKey)
  (clock : nat → Z) (grace_ms : Z) (oi_streams : list StreamKey).

Lemma as_of_now_none f : asks_none (as_of_now clock grace_ms f).
Proof. unfold as_of_now. do 2 (apply none_bind; [by apply none_same|intros ?]). by apply none_same. Qed.

Lemma inert_facts_of k : inert (facts_of clock grace_ms k).
Proof.
  apply inert_sm, none_bind; [by apply none_same|]. intros f. apply as_of_now_none.
Qed.

Lemma inert_all_facts : inert (co_sm (all_facts clock grace_ms)).
Proof.
  apply inert_sm, none_bind; [by apply none_same|]. intros all. apply moves_collect; [exact _..|].
  intros f. apply none_bind; [apply as_of_now_none|]. intros ?. by apply none_same.
Qed.

Lemma inert_sync_lifecycle k : inert (sync_lifecycle clock grace_ms k).
Proof.
  apply inert_bind.
  - destruct k; [apply inert_bind; [apply inert_facts_of|intros ?; apply inert_ret]|apply inert_all_facts].
  - intros l. apply inert_each. intros f. unfold sync_one.
    apply inert_bind; [apply inert_get|intros gate]. apply inert_bind; [apply inert_get|intros st].
    apply inert_bind; [apply inert_m|intros st']. apply inert_set_status.
Qed.

Lemma inert_enqueue_startup k : inert (enqueue_startup k).
Proof. apply inert_bind; [apply inert_m|intros now; apply inert_enqueue]. Qed.

Lemma inert_confirm_stream k : inert (confirm_stream clock grace_ms k).
Proof.
  apply inert_bind; [apply inert_get|intros gate]. destruct (negb _); [apply inert_ret|].
  apply inert_bind; [apply inert_facts_of|intros f]. destruct (_ && _); [apply inert_enqueue_startup|apply inert_ret].
Qed.

(** What every handler keeps: no admitted stream but those of [ks] waits for a recovery nobody runs. *)
Definition tended (ks : list StreamKey) (c : Coordinator) : Prop := worker_inv (co_worker c) ∧ waiting (co_gate c) ks c.

Context (ks : list StreamKey).

Lemma tended_kept c : tended ks c ↔ kept (co_gate c) (co_gate c) ks c.
Proof. unfold tended, kept. tauto. Qed.

Lemma inert_keeps {A} (m : CM A) c a c' : inert m → m c = (Ok a, c') → tended ks c → tended ks c'.
Proof.
  intros Hm Hrun Hc%tended_kept. destruct (Hm _ _ _ c a c' Hc Hrun) as (H1 & H2 & H3).
  split; [done|]. by rewrite H1.
Qed.

(** From the gate as it stands. *)
Lemma triple_keeps {A} (m : CM A) c a c' :
  (∀ g, triple (kept g g ks) m (λ _, kept g g ks)) → m c = (Ok a, c') → tended ks c → tended ks c'.
Proof.
  intros Hm Hrun Hc%tended_kept. destruct (Hm _ c a c' Hc Hrun) as (H1 & H2 & H3). split; [done|]. by rewrite H1.
Qed.

Lemma kept_filter g sigs c :
  kept g g ((rc_stream <$> sigs) ++ ks) c →
  kept g g ((rc_stream <$> filter (λ s, allows g (rc_stream s) = true) sigs) ++ ks) c.
Proof.
  intros (H1 & H2 & H3). split; [done|]. split; [done|]. intros k f Hf Hg Hp. rewrite elem_of_app.
  destruct (H3 k f Hf Hg Hp) as [?|[(sig & -> & Hin)%list_elem_of_fmap|?]%elem_of_app]; [by left|right; left|tauto].
  apply list_elem_of_fmap. exists sig. split; [done|]. by apply list_elem_of_filter.
Qed.

Lemma on_event_keeps event c c' :
  on_event streams topic_to_stream clock grace_ms event c = (Ok (), c') → tended ks c → tended ks c'.
Proof.
  apply triple_keeps. intros g. apply triple_gate.
  destruct (match event with CandleObserved _ _ => _ | _ => _ end); [exact (triple_ret () (λ _, kept g g ks))|].
  eapply triple_bind; [apply signals_kept, observe_event_asked|]. intros sigs.
  eapply triple_bind.
  { assert (Hi : inert (match event with
      | SubscriptionConfirmed _ _ => co_each (confirm_stream clock grace_ms) streams | _ => mret () end)).
    { destruct event; try apply inert_ret. apply inert_each, inert_confirm_stream. }
    apply Hi. }
  intros ?. eapply triple_bind; [eapply triple_pre; [apply kept_filter|apply each_enqueue_kept]|].
  intros ?. cbv beta. destruct (activity_only event); [exact (triple_ret () (λ _, kept g g ks))|].
  apply inert_sync_lifecycle.
Qed.

Lemma on_outcome_keeps o c c' : on_outcome clock grace_ms o c = (Ok (), c') → tended ks c → tended ks c'.
Proof.
  apply triple_keeps. intros g. apply triple_gate.
  destruct (negb (allows g (ou_stream o))); [exact (triple_ret () (λ _, kept g g ks))|]. cbv zeta.
  eapply triple_bind; [|intros ?].
  { instantiate (1 := λ _, kept g g ks). case_bool_decide; [apply inert_notify|exact (triple_ret () (λ _, kept g g ks))]. }
  eapply triple_bind; [apply signals_kept, observe_outcome_asked|]. intros sigs.
  eapply triple_bind; [apply each_enqueue_kept|]. intros ?.
  eapply triple_bind; [|intros ?; apply inert_sync_lifecycle].
  case_bool_decide; [|exact (triple_ret () (λ _, kept g g ks))].
  intros c0 u0 c1 (H1 & H2 & H3) [= _ <-]. split; [done|]. split; [by apply mark_live_commit_inv|].
  intros k f Hf Hg Hp. destruct (H3 k f Hf Hg Hp) as [Hi|?]; [left|by right]. cbn. unfold mark_live_commit.
  by repeat case_match.
Qed.

Lemma stale_tick_keeps c c' : stale_tick clock grace_ms c = (Ok (), c') → tended ks c → tended ks c'.
Proof.
  apply triple_keeps. intros g. eapply triple_bind; [apply signals_kept, detect_stale_asked|]. intros sigs.
  eapply triple_bind; [apply each_request_kept|]. intros ?. apply inert_sync_lifecycle.
Qed.

Lemma prepare_kept g x stored :
  triple (kept g g ks) (prepare clock grace_ms oi_streams x stored) (λ _, kept g g ks).
Proof.
  unfold prepare. destruct (publication_stream oi_streams x) as [k|]; [|exact (triple_ret true (λ _, kept g g ks))].
  cbv zeta. eapply triple_bind.
  - instantiate (1 := λ _, kept g g ks). destruct stored; [|exact (triple_ret () (λ _, kept g g ks))].
    eapply triple_bind; [apply inert_facts_of|]. intros before.
    eapply triple_bind; [apply signals_kept, observe_open_interest_asked|]. intros sigs.
    eapply triple_bind; [apply each_request_kept|]. intros ?.
    eapply triple_bind; [apply inert_facts_of|]. intros after.
    case_bool_decide; [apply inert_sync_lifecycle|exact (triple_ret () (λ _, kept g g ks))].
  - intros ?. eapply triple_bind; [apply inert_facts_of|]. intros f. exact (triple_ret _ (λ _, kept g g ks)).
Qed.

Lemma publish_keeps stored c c' : publish clock grace_ms oi_streams stored c = (Ok (), c') → tended ks c → tended ks c'.
Proof.
  apply triple_keeps. intros g. apply triple_get. intros n. apply (triple_pre _ (kept g g ks)); [by intros ? [? _]|].
  destruct (no_task <$> n) as [[]|]; try exact (triple_ret () (λ _, kept g g ks)).
  eapply triple_bind; [apply prepare_kept|]. intros sent. apply inert_set_task.
Qed.

(** A stream waits for a recovery that nobody runs. *)
Definition unattended (k : StreamKey) (c : Coordinator) : bool :=
  match find_facts (sv_facts (co_supervisor c)) k with
  | Some f => f_recovery_pending f && bool_decide (ws_intents (co_worker c) !! k = None)
  | None => false
  end.

Lemma unattended_spec k c f :
  find_facts (sv_facts (co_supervisor c)) k = Some f → f_recovery_pending f = true →
  unattended k c = false ↔ is_Some (ws_intents (co_worker c) !! k).
Proof.
  intros Hf Hp. unfold unattended. rewrite Hf, Hp. cbn [andb]. rewrite bool_decide_eq_false. apply not_eq_None_Some.
Qed.

Lemma allows_admit g k k' : allows (admit_stream k g) k' = true ↔ allows g k' = true ∨ k' = k.
Proof.
  unfold allows, admit_stream. rewrite !bool_decide_eq_true. case_bool_decide.
  - split; [by left|]. by intros [?| ->].
  - rewrite elem_of_app, list_elem_of_singleton. done.
Qed.

Lemma inert_synchronize_oi k t : inert (co_sm (synchronize_open_interest_open_time k t)).
Proof. apply inert_sm, moves_update; [exact _|]. intros f _. split; [done|]. by left. Qed.

(** What precedes the admission is inert, and so is what follows. *)
Lemma inert_synchronize k t : inert (co_sm (synchronize_successful_open_time k t)).
Proof.
  apply inert_sm, moves_update; [exact _|]. intros f _. split; [done|]. by left.
Qed.

Lemma admit_keeps k c c' :
  coordinator_admit clock grace_ms k c = (Ok (), c') → (unattended k c = false ∨ k ∈ ks) → tended ks c → tended ks c'.
Proof.
  intros Hrun Hat [Hw Hc]. set (g := co_gate c) in *.
  assert (Hpre : kept g (admit_stream k g) ks c).
  { split; [done|]. split; [done|]. intros k' f Hf [Hg| ->]%allows_admit Hp; [by eapply Hc|].
    destruct Hat as [Hat|Hat]; [left; by apply (unattended_spec k c f)|by right]. }
  assert (Ht : triple (kept g (admit_stream k g) ks) (coordinator_admit clock grace_ms k)
    (λ _ c, kept g (admit_stream k g) ks c ∨ kept (admit_stream k g) (admit_stream k g) ks c)).
  { unfold coordinator_admit. eapply triple_bind; [apply inert_m|]. intros durable.
    destruct (latest_committed_open_time_ms durable) as [latest|].
    - eapply triple_bind; [apply inert_synchronize|]. intros ?.
      eapply triple_bind with (Q := λ _, kept (admit_stream k g) (admit_stream k g) ks).
      { intros c0 u0 c1 (H1 & H2 & H3) [= _ <-]. split; [by cbn; rewrite H1|]. by split. }
      intros ?. eapply triple_bind; [apply inert_status|]. intros ?.
      eapply triple_bind; [apply inert_facts_of|]. intros f. eapply triple_bind.
      { instantiate (1 := λ _, kept (admit_stream k g) (admit_stream k g) ks).
        destruct (_ && _); [apply inert_enqueue_startup|].
        exact (triple_ret () (λ _, kept (admit_stream k g) (admit_stream k g) ks)). }
      intros ? c0 u0 c1 H0 H1. right. by eapply inert_sync_lifecycle.
    - eapply triple_bind; [apply inert_status_method|]. intros ?.
      eapply triple_bind; [apply inert_facts_of|]. intros f c0 u0 c1 H0 H1. left. by eapply inert_status_method. }
  destruct (Ht c () c' Hpre Hrun) as [(H1 & H2 & H3)|(H1 & H2 & H3)]; (split; [done|]); rewrite H1; [|done].
  intros k' f Hf Hg. apply H3; [done|]. apply allows_admit. by left.
Qed.

(** *** A step of the worker *)

(** The steps of the worker's own task, while the service is not stopping. *)
Definition worker_label (l : Label) : Prop :=
  match l with Signal _ | LiveCommit _ | Finish _ true _ => False | _ => True end.

Lemma record_result_run k restored fatal through s u s' :
  record_recovery_result clock k restored fatal through s = (Ok u, s') →
  sv_facts s' = map (λ f, if bool_decide (f_stream f = k)
                          then record_recovery_facts restored fatal (clock (sv_ticks s)) through f else f) (sv_facts s).
Proof.
  unfold record_recovery_result, mbind, SM_bind, sm_now, sm_update, update_facts. cbn [sv_facts sv_ticks].
  destruct (get_facts (sv_facts s) k) as [f0|e]; [|done]. by intros [= _ <-].
Qed.

(** A restored or fatal result leaves nothing pending; another one leaves its stream pending. *)
Lemma record_result_kept h g k restored fatal through :
  triple (kept h g (if restored || fatal then k :: ks else ks))
    (co_sm (record_recovery_result clock k restored fatal through))
    (λ _ c, kept h g (if restored || fatal then ks else k :: ks) c).
Proof.
  intros c a c' (H1 & H2 & H3) [= Hr <-]. split; [done|]. split; [done|]. intros k' f' Hf' Hg Hp. cbn in Hf'.
  rewrite (record_result_run k restored fatal through (co_supervisor c) a) in Hf'
    by (by rewrite <- Hr, <- surjective_pairing).
  rewrite find_facts_map in Hf' by (intros x; case_bool_decide; [by destruct fatal|done]).
  destruct (find_facts (sv_facts (co_supervisor c)) k') as [f|] eqn:Hf; [|done]. cbn in Hf'. injection Hf' as <-.
  pose proof (find_facts_stream _ _ _ Hf) as Hk. case_bool_decide as Hkk.
  - destruct restored, fatal; try done. right. rewrite <- Hk, Hkk. apply list_elem_of_here.
  - destruct (H3 k' f Hf Hg Hp) as [?|Hin]; [by left|]. right. destruct (restored || fatal); [|by right].
    apply elem_of_cons in Hin as [->|]; [congruence|done].
Qed.

(** What is pending after it does not matter where the intent stays. *)
Lemma kept_has_intent h g k c : kept h g (k :: ks) c → is_Some (ws_intents (co_worker c) !! k) → kept h g ks c.
Proof.
  intros (H1 & H2 & H3) Hk. split; [done|]. split; [done|]. intros k' f Hf Hg Hp.
  destruct (H3 k' f Hf Hg Hp) as [?|[->|?]%elem_of_cons]; tauto.
Qed.

(** The effects of an attempt: the result first, then calls that keep everything. *)
Definition inert_effect (effect : Effect) : Prop := match effect with RecordResult _ _ _ _ => False | _ => True end.

Lemma run_inert_effect effect : inert_effect effect → inert (run_effect clock grace_ms effect).
Proof.
  destruct effect; intros He; try done; cbn [run_effect];
    [apply inert_status_method|apply inert_status|apply inert_sync_lifecycle|apply inert_notify].
Qed.

Lemma run_inert_effects effects : Forall inert_effect effects → inert (co_each (run_effect clock grace_ms) effects).
Proof.
  induction 1; cbn [co_each]; [apply inert_ret|]. apply inert_bind; [by apply run_inert_effect|done].
Qed.

Lemma finish_effects now started r i eff result :
  finish_attempt cfg now started r i = (eff, result) →
  ∃ restored fatal rest, eff = RecordResult (in_stream i) restored fatal (vr_restored_through_open_time_ms r) :: rest ∧
    Forall inert_effect rest ∧
    ∀ i' retry, result = Ok (i', retry) → retry = negb (restored || fatal).
Proof.
  unfold finish_attempt. cbv zeta. intros Hf.
  set (changed := negb (in_revision i =? started)) in *. set (fatal := bool_decide (vr_classification r = FATAL_FAILURE)) in *.
  exists (vr_restored r && negb changed), fatal.
  assert (Hr : fatal = true → vr_restored r = false).
  { unfold fatal, vr_restored. rewrite bool_decide_eq_true, bool_decide_eq_false. congruence. }
  destruct fatal eqn:Hfatal; [|destruct changed eqn:Hc; [|case_bool_decide as Hres]].
  - injection Hf as <- <-. exists []. split; [done|]. split; [done|]. intros i' retry [= _ <-]. by rewrite orb_true_r.
  - injection Hf as <- <-. eexists. split; [done|]. split; [by repeat constructor|].
    intros i' retry [= _ <-]. by rewrite andb_false_r.
  - injection Hf as <- <-. eexists. split; [done|]. split; [by repeat constructor|].
    intros i' retry [= _ <-]. unfold vr_restored. by rewrite bool_decide_true.
  - assert (Hn : vr_restored r = false) by (unfold vr_restored; by apply bool_decide_eq_false).
    destruct (plan_retry cfg _ r) as [[[i1 delay] reason]|e]; injection Hf as <- <-.
    + eexists. split; [done|]. split; [by repeat constructor|]. intros i' retry [= _ <-]. by rewrite Hn.
    + exists []. by repeat split.
Qed.

(** The calls of the worker do not reach the worker. *)
Definition still {A} (m : CM A) : Prop := ∀ c, co_worker (m c).2 = co_worker c.

Lemma still_bind {A B} (m : CM A) (f : A → CM B) : still m → (∀ a, still (f a)) → still (x ← m; f x).
Proof.
  intros Hm Hf c. unfold mbind, CM_bind. specialize (Hm c). destruct (m c) as [[a|e] c1]; [|done].
  by rewrite Hf.
Qed.

Lemma still_each {A} (f : A → CM ()) l : (∀ x, still (f x)) → still (co_each f l).
Proof. intros Hf. induction l; cbn [co_each]; [done|by apply still_bind]. Qed.

Lemma still_effect effect : still (run_effect clock grace_ms effect).
Proof.
  destruct effect; cbn [run_effect]; try done. apply still_bind; [done|]. intros l. apply still_each. intros f.
  do 3 (apply still_bind; [done|intros ?]). done.
Qed.

(** Every step but the end of an attempt is silent. *)
Lemma worker_step_silent w l w' effects :
  worker_step cfg w l = Some (w', effects) → match l with Finish _ _ _ => True | _ => effects = [] end.
Proof.
  destruct l; cbn; try done; try congruence; destruct (ws_pc w); try done; try congruence.
  - destruct (ws_queue w) as [|id q]; [done|]. destruct (ws_heap w !! id); [|done]. cbn.
    destruct (fgt _ _); congruence.
  - destruct (ws_heap w !! id); [|done]. cbn. destruct (RealtimeRecoveryRequest_new _ _ _); congruence.
Qed.

Lemma finish_shape w now stopped r w' effects :
  worker_step cfg w (Finish now stopped r) = Some (w', effects) → running w' →
  ∃ id started req i i' retry eff more, ws_pc w = Recovering id started req ∧ ws_heap w !! id = Some i ∧
    finish_attempt cfg now started r i = (eff, Ok (i', retry)) ∧ w' = (settle cfg id i' retry stopped w).1 ∧
    effects = eff ++ more ∧ Forall inert_effect more.
Proof.
  cbn. destruct (ws_pc w) as [| | |id started req|]; try done. destruct (ws_heap w !! id) as [i|] eqn:Hi; [|done].
  cbn. destruct (finish_attempt _ _ _ _ _) as [eff [[i' retry]|e]] eqn:Hf; intros [= <- <-]; [|done].
  intros _. exists id, started, req, i, i', retry, eff. eexists. do 5 (split; [done|]). constructor; [done|].
  destruct (negb retry && wc_on_restored cfg); [|done]. by destruct (in_notify_open_ms i'); repeat constructor.
Qed.

(** The end of an attempt. *)
Lemma finish_turn_keeps now r c w effects c' :
  tended ks c → worker_step cfg (co_worker c) (Finish now false r) = Some (w, effects) → running w →
  co_each (run_effect clock grace_ms) effects (set_worker c w) = (Ok (), c') → tended ks c'.
Proof.
  intros [Hw Hc] Hstep Hrw Heff. pose proof (worker_step_inv _ _ _ _ _ Hw Hstep Hrw) as Hw'.
  destruct (finish_shape _ _ _ _ _ _ Hstep Hrw)
    as (id & started & req & i & i' & retry & eff & more & Hpc & Hi & Hf & Hset & -> & Hmore).
  destruct (finish_effects _ _ _ _ _ _ Hf) as (re & fa & rest & -> & Hrest & Hretry).
  specialize (Hretry i' retry eq_refl). destruct (finish_attempt_same _ _ _ _ _ _ _ _ Hf) as [Hs _].
  destruct (pc_id_intent _ id Hw) as (k & i0 & Hk & Hi0 & Hki); [by rewrite Hpc; apply list_elem_of_here|].
  rewrite Hi in Hi0. injection Hi0 as <-. rewrite Hki in Heff.
  assert (Hint : ws_intents w = if re || fa then delete k (ws_intents (co_worker c)) else ws_intents (co_worker c)).
  { rewrite Hset, Hretry. unfold settle. cbv zeta. cbn. rewrite Hs, Hki. by destruct (re || fa). }
  assert (Hpre : kept (co_gate c) (co_gate c) (if re || fa then k :: ks else ks) (set_worker c w)).
  { split; [done|]. split; [done|]. intros k' f Hf' Hg Hp. cbn. rewrite Hint.
    destruct (Hc k' f Hf' Hg Hp) as [Hin|Hin]; [|right; destruct (re || fa); [by right|done]].
    destruct (re || fa); [|by left].
    destruct (decide (k' = k)) as [->|Hne]; [right; apply list_elem_of_here|left]. by rewrite lookup_delete_ne. }
  cbn [co_each app] in Heff. unfold mbind at 1, CM_bind in Heff.
  destruct (run_effect _ _ _ (set_worker c w)) as [[[]|e] c1] eqn:Hrec; [|done].
  pose proof (record_result_kept _ _ _ _ _ _ _ () c1 Hpre Hrec) as Hpost. cbv beta in Hpost.
  assert (Hkept : kept (co_gate c) (co_gate c) ks c1).
  { destruct (re || fa); [done|]. apply (kept_has_intent _ _ k); [done|].
    pose proof (still_effect (RecordResult k re fa (vr_restored_through_open_time_ms r)) (set_worker c w)) as Hst.
    rewrite Hrec in Hst. cbn in Hst. rewrite Hst, Hint, Hk. by eexists. }
  assert (Hall : inert (co_each (run_effect clock grace_ms) (rest ++ more)))
    by (by apply run_inert_effects, Forall_app).
  destruct (Hall _ _ _ c1 () c' Hkept Heff) as (H1 & H2 & H3). split; [done|]. by rewrite H1.
Qed.

Lemma worker_turn_keeps l c c' :
  worker_label l → worker_turn cfg clock grace_ms l c = (Ok (), c') → running (co_worker c') → tended ks c → tended ks c'.
Proof.
  intros Hl Hrun Hr Ht. pose proof Ht as [Hw Hc]. unfold worker_turn in Hrun.
  destruct (worker_step cfg (co_worker c) l) as [[w effects]|] eqn:Hstep; [|by injection Hrun as <-].
  destruct (co_each (run_effect clock grace_ms) effects (set_worker c w)) as [[[]|e] c1] eqn:Heff; [|done].
  injection Hrun as <-.
  assert (Hrw : running w).
  { pose proof (still_each (run_effect clock grace_ms) effects still_effect (set_worker c w)) as Hs.
    rewrite Heff in Hs. cbn in Hs. by rewrite Hs in Hr. }
  assert (Hcase : (∃ now r, l = Finish now false r) ∨ effects = [] ∧ ∀ now st r, l ≠ Finish now st r).
  { pose proof (worker_step_silent _ _ _ _ Hstep) as Hsil.
    destruct l as [| | | | |now [] r| |]; try done; try (by right); left; by eexists _, _. }
  destruct Hcase as [(now & r & ->)|[-> Hnf]]; [by eapply finish_turn_keeps|].
  injection Heff as <-. split; [by eapply worker_step_inv|]. intros k f Hf Hg Hp.
  destruct (Hc k f Hf Hg Hp) as [[id Hk]|Hk]; [|by right].
  destruct (worker_step_keeps _ _ _ _ _ k id Hw Hstep Hrw Hk) as [Hi|[(? & ? & ? & Hin & _)|(now & r & Heq)]].
  - left. by exists id.
  - by apply elem_of_nil in Hin.
  - by destruct (Hnf now true r).
Qed.
End handlers.

(** ** No stream waits for a recovery that nobody runs *)

Section service.
Context `{E : Env} (cfg : WorkerConfig) (streams : list StreamKey) (topic_to_stream : gmap string StreamKey)
  (clock : nat → Z) (grace_ms : Z) (oi_streams : list StreamKey).

(** The steps of the service while it is not stopping. *)
Definition ordinary (s : CoStep) : Prop := match s with CoWorker l => worker_label l | _ => True end.

(** A run of the service in which no step raises, with the state before each step; no recovery is
    pending when it starts. *)
Inductive service : list (Coordinator * CoStep) → Coordinator → Prop :=
| service_start c :
    co_worker c = Worker_new →
    (∀ k f, find_facts (sv_facts (co_supervisor c)) k = Some f → f_recovery_pending f = false) →
    service [] c
| service_step hist c s c' :
    service hist c → ordinary s →
    co_step cfg streams topic_to_stream clock grace_ms oi_streams s c = (Ok (), c') →
    running (co_worker c') → service (hist ++ [(c, s)]) c'.

(** The stream was admitted while it waited for a recovery nobody ran, and nobody has run it since. *)
Definition left_behind (k : StreamKey) (hist : list (Coordinator * CoStep)) : Prop :=
  ∃ before c after, hist = before ++ (c, CoAdmit k) :: after ∧
    unattended k c = true ∧ Forall (λ p, unattended k p.1 = true) after.

Lemma left_behind_still k hist c s : left_behind k hist → unattended k c = true → left_behind k (hist ++ [(c, s)]).
Proof.
  intros (before & c0 & after & -> & H0 & Ha) Hc. exists before, c0, (after ++ [(c, s)]).
  split; [by rewrite <-app_assoc|]. split; [done|]. apply Forall_app. split; [done|]. by constructor.
Qed.

Lemma left_behind_now k hist c : unattended k c = true → left_behind k (hist ++ [(c, CoAdmit k)]).
Proof. intros Hc. by exists hist, c, []. Qed.

Lemma inert_sent_notification : inert sent_notification.
Proof.
  apply inert_bind; [apply inert_get|intros n]. by destruct (no_task <$> n) as [[]|]; first [apply inert_set_task|apply inert_ret].
Qed.

(** A step leaves no stream but those of [ks] behind, unless it admits one that waits. *)
Lemma service_step_keeps ks s c c' :
  ordinary s → co_step cfg streams topic_to_stream clock grace_ms oi_streams s c = (Ok (), c') →
  running (co_worker c') → (∀ k, s = CoAdmit k → unattended k c = false ∨ k ∈ ks) → tended ks c → tended ks c'.
Proof.
  intros Hs Hrun Hr Hk. destruct s as [k|k t|event|o| | |stored| |l]; cbn [co_step] in Hrun.
  - by eapply admit_keeps, Hk.
  - revert Hrun. apply inert_keeps, inert_synchronize_oi.
  - by eapply on_event_keeps.
  - by eapply on_outcome_keeps.
  - by eapply stale_tick_keeps.
  - by eapply inert_keeps; [apply inert_take|].
  - by eapply publish_keeps.
  - by eapply inert_keeps; [apply inert_sent_notification|].
  - by eapply worker_turn_keeps.
Qed.

Lemma admits_waiting s k c : {s = CoAdmit k ∧ unattended k c = true} + {¬ (s = CoAdmit k ∧ unattended k c = true)}.
Proof.
  destruct (unattended k c); [|right; by intros []]. destruct s as [k'| | | | | | | |]; try (right; by intros []).
  destruct (decide (k' = k)) as [->|Hne]; [by left|right]. by intros [[= ?] _].
Defined.

Lemma find_facts_elem d k f : find_facts d k = Some f → f ∈ d.
Proof. intros [H _]%List.find_some. by apply list_elem_of_In. Qed.

(** For one stream: the others are let off. *)
Definition others (k : StreamKey) (c : Coordinator) : list StreamKey :=
  filter (λ k', k' ≠ k) (f_stream <$> sv_facts (co_supervisor c)).

Lemma others_cover k c k' f : find_facts (sv_facts (co_supervisor c)) k' = Some f → k' = k ∨ k' ∈ others k c.
Proof.
  intros Hf. destruct (decide (k' = k)) as [?|Hne]; [by left|right]. apply list_elem_of_filter. split; [done|].
  apply find_facts_stream in Hf as Hk. apply list_elem_of_fmap. exists f. split; [done|]. by eapply find_facts_elem.
Qed.

Lemma service_tended hist c :
  service hist c →
  worker_inv (co_worker c) ∧
  ∀ k f, find_facts (sv_facts (co_supervisor c)) k = Some f → allows (co_gate c) k = true →
    f_recovery_pending f = true → is_Some (ws_intents (co_worker c) !! k) ∨ left_behind k hist.
Proof.
  induction 1 as [c Hw Hf|hist c s c' _ [IHw IH] Hs Hrun Hr].
  { split; [rewrite Hw; apply worker_new_inv|]. intros k f Hk _ Hp. by rewrite (Hf k f Hk) in Hp. }
  assert (Hstep : ∀ ks, (∀ k, s = CoAdmit k → unattended k c = false ∨ k ∈ ks) → waiting (co_gate c) ks c → tended ks c').
  { intros ks Hk Hc. by eapply service_step_keeps. }
  split.
  { apply (Hstep (f_stream <$> sv_facts (co_supervisor c))).
    - intros k _. unfold unattended. destruct (find_facts _ k) as [f|] eqn:Hf; [right|by left].
      destruct (others_cover k c k f Hf) as [_|Hin]; [|by apply list_elem_of_filter in Hin as []].
      apply list_elem_of_fmap. exists f. split; [symmetry; by eapply find_facts_stream|by eapply find_facts_elem].
    - intros k f Hf _ _. right. apply list_elem_of_fmap. exists f.
      split; [symmetry; by eapply find_facts_stream|by eapply find_facts_elem]. }
  intros k f' Hf' Ha' Hp'.
  destruct (unattended k c && allows (co_gate c) k) eqn:Hu.
  { apply andb_true_iff in Hu as [Hu Ha]. right. apply left_behind_still; [|done]. unfold unattended in Hu.
    destruct (find_facts (sv_facts (co_supervisor c)) k) as [f|] eqn:Hf; [|done]. bool_hyps. destruct (IH k f Hf Ha) as [[id Hi]|?]; [done| |done]. congruence. }
  destruct (admits_waiting s k c) as [[-> Hn]|Hn]; [right; by apply left_behind_now|].
  destruct (Hstep (others k c)) as [_ Hc'].
  - intros k' ->. destruct (unattended k' c) eqn:Hk'; [right|by left]. unfold unattended in Hk'.
    destruct (find_facts (sv_facts (co_supervisor c)) k') as [f|] eqn:Hf; [|done]. destruct (others_cover k c k' f Hf) as [->|?]; [|done].
    destruct Hn. split; [done|]. unfold unattended. by rewrite Hf.
  - intros k' f Hf Ha Hp. destruct (others_cover k c k' f Hf) as [->|?]; [left|by right].
    apply (unattended_spec k c f); [done..|]. by rewrite Ha, andb_true_r in Hu.
  - destruct (Hc' k f' Hf' Ha' Hp') as [?|Hin]; [by left|]. by apply list_elem_of_filter in Hin as [].
Qed.
End service.

(** C7. No admitted stream waits for a recovery that nobody runs, but for one way to be left behind.  Whatever
    admissions, events, outcomes, stale checks, publications and worker steps interleave, an admitted
    stream whose facts say that a recovery is pending has exactly one intent, which is in the queue
    or being executed - or it was admitted when that recovery was already pending with no intent,
    and at no point since has it had one ([late_admission_left_behind] is such a run). *)
Theorem pending_recovery_has_intent `{E : Env} (cfg : WorkerConfig) (streams : list StreamKey)
    (topic_to_stream : gmap string StreamKey) (clock : nat → Z) (grace_ms : Z) (oi_streams : list StreamKey)
    (hist : list (Coordinator * CoStep)) (c : Coordinator) (k : StreamKey) (f : RealtimeStreamFacts) :
  service cfg streams topic_to_stream clock grace_ms oi_streams hist c →
  allows (co_gate c) k = true → find_facts (sv_facts (co_supervisor c)) k = Some f → f_recovery_pending f = true →
  NoDup (owned (co_worker c)) ∧
  ((∃ id i, ws_intents (co_worker c) !! k = Some id ∧ id ∈ owned (co_worker c) ∧
      ws_heap (co_worker c) !! id = Some i ∧ in_stream i = k) ∨
   ws_intents (co_worker c) !! k = None ∧ left_behind k hist).
Proof.
  intros [Hw Hc]%service_tended Ha Hf Hp. split; [apply Hw|].
  destruct (ws_intents (co_worker c) !! k) as [id|] eqn:Hk.
  - left. destruct (wi_intents _ Hw k id Hk) as (i & Hi & Hs). exists id, i. split; [done|].
    split; [apply (wi_owned _ Hw); by exists k|]. done.
  - right. split; [done|]. destruct (Hc k f Hf Ha Hp) as [Hk'|?]; [|done]. rewrite Hk in Hk'. by destruct Hk'.
Qed.

(** ** An example, and the hand-off that leaves a stream behind *)

#[local] Existing Instance example_env.

(** The store a reconciled stream is handed over with: candles up to 120000, connecting. *)
Definition handover_store : AbsStore :=
  w_db (run (_ ← ingest_execute (example_candle 0 11 BYBIT_REST) 950;
             _ ← ingest_execute (example_candle 60000 11 BYBIT_REST) 950;
             _ ← ingest_execute (example_candle 120000 11 BYBIT_REST) 950;
             mark_connecting example_stream) (mkWorld degraded_store None 0 0)).2.

Definition example_topics : gmap string StreamKey := {[ "kline.1.BTCUSDT"%string := example_stream ]}.

(** The stream starts with its candles up to 0 known, at 195000; it is admitted or not. *)
Definition example_service (gate : AdmissionGate) : Coordinator :=
  mkCoordinator
    (mkSupervisor [mkFacts example_stream EXPECTED false None None None (Some 0) None None None false false None
                     None false None None] false 0)
    Worker_new gate (RuntimeStatus_new [example_stream]) (mkWorld handover_store None 0 0)
    (Some (mkNotifier 10 [] NotifierIdle)).

Definition example_steps (ss : list CoStep) (c : Coordinator) : res () * Coordinator :=
  co_each (co_step example_config [example_stream] example_topics (λ _, 195000) 15000 []) ss c.

(** A stream is left behind when it is admitted while a recovery is pending: the recovery was signalled
    and dropped before the admission, [admit] asks for none because one is pending, and neither
    the next stale checks nor a contiguous live candle ask for it.  The stream is never data-ready. *)
Theorem late_admission_left_behind :
  let p := example_steps
    [CoEvent (SubscriptionConfirmed ["kline.1.BTCUSDT"%string] 195000); CoStale; CoAdmit example_stream;
     CoStale; CoOutcome (mkOutcome example_stream 180000 RT_COMMITTED [] None None); CoStale; CoStale]
    (example_service []) in
  p.1 = Ok () ∧
  ∃ f, find_facts (sv_facts (co_supervisor p.2)) example_stream = Some f ∧
    allows (co_gate p.2) example_stream = true ∧ f_recovery_pending f = true ∧ data_ready f = false ∧
    ws_intents (co_worker p.2) !! example_stream = None ∧ ws_queue (co_worker p.2) = [].
Proof.
  intros p. assert (Hp : p.1 = Ok ()) by (vm_compute; reflexivity). split; [done|].
  destruct (find_facts (sv_facts (co_supervisor p.2)) example_stream) as [f|] eqn:Hf; [|by vm_compute in Hf].
  exists f. split; [done|].
  assert (Hall : match find_facts (sv_facts (co_supervisor p.2)) example_stream with
                 | Some f => f_recovery_pending f && negb (data_ready f) | None => false end = true)
    by (vm_compute; reflexivity).
  rewrite Hf in Hall. bool_hyps. split; [by vm_compute|]. repeat (split; [by vm_compute || done|]). by vm_compute.
Qed.

Definition example_step (s : CoStep) (c : Coordinator) : res () * Coordinator :=
  co_step example_config [example_stream] example_topics (λ _, 195000) 15000 [] s c.

(** A run with the state before each step, and whether every step of it counts. *)
Fixpoint example_history (ss : list CoStep) (c : Coordinator) : list (Coordinator * CoStep) :=
  match ss with [] => [] | s :: ss => (c, s) :: example_history ss (example_step s c).2 end.
Fixpoint example_end (ss : list CoStep) (c : Coordinator) : Coordinator :=
  match ss with [] => c | s :: ss => example_end ss (example_step s c).2 end.
Definition counts (s : CoStep) (c : Coordinator) : bool :=
  match s with CoWorker _ => false | _ => true end &&
  match (example_step s c).1 with Ok _ => true | Raise _ => false end &&
  match ws_pc (co_worker (example_step s c).2) with Ended _ => false | _ => true end.
Fixpoint all_count (ss : list CoStep) (c : Coordinator) : bool :=
  match ss with [] => true | s :: ss => counts s c && all_count ss (example_step s c).2 end.

Abbreviation example_run := (service example_config [example_stream] example_topics (λ _, 195000) 15000 []).

Lemma example_run_steps ss : ∀ hist c, example_run hist c → all_count ss c = true →
  example_run (hist ++ example_history ss c) (example_end ss c).
Proof.
  induction ss as [|s ss IH]; intros hist c Hc Hs; [by rewrite app_nil_r|]. cbn [all_count] in Hs.
  apply andb_true_iff in Hs as [Hs Hss]. unfold counts in Hs. bool_hyps. cbn [example_history example_end].
  replace (hist ++ (c, s) :: _) with ((hist ++ [(c, s)]) ++ example_history ss (example_step s c).2)
    by (by rewrite <-app_assoc). apply IH; [|done]. apply (service_step _ _ _ _ _ _ hist c s); [done|by destruct s| |].
  - fold (example_step s c). destruct (example_step s c) as [[[]|e] c']; [done|discriminate].
  - fold (example_step s c). unfold running. by destruct (ws_pc (co_worker (example_step s c).2)).
Qed.

Lemma example_run_start gate : example_run [] (example_service gate).
Proof. apply service_start; [done|]. intros k f Hf. cbn in Hf. case_bool_decide; [|done]. by injection Hf as <-. Qed.

(** A stale check that asks for a recovery, and the late admission. *)
Definition stale_steps : list CoStep :=
  [CoEvent (SubscriptionConfirmed ["kline.1.BTCUSDT"%string] 195000); CoStale].
Definition late_steps : list CoStep :=
  [CoEvent (SubscriptionConfirmed ["kline.1.BTCUSDT"%string] 195000); CoStale; CoAdmit example_stream; CoStale].

Definition pending_at (c : Coordinator) : bool :=
  from_option f_recovery_pending false (find_facts (sv_facts (co_supervisor c)) example_stream).

Definition intended_at (c : Coordinator) : bool :=
  match ws_intents (co_worker c) !! example_stream with Some _ => true | None => false end.

Lemma stale_run_at :
  let c := example_end stale_steps (example_service [example_stream]) in
  example_run (example_history stale_steps (example_service [example_stream])) c ∧
  allows (co_gate c) example_stream = true ∧ pending_at c = true ∧ intended_at c = true.
Proof.
  split; [|vm_compute; repeat split].
  apply (example_run_steps stale_steps [] _ (example_run_start _)). by vm_compute.
Qed.

Lemma late_run_at :
  let c := example_end late_steps (example_service []) in
  example_run (example_history late_steps (example_service [])) c ∧
  allows (co_gate c) example_stream = true ∧ pending_at c = true ∧ intended_at c = false.
Proof.
  split; [|vm_compute; repeat split].
  apply (example_run_steps late_steps [] _ (example_run_start _)). by vm_compute.
Qed.

Lemma pending_recovery_has_intent_witness :
  (let c := example_end stale_steps (example_service [example_stream]) in
   NoDup (owned (co_worker c)) ∧
   ∃ id i, ws_intents (co_worker c) !! example_stream = Some id ∧ id ∈ owned (co_worker c) ∧
     ws_heap (co_worker c) !! id = Some i ∧ in_stream i = example_stream) ∧
  (let c := example_end late_steps (example_service []) in
   ws_intents (co_worker c) !! example_stream = None ∧
   left_behind example_stream (example_history late_steps (example_service []))).
Proof.
  split.
  - destruct stale_run_at as (Hrun & Hg & Hp & Hi). cbv zeta.
    set (c := example_end _ _) in *. clearbody c. unfold pending_at in Hp. unfold intended_at in Hi.
    destruct (find_facts (sv_facts (co_supervisor c)) example_stream) as [f|] eqn:Hf; [|discriminate Hp].
    destruct (pending_recovery_has_intent _ _ _ _ _ _ _ c example_stream f Hrun Hg Hf Hp) as [Hd [H|[Hn _]]]; [by split|].
    by rewrite Hn in Hi.
  - destruct late_run_at as (Hrun & Hg & Hp & Hi). cbv zeta.
    set (c := example_end _ _) in *. clearbody c. unfold pending_at in Hp. unfold intended_at in Hi.
    destruct (find_facts (sv_facts (co_supervisor c)) example_stream) as [f|] eqn:Hf; [|discriminate Hp].
    destruct (pending_recovery_has_intent _ _ _ _ _ _ _ c example_stream f Hrun Hg Hf Hp) as [_ [(id & _ & Hn & _)|H]]; [|done].
    by rewrite Hn in Hi.
Defined.
