(* ===== verification/Reconciliation.v ===== *)
(** * Startup reconciliation of a stream

    runtime/startup_types.py, runtime/reconciliation.py, runtime/open_interest_reconciliation.py
    and runtime/startup.py: one bounded pass over the history of a stream, of the candle track
    with the lifecycle and of the open interest track without.  The lower bound and the repair
    are parameters with what they promise; the log lines are left out. *)

From S2P Require Import Prelude PyStr DecimalValues Timeframes Identity Gaps Candles StreamState.
From S2P Require Import Instruments OpenInterest Storage AbsStore Ingest ImportWindow UseCase LowerBound Repair.
From S2P Require Import OpenInterestTrack RealtimeFacts Supervisor Continuity LifecycleUpdate RealtimeRecovery.
From S2P Require Import RuntimeStatus.

(** ** startup_types.py *)

Inductive StartupClassification :=
| START_CONNECTING | START_INCOMPLETE | START_RECOVERABLE_FAILURE | START_FATAL_FAILURE.

#[export] Instance StartupClassification_eq_dec : EqDecision StartupClassification.
Proof. solve_decision. Defined.

Record ReconciliationWindow := mkReconciliationWindow { rw_start_time_ms : Z; rw_end_time_ms : Z }.

Definition ReconciliationWindow_new (s e : Z) : res ReconciliationWindow :=
  _ ← raise_if ((s <? 0) || (e <=? s)) ExcValueError "invalid reconciliation window";
  mret (mkReconciliationWindow s e).

(** [LowerBoundProgressMarker | RepairProgressMarker] *)
Inductive HistoricalProgressMarker :=
| LowerBoundProgressMarker (next_search_start_time_ms : Z)
| RepairMarker (m : RepairProgressMarker).

Record BoundedWorkCounts := mkWorkCounts {
  wk_attempted_windows : Z;
  wk_completed_windows : Z;
  wk_committed : Z;
  wk_duplicates : Z;
  wk_corrected : Z;
  wk_rejected : Z;
  wk_unexpected : Z
}.

Definition no_work : BoundedWorkCounts := mkWorkCounts 0 0 0 0 0 0 0.

Record StartupStreamOutcome := mkStartup {
  su_stream : StreamKey;
  su_classification : StartupClassification;
  su_audit : option ContinuityReport;
  su_window : option ReconciliationWindow;
  su_error_code : option string;
  su_error_detail : option string;
  su_progress_marker : option HistoricalProgressMarker;
  su_counts : BoundedWorkCounts
}.

Definition su_connecting (o : StartupStreamOutcome) : bool :=
  bool_decide (su_classification o = START_CONNECTING).

(** [replace(outcome, window=w)] *)
Definition with_su_window (w : option ReconciliationWindow) (o : StartupStreamOutcome) : StartupStreamOutcome :=
  mkStartup (su_stream o) (su_classification o) (su_audit o) w (su_error_code o) (su_error_detail o)
    (su_progress_marker o) (su_counts o).

(** [_counts] *)
Definition work_counts (r : RepairStreamGapsResult) : BoundedWorkCounts :=
  let sum (f : RepairWindowResult → Z) := foldr Z.add 0 (map f (rr_window_results r)) in
  mkWorkCounts (rr_attempted_windows r) (rr_completed_windows r) (sum rw_committed) (sum rw_duplicates)
    (sum rw_corrected) (sum rw_rejected) (sum rw_unexpected).

(** The class of a failure with a disposition. *)
Definition startup_failure (disposition : option SourceFailureDisposition) : StartupClassification :=
  if bool_decide (disposition = Some RECOVERABLE) then START_RECOVERABLE_FAILURE else START_FATAL_FAILURE.

(** ** What the two passes share *)

Definition LowerBoundResolver : Type := StreamKey → Z → M HistoricalLowerBoundResult.

(** [_window_from_lower_bound] and [_window] *)
Definition window_from_lower_bound (k : StreamKey) (start_ms : Z) : M (option ReconciliationWindow) :=
  now ← now_ms;
  target ← lift (last_closed_open_time_ms now (stream_step k));
  let end_ms := target + stream_step k in
  if end_ms <=? start_ms then mret None
  else w ← lift (ReconciliationWindow_new start_ms end_ms); mret (Some w).

(** The outcome of a pass whose lower bound is not resolved. *)
Definition unresolved_outcome (k : StreamKey) (lower : HistoricalLowerBoundResult) : StartupStreamOutcome :=
  mkStartup k START_INCOMPLETE None None None None
    (LowerBoundProgressMarker <$> lb_next_search_start_time_ms lower) no_work.

Definition repair_request (k : StreamKey) (w : ReconciliationWindow) (max_windows : Z) :
    res RepairStreamGapsRequest :=
  RepairStreamGapsRequest_new k (rw_start_time_ms w) (rw_end_time_ms w) max_windows.

(** ** open_interest_reconciliation.py *)

Section open_interest.
Context (lower_bound : LowerBoundResolver) (repair : StreamRepair) (discovery_windows repair_windows : Z).

(** [_outcome] *)
Definition oi_outcome (k : StreamKey) (w : ReconciliationWindow) (r : RepairStreamGapsResult) :
    M StartupStreamOutcome :=
  let counts := work_counts r in
  match rr_status r with
  | REPAIR_COMPLETE =>
      let gaps := match rr_post_repair_audit r with Some audit => Z.of_nat (length (report_gaps audit)) | None => 0 end in
      _ ← oi_record_audit_result k gaps;
      _ ← track_progress k;
      mret (mkStartup k START_CONNECTING (rr_post_repair_audit r) (Some w) None None None counts)
  | REPAIR_INCOMPLETE =>
      mret (mkStartup k START_INCOMPLETE (rr_post_repair_audit r) (Some w) (Some "oi_track_incomplete"%string) None
              (Some (RepairMarker (progress_marker r))) counts)
  | REPAIR_FAILED =>
      mret (mkStartup k (startup_failure (rr_failure_disposition r)) (Some (rr_pre_repair_audit r)) (Some w)
              (rr_error_code r) (rr_error_detail r) None counts)
  end.

(** The repair of a window. *)
Definition oi_repair_window (k : StreamKey) (w : ReconciliationWindow) : M StartupStreamOutcome :=
  request ← lift (repair_request k w repair_windows);
  r ← repair request;
  oi_outcome k w r.

(** [execute_stream] *)
Definition oi_reconcile (k : StreamKey) (window : option ReconciliationWindow) : M StartupStreamOutcome :=
  try_catch
    (match window with
     | Some w => oi_repair_window k w
     | None =>
         lower ← lower_bound k discovery_windows;
         match lb_resolved lower, lb_earliest_available_open_time_ms lower with
         | true, Some start =>
             resolved ← window_from_lower_bound k start;
             match resolved with
             | None => mret (mkStartup k START_CONNECTING None None None None None no_work)
             | Some w => oi_repair_window k w
             end
         | _, _ => mret (unresolved_outcome k lower)
         end
     end)
    (λ exc,
       _ ← try_catch (rec_record_failure oi_track_recorder k exc) (λ _, mret ());
       mret (mkStartup k (startup_failure (Some (sf_disposition (classify_source_failure exc)))) None window
               (Some (class_name (exn_cls exc))) (Some (exn_str exc)) None no_work)).
End open_interest.

(** ** reconciliation.py *)

Section reconcile.
Context (lower_bound : LowerBoundResolver) (repair : StreamRepair) (discovery_windows repair_windows : Z)
  (open_interest : option (StreamKey → option ReconciliationWindow → M StartupStreamOutcome))
  (oi_streams : list StreamKey).

(** [_open_interest_not_proven] *)
Definition open_interest_not_proven (k : StreamKey) (candle_window : ReconciliationWindow) :
    M (option StartupStreamOutcome) :=
  match open_interest with
  | None => mret None
  | Some execute_stream =>
      if negb (bool_decide (k ∈ oi_streams)) then mret None
      else
        outcome ← execute_stream k None;
        mret (if bool_decide (su_classification outcome = START_CONNECTING) then None
              else Some (with_su_window (Some candle_window) outcome))
  end.

(** [_record_failure_state] *)
Definition record_failure_state (k : StreamKey) (c : StartupClassification) (reason : string) : M () :=
  _ ← (if bool_decide (c = START_RECOVERABLE_FAILURE) then mark_degraded k reason else mark_failed k reason);
  mret ().

(** What follows the repair of a window. *)
Definition settle_repair (k : StreamKey) (w : ReconciliationWindow) (r : RepairStreamGapsResult) :
    M StartupStreamOutcome :=
  match rr_status r with
  | REPAIR_COMPLETE =>
      held ← open_interest_not_proven k w;
      match held with
      | Some outcome => mret outcome
      | None =>
          _ ← mark_connecting k;
          mret (mkStartup k START_CONNECTING (rr_post_repair_audit r) (Some w) None None None (work_counts r))
      end
  | REPAIR_INCOMPLETE =>
      mret (mkStartup k START_INCOMPLETE (rr_post_repair_audit r) (Some w)
              (Some "historical_reconciliation_incomplete"%string) None (Some (RepairMarker (progress_marker r)))
              (work_counts r))
  | REPAIR_FAILED =>
      let c := startup_failure (rr_failure_disposition r) in
      _ ← record_failure_state k c (str_or (rr_error_code r) "repair_failed");
      mret (mkStartup k c (Some (rr_pre_repair_audit r)) (Some w) (rr_error_code r) (rr_error_detail r) None
              (work_counts r))
  end.

(** The audit and repair of a window. *)
Definition reconcile_window (k : StreamKey) (w : ReconciliationWindow) : M StartupStreamOutcome :=
  _ ← mark_auditing k;
  request ← lift (repair_request k w repair_windows);
  r ← repair request;
  settle_repair k w r.

(** [execute] *)
Definition reconcile (k : StreamKey) (window : option ReconciliationWindow) : M StartupStreamOutcome :=
  try_catch
    (_ ← prepare_for_bootstrap k;
     match window with
     | Some w => reconcile_window k w
     | None =>
         lower ← lower_bound k discovery_windows;
         match lb_resolved lower, lb_earliest_available_open_time_ms lower with
         | true, Some start =>
             resolved ← window_from_lower_bound k start;
             match resolved with
             | None => mret (mkStartup k START_INCOMPLETE None None None None None no_work)
             | Some w => reconcile_window k w
             end
         | _, _ => mret (unresolved_outcome k lower)
         end
     end)
    (λ exc,
       let decision := classify_source_failure exc in
       let c := startup_failure (Some (sf_disposition decision)) in
       _ ← record_failure_state k c (sf_code decision);
       mret (mkStartup k c None window (Some (class_name (exn_cls exc))) (Some (exn_str exc)) None no_work)).

(** ** startup.py *)

Fixpoint startup_execute (ks : list StreamKey) : M (list StartupStreamOutcome) :=
  match ks with
  | [] => mret []
  | k :: ks =>
      o ← reconcile k None;
      rest ← startup_execute ks;
      mret (o :: rest)
  end.
End reconcile.

(** ** Facts *)

(** What a pass needs of its lower bound. *)
Class LowerBoundSafe `{E : Env} (lower_bound : LowerBoundResolver) : Prop :=
  lower_bound_safe : ∀ k a0 n, keeps (good k a0) (lower_bound k n).

#[export] Instance resolve_lower_bound_safe `{E : Env} progress probe
    `{!ProgressSafe progress} `{!ProbeSafe probe} : LowerBoundSafe (resolve_lower_bound progress probe).
Proof. intros k a0 n. apply keeps_resolve_lower_bound; exact _. Qed.

(** What the candle pass needs of the pass of the second track. *)
Class PassSafe `{E : Env} (execute_stream : StreamKey → option ReconciliationWindow → M StartupStreamOutcome) : Prop :=
  pass_safe : ∀ k a0 w, keeps (good k a0) (execute_stream k w).

#[export] Instance lifecycle_step_dec a b : Decision (lifecycle_step a b).
Proof. unfold lifecycle_step. apply _. Defined.

Class PassOptionSafe `{E : Env}
    (p : option (StreamKey → option ReconciliationWindow → M StartupStreamOutcome)) : Prop :=
  pass_option_safe : from_option PassSafe True p.

#[export] Instance pass_none_safe `{E : Env} : PassOptionSafe None.
Proof. done. Qed.
#[export] Instance pass_some_safe `{E : Env} p `{H : !PassSafe p} : PassOptionSafe (Some p).
Proof. exact H. Qed.

(** A recorder method on a registered stream: it ends in its target, or the lifecycle refuses it. *)
Lemma run_mark_cases `{E : Env} a n c k r t :
  store_inv a → ab_streams a !! k = Some r →
  match run (mark k t) (mkWorld a None n c) with
  | (Ok s, w) => ∃ r', ab_streams (w_db w) !! k = Some r' ∧ ss_state (sr_state r') = tn_target t
  | (Raise e, w) => exn_cls e = ExcInvalidStreamTransition ∧ w_db w = a ∧
      ss_state (sr_state r) ≠ tn_target t ∧ ¬ lifecycle_step (ss_state (sr_state r)) (tn_target t)
  end.
Proof.
  intros Hi Hr. pose proof (store_inv_lookup _ _ _ Hi Hr) as [Hk Hv _ _].
  destruct (decide (ss_state (sr_state r) = tn_target t ∨ lifecycle_step (ss_state (sr_state r)) (tn_target t)))
    as [Hl|Hn].
  - destruct (synchronized_mark a n c k r t Hi Hr) as (s & w & -> & Hst & Hs); [tauto|].
    destruct Hs as (_ & _ & _ & Hr' & _). exists (upd_state r s). by split.
  - unfold mark. rewrite run_bind, (run_snapshot a n c k r) by done.
    rewrite bool_decide_false by tauto. unfold transition. rewrite (run_transition_in_uow a n c k r) by done.
    cbv beta iota. destruct (apply_transition (sr_state r) t (env_clock n)) as [s|e] eqn:Et.
    + destruct (apply_transition_ok (sr_state r) t (env_clock n) Hv) as [[_ H] _]. rewrite Et in H. tauto.
    + unfold apply_transition in Et. apply transition_error in Et as [[_ ?]|[? _]]; [|tauto|done].
      split; [done|]. split; [done|]. tauto.
Qed.

Lemma keeps_window_from_lower_bound `{E : Env} k k' a0 s : keeps (good k' a0) (window_from_lower_bound k s).
Proof. unfold window_from_lower_bound. keeps_tac. Qed.
#[export] Hint Resolve keeps_window_from_lower_bound : keeps.

(** The repair of a window of a quiet stream. *)
Lemma keeps_repair_request `{E : Env} {A} stored (repair : StreamRepair) `{HP : !RepairPromise stored repair} k a0 w mw
    (h : RepairStreamGapsResult → M A) :
  (∀ r, keeps (good k a0) (h r)) →
  keeps (good k a0) (request ← lift (repair_request k w mw); r ← repair request; h r).
Proof.
  intros Hh. apply keeps_lift_bind. intros q (-> & _)%RepairRequest_new_ok.
  apply keeps_bind; [apply (rpr_keeps a0 (mkRepairRequest k (rw_start_time_ms w) (rw_end_time_ms w) mw))|exact Hh].
Qed.

Section oi_facts.
Context `{E : Env} (lower_bound : LowerBoundResolver) `{HL : !LowerBoundSafe lower_bound}
  (repair : StreamRepair) `{HP : !RepairPromise oi_stored repair} (discovery_windows repair_windows : Z).

Lemma keeps_oi_outcome k a0 w r : keeps (good k a0) (oi_outcome k w r).
Proof.
  unfold oi_outcome, oi_record_audit_result. cbv zeta. destruct (rr_status r); keeps_tac.
Qed.

Lemma keeps_oi_repair_window k a0 w : keeps (good k a0) (oi_repair_window repair repair_windows k w).
Proof. apply (keeps_repair_request oi_stored); [exact _|]. intros r. apply keeps_oi_outcome. Qed.

Lemma keeps_oi_reconcile k a0 w :
  keeps (good k a0) (oi_reconcile lower_bound repair discovery_windows repair_windows k w).
Proof.
  pose proof (keeps_oi_repair_window k a0). pose proof (lower_bound_safe k a0 discovery_windows).
  pose proof (rs_failure (s:=oi_track_recorder) k a0) as Hf.
  unfold oi_reconcile. apply keeps_try; [destruct w; keeps_tac|]. intros e.
  apply keeps_bind; [apply keeps_try; [apply Hf|auto with keeps]|auto with keeps].
Qed.

#[export] Instance oi_reconcile_safe : PassSafe (oi_reconcile lower_bound repair discovery_windows repair_windows).
Proof. intros k a0 w. apply keeps_oi_reconcile. Qed.
End oi_facts.

Section candle_facts.
Context `{E : Env} (lower_bound : LowerBoundResolver) `{HL : !LowerBoundSafe lower_bound}
  (repair : StreamRepair) `{HP : !RepairPromise candle_stored repair} (discovery_windows repair_windows : Z)
  (open_interest : option (StreamKey → option ReconciliationWindow → M StartupStreamOutcome))
  `{HO : !PassOptionSafe open_interest} (oi_streams : list StreamKey).

Lemma keeps_not_proven k a0 w : keeps (good k a0) (open_interest_not_proven open_interest oi_streams k w).
Proof.
  unfold open_interest_not_proven. destruct open_interest as [p|]; [|auto with keeps].
  destruct (negb _); [auto with keeps|]. apply keeps_bind; [apply HO|auto with keeps].
Qed.

Lemma keeps_record_failure_state k a0 c reason : keeps (good k a0) (record_failure_state k c reason).
Proof. unfold record_failure_state, mark_degraded, mark_failed. keeps_tac. Qed.

Lemma keeps_settle_repair k a0 w r : keeps (good k a0) (settle_repair open_interest oi_streams k w r).
Proof.
  pose proof (keeps_not_proven k a0). pose proof (keeps_record_failure_state k a0).
  unfold settle_repair, mark_connecting. destruct (rr_status r); cbv zeta; keeps_tac.
Qed.

Lemma keeps_reconcile_window k a0 w :
  keeps (good k a0) (reconcile_window repair repair_windows open_interest oi_streams k w).
Proof.
  unfold reconcile_window. apply keeps_bind; [apply keeps_mark_auditing|intros _].
  apply (keeps_repair_request candle_stored); [exact _|]. intros r. apply keeps_settle_repair.
Qed.

Lemma keeps_reconcile k a0 w :
  keeps (good k a0)
    (reconcile lower_bound repair discovery_windows repair_windows open_interest oi_streams k w).
Proof.
  pose proof (keeps_reconcile_window k a0). pose proof (keeps_record_failure_state k a0).
  pose proof (lower_bound_safe k a0 discovery_windows).
  unfold reconcile. cbv zeta. apply keeps_try; [|keeps_tac].
  apply keeps_bind; [apply keeps_prepare_for_bootstrap|intros _]. destruct w; keeps_tac.
Qed.
End candle_facts.

(** Every bar of the window is stored. *)
Definition store_window (stored : StreamRec → Z → Prop) (k : StreamKey) (a : AbsStore) (w : ReconciliationWindow) :
    Prop :=
  ∃ r, ab_streams a !! k = Some r ∧
    ∀ t, on_grid (stream_step k) t → rw_start_time_ms w ≤ t < rw_end_time_ms w → stored r t.

Lemma store_window_good stored open_times `{HR : !TrackReader open_times stored} k a a' w :
  good k a a' → store_window stored k a w → store_window stored k a' w.
Proof.
  intros [_ [_ Hs Hrows]] (r & Hr & Hc). destruct (proj1 Hs (ex_intro _ r Hr)) as [r' Hr'].
  exists r'. split; [done|]. intros t Ht Hrange. eapply track_keeps; [by apply Hrows|by apply Hc].
Qed.

(** A complete repair of a window proves it. *)
Lemma run_repair_window `{E : Env} stored (repair : StreamRepair) `{HP : !RepairPromise stored repair} k w mw q r v v' :
  repair_request k w mw = Ok q → quiet k (w_db v) v → run (repair q) v = (Ok r, v') →
  quiet k (w_db v) v' ∧ (rr_status r = REPAIR_COMPLETE → store_window stored k (w_db v') w).
Proof.
  intros Hq Hv Hrun. destruct w as [s e].
  destruct (run_track_repair stored repair k (mkTimeWindow s e) mw q r v v' Hq Hv Hrun) as (Hq' & _ & Hc).
  split; [done|]. intros Hst. destruct (Hc Hst) as (r' & Hr' & Hcov). exists r'. split; [done|].
  apply RepairRequest_new_ok in Hq as (_ & _ & _ & _ & He). intros t Ht Hr. cbn in Hr.
  apply Hcov; [done|]. cbn. destruct (window_last k t e Ht He); lia.
Qed.

(** The closed boundary at a reading of the clock. *)
Definition closed_boundary `{E : Env} (k : StreamKey) (e : Z) : Prop :=
  ∃ n, e = env_clock n - env_clock n mod stream_step k.

Lemma run_window_from_lower_bound `{E : Env} k s v w v' :
  run (window_from_lower_bound k s) v = (Ok (Some w), v') →
  rw_start_time_ms w = s ∧ closed_boundary k (rw_end_time_ms w) ∧ v' = tick v.
Proof.
  unfold window_from_lower_bound. rewrite run_bind, run_now, run_bind, run_lift, last_closed_ok
    by apply stream_step_pos. cbv zeta. destruct (_ <=? s); [done|]. rewrite run_bind, run_lift.
  unfold ReconciliationWindow_new. destruct (raise_if _ _ _); [|done]. intros [= <- <-].
  split; [done|]. split; [|done]. exists (w_ticks v). cbn. lia.
Qed.

Lemma startup_failure_not_connecting d : startup_failure d ≠ START_CONNECTING.
Proof. unfold startup_failure. by case_bool_decide. Qed.

(** A quiet world starts anew. *)
Lemma quiet_self k a v : quiet k a v → quiet k (w_db v) v.
Proof. intros [Htx [Hi _]]. by split; [|apply good_refl]. Qed.

(** *** The open interest pass *)

(** What a pass of the open interest track reports. *)
Record oi_report `{E : Env} (k : StreamKey) (requested : option ReconciliationWindow) (a' : AbsStore)
    (o : StartupStreamOutcome) : Prop := {
  or_stream : su_stream o = k;
  or_window : ∀ w, requested = Some w → su_window o = Some w;
  or_proven : su_classification o = START_CONNECTING → ∀ w, su_window o = Some w →
    store_window oi_stored k a' w ∧ (requested = None → closed_boundary k (rw_end_time_ms w))
}.

Section oi_pass.
Context `{E : Env} (lower_bound : LowerBoundResolver) `{HL : !LowerBoundSafe lower_bound}
  (repair : StreamRepair) `{HP : !RepairPromise oi_stored repair} (discovery_windows repair_windows : Z).

Lemma oi_repair_window_report k w requested v o v' :
  quiet k (w_db v) v → run (oi_repair_window repair repair_windows k w) v = (Ok o, v') →
  (∀ w0, requested = Some w0 → w0 = w) → (requested = None → closed_boundary k (rw_end_time_ms w)) →
  oi_report k requested (w_db v') o.
Proof.
  intros Hq Hrun Hw Hb. unfold oi_repair_window in Hrun. apply run_bind_ok in Hrun as (q & v1 & Hreq & Hrun).
  injection Hreq as Hreq <-. apply run_bind_ok in Hrun as (r & v2 & Hrep & Hrun).
  destruct (run_repair_window oi_stored repair k w _ q r v v2 Hreq Hq Hrep) as [Hq2 Hc].
  pose proof (quiet_step k _ (oi_outcome k w r) v2 (keeps_oi_outcome k (w_db v2) w r) (quiet_self _ _ _ Hq2)) as Hq3.
  rewrite Hrun in Hq3. destruct Hq3 as [_ Hg]. unfold oi_outcome in Hrun. cbv zeta in Hrun.
  destruct (rr_status r) eqn:Hst.
  - apply run_bind_ok in Hrun as (u & v3 & _ & Hrun). apply run_bind_ok in Hrun as (p & v4 & _ & Hrun).
    injection Hrun as <- <-. split; cbn; [done|by intros w0 <-%Hw|]. intros _ w0 [= <-]. split; [|exact Hb].
    by eapply (store_window_good oi_stored open_interest_open_times); [exact Hg|apply Hc].
  - injection Hrun as <- <-. split; cbn; [done|by intros w0 <-%Hw|done].
  - injection Hrun as <- <-. split; cbn; [done|by intros w0 <-%Hw|]. by intros ?%startup_failure_not_connecting.
Qed.
End oi_pass.

(** A pass of the open interest track always returns an outcome for its stream, keeps the store
    canonical and touches nothing but the stream.  A requested window stays the window of the
    outcome.  When it reports the track as complete, every bar of its window - up to the closed
    boundary, when it chose the window itself - is stored; without a window there was none to prove. *)
Theorem oi_reconcile_reports `{E : Env} (lower_bound : LowerBoundResolver) `{!LowerBoundSafe lower_bound}
    (repair : StreamRepair) `{!RepairPromise oi_stored repair} (discovery_windows repair_windows : Z)
    (k : StreamKey) (window : option ReconciliationWindow) (a : AbsStore) (n c : nat) :
  store_inv a →
  match run (oi_reconcile lower_bound repair discovery_windows repair_windows k window) (mkWorld a None n c) with
  | (Ok o, w') => w_tx w' = None ∧ good k a (w_db w') ∧ oi_report k window (w_db w') o
  | (Raise _, _) => False
  end.
Proof.
  intros Hi. set (v := mkWorld a None n c). assert (Hq : quiet k a v) by (split; [done|by apply good_refl]).
  pose proof (quiet_step k a _ v (keeps_oi_reconcile lower_bound repair discovery_windows repair_windows k a window) Hq) as Hq'.
  unfold oi_reconcile in *. rewrite run_try in *. set (body := match window with Some w => _ | None => _ end) in *.
  destruct (run body v) as [[o|e] v1] eqn:Hrun; cbn [fst snd] in *.
  - destruct Hq' as [Htx Hg]. split; [exact Htx|]. split; [exact Hg|]. unfold body in Hrun.
    destruct window as [w|].
    { apply (oi_repair_window_report repair repair_windows k w (Some w) v o v1 Hq Hrun); [by intros ? [= <-]|done]. }
    apply run_bind_ok in Hrun as (lower & v2 & Hlow & Hrun).
    pose proof (quiet_step k a _ v (lower_bound_safe k a discovery_windows) Hq) as Hq2. rewrite Hlow in Hq2.
    destruct (lb_resolved lower), (lb_earliest_available_open_time_ms lower) as [start|]; try (injection Hrun as <- <-; done).
    apply run_bind_ok in Hrun as (w & v3 & Hwin & Hrun).
    destruct w as [w|]; [|injection Hrun as <- <-; done].
    apply run_window_from_lower_bound in Hwin as (_ & Hb & ->).
    assert (Hq3 : quiet k (w_db (tick v2)) (tick v2)) by (by apply quiet_self in Hq2).
    by apply (oi_repair_window_report repair repair_windows k w None _ o v1 Hq3 Hrun).
  - rewrite run_bind, run_try in *. destruct (run (rec_record_failure _ _ _) v1) as [[[]|e'] v2] eqn:Hf; cbn in Hq' |- *.
    + destruct Hq' as [Htx Hg]. split; [exact Htx|]. split; [exact Hg|]. split; cbn; [done|done|].
      by intros ?%startup_failure_not_connecting.
    + destruct Hq' as [Htx Hg]. split; [exact Htx|]. split; [exact Hg|]. split; cbn; [done|done|].
      by intros ?%startup_failure_not_connecting.
Qed.

(** *** The candle pass *)

Section candle_pass.
Context `{E : Env} (lower_bound : LowerBoundResolver) `{HL : !LowerBoundSafe lower_bound}
  (repair : StreamRepair) `{HP : !RepairPromise candle_stored repair} (discovery_windows repair_windows : Z)
  (open_interest : option (StreamKey → option ReconciliationWindow → M StartupStreamOutcome))
  `{HO : !PassOptionSafe open_interest} (oi_streams : list StreamKey).

(** The pass of the second track ran on the way to the store [a'] and reported it as complete. *)
Definition second_track_complete (k : StreamKey) (a' : AbsStore) : Prop :=
  match open_interest with
  | Some execute_stream => k ∈ oi_streams → ∃ v o v', w_tx v = None ∧ store_inv (w_db v) ∧
      run (execute_stream k None) v = (Ok o, v') ∧ su_classification o = START_CONNECTING ∧ good k (w_db v') a'
  | None => True
  end.

(** What a pass reports of a stream it hands over. *)
Record connecting_report (k : StreamKey) (requested : option ReconciliationWindow) (a' : AbsStore)
    (o : StartupStreamOutcome) (w : ReconciliationWindow) : Prop := {
  cr_stream : su_stream o = k;
  cr_window : su_window o = Some w;
  cr_requested : match requested with Some w0 => w = w0 | None => closed_boundary k (rw_end_time_ms w) end;
  cr_proven : store_window candle_stored k a' w;
  cr_state : ∃ r, ab_streams a' !! k = Some r ∧ ss_state (sr_state r) = CONNECTING;
  cr_second : second_track_complete k a'
}.

Lemma good_registered k a a' : good k a a' → is_Some (ab_streams a !! k) → is_Some (ab_streams a' !! k).
Proof. intros [_ [_ Hs _]]. apply Hs. Qed.

(** The failure [o] is recorded: the stream ends degraded or failed. *)
Definition failure_recorded (k : StreamKey) (a' : AbsStore) (c : StartupClassification) : Prop :=
  ∃ r, ab_streams a' !! k = Some r ∧
    ss_state (sr_state r) = if bool_decide (c = START_RECOVERABLE_FAILURE) then DEGRADED else FAILED.

(** Only a recoverable failure can be refused, by a stream that is uninitialized or failed. *)
Lemma run_record_failure_state k c reason v r w' :
  w_tx v = None → store_inv (w_db v) → is_Some (ab_streams (w_db v) !! k) →
  run (record_failure_state k c reason) v = (r, w') →
  match r with
  | Ok _ => failure_recorded k (w_db w') c
  | Raise e => exn_cls e = ExcInvalidStreamTransition ∧ w_db w' = w_db v ∧
      ∃ s, ab_streams (w_db v) !! k = Some s ∧ ss_state (sr_state s) ∈ [UNINITIALIZED; FAILED]
  end.
Proof.
  destruct v as [db tx n cc]. cbn [w_tx w_db]. intros -> Hi [s Hs]. unfold record_failure_state, mark_degraded, mark_failed.
  rewrite run_bind. unfold failure_recorded. case_bool_decide.
  - match goal with |- context [run (mark k ?t) ?w] => pose proof (run_mark_cases db n cc k s t Hi Hs) as Hm;
      destruct (run (mark k t) w) as [[s1|e0] w0] end; intros [= <- <-]; [exact Hm|].
    destruct Hm as (He & Hdb & Hne & Hno). split; [done|]. split; [done|]. exists s. split; [done|].
    cbn in Hne, Hno. unfold lifecycle_step in Hno. destruct (ss_state (sr_state s)); try (by destruct Hno);
      rewrite ?elem_of_cons; tauto.
  - match goal with |- context [run (mark k ?t) ?w] => pose proof (run_mark_cases db n cc k s t Hi Hs) as Hm;
      destruct (run (mark k t) w) as [[s1|e0] w0] end; intros [= <- <-]; [exact Hm|].
    destruct Hm as (He & Hdb & Hne & Hno). cbn in Hne, Hno. unfold lifecycle_step in Hno.
    destruct (ss_state (sr_state s)); by destruct Hno.
Qed.

Lemma not_proven_none k w v v' :
  quiet k (w_db v) v → run (open_interest_not_proven open_interest oi_streams k w) v = (Ok None, v') →
  second_track_complete k (w_db v').
Proof.
  intros [Htx [Hi _]] Hrun. unfold open_interest_not_proven, second_track_complete in *.
  destruct open_interest as [p|]; [|done]. case_bool_decide as Hin; cbn [negb] in Hrun; [|done].
  apply run_bind_ok in Hrun as (o & v1 & Ho & Hrun). injection Hrun as Hr <-. intros _.
  exists v, o, v1. do 3 (split; [done|]). case_bool_decide; [|done]. split; [done|]. apply good_refl.
  pose proof (quiet_step k (w_db v) (p k None) v (HO k (w_db v) None)) as Hq. rewrite Ho in Hq. by apply Hq.
Qed.

Lemma second_track_good k a a' : good k a a' → second_track_complete k a → second_track_complete k a'.
Proof.
  intros Hg. unfold second_track_complete. destruct open_interest as [p|]; [|done].
  intros H Hin. destruct (H Hin) as (v & o & v' & H1 & H2 & H3 & H4 & H5). exists v, o, v'.
  do 4 (split; [done|]). destruct Hg as [Hi Hf]. by eapply good_trans.
Qed.

(** A window that ends connecting. *)
Lemma reconcile_window_report k w requested v o v' :
  quiet k (w_db v) v → is_Some (ab_streams (w_db v) !! k) →
  run (reconcile_window repair repair_windows open_interest oi_streams k w) v = (Ok o, v') →
  match requested with Some w0 => w = w0 | None => closed_boundary k (rw_end_time_ms w) end →
  su_classification o = START_CONNECTING → connecting_report k requested (w_db v') o w.
Proof.
  intros Hq Hk Hrun Hw Hcls. unfold reconcile_window in Hrun. apply run_bind_ok in Hrun as (s & v1 & Haud & Hrun).
  pose proof (quiet_step k _ _ v (keeps_mark_auditing k (w_db v)) Hq) as Hq1. rewrite Haud in Hq1. cbn [snd] in Hq1.
  apply run_bind_ok in Hrun as (q & v2 & Hreq & Hrun). injection Hreq as Hreq <-.
  apply run_bind_ok in Hrun as (r & v3 & Hrep & Hrun).
  destruct (run_repair_window candle_stored repair k w _ q r v1 v3 Hreq (quiet_self _ _ _ Hq1) Hrep) as [Hq3 Hc].
  unfold settle_repair in Hrun. destruct (rr_status r).
  - apply run_bind_ok in Hrun as (held & v4 & Hheld & Hrun).
    pose proof (quiet_step k _ _ v3 (keeps_not_proven open_interest oi_streams k (w_db v3) w) (quiet_self _ _ _ Hq3)) as Hq4.
    rewrite Hheld in Hq4. cbn [snd] in Hq4. destruct held as [o1|].
    { injection Hrun as <- <-. unfold open_interest_not_proven in Hheld. destruct open_interest as [p|]; [|done].
      destruct (negb _); [done|]. apply run_bind_ok in Hheld as (o2 & v5 & _ & Hheld). injection Hheld as Hheld _.
      case_bool_decide; [done|]. by injection Hheld as <-. }
    apply run_bind_ok in Hrun as (s' & v5 & Hmark & Hrun). injection Hrun as <- <-.
    pose proof (quiet_step k _ _ v4 (keeps_mark k (w_db v4) (plain CONNECTING)) (quiet_self _ _ _ Hq4)) as Hq5.
    change (mark k (plain CONNECTING)) with (mark_connecting k) in Hq5. rewrite Hmark in Hq5. cbn [snd] in Hq5.
    pose proof Hq4 as [Htx4 Hg4]. pose proof Hq5 as [_ Hg5].
    assert (Hg35 : good k (w_db v3) (w_db v5)) by (destruct Hg5 as [? ?]; by eapply good_trans).
    split; cbn; [done|done|exact Hw| | |].
    + eapply (store_window_good candle_stored candle_open_times); [exact Hg35|by apply Hc].
    + destruct v4 as [db tx n cc]. cbn in Htx4, Hg4. subst tx.
      assert (Hk4 : is_Some (ab_streams db !! k)).
      { apply (good_registered k (w_db v3)); [done|]. destruct Hq1 as [_ Hg1]. pose proof Hq3 as [_ Hg3].
        apply (good_registered k (w_db v1)); [done|]. by apply (good_registered k (w_db v)). }
      destruct Hk4 as [r4 Hr4]. destruct Hg4 as [Hi4 _].
      pose proof (run_mark_cases db n cc k r4 (plain CONNECTING) Hi4 Hr4) as Hm.
      change (mark k (plain CONNECTING)) with (mark_connecting k) in Hm. by rewrite Hmark in Hm.
    + eapply second_track_good; [exact Hg5|]. eapply not_proven_none; [|exact Hheld]. by apply quiet_self in Hq3.
  - by injection Hrun as <- <-.
  - apply run_bind_ok in Hrun as (u & v4 & _ & Hrun). injection Hrun as <- <-.
    by apply startup_failure_not_connecting in Hcls.
Qed.
End candle_pass.

(** A pass over a stream, with any pass of the second track. *)
Lemma reconcile_pass `{E : Env} (lower_bound : LowerBoundResolver) `{!LowerBoundSafe lower_bound}
    (repair : StreamRepair) `{!RepairPromise candle_stored repair} (discovery_windows repair_windows : Z)
    (open_interest : option (StreamKey → option ReconciliationWindow → M StartupStreamOutcome))
    `{!PassOptionSafe open_interest} (oi_streams : list StreamKey) (k : StreamKey)
    (window : option ReconciliationWindow) (a : AbsStore) (n c : nat) :
  store_inv a → is_Some (ab_streams a !! k) →
  let p := run (reconcile lower_bound repair discovery_windows repair_windows open_interest oi_streams k window)
             (mkWorld a None n c) in
  w_tx p.2 = None ∧ good k a (w_db p.2) ∧
  match p.1 with
  | Ok o => su_classification o = START_CONNECTING →
      ∃ w, connecting_report open_interest oi_streams k window (w_db p.2) o w
  | Raise e => exn_cls e = ExcInvalidStreamTransition
  end.
Proof.
  intros Hi Hk p. set (v := mkWorld a None n c). assert (Hq : quiet k a v) by (split; [done|by apply good_refl]).
  destruct (quiet_step k a _ v (keeps_reconcile lower_bound repair discovery_windows repair_windows open_interest
    oi_streams k a window) Hq) as [Htx Hg]. split; [exact Htx|]. split; [exact Hg|]. clear Htx Hg.
  unfold p, reconcile. rewrite run_try. cbv zeta. set (body := _ ← prepare_for_bootstrap k; _).
  fold v. destruct (run body v) as [[o|e] v1] eqn:Hrun; cbn [fst snd].
  - intros Hcls. unfold body in Hrun. apply run_bind_ok in Hrun as (s & v2 & Hprep & Hrun).
    pose proof (quiet_step k _ _ v (keeps_prepare_for_bootstrap k a) Hq) as Hq2. rewrite Hprep in Hq2. cbn [snd] in Hq2.
    assert (Hk2 : is_Some (ab_streams (w_db v2) !! k)) by (destruct Hq2 as [_ Hg2]; by apply (good_registered k a)).
    destruct window as [w|].
    { exists w. apply (reconcile_window_report repair repair_windows open_interest oi_streams k w (Some w) v2); try done.
      by apply quiet_self in Hq2. }
    apply run_bind_ok in Hrun as (lower & v3 & Hlow & Hrun).
    pose proof (quiet_step k a _ v2 (lower_bound_safe k a discovery_windows) Hq2) as Hq3. rewrite Hlow in Hq3.
    cbn [snd] in Hq3.
    destruct (lb_resolved lower), (lb_earliest_available_open_time_ms lower) as [start|]; try (injection Hrun as <- <-; done).
    apply run_bind_ok in Hrun as (ow & v4 & Hwin & Hrun). destruct ow as [w|]; [|by injection Hrun as <- <-].
    apply run_window_from_lower_bound in Hwin as (_ & Hb & ->). exists w.
    apply (reconcile_window_report repair repair_windows open_interest oi_streams k w None (tick v3)); try done.
    + by apply quiet_self in Hq3.
    + destruct Hq3 as [_ Hg3]. by apply (good_registered k a).
  - assert (Hq1 : quiet k a (run body v).2).
    { apply quiet_step; [|done]. unfold body. pose proof (keeps_reconcile_window repair repair_windows open_interest oi_streams k a).
      pose proof (lower_bound_safe k a discovery_windows).
      apply keeps_bind; [apply keeps_prepare_for_bootstrap|intros _]. destruct window; keeps_tac. }
    rewrite Hrun in Hq1. destruct Hq1 as [Htx1 Hg1]. cbn [snd] in Htx1, Hg1. rewrite run_bind.
    destruct (run (record_failure_state k _ _) v1) as [[u|e'] v2] eqn:Hrec; cbn [fst].
    + by intros ?%startup_failure_not_connecting.
    + apply (run_record_failure_state k _ _ v1 _ v2 Htx1) in Hrec; [by destruct Hrec|by destruct Hg1|].
      by apply (good_registered k a).
Qed.

(** *** The pass with the open interest track it is wired with *)

(** The parameters of [OpenInterestTrackReconciler]. *)
Record OiTrack := mkOiTrack {
  ok_lower_bound : LowerBoundResolver;
  ok_repair : StreamRepair;
  ok_discovery_windows : Z;
  ok_repair_windows : Z
}.
Definition track_pass (t : OiTrack) : StreamKey → option ReconciliationWindow → M StartupStreamOutcome :=
  oi_reconcile (ok_lower_bound t) (ok_repair t) (ok_discovery_windows t) (ok_repair_windows t).

Class OiTrackSafe `{E : Env} (t : OiTrack) : Prop := {
  ots_bound :: LowerBoundSafe (ok_lower_bound t);
  ots_repair :: RepairPromise oi_stored (ok_repair t)
}.
Class OiTrackOptionSafe `{E : Env} (t : option OiTrack) : Prop := oi_option_safe : from_option OiTrackSafe True t.

#[export] Instance oi_track_none_safe `{E : Env} : OiTrackOptionSafe None.
Proof. done. Qed.
#[export] Instance oi_track_some_safe `{E : Env} t `{H : !OiTrackSafe t} : OiTrackOptionSafe (Some t).
Proof. exact H. Qed.

#[export] Instance track_pass_safe `{E : Env} t `{!OiTrackOptionSafe t} : PassOptionSafe (track_pass <$> t).
Proof. destruct t as [t|]; [|done]. pose proof (oi_option_safe : OiTrackSafe t). unfold track_pass. cbn. exact _. Qed.

(** The open interest track is proven, by the pass that starts at [v], in the store [a']: its lower bound is
    resolved, and every point from it to the closed boundary at the reading of the clock that follows
    is stored - of which there is none when the bound is past that boundary. *)
Definition track_proven `{E : Env} (t : OiTrack) (k : StreamKey) (v : World AbsStore) (a' : AbsStore) : Prop :=
  ∃ lower v1 start, run (ok_lower_bound t k (ok_discovery_windows t)) v = (Ok lower, v1) ∧
    lb_resolved lower = true ∧ lb_earliest_available_open_time_ms lower = Some start ∧
    let now := env_clock (w_ticks v1) in
    store_window oi_stored k a' (mkReconciliationWindow start (now - now mod stream_step k)).

Lemma store_window_empty stored k a s e :
  is_Some (ab_streams a !! k) → e ≤ s → store_window stored k a (mkReconciliationWindow s e).
Proof. intros [r Hr] He. exists r. split; [done|]. cbn. lia. Qed.

Lemma run_window_from_lower_bound_cases `{E : Env} k s v ow v' :
  run (window_from_lower_bound k s) v = (Ok ow, v') →
  let now := env_clock (w_ticks v) in let e := now - now mod stream_step k in
  v' = tick v ∧ match ow with None => e ≤ s | Some w => w = mkReconciliationWindow s e end.
Proof.
  unfold window_from_lower_bound. rewrite run_bind, run_now, run_bind, run_lift, last_closed_ok
    by apply stream_step_pos. cbv zeta. set (e := _ + stream_step k).
  assert (He : e = env_clock (w_ticks v) - env_clock (w_ticks v) mod stream_step k) by (unfold e; lia).
  rewrite <-He. destruct (Z.leb_spec e s); [by intros [= <- <-]|]. rewrite run_bind, run_lift.
  unfold ReconciliationWindow_new. destruct (raise_if _ _ _); [|done]. by intros [= <- <-].
Qed.

Section track.
Context `{E : Env} (t : OiTrack) `{HT : !OiTrackSafe t}.

Lemma oi_repair_window_proven k w v o v' :
  quiet k (w_db v) v → run (oi_repair_window (ok_repair t) (ok_repair_windows t) k w) v = (Ok o, v') →
  su_classification o = START_CONNECTING → store_window oi_stored k (w_db v') w.
Proof.
  intros Hq Hrun Hc.
  assert (Ho : su_window o = Some w).
  { unfold oi_repair_window in Hrun. apply run_bind_ok in Hrun as (q & v1 & _ & Hrun).
    apply run_bind_ok in Hrun as (r & v2 & _ & Hrun). unfold oi_outcome in Hrun. cbv zeta in Hrun. destruct (rr_status r).
    - apply run_bind_ok in Hrun as (u & v3 & _ & Hrun). apply run_bind_ok in Hrun as (p & v4 & _ & Hrun). by injection Hrun as <- _.
    - by injection Hrun as <- _.
    - by injection Hrun as <- _. }
  destruct (oi_repair_window_report (ok_repair t) (ok_repair_windows t) k w (Some w) v o v' Hq Hrun) as [_ _ Hp];
    [by intros ? [= <-]|done|]. by destruct (Hp Hc w Ho).
Qed.

(** What it means that the pass reports the track as complete. *)
Lemma track_pass_proven k v o v' :
  quiet k (w_db v) v → is_Some (ab_streams (w_db v) !! k) → run (track_pass t k None) v = (Ok o, v') →
  su_classification o = START_CONNECTING → track_proven t k v (w_db v').
Proof.
  intros Hq Hk Hrun Hc. unfold track_pass, oi_reconcile in Hrun. rewrite run_try in Hrun.
  set (body := lower ← _; _) in Hrun. destruct (run body v) as [[o1|e] v1] eqn:Hb.
  2:{ apply run_bind_ok in Hrun as (u & v2 & _ & Hrun). injection Hrun as <- _. by apply startup_failure_not_connecting in Hc. }
  injection Hrun as <- <-. unfold body in Hb. apply run_bind_ok in Hb as (lower & v2 & Hlow & Hb).
  pose proof (quiet_step k _ _ v (lower_bound_safe k (w_db v) (ok_discovery_windows t)) Hq) as Hq2. rewrite Hlow in Hq2. cbn [snd] in Hq2.
  destruct (lb_resolved lower) eqn:Hres; [|by injection Hb as <- _].
  destruct (lb_earliest_available_open_time_ms lower) as [start|] eqn:Hstart; [|by injection Hb as <- _].
  apply run_bind_ok in Hb as (ow & v3 & Hwin & Hb).
  destruct (run_window_from_lower_bound_cases _ _ _ _ _ Hwin) as [-> Hw].
  exists lower, v2, start. do 3 (split; [done|]). cbv zeta. destruct ow as [w|].
  - subst w. eapply oi_repair_window_proven; [|exact Hb|exact Hc]. by apply quiet_self in Hq2.
  - injection Hb as _ <-. apply store_window_empty; [|done]. destruct Hq2 as [_ Hg]. by apply (good_registered k (w_db v)).
Qed.

Lemma track_proven_good k v a a' : good k a a' → track_proven t k v a → track_proven t k v a'.
Proof.
  intros Hg (lower & v1 & start & H1 & H2 & H3 & H4). exists lower, v1, start. do 3 (split; [done|]).
  eapply (store_window_good oi_stored open_interest_open_times); [exact Hg|exact H4].
Qed.
End track.

Section handover.
Context `{E : Env} (lower_bound : LowerBoundResolver) `{HL : !LowerBoundSafe lower_bound}
  (repair : StreamRepair) `{HP : !RepairPromise candle_stored repair} (discovery_windows repair_windows : Z)
  (track : option OiTrack) `{HO : !OiTrackOptionSafe track} (oi_streams : list StreamKey).

(** The pass of the candle track: the window and the repair of it, or none when no window is known. *)
Definition candle_pass (k : StreamKey) (window : option ReconciliationWindow) :
    M (option (ReconciliationWindow * RepairStreamGapsResult)) :=
  _ ← prepare_for_bootstrap k;
  ow ← match window with
       | Some w => mret (Some w)
       | None =>
           lower ← lower_bound k discovery_windows;
           match lb_resolved lower, lb_earliest_available_open_time_ms lower with
           | true, Some start => window_from_lower_bound k start
           | _, _ => mret None
           end
       end;
  match ow with
  | Some w =>
      _ ← mark_auditing k;
      request ← lift (repair_request k w repair_windows);
      r ← repair request;
      mret (Some (w, r))
  | None => mret None
  end.

Notation settle := (settle_repair (track_pass <$> track) oi_streams).

(** A pass is its candle pass and what follows its repair. *)
Definition pass_body (k : StreamKey) (window : option ReconciliationWindow) : M StartupStreamOutcome :=
  _ ← prepare_for_bootstrap k;
  match window with
  | Some w => reconcile_window repair repair_windows (track_pass <$> track) oi_streams k w
  | None =>
      lower ← lower_bound k discovery_windows;
      match lb_resolved lower, lb_earliest_available_open_time_ms lower with
      | true, Some start =>
          resolved ← window_from_lower_bound k start;
          match resolved with
          | None => mret (mkStartup k START_INCOMPLETE None None None None None no_work)
          | Some w => reconcile_window repair repair_windows (track_pass <$> track) oi_streams k w
          end
      | _, _ => mret (unresolved_outcome k lower)
      end
  end.

Lemma run_pass_window k w v :
  match run (_ ← mark_auditing k; request ← lift (repair_request k w repair_windows); r ← repair request;
             mret (Some (w, r))) v with
  | (Raise e, v1) => run (reconcile_window repair repair_windows (track_pass <$> track) oi_streams k w) v = (Raise e, v1)
  | (Ok (Some (w', r)), v1) =>
      run (reconcile_window repair repair_windows (track_pass <$> track) oi_streams k w) v = run (settle k w' r) v1
  | (Ok None, v1) => False
  end.
Proof.
  unfold reconcile_window. rewrite !run_bind. destruct (run (mark_auditing k) v) as [[s|e] v1]; [|done].
  rewrite !run_bind, !run_lift. destruct (repair_request k w repair_windows) as [q|e]; [|done].
  rewrite !run_bind. by destruct (run (repair q) v1) as [[r|e] v2].
Qed.

Lemma run_pass_body k window v :
  match run (candle_pass k window) v with
  | (Raise e, v1) => run (pass_body k window) v = (Raise e, v1)
  | (Ok None, v1) => ∃ o, run (pass_body k window) v = (Ok o, v1) ∧ su_stream o = k ∧ su_classification o = START_INCOMPLETE
  | (Ok (Some (w, r)), v1) => run (pass_body k window) v = run (settle k w r) v1
  end.
Proof.
  unfold candle_pass, pass_body. rewrite !run_bind. destruct (run (prepare_for_bootstrap k) v) as [[s|e] v1]; [|done].
  assert (Hwin : ∀ w v, match run (_ ← mark_auditing k; request ← lift (repair_request k w repair_windows);
      r ← repair request; mret (Some (w, r))) v with
    | (Raise e, v1) => run (reconcile_window repair repair_windows (track_pass <$> track) oi_streams k w) v = (Raise e, v1)
    | (Ok None, v1) => ∃ o, run (reconcile_window repair repair_windows (track_pass <$> track) oi_streams k w) v = (Ok o, v1) ∧
        su_stream o = k ∧ su_classification o = START_INCOMPLETE
    | (Ok (Some (w', r)), v1) =>
        run (reconcile_window repair repair_windows (track_pass <$> track) oi_streams k w) v = run (settle k w' r) v1
    end).
  { intros w v0. pose proof (run_pass_window k w v0) as H. by destruct (run _ v0) as [[[[? ?]|]|?] ?]. }
  destruct window as [w|]; [apply Hwin|]. rewrite !run_bind.
  destruct (run (lower_bound k discovery_windows) v1) as [[lower|e] v2]; [|done].
  destruct (lb_resolved lower); [|by eexists].
  destruct (lb_earliest_available_open_time_ms lower) as [start|]; [|by eexists].
  rewrite !run_bind. destruct (run (window_from_lower_bound k start) v2) as [[[w|]|e] v3]; [apply Hwin|by eexists|done].
Qed.

(** The open interest pass that follows the candle pass ends at [a'] and holds the stream back. *)
Definition held_back (k : StreamKey) (v1 : World AbsStore) (w : ReconciliationWindow) (w' : World AbsStore)
    (o : StartupStreamOutcome) : Prop :=
  ∃ t oo, track = Some t ∧ k ∈ oi_streams ∧ run (track_pass t k None) v1 = (Ok oo, w') ∧
    su_classification oo ≠ START_CONNECTING ∧ o = with_su_window (Some w) oo.

(** What a pass that returns [o] has done, from the world [v] to the world [w']. *)
Definition pass_report (k : StreamKey) (window : option ReconciliationWindow) (v w' : World AbsStore)
    (o : StartupStreamOutcome) : Prop :=
  match su_classification o with
  | START_CONNECTING => ∃ w r v1,
      connecting_report (track_pass <$> track) oi_streams k window (w_db w') o w ∧
      run (candle_pass k window) v = (Ok (Some (w, r)), v1) ∧ rr_status r = REPAIR_COMPLETE ∧
      match track with Some t => k ∈ oi_streams → track_proven t k v1 (w_db w') | None => True end
  | START_INCOMPLETE =>
      (∃ v1, run (candle_pass k window) v = (Ok None, v1)) ∨
      (∃ w r v1, run (candle_pass k window) v = (Ok (Some (w, r)), v1) ∧
         (rr_status r = REPAIR_INCOMPLETE ∨ rr_status r = REPAIR_COMPLETE ∧ held_back k v1 w w' o))
  | c =>
      failure_recorded k (w_db w') c ∨
      ∃ w r v1, run (candle_pass k window) v = (Ok (Some (w, r)), v1) ∧ rr_status r = REPAIR_COMPLETE ∧
        held_back k v1 w w' o
  end.

Lemma keeps_candle_pass k a0 window : keeps (good k a0) (candle_pass k window).
Proof.
  pose proof (lower_bound_safe k a0 discovery_windows). unfold candle_pass.
  apply keeps_bind; [apply keeps_prepare_for_bootstrap|intros _]. apply keeps_bind; [destruct window; keeps_tac|].
  intros [w|]; [|auto with keeps]. apply keeps_bind; [apply keeps_mark_auditing|intros _].
  apply (keeps_repair_request candle_stored); [exact _|]. intros r. auto with keeps.
Qed.

(** The open interest pass either lets the stream on, with its track proven, or holds it back. *)
Lemma not_proven_report k w v1 held v2 :
  quiet k (w_db v1) v1 → is_Some (ab_streams (w_db v1) !! k) →
  run (open_interest_not_proven (track_pass <$> track) oi_streams k w) v1 = (Ok held, v2) →
  match held with
  | None => match track with Some t => k ∈ oi_streams → track_proven t k v1 (w_db v2) | None => True end
  | Some o => held_back k v1 w v2 o ∧ su_stream o = k
  end.
Proof using HO.
  intros Hq Hk Hrun. unfold open_interest_not_proven in Hrun.
  destruct track as [t|] eqn:Ht; cbn [fmap option_fmap option_map] in Hrun; [|by injection Hrun as <- <-].
  pose proof (HO : OiTrackSafe t) as HT. case_bool_decide as Hin; cbn [negb] in Hrun; [|by injection Hrun as <- <-].
  apply run_bind_ok in Hrun as (oo & v3 & Hoo & Hrun). injection Hrun as Hheld <-. case_bool_decide as Hc; subst held.
  - intros _. by eapply track_pass_proven.
  - split; [by exists t, oo|]. cbn. destruct v1 as [db tx n1 c1], Hq as [Htx [Hi _]]. cbn in Htx, Hi. subst tx.
    pose proof (oi_reconcile_reports (ok_lower_bound t) (ok_repair t) (ok_discovery_windows t) (ok_repair_windows t)
      k None db n1 c1 Hi) as Hr. unfold track_pass in Hoo. rewrite Hoo in Hr. by destruct Hr as (_ & _ & [? _ _]).
Qed.

(** What follows the candle pass. *)
Lemma settle_report k window v w r v1 o v2 :
  quiet k (w_db v1) v1 → is_Some (ab_streams (w_db v1) !! k) →
  run (candle_pass k window) v = (Ok (Some (w, r)), v1) → run (settle k w r) v1 = (Ok o, v2) →
  (su_classification o = START_CONNECTING →
     ∃ w, connecting_report (track_pass <$> track) oi_streams k window (w_db v2) o w) →
  su_stream o = k ∧ pass_report k window v v2 o.
Proof using HO.
  intros Hq Hk Hrun Hset Hconn. unfold settle_repair in Hset. unfold pass_report. destruct (rr_status r) eqn:Hst.
  - apply run_bind_ok in Hset as (held & v3 & Hheld & Hset).
    pose proof (not_proven_report k w v1 held v3 Hq Hk Hheld) as Hh. destruct held as [o1|].
    + injection Hset as <- <-. destruct Hh as [Hh Ho]. split; [done|]. pose proof Hh as (t & oo & _ & _ & _ & Hne & Heq).
      destruct (su_classification o1) eqn:Hc; [subst o1; by destruct Hne| |right; by exists w, r, v1..].
      right. exists w, r, v1. split; [done|]. by right.
    + apply run_bind_ok in Hset as (s & v4 & Hmark & Hset). injection Hset as <- <-. split; [done|].
      cbn [su_classification] in *. exists w, r, v1. destruct (Hconn eq_refl) as [w0 Hw0].
      assert (w0 = w) as -> by (pose proof (cr_window _ _ _ _ _ _ _ Hw0) as Hww; cbn in Hww; congruence).
      split; [exact Hw0|]. split; [done|]. split; [done|].
      pose proof (quiet_step k _ _ v1 (keeps_not_proven (track_pass <$> track) oi_streams k (w_db v1) w) Hq) as Hq3.
      rewrite Hheld in Hq3. cbn [snd] in Hq3. destruct track as [t|]; [|done]. intros Hin.
      apply (track_proven_good t k v1 (w_db v3)); [|by apply Hh].
      pose proof (quiet_step k _ _ v3 (keeps_mark k (w_db v3) (plain CONNECTING)) (quiet_self _ _ _ Hq3)) as Hq4.
      change (mark k (plain CONNECTING)) with (mark_connecting k) in Hq4. rewrite Hmark in Hq4. by destruct Hq4.
  - injection Hset as <- <-. split; [done|]. cbn [su_classification]. right. exists w, r, v1. split; [done|]. by left.
  - apply run_bind_ok in Hset as (u & v3 & Hrec & Hset). injection Hset as <- <-. split; [done|].
    destruct Hq as [Htx [Hi _]]. apply (run_record_failure_state k _ _ v1 _ v3 Htx Hi Hk) in Hrec.
    cbn [su_classification]. unfold startup_failure in *. case_bool_decide; by left.
Qed.

(** What follows an exception. *)
Lemma failed_report k window v a v2 decision err detail :
  quiet k a v2 → is_Some (ab_streams a !! k) →
  let c := startup_failure (Some (sf_disposition decision)) in
  let p := run (_ ← record_failure_state k c (sf_code decision); mret (mkStartup k c None window err detail None no_work)) v2 in
  match p.1 with
  | Ok o => su_stream o = k ∧ pass_report k window v p.2 o
  | Raise e => exn_cls e = ExcInvalidStreamTransition ∧
      ∃ s, ab_streams (w_db p.2) !! k = Some s ∧ ss_state (sr_state s) ∈ [UNINITIALIZED; FAILED]
  end.
Proof.
  intros [Htx Hg] Hk c p. subst p. rewrite run_bind.
  destruct (run (record_failure_state k c (sf_code decision)) v2) as [u v3] eqn:Hrec.
  apply (run_record_failure_state k c _ v2 u v3 Htx) in Hrec; [|by destruct Hg|by apply (good_registered k a)].
  destruct u as [u|e]; cbn [fst snd].
  - split; [done|]. unfold pass_report. cbn [su_classification]. subst c. unfold startup_failure in *. case_bool_decide; by left.
  - destruct Hrec as (He & -> & Hs). done.
Qed.
End handover.


(** ** Examples: one missing bar is imported and the stream is handed over *)

#[local] Existing Instances recovery_env recovery_env_ok.

Definition example_window : ReconciliationWindow := mkReconciliationWindow 0 120000.
Definition example_bound : LowerBoundResolver := resolve_lower_bound candle_progress (candle_probe 1000).

Lemma oi_reconcile_reports_witness :
  let p := run (oi_reconcile example_bound (wired_oi_repair 200) 5 5 example_stream (Some example_window))
             (mkWorld recovery_store None 0 0) in
  su_classification <$> p.1 = Ok START_INCOMPLETE ∧
  match p with
  | (Ok o, w') => w_tx w' = None ∧ good example_stream recovery_store (w_db w') ∧
      oi_report example_stream (Some example_window) (w_db w') o
  | (Raise _, _) => False
  end.
Proof.
  intros p. split; [by vm_compute|].
  apply (oi_reconcile_reports example_bound (wired_oi_repair 200) 5 5 example_stream (Some example_window)
    recovery_store 0 0 recovery_store_inv).
Defined.

(** A five minute stream with open interest: nothing of its first two bars is stored. *)
Definition flagged_stream : StreamKey := mkStreamKey (mkInstrumentKey "BTCUSDT.P") TF_5m.
Definition flagged_rec : StreamRec :=
  mkStreamRec (mkSnapshot flagged_stream READY (Some 0) None None None None None None None 10 10) ∅ ∅ ∅.
Definition flagged_store : AbsStore :=
  mkAbsStore {[ flagged_stream := flagged_rec ]} {[ "BTCUSDT.P"%string := mkInstrumentRow "BTCUSDT" None None ]} [].
Definition flagged_candle (t : Z) : ObservedCandle :=
  mkObservedCandle flagged_stream t (t + 299999) (oc_values (example_candle 0 11 BYBIT_REST)) true 600000 BYBIT_REST.

Definition handover_env : Env := {|
  env_clock := λ n, 650000 + Z.of_nat n;
  env_fetch_closed_candles := λ _ _ _ _, Ok (map flagged_candle [0; 300000]);
  env_fetch_open_interest := λ _ k _ t, Ok (map (λ o, mkObservedOI k o (InStr "10.5") t) [0; 300000]);
  env_launch_time_ms := λ _ _, Ok 0;
  env_specification := λ _ i, Specification_new i "BTCUSDT" "linear" "LinearPerpetual" "Trading" "USDT" 0
|}.
#[local] Existing Instance handover_env.
Definition oi_bound : LowerBoundResolver := resolve_lower_bound oi_track_progress (open_interest_probe 200).
Definition handover_track : OiTrack := mkOiTrack oi_bound (wired_oi_repair 200) 5 5.
Definition handover_window : ReconciliationWindow := mkReconciliationWindow 0 600000.
Definition handover_pass : M StartupStreamOutcome :=
  reconcile example_bound (wired_repair 1000) 5 5 (track_pass <$> Some handover_track) [flagged_stream] flagged_stream
    (Some handover_window).

#[local] Instance handover_env_ok : EnvOk.
Proof. intros c k w t l [= <-]. repeat (constructor; [by apply (example_candle_parsed 0)|]). constructor. Qed.

Lemma flagged_store_inv : store_inv flagged_store.
Proof.
  intros k r Hk. unfold flagged_store in Hk. cbn [ab_streams] in Hk.
  apply lookup_singleton_Some in Hk as [<- <-]. split; [done| | |].
  - by apply (snapshot_check_ok _ (sr_state flagged_rec)).
  - apply map_Forall_empty.
  - intros t [? Ht]. done.
Qed.

#[local] Instance handover_track_safe : OiTrackSafe handover_track.
Proof. split; cbn; exact _. Qed.

