(* ===== verification/HistoricalWorker.v ===== *)
(** * The historical reconciliation worker

    runtime/historical_worker.py.  The worker owns the streams that startup left incomplete: one
    sequential pass at a time, the others in a queue.  [historical_step] is one atomic step of
    its task between awaits, or a call of [schedule]; the calls to the status store and the
    hand-over are the effects of a step.  The log lines are left out. *)

From S2P Require Import Prelude PyStr DecimalValues Timeframes Identity Gaps Candles StreamState.
From S2P Require Import Instruments OpenInterest Storage AbsStore Ingest ImportWindow UseCase Repair.
From S2P Require Import RealtimeFacts RealtimeRecovery RuntimeStatus PyFloat RecoveryWorker Reconciliation.

#[export] Instance HistoricalProgressMarker_eq_dec : EqDecision HistoricalProgressMarker.
Proof. solve_decision. Defined.

(** [_PendingStream] *)
Record PendingStream := mkPending {
  pd_stream : StreamKey;
  pd_window : option ReconciliationWindow;
  pd_failures : Z;
  pd_no_progress_attempts : Z;
  pd_due_at : float;
  pd_progress_marker : option HistoricalProgressMarker
}.

Record HistoricalConfig := mkHistoricalConfig {
  hc_base_backoff : float;
  hc_max_backoff : float;
  hc_yield_to_gate : bool
}.

Definition default_historical : HistoricalConfig := mkHistoricalConfig (float_of_Z 1) (float_of_Z 60) false.

Inductive HistoricalPC :=
| HistoricalIdle                                   (* at the head of the loop, or waiting *)
| HistoricalPass (p : PendingStream)               (* the gate and the thread of the pass *)
| HistoricalEnded (exc : option exn).

Record HistoricalWorker := mkHistoricalWorker {
  hw_queue : list PendingStream;
  hw_pc : HistoricalPC
}.

(** [__init__]: the outcomes that are not settled. *)
Definition unsettled (o : StartupStreamOutcome) : bool :=
  bool_decide (su_classification o ∈ [START_INCOMPLETE; START_RECOVERABLE_FAILURE]).

Definition HistoricalWorker_new (initial : list StartupStreamOutcome) : HistoricalWorker :=
  mkHistoricalWorker
    (map (λ o, mkPending (su_stream o) (su_window o) 0 0 (float_of_Z 0) (su_progress_marker o))
       (filter (λ o, unsettled o = true) initial))
    HistoricalIdle.

Inductive HistoricalEffect :=
| HistoricalBlocking (k : StreamKey) (reason : string)
| HistoricalClear (k : StreamKey)
| OnComplete (k : StreamKey).

Section historical.
Context (cfg : HistoricalConfig).

(** [min(self._max_backoff, self._base_backoff * (2 ** (n - 1)))]: the power is an integer, which
    has to fit a float for the product. *)
Definition historical_delay (n : Z) : res float :=
  _ ← raise_if (emax <=? n - 1) ExcOverflowError "int too large to convert to float";
  mret (fmin (hc_max_backoff cfg) (fmul (hc_base_backoff cfg) (float_of 1 (n - 1)))).

(** What an unsettled outcome makes of its stream, at [loop.time() = now]. *)
Definition requeue (now : float) (o : StartupStreamOutcome) (p : PendingStream) : res (PendingStream * string) :=
  let window := match su_window o with Some w => Some w | None => pd_window p end in
  if bool_decide (su_classification o = START_RECOVERABLE_FAILURE) then
    let failures := pd_failures p + 1 in
    delay ← historical_delay failures;
    mret (mkPending (pd_stream p) window failures (pd_no_progress_attempts p) (fadd now delay)
            (pd_progress_marker p), "historical_backoff"%string)
  else
    let progressed := bool_decide (is_Some (su_progress_marker o))
                      && bool_decide (su_progress_marker o ≠ pd_progress_marker p) in
    if progressed then
      mret (mkPending (pd_stream p) window 0 0 (float_of_Z 0) (su_progress_marker o),
            "historical_reconciliation"%string)
    else
      let attempts := pd_no_progress_attempts p + 1 in
      delay ← historical_delay attempts;
      mret (mkPending (pd_stream p) window 0 attempts (fadd now delay) (su_progress_marker o),
            "historical_no_progress_backoff"%string).

(** An iteration of [run] up to its pass. *)
Definition take_pending (now : float) (gate_locked : bool) (p : PendingStream) (queue : list PendingStream) :
    HistoricalWorker * list HistoricalEffect :=
  if fgt (pd_due_at p) now then (mkHistoricalWorker (queue ++ [p]) HistoricalIdle, [])
  else if hc_yield_to_gate cfg && gate_locked then (mkHistoricalWorker (p :: queue) HistoricalIdle, [])
  else (mkHistoricalWorker queue (HistoricalPass p),
        [HistoricalBlocking (pd_stream p) "historical_reconciliation"]).

(** The rest of the iteration, when the pass returned. *)
Definition finish_pass (now : float) (o : StartupStreamOutcome) (p : PendingStream) (queue : list PendingStream) :
    HistoricalWorker * list HistoricalEffect :=
  let k := pd_stream p in
  match su_classification o with
  | START_CONNECTING => (mkHistoricalWorker queue HistoricalIdle, [HistoricalClear k; OnComplete k])
  | START_FATAL_FAILURE =>
      (mkHistoricalWorker queue HistoricalIdle, [HistoricalBlocking k "historical_fatal_failure"])
  | _ =>
      match requeue now o p with
      | Ok (p, reason) => (mkHistoricalWorker (queue ++ [p]) HistoricalIdle, [HistoricalBlocking k reason])
      | Raise e => (mkHistoricalWorker queue (HistoricalEnded (Some e)), [])
      end
  end.

Inductive HistoricalLabel :=
| HistoricalTake (now : float) (gate_locked : bool)
| HistoricalFinish (now : float) (o : StartupStreamOutcome)
| HistoricalSchedule (k : StreamKey) (now delay_seconds : float)
| HistoricalStop
| HistoricalInterrupt (exc : exn).

Definition historical_step (w : HistoricalWorker) (l : HistoricalLabel) :
    option (HistoricalWorker * list HistoricalEffect) :=
  match l, hw_pc w with
  | HistoricalTake now locked, HistoricalIdle =>
      match hw_queue w with p :: queue => Some (take_pending now locked p queue) | [] => None end
  | HistoricalFinish now o, HistoricalPass p => Some (finish_pass now o p (hw_queue w))
  | HistoricalSchedule k now delay, _ =>
      Some (mkHistoricalWorker
              (hw_queue w ++ [mkPending k None 0 0 (fadd now (fmax (float_of_Z 0) delay)) None]) (hw_pc w), [])
  | HistoricalStop, HistoricalIdle => Some (mkHistoricalWorker (hw_queue w) (HistoricalEnded None), [])
  | HistoricalInterrupt e, (HistoricalIdle | HistoricalPass _) =>
      Some (mkHistoricalWorker (hw_queue w) (HistoricalEnded (Some e)), [])
  | _, _ => None
  end.

(** ** Runs *)

(** Whether a step takes the head of the queue off it: every iteration does, unless the worker
    gives way to another owner of the gate. *)
Definition takes_turn (w : HistoricalWorker) (l : HistoricalLabel) : nat :=
  match l, hw_queue w with
  | HistoricalTake now locked, p :: _ =>
      if negb (fgt (pd_due_at p) now) && (hc_yield_to_gate cfg && locked) then 0%nat else 1%nat
  | _, _ => 0%nat
  end.

(** The steps of a run: where it ends, its effects and its turns. *)
Fixpoint historical_run (w : HistoricalWorker) (ls : list HistoricalLabel) :
    option (HistoricalWorker * list HistoricalEffect * nat) :=
  match ls with
  | [] => Some (w, [], 0%nat)
  | l :: ls =>
      '(w1, e1) ← historical_step w l;
      '(w2, e2, n) ← historical_run w1 ls;
      Some (w2, e1 ++ e2, (takes_turn w l + n)%nat)
  end.
End historical.

(** The streams the worker has: the one in its pass and those waiting. *)
Definition hw_owned (w : HistoricalWorker) : list StreamKey :=
  match hw_pc w with HistoricalPass p => [pd_stream p] | _ => [] end ++ map pd_stream (hw_queue w).

(** The worker's task has not failed. *)
Definition hw_alive (w : HistoricalWorker) : Prop :=
  match hw_pc w with HistoricalEnded (Some _) => False | _ => True end.

(** The stream an effect settles: handed over, or given up as fatal. *)
Definition settles (e : HistoricalEffect) : list StreamKey :=
  match e with
  | OnComplete k => [k]
  | HistoricalBlocking k reason => if String.eqb reason "historical_fatal_failure" then [k] else []
  | HistoricalClear _ => []
  end.

Definition scheduled_stream (l : HistoricalLabel) : list StreamKey :=
  match l with HistoricalSchedule k _ _ => [k] | _ => [] end.

(** ** Ownership and turns *)

Lemma requeue_stream cfg now o p p' reason :
  requeue cfg now o p = Ok (p', reason) →
  pd_stream p' = pd_stream p ∧ String.eqb reason "historical_fatal_failure" = false.
Proof.
  unfold requeue. cbv zeta. destruct (bool_decide _).
  - unfold mbind, res_bind. destruct (historical_delay _ _); [|done]. by intros [= <- <-].
  - destruct (_ && _); [by intros [= <- <-]|].
    unfold mbind, res_bind. destruct (historical_delay _ _); [|done]. by intros [= <- <-].
Qed.

(** What the end of a pass does to the streams: the one of the pass is settled, is waiting again
    behind all others, or the worker fails. *)
Lemma finish_pass_streams cfg now o p queue :
  let '(w', effects) := finish_pass cfg now o p queue in
  hw_alive w' →
  (effects ≫= settles = [pd_stream p] ∧ hw_owned w' = map pd_stream queue ∧ hw_queue w' = queue) ∨
  (effects ≫= settles = [] ∧ ∃ p', pd_stream p' = pd_stream p ∧ hw_pc w' = HistoricalIdle ∧
     hw_queue w' = queue ++ [p']).
Proof.
  unfold finish_pass.
  destruct (su_classification o); cbn [hw_alive hw_pc]; try (intros _; by left);
    (destruct (requeue cfg now o p) as [[p' reason]|e] eqn:Hr; [|by intros []]);
    apply requeue_stream in Hr as [Hs Hf]; intros _; right;
    (split; [cbn; by rewrite Hf|by exists p']).
Qed.

Lemma historical_step_streams cfg w l w' effects :
  historical_step cfg w l = Some (w', effects) → hw_alive w' →
  (effects ≫= settles) ++ hw_owned w' ≡ₚ hw_owned w ++ scheduled_stream l.
Proof.
  unfold hw_owned. destruct l as [now locked|now o|k now d| |e]; cbn [historical_step scheduled_stream];
    rewrite ?app_nil_r.
  - destruct (hw_pc w); [|done|done]. destruct (hw_queue w) as [|p q]; [done|]. unfold take_pending.
    destruct (fgt _ _); [intros [= <- <-] _|].
    + cbn. rewrite map_app. cbn. by rewrite Permutation_app_comm.
    + by destruct (_ && _); intros [= <- <-] _.
  - destruct (hw_pc w) as [|p|e]; [done| |done]. intros [= Hw] Ha.
    pose proof (finish_pass_streams cfg now o p (hw_queue w)) as H. rewrite Hw in H.
    destruct (H Ha) as [(-> & Ho & _)|(-> & p' & Hs & -> & ->)].
    + unfold hw_owned in Ho. by rewrite Ho.
    + rewrite map_app. cbn. rewrite Hs. by rewrite Permutation_app_comm.
  - intros [= <- <-] _. cbn. by rewrite map_app, app_assoc.
  - destruct (hw_pc w); [|done|done]. by intros [= <- <-] _.
  - destruct (hw_pc w); try done; by intros [= <- <-] [].
Qed.

(** A step never lets a stream overtake one that waits before it. *)
Lemma historical_step_turn cfg w l w' effects l1 p l2 :
  historical_step cfg w l = Some (w', effects) → hw_alive w' → hw_queue w = l1 ++ p :: l2 →
  (takes_turn cfg w l ≤ length l1)%nat →
  ∃ l2', hw_queue w' = drop (takes_turn cfg w l) l1 ++ p :: l2'.
Proof.
  intros H Ha Hq. unfold takes_turn. rewrite Hq.
  destruct l as [now locked|now o|k now d| |e]; cbn [historical_step] in H.
  - destruct (hw_pc w); [|done|done]. rewrite Hq in H. unfold take_pending in H.
    destruct l1 as [|a l1]; cbn [app] in *.
    + destruct (fgt _ _); cbn [negb andb] in *; [cbn; lia|].
      destruct (_ && _); [|cbn; lia]. intros _. injection H as [= <- _]. by exists l2.
    + intros _. destruct (fgt _ _); cbn [negb andb drop] in *.
      * injection H as [= <- _]. cbn [hw_queue]. exists (l2 ++ [a]). rewrite drop_0. by rewrite <-app_assoc.
      * destruct (_ && _); injection H as [= <- _]; cbn; rewrite ?drop_0; by exists l2.
  - intros _. destruct (hw_pc w) as [|q|e]; [done| |done]. injection H as [= Hw].
    pose proof (finish_pass_streams cfg now o q (hw_queue w)) as Hf. rewrite Hw in Hf.
    destruct (Hf Ha) as [(_ & _ & ->)|(_ & p' & _ & _ & ->)]; rewrite Hq; [by exists l2|].
    exists (l2 ++ [p']). cbn. by rewrite <-app_assoc.
  - intros _. injection H as [= <- _]. cbn [hw_queue]. rewrite Hq, <-app_assoc. by eexists.
  - intros _. destruct (hw_pc w); [|done|done]. injection H as [= <- _]. by exists l2.
  - intros _. destruct (hw_pc w); try done; injection H as [= <- _]; by exists l2.
Qed.

Lemma historical_run_alive cfg w ls r : historical_run cfg w ls = Some r → hw_alive r.1.1 → hw_alive w.
Proof.
  revert w r. induction ls as [|l ls IH]; intros w r; cbn [historical_run]; [by intros [= <-]|].
  destruct (historical_step cfg w l) as [[w1 e1]|] eqn:Hs; [cbn|done].
  destruct (historical_run cfg w1 ls) as [[[w2 e2] n]|] eqn:Hr; [cbn|done]. intros [= <-] Ha.
  apply (IH w1 _ Hr) in Ha. unfold hw_alive. destruct (hw_pc w) as [| |[e|]] eqn:Hp; try done.
  destruct l; cbn in Hs; rewrite Hp in Hs; try done. by injection Hs as [= <- _].
Qed.

(** C32. The worker loses no stream, duplicates none and starves none.  Over any sequence of
    iterations, passes and schedule calls, as long as its task has not failed, the streams it has
    are those it started with and the scheduled ones, except those it handed over as connected or
    gave up as fatal.  And the streams take their turns in order: one with n others before it is
    the head of the queue after n turns, whatever the passes of the others come to; a stream put
    back goes behind all that wait. *)
Theorem historical_streams_kept cfg w ls w' effects turns :
  historical_run cfg w ls = Some (w', effects, turns) → hw_alive w' →
  (effects ≫= settles) ++ hw_owned w' ≡ₚ hw_owned w ++ (ls ≫= scheduled_stream) ∧
  (∀ l1 p l2, hw_queue w = l1 ++ p :: l2 → (turns ≤ length l1)%nat →
     ∃ l2', hw_queue w' = drop turns l1 ++ p :: l2').
Proof.
  revert w effects turns. induction ls as [|l ls IH]; intros w effects turns; cbn [historical_run].
  { intros [= <- <- <-] _. split; [by rewrite app_nil_r|]. intros l1 p l2 -> _. by exists l2. }
  destruct (historical_step cfg w l) as [[w1 e1]|] eqn:Hs; [cbn|done].
  destruct (historical_run cfg w1 ls) as [[[w2 e2] n]|] eqn:Hr; [cbn|done]. intros [= <- <- <-] Ha.
  destruct (IH w1 e2 n Hr Ha) as [Hp Hq]. pose proof (historical_run_alive _ _ _ _ Hr Ha) as Ha1.
  split.
  - rewrite bind_app, <-app_assoc, Hp, app_assoc, (historical_step_streams _ _ _ _ _ Hs Ha1).
    by rewrite <-app_assoc.
  - intros l1 p l2 Hl Hn.
    destruct (historical_step_turn _ _ _ _ _ _ _ _ Hs Ha1 Hl ltac:(lia)) as [l3 H3].
    destruct (Hq _ _ _ H3) as [l4 H4]; [rewrite length_drop; lia|].
    exists l4. by rewrite H4, drop_drop.
Qed.

Definition example_pending (symbol : string) : PendingStream :=
  mkPending (mkStreamKey (mkInstrumentKey symbol) TF_1m) None 0 0 (float_of_Z 0) None.
Definition example_outcome (c : StartupClassification) : StartupStreamOutcome :=
  mkStartup (mkStreamKey (mkInstrumentKey "BTCUSDT.P") TF_1m) c None None None None None no_work.

(** Two streams: the first makes no progress and is put back with a second of backoff, the second
    is handed over, and the worker finds the first one not due. *)
Definition example_labels : list HistoricalLabel :=
  [HistoricalTake (float_of_Z 10) false; HistoricalFinish (float_of_Z 11) (example_outcome START_INCOMPLETE);
   HistoricalTake (float_of_Z 11) false; HistoricalFinish (float_of_Z 12) (example_outcome START_CONNECTING);
   HistoricalSchedule (mkStreamKey (mkInstrumentKey "SOLUSDT.P") TF_1m) (float_of_Z 12) (float_of_Z 5);
   HistoricalTake (float_of_Z 11) false].

Definition example_worker : HistoricalWorker :=
  mkHistoricalWorker [example_pending "BTCUSDT.P"; example_pending "ETHUSDT.P"] HistoricalIdle.

Lemma historical_streams_kept_witness :
  match historical_run default_historical example_worker example_labels with
  | Some (w', effects, turns) =>
      turns = 3%nat ∧ effects ≫= settles = [mkStreamKey (mkInstrumentKey "ETHUSDT.P") TF_1m] ∧
      map (λ p, ticker (instrument (pd_stream p))) (hw_queue w') = ["SOLUSDT.P"; "BTCUSDT.P"]%string ∧
      map pd_due_at (hw_queue w') = [float_of_Z 17; float_of_Z 12] ∧
      (effects ≫= settles) ++ hw_owned w' ≡ₚ
        hw_owned example_worker ++ (example_labels ≫= scheduled_stream)
  | None => False
  end.
Proof.
  destruct (historical_run default_historical example_worker example_labels) as [[[w' effects] turns]|] eqn:H;
    [|by vm_compute in H].
  pose proof (historical_streams_kept _ _ _ _ _ _ H) as Hk. vm_compute in H. injection H as [= <- <- <-].
  repeat (split; [reflexivity|]). by apply Hk.
Defined.

(** ** Backoff *)

Lemma historical_delays_table :
  forallb (λ n, bool_decide (historical_delay default_historical (Z.of_nat n) =
                             Ok (float_of_Z (Z.min 60 (2 ^ (Z.of_nat n - 1))))))
    (seq 1 1024) = true.
Proof. by vm_compute. Qed.

(** The delays at the default settings double from one second up to sixty, and the 1025th raises. *)
Lemma historical_backoff n :
  1 ≤ n →
  historical_delay default_historical n =
  if n <=? 1024 then Ok (float_of_Z (Z.min 60 (2 ^ (n - 1))))
  else raise ExcOverflowError "int too large to convert to float".
Proof.
  intros Hn. destruct (Z.leb_spec n 1024) as [H1|H1].
  - pose proof historical_delays_table as H. rewrite forallb_forall in H.
    specialize (H (Z.to_nat n)). rewrite in_seq, bool_decide_eq_true, Z2Nat.id in H by lia. apply H. lia.
  - unfold historical_delay, emax. by rewrite (proj2 (Z.leb_le 1024 (n - 1))) by lia.
Qed.
