(* ===== verification/Progress.v ===== *)
(** * Progress of repairs and reconciliation passes

    What the audit, repair and reconciliation of the other files promise only when they return,
    strengthened to what they achieve: with an exchange that answers with the closed bars it was
    asked for ([HonestExchange]) and a clock that does not run before the epoch, a repair of a
    registered stream always returns, never fails, and either stores every bar of its range or
    removes at least one missing bar per window of its budget.  Repeated passes of the startup
    reconciliation therefore hand the stream over, after at most as many passes as bars are
    missing. *)

From S2P Require Import Prelude PyStr DecimalValues Timeframes Identity Gaps Candles StreamState.
From S2P Require Import Instruments OpenInterest Storage AbsStore Ingest ImportWindow UseCase LowerBound Repair.
From S2P Require Import OpenInterestTrack RealtimeFacts Supervisor Continuity LifecycleUpdate RealtimeRecovery.
From S2P Require Import RuntimeStatus Reconciliation.

(** ** The bars a stream lacks *)

Definition bar_stored (k : StreamKey) (a : AbsStore) (t : Z) : Prop :=
  is_Some (ab_streams a !! k ≫= λ r, sr_candles r !! t).

#[export] Instance bar_stored_dec k a t : Decision (bar_stored k a t).
Proof. unfold bar_stored. apply _. Defined.

Definition grid_points (from to step : Z) : list Z :=
  (λ i, from + Z.of_nat i * step) <$> seq 0 (grid_steps from to step).

(** The grid points of a range whose bar is not stored. *)
Definition missing_bars (k : StreamKey) (from to : Z) (a : AbsStore) : list Z :=
  filter (λ t, ¬ bar_stored k a t) (grid_points from to (stream_step k)).

Lemma grid_points_elem from to step t :
  0 < step → on_grid step from → on_grid step to →
  t ∈ grid_points from to step ↔ on_grid step t ∧ from ≤ t < to.
Proof.
  unfold grid_points, grid_steps, on_grid. intros Hs Hf Ht. rewrite list_elem_of_fmap. setoid_rewrite elem_of_seq.
  pose proof (Z.div_mod (to - from + step - 1) step ltac:(lia)) as Hd.
  pose proof (Z.mod_pos_bound (to - from + step - 1) step Hs) as Hb. set (q := (to - from + step - 1) / step) in *.
  split.
  - intros (i & -> & _ & Hi). split; [rewrite Z.mul_comm, (Z.mul_comm step); by rewrite Z_mod_add_mult|]. split; [lia|].
    assert (Z.of_nat i + 1 ≤ q) by lia. nia.
  - intros [Hg Hr]. exists (Z.to_nat ((t - from) / step)).
    assert (Hdiv : (step | t - from)) by (apply Z.mod_divide; [lia|by apply Z_mod0_sub]).
    destruct Hdiv as [x Hx]. rewrite Hx, Z.div_mul by lia. assert (0 ≤ x) by nia. split; [lia|]. nia.
Qed.

Lemma grid_points_NoDup from to step : 0 < step → NoDup (grid_points from to step).
Proof. intros Hs. apply NoDup_fmap_2; [|apply NoDup_seq]. intros i j. nia. Qed.

Lemma bar_stored_frame k a a' t : stream_frame k a a' → bar_stored k a t → bar_stored k a' t.
Proof.
  intros [_ Hs Hr]. unfold bar_stored. destruct (ab_streams a !! k) as [r|] eqn:E; [|by intros [? ?]].
  destruct (proj1 Hs (ex_intro _ r eq_refl)) as [r' E']. rewrite E'. cbn. by apply (Hr r r').
Qed.

Lemma bar_stored_rec k a r t : ab_streams a !! k = Some r → bar_stored k a t ↔ candle_stored r t.
Proof. intros Hr. unfold bar_stored. by rewrite Hr. Qed.

(** New bars leave fewer missing ones. *)
Lemma missing_bars_decrease k from to a a' l :
  on_grid (stream_step k) from → on_grid (stream_step k) to → stream_frame k a a' → NoDup l →
  (∀ t, t ∈ l → on_grid (stream_step k) t ∧ from ≤ t < to ∧ ¬ bar_stored k a t ∧ bar_stored k a' t) →
  (length (missing_bars k from to a') + length l ≤ length (missing_bars k from to a))%nat.
Proof.
  intros Hf Ht Hfr Hnd Hl. pose proof (stream_step_pos k) as Hs.
  rewrite Nat.add_comm, <- length_app. apply submseteq_length, NoDup_submseteq.
  - apply NoDup_app. split; [done|]. split; [|by apply NoDup_filter, grid_points_NoDup].
    intros t Htl [Hn _]%list_elem_of_filter. by apply Hl in Htl as (_ & _ & _ & ?).
  - intros t [Htl|[Hn Hg]%list_elem_of_filter]%elem_of_app; apply list_elem_of_filter.
    + apply Hl in Htl as (? & ? & ? & _). split; [done|]. by apply grid_points_elem.
    + split; [|done]. intros Hst. by apply Hn, (bar_stored_frame k a).
Qed.

Lemma missing_bars_nil k from to a :
  on_grid (stream_step k) from → on_grid (stream_step k) to →
  missing_bars k from to a = [] ↔ ∀ t, on_grid (stream_step k) t → from ≤ t < to → bar_stored k a t.
Proof.
  intros Hf Ht. pose proof (stream_step_pos k) as Hs. unfold missing_bars. split.
  - intros H t Hg Hr. apply dec_stable. intros Hn.
    by apply (filter_nil_not_elem_of _ _ t H Hn), grid_points_elem.
  - intros H. apply elem_of_nil_inv. intros t [Hn Hg]%list_elem_of_filter.
    apply grid_points_elem in Hg as [Hg Hr]; [|done..]. by apply Hn, H.
Qed.

(** ** The windows a repair plans *)

(** An aligned window inside the range that one request can cover: the candle source takes at most
    1000 candles. *)
Record fetchable (step from to : Z) (w : TimeWindow) : Prop := {
  fe_wf : window_wf w;
  fe_start : on_grid step (start_ms w);
  fe_end : on_grid step (end_ms w);
  fe_from : from ≤ start_ms w;
  fe_to : end_ms w ≤ to;
  fe_size : end_ms w - start_ms w ≤ step * 1000
}.

Lemma fetchable_widen step lo hi from to w : lo ≤ from → to ≤ hi → fetchable step from to w → fetchable step lo hi w.
Proof. intros ? ? [H1 H2 H3 H4 H5 H6]. split; (done || lia). Qed.

(** Aligned windows inside the range, one after the other, that start at points of the gaps and
    together hold all of them. *)
Record window_plan (step from to : Z) (gaps : list Gap) (ws : list TimeWindow) : Prop := {
  wp_windows : Forall (λ w, fetchable step from to w ∧ in_gaps (start_ms w) gaps) ws;
  wp_sorted : StronglySorted (λ w v, end_ms w ≤ start_ms v) ws;
  wp_cover : ∀ t, in_gaps t gaps → ∃ w, w ∈ ws ∧ window_contains w t = true
}.

Lemma window_chain_sorted a b ws : window_chain a b ws → StronglySorted (λ w v, end_ms w ≤ start_ms v) ws.
Proof.
  revert a. induction ws as [|w ws IH]; intros a; [constructor|]. intros (_ & _ & Hch).
  constructor; [by eapply IH|]. apply Forall_forall. intros v Hv.
  by apply (window_chain_inside _ _ _ _ Hch) in Hv as [? _].
Qed.

Lemma in_gaps_cons t g gaps : in_gaps t (g :: gaps) ↔ in_gap t g ∨ in_gaps t gaps.
Proof.
  unfold in_gaps. setoid_rewrite elem_of_cons. split.
  - intros (h & [->|H] & Hh); [by left|right; by exists h].
  - intros [H|(h & H & Hh)]; [exists g|exists h]; auto.
Qed.

Lemma planned_windows_ok k m from to gaps :
  0 < m ≤ 1000 → Forall (λ g, from ≤ gap_start g ∧ gap_start g < gap_end g ∧ gap_end g ≤ to) gaps →
  Forall (λ g, on_grid (stream_step k) (gap_start g) ∧ on_grid (stream_step k) (gap_end g)) gaps →
  StronglySorted (λ g h, gap_end g < gap_start h) gaps →
  ∃ ws, planned_windows k m gaps = map Ok ws ∧ window_plan (stream_step k) from to gaps ws.
Proof.
  intros Hm. revert from. induction gaps as [|g gaps IH]; intros from Hin Hal Hsep.
  { exists []. split; [done|]. split; [constructor|constructor|]. by intros t (g & ?%elem_of_nil & _). }
  apply Forall_cons in Hin as [(H1 & H2 & H3) Hin]. apply Forall_cons in Hal as [[Ha Hb] Hal].
  apply StronglySorted_inv in Hsep as [Hsep Hg]. pose proof (stream_step_pos k) as Hs.
  destruct (iter_fetch_windows_ok g (stream_step k) m H2) as (ws1 & Hws1 & Hch & Hok & _).
  { unfold fetch_input_ok, on_grid in *. lia. }
  destruct (IH (gap_end g)) as (ws2 & Hws2 & [Hw2 Hs2 Hc2]); [|done|done|].
  { apply Forall_forall. intros h Hh. rewrite Forall_forall in Hin, Hg. specialize (Hin h Hh). specialize (Hg h Hh). lia. }
  exists (ws1 ++ ws2). cbn [planned_windows]. rewrite Hws1, Hws2, map_app. split; [done|].
  assert (Hin1 : ∀ w, w ∈ ws1 → gap_start g ≤ start_ms w ∧ end_ms w ≤ gap_end g)
    by (intros w; by apply window_chain_inside).
  rewrite Forall_forall in Hok, Hw2. split.
  - apply Forall_forall. intros w [Hw|Hw]%elem_of_app.
    + destruct (Hin1 w Hw). destruct (Hok w Hw) as (Hwf & ? & ? & ?). unfold window_wf in Hwf.
      split; [split; (done || nia)|]. apply in_gaps_cons. left. unfold in_gap. lia.
    + destruct (Hw2 w Hw) as [Hfe ?]. split; [by eapply fetchable_widen; [| |exact Hfe]; lia|]. apply in_gaps_cons. by right.
  - apply StronglySorted_app. split; [|by split; [eapply window_chain_sorted|]]. intros w v Hw Hv.
    destruct (Hin1 w Hw). destruct (Hw2 v Hv) as [[_ _ _ ? _ _] _]. lia.
  - intros t [Ht|Ht]%in_gaps_cons.
    + unfold in_gap in Ht. apply (window_chain_cover _ _ ws1) in Ht as (w & Hw & Hc); [|done].
      exists w. split; [apply elem_of_app; by left|done].
    + apply Hc2 in Ht as (w & Hw & Hc). exists w. split; [apply elem_of_app; by right|done].
Qed.

Lemma window_plan_starts step from to gaps ws n :
  window_plan step from to gaps ws → NoDup (map start_ms (take n ws)).
Proof.
  intros [Hw Hs _]. revert n. induction Hs as [|w ws Hs IH Hlt]; intros [|n]; cbn; [constructor..|].
  apply Forall_cons in Hw as [[[Hw0 _ _ _ _ _] _] Hw]. constructor; [|by apply IH].
  intros (v & Hv & Hin)%list_elem_of_fmap. apply elem_of_take in Hin as (i & Hi & _).
  apply list_elem_of_lookup_2 in Hi. rewrite Forall_forall in Hlt. specialize (Hlt v Hi).
  unfold window_wf in Hw0. lia.
Qed.

(** *** The count of a progress marker *)

Lemma grid_points_length from to step :
  0 < step → on_grid step from → on_grid step to → from ≤ to →
  Z.of_nat (length (grid_points from to step)) = (to - from) / step.
Proof.
  intros Hs Hf Ht Hle. unfold grid_points, grid_steps. rewrite length_fmap, length_seq.
  assert (Hdiv : (step | to - from)) by (apply Z.mod_divide; [lia|by apply Z_mod0_sub]).
  destruct Hdiv as [x Hx]. replace (to - from + step - 1) with (step - 1 + x * step) by lia.
  rewrite Z.div_add, (Z.div_small (step - 1)), Hx, Z.div_mul by lia. assert (0 ≤ x) by nia. lia.
Qed.

Definition gap_points (step : Z) (gaps : list Gap) : list Z :=
  gaps ≫= λ g, grid_points (gap_start g) (gap_end g) step.

Section gap_points.
Context (step lo hi : Z) (Hstep : 0 < step).

Lemma gap_points_elem gaps t :
  Forall (λ g, on_grid step (gap_start g) ∧ on_grid step (gap_end g)) gaps →
  t ∈ gap_points step gaps ↔ on_grid step t ∧ in_gaps t gaps.
Proof using Hstep.
  intros HF. rewrite Forall_forall in HF. unfold gap_points, in_gaps. rewrite list_elem_of_bind. split.
  - intros (g & Hg & Hin). destruct (HF g Hin) as [Ha Hb]. apply grid_points_elem in Hg as [Ht Hr]; [|done..].
    split; [done|by exists g].
  - intros [Ht (g & Hin & Hg)]. destruct (HF g Hin) as [Ha Hb]. exists g. split; [|done]. by apply grid_points_elem.
Qed.

Lemma gap_points_length gaps :
  Forall (λ g, lo ≤ gap_start g ∧ gap_start g < gap_end g ∧ gap_end g ≤ hi) gaps →
  Forall (λ g, on_grid step (gap_start g) ∧ on_grid step (gap_end g)) gaps →
  foldr Z.add 0 (map (λ g, (gap_end g - gap_start g) / step) gaps) = Z.of_nat (length (gap_points step gaps)).
Proof using Hstep.
  unfold gap_points. induction gaps as [|g gaps IH]; intros Hin Hal; [done|]. cbn [map foldr].
  apply Forall_cons in Hin as [? Hin]. apply Forall_cons in Hal as [[? ?] Hal].
  rewrite bind_cons, length_app, Nat2Z.inj_add, grid_points_length, IH by (done || lia). done.
Qed.

Lemma gap_points_NoDup gaps :
  Forall (λ g, lo ≤ gap_start g ∧ gap_start g < gap_end g ∧ gap_end g ≤ hi) gaps →
  Forall (λ g, on_grid step (gap_start g) ∧ on_grid step (gap_end g)) gaps →
  StronglySorted (λ g h, gap_end g < gap_start h) gaps → NoDup (gap_points step gaps).
Proof using Hstep.
  induction gaps as [|g gaps IH]; intros Hin Hal Hsep; [constructor|].
  apply Forall_cons in Hin as [? Hin]. apply Forall_cons in Hal as [[Ha Hb] Hal].
  apply StronglySorted_inv in Hsep as [Hsep Hg]. unfold gap_points. rewrite bind_cons.
  apply NoDup_app. split; [by apply grid_points_NoDup|]. split; [|by apply IH].
  intros t [_ Ht]%grid_points_elem [_ (h & Hh & Hth)]%gap_points_elem; [|done..].
  rewrite Forall_forall in Hg. specialize (Hg h Hh). unfold in_gap in Hth. lia.
Qed.
End gap_points.

(** The candles a report still misses, counted gap by gap, are the missing bars. *)
Lemma missing_count k from to a gaps :
  on_grid (stream_step k) from → on_grid (stream_step k) to →
  gaps_spec (bar_stored k a) from to (stream_step k) gaps →
  foldr Z.add 0 (map (λ g, (gap_end g - gap_start g) / stream_step k) gaps) =
    Z.of_nat (length (missing_bars k from to a)).
Proof.
  intros Hf Ht [Hin Hal Hsep Hcov]. pose proof (stream_step_pos k) as Hs.
  rewrite (gap_points_length (stream_step k) from to Hs gaps Hin Hal). f_equal. apply Permutation_length, NoDup_Permutation.
  - by apply (gap_points_NoDup (stream_step k) from to Hs).
  - by apply NoDup_filter, grid_points_NoDup.
  - intros t. rewrite (gap_points_elem _ Hs _ _ Hal). unfold missing_bars. rewrite list_elem_of_filter, grid_points_elem by done.
    split.
    + intros [Hg Hin']. assert (Hr : from ≤ t < to).
      { destruct Hin' as (g & Hg1 & Hg2). rewrite Forall_forall in Hin. specialize (Hin g Hg1). unfold in_gap in Hg2. lia. }
      split; [by apply (Hcov t Hg Hr)|done].
    + intros (Hn & Hg & Hr). split; [done|]. by apply (Hcov t Hg Hr).
Qed.

(** ** An exchange that answers *)

(** From the call [c0] on, the exchange answers every window of the stream inside [[lo, hi)] that one
    request can cover, at any time of the clock, with parsed candles, among them a valid one for
    each bar of the window; it may add others. *)
Class HonestExchange `{E : Env} (k : StreamKey) (lo hi : Z) (c0 : nat) : Prop :=
  honest_fetch : ∀ c w n, (c0 ≤ c)%nat → fetchable (stream_step k) lo hi w →
    ∃ l, env_fetch_closed_candles c k w (env_clock n) = Ok l ∧ Forall (λ cd, ohlcv_parsed (oc_values cd)) l ∧
      ∀ u, on_grid (stream_step k) u → window_contains w u = true →
        ∃ cd, cd ∈ l ∧ oc_stream cd = k ∧ oc_open_time_ms cd = u ∧ validate_observed_candle cd = [].

Class ClockOk `{E : Env} : Prop := clock_nonneg : ∀ n, 0 ≤ env_clock n.

(** A world between two steps of a use case on the stream: no transaction is open, the store is
    canonical and holds what [a0] held, and the stream is in the state [st]. *)
Record stage (k : StreamKey) (c0 : nat) (a0 : AbsStore) (st : StreamLifecycleState)
    (w : World AbsStore) : Prop := {
  sg_tx : w_tx w = None;
  sg_good : good k a0 (w_db w);
  sg_state : ∃ r, ab_streams (w_db w) !! k = Some r ∧ ss_state (sr_state r) = st;
  sg_calls : (c0 ≤ w_calls w)%nat
}.

Lemma stage_self k c0 a0 st w : stage k c0 a0 st w → stage k c0 (w_db w) st w.
Proof. intros [H1 [H2 _] H3 H4]. split; [done|by apply good_refl|done|done]. Qed.

Lemma stage_trans k c0 a0 st st' w w' :
  stage k c0 a0 st w → stage k c0 (w_db w) st' w' → stage k c0 a0 st' w'.
Proof. intros [_ Hg _ _] [H1 [Hi Hf] H3 H4]. split; [done|by eapply good_trans|done|done]. Qed.

(** A program that leads from one state to another and does not raise. *)
Definition leads `{E : Env} {A} (k : StreamKey) (c0 : nat) (st st' : StreamLifecycleState) (m : M A)
    (Q : A → AbsStore → Prop) : Prop :=
  ∀ a0 w, stage k c0 a0 st w → ∃ x w', run m w = (Ok x, w') ∧ stage k c0 a0 st' w' ∧ Q x (w_db w').

(** A run that returns, and what it returns. *)
Definition returns {A} (p : res A * World AbsStore) (Q : A → World AbsStore → Prop) : Prop :=
  ∃ x w, p = (Ok x, w) ∧ Q x w.

Lemma leads_run `{E : Env} {A} k c0 st st' (m : M A) Q a0 w :
  leads k c0 st st' m Q → stage k c0 a0 st w →
  ∃ x w', run m w = (Ok x, w') ∧ stage k c0 a0 st' w' ∧ stream_frame k (w_db w) (w_db w') ∧ Q x (w_db w').
Proof.
  intros Hm Hw. destruct (Hm (w_db w) w (stage_self _ _ _ _ _ Hw)) as (x & w' & Hrun & Hw' & HQ).
  exists x, w'. split; [done|]. split; [by eapply stage_trans|]. split; [|done]. by destruct Hw' as [_ [_ ?] _ _].
Qed.

Section steps.
Context `{E : Env} `{HC : !ClockOk} (k : StreamKey) (c0 : nat).

Abbreviation leads_to st st' m := (leads k c0 st st' m (λ _ _, True)).

Lemma leads_update st st' (f : Z → StreamStateSnapshot → res (option StreamStateSnapshot)) :
  (∀ now, state_step k (f now)) →
  (∀ now s, 0 ≤ now → snapshot_valid s → ss_state s = st →
     ∃ o, f now s = Ok o ∧ ss_state (default s o) = st') →
  leads_to st st' (now ← now_ms; update_state k (f now)).
Proof using HC.
  intros Hf Hs a0 w Hw. destruct w as [db tx n c]. destruct Hw as [Htx Hg (r & Hr & Hst) Hc]. cbn in *. subst tx.
  pose proof Hg as [Hi _]. pose proof (store_inv_lookup _ _ _ Hi Hr) as [Hk Hv _ _].
  destruct (Hs (env_clock n) (sr_state r) (clock_nonneg n) Hv Hst) as (o & Ho & Hst').
  assert (Hrun : run (now ← now_ms; update_state k (f now)) (mkWorld db None n c) =
    (Ok (), mkWorld (match o with Some s => with_stream db k (upd_state r s) | None => db end) None (S n) c)).
  { rewrite run_bind, run_now. unfold tick. cbn [w_db w_tx w_ticks w_calls].
    rewrite (run_update_state db (S n) c k r) by done. rewrite Ho. by destruct o. }
  eexists _, _. split; [exact Hrun|]. split; [|done]. destruct o as [s|]; cbn in Hst'.
  - destruct (Hf (env_clock n) (sr_state r) s Hv Hk Ho) as (Hk' & Hv' & Hl').
    split; cbn; [done|by apply good_upd_state| |done]. exists (upd_state r s). by rewrite lookup_insert_eq.
  - split; cbn; [done|done| |done]. by exists r.
Qed.

Lemma transition_later_leads st target now s :
  0 ≤ now → snapshot_valid s → ss_state s = st → lifecycle_step st target →
  ∃ o, transition_later s target now = Ok o ∧ ss_state (default s o) = target.
Proof.
  intros Hn Hv Hst Hl. unfold transition_later.
  destruct (transition_stream_state s target (Z.max now (updated_at_ms s)) None None) as [s'|e] eqn:Et.
  - exists (Some s'). split; [done|]. apply transition_ok in Et as (_ & _ & ->); [done|done].
  - exfalso. apply transition_error in Et as [[H _]|(_ & H & _)]; [by rewrite Hst in H|lia|done].
Qed.

(** The states a repair may start in. *)
Definition repairable (st : StreamLifecycleState) : bool :=
  bool_decide (st ∈ [AUDITING; REPAIRING; DEGRADED; FAILED]).

Lemma leads_ensure_auditing st : repairable st = true → leads_to st AUDITING (ensure_auditing k).
Proof using HC.
  intros Hst. unfold ensure_auditing. apply leads_update.
  - intros now. apply (state_step_if k (λ s, bool_decide (ss_state s = AUDITING))); [apply state_step_none|].
    apply (state_step_if k (λ s, bool_decide (ss_state s ∉ _))); [by intros s s'|apply transition_later_step].
  - intros now s Hn Hv Hs. rewrite Hs. case_bool_decide as Ha; [exists None; cbn; by rewrite Hs|].
    rewrite bool_decide_false by (intros H; destruct st; (by vm_compute in Hst) || (apply H; set_solver)).
    apply (transition_later_leads st); [done..|]. by destruct st.
Qed.

Lemma leads_to_repairing : leads_to AUDITING REPAIRING (transition_to_repairing k).
Proof using HC.
  unfold transition_to_repairing. apply (leads_update _ _ (λ now s, transition_later s REPAIRING now)).
  - intros now. apply transition_later_step.
  - intros now s Hn Hv Hs. by apply (transition_later_leads AUDITING).
Qed.

Lemma leads_back : leads_to REPAIRING AUDITING (transition_repairing_to_auditing k).
Proof using HC.
  unfold transition_repairing_to_auditing. apply leads_update.
  - intros now. apply (state_step_if k (λ s, bool_decide (ss_state s = REPAIRING)));
      [apply transition_later_step|apply state_step_none].
  - intros now s Hn Hv Hs. rewrite bool_decide_true by done. by apply (transition_later_leads REPAIRING).
Qed.

Lemma leads_check st (g : Z → StreamStateSnapshot → StreamStateSnapshot) :
  (∀ now s, ss_stream (g now s) = ss_stream s ∧
            latest_committed_open_time_ms (g now s) = latest_committed_open_time_ms s) →
  (∀ now s, 0 ≤ now → snapshot_valid s → snapshot_valid (g now s) ∧ ss_state (g now s) = ss_state s) →
  leads_to st st (now ← now_ms; update_state k (λ s, Some <$> snapshot_check (g now s))).
Proof using HC.
  intros Hg Hv. apply leads_update.
  - intros now. apply state_step_check, Hg.
  - intros now s Hn Hs Hst. destruct (Hv now s Hn Hs) as [Hv' Hst'].
    rewrite snapshot_check_valid by done. eexists. split; [done|]. cbn. by rewrite Hst'.
Qed.

Lemma leads_record_audit st : leads_to st st (record_audit k).
Proof using HC.
  unfold record_audit.
  apply (leads_check st (λ now s, set_updated (set_marks s (Some now) (last_rest_success_at_ms s)
    (last_ws_message_at_ms s)) (Z.max now (updated_at_ms s)))); [done|].
  intros now s Hn Hv. split; [|done]. apply set_updated_valid; [|lia]. auto with mds.
Qed.

Lemma leads_rest_success st : leads_to st st (record_rest_success k).
Proof using HC.
  unfold record_rest_success.
  apply (leads_check st (λ now s, set_updated (set_error (set_marks s (last_audit_at_ms s) (Some now)
    (last_ws_message_at_ms s)) None None) (Z.max now (updated_at_ms s)))); [done|].
  intros now s Hn Hv. split; [|done]. apply set_updated_valid; [|lia]. auto with mds.
Qed.
End steps.

Section unresolved.
Context `{E : Env}.

Lemma run_record_unresolved k gaps db a n c now :
  is_Some (ab_streams a !! k) → Forall (λ g, 0 ≤ gap_start g ∧ gap_start g < gap_end g) gaps →
  ∃ qs, run (for_each gaps (λ g,
      _ ← op (RecordQuarantineOnce (mkQuarantine k (gap_start g) (gap_end g) "repair_incomplete_gap"
               "post-repair audit still reports a gap" None now)); mret ()))
      (mkWorld db (Some a) n c) =
    (Ok (), mkWorld db (Some (mkAbsStore (ab_streams a) (ab_instruments a) (ab_quarantine a ++ qs))) n c).
Proof.
  intros [r Hr] HF. revert a Hr. induction HF as [|g gaps [H1 H2] HF IH]; intros a Hr; cbn [for_each].
  { exists []. rewrite run_ret, app_nil_r. by destruct a. }
  rewrite run_bind, run_bind, run_op. cbn [store_step abs_storage]. unfold abs_record_quarantine_once.
  cbn [q_stream]. rewrite Hr. destruct (existsb _ _).
  { rewrite run_ret. by apply IH. }
  unfold abs_record_quarantine. cbn [q_stream]. rewrite Hr.
  assert (quarantine_row_ok (mkQuarantine k (gap_start g) (gap_end g) "repair_incomplete_gap"
    "post-repair audit still reports a gap" None now) = true) as -> by (unfold quarantine_row_ok; cbn; lia).
  rewrite run_ret. set (q := mkQuarantine _ _ _ _ _ _ _).
  destruct (IH (mkAbsStore (ab_streams a) (ab_instruments a) (ab_quarantine a ++ [q]))) as [qs ->]; [done|].
  exists (q :: qs). cbn. by rewrite <- app_assoc.
Qed.

Lemma leads_unresolved `{HC : !ClockOk} k c0 st gaps :
  Forall (λ g, 0 ≤ gap_start g ∧ gap_start g < gap_end g) gaps →
  leads k c0 st st (record_unresolved_gaps k gaps) (λ _ _, True).
Proof.
  intros HF a0 w Hw. destruct w as [db tx n c]. destruct Hw as [Htx Hg (r & Hr & Hst) Hc]. cbn in *. subst tx.
  destruct (run_record_unresolved k gaps db db (S n) c (env_clock n) (ex_intro _ r Hr) HF) as [qs Hq].
  assert (Hrun : run (record_unresolved_gaps k gaps) (mkWorld db None n c) =
    (Ok (), mkWorld (mkAbsStore (ab_streams db) (ab_instruments db) (ab_quarantine db ++ qs)) None (S n) c)).
  { unfold record_unresolved_gaps. rewrite run_bind, run_now. unfold tick. cbn [w_db w_tx w_ticks w_calls].
    by rewrite run_with_uow, run_bind, Hq, run_commit. }
  eexists _, _. split; [exact Hrun|]. split; [|done]. destruct Hg as [Hi [H1 H2 H3]].
  split; cbn; [done| |by exists r|done]. by split; [|split].
Qed.
End unresolved.

(** ** The import of a window *)

Lemma outcome_bar_stored k a candle t res a' :
  is_Some (ab_streams a !! oc_stream candle) → oc_stream candle = k → validate_observed_candle candle = [] →
  ingest_outcome a candle t res a' → bar_stored k a' (oc_open_time_ms candle).
Proof.
  intros [r0 Hr0] <- Hval Ho. unfold bar_stored.
  destruct Ho as [Hn|issues Hs Hv Hne|r r' Hr _ Hn Hw|r row c Hr _ Hrow|r row c q Hr _ Hrow|r r' row c q Hr _ Hrow _ _ _ _ Hw].
  - by rewrite Hr0 in Hn.
  - by rewrite Hval in Hv.
  - rewrite lookup_with_stream. cbn. destruct Hw as (row & _ & _ & _ & _ & -> & _). by rewrite lookup_insert_eq.
  - rewrite Hr. cbn. by rewrite Hrow.
  - cbn. rewrite Hr. cbn. by rewrite Hrow.
  - rewrite lookup_with_stream. cbn. destruct Hw as (rw & _ & _ & _ & _ & -> & _). by rewrite lookup_insert_eq.
Qed.

(** A loop stores every valid expected candle it is given. *)
Lemma import_loop_stores `{E : Env} k w db n c candles counts unexpected a counts' unexpected' a' n' :
  store_inv a → is_Some (ab_streams a !! k) → Forall (λ cd, ohlcv_parsed (oc_values cd)) candles →
  run (import_loop k w candles counts unexpected) (mkWorld db (Some a) n c) =
    (Ok (counts', unexpected'), mkWorld db (Some a') n' c) →
  ∀ cd, cd ∈ candles → is_expected k w cd = true → validate_observed_candle cd = [] →
    bar_stored k a' (oc_open_time_ms cd).
Proof.
  revert n counts unexpected a. induction candles as [|x candles IH];
    intros n counts unexpected a Hinv Hk HF Hrun cd Hcd Hex Hval; [by apply elem_of_nil in Hcd|].
  cbn [import_loop] in Hrun. apply Forall_cons in HF as [Hp HF].
  assert (Hrest : ∃ n1 counts1 u1 a1, store_inv a1 ∧ is_Some (ab_streams a1 !! k) ∧
    (is_expected k w x = true → validate_observed_candle x = [] → bar_stored k a1 (oc_open_time_ms x)) ∧
    run (import_loop k w candles counts1 u1) (mkWorld db (Some a1) n1 c) =
      (Ok (counts', unexpected'), mkWorld db (Some a') n' c)).
  { destruct (is_expected k w x) eqn:Hx; cbn [negb] in Hrun; rewrite run_bind, run_now in Hrun;
      unfold tick in Hrun; cbn [w_db w_tx w_ticks w_calls] in Hrun; rewrite run_bind in Hrun.
    - unfold is_expected in Hx. bool_hyps. subst k.
      destruct (ingest_correct (db:=db) (n:=Datatypes.S n) (c:=c) a x (env_clock n) Hinv Hp) as (res & a1 & Heq & Ho & Hi).
      rewrite Heq in Hrun. eexists _, _, _, a1. split; [done|]. split; [|split; [|exact Hrun]].
      + apply (if_stream _ _ _ _ (proj1 (outcome_frame w a x _ _ _ ltac:(done) Ho))), Hk.
      + intros _ Hv. by eapply outcome_bar_stored.
    - rewrite run_quarantine in Hrun by (done || apply unexpected_record_ok).
      eexists _, _, _, _. split; [by apply store_inv_with_quarantine|]. split; [|split; [done|exact Hrun]]. done. }
  destruct Hrest as (n1 & counts1 & u1 & a1 & Hi1 & Hk1 & Hx & Hrun1).
  apply elem_of_cons in Hcd as [->|Hcd]; [|by eapply IH].
  destruct (import_loop_correct k w db n1 c candles counts1 u1 a1 Hi1 Hk1 HF) as (? & ? & a2 & ? & Heq & _ & Hf & _).
  rewrite Hrun1 in Heq. injection Heq as <- <- <- <-. apply (bar_stored_frame k a1); [by eapply import_frame_stream|auto].
Qed.

Lemma leads_import `{E : Env} k lo hi c0 st w `{HH : !HonestExchange k lo hi c0} :
  fetchable (stream_step k) lo hi w →
  leads k c0 st st (import_window k w)
    (λ _ a', ∀ t, on_grid (stream_step k) t → window_contains w t = true → bar_stored k a' t).
Proof.
  intros Hw a0 v Hv. destruct v as [a tx n c]. destruct Hv as [Htx Hg (r & Hr & Hst) Hc].
  cbn in Htx, Hg, Hr, Hc. subst tx. pose proof Hg as [Hi Hf0]. assert (Hk : is_Some (ab_streams a !! k)) by (by exists r).
  destruct (honest_fetch (k:=k) (lo:=lo) (hi:=hi) c w n Hc Hw) as (l & Hl & HF & Hall).
  destruct (import_loop_correct k w a (S n) (S c) l no_counts 0 a Hi Hk HF) as
    (counts & u & a' & n' & Hloop & Hi' & Hfr & _).
  assert (Hrun : run (import_window k w) (mkWorld a None n c) =
    (Ok (import_result (Z.of_nat (length l)) counts u), mkWorld a' None n' (S c))).
  { unfold import_window. rewrite run_bind, run_now, run_bind. cbn [run call handle].
    unfold tick, called. cbn [w_db w_tx w_ticks w_calls]. rewrite Hl. cbn [run].
    by rewrite run_bind, run_with_uow, run_bind, Hloop, run_bind, run_commit, run_ret. }
  eexists _, _. split; [exact Hrun|]. cbn [w_db]. split.
  - split; cbn; [done|eapply good_trans; [exact Hg|done|by eapply import_frame_stream]| |lia].
    destruct (proj1 (if_stream _ _ _ _ Hfr) Hk) as [r' Hr']. exists r'. split; [done|].
    by destruct (if_rows _ _ _ _ Hfr r r' Hr Hr') as (_ & _ & _ & _ & ->).
  - intros t Ht Hin. destruct (Hall t Ht Hin) as (cd & Hcd & Hk' & <- & Hval).
    eapply (import_loop_stores k w a (S n) (S c) l no_counts 0 a); [done..|exact Hloop|done| |done].
    unfold is_expected. rewrite Hin, andb_true_r. by apply bool_decide_eq_true.
Qed.

(** ** A repair *)

(** Every bar of the range that lies in one of the windows. *)
Definition bars_stored (k : StreamKey) (ws : list TimeWindow) (a : AbsStore) : Prop :=
  ∀ w t, w ∈ ws → on_grid (stream_step k) t → window_contains w t = true → bar_stored k a t.

Section repair_progress.
Context `{E : Env} `{HC : !ClockOk} (k : StreamKey) (lo hi : Z) (c0 : nat) `{HH : !HonestExchange k lo hi c0}.

Lemma leads_repair_loop ws n results :
  Forall (fetchable (stream_step k) lo hi) ws →
  leads k c0 REPAIRING REPAIRING (repair_loop import_window repair_state k (map Ok ws) n results)
    (λ out a', out.2 = None ∧ bars_stored k ws a').
Proof using HC HH.
  intros HF. revert n results. induction HF as [|w ws Hw HF IH]; intros n results a0 v Hv.
  { eexists _, v. split; [reflexivity|]. split; [done|]. split; [done|]. by intros w t ?%elem_of_nil. }
  cbn [map repair_loop rec_record_rest_success repair_state].
  destruct (leads_run _ _ _ _ _ _ a0 v (leads_import k lo hi c0 REPAIRING w Hw) Hv)
    as (i & v1 & Hr1 & Hv1 & _ & Hs1).
  destruct (leads_run _ _ _ _ _ _ a0 v1 (leads_rest_success k c0 REPAIRING) Hv1) as ([] & v2 & Hr2 & Hv2 & Hf2 & _).
  destruct (leads_run _ _ _ _ _ _ a0 v2 (IH (n + 1) (results ++ [repair_window_result w i])) Hv2)
    as (out & v3 & Hr3 & Hv3 & Hf3 & Hn3 & Hs3).
  exists out, v3. split.
  { by rewrite run_bind, run_attempt, Hr1, run_bind, run_attempt, Hr2. }
  split; [done|]. split; [done|]. intros w' t [->|Hw']%elem_of_cons Ht Hin; [|by eapply Hs3].
  by eapply bar_stored_frame, bar_stored_frame, Hs1.
Qed.

(** The audit of a repair. *)
Lemma leads_audit st req :
  rq_stream req = k → rq_start_time_ms req < rq_end_time_ms req →
  on_grid (stream_step k) (rq_start_time_ms req) → on_grid (stream_step k) (rq_end_time_ms req) →
  leads k c0 st st (repair_audit candle_open_times req) (λ rep a',
    gaps_spec (bar_stored k a') (rq_start_time_ms req) (rq_end_time_ms req) (stream_step k) (report_gaps rep) ∧
    (is_continuous rep = true ↔ report_gaps rep = [])).
Proof using E.
  intros Hk Hlt Hs He a0 v Hv. destruct v as [a tx n c]. pose proof Hv as [Htx Hg (r & Hr & Hst) Hc].
  cbn in Htx, Hg, Hr. subst tx. destruct Hg as [Hi _].
  destruct (run_candle_audit a n c k r (rq_start_time_ms req) (rq_end_time_ms req) Hi Hr Hlt Hs He)
    as (rep & Hrun & _ & _ & _ & Hgaps & Hcont).
  exists rep, (mkWorld a None n c). split; [|split; [done|split; [|done]]].
  - unfold repair_audit. rewrite Hk, run_bind, run_lift. unfold AuditStreamContinuityRequest_new, on_grid in *.
    rewrite !raise_if_bind_false by lia. exact Hrun.
  - eapply gaps_spec_iff; [|exact Hgaps]. intros t _. cbn. by rewrite (bar_stored_rec _ _ r).
Qed.

(** What a repair achieves between two stores. *)
Record repair_progress (req : RepairStreamGapsRequest) (a a' : AbsStore) (r : RepairStreamGapsResult) : Prop := {
  rg_not_failed : rr_status r ≠ REPAIR_FAILED;
  rg_complete : rr_status r = REPAIR_COMPLETE →
    missing_bars (rq_stream req) (rq_start_time_ms req) (rq_end_time_ms req) a' = [] ∧
    ∃ post, rr_post_repair_audit r = Some post ∧ is_continuous post = true;
  rg_idle : missing_bars (rq_stream req) (rq_start_time_ms req) (rq_end_time_ms req) a = [] →
    rr_status r = REPAIR_COMPLETE ∧ rr_attempted_windows r = 0;
  rg_incomplete : rr_status r = REPAIR_INCOMPLETE →
    0 < pm_remaining_missing_candles (progress_marker r) ∧
    Z.of_nat (length (missing_bars (rq_stream req) (rq_start_time_ms req) (rq_end_time_ms req) a')) ≤
      pm_remaining_missing_candles (progress_marker r) ∧
    pm_remaining_missing_candles (progress_marker r) + rq_max_windows req ≤
      Z.of_nat (length (missing_bars (rq_stream req) (rq_start_time_ms req) (rq_end_time_ms req) a))
}.

(** The windows of a plan: when the budget holds all of them nothing is missing afterwards, otherwise
    each of the windows it pays for brings at least the bar it starts at. *)
Lemma plan_progress from to a a' gaps ws n :
  on_grid (stream_step k) from → on_grid (stream_step k) to → stream_frame k a a' →
  gaps_spec (bar_stored k a) from to (stream_step k) gaps →
  window_plan (stream_step k) from to gaps ws → bars_stored k (take n ws) a' →
  missing_bars k from to a' = [] ∨
  (length (missing_bars k from to a') + n ≤ length (missing_bars k from to a))%nat.
Proof using Type.
  intros Hf Ht Hfr Hg Hp Hst. destruct (decide (length ws ≤ n)%nat) as [Hle|Hgt].
  - left. rewrite take_ge in Hst by done. apply missing_bars_nil; [done..|]. intros t Hgrid Hr.
    destruct (decide (bar_stored k a t)) as [Hs|Hn]; [by eapply bar_stored_frame|].
    apply (gs_cover _ _ _ _ _ Hg t Hgrid Hr) in Hn. apply (wp_cover _ _ _ _ _ Hp) in Hn as (w & Hw & Hc).
    by apply (Hst w).
  - right. replace n with (length (map start_ms (take n ws))) by (rewrite length_map, length_take; lia).
    apply missing_bars_decrease; [done..|by eapply window_plan_starts|].
    intros t (w & -> & Hw)%list_elem_of_fmap.
    assert (Hw' : w ∈ ws) by (apply elem_of_take in Hw as (i & Hi & _); by eapply list_elem_of_lookup_2).
    pose proof (wp_windows _ _ _ _ _ Hp) as HF. rewrite Forall_forall in HF.
    destruct (HF w Hw') as [[Hwf Hgs _ Hlo Hhi _] Hgap]. unfold window_wf in Hwf.
    split; [done|]. split; [lia|]. split; [apply (gs_cover _ _ _ _ _ Hg); [done|lia|done]|].
    apply (Hst w); [done|done|]. apply window_contains_spec. lia.
Qed.

(** An audit and the step that records it. *)
Lemma audit_recorded req a0 v :
  rq_stream req = k → rq_start_time_ms req < rq_end_time_ms req →
  on_grid (stream_step k) (rq_start_time_ms req) → on_grid (stream_step k) (rq_end_time_ms req) →
  stage k c0 a0 AUDITING v →
  ∃ rep v1 v2, run (repair_audit candle_open_times req) v = (Ok rep, v1) ∧ run (record_audit k) v1 = (Ok (), v2) ∧
    stage k c0 a0 AUDITING v2 ∧ stream_frame k (w_db v) (w_db v1) ∧ stream_frame k (w_db v1) (w_db v2) ∧
    gaps_spec (bar_stored k (w_db v1)) (rq_start_time_ms req) (rq_end_time_ms req) (stream_step k) (report_gaps rep) ∧
    (is_continuous rep = true ↔
     missing_bars k (rq_start_time_ms req) (rq_end_time_ms req) (w_db v1) = []).
Proof using HC.
  intros Hk Hlt Hs He Hv.
  destruct (leads_run _ _ _ _ _ _ a0 v (leads_audit AUDITING req Hk Hlt Hs He) Hv)
    as (rep & v1 & Hr1 & Hv1 & Hf1 & Hg & Hc).
  destruct (leads_run _ _ _ _ _ _ a0 v1 (leads_record_audit k c0 AUDITING) Hv1) as ([] & v2 & Hr2 & Hv2 & Hf2 & _).
  exists rep, v1, v2. do 6 (split; [done|]). rewrite Hc, missing_bars_nil by done.
  rewrite (gaps_spec_nil_iff _ _ _ _ _ (stream_step_pos k) Hg). split; intros H t Ht Hr.
  - apply dec_stable. by apply H.
  - intros Hn. by apply Hn, H.
Qed.

Lemma missing_bars_mono from to a a' :
  on_grid (stream_step k) from → on_grid (stream_step k) to → stream_frame k a a' →
  (length (missing_bars k from to a') ≤ length (missing_bars k from to a))%nat.
Proof using Type.
  intros Hf Ht Hfr. pose proof (missing_bars_decrease k from to a a' [] Hf Ht Hfr (NoDup_nil_2)) as H.
  cbn in H. rewrite Nat.add_0_r in H. apply H. by intros t ?%elem_of_nil.
Qed.

(** The request a repair of the section serves. *)
Record request_ok (req : RepairStreamGapsRequest) : Prop := {
  ro_stream : rq_stream req = k;
  ro_budget : 0 < rq_max_windows req;
  ro_start : 0 ≤ rq_start_time_ms req;
  ro_range : rq_start_time_ms req < rq_end_time_ms req;
  ro_grid_start : on_grid (stream_step k) (rq_start_time_ms req);
  ro_grid_end : on_grid (stream_step k) (rq_end_time_ms req);
  ro_lo : lo ≤ rq_start_time_ms req;
  ro_hi : rq_end_time_ms req ≤ hi
}.

(** The bounded work of a repair: from an audited stream with gaps to the end of the loop. *)
Lemma repair_work_progress m req gaps a0 v :
  request_ok req → 0 < m ≤ 1000 → stage k c0 a0 AUDITING v →
  gaps_spec (bar_stored k a0) (rq_start_time_ms req) (rq_end_time_ms req) (stream_step k) gaps →
  ∃ v1 v2 att results, run (transition_to_repairing k) v = (Ok (), v1) ∧
    run (repair_loop import_window repair_state k (take (Z.to_nat (rq_max_windows req)) (planned_windows k m gaps)) 0 [])
      v1 = (Ok (att, results, None), v2) ∧
    stage k c0 a0 REPAIRING v2 ∧
    (missing_bars k (rq_start_time_ms req) (rq_end_time_ms req) (w_db v2) = [] ∨
     Z.of_nat (length (missing_bars k (rq_start_time_ms req) (rq_end_time_ms req) (w_db v2))) + rq_max_windows req ≤
     Z.of_nat (length (missing_bars k (rq_start_time_ms req) (rq_end_time_ms req) a0))).
Proof using HC HH.
  intros [Hk Hmax H0 Hlt Hs He Hlo Hhi] Hm Hv Hg. pose proof Hg as [Hin Hal Hsep _].
  destruct (leads_run _ _ _ _ _ _ a0 v (leads_to_repairing k c0) Hv) as ([] & v1 & Hr1 & Hv1 & _ & _).
  destruct (planned_windows_ok k m _ _ gaps Hm Hin Hal Hsep) as (ws & -> & Hplan).
  set (n := Z.to_nat (rq_max_windows req)). rewrite firstn_map.
  assert (HF : Forall (fetchable (stream_step k) lo hi) (take n ws)).
  { apply Forall_take. eapply Forall_impl; [exact (wp_windows _ _ _ _ _ Hplan)|]. cbn.
    intros w [Hfe _]. by eapply fetchable_widen; [| |exact Hfe]. }
  destruct (leads_run _ _ _ _ _ _ a0 v1 (leads_repair_loop _ 0 [] HF) Hv1)
    as ([[att results] exc] & v2 & Hr2 & Hv2 & _ & Hexc & Hstored). cbn in Hexc. subst exc.
  exists v1, v2, att, results. split; [done|]. split; [done|]. split; [done|].
  destruct (plan_progress _ _ a0 (w_db v2) gaps ws n Hs He) as [Hn|Hn]; [|done..|by left|right; lia].
  by destruct Hv2 as [_ [_ ?] _ _].
Qed.

(** The second audit: nothing is missing, or the gaps that remain are recorded. *)
Lemma repair_outcome_progress req requested pre att results a0 v :
  request_ok req → stage k c0 a0 REPAIRING v →
  missing_bars k (rq_start_time_ms req) (rq_end_time_ms req) a0 ≠ [] →
  (missing_bars k (rq_start_time_ms req) (rq_end_time_ms req) (w_db v) = [] ∨
   Z.of_nat (length (missing_bars k (rq_start_time_ms req) (rq_end_time_ms req) (w_db v))) + rq_max_windows req ≤
   Z.of_nat (length (missing_bars k (rq_start_time_ms req) (rq_end_time_ms req) a0))) →
  returns (run (
    _ ← transition_repairing_to_auditing k;
    post ← repair_audit candle_open_times req;
    _ ← record_audit k;
    status ← (if is_continuous post then mret REPAIR_COMPLETE
              else _ ← record_unresolved_gaps k (report_gaps post); mret REPAIR_INCOMPLETE);
    mret (mkRepairResult k requested status pre (Some post) att (Z.of_nat (length results)) results None None None)) v)
    (λ r v', stage k c0 a0 AUDITING v' ∧ repair_progress req a0 (w_db v') r).
Proof using HC.
  intros [Hk Hmax H0 Hlt Hs He _ _] Hv Hne Hn.
  destruct (leads_run _ _ _ _ _ _ a0 v (leads_back k c0) Hv) as ([] & v1 & Hr1 & Hv1 & Hf1 & _).
  rewrite run_bind, Hr1.
  destruct (audit_recorded req a0 v1 Hk Hlt Hs He Hv1) as (post & v2 & v3 & Hr2 & Hr3 & Hv3 & Hf2 & Hf3 & Hg & Hc).
  rewrite run_bind, Hr2, run_bind, Hr3.
  assert (Hle : ∀ w, stream_frame k (w_db v3) (w_db w) →
    (length (missing_bars k (rq_start_time_ms req) (rq_end_time_ms req) (w_db w)) ≤
     length (missing_bars k (rq_start_time_ms req) (rq_end_time_ms req) (w_db v2)) ≤
     length (missing_bars k (rq_start_time_ms req) (rq_end_time_ms req) (w_db v)))%nat).
  { intros w Hw. split; (apply missing_bars_mono; [done|done|]); [by etrans|by etrans]. }
  destruct (is_continuous post) eqn:Ep.
  - rewrite run_bind, run_ret. eexists _, _. split; [done|]. split; [done|]. rewrite <- Hk in Hne. split; cbn; [done| |by intros Hnil|done].
    intros _. rewrite Hk. destruct (Hle v3 ltac:(done)) as [Hle1 _]. rewrite (proj1 Hc eq_refl) in Hle1.
    split; [by apply length_zero_iff_nil, Nat.le_0_r|by exists post].
  - assert (HF : Forall (λ g, 0 ≤ gap_start g ∧ gap_start g < gap_end g) (report_gaps post)).
    { eapply Forall_impl; [exact (gs_in _ _ _ _ _ Hg)|]. cbn. lia. }
    destruct (leads_run _ _ _ _ _ _ a0 v3 (leads_unresolved k c0 AUDITING _ HF) Hv3) as ([] & v4 & Hr4 & Hv4 & Hf4 & _).
    rewrite run_bind, run_bind, Hr4, !run_ret. eexists _, _. split; [done|]. split; [done|]. rewrite <- Hk in Hne. split; cbn; [done|done|by intros Hnil|].
    intros _. cbn. rewrite Hk, (missing_count k _ _ _ _ Hs He Hg). destruct (Hle v4 Hf4) as [Hle1 Hle2].
    assert (Hpos : missing_bars k (rq_start_time_ms req) (rq_end_time_ms req) (w_db v2) ≠ []) by (by intros Hnil%Hc).
    assert (0 < length (missing_bars k (rq_start_time_ms req) (rq_end_time_ms req) (w_db v2)))%nat
      by (destruct (missing_bars k _ _ (w_db v2)); [done|cbn; lia]).
    destruct Hn as [Hn|Hn]; [|lia]. rewrite Hn in Hle2. cbn [length] in Hle2. lia.
Qed.

Lemma stage_rebase a0 a1 st w : stage k c0 a1 st w → stream_frame k a0 a1 → stage k c0 a0 st w.
Proof using Type. intros [H1 [H2 H3] H4 H5] Hf. split; [done| |done|done]. split; [done|]. by etrans. Qed.

Lemma repair_progress_rebase req a0 a1 a' r :
  request_ok req → stream_frame k a0 a1 → repair_progress req a1 a' r → repair_progress req a0 a' r.
Proof using Type.
  intros [Hk _ _ _ Hs He _ _] Hf [H1 H2 Hidle H3]. rewrite Hk in *. pose proof (missing_bars_mono _ _ _ _ Hs He Hf) as Hle.
  split; rewrite ?Hk; [done|done| |].
  - intros Hnil. apply Hidle. rewrite Hnil in Hle. by apply length_zero_iff_nil, Nat.le_0_r.
  - intros Hi. destruct (H3 Hi) as (H4 & H5 & H6). do 2 (split; [done|]). lia.
Qed.

Lemma repair_makes_progress m req st a0 v :
  request_ok req → repairable st = true → 0 < m ≤ 1000 → stage k c0 a0 st v →
  returns (run (wired_repair m req) v) (λ r v', stage k c0 a0 AUDITING v' ∧ repair_progress req (w_db v) (w_db v') r).
Proof using HC HH.
  intros Hreq Hst Hm Hv. pose proof Hreq as [Hk Hmax H0 Hlt Hs He _ _]. unfold wired_repair, repair_execute.
  cbv zeta. rewrite run_bind, run_lift, Hk.
  rewrite (proj2 (TimeWindow_new_ok _ _ _) (conj Hlt eq_refl)). cbn [rec_ensure_auditing rec_record_audit
    rec_transition_to_repairing rec_transition_repairing_to_auditing rec_record_unresolved_gaps repair_state].
  destruct (leads_run _ _ _ _ _ _ a0 v (leads_ensure_auditing k c0 st Hst) Hv) as ([] & v1 & Hr1 & Hv1 & Hf1 & _).
  rewrite run_bind, Hr1.
  destruct (audit_recorded req a0 v1 Hk Hlt Hs He Hv1) as (pre & v2 & v3 & Hr2 & Hr3 & Hv3 & Hf2 & Hf3 & Hg & Hc).
  rewrite run_bind, Hr2, run_bind, Hr3. destruct (is_continuous pre) eqn:Ec.
  { rewrite run_ret. eexists _, _. split; [done|]. split; [done|]. split; cbn; [done| |done|done]. intros _. rewrite Hk.
    pose proof (missing_bars_mono _ _ _ _ Hs He Hf3) as Hle. rewrite (proj1 Hc eq_refl) in Hle.
    split; [by apply length_zero_iff_nil, Nat.le_0_r|by exists pre]. }
  destruct (repair_work_progress m req (report_gaps pre) (w_db v2) v3 Hreq Hm) as (v4 & v5 & att & results & Hr4 & Hr5 & Hv5 & Hn);
    [by destruct Hv3 as [? [? _] ? ?]; split|done|].
  rewrite run_bind, Hr4, run_bind, Hr5.
  destruct (repair_outcome_progress req (mkTimeWindow (rq_start_time_ms req) (rq_end_time_ms req)) pre att results
    (w_db v2) v5 Hreq Hv5 ltac:(by intros Hnil%Hc) Hn) as (r & v6 & Hr6 & Hv6 & Hp).
  exists r, v6. split; [exact Hr6|]. assert (Hf : stream_frame k (w_db v) (w_db v2)) by (by etrans).
  split; [|by eapply repair_progress_rebase]. eapply stage_trans; [exact Hv|]. by eapply stage_rebase.
Qed.
End repair_progress.

(** ** A reconciliation pass *)

Section lifecycle.
Context `{E : Env} (k : StreamKey) (c0 : nat).

Lemma leads_ret {A} st (x : A) (P : A → Prop) : P x → leads k c0 st st (mret x) (λ x _, P x).
Proof. intros HP a0 w Hw. by exists x, w. Qed.

Lemma leads_bind {A B} st st' st'' (m : M A) (f : A → M B) (P : A → Prop) Q :
  leads k c0 st st' m (λ x _, P x) → (∀ x, P x → leads k c0 st' st'' (f x) Q) →
  leads k c0 st st'' (x ← m; f x) Q.
Proof.
  intros Hm Hf a0 w Hw. destruct (Hm a0 w Hw) as (x & w1 & Hr1 & Hw1 & HP).
  destruct (Hf x HP a0 w1 Hw1) as (y & w2 & Hr2 & Hw2 & HQ). exists y, w2.
  split; [by rewrite run_bind, Hr1|done].
Qed.

Lemma leads_snapshot st : leads k c0 st st (snapshot k) (λ s _, ss_state s = st).
Proof.
  intros a0 [db tx n c] Hw. pose proof Hw as [Htx [Hi _] (r & Hr & Hst) _]. cbn in *. subst tx.
  exists (sr_state r), (mkWorld db None n c). split; [by apply run_snapshot|done].
Qed.

Lemma leads_transition st t :
  lifecycle_step st (tn_target t) → leads k c0 st (tn_target t) (transition k t) (λ s _, ss_state s = tn_target t).
Proof.
  intros Hl a0 [db tx n c] [Htx Hg (r & Hr & Hst) Hc]. cbn in *. subst tx. rewrite <- Hst in Hl.
  destruct (run_transition db n c k r t (proj1 Hg) Hr Hl) as (s & w & Hrun & -> & Hs & Hk & Hv & Hlat).
  eexists _, _. split; [exact Hrun|]. split; [|done]. split; cbn; [done|by apply good_upd_state| |done].
  exists (upd_state r s). by rewrite lookup_insert_eq.
Qed.

Lemma leads_mark st t :
  lifecycle_step st (tn_target t) → leads k c0 st (tn_target t) (mark k t) (λ _ _, True).
Proof.
  intros Hl. unfold mark. eapply leads_bind; [apply leads_snapshot|]. cbv beta. intros s ->.
  rewrite bool_decide_false by (intros ->; unfold lifecycle_step in Hl; by rewrite can_transition_irrefl in Hl).
  intros a0 w Hw. destruct (leads_transition st t Hl a0 w Hw) as (x & w' & ? & ? & _). by exists x, w'.
Qed.

Lemma leads_prepare st : leads k c0 st BOOTSTRAPPING (prepare_for_bootstrap k) (λ _ _, True).
Proof.
  unfold prepare_for_bootstrap. eapply leads_bind; [apply leads_snapshot|]. cbv beta. intros s Hs.
  assert (Hgo : ∀ st1 m, leads k c0 st st1 m (λ x _, ss_state x = st1) → lifecycle_step st1 BOOTSTRAPPING →
    leads k c0 st BOOTSTRAPPING
      (s ← m; if bool_decide (ss_state s ≠ BOOTSTRAPPING) then transition k (plain BOOTSTRAPPING) else mret s)
      (λ _ _, True)).
  { intros st1 m Hm Hl. eapply leads_bind; [exact Hm|]. cbv beta. intros x Hx.
    rewrite bool_decide_true by (rewrite Hx; by destruct st1). intros a0 w Hw.
    destruct (leads_transition st1 (plain BOOTSTRAPPING) Hl a0 w Hw) as (y & w' & ? & ? & _). by exists y, w'. }
  rewrite Hs. destruct st; try by apply leads_ret.
  - apply (Hgo UNINITIALIZED); [|done]. by apply (leads_ret _ s (λ x, ss_state x = UNINITIALIZED)).
  - by apply (Hgo DEGRADED); [apply leads_transition|].
  - by apply (Hgo DEGRADED); [apply leads_transition|].
  - by apply (Hgo DEGRADED); [apply leads_transition|].
  - by apply (Hgo DEGRADED); [apply leads_transition|].
  - apply (Hgo DEGRADED); [|done]. by apply (leads_ret _ s (λ x, ss_state x = DEGRADED)).
  - by apply (Hgo UNINITIALIZED); [apply leads_transition|].
Qed.

Lemma leads_mark_auditing : leads k c0 BOOTSTRAPPING AUDITING (mark_auditing k) (λ _ _, True).
Proof.
  unfold mark_auditing. eapply leads_bind; [apply leads_snapshot|]. cbv beta. intros s ->. intros a0 w Hw.
  destruct (leads_transition BOOTSTRAPPING (plain AUDITING) ltac:(done) a0 w Hw) as (x & w' & ? & ? & _). by exists x, w'.
Qed.
End lifecycle.

(** What a pass achieves over its window. *)
Definition missing_in (k : StreamKey) (w : ReconciliationWindow) (a : AbsStore) : Z :=
  Z.of_nat (length (missing_bars k (rw_start_time_ms w) (rw_end_time_ms w) a)).

Inductive pass_progress (k : StreamKey) (w : ReconciliationWindow) (budget : Z) (a a' : AbsStore) :
    StartupStreamOutcome → StreamLifecycleState → Prop :=
| pass_connects o :
    su_stream o = k → su_window o = Some w → su_classification o = START_CONNECTING →
    missing_in k w a' = 0 → pass_progress k w budget a a' o CONNECTING
| pass_advances o m :
    su_stream o = k → su_window o = Some w → su_classification o = START_INCOMPLETE →
    su_progress_marker o = Some (RepairMarker m) → missing_in k w a' ≤ pm_remaining_missing_candles m →
    pm_remaining_missing_candles m + budget ≤ missing_in k w a → pass_progress k w budget a a' o AUDITING.

Section pass.
Context `{E : Env} `{HC : !ClockOk} (k : StreamKey) (lo hi : Z) (c0 : nat) `{HH : !HonestExchange k lo hi c0}
  (lower_bound : LowerBoundResolver) (max_candles discovery_windows repair_windows : Z)
  (open_interest : option (StreamKey → option ReconciliationWindow → M StartupStreamOutcome))
  (oi_streams : list StreamKey) (w : ReconciliationWindow).

(** The window of the pass is one the historical worker may be asked for. *)
Record window_ok : Prop := {
  wo_start : 0 ≤ rw_start_time_ms w;
  wo_range : rw_start_time_ms w < rw_end_time_ms w;
  wo_grid_start : on_grid (stream_step k) (rw_start_time_ms w);
  wo_grid_end : on_grid (stream_step k) (rw_end_time_ms w);
  wo_lo : lo ≤ rw_start_time_ms w;
  wo_hi : rw_end_time_ms w ≤ hi
}.

Lemma pass_makes_progress st a0 v :
  window_ok → 0 < max_candles ≤ 1000 → 0 < repair_windows → open_interest = None ∨ k ∉ oi_streams → stage k c0 a0 st v →
  returns (run (reconcile lower_bound (wired_repair max_candles) discovery_windows repair_windows open_interest
                  oi_streams k (Some w)) v)
    (λ o v', ∃ st', stage k c0 a0 st' v' ∧ pass_progress k w repair_windows (w_db v) (w_db v') o st').
Proof using HC HH.
  intros [H0 Hlt Hs He Hlo Hhi] Hm Hrw Hoi Hv. unfold reconcile. rewrite run_try, run_bind.
  destruct (leads_run _ _ _ _ _ _ a0 v (leads_prepare k c0 st) Hv) as (s1 & v1 & -> & Hv1 & Hf1 & _).
  unfold reconcile_window. rewrite run_bind.
  destruct (leads_run _ _ _ _ _ _ a0 v1 (leads_mark_auditing k c0) Hv1) as (s2 & v2 & -> & Hv2 & Hf2 & _).
  rewrite run_bind, run_lift. unfold repair_request, RepairStreamGapsRequest_new.
  rewrite !raise_if_bind_false by (unfold on_grid in *; lia). cbn [mret res_ret].
  set (req := mkRepairRequest k (rw_start_time_ms w) (rw_end_time_ms w) repair_windows).
  assert (Hreq : request_ok k lo hi req) by done. rewrite run_bind.
  destruct (repair_makes_progress k lo hi c0 max_candles req AUDITING a0 v2 Hreq eq_refl Hm Hv2)
    as (r & v3 & -> & Hv3 & [Hp1 Hp2 _ Hp3]).
  assert (Hf02 : stream_frame k (w_db v) (w_db v2)) by (by etrans).
  assert (Hnp : open_interest_not_proven open_interest oi_streams k w = mret None).
  { unfold open_interest_not_proven. destruct Hoi as [->|Hn]; [done|]. destruct open_interest; [|done].
    by rewrite bool_decide_false. }
  unfold settle_repair. destruct (rr_status r); [| |done].
  - rewrite Hnp, run_bind, run_ret, run_bind. unfold mark_connecting.
    destruct (leads_run _ _ _ _ _ _ a0 v3 (leads_mark k c0 AUDITING (plain CONNECTING) ltac:(done)) Hv3)
      as (s4 & v4 & -> & Hv4 & Hf4 & _).
    rewrite run_ret. eexists _, _. split; [done|]. exists CONNECTING. split; [done|]. apply pass_connects; [done..|].
    unfold missing_in. destruct (Hp2 eq_refl) as [Hp4 _]. clear Hp2. rename Hp4 into Hp2. cbn [rq_stream rq_start_time_ms rq_end_time_ms req] in Hp2.
    pose proof (missing_bars_mono k _ _ _ _ Hs He Hf4) as Hle. rewrite Hp2 in Hle. cbn [length] in Hle. lia.
  - rewrite run_ret. eexists _, _. split; [done|]. exists AUDITING. split; [done|].
    destruct (Hp3 eq_refl) as (_ & Hle1 & Hle2). cbn [rq_stream rq_start_time_ms rq_end_time_ms rq_max_windows req] in *.
    eapply pass_advances; [done..|exact Hle1|]. unfold missing_in.
    pose proof (missing_bars_mono k _ _ _ _ Hs He Hf02) as Hle. lia.
Qed.
End pass.

(** ** Properties *)

(** C8. Gap repair makes progress.  With an exchange that answers for the range and a clock after the
    epoch, the repair of a valid request for a registered stream in a state a repair accepts always
    returns and never fails: the store stays canonical with no open transaction, only the stream is
    touched, and it ends auditing.  Either every bar of the range is then stored, or the repair
    reports how many are missing, which are fewer than before by at least one for each window of
    its budget. *)
Theorem repair_advances `{E : Env} `{!ClockOk} (k : StreamKey) (from to max_windows max_candles : Z)
    (req : RepairStreamGapsRequest) (a : AbsStore) (r : StreamRec) (n c : nat) `{!HonestExchange k from to c} :
  store_inv a → ab_streams a !! k = Some r → repairable (ss_state (sr_state r)) = true →
  RepairStreamGapsRequest_new k from to max_windows = Ok req → 0 ≤ from → 0 < max_candles ≤ 1000 →
  ∃ res w', run (wired_repair max_candles req) (mkWorld a None n c) = (Ok res, w') ∧
    w_tx w' = None ∧ store_inv (w_db w') ∧ stream_frame k a (w_db w') ∧
    (∃ r', ab_streams (w_db w') !! k = Some r' ∧ ss_state (sr_state r') = AUDITING) ∧
    repair_progress req a (w_db w') res.
Proof.
  intros Hi Hr Hst (-> & Hlt & Hmw & Hs & He)%RepairRequest_new_ok H0 Hm.
  assert (Hreq : request_ok k from to (mkRepairRequest k from to max_windows)) by done.
  assert (Hv : stage k c a (ss_state (sr_state r)) (mkWorld a None n c)).
  { split; cbn; [done|by apply good_refl|by exists r|lia]. }
  destruct (repair_makes_progress k from to c max_candles _ _ a _ Hreq Hst Hm Hv)
    as (res & w' & Hrun & [Htx [Hi' Hf] Hs' _] & Hp).
  exists res, w'. split; [exact Hrun|]. by do 4 (split; [done|]).
Qed.

(** *** An exchange that has every bar *)

Definition exchange_candle (k : StreamKey) (t : Z) : ObservedCandle :=
  mkObservedCandle k t (t + stream_step k - 1)
    (mkOhlcv (mkDec false 10 0) (mkDec false 12 0) (mkDec false 9 0) (mkDec false 11 0) (mkDec false 5 (-1)))
    true 900 BYBIT_REST.

Definition complete_env : Env := {|
  env_clock := λ n, 1000000 + Z.of_nat n;
  env_fetch_closed_candles := λ _ k w _, Ok (exchange_candle k <$> grid_points (start_ms w) (end_ms w) (stream_step k));
  env_fetch_open_interest := λ _ _ _ _, Ok [];
  env_launch_time_ms := λ _ _, Ok 0;
  env_specification := λ _ i, Specification_new i "BTCUSDT" "linear" "LinearPerpetual" "Trading" "USDT" 0
|}.

#[local] Existing Instance complete_env.

#[export] Instance complete_env_clock : ClockOk.
Proof. intros n. cbn. lia. Qed.

Lemma exchange_candle_parsed k t : ohlcv_parsed (oc_values (exchange_candle k t)).
Proof. apply (example_candle_parsed t 11 BYBIT_REST). lia. Qed.

Lemma exchange_candle_valid k t : 0 ≤ t → on_grid (stream_step k) t → validate_observed_candle (exchange_candle k t) = [].
Proof. intros H0 Hg. apply validate_nil. split; [done|]. split; [done|]. by split_and!; vm_compute. Qed.

Lemma complete_env_honest k lo hi c0 : 0 ≤ lo → HonestExchange k lo hi c0.
Proof.
  intros H0 c w n _ [Hw Hs He Hlo Hhi _]. eexists. split; [reflexivity|]. split.
  - apply Forall_fmap, Forall_forall. intros u _. apply exchange_candle_parsed.
  - intros u Hu Hc. apply window_contains_spec in Hc. exists (exchange_candle k u).
    split; [|split; [done|split; [done|apply exchange_candle_valid; [lia|done]]]].
    apply list_elem_of_fmap. exists u. split; [done|]. apply grid_points_elem; [apply stream_step_pos|done..].
Qed.

(** Four bars are missing and the budget is one window of two. *)
Lemma repair_advances_witness :
  let req := mkRepairRequest example_stream 0 240000 1 in
  let p := run (wired_repair 2 req) (mkWorld repair_example_store None 0 0) in
  ((λ res, (rr_status res, pm_remaining_missing_candles (progress_marker res))) <$> p.1 = Ok (REPAIR_INCOMPLETE, 2)) ∧
  length (missing_bars example_stream 0 240000 repair_example_store) = 4%nat ∧
  ∃ res w', p = (Ok res, w') ∧ w_tx w' = None ∧ store_inv (w_db w') ∧
    stream_frame example_stream repair_example_store (w_db w') ∧
    (∃ r', ab_streams (w_db w') !! example_stream = Some r' ∧ ss_state (sr_state r') = AUDITING) ∧
    repair_progress req repair_example_store (w_db w') res.
Proof.
  intros req p. split; [vm_compute; reflexivity|]. split; [vm_compute; reflexivity|].
  assert (Hr : ∃ r, ab_streams repair_example_store !! example_stream = Some r ∧ repairable (ss_state (sr_state r)) = true)
    by (vm_compute; eexists; split; reflexivity).
  destruct Hr as (r & Hr & Hst).
  exact (repair_advances example_stream 0 240000 1 2 req repair_example_store r 0 0
    (HonestExchange0:=complete_env_honest example_stream 0 240000 0 ltac:(lia))
    repair_example_inv Hr Hst eq_refl ltac:(lia) ltac:(lia)).
Defined.
