(* ===== verification/CatchUp.v ===== *)
(** * The historical worker catches up

    runtime/historical_worker.py with the pass of runtime/reconciliation.py it is given: the
    iterations of [HistoricalReconciliationWorker.run] over a stream that startup left incomplete,
    up to the hand-over. *)

From S2P Require Import Prelude PyStr DecimalValues Timeframes Identity Gaps Candles StreamState.
From S2P Require Import Instruments OpenInterest Storage AbsStore Ingest ImportWindow UseCase LowerBound Repair.
From S2P Require Import OpenInterestTrack RealtimeFacts Supervisor Continuity LifecycleUpdate RealtimeRecovery.
From S2P Require Import RuntimeStatus PyFloat RecoveryWorker Reconciliation HistoricalWorker Progress.

(** ** The historical worker *)

(** One iteration of [HistoricalReconciliationWorker.run] with the pass it was given, the gate being
    free: [times] are [loop.time()] before and after the pass. *)
Definition worker_iteration `{E : Env} (cfg : HistoricalConfig)
    (execute_stream : StreamKey → option ReconciliationWindow → M StartupStreamOutcome) (times : float * float)
    (hw : HistoricalWorker) (v : World AbsStore) : HistoricalWorker * list HistoricalEffect * World AbsStore :=
  match historical_step cfg hw (HistoricalTake times.1 false) with
  | None => (hw, [], v)
  | Some (hw1, effects) =>
      match hw_pc hw1 with
      | HistoricalPass p =>
          let '(r, v1) := run (execute_stream (pd_stream p) (pd_window p)) v in
          match historical_step cfg hw1 (match r with
                  | Ok o => HistoricalFinish times.2 o
                  | Raise e => HistoricalInterrupt e
                  end) with
          | Some (hw2, effects2) => (hw2, effects ++ effects2, v1)
          | None => (hw1, effects, v1)
          end
      | _ => (hw1, effects, v)
      end
  end.

Fixpoint worker_iterations `{E : Env} (cfg : HistoricalConfig)
    (execute_stream : StreamKey → option ReconciliationWindow → M StartupStreamOutcome)
    (times : list (float * float)) (hw : HistoricalWorker) (v : World AbsStore) :
    HistoricalWorker * list HistoricalEffect * World AbsStore :=
  match times with
  | [] => (hw, [], v)
  | t :: times =>
      let '(hw1, e1, v1) := worker_iteration cfg execute_stream t hw v in
      let '(hw2, e2, v2) := worker_iterations cfg execute_stream times hw1 v1 in
      (hw2, e1 ++ e2, v2)
  end.

Lemma worker_iterations_empty `{E : Env} cfg execute times v :
  worker_iterations cfg execute times (mkHistoricalWorker [] HistoricalIdle) v =
    (mkHistoricalWorker [] HistoricalIdle, [], v).
Proof. induction times as [|t times IH]; [done|]. cbn [worker_iterations]. unfold worker_iteration. cbn. by rewrite IH. Qed.

(** The worker has nothing left to do for the stream: it was handed over, its history is complete,
    and no blocking reason but the running reconciliation was ever shown for it. *)
Definition caught_up (k : StreamKey) (w : ReconciliationWindow)
    (p : HistoricalWorker * list HistoricalEffect * World AbsStore) : Prop :=
  let '(hw, effects, v) := p in
  hw = mkHistoricalWorker [] HistoricalIdle ∧ effects ≫= settles = [k] ∧ OnComplete k ∈ effects ∧
  (∀ k' reason, HistoricalBlocking k' reason ∈ effects → k' = k ∧ reason = "historical_reconciliation"%string) ∧
  w_tx v = None ∧ store_inv (w_db v) ∧ missing_in k w (w_db v) = 0 ∧
  ∃ r, ab_streams (w_db v) !! k = Some r ∧ ss_state (sr_state r) = CONNECTING.

(** The marker of a pending stream counts at least the bars that are missing. *)
Definition marker_fresh (missing : Z) (marker : option HistoricalProgressMarker) : Prop :=
  ∀ m, marker = Some (RepairMarker m) → missing ≤ pm_remaining_missing_candles m.

Section catch_up.
Context `{E : Env} `{HC : !ClockOk} (k : StreamKey) (lo hi : Z) (c0 : nat) `{HH : !HonestExchange k lo hi c0}
  (lower_bound : LowerBoundResolver) (max_candles discovery_windows repair_windows : Z)
  (open_interest : option (StreamKey → option ReconciliationWindow → M StartupStreamOutcome))
  (oi_streams : list StreamKey) (w : ReconciliationWindow) (cfg : HistoricalConfig)
  (Hw : window_ok k lo hi w) (Hm : 0 < max_candles ≤ 1000) (Hrw : 0 < repair_windows)
  (Hoi : open_interest = None ∨ k ∉ oi_streams).

Abbreviation pass := (reconcile lower_bound (wired_repair max_candles) discovery_windows repair_windows
  open_interest oi_streams).
Abbreviation pending marker := (mkPending k (Some w) 0 0 (float_of_Z 0) marker).
Abbreviation reconciling := (HistoricalBlocking k "historical_reconciliation").

Lemma iteration_progress t marker st a0 v :
  stage k c0 a0 st v → marker_fresh (missing_in k w (w_db v)) marker → fgt (float_of_Z 0) t.1 = false →
  let '(hw1, e1, v1) := worker_iteration cfg pass t (mkHistoricalWorker [pending marker] HistoricalIdle) v in
  (hw1 = mkHistoricalWorker [] HistoricalIdle ∧ e1 = [reconciling; HistoricalClear k; OnComplete k] ∧
   stage k c0 a0 CONNECTING v1 ∧ missing_in k w (w_db v1) = 0) ∨
  (∃ marker', hw1 = mkHistoricalWorker [pending marker'] HistoricalIdle ∧ e1 = [reconciling; reconciling] ∧
   stage k c0 a0 AUDITING v1 ∧ marker_fresh (missing_in k w (w_db v1)) marker' ∧
   missing_in k w (w_db v1) + repair_windows ≤ missing_in k w (w_db v)).
Proof using HC HH Hw Hm Hrw Hoi.
  intros Hv Hfresh Ht. unfold worker_iteration. cbn [historical_step hw_pc hw_queue]. unfold take_pending.
  cbn [pd_due_at pd_stream pd_window]. rewrite Ht, andb_false_r. cbn [hw_pc pd_stream pd_window].
  destruct (pass_makes_progress k lo hi c0 lower_bound max_candles discovery_windows repair_windows open_interest
    oi_streams w st a0 v Hw Hm Hrw Hoi Hv) as (o & v1 & -> & st' & Hv1 & Hp).
  cbn [historical_step hw_pc hw_queue]. unfold finish_pass.
  destruct Hp as [o Hs Hwin Hc Hmiss|o m Hs Hwin Hc Hmark Hle Hlt]; rewrite Hc; cbn [pd_stream].
  - cbv beta iota. left. done.
  - unfold requeue. rewrite Hwin, Hc, Hmark. cbn [pd_progress_marker].
    rewrite (bool_decide_false (START_INCOMPLETE = _)) by done.
    rewrite (bool_decide_true (is_Some (Some _))) by done.
    rewrite bool_decide_true.
    2:{ intros Heq. symmetry in Heq. apply Hfresh in Heq. lia. }
    cbn [andb mret res_ret pd_stream mbind res_bind]. cbv beta iota zeta.
    right. exists (Some (RepairMarker m)). do 3 (split; [done|]). split; [|lia]. by intros m' [= <-].
Qed.

Lemma iterations_catch_up times marker st a0 v :
  stage k c0 a0 st v → marker_fresh (missing_in k w (w_db v)) marker →
  Forall (λ t, fgt (float_of_Z 0) t.1 = false) times →
  missing_in k w (w_db v) / repair_windows < Z.of_nat (length times) →
  caught_up k w (worker_iterations cfg pass times (mkHistoricalWorker [pending marker] HistoricalIdle) v).
Proof using HC HH Hw Hm Hrw Hoi.
  intros Hv Hfresh HF. revert marker st v Hv Hfresh. induction HF as [|t times Ht HF IH]; intros marker st v Hv Hfresh Hn.
  { exfalso. cbn in Hn. assert (0 ≤ missing_in k w (w_db v) / repair_windows) by (apply Z.div_pos; unfold missing_in; lia). lia. }
  cbn [worker_iterations]. pose proof (iteration_progress t marker st a0 v Hv Hfresh Ht) as Hit.
  destruct (worker_iteration cfg pass t _ v) as [[hw1 e1] v1].
  destruct Hit as [(-> & -> & Hv1 & H0)|(marker' & -> & -> & Hv1 & Hfresh' & Hlt)].
  - rewrite worker_iterations_empty. destruct Hv1 as [Htx [Hi _] Hr _]. rewrite app_nil_r. unfold caught_up. cbn.
    do 2 (split; [done|]). split; [by do 2 right; left|]. split; [|done].
    intros k' reason H. repeat (apply elem_of_cons in H as [H|H]; [by injection H as -> ->|] || (apply elem_of_cons in H as [H|H]; [done|])).
    by apply elem_of_nil in H.
  - specialize (IH marker' AUDITING v1 Hv1 Hfresh').
    assert (Hn' : missing_in k w (w_db v1) / repair_windows < Z.of_nat (length times)).
    { cbn [length] in Hn. apply Z.div_lt_upper_bound; [done|].
      pose proof (Z.mul_succ_div_gt (missing_in k w (w_db v)) repair_windows Hrw). nia. }
    specialize (IH Hn'). destruct (worker_iterations cfg pass times _ v1) as [[hw2 e2] v2]. unfold caught_up in *.
    destruct IH as (H1 & H2 & H3 & H4 & H5). split; [done|]. split; [exact H2|]. split; [by do 2 right|]. split; [|done].
    intros k' reason H. apply elem_of_cons in H as [[= -> ->]|H]; [done|].
    apply elem_of_cons in H as [[= -> ->]|H]; [done|by apply H4].
Qed.
End catch_up.

(** ** Properties *)

(** C10. The historical worker catches up.  A stream that startup left unsettled with a requested window
    is handed over as connected after at most [missing / budget + 1] iterations of the worker, for
    any clock readings, when the exchange answers for the window: every bar of the window is then
    stored, the durable state is [CONNECTING], the queue is empty and nothing but the running
    reconciliation was ever shown as blocking - a pass always makes progress, so that the worker
    never backs off.  The stream has no second track, or one that is not in the pass. *)
Theorem historical_worker_catches_up `{E : Env} `{!ClockOk} (k : StreamKey) (w : ReconciliationWindow)
    (lower_bound : LowerBoundResolver) (max_candles discovery_windows repair_windows : Z)
    (open_interest : option (StreamKey → option ReconciliationWindow → M StartupStreamOutcome))
    (oi_streams : list StreamKey) (cfg : HistoricalConfig) (o : StartupStreamOutcome)
    (times : list (float * float)) (a : AbsStore) (n c : nat)
    `{!HonestExchange k (rw_start_time_ms w) (rw_end_time_ms w) c} :
  store_inv a → is_Some (ab_streams a !! k) →
  0 ≤ rw_start_time_ms w → rw_start_time_ms w < rw_end_time_ms w →
  on_grid (stream_step k) (rw_start_time_ms w) → on_grid (stream_step k) (rw_end_time_ms w) →
  0 < max_candles ≤ 1000 → 0 < repair_windows → open_interest = None ∨ k ∉ oi_streams →
  su_stream o = k → su_window o = Some w → unsettled o = true →
  marker_fresh (missing_in k w a) (su_progress_marker o) →
  Forall (λ t, fgt (float_of_Z 0) t.1 = false) times →
  missing_in k w a / repair_windows < Z.of_nat (length times) →
  caught_up k w (worker_iterations cfg
    (reconcile lower_bound (wired_repair max_candles) discovery_windows repair_windows open_interest oi_streams)
    times (HistoricalWorker_new [o]) (mkWorld a None n c)).
Proof.
  intros Hi [r Hr] H0 Hlt Hs He Hm Hrw Hoi Ho Hwin Hun Hfresh HF Hn.
  assert (Hw : window_ok k (rw_start_time_ms w) (rw_end_time_ms w) w) by done.
  assert (Hv : stage k c a (ss_state (sr_state r)) (mkWorld a None n c)).
  { split; cbn; [done|by apply good_refl|by exists r|lia]. }
  unfold HistoricalWorker_new. rewrite filter_cons_True by done. cbn [map]. rewrite Ho, Hwin.
  by apply (iterations_catch_up k (rw_start_time_ms w) (rw_end_time_ms w) c) with (a0 := a) (st := ss_state (sr_state r)).
Qed.

#[local] Existing Instance complete_env.

Definition catch_up_window : ReconciliationWindow := mkReconciliationWindow 0 600000.
Definition catch_up_outcome : StartupStreamOutcome :=
  mkStartup example_stream START_INCOMPLETE None (Some catch_up_window)
    (Some "historical_reconciliation_incomplete"%string) None None no_work.
Definition catch_up_times (n : nat) : list (float * float) := replicate n (float_of_Z 10, float_of_Z 11).

(** Ten bars are missing, a pass imports two windows of two: three passes. *)
Lemma historical_worker_catches_up_witness :
  let p := worker_iterations default_historical
    (reconcile example_bound (wired_repair 2) 5 2 None []) (catch_up_times 6) (HistoricalWorker_new [catch_up_outcome])
    (mkWorld repair_example_store None 0 0) in
  p.1.2 = replicate 5 (HistoricalBlocking example_stream "historical_reconciliation") ++
            [HistoricalClear example_stream; OnComplete example_stream] ∧
  missing_in example_stream catch_up_window repair_example_store = 10 ∧ caught_up example_stream catch_up_window p.
Proof.
  intros p. split; [vm_compute; reflexivity|]. split; [vm_compute; reflexivity|].
  assert (Hk : is_Some (ab_streams repair_example_store !! example_stream)) by (vm_compute; eexists; reflexivity).
  assert (Hn : missing_in example_stream catch_up_window repair_example_store / 2 < Z.of_nat (length (catch_up_times 6)))
    by (vm_compute; reflexivity).
  assert (HF : Forall (λ t : float * float, fgt (float_of_Z 0) t.1 = false) (catch_up_times 6))
    by (apply Forall_replicate; vm_compute; reflexivity).
  exact (historical_worker_catches_up example_stream catch_up_window example_bound 2 5 2 None [] default_historical
    catch_up_outcome (catch_up_times 6) repair_example_store 0 0
    (HonestExchange0:=complete_env_honest example_stream 0 600000 0 ltac:(lia))
    repair_example_inv Hk ltac:(done) ltac:(done) ltac:(done) ltac:(done) ltac:(lia) ltac:(lia) (or_introl eq_refl)
    eq_refl eq_refl eq_refl ltac:(done) HF Hn).
Defined.
