(* ===== verification/BackfillProgress.v ===== *)
(** * Progress of a backfill

    application/backfill_stream.py over an exchange that answers ([HonestExchange]) and a clock
    that does not go back: a backfill of a stream that is new or degraded imports every window it
    has the budget for, and one whose budget covers the range ends with the range complete. *)

From S2P Require Import Prelude PyStr DecimalValues Timeframes Identity Gaps Candles StreamState.
From S2P Require Import Instruments OpenInterest Storage AbsStore Ingest ImportWindow UseCase Backfill.
From S2P Require Import LifecycleUpdate RuntimeStatus Repair RealtimeRecovery Reconciliation Progress.

Class ClockMonotone `{E : Env} : Prop := {
  clock_mono_ok :: ClockOk;
  clock_mono : ∀ i j, (i ≤ j)%nat → env_clock i ≤ env_clock j
}.

(** The snapshot of the stream is not newer than the clock, which the transitions of a backfill
    need: they do not take the later of the two. *)
Definition on_time `{E : Env} (k : StreamKey) (w : World AbsStore) : Prop :=
  ∃ r, ab_streams (w_db w) !! k = Some r ∧ updated_at_ms (sr_state r) ≤ env_clock (w_ticks w).

Definition latest_of (k : StreamKey) (a : AbsStore) : option Z :=
  ab_streams a !! k ≫= λ r, latest_committed_open_time_ms (sr_state r).

Section backfill_steps.
Context `{E : Env} `{HC : !ClockMonotone} (k : StreamKey) (c0 : nat).

(** An update of the snapshot at the time that was read, on a stream that is on time. *)
Lemma update_on_time st st' (f : Z → StreamStateSnapshot → res (option StreamStateSnapshot)) a0 w :
  stage k c0 a0 st w → on_time k w →
  (∀ now, state_step k (f now)) →
  (∀ now s, 0 ≤ now → updated_at_ms s ≤ now → snapshot_valid s → ss_state s = st →
     ∃ o, f now s = Ok o ∧ ss_state (default s o) = st' ∧ updated_at_ms (default s o) ≤ now) →
  ∃ w', run (now ← now_ms; update_state k (f now)) w = (Ok (), w') ∧ stage k c0 a0 st' w' ∧ on_time k w' ∧
    stream_frame k (w_db w) (w_db w') ∧ latest_of k (w_db w') = latest_of k (w_db w).
Proof using HC.
  intros Hw (r0 & Hr0 & Ht) Hf Hs. destruct w as [db tx n c]. destruct Hw as [Htx Hg (r & Hr & Hst) Hc]. cbn in *.
  subst tx. assert (r0 = r) as -> by congruence. pose proof Hg as [Hi _].
  pose proof (store_inv_lookup _ _ _ Hi Hr) as [Hk Hv _ _].
  destruct (Hs (env_clock n) (sr_state r) (clock_nonneg n) Ht Hv Hst) as (o & Ho & Hst' & Ht').
  pose proof (clock_mono n (S n) ltac:(lia)) as Hn.
  assert (Hrun : run (now ← now_ms; update_state k (f now)) (mkWorld db None n c) =
    (Ok (), mkWorld (match o with Some s => with_stream db k (upd_state r s) | None => db end) None (S n) c)).
  { rewrite run_bind, run_now. unfold tick. cbn [w_db w_tx w_ticks w_calls].
    rewrite (run_update_state db (S n) c k r) by done. rewrite Ho. by destruct o. }
  eexists. split; [exact Hrun|]. destruct o as [s|]; cbn in Hst', Ht'.
  - destruct (Hf (env_clock n) (sr_state r) s Hv Hk Ho) as (Hk' & Hv' & Hl').
    assert (Hg' : good k db (with_stream db k (upd_state r s))) by (apply good_upd_state; [by apply good_refl|done..]).
    assert (Hr' : ab_streams (with_stream db k (upd_state r s)) !! k = Some (upd_state r s)) by (cbn; by rewrite lookup_insert_eq).
    split; [split; cbn; [done|by apply good_upd_state|by eexists|done]|].
    split; [exists (upd_state r s); split; [done|cbn; lia]|]. split; [by destruct Hg'|].
    unfold latest_of. cbn [w_db]. rewrite Hr', Hr. exact Hl'.
  - split; [split; cbn; [done|done|by exists r|done]|]. split; [|done]. exists r. split; [done|cbn; lia].
Qed.

(** The states a backfill of a new history starts in. *)
Definition backfillable (st : StreamLifecycleState) : bool := bool_decide (st ∈ [UNINITIALIZED; DEGRADED; BOOTSTRAPPING]).

Lemma transition_on_time st target now s :
  0 ≤ now → updated_at_ms s ≤ now → snapshot_valid s → ss_state s = st → lifecycle_step st target →
  ∃ o, Some <$> transition_stream_state s target now None None = Ok o ∧ ss_state (default s o) = target ∧
    updated_at_ms (default s o) ≤ now.
Proof using Type.
  intros Hn Ht Hv Hst Hl. destruct (transition_stream_state s target now None None) as [s'|e] eqn:Et.
  - exists (Some s'). split; [done|]. apply transition_ok in Et as (_ & _ & ->); [|done]. by cbn.
  - exfalso. apply transition_error in Et as [[H _]|(_ & H & _)]; [by rewrite Hst in H|lia|done].
Qed.

Lemma run_ensure_bootstrapping st a0 w :
  backfillable st = true → stage k c0 a0 st w → on_time k w →
  ∃ w', run (ensure_bootstrapping k) w = (Ok (), w') ∧ stage k c0 a0 BOOTSTRAPPING w' ∧ on_time k w' ∧
    stream_frame k (w_db w) (w_db w') ∧ latest_of k (w_db w') = latest_of k (w_db w).
Proof using HC.
  intros Hst Hw Ht. apply (update_on_time st _ (λ now s, if bool_decide (ss_state s = UNINITIALIZED ∨ ss_state s = DEGRADED)
    then Some <$> transition_stream_state s BOOTSTRAPPING now None None else Ok None)); [done|done| |].
  - apply ensure_bootstrapping_step.
  - intros now s Hn Hu Hv Hs. rewrite Hs. case_bool_decide as Hb.
    + apply (transition_on_time st); [done..|]. by destruct Hb as [-> | ->].
    + exists None. split; [done|]. cbn. split; [|done]. rewrite Hs.
      destruct st; (by vm_compute in Hst) || (exfalso; apply Hb; tauto) || done.
Qed.

Lemma run_window_success st a0 w :
  stage k c0 a0 st w →
  ∃ w', run (record_window_success k) w = (Ok (), w') ∧ stage k c0 a0 st w' ∧ on_time k w' ∧
    stream_frame k (w_db w) (w_db w').
Proof using HC.
  intros Hw. destruct w as [db tx n c]. pose proof Hw as [Htx Hg (r & Hr & Hst) Hc]. cbn in Htx, Hg, Hr, Hst, Hc. subst tx.
  pose proof Hg as [Hi _]. pose proof (store_inv_lookup _ _ _ Hi Hr) as [Hk Hv _ _].
  set (s' := set_updated (set_error (set_marks (sr_state r) (last_audit_at_ms (sr_state r)) (Some (env_clock n))
    (last_ws_message_at_ms (sr_state r))) None None) (env_clock n)).
  pose proof (clock_nonneg n) as Hn.
  assert (Hv' : snapshot_valid s') by (apply set_updated_valid; [|lia]; auto with mds).
  assert (Hrun : run (record_window_success k) (mkWorld db None n c) =
    (Ok (), mkWorld (with_stream db k (upd_state r s')) None (S n) c)).
  { unfold record_window_success. rewrite run_bind, run_now. unfold tick. cbn [w_db w_tx w_ticks w_calls].
    rewrite (run_update_state db (S n) c k r) by (done || by apply (state_step_check k (λ s, set_updated _ (env_clock n)))).
    fold s'. by rewrite snapshot_check_valid. }
  assert (Hg' : good k db (with_stream db k (upd_state r s'))) by (apply good_upd_state; [by apply good_refl|done..]).
  assert (Hr' : ab_streams (with_stream db k (upd_state r s')) !! k = Some (upd_state r s')) by (cbn; by rewrite lookup_insert_eq).
  eexists. split; [exact Hrun|]. split; [split; cbn; [done|by apply good_upd_state|by eexists|done]|].
  split; [|by destruct Hg']. exists (upd_state r s'). split; [done|]. cbn. apply clock_mono. lia.
Qed.

Lemma run_to_auditing a0 w :
  stage k c0 a0 BOOTSTRAPPING w → on_time k w →
  ∃ w', run (transition_to_auditing k) w = (Ok (), w') ∧ stage k c0 a0 AUDITING w' ∧ stream_frame k (w_db w) (w_db w').
Proof using HC.
  intros Hw Ht. destruct (update_on_time BOOTSTRAPPING AUDITING (λ now s, if bool_decide (ss_state s = BOOTSTRAPPING)
    then Some <$> transition_stream_state s AUDITING now None None else Ok None) a0 w Hw Ht) as (w' & H1 & H2 & _ & H3 & _); [| |by exists w'].
  - intros now. apply (state_step_if k (λ s, bool_decide _)); [|apply state_step_none].
    apply (state_step_transition k _ (λ _, now)).
  - intros now s Hn Hu Hv Hs. rewrite bool_decide_true by done. by apply (transition_on_time BOOTSTRAPPING).
Qed.
End backfill_steps.

Section backfill.
Context `{E : Env} `{HC : !ClockMonotone} (k : StreamKey) (lo hi : Z) (c0 : nat) `{HH : !HonestExchange k lo hi c0}.

(** What a backfill achieved: no error, the end reached, every bar of the range stored. *)
Record backfill_done (req : BackfillStreamRequest) (a' : AbsStore) (r : BackfillStreamResult) : Prop := {
  bd_error : bf_error_code r = None;
  bd_end : bf_reached_end r = true;
  bd_windows : window_chain (bs_start_time_ms req) (bs_end_time_ms req) (result_windows (bf_window_results r));
  bd_missing : missing_bars k (bs_start_time_ms req) (bs_end_time_ms req) a' = []
}.

Lemma run_backfill_loop req ws results a0 v :
  bs_stream req = k → stage k c0 a0 BOOTSTRAPPING v → on_time k v →
  Forall (fetchable (stream_step k) lo hi) ws →
  ∃ rs v', run (backfill_loop req ws results) v = (Ok (inl (results ++ rs)), v') ∧ result_windows rs = ws ∧
    stage k c0 a0 BOOTSTRAPPING v' ∧ on_time k v' ∧ stream_frame k (w_db v) (w_db v') ∧ bars_stored k ws (w_db v').
Proof using HC HH.
  intros Hk Hv Ht HF. revert results v Hv Ht. induction HF as [|w ws Hw HF IH]; intros results v Hv Ht.
  { exists [], v. rewrite app_nil_r. split; [done|]. do 4 (split; [done|]). by intros w t ?%elem_of_nil. }
  destruct (leads_run _ _ _ _ _ _ a0 v (leads_import k lo hi c0 BOOTSTRAPPING w Hw) Hv)
    as (i & v1 & Hr1 & Hv1 & Hf1 & Hs1).
  destruct (run_window_success k c0 BOOTSTRAPPING a0 v1 Hv1) as (v2 & Hr2 & Hv2 & Ht2 & Hf2).
  destruct (IH (results ++ [window_result w i]) v2 Hv2 Ht2) as (rs & v3 & Hr3 & Hws & Hv3 & Ht3 & Hf3 & Hs3).
  exists (window_result w i :: rs), v3. split.
  { cbn [backfill_loop]. rewrite Hk, run_bind, run_attempt, Hr1, run_bind, Hr2, Hr3. by rewrite <- app_assoc. }
  split; [unfold result_windows in *; cbn; by rewrite Hws|]. do 2 (split; [done|]). split; [etrans; [exact Hf1|]; by etrans|].
  intros w' t [->|Hw']%elem_of_cons Htg Hin; [|by eapply Hs3]. by eapply bar_stored_frame, bar_stored_frame, Hs1.
Qed.

Lemma run_resume_start req st a0 v :
  bs_stream req = k → bs_resume_from_latest_committed req = true → stage k c0 a0 st v →
  run (resume_start req) v = (Ok (match latest_of k (w_db v) with
                                  | None => bs_start_time_ms req
                                  | Some latest => Z.max (bs_start_time_ms req) (latest + stream_step k)
                                  end), v).
Proof using Type.
  intros Hk Hres [Htx [Hi _] (r & Hr & _) _]. destruct v as [a tx n c]. cbn in Htx, Hi, Hr. subst tx.
  unfold resume_start, latest_of. rewrite Hres, Hk. cbn [negb w_db].
  by rewrite run_bind, (run_read_state a n c k r), Hr.
Qed.

(** The request a backfill of a new history serves within its budget. *)
Record fresh_request (m : Z) (req : BackfillStreamRequest) (a : AbsStore) : Prop := {
  fq_stream : bs_stream req = k;
  fq_resume : bs_resume_from_latest_committed req = true;
  fq_range : bs_start_time_ms req < bs_end_time_ms req;
  fq_grid_start : on_grid (stream_step k) (bs_start_time_ms req);
  fq_grid_end : on_grid (stream_step k) (bs_end_time_ms req);
  fq_lo : lo ≤ bs_start_time_ms req;
  fq_hi : bs_end_time_ms req ≤ hi;
  fq_candles : 0 < m ≤ 1000;
  fq_budget : Z.of_nat (grid_steps (bs_start_time_ms req) (bs_end_time_ms req) (stream_step k * m)) ≤ bs_max_windows req;
  fq_new : ∀ l, latest_of k a = Some l → l + stream_step k ≤ bs_start_time_ms req
}.

(** The latest candle is at or after every stored bar. *)
Lemma latest_after_bar a t : store_inv a → bar_stored k a t → ∃ l, latest_of k a = Some l ∧ t ≤ l.
Proof using Type.
  intros Hi Hb. unfold bar_stored, latest_of in *. destruct (ab_streams a !! k) as [r|] eqn:Hr; [|by destruct Hb].
  pose proof (store_inv_lookup _ _ _ Hi Hr) as [_ _ _ Hl]. by apply Hl in Hb.
Qed.

(** A window chain over a range is a partition of it: its windows hold all grid points. *)
Lemma chain_stored from to ws a :
  on_grid (stream_step k) from → on_grid (stream_step k) to → window_chain from to ws → bars_stored k ws a →
  missing_bars k from to a = [].
Proof using Type.
  intros Hf Ht Hch Hs. apply missing_bars_nil; [done..|]. intros t Hg Hr.
  apply (window_chain_cover _ _ _ _ Hch) in Hr as (w & Hw & Hc). by eapply Hs.
Qed.

Lemma backfill_completes m req st a0 v :
  fresh_request m req (w_db v) → backfillable st = true → stage k c0 a0 st v → on_time k v →
  returns (run (backfill_execute m req) v) (λ r v', stage k c0 a0 AUDITING v' ∧ stream_frame k (w_db v) (w_db v') ∧
    backfill_done req (w_db v') r).
Proof using HC HH.
  intros [Hk Hres Hlt Hs He Hlo Hhi Hm Hb Hnew] Hst Hv Ht. unfold backfill_execute. rewrite Hk.
  destruct (run_ensure_bootstrapping k c0 st a0 v Hst Hv Ht) as (v1 & Hr1 & Hv1 & Ht1 & Hf1 & Hl1).
  rewrite run_bind, Hr1, run_bind, (run_resume_start req _ _ _ Hk Hres Hv1), run_bind, run_lift, Hl1.
  rewrite (proj2 (TimeWindow_new_ok _ _ _) (conj Hlt eq_refl)).
  assert (match latest_of k (w_db v) with
          | None => bs_start_time_ms req
          | Some latest => Z.max (bs_start_time_ms req) (latest + stream_step k)
          end = bs_start_time_ms req) as ->.
  { destruct (latest_of k (w_db v)) as [l|]; [|done]. specialize (Hnew l eq_refl). lia. }
  rewrite (proj2 (Z.leb_gt _ _) Hlt), run_bind, run_lift, Gap_new_lt, run_bind, run_lift by done.
  destruct (iter_fetch_windows_ok (mkGap (bs_start_time_ms req) (bs_end_time_ms req)) (stream_step k) m Hlt)
    as (ws & -> & Hch & Hok & Hlen).
  { pose proof (stream_step_pos k). unfold fetch_input_ok, on_grid in *. cbn. lia. }
  cbn [gap_start gap_end] in *. rewrite take_ge by lia.
  destruct (run_backfill_loop req ws [] a0 v1 Hk Hv1 Ht1) as (rs & v2 & Hr2 & Hws & Hv2 & Ht2 & Hf2 & Hs2).
  { apply Forall_forall. intros w Hw. rewrite Forall_forall in Hok. destruct (Hok w Hw) as (? & ? & ? & ?).
    apply (window_chain_inside _ _ _ _ Hch) in Hw as [? ?]. pose proof (stream_step_pos k). split; (done || nia). }
  cbn [app] in Hr2. rewrite run_bind, Hr2, run_bind, Hres, (run_resume_start req _ _ _ Hk Hres Hv2).
  pose proof (chain_stored _ _ ws (w_db v2) Hs He Hch Hs2) as Hmiss.
  destruct (latest_after_bar (w_db v2) (bs_end_time_ms req - stream_step k)) as (l & -> & Hl).
  { by destruct Hv2 as [_ [? _] _ _]. }
  { pose proof (stream_step_pos k) as Hstep. apply (proj1 (missing_bars_nil _ _ _ _ Hs He) Hmiss).
    - apply Z_mod0_sub; [done|apply Z_mod_same_full|done].
    - pose proof (Z_mod_mult_between _ _ _ Hstep Hs He Hlt). lia. }
  rewrite (proj2 (Z.leb_le (bs_end_time_ms req) _)) by lia.
  destruct (run_to_auditing k c0 a0 v2 Hv2 Ht2) as (v3 & Hr3 & Hv3 & Hf3). rewrite run_bind, Hr3, run_ret.
  eexists _, _. split; [done|]. split; [done|]. split; [etrans; [exact Hf1|]; by etrans|].
  split; cbn [bf_error_code bf_reached_end bf_window_results]; [done|done|by rewrite Hws|].
  pose proof (missing_bars_mono k _ _ _ _ Hs He Hf3) as Hle. rewrite Hmiss in Hle. by apply length_zero_iff_nil, Nat.le_0_r.
Qed.
End backfill.
