(* ===== verification/Json.v ===== *)
(** * Parsed JSON values

    What [json.loads] returns, with the operations of Python on such a value that the adapters
    use: [dict.get], [str], [repr], [int], comparison with an integer, and hashing.  A number with
    a fraction or an exponent is a float together with its [repr]. *)

From S2P Require Import Prelude PyStr DecimalValues PyFloat.

Inductive json :=
| JNull
| JBool (b : bool)
| JInt (z : Z)
| JFloat (x : float) (shown : string)
| JStr (s : string)
| JArr (l : list json)
| JObj (fields : list (string * json)).

Definition json_object := list (string * json).

(** [payload.get(key)]: [None] is a missing key. *)
Fixpoint json_get (o : json_object) (key : string) : option json :=
  match o with
  | [] => None
  | (k, v) :: o => if bool_decide (k = key) then Some v else json_get o key
  end.

(** [payload.get(key)] as a value: a missing key reads as None. *)
Definition json_get_null (o : json_object) (key : string) : json :=
  match json_get o key with Some v => v | None => JNull end.

(** [repr(value)] *)
Fixpoint json_repr (v : json) : string :=
  match v with
  | JNull => "None"
  | JBool b => if b then "True" else "False"
  | JInt z => str_of_Z z
  | JFloat _ shown => shown
  | JStr s => repr s
  | JArr l => "[" +:+ join ", " (map json_repr l) +:+ "]"
  | JObj o => "{" +:+ join ", " (map (λ kv, match kv with (k, v) => repr k +:+ ": " +:+ json_repr v end) o) +:+ "}"
  end.

(** [str(value)] *)
Definition json_str (v : json) : string := match v with JStr s => s | _ => json_repr v end.

Definition json_type (v : json) : string :=
  match v with
  | JNull => "NoneType" | JBool _ => "bool" | JInt _ => "int" | JFloat _ _ => "float"
  | JStr _ => "str" | JArr _ => "list" | JObj _ => "dict"
  end.

(** [int(value)] *)
Definition json_int (v : json) : res Z :=
  match v with
  | JInt z => Ok z
  | JBool b => Ok (Z.b2z b)
  | JFloat x _ => int_of_float x
  | JStr s =>
      match py_int s with
      | Some z => Ok z
      | None => raise ExcValueError ("invalid literal for int() with base 10: " +:+ repr s)
      end
  | JNull | JArr _ | JObj _ =>
      raise ExcTypeError
        ("int() argument must be a string, a bytes-like object or a real number, not '" +:+ json_type v +:+ "'")
  end.

(** [value == n]: a boolean and a float equal an integer too. *)
Definition json_eq_int (v : json) (n : Z) : bool :=
  match v with
  | JInt z => z =? n
  | JBool b => Z.b2z b =? n
  | JFloat x _ => feq_Z x n
  | _ => false
  end.

Definition json_eq_str (v : json) (s : string) : bool :=
  match v with JStr t => bool_decide (t = s) | _ => false end.

(** Looking a value up in a set hashes it. *)
Definition json_hash (v : json) : res unit :=
  match v with
  | JArr _ | JObj _ => raise ExcTypeError ("unhashable type: '" +:+ json_type v +:+ "'")
  | _ => Ok ()
  end.

(** [value in {n, ...}] and [value in {"text", ...}] *)
Definition json_in_ints (v : json) (l : list Z) : res bool :=
  _ ← json_hash v; mret (existsb (json_eq_int v) l).
Definition json_in_strs (v : json) (l : list string) : res bool :=
  _ ← json_hash v; mret (existsb (json_eq_str v) l).

(** A value handed to [parse_decimal]. *)
Definition decimal_input (v : json) : DecimalInput :=
  match v with
  | JStr s => InStr s
  | JInt z => InInt z
  | JBool b => InBool b
  | JFloat _ shown => InFloat shown
  | JNull | JArr _ | JObj _ => InOther (json_repr v)
  end.

(** [except (TypeError, ValueError)] around a computation: another error. *)
Definition reraise {A} (classes : list exn_class) (m : res A) (e' : exn → exn) : res A :=
  match m with
  | Raise e => if existsb (isinstance e) classes then Raise (e' e) else Raise e
  | Ok a => Ok a
  end.

Example repr_payload :
  json_repr (JObj [("retCode", JInt 0); ("result", JObj [("list", JArr [JStr "ok"; JNull; JBool true])])])%string =
  "{'retCode': 0, 'result': {'list': ['ok', None, True]}}"%string.
Proof. by vm_compute. Qed.

Lemma reraise_ok {A} classes (m : res A) e' a : reraise classes m e' = Ok a ↔ m = Ok a.
Proof. unfold reraise. destruct m; [done|]. by destruct (existsb _ _). Qed.

Lemma decimal_input_wf v : input_wf (decimal_input v).
Proof. by destruct v. Qed.
