(* ===== verification/BybitRest.v ===== *)
(** * The Bybit REST adapter

    adapters/bybit/errors.py, http_transport.py, kline_parser.py, rest_client.py and
    open_interest_source.py.  What lies outside - the answers of the network, [json.loads] and the
    date parser of the standard library - are the parameters [UrlEnv]; a fetch is its requests,
    its pauses and its result.  [bybit_env] is the source of the use cases over this adapter, and
    meets what they assume of it. *)

From S2P Require Import Prelude PyStr DecimalValues Timeframes Identity Candles StreamState Instruments OpenInterest.
From S2P Require Import Storage AbsStore Ingest ImportWindow UseCase PyFloat Json.

(** ** errors.py *)

(** An exception of the transport with the attributes of its class. *)
Inductive transport_exn :=
| HttpError (message : string) (status_code : option Z) (retry_after_seconds : option float)
| TransientApiError (message : string) (ret_code : option Z)
| OtherExn (e : exn).

Definition exn_of_transport (e : transport_exn) : exn :=
  match e with
  | HttpError message _ _ => Exn ExcBybitHttpError message
  | TransientApiError message _ => Exn ExcBybitTransientApiError message
  | OtherExn e => e
  end.

Definition payload_error {A} (message : string) : res A := raise ExcBybitPayloadError message.

(** ** kline_parser.py and the parser of open_interest_source.py *)

(** [by_time[x.open_time_ms] = x] for each kept item in order, then the values in the order of
    the sorted keys. *)
Definition by_open_time {A} (time : A → Z) (keep : A → bool) (l : list A) : gmap Z A :=
  fold_left (λ m x, if keep x then <[time x := x]> m else m) l ∅.
Definition sorted_values {A} (m : gmap Z A) : list A :=
  omap (λ t, m !! t) (py_sorted (elements (dom m))).

Definition parse_kline_row (k : StreamKey) (observed_at_ms step_ms : Z) (row : json) : res ObservedCandle :=
  match row with
  | JArr (r0 :: r1 :: r2 :: r3 :: r4 :: r5 :: _) =>
      open_time_ms ← reraise [ExcTypeError; ExcValueError] (json_int r0)
        (λ _, Exn ExcBybitPayloadError "Bybit kline start time must be an integer");
      let close_time_ms := open_time_ms + step_ms - 1 in
      ObservedCandle_new k open_time_ms close_time_ms (decimal_input r1) (decimal_input r2)
        (decimal_input r3) (decimal_input r4) (decimal_input r5)
        (close_time_ms <? observed_at_ms) observed_at_ms BYBIT_REST
  | _ => payload_error "Bybit kline row must be a list with at least 6 fields"
  end.

Definition parse_kline_rows (rows : list json) (k : StreamKey) (requested_window : TimeWindow)
    (observed_at_ms : Z) : res (list ObservedCandle) :=
  let step_ms := stream_step k in
  candles ← mapM (parse_kline_row k observed_at_ms step_ms) rows;
  mret (sorted_values (by_open_time oc_open_time_ms (λ c, window_contains requested_window (oc_open_time_ms c))
                         candles)).

Definition parse_open_interest_row (k : StreamKey) (observed_at_ms : Z) (row : json) : res ObservedOpenInterest :=
  match row with
  | JObj o =>
      match json_get o "openInterest" with
      | Some (JStr value) =>
          _ ← raise_if (bool_decide (strip value = ""%string)) ExcBybitPayloadError
                "Bybit open interest value must be a non-empty string";
          open_time_ms ← reraise [ExcTypeError; ExcValueError] (json_int (json_get_null o "timestamp"))
            (λ _, Exn ExcBybitPayloadError "Bybit open interest timestamp must be an integer");
          mret (mkObservedOI k open_time_ms (InStr (strip value)) observed_at_ms)
      | _ => payload_error "Bybit open interest value must be a non-empty string"
      end
  | _ => payload_error "Bybit open interest row must be an object"
  end.

Definition parse_open_interest_rows (rows : list json) (k : StreamKey) (requested_window : TimeWindow)
    (observed_at_ms : Z) (include_current : bool) : res (list ObservedOpenInterest) :=
  let step_ms := stream_step k in
  last_closed ← last_closed_open_time_ms observed_at_ms step_ms;
  let newest := if include_current then last_closed + step_ms else last_closed in
  points ← mapM (parse_open_interest_row k observed_at_ms) rows;
  mret (sorted_values (by_open_time oi_open_time_ms
          (λ p, window_contains requested_window (oi_open_time_ms p) && (oi_open_time_ms p <=? newest)) points)).

(** ** rest_client.py *)

Inductive param := PStr (s : string) | PInt (z : Z).
Definition params := list (string * param).

(** [transport.get_json(url, params, timeout)] at each attempt of one fetch. *)
Definition Transport := nat → string → params → float → json_object + transport_exn.

Record RestConfig := mkRestConfig {
  rs_exchange_symbols : gmap string string;
  rs_base_url : string;
  rs_category : string;
  rs_timeout_seconds : float;
  rs_retry_attempts : Z;
  rs_retry_base_delay_seconds : float;
  rs_retry_rate_limit_delay_seconds : float;
  rs_retry_max_delay_seconds : float;
  rs_retry_jitter_ratio : float
}.

Definition default_rest (symbols : gmap string string) : RestConfig :=
  mkRestConfig symbols "https://api.bybit.com" "linear" (float_of_Z 10) 4 (float_of_Z 1) (float_of_Z 5)
    (float_of_Z 8) (float_of 1 (-2)).

Definition TRANSIENT_RET_CODES : list Z := [10000; 10006; 10016].

(** What a fetch did: its result, and the seconds it slept between its requests. *)
Definition Fetch (A : Type) : Type := res A * list float.

Definition is_rate_limit_error (e : transport_exn) : bool :=
  match e with
  | TransientApiError _ ret_code => bool_decide (ret_code = Some 10006)
  | HttpError _ status_code _ => bool_decide (status_code = Some 429)
  | OtherExn _ => false
  end.

Definition extract_rows (payload : json_object) : res (list json) :=
  let ret_code := json_get_null payload "retCode" in
  if negb (json_eq_int ret_code 0) then
    let message := match json_get payload "retMsg" with
                   | Some v => json_str v | None => "unknown Bybit API error" end in
    let shown := ("Bybit retCode=" +:+ json_str ret_code +:+ ": " +:+ message)%string in
    transient ← json_in_ints ret_code TRANSIENT_RET_CODES;
    if transient : bool then raise ExcBybitTransientApiError shown else raise ExcBybitApiError shown
  else match json_get payload "result" with
  | Some (JObj result) =>
      match json_get result "list" with
      | Some (JArr rows) => Ok rows
      | _ => payload_error "Bybit result.list must be an array"
      end
  | _ => payload_error "Bybit result must be an object"
  end.

Definition required_text (row : json_object) (key context : string) : res string :=
  match json_get row key with
  | Some (JStr value) =>
      if bool_decide (strip value = ""%string)
      then payload_error ("Bybit " +:+ context +:+ "." +:+ key +:+ " must be a non-empty string")
      else Ok (strip value)
  | _ => payload_error ("Bybit " +:+ context +:+ "." +:+ key +:+ " must be a non-empty string")
  end.

Definition required_non_negative_int (row : json_object) (key context : string) : res Z :=
  let name := ("Bybit " +:+ context +:+ "." +:+ key)%string in
  match json_get_null row key with
  | JStr _ | JInt _ | JBool _ =>
      parsed ← reraise [ExcValueError] (json_int (json_get_null row key))
                 (λ _, Exn ExcBybitPayloadError (name +:+ " must be an integer"));
      if parsed <? 0 then payload_error (name +:+ " must be non-negative") else Ok parsed
  | _ => payload_error (name +:+ " must be an integer")
  end.

(** The first row of the symbol. *)
Fixpoint find_instrument_row (symbol : string) (rows : list json) : res json_object :=
  match rows with
  | [] => payload_error ("Bybit instrument metadata missing for symbol " +:+ symbol)
  | JObj row :: rows =>
      if json_eq_str (json_get_null row "symbol") symbol then Ok row else find_instrument_row symbol rows
  | _ :: _ => payload_error "Bybit instrument row must be an object"
  end.

Section rest.
Context (cfg : RestConfig) (transport : Transport) (random : nat → float).

Definition retry_delay_seconds (e : transport_exn) (attempt : Z) : res float :=
  match e with
  | HttpError _ _ (Some retry_after) =>
      Ok (fmax (float_of_Z 0) (fmin (rs_retry_max_delay_seconds cfg) retry_after))
  | _ =>
      let base_delay := if is_rate_limit_error e then rs_retry_rate_limit_delay_seconds cfg
                        else rs_retry_base_delay_seconds cfg in
      let exponent := Z.max 0 (attempt - 1) in
      _ ← raise_if (emax <=? exponent) ExcOverflowError "int too large to convert to float";
      let delay := fmin (rs_retry_max_delay_seconds cfg) (fmul base_delay (float_of 1 exponent)) in
      let jitter := fmul (fmul delay (rs_retry_jitter_ratio cfg)) (random (Z.to_nat attempt)) in
      mret (fmin (rs_retry_max_delay_seconds cfg) (fadd delay jitter))
  end.

(** The loop of [_get_json_with_retry] over [attempts]; the last attempt never falls out of it. *)
Fixpoint retry_loop (attempts : Z) (remaining : nat) (attempt : Z) (url : string) (ps : params) : Fetch json_object :=
  match remaining with
  | O => (raise (ExcForeign "AssertionError" false) "retry loop exhausted without raising", [])
  | S remaining =>
      match transport (Z.to_nat attempt) url ps (rs_timeout_seconds cfg) with
      | inl payload => (Ok payload, [])
      | inr (OtherExn e) => (Raise e, [])
      | inr e =>
          if attempt =? attempts then (Raise (exn_of_transport e), [])
          else match retry_delay_seconds e attempt with
               | Ok delay => let '(r, slept) := retry_loop attempts remaining (attempt + 1) url ps in (r, delay :: slept)
               | Raise e' => (Raise e', [])
               end
      end
  end.

Definition get_json_with_retry (url : string) (ps : params) : Fetch json_object :=
  let attempts := Z.max 1 (rs_retry_attempts cfg) in
  retry_loop attempts (Z.to_nat attempts) 1 url ps.

Definition endpoint (path : string) : string :=
  text (rstrip_char (chr 47) (chars (rs_base_url cfg))) +:+ path.

Definition get_market_rows (path : string) (ps : params) : Fetch (list json) :=
  let '(r, slept) := get_json_with_retry (endpoint path) ps in
  (payload ← r; extract_rows payload, slept).

Definition exchange_symbol_for_instrument (i : InstrumentKey) : res string :=
  match rs_exchange_symbols cfg !! ticker i with
  | Some symbol => Ok symbol
  | None => raise ExcValueError ("no Bybit symbol configured for " +:+ ticker i)
  end.

(** A fetch that fails before its first request. *)
Definition with_symbol {A} (i : InstrumentKey) (f : string → Fetch A) : Fetch A :=
  match exchange_symbol_for_instrument i with Ok symbol => f symbol | Raise e => (Raise e, []) end.

Definition fetch_closed_candles (k : StreamKey) (window : TimeWindow) (observed_at_ms : Z) :
    Fetch (list ObservedCandle) :=
  with_symbol (instrument k) (λ symbol,
    let max_rows := Z.max 1 (window_duration_ms window / stream_step k) in
    if 1000 <? max_rows then
      (raise ExcValueError "Bybit kline window must contain no more than 1000 candles", [])
    else
      let '(rows, slept) := get_market_rows "/v5/market/kline"
        [("category", PStr (rs_category cfg)); ("symbol", PStr symbol);
         ("interval", PStr (bybit_interval (timeframe k)));
         ("start", PInt (start_ms window)); ("end", PInt (end_ms window - 1)); ("limit", PInt max_rows)]%string in
      (rows ← rows; parse_kline_rows rows k window observed_at_ms, slept)).

Definition instrument_rows (symbol : string) : Fetch (list json) :=
  get_market_rows "/v5/market/instruments-info"
    [("category", PStr (rs_category cfg)); ("symbol", PStr symbol)]%string.

(** The instrument cache is the state of the source. *)
Definition Cache := gmap string ExchangeInstrumentSpecification.

Definition specification_of_row (i : InstrumentKey) (row : json_object) : res ExchangeInstrumentSpecification :=
  symbol ← required_text row "symbol" "instrument";
  contract_type ← required_text row "contractType" "instrument";
  status ← required_text row "status" "instrument";
  settle_coin ← required_text row "settleCoin" "instrument";
  launch_time_ms ← required_non_negative_int row "launchTime" "instrument";
  Specification_new i symbol (rs_category cfg) contract_type status settle_coin launch_time_ms.

Definition get_instrument_specification (i : InstrumentKey) (cache : Cache) :
    Fetch ExchangeInstrumentSpecification * Cache :=
  match cache !! ticker i with
  | Some cached => ((Ok cached, []), cache)
  | None =>
      let fetch := with_symbol i (λ symbol,
        let '(rows, slept) := instrument_rows symbol in
        (rows ← rows; row ← find_instrument_row symbol rows; specification_of_row i row, slept)) in
      (fetch, match fetch.1 with Ok s => <[ticker i := s]> cache | Raise _ => cache end)
  end.

Definition get_launch_time_ms (i : InstrumentKey) (cache : Cache) : Fetch Z :=
  match cache !! ticker i with
  | Some cached => (Ok (es_launch_time_ms cached), [])
  | None => with_symbol i (λ symbol,
      let '(rows, slept) := instrument_rows symbol in
      (rows ← rows; row ← find_instrument_row symbol rows;
       required_non_negative_int row "launchTime" "instrument", slept))
  end.

(** ** open_interest_source.py *)

Definition MAX_POINTS_PER_WINDOW : Z := 200.

Definition fetch_open_interest (include_current : bool) (k : StreamKey) (window : TimeWindow) (observed_at_ms : Z) :
    Fetch (list ObservedOpenInterest) :=
  if negb (bool_decide (timeframe k = OPEN_INTEREST_TIMEFRAME)) then
    (raise ExcValueError "open interest is supported only for 5m streams", [])
  else
    let step_ms := stream_step k in
    let points := window_duration_ms window / step_ms in
    if MAX_POINTS_PER_WINDOW <? points then
      (raise ExcValueError "Bybit open interest window must contain no more than 200 points", [])
    else with_symbol (instrument k) (λ symbol,
      let '(rows, slept) := get_market_rows "/v5/market/open-interest"
        [("category", PStr (rs_category cfg)); ("symbol", PStr symbol); ("intervalTime", PStr "5min");
         ("startTime", PInt (start_ms window)); ("endTime", PInt (end_ms window - step_ms));
         ("limit", PInt (Z.max 1 points))]%string in
      (rows ← rows; parse_open_interest_rows rows k window observed_at_ms include_current, slept)).
End rest.

(** ** http_transport.py *)

(** What [urlopen] and reading the body come to; a body is [None] when it is not UTF-8. *)
Inductive url_answer :=
| UrlBody (body : option string)
| UrlHTTPError (code : Z) (shown : string) (retry_after_header : option string)
| UrlError (shown : string)                            (* URLError or TimeoutError *)
| UrlRaise (e : exn).

Class UrlEnv := {
  url_open : nat → string → float → url_answer;        (* by the attempt of the fetch *)
  json_loads : string → option json;                   (* [None] is JSONDecodeError *)
  parsedate_timestamp : string → option Z              (* [None] when [parsedate_to_datetime] raises *)
}.

Section url.
Context `{U : UrlEnv}.

(** [quote_plus] and [urlencode] *)
Definition quote_char (c : Ascii.ascii) : list Ascii.ascii :=
  if is_alnum c || existsb (Ascii.eqb c) (chars "_.-~") then [c]
  else if Ascii.eqb c (chr 32) then [plus]
  else [chr 37; to_upper (hex_char (code c / 16)); to_upper (hex_char (code c mod 16))].
Definition quote_plus (s : string) : string := text (flat_map quote_char (chars s)).
Definition param_text (p : param) : string := match p with PStr s => s | PInt z => str_of_Z z end.
Definition urlencode (ps : params) : string :=
  join "&" (map (λ kv, quote_plus kv.1 +:+ "=" +:+ quote_plus (param_text kv.2)) ps).

Definition retry_after_seconds (header : option string) : option float :=
  match header with
  | None => None
  | Some h =>
      let stripped := strip h in
      match py_float stripped with
      | Some x => Some (fmax (float_of_Z 0) x)
      | None => (λ t, fmax (float_of_Z 0) (float_of_Z t)) <$> parsedate_timestamp stripped
      end
  end.

Definition get_json : Transport := λ attempt url ps timeout_seconds,
  let request_url := (url +:+ "?" +:+ urlencode ps)%string in
  let failed shown := ("GET " +:+ request_url +:+ " failed: " +:+ shown)%string in
  match url_open attempt request_url timeout_seconds with
  | UrlHTTPError code shown header => inr (HttpError (failed shown) (Some code) (retry_after_seconds header))
  | UrlError shown => inr (HttpError (failed shown) None None)
  | UrlRaise e => inr (OtherExn e)
  | UrlBody body =>
      match body ≫= json_loads with
      | None => inr (OtherExn (Exn ExcBybitPayloadError "Bybit response is not valid UTF-8 JSON"))
      | Some (JObj payload) => inl payload
      | Some _ => inr (OtherExn (Exn ExcBybitPayloadError "Bybit response root must be a JSON object"))
      end
  end.
End url.

(** ** The source of the use cases

    The environment of Storage.v over this adapter: its answers are those of a client whose n-th
    call meets the n-th transport, with the cache it has then. *)
Section source.
Context (cfg : RestConfig) (clock : nat → Z) (transport : nat → Transport) (random : nat → nat → float)
  (cache : nat → Cache) (include_current : bool).

Definition bybit_env : Env := {|
  env_clock := clock;
  env_fetch_closed_candles n k w t := (fetch_closed_candles cfg (transport n) (random n) k w t).1;
  env_fetch_open_interest n k w t := (fetch_open_interest cfg (transport n) (random n) include_current k w t).1;
  env_launch_time_ms n i := (get_launch_time_ms cfg (transport n) (random n) i (cache n)).1;
  env_specification n i := (get_instrument_specification cfg (transport n) (random n) i (cache n)).1.1
|}.
End source.

(** ** The parsed rows *)

Section rows.
Context {A : Type} (time : A → Z) (keep : A → bool).

(** The last kept item of each time. *)
Definition last_kept (l : list A) (x : A) : Prop :=
  ∃ l1 l2, l = l1 ++ x :: l2 ∧ keep x = true ∧ (∀ y, y ∈ l2 → keep y = true → time y ≠ time x).

Lemma by_open_time_snoc l x :
  by_open_time time keep (l ++ [x]) =
  if keep x then <[time x := x]> (by_open_time time keep l) else by_open_time time keep l.
Proof. unfold by_open_time. by rewrite fold_left_app. Qed.

Lemma by_open_time_lookup l t x :
  by_open_time time keep l !! t = Some x ↔ last_kept l x ∧ time x = t.
Proof.
  revert t x. induction l as [|y l IH] using rev_ind; intros t x.
  { split; [done|]. by intros [(l1 & l2 & H & _) _]; destruct l1. }
  rewrite by_open_time_snoc.
  assert (Hold : last_kept (l ++ [y]) x ↔ (last_kept l x ∧ (keep y = true → time y ≠ time x)) ∨ (x = y ∧ keep y = true)).
  { split.
    - intros (l1 & l2 & H & Hk & Hl). destruct l2 as [|z l2 _] using rev_ind.
      + apply app_inj_tail in H as [_ ->]. by right.
      + rewrite app_comm_cons, app_assoc in H. apply app_inj_tail in H as [-> ->]. left. split.
        * exists l1, l2. repeat split; [done|]. intros w Hw. apply Hl, elem_of_app. by left.
        * apply Hl, elem_of_app. right. constructor.
    - intros [[(l1 & l2 & -> & Hk & Hl) Hy]|[-> Hk]].
      + exists l1, (l2 ++ [y]). rewrite <-app_assoc. repeat split; [done|].
        intros w [Hw|Hw%list_elem_of_singleton]%elem_of_app; [by apply Hl|by subst].
      + exists l, []. repeat split; [done|]. by intros w Hw%elem_of_nil. }
  rewrite Hold. destruct (keep y) eqn:Hy.
  - destruct (decide (time y = t)) as [<-|Ht].
    + rewrite lookup_insert_eq. split.
      * intros [= ->]. split; [by right|done].
      * intros [[[_ H]|[-> _]] He]; [by destruct (H eq_refl)|done].
    + rewrite lookup_insert_ne by done. rewrite IH. naive_solver congruence.
  - rewrite IH. naive_solver.
Qed.

Lemma by_open_time_sorted (m : gmap Z A) :
  (∀ t x, m !! t = Some x → time x = t) →
  map time (sorted_values m) = py_sorted (elements (dom m)).
Proof.
  intros Hm. unfold sorted_values.
  assert (Hin : ∀ t, t ∈ py_sorted (elements (dom m)) → is_Some (m !! t))
    by (intros t; rewrite py_sorted_elem, elem_of_elements, elem_of_dom; done).
  induction (py_sorted (elements (dom m))) as [|t l IH]; [done|]. cbn.
  destruct (Hin t) as [x Hx]; [constructor|]. rewrite Hx. cbn. rewrite (Hm t x Hx). f_equal.
  apply IH. intros t' Ht'. apply Hin. by constructor.
Qed.

(** The values in key order are the last kept items, at strictly increasing times. *)
Lemma sorted_values_exact l :
  let r := sorted_values (by_open_time time keep l) in
  StronglySorted Z.lt (map time r) ∧ ∀ x, x ∈ r ↔ last_kept l x.
Proof.
  intros r. split.
  - unfold r. rewrite by_open_time_sorted; [apply py_sorted_strict, NoDup_elements|].
    by intros t x [_ ?]%by_open_time_lookup.
  - intros x. unfold r, sorted_values. rewrite list_elem_of_omap. split.
    + by intros (t & _ & [? _]%by_open_time_lookup).
    + intros Hx. exists (time x). assert (H : by_open_time time keep l !! time x = Some x)
        by by apply by_open_time_lookup.
      split; [|done]. rewrite py_sorted_elem, elem_of_elements, elem_of_dom. by eexists.
Qed.
End rows.

(** ** Retries *)

Definition recoverable_answer (e : transport_exn) : bool := match e with OtherExn _ => false | _ => true end.

Definition answer_result (a : json_object + transport_exn) : res json_object :=
  match a with inl payload => Ok payload | inr e => Raise (exn_of_transport e) end.

Lemma retry_delay_ok cfg random e attempt :
  attempt ≤ emax → ∃ d, retry_delay_seconds cfg random e attempt = Ok d.
Proof.
  intros Ha. unfold retry_delay_seconds. destruct e as [m c [x|]|m c|e]; [by eexists| | |];
    (cbv zeta; rewrite (proj2 (Z.leb_gt emax (Z.max 0 (attempt - 1)))) by (unfold emax in *; lia); by eexists).
Qed.

(** A pause is not over the limit, unless the limit is negative. *)
Lemma retry_delay_le cfg random e attempt d :
  flt (rs_retry_max_delay_seconds cfg) (float_of_Z 0) = false →
  retry_delay_seconds cfg random e attempt = Ok d → flt (rs_retry_max_delay_seconds cfg) d = false.
Proof.
  intros H0. unfold retry_delay_seconds.
  assert (Hj : ∀ (b : bool) x, (_ ← raise_if b ExcOverflowError "int too large to convert to float";
      mret (fmin (rs_retry_max_delay_seconds cfg) x)) = Ok d → flt (rs_retry_max_delay_seconds cfg) d = false).
  { intros b x [_ [= <-]]%raise_if_bind_ok. apply fmin_le. }
  destruct e as [m c [x|]|m c|e]; try apply Hj. intros <-%Ok_inj. unfold fmax.
  case_match; [apply fmin_le|exact H0].
Qed.

Lemma retry_loop_exact cfg transport random attempts url ps remaining attempt :
  attempts ≤ emax → 1 ≤ attempt → attempt + Z.of_nat remaining = attempts + 1 → (0 < remaining)%nat →
  let ask i := transport (Z.to_nat i) url ps (rs_timeout_seconds cfg) in
  let '(r, slept) := retry_loop cfg transport random attempts remaining attempt url ps in
  let last := attempt + Z.of_nat (length slept) in
  last ≤ attempts ∧ r = answer_result (ask last) ∧
  (∀ i, attempt ≤ i < last → ∃ e, ask i = inr e ∧ recoverable_answer e = true ∧
     Ok <$> slept !! Z.to_nat (i - attempt) = Some (retry_delay_seconds cfg random e i)) ∧
  (∀ e, ask last = inr e → recoverable_answer e = true → last = attempts).
Proof.
  intros Hmax. revert attempt. induction remaining as [|remaining IH]; intros attempt Ha Hr Hn; [lia|].
  intros ask. cbn [retry_loop]. cbv zeta. change (transport (Z.to_nat attempt) url ps _) with (ask attempt).
  destruct (ask attempt) as [payload|e] eqn:Hask.
  { rewrite Z.add_0_r, Hask. repeat split; [lia|lia|done]. }
  destruct (recoverable_answer e) eqn:He.
  2:{ destruct e; try done. cbn [length]. rewrite Z.add_0_r, Hask. repeat split; [lia|lia|]. by intros e' [= <-]. }
  set (cont := if attempt =? attempts then _ else _).
  replace (match e with OtherExn e0 => (Raise e0, []) | _ => cont end) with cont by by destruct e.
  unfold cont. destruct (Z.eqb_spec attempt attempts) as [->|Hne].
  { rewrite Z.add_0_r, Hask. repeat split; lia. }
  destruct (retry_delay_ok cfg random e attempt ltac:(lia)) as [d Hd]. rewrite Hd.
  specialize (IH (attempt + 1) ltac:(lia) ltac:(lia) ltac:(lia)). cbv zeta in IH.
  destruct (retry_loop _ _ _ _ _ _ _ _) as [r slept]. cbn [length].
  replace (attempt + Z.of_nat (S (length slept))) with (attempt + 1 + Z.of_nat (length slept)) by lia.
  destruct IH as (Hl & Hres & Hi & Hlast). repeat split; [lia|exact Hres| |exact Hlast].
  intros i Hi2. destruct (decide (i = attempt)) as [->|Hia].
  - exists e. rewrite Z.sub_diag. cbn. by rewrite Hd.
  - destruct (Hi i ltac:(lia)) as (e' & H1 & H2 & H3). exists e'. repeat split; [done|done|].
    replace (Z.to_nat (i - attempt)) with (S (Z.to_nat (i - (attempt + 1)))) by lia. exact H3.
Qed.

(** C35. A request to the exchange is retried exactly when the transport failed recoverably, at most
    [max(1, retry_attempts)] times in all.  The pause after each failed attempt is the one of the
    backoff policy and never over its limit.  The first answer, or failure that is not
    recoverable, ends the loop; a recoverable failure is raised only at the last attempt. *)
Theorem market_rows_retried cfg transport random path ps :
  rs_retry_attempts cfg ≤ 1024 → flt (rs_retry_max_delay_seconds cfg) (float_of_Z 0) = false →
  let ask i := transport (Z.to_nat i) (endpoint cfg path) ps (rs_timeout_seconds cfg) in
  let '(r, slept) := get_market_rows cfg transport random path ps in
  let requests := 1 + Z.of_nat (length slept) in
  requests ≤ Z.max 1 (rs_retry_attempts cfg) ∧
  (∀ i, 1 ≤ i < requests → ∃ e delay,
     ask i = inr e ∧ recoverable_answer e = true ∧ slept !! Z.to_nat (i - 1) = Some delay ∧
     retry_delay_seconds cfg random e i = Ok delay ∧ flt (rs_retry_max_delay_seconds cfg) delay = false) ∧
  match ask requests with
  | inl payload => r = extract_rows payload
  | inr e => r = Raise (exn_of_transport e) ∧
             (recoverable_answer e = true → requests = Z.max 1 (rs_retry_attempts cfg))
  end.
Proof.
  intros Hmax H0 ask. unfold get_market_rows, get_json_with_retry. cbv zeta.
  pose proof (retry_loop_exact cfg transport random (Z.max 1 (rs_retry_attempts cfg)) (endpoint cfg path) ps
    (Z.to_nat (Z.max 1 (rs_retry_attempts cfg))) 1 ltac:(unfold emax; lia) ltac:(lia) ltac:(lia) ltac:(lia)) as H.
  cbv zeta in H. destruct (retry_loop _ _ _ _ _ _ _ _) as [r slept]. destruct H as (Hl & -> & Hi & Hlast).
  fold (ask (1 + Z.of_nat (length slept))) in *. split; [exact Hl|]. split.
  - intros i Hlt. destruct (Hi i Hlt) as (e & He & Hrec & Hd).
    destruct (slept !! Z.to_nat (i - 1)) as [d|] eqn:Hs; [|done]. apply Some_inj in Hd. cbn in Hd.
    exists e, d. split_and!; [done..|]. by eapply retry_delay_le.
  - destruct (ask (1 + Z.of_nat (length slept))) as [payload|e]; [done|]. split; [done|]. by apply Hlast.
Qed.

(** What a payload says of its result code never reaches the retries: a rate limit in the body of an
    answer ends the fetch at once. *)
Lemma transient_code_not_retried cfg transport random path ps payload :
  transport 1%nat (endpoint cfg path) ps (rs_timeout_seconds cfg) = inl payload →
  json_get payload "retCode" = Some (JInt 10006) →
  ∃ message, get_market_rows cfg transport random path ps = (raise ExcBybitTransientApiError message, []).
Proof.
  intros Ht Hc. unfold get_market_rows, get_json_with_retry. cbv zeta.
  destruct (Z.to_nat (Z.max 1 (rs_retry_attempts cfg))) eqn:Hn; [lia|].
  cbn [retry_loop]. change (Z.to_nat 1) with 1%nat. rewrite Ht. unfold mbind, res_bind. unfold extract_rows, json_get_null.
  rewrite Hc. by eexists.
Qed.

(** ** Fetched candles *)

Definition fetched_candle (k : StreamKey) (w : TimeWindow) (observed_at_ms : Z) (c : ObservedCandle) : Prop :=
  oc_stream c = k ∧ window_contains w (oc_open_time_ms c) = true ∧
  oc_close_time_ms c = oc_open_time_ms c + stream_step k - 1 ∧
  oc_confirmed c = (oc_close_time_ms c <? observed_at_ms) ∧
  oc_observed_at_ms c = observed_at_ms ∧ oc_source c = BYBIT_REST ∧ ohlcv_parsed (oc_values c).

Lemma ObservedCandle_new_ok k t1 t2 o h l c v b t src r :
  input_wf o → input_wf h → input_wf l → input_wf c → input_wf v →
  ObservedCandle_new k t1 t2 o h l c v b t src = Ok r →
  ∃ values, r = mkObservedCandle k t1 t2 values b t src ∧ ohlcv_parsed values.
Proof.
  intros Ho Hh Hl Hc Hv H. unfold ObservedCandle_new in H. apply res_bind_ok in H as (values & Hp & H).
  injection H as <-. exists values. split; [done|]. by apply (parse_ohlcv_parsed o h l c v).
Qed.

Lemma parse_kline_row_ok k t row c :
  parse_kline_row k t (stream_step k) row = Ok c →
  ∀ w, window_contains w (oc_open_time_ms c) = true → fetched_candle k w t c.
Proof.
  unfold parse_kline_row. destruct row as [| | | | |[|r0 [|r1 [|r2 [|r3 [|r4 [|r5 l]]]]]]|]; try done.
  intros (t0 & _ & H)%res_bind_ok w Hw. cbv zeta in H.
  apply ObservedCandle_new_ok in H as (values & -> & Hp); try apply decimal_input_wf. by repeat split.
Qed.

(** What a sequential [mapM] returns, or the first item that raises. *)
Lemma res_mapM_exact {A B} (f : A → res B) (l : list A) :
  match mapM f l with
  | Ok r => Forall2 (λ x y, f x = Ok y) l r
  | Raise e => ∃ l1 x l2, l = l1 ++ x :: l2 ∧ f x = Raise e ∧ Forall (λ y, is_ok (f y) = true) l1
  end.
Proof.
  induction l as [|x l IH]; cbn; [constructor|]. destruct (f x) as [y|e] eqn:Hf; cbn.
  - destruct (mapM f l) as [r|e]; cbn; [by constructor|].
    destruct IH as (l1 & z & l2 & -> & Hz & Hl). exists (x :: l1), z, l2. split; [done|]. split; [done|].
    constructor; [by rewrite Hf|done].
  - exists [], x, l. by repeat split.
Qed.

Lemma parse_decimal_raises v : raises_only ExcInvalidDecimalValue (parse_decimal v).
Proof. intros e. unfold parse_decimal, raise. repeat case_match; by intros [= <-]. Qed.

Lemma parse_ohlcv_raises o h l c v : raises_only ExcInvalidDecimalValue (parse_ohlcv o h l c v).
Proof.
  unfold parse_ohlcv. repeat (apply raises_only_bind; [apply parse_decimal_raises|intros ?]).
  apply raises_only_mret.
Qed.

Lemma json_int_raises v e :
  json_int v = Raise e → exn_cls e ∈ [ExcTypeError; ExcValueError; ExcOverflowError].
Proof.
  unfold json_int, int_of_float, raise. intros H. repeat case_match; simplify_eq; cbn; rewrite !elem_of_cons; auto.
Qed.

Lemma payload_int_raises v msg e :
  reraise [ExcTypeError; ExcValueError] (json_int v) (λ _, Exn ExcBybitPayloadError msg) = Raise e →
  exn_cls e ∈ [ExcBybitPayloadError; ExcOverflowError].
Proof.
  unfold reraise. destruct (json_int v) as [z|e0] eqn:Hz; [done|]. apply json_int_raises in Hz.
  destruct (existsb (isinstance e0) _) eqn:Hi; intros [= <-]; [by left|].
  unfold isinstance in Hi. cbn in Hi. set_unfold in Hz. set_unfold.
  destruct Hz as [Hz|[Hz|[Hz|[]]]]; rewrite Hz in Hi |- *; auto; done.
Qed.

Lemma parse_kline_row_raises k t row e :
  parse_kline_row k t (stream_step k) row = Raise e →
  exn_cls e ∈ [ExcBybitPayloadError; ExcOverflowError; ExcInvalidDecimalValue].
Proof.
  assert (Hpay : ∀ A m, raises_only ExcBybitPayloadError (@payload_error A m)) by (intros; apply raises_only_raise).
  unfold parse_kline_row. rewrite !elem_of_cons.
  destruct row as [| | | | |[|r0 [|r1 [|r2 [|r3 [|r4 [|r5 l]]]]]]|]; try (intros ->%Hpay; by left).
  destruct (reraise _ (json_int r0) _) as [z|e0] eqn:Hz; cbn.
  - unfold ObservedCandle_new. intros H. do 2 right. left.
    apply (raises_only_bind _ _ _ (parse_ohlcv_raises _ _ _ _ _) (λ _, raises_only_mret _ _) _ H).
  - intros [= ->]. apply payload_int_raises in Hz. rewrite !elem_of_cons in Hz. naive_solver.
Qed.

Lemma parse_kline_rows_ok rows k w t l :
  parse_kline_rows rows k w t = Ok l →
  ∃ candles, Forall2 (λ row c, parse_kline_row k t (stream_step k) row = Ok c) rows candles ∧
    StronglySorted Z.lt (map oc_open_time_ms l) ∧ Forall (fetched_candle k w t) l ∧
    (∀ c, c ∈ l ↔ last_kept oc_open_time_ms (λ c, window_contains w (oc_open_time_ms c)) candles c).
Proof.
  unfold parse_kline_rows. cbv zeta. pose proof (res_mapM_exact (parse_kline_row k t (stream_step k)) rows) as H.
  destruct (mapM _ rows) as [candles|e]; cbn; [|done]. intros <-%Ok_inj.
  destruct (sorted_values_exact oc_open_time_ms (λ c, window_contains w (oc_open_time_ms c)) candles) as [Hs Hl].
  exists candles. split_and!; [done|done| |done]. apply Forall_forall. intros c Hc.
  destruct (proj1 (Hl c) Hc) as (l1 & l2 & -> & Hk & _).
  apply Forall2_app_inv_r in H as (r1 & r2 & _ & H & _). apply Forall2_cons_inv_r in H as (row & r3 & Hp & _ & _).
  by apply (parse_kline_row_ok k t row c).
Qed.

(** Parsing the rows of a kline answer either raises what the first bad row raises, or returns
    candles of the stream in strictly increasing order of open times inside the requested window:
    exactly the last row of each of them, with the exact decimals of the row, confirmed when its
    bar had closed before the observation. *)
Theorem kline_rows_exact (rows : list json) (k : StreamKey) (w : TimeWindow) (observed_at_ms : Z) :
  let parse := parse_kline_row k observed_at_ms (stream_step k) in
  match parse_kline_rows rows k w observed_at_ms with
  | Ok l =>
      ∃ candles, Forall2 (λ row c, parse row = Ok c) rows candles ∧
        StronglySorted Z.lt (map oc_open_time_ms l) ∧ Forall (fetched_candle k w observed_at_ms) l ∧
        (∀ c, c ∈ l ↔ last_kept oc_open_time_ms (λ c, window_contains w (oc_open_time_ms c)) candles c)
  | Raise e =>
      ∃ before row after, rows = before ++ row :: after ∧ parse row = Raise e ∧
        Forall (λ row, is_ok (parse row) = true) before ∧
        exn_cls e ∈ [ExcBybitPayloadError; ExcOverflowError; ExcInvalidDecimalValue]
  end.
Proof.
  intros parse. destruct (parse_kline_rows rows k w observed_at_ms) as [l|e] eqn:Hp.
  - by apply parse_kline_rows_ok in Hp.
  - unfold parse_kline_rows in Hp. cbv zeta in Hp. fold parse in Hp. pose proof (res_mapM_exact parse rows) as H.
    destruct (mapM parse rows) as [candles|e']; [done|]. injection Hp as ->.
    destruct H as (l1 & row & l2 & -> & Hr & Hl). exists l1, row, l2. split_and!; [done..|].
    by apply (parse_kline_row_raises k observed_at_ms row).
Qed.

(** The points of an open interest answer: the last row of each open time in the window that is not
    later than the last closed bar, or than the bar after it when the current bar is wanted. *)
Definition admissible_point (w : TimeWindow) (newest : Z) (p : ObservedOpenInterest) : bool :=
  window_contains w (oi_open_time_ms p) && (oi_open_time_ms p <=? newest).

Lemma parse_open_interest_rows_ok rows k w t include_current l :
  parse_open_interest_rows rows k w t include_current = Ok l →
  ∃ points last_closed, last_closed_open_time_ms t (stream_step k) = Ok last_closed ∧
    Forall2 (λ row p, parse_open_interest_row k t row = Ok p) rows points ∧
    StronglySorted Z.lt (map oi_open_time_ms l) ∧
    (∀ p, p ∈ l ↔ last_kept oi_open_time_ms
       (admissible_point w (if include_current then last_closed + stream_step k else last_closed)) points p).
Proof.
  unfold parse_open_interest_rows. cbv zeta. intros (last_closed & Hc & H)%res_bind_ok.
  pose proof (res_mapM_exact (parse_open_interest_row k t) rows) as Hm.
  destruct (mapM _ rows) as [points|e]; cbn in H; [|done]. apply Ok_inj in H as <-.
  exists points, last_closed. split; [done|]. split; [done|]. apply sorted_values_exact.
Qed.

(** ** The use cases over the adapter *)

Lemma fetch_closed_candles_ok cfg transport random k w t l :
  (fetch_closed_candles cfg transport random k w t).1 = Ok l → Forall (fetched_candle k w t) l.
Proof.
  unfold fetch_closed_candles, with_symbol. destruct (exchange_symbol_for_instrument _ _) as [symbol|e]; [|done].
  cbv zeta. destruct (1000 <? _); [done|]. destruct (get_market_rows _ _ _ _ _) as [rows slept]. cbn [fst].
  by intros (rows' & _ & (candles & _ & _ & Hf & _)%parse_kline_rows_ok)%res_bind_ok.
Qed.

(** The adapter gives the use cases the candles they rely on. *)
#[export] Instance bybit_env_ok cfg clock transport random cache include_current :
  EnvOk (E:=bybit_env cfg clock transport random cache include_current).
Proof.
  intros c k w t l H. apply fetch_closed_candles_ok in H. eapply Forall_impl; [exact H|].
  by intros cd (_ & _ & _ & _ & _ & _ & ?).
Qed.

Lemma import_loop_expected `{E : Env} k w l counts unexpected wd counts' unexpected' wd' :
  Forall (λ cd, is_expected k w cd = true) l →
  run (import_loop k w l counts unexpected) wd = (Ok (counts', unexpected'), wd') → unexpected' = unexpected.
Proof.
  intros HF. revert counts wd. induction HF as [|cd l Hcd HF IH]; intros counts wd; cbn [import_loop].
  - by intros [= _ ->].
  - rewrite Hcd. cbn [negb]. intros (t & wd1 & _ & H)%run_bind_ok. apply run_bind_ok in H as (r & wd2 & _ & H).
    by apply IH in H.
Qed.

(** C22. Importing a window of a registered stream over the Bybit adapter meets no candle it did not ask
    for: either the fetch failed and nothing changed, or every candle of the answer is committed,
    a duplicate, a correction or a counted rejection, only rows of the stream inside the window
    change, and nothing is quarantined as unexpected. *)
Theorem bybit_import_expected cfg clock transport random cache include_current k w a n c :
  store_inv a → is_Some (ab_streams a !! k) →
  let fetch := fetch_closed_candles cfg (transport c) (random c) k w (clock n) in
  match run (H:=bybit_env cfg clock transport random cache include_current) (import_window k w)
          (mkWorld a None n c) with
  | (Ok r, world) =>
      ∃ l, fetch.1 = Ok l ∧ iw_observed r = Z.of_nat (length l) ∧ iw_unexpected r = 0 ∧
        iw_committed r + iw_duplicates r + iw_corrected r + iw_rejected r = Z.of_nat (length l) ∧
        w_tx world = None ∧ store_inv (w_db world) ∧ import_frame k w a (w_db world)
  | (Raise e, world) => fetch.1 = Raise e ∧ w_db world = a ∧ w_tx world = None
  end.
Proof.
  intros Hi Hk fetch. set (E := bybit_env cfg clock transport random cache include_current).
  assert (Hf : @env_fetch_closed_candles E c k w (env_clock n) = fetch.1) by done.
  destruct fetch.1 as [l|e] eqn:He.
  2:{ by rewrite (run_import_window_failed k w a n c e Hf). }
  assert (Hl : Forall (fetched_candle k w (clock n)) l) by by apply (fetch_closed_candles_ok cfg (transport c) (random c)).
  destruct (run_import_window k w a n c l Hi Hk Hf) as (counts & u & a' & n' & Hrun & Hi' & Hfr & Ht & _).
  { eapply Forall_impl; [exact Hl|]. by intros cd (_ & _ & _ & _ & _ & _ & ?). }
  assert (u = 0) as ->.
  { unfold import_window in Hrun. apply run_bind_ok in Hrun as (t & w1 & [= <- <-] & Hrun).
    apply run_bind_ok in Hrun as (l' & w2 & Hcall & Hrun). cbn in Hcall. injection Hcall as Hl' <-.
    assert (l' = l) as -> by (apply Ok_inj; etrans; [symmetry; exact Hl'|exact Hf]).
    unfold called, tick in Hrun. cbn [w_db w_tx w_ticks w_calls] in Hrun. rewrite run_bind, run_with_uow in Hrun.
    destruct (run _ _) as [[[counts' u']|e'] w3] eqn:Hloop in Hrun; [|done].
    apply run_bind_ok in Hloop as ([counts1 u1] & w4 & Hloop & Hc).
    apply run_bind_ok in Hc as (? & w5 & _ & [= -> -> _]). rewrite run_ret in Hrun.
    apply (f_equal fst), Ok_inj, (f_equal iw_unexpected) in Hrun. cbn in Hrun. subst u'.
    eapply import_loop_expected; [|exact Hloop]. eapply Forall_impl; [exact Hl|].
    intros cd (Hs & Hw & _). unfold is_expected. by rewrite Hs, bool_decide_true, Hw. }
  rewrite Hrun. exists l. unfold import_result, total in *. cbn. split_and!; try done; lia.
Qed.


(** ** Witnesses *)

Definition example_rest : RestConfig := default_rest {["BTCUSDT.P"%string := "BTCUSDT"%string]}.
Definition example_row (t price : string) : json :=
  JArr [JStr t; JStr price; JStr "12.5"; JStr "9"; JStr "11"; JStr "100"; JStr "0"]%string.
Definition example_payload : json_object :=
  [("retCode", JInt 0); ("result", JObj [("list", JArr
     [example_row "120000" "10"; example_row "60000" "10.50"; example_row "0" "10"; example_row "60000" "10"])])]%string.

(** Two failed requests, then the answer. *)
Definition example_transport : Transport := λ attempt _ _ _,
  match attempt with
  | 1%nat => inr (HttpError "timed out" None None)
  | 2%nat => inr (HttpError "HTTP Error 429" (Some 429) (Some (float_of_Z 3)))
  | _ => inl example_payload
  end.

Lemma market_rows_retried_witness :
  let kline := [("symbol", PStr "BTCUSDT")]%string in
  let '(r, slept) := get_market_rows example_rest example_transport (λ _, float_of 1 (-1)) "/v5/market/kline" kline in
  (is_ok r = true ∧ slept = [float_of 9 (-3); float_of_Z 3]) ∧
  1 + Z.of_nat (length slept) ≤ Z.max 1 (rs_retry_attempts example_rest).
Proof.
  intros kline. pose proof (market_rows_retried example_rest example_transport (λ _, float_of 1 (-1)) "/v5/market/kline"
    kline ltac:(by vm_compute) ltac:(by vm_compute)) as H. cbv zeta in H.
  assert (Hc : let '(r, slept) := get_market_rows example_rest example_transport (λ _, float_of 1 (-1))
      "/v5/market/kline" kline in is_ok r = true ∧ slept = [float_of 9 (-3); float_of_Z 3]) by by vm_compute.
  destruct (get_market_rows _ _ _ _ _) as [r slept]. split; [exact Hc|apply H].
Defined.

Definition example_import : res ImportWindowResult * World AbsStore :=
  run (H:=bybit_env example_rest (λ n, 1000000 + Z.of_nat n) (λ _, example_transport) (λ _ _, float_of_Z 0) (λ _, ∅) false)
    (import_window example_stream (mkTimeWindow 0 120000)) (mkWorld example_store None 0 0).

Lemma bybit_import_expected_witness :
  example_import.1 = Ok (mkImportResult 2 2 0 0 0 0) ∧ store_inv (w_db example_import.2).
Proof.
  assert (Hc : example_import.1 = Ok (mkImportResult 2 2 0 0 0 0)) by by vm_compute.
  split; [exact Hc|].
  pose proof (bybit_import_expected example_rest (λ n, 1000000 + Z.of_nat n) (λ _, example_transport)
      (λ _ _, float_of_Z 0) (λ _, ∅) false example_stream (mkTimeWindow 0 120000) example_store 0 0 example_store_inv
      ltac:(by vm_compute; eexists)) as H. cbv zeta in H. fold example_import in H.
  destruct example_import as [r world]. cbn [fst snd] in *. subst r. destruct H as (l & _ & _ & _ & _ & _ & Hs & _). exact Hs.
Defined.
