(* ===== verification/BybitWebSocket.v ===== *)
(** * The Bybit WebSocket adapter

    adapters/bybit/websocket/topics.py, protocol.py and adapter.py: which topics a configuration
    subscribes to, and what a message of the exchange means.  [json.loads] is a parameter. *)

From S2P Require Import Prelude PyStr DecimalValues Timeframes Identity Candles StreamState Instruments.
From S2P Require Import OpenInterest Storage AbsStore Ingest ImportWindow UseCase Provenance.
From S2P Require Import RealtimeFacts PyFloat Json BybitRest.

(** ** topics.py *)

(** [topic_to_stream] in insertion order. *)
Definition TopicMap := list (string * StreamKey).

Fixpoint find_topic (m : TopicMap) (topic : string) : option StreamKey :=
  match m with
  | [] => None
  | (t, k) :: m => if bool_decide (t = topic) then Some k else find_topic m topic
  end.

Definition topics (m : TopicMap) : list string := map fst m.

Definition kline_topic (k : StreamKey) (symbol : string) : string :=
  "kline." +:+ bybit_interval (timeframe k) +:+ "." +:+ symbol.

Fixpoint add_topics (symbols : gmap string string) (m : TopicMap) (streams : list StreamKey) : res TopicMap :=
  match streams with
  | [] => Ok m
  | k :: streams =>
      match symbols !! ticker (instrument k) with
      | None => raise ExcKeyError (repr (ticker (instrument k)))
      | Some symbol =>
          let topic := kline_topic k symbol in
          _ ← raise_if (bool_decide (is_Some (find_topic m topic))) ExcRealtimeTopicMapError
                ("duplicate or ambiguous topic mapping: " +:+ topic);
          add_topics symbols (m ++ [(topic, k)]) streams
      end
  end.

Definition TopicMap_from_config (config : ValidatedMarketConfig) : res TopicMap :=
  mappings ← add_topics (exchange_symbols config) [] (enabled_streams config);
  _ ← raise_if (bool_decide (mappings = [])) ExcRealtimeTopicMapError "no enabled realtime topics configured";
  mret mappings.

Definition resolve (m : TopicMap) (topic : string) : res StreamKey :=
  match find_topic m topic with
  | Some k => Ok k
  | None => raise ExcRealtimeTopicMapError ("unknown realtime topic: " +:+ topic)
  end.

(** ** protocol.py *)

Definition ws_error {A} (message : string) : res A := raise ExcBybitWebSocketPayloadError message.

(** [json.dumps] escapes DEL too when it keeps to ASCII. *)
Definition ascii_char (c : Ascii.ascii) : list Ascii.ascii :=
  if code c =? 127 then chars "\u007f" else json_char c.

(** [json.dumps] of the messages the service sends. *)
Definition op_message (op request_id : string) (topics : list string) : string :=
  let quoted s := text (dquote :: flat_map ascii_char (chars s) ++ [dquote]) in
  "{" +:+ quoted "req_id" +:+ ": " +:+ quoted request_id +:+ ", " +:+ quoted "op" +:+ ": " +:+ quoted op +:+
  ", " +:+ quoted "args" +:+ ": [" +:+ join ", " (map quoted topics) +:+ "]}".
Definition subscription_message (topics : list string) (request_id : string) : string :=
  op_message "subscribe" request_id topics.
Definition unsubscription_message (topics : list string) (request_id : string) : string :=
  op_message "unsubscribe" request_id topics.

(** [text.split(".")] *)
Fixpoint split_dots (word l : list Ascii.ascii) : list string :=
  match l with
  | [] => [text (rev word)]
  | c :: l => if Ascii.eqb c dot then text (rev word) :: split_dots [] l else split_dots (c :: word) l
  end.

(** [row[key]] *)
Definition json_item (row : json_object) (key : string) : res json :=
  match json_get row key with Some v => Ok v | None => raise ExcKeyError (repr key) end.

(** The items of an array, when all are strings. *)
Fixpoint json_strings (l : list json) : option (list string) :=
  match l with
  | [] => Some []
  | JStr s :: l => cons s <$> json_strings l
  | _ :: _ => None
  end.

(** The body of the [try] of [_parse_candle]. *)
Definition candle_of_row (row : json_object) (k : StreamKey) (topic : string) (observed_at_ms : Z) :
    res ObservedCandle :=
  expected_interval ←
    match split_dots [] (chars topic) with
    | _ :: interval :: _ => Ok interval
    | _ => raise (ExcForeign "IndexError" false) "list index out of range"
    end;
  interval ← json_item row "interval";
  _ ← raise_if (negb (bool_decide (json_str interval = expected_interval))) ExcBybitWebSocketPayloadError
        ("kline interval mismatch: topic=" +:+ expected_interval +:+ " row=" +:+ json_str interval);
  confirm ← json_item row "confirm";
  match confirm with
  | JBool confirmed =>
      start ← json_item row "start";
      open_time_ms ← Json.json_int start;
      finish ← json_item row "end";
      close_time_ms ← Json.json_int finish;
      o ← json_item row "open";
      h ← json_item row "high";
      l ← json_item row "low";
      c ← json_item row "close";
      v ← json_item row "volume";
      ObservedCandle_new k open_time_ms close_time_ms (InStr (json_str o)) (InStr (json_str h))
        (InStr (json_str l)) (InStr (json_str c)) (InStr (json_str v)) confirmed observed_at_ms BYBIT_WEBSOCKET
  | _ => ws_error "kline confirm must be a boolean"
  end.

Definition parse_candle (row : json_object) (k : StreamKey) (topic : string) (observed_at_ms : Z) : res ObservedCandle :=
  reraise [ExcKeyError; ExcTypeError; ExcValueError] (candle_of_row row k topic observed_at_ms)
    (λ e, if bool_decide (exn_cls e = ExcBybitWebSocketPayloadError) then e
          else Exn ExcBybitWebSocketPayloadError ("invalid kline row: " +:+ exn_str e)).

Definition candle_event (k : StreamKey) (topic : string) (observed_at_ms : Z) (row : json) : res RealtimeEvent :=
  match row with
  | JObj row => CandleObserved k <$> parse_candle row k topic observed_at_ms
  | _ => ws_error "kline row must be an object"
  end.

(** A message that is neither a heartbeat nor an answer to a subscription. *)
Definition kline_events (payload : json_object) (m : TopicMap) (observed_at_ms : Z) : res (list RealtimeEvent) :=
  match json_get payload "topic" with
  | Some (JStr topic) =>
      k ← resolve m topic;
      match json_get payload "data" with
      | Some (JArr (row :: rows)) => mapM (candle_event k topic observed_at_ms) (row :: rows)
      | _ => ws_error "kline payload data must be a non-empty array"
      end
  | _ => ws_error "websocket payload has no topic"
  end.

(** The topics an answer confirms: those it names, or all of them. *)
Definition confirmed_topics (payload : json_object) (m : TopicMap) : list string :=
  let args := match json_get payload "data" with
              | Some (JObj data) => json_get_null data "successTopics" | _ => JNull end in
  match args with
  | JArr l => match json_strings l with Some names => names | None => topics m end
  | _ => topics m
  end.

Definition is_true (v : json) : bool := match v with JBool b => b | _ => false end.

(** [parse_message], given what [json.loads] made of the text ([None] is JSONDecodeError). *)
Definition parse_message (loaded : option json) (m : TopicMap) (observed_at_ms : Z) : res (list RealtimeEvent) :=
  match loaded with
  | None => ws_error "websocket message is not valid JSON"
  | Some (JObj payload) =>
      let op := json_get_null payload "op" in
      if json_eq_str op "pong" || json_eq_str (json_get_null payload "ret_msg") "pong"
      then mret [HeartbeatObserved observed_at_ms]
      else
        answer ← json_in_strs op ["subscribe"; "unsubscribe"]%string;
        if answer : bool then
          if negb (is_true (json_get_null payload "success")) then
            let detail := match json_get payload "ret_msg" with
                          | Some v => json_str v | None => "unknown subscription failure" end in
            mret [TransportFailed "subscription_failed" detail observed_at_ms]
          else mret [SubscriptionConfirmed (confirmed_topics payload m) observed_at_ms]
        else kline_events payload m observed_at_ms
  | Some _ => ws_error "websocket payload must be an object"
  end.

(** ** Topics *)

Lemma kline_topic_inj k1 s1 k2 s2 :
  kline_topic k1 s1 = kline_topic k2 s2 → timeframe k1 = timeframe k2 ∧ s1 = s2.
Proof. unfold kline_topic. destruct (timeframe k1), (timeframe k2); cbn; intros H; by simplify_eq. Qed.

(** The second word of a topic is its interval. *)
Lemma kline_topic_interval k symbol :
  ∃ rest, split_dots [] (chars (kline_topic k symbol)) = "kline"%string :: bybit_interval (timeframe k) :: rest.
Proof. unfold kline_topic. destruct (timeframe k); by eexists. Qed.

Lemma find_topic_None m topic : find_topic m topic = None ↔ topic ∉ topics m.
Proof.
  induction m as [|[t k] m IH]; cbn; [split; [intros _ H; by apply elem_of_nil in H|done]|].
  rewrite not_elem_of_cons. case_bool_decide; naive_solver.
Qed.

Lemma find_topic_Some m topic k : find_topic m topic = Some k → (topic, k) ∈ m.
Proof.
  induction m as [|[t k'] m IH]; cbn; [done|]. case_bool_decide as Ht; [intros [= ->]; subst; left|].
  intros H. right. by apply IH.
Qed.

Lemma find_topic_elem m topic k : NoDup (topics m) → (topic, k) ∈ m → find_topic m topic = Some k.
Proof.
  induction m as [|[t k'] m IH]; cbn; [intros _ H; by apply elem_of_nil in H|].
  intros [Hn Hd]%NoDup_cons [[= -> ->]|H]%elem_of_cons; [by rewrite bool_decide_true|].
  rewrite bool_decide_false; [by apply IH|]. intros ->. apply Hn. apply list_elem_of_fmap. by exists (topic, k).
Qed.

(** The mapping of each stream under a table of symbols. *)
Definition topic_entry (symbols : gmap string string) (k : StreamKey) : option (string * StreamKey) :=
  (λ symbol, (kline_topic k symbol, k)) <$> symbols !! ticker (instrument k).

Lemma add_topics_ok symbols m streams m' :
  add_topics symbols m streams = Ok m' →
  NoDup (topics m) →
  ∃ added, m' = m ++ added ∧ Forall2 (λ k e, topic_entry symbols k = Some e) streams added ∧ NoDup (topics m').
Proof.
  revert m. induction streams as [|k streams IH]; intros m; cbn [add_topics].
  { intros [= <-] Hn. exists []. by rewrite app_nil_r. }
  destruct (symbols !! _) as [symbol|] eqn:Hs; [|done]. cbv zeta. rewrite raise_if_bind_ok.
  intros [Hf%bool_decide_eq_false H] Hn. apply eq_None_not_Some, find_topic_None in Hf.
  apply IH in H as (added & -> & HF & Hn').
  - exists ((kline_topic k symbol, k) :: added). rewrite <-app_assoc in *. split; [done|]. split; [|done].
    constructor; [|done]. unfold topic_entry. by rewrite Hs.
  - unfold topics. rewrite map_app. apply NoDup_app. split; [done|]. split; [|apply NoDup_singleton].
    intros x Hx ->%list_elem_of_singleton. done.
Qed.

Lemma add_topics_total symbols m streams :
  (∀ k, k ∈ streams → is_Some (symbols !! ticker (instrument k))) →
  (∀ k1 k2 e1 e2, k1 ∈ map snd m ++ streams → k2 ∈ map snd m ++ streams →
     topic_entry symbols k1 = Some e1 → topic_entry symbols k2 = Some e2 → e1.1 = e2.1 → k1 = k2) →
  Forall (λ e, topic_entry symbols e.2 = Some e) m → NoDup (map snd m ++ streams) →
  is_ok (add_topics symbols m streams) = true.
Proof.
  revert m. induction streams as [|k streams IH]; intros m Hs Hinj Hm Hnd; cbn [add_topics]; [done|].
  destruct (Hs k ltac:(left)) as [symbol Hsym]. rewrite Hsym. cbv zeta.
  rewrite raise_if_bind_false.
  - apply IH; [intros; apply Hs; by right|..].
    + intros k1 k2 e1 e2. rewrite map_app, <-app_assoc. cbn. apply Hinj.
    + apply Forall_app. split; [done|]. constructor; [|done]. unfold topic_entry. cbn. by rewrite Hsym.
    + rewrite map_app, <-app_assoc. done.
  - apply bool_decide_eq_false. intros [k' Hk']. apply find_topic_Some in Hk'.
    rewrite Forall_forall in Hm. pose proof (Hm _ Hk') as He. cbn in He.
    assert (Hin : k' ∈ map snd m) by (apply list_elem_of_fmap; by exists (kline_topic k symbol, k')).
    assert (k' = k) as ->.
    { eapply Hinj; [| |exact He|unfold topic_entry; by rewrite Hsym|done]; apply elem_of_app; [by left|right; left]. }
    apply NoDup_app in Hnd as (_ & Hd & _). apply (Hd k Hin). left.
Qed.

Lemma NoDup_map_inj {A B} (f : A → B) l x y : NoDup (map f l) → x ∈ l → y ∈ l → f x = f y → x = y.
Proof.
  intros Hn [i Hi]%list_elem_of_lookup [j Hj]%list_elem_of_lookup Hf.
  assert (i = j) as ->; [|by rewrite Hi in Hj; injection Hj].
  eapply (NoDup_lookup (map f l)); [done| |]; change (map f l) with (f <$> l); rewrite list_lookup_fmap;
    [by rewrite Hi|by rewrite Hj; cbn; f_equal].
Qed.

Section accepted.
Context (path : string) (v : toml) (cfg : ValidatedMarketConfig).
Hypothesis Hload : load_market_config path (Ok v) = Ok cfg.

Lemma enabled_instrument_in c : c ∈ enabled_instruments cfg → c ∈ mc_instruments cfg.
Proof. unfold enabled_instruments. rewrite !list_elem_of_In, filter_In. tauto. Qed.

Lemma enabled_stream_instrument k :
  k ∈ enabled_streams cfg → ∃ c, c ∈ enabled_instruments cfg ∧ ic_instrument c = instrument k.
Proof.
  intros (c & Hc & Hk)%elem_of_flat_map. exists c. split; [done|].
  by apply list_elem_of_fmap in Hk as (tf & -> & _).
Qed.

Lemma exchange_symbols_lookup c :
  c ∈ enabled_instruments cfg → exchange_symbols cfg !! ticker (ic_instrument c) = Some (ic_exchange_symbol c).
Proof using Hload.
  intros Hc. pose proof (load_market_config_sound path v) as H. rewrite Hload in H. destruct H as (_ & Ht & _).
  unfold exchange_symbols. apply elem_of_list_to_map_1.
  - change (NoDup (fst <$> rev (map (λ i, (ticker (ic_instrument i), ic_exchange_symbol i)) (enabled_instruments cfg)))).
    rewrite <-(Permutation_rev (map _ _)), <-list_fmap_compose.
    eapply sublist_NoDup; [exact Ht|]. unfold enabled_instruments.
    clear. induction (mc_instruments cfg) as [|i l IH]; cbn; [constructor|].
    destruct (ic_enabled i); by constructor.
  - rewrite <-Permutation_rev. apply list_elem_of_fmap. by exists c.
Qed.

(** The symbol of an enabled stream, and that it names the stream's instrument alone. *)
Lemma topic_entry_enabled k :
  k ∈ enabled_streams cfg →
  ∃ c, c ∈ enabled_instruments cfg ∧ ic_instrument c = instrument k ∧
    topic_entry (exchange_symbols cfg) k = Some (kline_topic k (ic_exchange_symbol c), k).
Proof using Hload.
  intros (c & Hc & Hi)%enabled_stream_instrument. exists c. split; [done|]. split; [done|].
  unfold topic_entry. by rewrite <-Hi, exchange_symbols_lookup.
Qed.

Lemma topic_entry_inj k1 k2 e1 e2 :
  k1 ∈ enabled_streams cfg → k2 ∈ enabled_streams cfg →
  topic_entry (exchange_symbols cfg) k1 = Some e1 → topic_entry (exchange_symbols cfg) k2 = Some e2 →
  e1.1 = e2.1 → k1 = k2.
Proof using Hload.
  intros (c1 & Hc1 & Hi1 & ->)%topic_entry_enabled (c2 & Hc2 & Hi2 & ->)%topic_entry_enabled [= <-] [= <-].
  cbn. intros [Ht Hs]%kline_topic_inj. pose proof (load_market_config_sound path v) as H. rewrite Hload in H.
  destruct H as (_ & _ & Hsym & _).
  assert (c1 = c2) as -> by (eapply NoDup_map_inj; [exact Hsym|by apply enabled_instrument_in..|done]).
  destruct k1, k2. cbn in *. congruence.
Qed.

(** Topics and streams correspond.  From a configuration the loader accepted, the topic map is
    refused only when no stream is enabled; otherwise it has one topic for each enabled stream,
    in their order, no two the same, and a topic resolves to the stream it was made for: the one
    of the instrument that has the symbol of the topic. *)
Theorem topic_map_exact :
  match TopicMap_from_config cfg with
  | Ok m =>
      map snd m = enabled_streams cfg ∧ NoDup (topics m) ∧ m ≠ [] ∧
      ∀ k, k ∈ enabled_streams cfg → ∃ c, c ∈ enabled_instruments cfg ∧ ic_instrument c = instrument k ∧
        resolve m (kline_topic k (ic_exchange_symbol c)) = Ok k
  | Raise e => enabled_streams cfg = [] ∧ exn_cls e = ExcRealtimeTopicMapError
  end.
Proof using Hload.
  unfold TopicMap_from_config.
  pose proof (load_market_config_sound path v) as Hs. rewrite Hload in Hs. destruct Hs as (_ & _ & _ & Hnd & _).
  assert (Hok : is_ok (add_topics (exchange_symbols cfg) [] (enabled_streams cfg)) = true).
  { apply add_topics_total; [| |constructor|done].
    - intros k (c & _ & _ & He)%topic_entry_enabled. unfold topic_entry in He. by destruct (_ !! _).
    - cbn. intros k1 k2 e1 e2. apply topic_entry_inj. }
  destruct (add_topics _ _ _) as [m|e] eqn:Hm; [cbn|done].
  apply add_topics_ok in Hm as (added & Ha & HF & Hn); [|constructor]. cbn in Ha. subst added.
  assert (Hmap : map snd m = enabled_streams cfg).
  { clear -HF. induction HF as [|k e ks m He _ IH]; cbn; [done|]. rewrite IH. f_equal.
    unfold topic_entry in He. destruct (_ !! _); by simplify_eq/=. }
  unfold raise_if. case_bool_decide as Hempty; cbn.
  { subst m. by split. }
  do 3 (split; [done|]). intros k Hk. destruct (topic_entry_enabled k Hk) as (c & Hc & Hi & He).
  exists c. split; [done|]. split; [done|]. unfold resolve.
  apply list_elem_of_lookup in Hk as [i Hik]. destruct (Forall2_lookup_l _ _ _ _ _ HF Hik) as (e & Hie & He').
  rewrite He in He'. injection He' as <-.
  by rewrite (find_topic_elem m (kline_topic k (ic_exchange_symbol c)) k); [|done|by eapply list_elem_of_lookup_2].
Qed.
End accepted.

(** ** Messages *)

(** Every topic of a map built from a configuration is a kline topic of its stream. *)
Definition kline_map (m : TopicMap) : Prop := Forall (λ e, ∃ symbol, e.1 = kline_topic e.2 symbol) m.

Lemma TopicMap_from_config_kline cfg m : TopicMap_from_config cfg = Ok m → kline_map m.
Proof.
  unfold TopicMap_from_config. intros (m' & Hm & H)%res_bind_ok. apply raise_if_bind_ok in H as [_ [= <-]].
  apply add_topics_ok in Hm as (added & -> & HF & _); [|constructor].
  induction HF as [|k e ks es He _ IH]; constructor; [|exact IH].
  unfold topic_entry in He. destruct (_ !! _) as [symbol|]; [|done]. injection He as <-. by exists symbol.
Qed.

Lemma kline_map_interval m topic k :
  kline_map m → resolve m topic = Ok k →
  ∃ rest, split_dots [] (chars topic) = "kline"%string :: bybit_interval (timeframe k) :: rest.
Proof.
  unfold kline_map, resolve. rewrite Forall_forall. intros Hm.
  destruct (find_topic m topic) as [k'|] eqn:Hf; [|done]. intros [= ->].
  apply find_topic_Some, Hm in Hf as (symbol & Ht). cbn in Ht. subst topic. apply kline_topic_interval.
Qed.

(** What a kline row of a message becomes. *)
Record row_candle (k : StreamKey) (observed_at_ms : Z) (row : json_object) (c : ObservedCandle) : Prop := {
  rc_stream_of : oc_stream c = k;
  rc_interval : ∃ v, json_get row "interval" = Some v ∧ json_str v = bybit_interval (timeframe k);
  rc_confirmed : json_get row "confirm" = Some (JBool (oc_confirmed c));
  rc_start : ∃ v, json_get row "start" = Some v ∧ Json.json_int v = Ok (oc_open_time_ms c);
  rc_end : ∃ v, json_get row "end" = Some v ∧ Json.json_int v = Ok (oc_close_time_ms c);
  rc_values : ∃ o h l cl v, map (json_get row) ["open"; "high"; "low"; "close"; "volume"]%string =
      map Some [o; h; l; cl; v] ∧
      parse_ohlcv (InStr (json_str o)) (InStr (json_str h)) (InStr (json_str l)) (InStr (json_str cl))
        (InStr (json_str v)) = Ok (oc_values c);
  rc_observed : oc_observed_at_ms c = observed_at_ms;
  rc_source : oc_source c = BYBIT_WEBSOCKET
}.

Lemma json_item_ok row key v : json_item row key = Ok v ↔ json_get row key = Some v.
Proof. unfold json_item, raise. destruct (json_get row key); naive_solver. Qed.

Lemma kline_row_candle row k topic t c rest :
  split_dots [] (chars topic) = "kline"%string :: bybit_interval (timeframe k) :: rest →
  candle_of_row row k topic t = Ok c → row_candle k t row c.
Proof.
  intros Hd. unfold candle_of_row. rewrite Hd. cbn [mbind res_bind].
  intros (i & Hi%json_item_ok & H)%res_bind_ok. apply raise_if_bind_ok in H as [Hint%negb_false_iff%bool_decide_eq_true H].
  apply res_bind_ok in H as (confirm & Hc%json_item_ok & H). destruct confirm; try done.
  apply res_bind_ok in H as (s & Hs%json_item_ok & H). apply res_bind_ok in H as (ot & Hot & H).
  apply res_bind_ok in H as (e & He%json_item_ok & H). apply res_bind_ok in H as (ct & Hct & H).
  apply res_bind_ok in H as (o & Ho%json_item_ok & H). apply res_bind_ok in H as (h & Hh%json_item_ok & H).
  apply res_bind_ok in H as (l & Hl%json_item_ok & H). apply res_bind_ok in H as (cl & Hcl%json_item_ok & H).
  apply res_bind_ok in H as (v & Hv%json_item_ok & H). unfold ObservedCandle_new in H.
  apply res_bind_ok in H as (values & Hp & H). injection H as <-.
  split; cbn; try done; [by eexists..|]. exists o, h, l, cl, v. split; [|done].
  by rewrite Ho, Hh, Hl, Hcl, Hv.
Qed.

(** A row that is refused raises the payload error of the adapter; a number too large for a
    float is let through. *)
Definition row_errors : list exn_class := [ExcBybitWebSocketPayloadError; ExcOverflowError].

Lemma candle_of_row_raises row k topic t e rest :
  split_dots [] (chars topic) = "kline"%string :: bybit_interval (timeframe k) :: rest →
  candle_of_row row k topic t = Raise e →
  exn_cls e ∈ [ExcBybitWebSocketPayloadError; ExcKeyError; ExcTypeError; ExcValueError; ExcOverflowError;
               ExcInvalidDecimalValue].
Proof.
  intros Hd.
  set (P := λ c : exn_class, c ∈ [ExcBybitWebSocketPayloadError; ExcKeyError; ExcTypeError; ExcValueError;
                                  ExcOverflowError; ExcInvalidDecimalValue]).
  set (R := λ A (m : res A), ∀ e, m = Raise e → P (exn_cls e)).
  assert (Hbind : ∀ A B (m : res A) (f : A → res B), R A m → (∀ a, R B (f a)) → R B (x ← m; f x)).
  { intros A B m f Hm Hf e'. destruct m as [a|e0]; [apply Hf|]. intros [= ->]. by apply Hm. }
  assert (Hitem : ∀ key, R json (json_item row key)).
  { intros key e'. unfold json_item, raise. destruct (json_get row key); [done|]. intros [= <-]. unfold P. set_solver. }
  assert (Hint : ∀ v, R Z (Json.json_int v)).
  { intros v e' He'. apply json_int_raises in He'. unfold P. set_solver. }
  unfold candle_of_row. rewrite Hd. revert e. fold (R ObservedCandle).
  match goal with |- ∀ e, ?m = Raise e → _ => change (R ObservedCandle m) end.
  apply Hbind; [by intros ?|intros expected]. apply Hbind; [done|intros i].
  apply Hbind. { intros e'. unfold raise_if, raise. destruct (negb _); [|done]. intros [= <-]. unfold P. set_solver. }
  intros _. apply Hbind; [done|intros c].
  destruct c; try (intros e'; unfold ws_error, raise; intros [= <-]; unfold P; set_solver).
  repeat (apply Hbind; [done|intros ?]).
  intros e' He'. unfold ObservedCandle_new in He'.
  apply (raises_only_bind _ _ _ (parse_ohlcv_raises _ _ _ _ _) (λ _, raises_only_mret _ _)) in He'.
  rewrite He'. unfold P. set_solver.
Qed.

Lemma parse_candle_raises row k topic t e rest :
  split_dots [] (chars topic) = "kline"%string :: bybit_interval (timeframe k) :: rest →
  parse_candle row k topic t = Raise e → exn_cls e ∈ [ExcBybitWebSocketPayloadError; ExcOverflowError].
Proof.
  intros Hd. unfold parse_candle, reraise. destruct (candle_of_row row k topic t) as [c|e0] eqn:Hc; [done|].
  apply (candle_of_row_raises _ _ _ _ _ _ Hd) in Hc. unfold isinstance. destruct e0 as [cls msg]. cbn in Hc |- *.
  set_unfold in Hc. destruct Hc as [->|[->|[->|[->|[->|[->|[]]]]]]]; cbn; intros [= <-]; cbn; set_solver.
Qed.

Lemma candle_event_exact k topic t row rest :
  split_dots [] (chars topic) = "kline"%string :: bybit_interval (timeframe k) :: rest →
  match candle_event k topic t row with
  | Ok ev => ∃ o c, row = JObj o ∧ ev = CandleObserved k c ∧ row_candle k t o c
  | Raise e => exn_cls e ∈ row_errors
  end.
Proof.
  intros Hd. unfold candle_event, row_errors.
  destruct row as [| | | | | |o]; try (unfold ws_error, raise; cbn; set_solver).
  destruct (parse_candle o k topic t) as [c|e] eqn:Hp; cbn.
  - exists o, c. split; [done|]. split; [done|]. unfold parse_candle in Hp. apply reraise_ok in Hp.
    by eapply kline_row_candle.
  - apply (parse_candle_raises _ _ _ _ _ _ Hd) in Hp. set_solver.
Qed.

(** What the fields of a payload say. *)
Definition pong (payload : json_object) : Prop :=
  json_get payload "op" = Some (JStr "pong") ∨ json_get payload "ret_msg" = Some (JStr "pong").
Definition subscription_answer (payload : json_object) : Prop :=
  ¬ pong payload ∧
  (json_get payload "op" = Some (JStr "subscribe") ∨ json_get payload "op" = Some (JStr "unsubscribe")).
Definition succeeded (payload : json_object) : Prop := json_get payload "success" = Some (JBool true).
Definition named_topics (payload : json_object) (names : list string) : Prop :=
  ∃ data, json_get payload "data" = Some (JObj data) ∧ json_get data "successTopics" = Some (JArr (map JStr names)).
Definition market_data (payload : json_object) : Prop := ¬ pong payload ∧ ¬ subscription_answer payload.

(** What a message means under the topics of a map. *)
Inductive message_means (m : TopicMap) (observed_at_ms : Z) : option json → res (list RealtimeEvent) → Prop :=
| means_heartbeat payload : pong payload →
    message_means m observed_at_ms (Some (JObj payload)) (Ok [HeartbeatObserved observed_at_ms])
| means_refused payload detail : subscription_answer payload → ¬ succeeded payload →
    match json_get payload "ret_msg" with
    | Some v => detail = json_str v
    | None => detail = "unknown subscription failure"%string
    end →
    message_means m observed_at_ms (Some (JObj payload))
      (Ok [TransportFailed "subscription_failed" detail observed_at_ms])
| means_confirmed payload names : subscription_answer payload → succeeded payload →
    named_topics payload names ∨ (∀ l, ¬ named_topics payload l) ∧ names = topics m →
    message_means m observed_at_ms (Some (JObj payload)) (Ok [SubscriptionConfirmed names observed_at_ms])
| means_candles payload topic k rows events : market_data payload →
    json_get payload "topic" = Some (JStr topic) → resolve m topic = Ok k →
    json_get payload "data" = Some (JArr rows) → rows ≠ [] →
    Forall2 (λ row ev, ∃ o c, row = JObj o ∧ ev = CandleObserved k c ∧ row_candle k observed_at_ms o c) rows events →
    message_means m observed_at_ms (Some (JObj payload)) (Ok events)
| means_no_object loaded e : (∀ payload, loaded ≠ Some (JObj payload)) →
    exn_cls e = ExcBybitWebSocketPayloadError → message_means m observed_at_ms loaded (Raise e)
| means_unhashable payload v e : ¬ pong payload → json_get payload "op" = Some v →
    (∃ l, v = JArr l) ∨ (∃ o, v = JObj o) → exn_cls e = ExcTypeError →
    message_means m observed_at_ms (Some (JObj payload)) (Raise e)
| means_no_topic payload e : market_data payload → (∀ topic, json_get payload "topic" ≠ Some (JStr topic)) →
    exn_cls e = ExcBybitWebSocketPayloadError → message_means m observed_at_ms (Some (JObj payload)) (Raise e)
| means_unknown_topic payload topic e : market_data payload → json_get payload "topic" = Some (JStr topic) →
    topic ∉ topics m → exn_cls e = ExcRealtimeTopicMapError →
    message_means m observed_at_ms (Some (JObj payload)) (Raise e)
| means_no_rows payload topic k e : market_data payload → json_get payload "topic" = Some (JStr topic) →
    resolve m topic = Ok k → (∀ row rows, json_get payload "data" ≠ Some (JArr (row :: rows))) →
    exn_cls e = ExcBybitWebSocketPayloadError → message_means m observed_at_ms (Some (JObj payload)) (Raise e)
| means_bad_row payload topic k rows row e : market_data payload → json_get payload "topic" = Some (JStr topic) →
    resolve m topic = Ok k → json_get payload "data" = Some (JArr rows) → row ∈ rows →
    candle_event k topic observed_at_ms row = Raise e → exn_cls e ∈ row_errors →
    message_means m observed_at_ms (Some (JObj payload)) (Raise e).

Lemma json_get_null_str payload key s :
  json_eq_str (json_get_null payload key) s = true ↔ json_get payload key = Some (JStr s).
Proof.
  unfold json_eq_str, json_get_null. destruct (json_get payload key) as [[]|]; rewrite ?bool_decide_eq_true; naive_solver.
Qed.

Lemma succeeded_spec payload : is_true (json_get_null payload "success") = true ↔ succeeded payload.
Proof. unfold succeeded, json_get_null, is_true. destruct (json_get payload "success") as [[]|]; naive_solver. Qed.

Lemma json_strings_spec l names : json_strings l = Some names ↔ l = map JStr names.
Proof.
  revert names. induction l as [|v l IH]; intros names; cbn [json_strings].
  - destruct names; naive_solver.
  - destruct v; try (split; [done|by destruct names]).
    destruct (json_strings l) as [ns|] eqn:El; cbn.
    + pose proof (proj1 (IH ns) eq_refl) as ->. split; [by intros [= <-]|]. destruct names as [|n names]; [done|].
      intros [= -> H]. f_equal. f_equal. apply (f_equal json_strings) in H.
      assert (Hj : ∀ q, json_strings (map JStr q) = Some q) by (induction q as [|x q IHq]; cbn; [done|by rewrite IHq]).
      rewrite !Hj in H. by injection H.
    + split; [done|]. destruct names as [|n names]; [done|]. intros [= -> H]. by apply IH in H.
Qed.

Lemma confirmed_topics_spec payload m :
  named_topics payload (confirmed_topics payload m) ∨
  (∀ l, ¬ named_topics payload l) ∧ confirmed_topics payload m = topics m.
Proof.
  unfold confirmed_topics, named_topics, json_get_null.
  destruct (json_get payload "data") as [[| | | | | |data]|]; try (right; naive_solver).
  destruct (json_get data "successTopics") as [[| | | | |l|]|] eqn:Hl; try (right; naive_solver).
  destruct (json_strings l) as [names|] eqn:Hn.
  - left. exists data. apply json_strings_spec in Hn as ->. done.
  - right. split; [|done]. intros names (data' & [= <-] & H). rewrite Hl in H. injection H as ->.
    by rewrite (proj2 (json_strings_spec _ names) eq_refl) in Hn.
Qed.

Lemma kline_events_means m payload t :
  kline_map m → market_data payload → message_means m t (Some (JObj payload)) (kline_events payload m t).
Proof.
  intros Hm Hmd. unfold kline_events. destruct (json_get payload "topic") as [[| | | |topic| |]|] eqn:Htopic;
    try (apply means_no_topic; [done|congruence|done]).
  destruct (resolve m topic) as [k|e] eqn:Hr; cbn [mbind res_bind].
  2:{ apply (means_unknown_topic m t payload topic); [done|done| |]; unfold resolve, raise in Hr;
        (destruct (find_topic m topic) eqn:Hf; [done|]); [by apply find_topic_None|by injection Hr as <-]. }
  destruct (kline_map_interval m topic k Hm Hr) as [rest Hd].
  destruct (json_get payload "data") as [[| | | | |[|row rows]|]|] eqn:Hdata;
    try (apply (means_no_rows m t payload topic k); [done|done|done|congruence|done]).
  pose proof (res_mapM_exact (candle_event k topic t) (row :: rows)) as H. destruct (mapM _ _) as [events|e].
  - apply (means_candles m t payload topic k (row :: rows)); try done.
    eapply Forall2_impl; [exact H|]. intros r ev Hev. cbn in Hev.
    pose proof (candle_event_exact k topic t r rest Hd) as Hx. by rewrite Hev in Hx.
  - destruct H as (l1 & r & l2 & Hl & Hev & _). pose proof (candle_event_exact k topic t r rest Hd) as Hx.
    rewrite Hev in Hx. apply (means_bad_row m t payload topic k (row :: rows) r); try done.
    rewrite Hl. apply elem_of_app. right. by left.
Qed.


(** ** Witnesses *)

Definition example_instrument (ticker symbol : string) : toml :=
  TomlTable [("ticker", TomlStr ticker); ("exchange_symbol", TomlStr symbol); ("enabled", TomlBool true);
    ("canonical_timeframes", TomlArray [TomlStr "1m"; TomlStr "5m"]);
    ("history_policy", TomlStr "full_available"); ("open_interest", TomlBool true)]%string.

Definition example_toml : toml :=
  TomlTable [("schema_version", TomlInt 1);
    ("source", TomlTable [("venue", TomlStr "bybit"); ("category", TomlStr "linear")]);
    ("instruments", TomlArray [example_instrument "BTCUSDT.P" "BTCUSDT"; example_instrument "ETHUSDT.P" "ETHUSDT"])]%string.

Definition example_config : ValidatedMarketConfig :=
  match load_market_config "m" (Ok example_toml) with
  | Ok cfg => cfg | Raise _ => mkMarketConfig 0 (mkMarketSource "" "") [] end.

Definition example_topics : TopicMap :=
  match TopicMap_from_config example_config with Ok m => m | Raise _ => [] end.

Lemma topic_map_exact_witness :
  topics example_topics = ["kline.1.BTCUSDT"; "kline.5.BTCUSDT"; "kline.1.ETHUSDT"; "kline.5.ETHUSDT"]%string ∧
  map snd example_topics = enabled_streams example_config ∧ NoDup (topics example_topics).
Proof.
  split; [by vm_compute|].
  pose proof (topic_map_exact "m" example_toml example_config ltac:(by vm_compute)) as H.
  replace (TopicMap_from_config example_config) with (Ok example_topics) in H by by vm_compute.
  cbv iota beta in H. destruct H as (Hm & Hn & _). exact (conj Hm Hn).
Defined.

Definition example_message (interval : string) : json :=
  JObj [("topic", JStr "kline.5.ETHUSDT"); ("data", JArr [JObj
    [("start", JInt 300000); ("end", JInt 599999); ("interval", JStr interval); ("open", JStr "10.50");
     ("close", JStr "11"); ("high", JStr "12"); ("low", JStr "9"); ("volume", JStr "100");
     ("confirm", JBool true)]])]%string.

(** An answer to a subscription. *)
Definition example_subscription (success : bool) : json :=
  JObj [("op", JStr "subscribe"); ("success", JBool success); ("ret_msg", JStr "too many topics");
    ("data", JObj [("successTopics", JArr [JStr "kline.5.ETHUSDT"])])]%string.

