(* ===== verification/Connector.v ===== *)
(** * The realtime connector

    application/realtime/connector.py: the life of the WebSocket connection over a transport, an
    adapter, a candle handler and the callbacks of the runtime.  What those come to is the
    environment: the callbacks by the number of calls made before, the transport as a script of
    sessions.  A run is its calls in order, and how it ended. *)

From S2P Require Import Prelude PyStr DecimalValues Timeframes Identity Candles RealtimeFacts PyFloat.

(** ** Exceptions of a session *)

Inductive ws_exn :=
| WsDisconnected (detail : string) (code : option Z) (reason : option string)
| WsError (e : exn)
| WsCancelled.

(** [type(exc).__name__] and [str(exc)] *)
Definition ws_name (e : ws_exn) : string :=
  match e with
  | WsDisconnected _ _ _ => "WebSocketDisconnected"
  | WsError e => class_name (exn_cls e)
  | WsCancelled => "CancelledError"
  end.
Definition ws_str (e : ws_exn) : string :=
  match e with WsDisconnected detail _ _ => detail | WsError e => exn_str e | WsCancelled => "" end.

(** ** [ReconnectPolicy] *)

Record ReconnectPolicy := mkReconnectPolicy {
  rp_max_attempts : Z;
  rp_delay_seconds : float;
  rp_healthy_session_seconds : float
}.

Definition default_policy : ReconnectPolicy := mkReconnectPolicy 3 (float_of_Z 1) (float_of_Z 30).

Definition ReconnectPolicy_check (p : ReconnectPolicy) : res ReconnectPolicy :=
  _ ← raise_if (rp_max_attempts p <=? 0) ExcValueError "max_attempts must be positive";
  _ ← raise_if (flt (rp_delay_seconds p) (float_of_Z 0)) ExcValueError "delay_seconds must be non-negative";
  _ ← raise_if (flt (rp_healthy_session_seconds p) (float_of_Z 0)) ExcValueError
        "healthy_session_seconds must be non-negative";
  mret p.

(** ** Calls *)

Inductive Call :=
| OnEvent (e : RealtimeEvent)
| OnOutcome (o : RealtimeIngestionOutcome)
| SendText (message : string)
| CloseSession.

Class ConnectorEnv := {
  ce_now_ms : nat → Z;
  ce_handle : nat → StreamKey → ObservedCandle → res (option RealtimeIngestionOutcome);
  ce_on_event : nat → RealtimeEvent → option ws_exn;
  ce_on_outcome : nat → RealtimeIngestionOutcome → option ws_exn
}.

(** The calls made, and a result or an exception. *)
Definition ConnM (A : Type) : Type := list Call → (A + ws_exn) * list Call.

#[export] Instance ConnM_ret : MRet ConnM := λ A a calls, (inl a, calls).
#[export] Instance ConnM_bind : MBind ConnM := λ A B f m calls,
  match m calls with (inl a, calls') => f a calls' | (inr e, calls') => (inr e, calls') end.

Definition cn_raise {A} (e : ws_exn) : ConnM A := λ calls, (inr e, calls).
Definition cn_lift {A} (r : res A) : ConnM A := λ calls,
  match r with Ok a => (inl a, calls) | Raise e => (inr (WsError e), calls) end.

(** A call that is made and then answered, with an exception when it raises. *)
Definition cn_call (c : Call) (raised : option ws_exn) : ConnM () := λ calls,
  match raised with None => (inl (), calls ++ [c]) | Some e => (inr e, calls ++ [c]) end.

(** What an iteration of the loop of [_run_session] meets. *)
Inductive Iteration (Raw : Type) :=
| StopAtHead                              (* the stop event is set at the head of the loop *)
| StopWhileWaiting                        (* it is set while the receive is awaited *)
| Received (raw : Raw)
| ReceiveRaises (e : ws_exn).
Arguments StopAtHead {Raw}.
Arguments StopWhileWaiting {Raw}.
Arguments Received {Raw} raw.
Arguments ReceiveRaises {Raw} e.

Section connector.
Context `{V : ConnectorEnv}.

Definition cn_now_ms : ConnM Z := λ calls, (inl (ce_now_ms (length calls)), calls).
Definition on_event (e : RealtimeEvent) : ConnM () := λ calls,
  cn_call (OnEvent e) (ce_on_event (length calls) e) calls.
Definition on_outcome (o : RealtimeIngestionOutcome) : ConnM () := λ calls,
  cn_call (OnOutcome o) (ce_on_outcome (length calls) o) calls.
Definition handle_event (k : StreamKey) (c : ObservedCandle) : ConnM (option RealtimeIngestionOutcome) := λ calls,
  cn_lift (ce_handle (length calls) k c) calls.

(** ** One session *)

Context {Raw : Type} (parse : Raw → Z → res (list RealtimeEvent)) (subscribe unsubscribe : string).

(** A session of the transport, with [loop.time()] when it was connected and when its failure was
    handled.  A session whose iterations end is still waiting for a message. *)
Record Session := mkSession {
  sn_connect : float + ws_exn;
  sn_subscribe_raises : option ws_exn;
  sn_iterations : list (Iteration Raw);
  sn_unsubscribe_raises : option ws_exn;
  sn_close_raises : option ws_exn;
  sn_failed_at : float
}.

(** The events of a message, each handled before the next. *)
Fixpoint deliver (events : list RealtimeEvent) : ConnM () :=
  match events with
  | [] => mret ()
  | event :: events =>
      _ ← on_event event;
      _ ← match event with
          | CandleObserved k candle =>
              outcome ← handle_event k candle;
              match outcome with Some o => on_outcome o | None => mret () end
          | _ => mret ()
          end;
      deliver events
  end.

(** The loop: [false] when it is still waiting. *)
Fixpoint session_loop (unsubscribe_raises close_raises : option ws_exn) (iterations : list (Iteration Raw)) : ConnM bool :=
  match iterations with
  | [] => mret false
  | StopAtHead :: _ => mret true
  | StopWhileWaiting :: _ =>
      _ ← cn_call (SendText unsubscribe) unsubscribe_raises;
      _ ← cn_call CloseSession close_raises;
      mret true
  | Received raw :: iterations =>
      now ← cn_now_ms;
      events ← cn_lift (parse raw now);
      _ ← deliver events;
      session_loop unsubscribe_raises close_raises iterations
  | ReceiveRaises e :: _ => cn_raise e
  end.

Definition run_session (s : Session) : ConnM bool :=
  match sn_connect s with
  | inr e => cn_raise e
  | inl _ =>
      now ← cn_now_ms;
      _ ← on_event (Connected now);
      _ ← cn_call (SendText subscribe) (sn_subscribe_raises s);
      session_loop (sn_unsubscribe_raises s) (sn_close_raises s) (sn_iterations s)
  end.

(** ** [run] *)

Context (policy : ReconnectPolicy).

Definition healthy_session (s : Session) : bool :=
  match sn_connect s with
  | inl connected_at => fge (fsub (sn_failed_at s) connected_at) (rp_healthy_session_seconds policy)
  | inr _ => false
  end.

(** The events of a failed session. *)
Definition report_failure (e : ws_exn) : ConnM () :=
  _ ← match e with
      | WsDisconnected _ code reason => now ← cn_now_ms; on_event (Disconnected code reason now)
      | _ => mret ()
      end;
  now ← cn_now_ms;
  on_event (TransportFailed (ws_name e) (ws_str e) now).

Definition finish_run (exhausted : bool) : ConnM bool :=
  _ ← (if exhausted then now ← cn_now_ms; on_event (ReconnectExhausted (rp_max_attempts policy) now) else mret ());
  now ← cn_now_ms;
  _ ← on_event (Stopped now);
  mret true.

(** The loop of [run] over the sessions of the transport, [None] where the stop event is set at its
    head; [false] when it is still waiting, for a message or for the delay of a reconnect. *)
Fixpoint connector_loop (failures : Z) (sessions : list (option Session)) : ConnM bool :=
  match sessions with
  | [] => mret false
  | None :: _ => finish_run false
  | Some s :: sessions => λ calls,
      match run_session s calls with
      | (inl false, calls) => (inl false, calls)
      | (inl true, calls) => finish_run false calls
      | (inr WsCancelled, calls) => (inr WsCancelled, calls)
      | (inr e, calls) =>
          (_ ← report_failure e;
           let failures := if healthy_session s then 1 else failures + 1 in
           if rp_max_attempts policy <=? failures then finish_run true
           else connector_loop failures sessions) calls
      end
  end.

Definition connector_run (sessions : list (option Session)) : ConnM bool := connector_loop 0 sessions.
End connector.

(** ** Failures in a row *)

(** The counter after sessions that all failed, newest first: it restarts at a healthy one. *)
Fixpoint streak (newest_first : list bool) : Z :=
  match newest_first with
  | [] => 0
  | healthy :: older => if healthy then 1 else 1 + streak older
  end.

(** The budget is used up: enough sessions failed, and the newest ones, all but one of the budget,
    were not healthy. *)
Definition budget_used (max_attempts : Z) (newest_first : list bool) : Prop :=
  max_attempts ≤ Z.of_nat (length newest_first) ∧
  Forall (eq false) (take (Z.to_nat (max_attempts - 1)) newest_first).

Lemma streak_nonneg l : 0 ≤ streak l.
Proof. induction l as [|[] l IH]; cbn [streak]; lia. Qed.

Lemma streak_budget m l : 1 ≤ m → m ≤ streak l ↔ budget_used m l.
Proof.
  unfold budget_used. revert m. induction l as [|h l IH]; intros m Hm; cbn [streak length].
  { split; [lia|intros [? _]; lia]. }
  destruct (decide (m = 1)) as [->|Hm1].
  { change (Z.to_nat (1 - 1)) with 0%nat. cbn [take]. pose proof (streak_nonneg l). split; [intros _|destruct h; lia].
    split; [lia|constructor]. }
  replace (Z.to_nat (m - 1)) with (S (Z.to_nat (m - 1 - 1))) by lia. cbn [take]. rewrite Forall_cons.
  destruct h; [split; [lia|by intros (_ & ? & _)]|].
  specialize (IH (m - 1) ltac:(lia)). split.
  - intros H. destruct (proj1 IH ltac:(lia)). repeat split; [lia|done].
  - intros (H1 & _ & H2). assert (m - 1 ≤ streak l) by (apply IH; split; [lia|done]). lia.
Qed.

Section facts.
Context `{V : ConnectorEnv} {Raw : Type} (parse : Raw → Z → res (list RealtimeEvent)) (subscribe unsubscribe : string).
Context (policy : ReconnectPolicy).
Hypothesis Hquiet : ∀ n e, ce_on_event n e = None.

(** What one event of a message leads to, after [n] calls: the event is passed on, a candle is then
    handled, and what its handling comes to is passed on too.  The last argument is the exception
    that ends the session. *)
Inductive event_said (n : nat) : RealtimeEvent → list Call → option ws_exn → Prop :=
| SaidPlain e : (∀ k c, e ≠ CandleObserved k c) → event_said n e [OnEvent e] None
| SaidUnhandled k c : ce_handle (S n) k c = Ok None →
    event_said n (CandleObserved k c) [OnEvent (CandleObserved k c)] None
| SaidHandled k c o : ce_handle (S n) k c = Ok (Some o) →
    event_said n (CandleObserved k c) [OnEvent (CandleObserved k c); OnOutcome o] (ce_on_outcome (S n) o)
| SaidRaises k c e : ce_handle (S n) k c = Raise e →
    event_said n (CandleObserved k c) [OnEvent (CandleObserved k c)] (Some (WsError e)).

(** The events of a message, in order, up to the one that ends the session. *)
Inductive events_said : nat → list RealtimeEvent → list Call → option ws_exn → Prop :=
| SaidNone n : events_said n [] [] None
| SaidLast n e events seg x : event_said n e seg (Some x) → events_said n (e :: events) seg (Some x)
| SaidNext n e events seg segs r :
    event_said n e seg None → events_said (n + length seg) events segs r →
    events_said n (e :: events) (seg ++ segs) r.

(** The iterations of the loop, each message with what its events lead to. *)
Inductive loop_said (unsub_raises close_raises : option ws_exn) :
    nat → list (Iteration Raw) → list Call → bool + ws_exn → Prop :=
| LoopWaiting n : loop_said unsub_raises close_raises n [] [] (inl false)
| LoopStopAtHead n its : loop_said unsub_raises close_raises n (StopAtHead :: its) [] (inl true)
| LoopUnsubscribeRaises n its e : unsub_raises = Some e →
    loop_said unsub_raises close_raises n (StopWhileWaiting :: its) [SendText unsubscribe] (inr e)
| LoopCloses n its : unsub_raises = None →
    loop_said unsub_raises close_raises n (StopWhileWaiting :: its) [SendText unsubscribe; CloseSession]
      (match close_raises with Some e => inr e | None => inl true end)
| LoopReceiveRaises n its e : loop_said unsub_raises close_raises n (ReceiveRaises e :: its) [] (inr e)
| LoopParseRaises n raw its e : parse raw (ce_now_ms n) = Raise e →
    loop_said unsub_raises close_raises n (Received raw :: its) [] (inr (WsError e))
| LoopMessageRaises n raw its events seg e : parse raw (ce_now_ms n) = Ok events →
    events_said n events seg (Some e) → loop_said unsub_raises close_raises n (Received raw :: its) seg (inr e)
| LoopMessage n raw its events seg segs r : parse raw (ce_now_ms n) = Ok events →
    events_said n events seg None → loop_said unsub_raises close_raises (n + length seg) its segs r →
    loop_said unsub_raises close_raises n (Received raw :: its) (seg ++ segs) r.

(** The calls of a session, and how it ended: none when it did not connect. *)
Inductive session_said (n : nat) (s : Session (Raw:=Raw)) : list Call → bool + ws_exn → Prop :=
| SessionNotConnected e : sn_connect s = inr e → session_said n s [] (inr e)
| SessionNotSubscribed t e : sn_connect s = inl t → sn_subscribe_raises s = Some e →
    session_said n s [OnEvent (Connected (ce_now_ms n)); SendText subscribe] (inr e)
| SessionRuns t body r : sn_connect s = inl t → sn_subscribe_raises s = None →
    loop_said (sn_unsubscribe_raises s) (sn_close_raises s) (n + 2) (sn_iterations s) body r →
    session_said n s (OnEvent (Connected (ce_now_ms n)) :: SendText subscribe :: body) r.

Lemma run_on_event e calls : on_event e calls = (inl (), calls ++ [OnEvent e]).
Proof. unfold on_event, cn_call. by rewrite Hquiet. Qed.

(** Delivering events goes through them as said. *)
Lemma deliver_said events calls r calls' :
  deliver events calls = (r, calls') →
  ∃ seg, calls' = calls ++ seg ∧
    events_said (length calls) events seg (match r with inl _ => None | inr e => Some e end).
Proof.
  revert calls. induction events as [|e events IH]; intros calls; cbn [deliver].
  { intros [= <- <-]. exists []. rewrite app_nil_r. split; [done|constructor]. }
  unfold mbind, ConnM_bind. rewrite run_on_event. cbv iota beta.
  assert (Hnext : ∀ seg, event_said (length calls) e seg None → deliver events (calls ++ seg) = (r, calls') →
    ∃ seg', calls' = calls ++ seg' ∧
      events_said (length calls) (e :: events) seg' (match r with inl _ => None | inr x => Some x end)).
  { intros seg Hseg H. apply IH in H as (segs & -> & Hs). exists (seg ++ segs). rewrite app_assoc. split; [done|].
    eapply SaidNext; [done|]. by rewrite length_app in Hs. }
  assert (Hlast : ∀ seg x, event_said (length calls) e seg (Some x) → (inr x, calls ++ seg) = (r, calls') →
    ∃ seg', calls' = calls ++ seg' ∧
      events_said (length calls) (e :: events) seg' (match r with inl _ => None | inr x => Some x end)).
  { intros seg x Hseg [= <- <-]. exists seg. split; [done|]. by apply SaidLast. }
  destruct e as [t|names t|t|k c|code detail t|code reason t|attempts t|t]; cbn [mret ConnM_ret];
    try (apply Hnext; by constructor).
  unfold handle_event, cn_lift. rewrite length_app. cbn [length]. rewrite Nat.add_1_r.
  destruct (ce_handle (S (length calls)) k c) as [[o|]|x] eqn:Hh.
  - unfold on_outcome, cn_call. rewrite length_app. cbn [length]. rewrite Nat.add_1_r.
    pose proof (SaidHandled (length calls) k c o Hh) as Hs. rewrite <-app_assoc.
    destruct (ce_on_outcome (S (length calls)) o) as [x|]; [by apply Hlast|by apply Hnext].
  - cbn. apply Hnext. by apply SaidUnhandled.
  - apply Hlast. by apply SaidRaises.
Qed.

Lemma session_loop_said unsub_raises close_raises its calls r calls' :
  session_loop parse unsubscribe unsub_raises close_raises its calls = (r, calls') →
  ∃ seg, calls' = calls ++ seg ∧ loop_said unsub_raises close_raises (length calls) its seg r.
Proof.
  revert calls. induction its as [|i its IH]; intros calls; cbn [session_loop].
  { intros [= <- <-]. exists []. rewrite app_nil_r. split; [done|constructor]. }
  destruct i as [| |raw|e].
  - intros [= <- <-]. exists []. rewrite app_nil_r. split; [done|constructor].
  - unfold mbind, ConnM_bind, cn_call. destruct unsub_raises as [e|] eqn:Hu.
    { intros [= <- <-]. eexists. split; [done|]. by apply LoopUnsubscribeRaises. }
    pose proof (LoopCloses None close_raises (length calls) its eq_refl) as Hc.
    destruct close_raises as [e|]; intros [= <- <-]; eexists; (split; [by rewrite <-app_assoc|exact Hc]).
  - unfold mbind, ConnM_bind, cn_now_ms, cn_lift. destruct (parse raw (ce_now_ms (length calls))) as [events|e] eqn:Hp.
    2:{ intros [= <- <-]. exists []. rewrite app_nil_r. split; [done|]. by apply LoopParseRaises. }
    destruct (deliver events calls) as [[[]|e] calls1] eqn:Hd; apply deliver_said in Hd as (seg & -> & Hs).
    + intros H. apply IH in H as (segs & -> & Hl). exists (seg ++ segs). rewrite app_assoc. split; [done|].
      eapply LoopMessage; [done..|]. by rewrite length_app in Hl.
    + intros [= <- <-]. exists seg. split; [done|]. by eapply LoopMessageRaises.
  - intros [= <- <-]. exists []. rewrite app_nil_r. split; [done|constructor].
Qed.

Lemma run_session_said s calls r calls' :
  run_session parse subscribe unsubscribe s calls = (r, calls') →
  ∃ seg, calls' = calls ++ seg ∧ session_said (length calls) s seg r.
Proof.
  unfold run_session. destruct (sn_connect s) as [t|e] eqn:Hc.
  2:{ intros [= <- <-]. exists []. rewrite app_nil_r. split; [done|]. by apply SessionNotConnected. }
  unfold mbind, ConnM_bind, cn_now_ms. rewrite run_on_event.
  destruct (sn_subscribe_raises s) as [e|] eqn:Hs; cbn [cn_call].
  - intros [= <- <-]. eexists. rewrite <-app_assoc. split; [done|]. by eapply SessionNotSubscribed.
  - intros H. apply session_loop_said in H as (body & -> & Hb). eexists. rewrite <-!app_assoc. split; [done|].
    eapply SessionRuns; [done..|]. by rewrite !length_app, <-Nat.add_assoc in Hb.
Qed.

(** The report of a failure, after [n] calls. *)
Definition failure_said (n : nat) (e : ws_exn) : list Call :=
  match e with
  | WsDisconnected detail code reason =>
      [OnEvent (Disconnected code reason (ce_now_ms n));
       OnEvent (TransportFailed "WebSocketDisconnected" detail (ce_now_ms (S n)))]
  | _ => [OnEvent (TransportFailed (ws_name e) (ws_str e) (ce_now_ms n))]
  end.

Lemma report_failure_said e calls :
  report_failure e calls = (inl (), calls ++ failure_said (length calls) e).
Proof.
  unfold report_failure, failure_said. destruct e as [detail code reason|e|]; unfold mbind, ConnM_bind, cn_now_ms; cbn;
    rewrite ?run_on_event, ?length_app, <-?app_assoc; cbn [length]; rewrite ?Nat.add_1_r; done.
Qed.

(** Sessions that failed one after the other, each with its report. *)
Inductive failures_said : nat → list (Session (Raw:=Raw)) → list Call → Prop :=
| FailuresNone n : failures_said n [] []
| FailuresNext n s failed seg e segs :
    session_said n s seg (inr e) → e ≠ WsCancelled →
    failures_said (n + length (seg ++ failure_said (n + length seg) e)) failed segs →
    failures_said n (s :: failed) ((seg ++ failure_said (n + length seg) e) ++ segs).

Definition healths (failed : list (Session (Raw:=Raw))) : list bool := rev (map (healthy_session policy) failed).

(** How a run ends, at which sessions, and its last calls. *)
Inductive run_end (n : nat) : bool + ws_exn → bool → list (option (Session (Raw:=Raw))) → list Call → Prop :=
| EndExhausted rest :
    run_end n (inl true) true rest [OnEvent (ReconnectExhausted (rp_max_attempts policy) (ce_now_ms n));
                                    OnEvent (Stopped (ce_now_ms (S n)))]
| EndStopped rest : run_end n (inl true) false (None :: rest) [OnEvent (Stopped (ce_now_ms n))]
| EndInSession s seg rest : session_said n s seg (inl true) →
    run_end n (inl true) false (Some s :: rest) (seg ++ [OnEvent (Stopped (ce_now_ms (n + length seg)))])
| EndReconnecting : run_end n (inl false) false [] []
| EndReceiving s seg rest : session_said n s seg (inl false) → run_end n (inl false) false (Some s :: rest) seg
| EndCancelled s seg rest : session_said n s seg (inr WsCancelled) →
    run_end n (inr WsCancelled) false (Some s :: rest) seg.

Lemma finish_run_said (exhausted : bool) calls :
  finish_run policy exhausted calls = (inl true, calls ++
    if exhausted then [OnEvent (ReconnectExhausted (rp_max_attempts policy) (ce_now_ms (length calls)));
                       OnEvent (Stopped (ce_now_ms (S (length calls))))]
    else [OnEvent (Stopped (ce_now_ms (length calls)))]).
Proof.
  unfold finish_run. destruct exhausted; unfold mbind, ConnM_bind, cn_now_ms; cbn; rewrite !run_on_event;
    rewrite ?length_app, <-?app_assoc; cbn [length]; rewrite ?Nat.add_1_r; done.
Qed.

(** A run after [n] calls and from [older] sessions that failed without using up the budget. *)
Definition run_report (n : nat) (older : list (Session (Raw:=Raw))) (sessions : list (option Session))
    (r : bool + ws_exn) (added : list Call) : Prop :=
  ∃ failed rest seg last exhausted,
    sessions = map Some failed ++ rest ∧ failures_said n failed seg ∧ added = seg ++ last ∧
    run_end (n + length seg) r exhausted rest last ∧
    (∀ i, (i < length failed)%nat → ¬ budget_used (rp_max_attempts policy) (healths (older ++ take i failed))) ∧
    (exhausted = true ↔ budget_used (rp_max_attempts policy) (healths (older ++ failed))).

(** A run that ends at its first session. *)
Lemma run_report_end n older r rest last :
  ¬ budget_used (rp_max_attempts policy) (healths older) → run_end n r false rest last → run_report n older rest r last.
Proof.
  intros Hb He. exists [], rest, [], last, false. cbn [length]. rewrite Nat.add_0_r.
  split_and!; try done; [constructor|by intros i ?%Nat.nlt_0_r|]. rewrite app_nil_r. by split.
Qed.

Lemma run_report_cons n older s seg e sessions r added :
  ¬ budget_used (rp_max_attempts policy) (healths older) → session_said n s seg (inr e) → e ≠ WsCancelled →
  let seg' := seg ++ failure_said (n + length seg) e in
  run_report (n + length seg') (older ++ [s]) sessions r added → run_report n older (Some s :: sessions) r (seg' ++ added).
Proof.
  intros Hb Hs Hne seg' (failed & rest & segs & last & exhausted & -> & HF & -> & He & Hmin & Hex).
  exists (s :: failed), rest, (seg' ++ segs), last, exhausted. cbn [map app length].
  split_and!; [done|by apply FailuresNext|by rewrite app_assoc|by rewrite length_app, Nat.add_assoc| |].
  - intros [|i] Hi; cbn [take]; [by rewrite app_nil_r|]. specialize (Hmin i ltac:(lia)). by rewrite <-app_assoc in Hmin.
  - by rewrite <-app_assoc in Hex.
Qed.

Lemma healths_snoc older s : healths (older ++ [s]) = healthy_session policy s :: healths older.
Proof. unfold healths. by rewrite map_app, rev_app_distr. Qed.

(** A failed session: the report, and the end of the run or the next sessions. *)
Lemma failed_session_report sessions older s seg e calls r calls' :
  1 ≤ rp_max_attempts policy → ¬ budget_used (rp_max_attempts policy) (healths older) →
  session_said (length calls) s seg (inr e) → e ≠ WsCancelled →
  (∀ calls1, ¬ budget_used (rp_max_attempts policy) (healths (older ++ [s])) →
     connector_loop parse subscribe unsubscribe policy (streak (healths (older ++ [s]))) sessions calls1 = (r, calls') →
     ∃ added, calls' = calls1 ++ added ∧ run_report (length calls1) (older ++ [s]) sessions r added) →
  (_ ← report_failure e; let failures := if healthy_session policy s then 1 else streak (healths older) + 1 in
   if rp_max_attempts policy <=? failures then finish_run policy true
   else connector_loop parse subscribe unsubscribe policy failures sessions) (calls ++ seg) = (r, calls') →
  ∃ added, calls' = calls ++ added ∧ run_report (length calls) older (Some s :: sessions) r added.
Proof.
  intros Hm Hb Hs Hne IH. unfold mbind, ConnM_bind. rewrite report_failure_said. cbv zeta.
  assert (Hst : (if healthy_session policy s then 1 else streak (healths older) + 1) = streak (healths (older ++ [s]))).
  { rewrite healths_snoc. cbn [streak]. destruct (healthy_session policy s); lia. }
  rewrite Hst, length_app, <-app_assoc. set (seg' := seg ++ failure_said (length calls + length seg) e).
  destruct (Z.leb_spec (rp_max_attempts policy) (streak (healths (older ++ [s])))) as [Hu|Hu].
  - rewrite finish_run_said. intros [= <- <-]. eexists. rewrite <-app_assoc. split; [done|].
    apply streak_budget in Hu; [|done]. rewrite length_app.
    eexists [s], sessions, (seg' ++ []), _, true. rewrite app_nil_r.
    split_and!; try done; [|by constructor|].
    + rewrite <-(app_nil_r seg'). apply FailuresNext; [done|done|constructor].
    + intros i Hi. cbn in Hi. replace i with 0%nat by lia. cbn [take]. by rewrite app_nil_r.
  - intros H. apply IH in H as (added & -> & Hrep); [|intros Hbu%(streak_budget _ _ Hm); lia].
    exists (seg' ++ added). rewrite <-app_assoc. split; [done|]. rewrite length_app in Hrep. by apply run_report_cons.
Qed.

Lemma connector_loop_report sessions older calls r calls' :
  1 ≤ rp_max_attempts policy → ¬ budget_used (rp_max_attempts policy) (healths older) →
  connector_loop parse subscribe unsubscribe policy (streak (healths older)) sessions calls = (r, calls') →
  ∃ added, calls' = calls ++ added ∧ run_report (length calls) older sessions r added.
Proof.
  intros Hm. revert older calls. induction sessions as [|[s|] sessions IH]; intros older calls Hb; cbn [connector_loop].
  - intros [= <- <-]. exists []. rewrite app_nil_r. split; [done|]. apply run_report_end; [done|constructor].
  - destruct (run_session _ _ _ s calls) as [r1 calls1] eqn:Hs. apply run_session_said in Hs as (seg & -> & Hseg).
    destruct r1 as [[]|e].
    + rewrite finish_run_said. intros [= <- <-]. eexists. rewrite <-app_assoc. split; [done|].
      rewrite length_app. apply run_report_end; [done|by constructor].
    + intros [= <- <-]. exists seg. split; [done|]. apply run_report_end; [done|by constructor].
    + destruct e as [d c re|e|]; [by eapply failed_session_report; eauto|by eapply failed_session_report; eauto|].
      intros [= <- <-]. exists seg. split; [done|]. apply run_report_end; [done|by constructor].
  - rewrite finish_run_said. intros [= <- <-]. eexists. split; [done|]. apply run_report_end; [done|constructor].
Qed.

(** C20. The life of the connection, call by call.  As long as the event callback returns, a run goes
    through the sessions of the transport in order.  A session that connects reports
    [Connected] and subscribes; every event of every message it receives is passed on, in
    order, each candle is handled before the next event, and the outcome of its handling is
    passed on; a stop while it waits unsubscribes and closes.  A session that fails reports the
    failure after that; the run gives up - with [ReconnectExhausted] and [Stopped] - at the
    first failed session that uses up the budget: [max_attempts] sessions in a row of which all
    but possibly the oldest were not healthy, where a healthy one starts the count again at
    one.  Otherwise it ends with [Stopped] when it is stopped, silently when it is cancelled, or
    it is still waiting.  These are all the calls of the run, each with the time it reads. *)
Theorem connector_run_exact (sessions : list (option Session)) :
  1 ≤ rp_max_attempts policy →
  let '(r, calls) := connector_run parse subscribe unsubscribe policy sessions [] in
  run_report 0 [] sessions r calls.
Proof.
  intros Hm. unfold connector_run. destruct (connector_loop _ _ _ _ 0 sessions []) as [r calls] eqn:H.
  apply (connector_loop_report sessions []) in H as (added & -> & Hr); [exact Hr|done|].
  intros [H0 _]. cbn in H0. lia.
Qed.
End facts.

(** ** Examples *)

Definition example_connector_env : ConnectorEnv := {|
  ce_now_ms n := 1000 + Z.of_nat n;
  ce_handle _ _ _ := Ok None;
  ce_on_event _ _ := None;
  ce_on_outcome _ _ := None
|}.

Definition example_session (lifetime : Z) (messages : nat) : Session (Raw:=unit) :=
  mkSession (inl (float_of_Z 0)) None
    (replicate messages (Received ()) ++ [ReceiveRaises (WsDisconnected "closed" (Some 1006) None)]) None None (float_of_Z lifetime).

Definition example_connector (max_attempts : Z) (lifetimes : list Z) : (bool + ws_exn) * list Call :=
  connector_run (V:=example_connector_env) (λ _ t, Ok [HeartbeatObserved t]) "sub" "unsub"
    (mkReconnectPolicy max_attempts (float_of_Z 1) (float_of_Z 30)) (map (λ t, Some (example_session t 1)) lifetimes) [].

Definition exhausts (calls : list Call) : bool :=
  existsb (λ c, match c with OnEvent (ReconnectExhausted _ _) => true | _ => false end) calls.

(** A budget of three outlives any number of healthy sessions and ends after the second short one that
    follows a healthy one; a budget of one ends with the first disconnect, however long the
    session lasted. *)
Example reconnect_budget :
  (exhausts (example_connector 3 [60; 60; 5; 60; 60]).2, exhausts (example_connector 3 [60; 60; 5; 6]).2,
   exhausts (example_connector 1 [86400]).2) = (false, true, true).
Proof. by vm_compute. Qed.

Lemma connector_run_exact_witness :
  let '(r, calls) := example_connector 1 [86400] in
  (r, length calls) = (inl true, 7%nat) ∧
  run_report (V:=example_connector_env) (λ _ t, Ok [HeartbeatObserved t]) "sub" "unsub"
    (mkReconnectPolicy 1 (float_of_Z 1) (float_of_Z 30)) 0 [] [Some (example_session 86400 1)] r calls.
Proof.
  pose proof (connector_run_exact (V:=example_connector_env) (λ _ t, Ok [HeartbeatObserved t]) "sub" "unsub"
    (mkReconnectPolicy 1 (float_of_Z 1) (float_of_Z 30)) (λ _ _, eq_refl) [Some (example_session 86400 1)]
    ltac:(cbn; lia)) as H.
  change (let '(r, calls) := example_connector 1 [86400] in
    run_report (V:=example_connector_env) (λ _ t, Ok [HeartbeatObserved t]) "sub" "unsub" (mkReconnectPolicy 1 (float_of_Z 1) (float_of_Z 30))
      0 [] [Some (example_session 86400 1)] r calls) in H.
  assert (Hc : let '(r, calls) := example_connector 1 [86400] in (r, length calls) = (inl true, 7%nat)) by by vm_compute.
  destruct (example_connector 1 [86400]) as [r calls]. by split.
Defined.
