(* ===== verification/Delivery.v ===== *)
(** * Delivery of committed bars

    adapters/http/committed_bar_notifier.py and the task of runtime/committed_bar_notification.py.
    The queue and the stations of the task are those of Coordinator.v, which runs the task beside the
    handlers; here it meets the stop event, any number of cancellations, and the answers of the
    webhook.  [delivery_step] is one atomic step, between two awaits; log lines are left out. *)

From S2P Require Import Prelude PyStr Timeframes Identity Json Provenance Coordinator.

(** ** One request (HttpCommittedBarNotifier) *)

(** What [urlopen] and reading the body come to; a body is [None] when it is not UTF-8. *)
Inductive post_answer :=
| PostResponse (status : Z) (body : option string)
| PostFailed (shown : string)                     (* HTTPError, URLError or TimeoutError *)
| PostRaise (e : exn).

Section send.
Context (json_loads : string → option json).

Definition post_url (base_url : string) : string :=
  text (rstrip_char (chr 47) (chars base_url)) +:+ "/v1/webhooks/closed-bar".

(** [json.dumps({...})] *)
Definition post_body (x : CommittedBarNotification) : string :=
  text (chars "{" ++ json_string "instrument" ++ chars ": " ++ json_string (nt_instrument x) ++ chars ", " ++
        json_string "timeframe" ++ chars ": " ++ json_string (tf_id (nt_timeframe x)) ++ chars ", " ++
        json_string "open_time_ms" ++ chars ": " ++ chars (str_of_Z (nt_open_time_ms x)) ++ chars "}").

(** [payload == _EXPECTED_BODY] *)
Definition accepted_payload (payload : json) : bool :=
  match payload with
  | JObj [(key, JStr value)] => bool_decide (key = "status"%string) && bool_decide (value = "accepted"%string)
  | _ => false
  end.

(** [send], after the request went out. *)
Definition send (base_url : string) (answer : post_answer) : res () :=
  let failed what := raise ExcCommittedBarDeliveryError ("POST " +:+ post_url base_url +:+ what) in
  match answer with
  | PostRaise e => Raise e
  | PostFailed shown => failed (" failed: " +:+ shown)
  | PostResponse status body =>
      match body ≫= json_loads with
      | None => failed " returned a non-JSON body"%string
      | Some payload =>
          if negb (status =? 200) || negb (accepted_payload payload)
          then failed (" returned unexpected status=" +:+ str_of_Z status +:+ " body=" +:+ json_repr payload)
          else mret ()
      end
  end.

Lemma send_accepted base_url answer :
  send base_url answer = Ok () ↔
  ∃ body payload, answer = PostResponse 200 (Some body) ∧ json_loads body = Some payload ∧ accepted_payload payload = true.
Proof.
  unfold send. cbv zeta. split.
  - destruct answer as [status body|shown|e]; [|done|done]. destruct body as [body|]; cbn; [|done].
    destruct (json_loads body) as [payload|] eqn:Hl; [|done]. destruct (_ || _) eqn:Hb; [done|]. intros _. bool_hyps.
    subst. by exists body, payload.
  - intros (body & payload & -> & Hl & Ha). cbn. by rewrite Hl, Ha.
Qed.
End send.

(** ** The task (CommittedBarNotificationWorker.run) *)

Record Delivery := mkDelivery {
  dv_notifier : Notifier;
  dv_stop : bool;              (* stop_event.is_set() *)
  dv_cancelled : bool;         (* of _wait_for_send *)
  dv_ended : bool;
  dv_unfinished : Z            (* of asyncio.Queue *)
}.

Definition Delivery_new (capacity : Z) : Delivery := mkDelivery (mkNotifier capacity [] NotifierIdle) false false false 0.

(** What wakes the task or comes from the other tasks. *)
Inductive delivery_input :=
| InEnqueue (x : CommittedBarNotification)
| InStop
| InTimeout                          (* of wait_for(queue.get()) *)
| InTake
| InPrepared (ready : res bool)
| InCancel
| InSent (r : res ()).

(** What happens to a notification. *)
Inductive delivery_entry :=
| Accepted (x : CommittedBarNotification)
| Dropped (x : CommittedBarNotification)
| Posting (x : CommittedBarNotification)                   (* its thread starts *)
| Posted (x : CommittedBarNotification) (r : res ())       (* its thread has ended *)
| Held (x : CommittedBarNotification)                      (* prepare said no *)
| Discarded (x : CommittedBarNotification)                 (* taken after the stop *)
| Lost (x : CommittedBarNotification)                      (* the task ended while preparing *)
| Stopped.

Definition dv_task (s : Delivery) : NotifierTask := no_task (dv_notifier s).
Definition dv_queue (s : Delivery) : list CommittedBarNotification := no_queue (dv_notifier s).

Definition set_dv (s : Delivery) (queue : list CommittedBarNotification) (task : NotifierTask) (ended : bool) (unfinished : Z) : Delivery :=
  mkDelivery (mkNotifier (no_capacity (dv_notifier s)) queue task) (dv_stop s) (dv_cancelled s) ended unfinished.

(** After an item: [task_done()] and the head of the loop. *)
Definition task_done (s : Delivery) (queue : list CommittedBarNotification) (ended : bool) : Delivery :=
  set_dv s queue NotifierIdle (ended || dv_stop s) (dv_unfinished s - 1).

Definition delivery_step (prepare : bool) (i : delivery_input) (s : Delivery) : option (list delivery_entry * Delivery) :=
  match i with
  | InEnqueue x =>
      if queue_full (dv_notifier s) then Some ([Dropped x], s)
      else Some ([Accepted x], set_dv s (dv_queue s ++ [x]) (dv_task s) (dv_ended s) (dv_unfinished s + 1))
  | InStop => Some ([Stopped], mkDelivery (dv_notifier s) true (dv_cancelled s) (dv_ended s) (dv_unfinished s))
  | _ =>
      if dv_ended s then None
      else match i, dv_task s, dv_queue s with
      | InTimeout, NotifierIdle, queue => Some ([], set_dv s queue NotifierIdle (dv_stop s) (dv_unfinished s))
      | InTake, NotifierIdle, x :: queue =>
          if dv_stop s then Some ([Discarded x], task_done s queue true)
          else if prepare then Some ([], set_dv s queue (Preparing x) false (dv_unfinished s))
          else Some ([Posting x], set_dv s queue (Sending x) false (dv_unfinished s))
      | InPrepared (Ok true), Preparing x, queue => Some ([Posting x], set_dv s queue (Sending x) false (dv_unfinished s))
      | InPrepared (Ok false), Preparing x, queue => Some ([Held x], task_done s queue false)
      | InPrepared (Raise _), Preparing x, queue => Some ([Lost x], set_dv s queue NotifierIdle true (dv_unfinished s))
      | InCancel, NotifierIdle, queue => Some ([], set_dv s queue NotifierIdle true (dv_unfinished s))
      | InCancel, Preparing x, queue => Some ([Lost x], set_dv s queue NotifierIdle true (dv_unfinished s))
      | InCancel, Sending x, queue =>
          Some ([], mkDelivery (dv_notifier s) (dv_stop s) true false (dv_unfinished s))
      | InSent r, Sending x, queue => Some ([Posted x r], task_done s queue (dv_cancelled s))
      | _, _, _ => None
      end
  end.

Fixpoint delivery_run (prepare : bool) (inputs : list delivery_input) (s : Delivery) : option (list delivery_entry * Delivery) :=
  match inputs with
  | [] => Some ([], s)
  | i :: inputs =>
      '(es, s1) ← delivery_step prepare i s;
      '(es', s2) ← delivery_run prepare inputs s1;
      Some (es ++ es', s2)
  end.

(** ** What the entries say *)

Definition accepted (es : list delivery_entry) : list CommittedBarNotification :=
  omap (λ e, match e with Accepted x => Some x | _ => None end) es.
Definition posting (es : list delivery_entry) : list CommittedBarNotification :=
  omap (λ e, match e with Posting x => Some x | _ => None end) es.
Definition posted (es : list delivery_entry) : list CommittedBarNotification :=
  omap (λ e, match e with Posted x _ => Some x | _ => None end) es.
(** The notifications whose turn came, in order. *)
Definition settled (es : list delivery_entry) : list CommittedBarNotification :=
  omap (λ e, match e with Posting x | Held x | Discarded x | Lost x => Some x | _ => None end) es.
Definition lost (es : list delivery_entry) : list CommittedBarNotification :=
  omap (λ e, match e with Lost x => Some x | _ => None end) es.

(** The requests that started after the stop. *)
Fixpoint after_stop (es : list delivery_entry) : list CommittedBarNotification :=
  match es with
  | [] => []
  | Stopped :: es => posting es
  | _ :: es => after_stop es
  end.

Definition preparing (s : Delivery) : list CommittedBarNotification :=
  match dv_task s with Preparing x => [x] | _ => [] end.
Definition in_flight (s : Delivery) : list CommittedBarNotification :=
  match dv_task s with Sending x => [x] | _ => [] end.

Lemma posting_settled es : posting es `sublist_of` settled es.
Proof. induction es as [|[] es IH]; cbn; try apply sublist_skip; try apply sublist_cons; done. Qed.

Definition has_stop (es : list delivery_entry) : bool :=
  existsb (λ e, match e with Stopped => true | _ => false end) es.

Lemma after_stop_app es es' :
  after_stop (es ++ es') = if has_stop es then after_stop es ++ posting es' else after_stop es'.
Proof.
  induction es as [|e es IH]; [done|]. destruct e; cbn; try exact IH. unfold posting. by rewrite omap_app.
Qed.

Lemma after_stop_none es : has_stop es = false → after_stop es = [].
Proof. induction es as [|[] es IH]; cbn; try done. Qed.

(** ** The invariant *)

Record delivery_inv (prepare : bool) (capacity : Z) (es : list delivery_entry) (s : Delivery) : Prop := {
  di_order : accepted es = settled es ++ preparing s ++ dv_queue s;
  di_requests : posting es = posted es ++ in_flight s;
  di_ended : dv_ended s = true → dv_task s = NotifierIdle;
  di_capacity : no_capacity (dv_notifier s) = capacity ∧ (0 < capacity → Z.of_nat (length (dv_queue s)) ≤ capacity);
  di_unfinished : dv_unfinished s = Z.of_nat (length (dv_queue s) + length (preparing s) + length (in_flight s) + length (lost es));
  di_prepare : preparing s ≠ [] → prepare = true;
  di_stop : has_stop es = dv_stop s;
  di_after : (length (after_stop es) + (if dv_stop s then length (preparing s) else 0) ≤ if prepare then 1 else 0)%nat
}.

Lemma delivery_inv_new prepare capacity : delivery_inv prepare capacity [] (Delivery_new capacity).
Proof. split; try done; cbn; lia. Qed.

(** One case of a step, field by field. *)
Ltac delivery_case H1 H2 Hst Haft :=
  intros [= <- <-]; split; unfold preparing, in_flight, dv_queue, dv_task in *; cbn in *;
  try (rewrite ?Hst, ?Haft);
  unfold accepted, posting, posted, settled, lost in *;
  rewrite ?omap_app; cbn; rewrite ?H1, ?H2, ?app_nil_r, <- ?app_assoc; cbn;
  try done; try (rewrite ?length_app in *; cbn in *; lia).

Lemma delivery_step_inv prepare capacity es s i es' s' :
  delivery_inv prepare capacity es s → delivery_step prepare i s = Some (es', s') →
  delivery_inv prepare capacity (es ++ es') s'.
Proof.
  intros [H1 H2 H3 [H4 H4'] H5 H6 H7 H8]. destruct s as [[cap queue task] stop cancelled ended unfinished].
  unfold preparing, in_flight, dv_queue, dv_task in *. cbn in *. subst cap.
  assert (Hst : ∀ l, has_stop (es ++ l) = stop || has_stop l) by (intros l; unfold has_stop in *; by rewrite existsb_app, H7).
  assert (Haft : ∀ l, after_stop (es ++ l) = if stop then after_stop es ++ posting l else after_stop l).
  { intros l. by rewrite after_stop_app, H7. }
  assert (Hnone : stop = false → after_stop es = []) by (intros ->; by apply after_stop_none).
  destruct i, ended, task; try done; try (cbn in *; specialize (H3 eq_refl); discriminate H3).
  all: try (destruct queue as [|y queue]; [discriminate|]).
  all: cbn; unfold queue_full; cbn; repeat case_match; try discriminate.
  all: delivery_case H1 H2 Hst Haft; rewrite ?orb_false_r, ?orb_true_r; try done.
  all: discriminate (H6 ltac:(done)).
Qed.

Lemma delivery_run_inv prepare capacity inputs es s es' s' :
  delivery_inv prepare capacity es s → delivery_run prepare inputs s = Some (es', s') →
  delivery_inv prepare capacity (es ++ es') s'.
Proof.
  revert es s es'. induction inputs as [|i inputs IH]; intros es s es' Hi; cbn.
  { intros [= <- <-]. by rewrite app_nil_r. }
  intros H. destruct (delivery_step prepare i s) as [[es1 s1]|] eqn:Hs; [|done]. cbn in H.
  destruct (delivery_run prepare inputs s1) as [[es2 s2]|] eqn:Hr; [|done]. injection H as <- <-.
  rewrite app_assoc. by eapply IH; [eapply delivery_step_inv|].
Qed.

(** Without the stop event and cancellations the task is that of Coordinator.v. *)
Lemma coordinator_takes c s es s' :
  co_notifier c = Some (dv_notifier s) → dv_stop s = false → delivery_step true InTake s = Some (es, s') →
  co_notifier (take_notification c).2 = Some (dv_notifier s').
Proof.
  destruct s as [[capacity queue task] stop cancelled [|] unfinished]; [done|]. cbn. unfold dv_task, dv_queue. cbn.
  intros Hn ->. destruct task as [|z|z], queue as [|x queue]; try done. intros [= _ <-]. unfold take_notification, co_modify. cbn.
  by rewrite Hn.
Qed.

Lemma coordinator_sends c s r es s' :
  co_notifier c = Some (dv_notifier s) → delivery_step true (InSent r) s = Some (es, s') →
  co_notifier (sent_notification c).2 = Some (dv_notifier s').
Proof.
  destruct s as [[capacity queue task] stop cancelled [|] unfinished]; [done|]. cbn. unfold dv_task, dv_queue. cbn.
  intros Hn. destruct task; try done. intros [= _ <-].
  unfold sent_notification, set_task, co_modify, co_get, mbind, CM_bind. by rewrite Hn; cbn; rewrite Hn.
Qed.

(** ** Properties *)

(** C34. Over every interleaving of new bars, prepared bars, answers of the webhook, the stop event and any
    number of cancellations: the notifications the queue took are settled in their order, each by at
    most one request, by the refusal of [prepare], by the stop or by the end of the task while it
    prepared, and the rest are still queued; every request that started ends before the next one and
    before the task, which no cancellation ends while one is in flight; the queue stays within its
    capacity, and its count of unfinished tasks is what is queued, in hand or lost.  After the stop no
    request starts without [prepare], and at most the one being prepared with it. *)
Theorem delivered_at_most_once (prepare : bool) (capacity : Z) (inputs : list delivery_input)
    (es : list delivery_entry) (s : Delivery) :
  delivery_run prepare inputs (Delivery_new capacity) = Some (es, s) →
  accepted es = settled es ++ preparing s ++ dv_queue s ∧
  posting es `sublist_of` accepted es ∧
  posting es = posted es ++ in_flight s ∧
  (dv_ended s = true → posting es = posted es) ∧
  (0 < capacity → Z.of_nat (length (dv_queue s)) ≤ capacity) ∧
  dv_unfinished s = Z.of_nat (length (dv_queue s) + length (preparing s) + length (in_flight s) + length (lost es)) ∧
  (length (after_stop es) ≤ if prepare then 1 else 0)%nat.
Proof.
  intros Hr. pose proof (delivery_run_inv prepare capacity inputs [] _ _ _ (delivery_inv_new prepare capacity) Hr) as Hi.
  cbn [app] in Hi. destruct Hi as [H1 H2 H3 [_ H4] H5 _ _ H8]. split; [done|].
  split; [rewrite H1; apply sublist_inserts_r, posting_settled|]. split; [done|].
  split; [intros He; rewrite H2; unfold in_flight; rewrite (H3 He); apply app_nil_r|].
  split; [done|]. split; [done|]. lia.
Qed.

(** ** Examples *)

Definition example_notification (t : Z) : CommittedBarNotification := mkNotification "BTCUSDT.P" TF_1m t.

(** The stop comes while the first bar is prepared: its request starts all the same, and two
    cancellations do not end it; the third bar of a queue of two is dropped. *)
Definition example_inputs : list delivery_input :=
  map (λ t, InEnqueue (example_notification t)) [0; 60000; 120000] ++
  [InTake; InStop; InPrepared (Ok true); InCancel; InCancel; InSent (raise ExcCommittedBarDeliveryError "refused")].

Lemma delivered_at_most_once_witness :
  ∃ es s, delivery_run true example_inputs (Delivery_new 2) = Some (es, s) ∧
    after_stop es = [example_notification 0] ∧ dv_queue s = [example_notification 60000] ∧ dv_ended s = true ∧
    posting es = posted es.
Proof.
  destruct (delivery_run true example_inputs (Delivery_new 2)) as [[es s]|] eqn:Hr; [|by vm_compute in Hr].
  exists es, s. pose proof (delivered_at_most_once true 2 example_inputs es s Hr) as (_ & _ & _ & He & _).
  vm_compute in Hr. injection Hr as <- <-. split; [done|]. split; [done|]. split; [done|]. split; [done|]. by apply He.
Defined.

Example body_example :
  chars (post_body (example_notification 60000)) =
  chars "{" ++ json_string "instrument" ++ chars ": " ++ json_string "BTCUSDT.P" ++ chars ", " ++
  json_string "timeframe" ++ chars ": " ++ json_string "1m" ++ chars ", " ++
  json_string "open_time_ms" ++ chars ": 60000}".
Proof. by vm_compute. Qed.
