(* ===== verification/Http.v ===== *)
(** * The HTTP interface

    adapters/http/: request_router.py, error_envelope.py, consumer_read/ (parsing.py,
    serialization.py, handler.py), historical_read/handler.py and history_planning/handler.py.  A
    response is its status and its JSON document.  A target is of the origin form that http.server
    hands over: it starts with one slash and has no white space.  [json.loads] is a parameter:
    the document, or the message of its [ValueError]. *)

From S2P Require Import Prelude PyStr DecimalValues Timeframes Identity Gaps Candles StreamState.
From S2P Require Import Instruments OpenInterest Storage AbsStore Ingest ImportWindow UseCase Provenance Repair.
From S2P Require Import ConsumerRead HistoryPlanning RealtimeFacts RealtimeRecovery RuntimeStatus PyFloat Json.

Definition Response : Type := Z * json.

(** ** urllib.parse *)

(** [text.split(c)] *)
Fixpoint split_at (c : Ascii.ascii) (word l : list Ascii.ascii) : list string :=
  match l with
  | [] => [text (rev word)]
  | x :: l => if Ascii.eqb x c then text (rev word) :: split_at c [] l else split_at c (x :: word) l
  end.
Definition split_char (c : Ascii.ascii) (s : string) : list string := split_at c [] (chars s).

(** The part before and the part after the first [c]. *)
Fixpoint cut (c : Ascii.ascii) (l : list Ascii.ascii) : list Ascii.ascii * option (list Ascii.ascii) :=
  match l with
  | [] => ([], None)
  | x :: l => if Ascii.eqb x c then ([], Some l) else let '(a, b) := cut c l in (x :: a, b)
  end.

Definition slash : Ascii.ascii := chr 47.
Definition percent : Ascii.ascii := chr 37.

(** [urlsplit(target)]: the path and the query. *)
Definition urlsplit (target : string) : string * string :=
  let '(l, _) := cut (chr 35) (chars target) in
  let '(path, query) := cut (chr 63) l in
  (text path, text (default [] query)).

Definition hex_value (c : Ascii.ascii) : option Z :=
  let n := code c in
  if is_digit c then Some (n - 48)
  else if (97 <=? n) && (n <=? 102) then Some (n - 87)
  else if (65 <=? n) && (n <=? 70) then Some (n - 55)
  else None.

(** [unquote(text)]; an escape above 7F stands for a character that is not ASCII. *)
Fixpoint unquote_chars (l : list Ascii.ascii) : list Ascii.ascii :=
  match l with
  | [] => []
  | c :: l' =>
      match l' with
      | x :: y :: l'' =>
          match (if Ascii.eqb c percent then a ← hex_value x; b ← hex_value y; Some (16 * a + b) else None) with
          | Some n => chr n :: unquote_chars l''
          | None => c :: unquote_chars l'
          end
      | _ => c :: unquote_chars l'
      end
  end.
Definition unquote (s : string) : string := text (unquote_chars (chars s)).

Definition plus_to_blank (s : string) : string :=
  text (map (λ c, if Ascii.eqb c plus then chr 32 else c) (chars s)).

(** [parse_qs(query, keep_blank_values=True)], as its pairs in order. *)
Definition parse_qsl (query : string) : list (string * string) :=
  omap (λ pair,
    if bool_decide (pair = ""%string) then None
    else let '(name, value) := cut (chr 61) (chars pair) in
         Some (unquote (plus_to_blank (text name)), unquote (plus_to_blank (text (default [] value)))))
    (split_char (chr 38) query).

(** ** error_envelope.py *)

Definition error_document (error detail : string) : json :=
  JObj [("error", JStr error); ("detail", JStr detail)]%string.

(** [exc.code] *)
Definition consumer_code (c : exn_class) : string :=
  match c with
  | ExcConfiguredStreamNotFound => "configured_stream_not_found"
  | ExcStreamNotReady => "stream_not_ready"
  | ExcInvalidRange => "invalid_request"
  | ExcRangeNotAligned => "range_not_aligned"
  | ExcRangeOutOfBounds => "range_out_of_bounds"
  | ExcContinuityInvariantBroken => "continuity_invariant_broken"
  | ExcCoverageStale => "coverage_stale"
  | _ => "consumer_read_error"
  end.

Definition map_exception (exc : exn) : Response :=
  let isa := isinstance exc in
  let document := error_document (consumer_code (exn_cls exc)) (exn_str exc) in
  if isa ExcLookupError then (404, error_document "not_found" (exn_str exc))
  else if isa ExcUnknownStreamError then (404, error_document "configured_stream_not_found" (exn_str exc))
  else if isa ExcConfiguredStreamNotFound then (404, document)
  else if isa ExcStreamNotReady || isa ExcCoverageStale then (409, document)
  else if isa ExcInvalidRange || isa ExcRangeNotAligned || isa ExcRangeOutOfBounds then (422, document)
  else if isa ExcContinuityInvariantBroken then (500, document)
  else if isa ExcValueError then (422, error_document "invalid_request" (exn_str exc))
  else (500, error_document "internal_error" (exn_str exc)).

(** [try: return 200, document(m) except Exception as exc: return map_exception(exc)] *)
Definition respond {A} (m : M A) (document : A → res json) : M Response :=
  try_catch (a ← m; d ← lift (document a); mret (200, d)) (λ exc, mret (map_exception exc)).

(** ** consumer_read/parsing.py and serialization.py *)

Definition ALLOWED : list string := ["ticker"; "timeframe"; "from_ms"; "to_ms"].

Definition query_values (q : list (string * string)) (name : string) : list string :=
  map snd (filter (λ p, p.1 = name) q).

(** The loop over the set of names, in the order the set is iterated. *)
Fixpoint required_values (q : list (string * string)) (names : list string) : res (gmap string string) :=
  match names with
  | [] => Ok ∅
  | name :: names =>
      match query_values q name with
      | [value] =>
          _ ← raise_if (bool_decide (value = ""%string)) ExcInvalidRange (name +:+ " is required exactly once");
          values ← required_values q names;
          mret (<[name := value]> values)
      | _ => raise ExcInvalidRange (name +:+ " is required exactly once")
      end
  end.

Definition parse_request_target (order : list string) (target : string) : res CandleRangeRequest :=
  let query := parse_qsl (urlsplit target).2 in
  _ ← raise_if (negb (forallb (λ p, bool_decide (p.1 ∈ ALLOWED)) query)) ExcInvalidRange "unsupported query parameter";
  values ← required_values query order;
  let value name := default "" (values !! name) in
  match py_int (value "from_ms"), py_int (value "to_ms") with
  | Some from_ms, Some to_ms => mret (mkRangeRequest (value "ticker") (value "timeframe") from_ms to_ms)
  | _, _ => raise ExcInvalidRange "from_ms and to_ms must be integers"
  end%string.

Definition optional {A} (f : A → json) (x : option A) : json := match x with Some a => f a | None => JNull end.

Definition candle_document (c : CanonicalCandle) (open_interest : option string) : json :=
  let v := cc_values c in
  JObj [("open_time_ms", JInt (cc_open_time_ms c)); ("open", JStr (dec_text (o_open v)));
        ("high", JStr (dec_text (o_high v))); ("low", JStr (dec_text (o_low v)));
        ("close", JStr (dec_text (o_close v))); ("volume", JStr (dec_text (o_volume v)));
        ("open_interest", optional JStr open_interest)]%string.

(** [zip(candles, open_interest, strict=True)] *)
Fixpoint candle_documents (candles : list CanonicalCandle) (open_interest : list (option string)) : res (list json) :=
  match candles, open_interest with
  | [], [] => Ok []
  | c :: candles, oi :: open_interest =>
      documents ← candle_documents candles open_interest;
      mret (candle_document c oi :: documents)
  | [], _ => raise ExcValueError "zip() argument 2 is longer than argument 1"
  | _, [] => raise ExcValueError "zip() argument 2 is shorter than argument 1"
  end.

Definition serialize_result (r : CandleRangeResult) : res json :=
  candles ← candle_documents (cg_candles r) (cg_open_interest r);
  mret (JObj [("ticker", JStr (ticker (instrument (cg_stream r)))); ("timeframe", JStr (tf_id (timeframe (cg_stream r))));
              ("from_ms", JInt (cg_from_ms r)); ("to_ms", JInt (cg_to_ms r));
              ("market_data_hash", JStr (cg_market_data_hash r)); ("candles", JArr candles)]%string).

Section handlers.
Context (sha256_hex : string → string) (config : ValidatedMarketConfig) (oi_streams : list StreamKey).
Context (order : list string) (json_loads : string → json + string).

(** [ConsumerReadHttpHandler.handle] *)
Definition consumer_read_handle (target : string) : M Response :=
  respond (request ← lift (parse_request_target order target); get_candle_range sha256_hex config request)
    serialize_result.

(** ** historical_read/handler.py *)

(** The fields of the object of a body. *)
Definition body_object (payload : string) : res json_object :=
  match json_loads payload with
  | inr message => raise ExcValueError message
  | inl (JObj document) => Ok document
  | inl _ => raise ExcValueError "request body must be a JSON object"
  end.

(** [set(document) == names] *)
Definition has_fields (document : json_object) (names : list string) : bool :=
  bool_decide ((list_to_set (map fst document) : gset string) = list_to_set names).

(** The second component is what [document[key]] of a missing key would raise. *)
Definition require_str (document : json_object) (key : string) : res string :=
  match json_get document key with
  | Some (JStr value) =>
      if bool_decide (value = ""%string) then raise ExcValueError (key +:+ " must be a non-empty string") else Ok value
  | Some _ => raise ExcValueError (key +:+ " must be a non-empty string")
  | None => raise ExcKeyError (repr key)
  end.

Definition require_int (document : json_object) (key : string) : res Z :=
  match json_get document key with
  | Some (JInt value) => Ok value
  | Some _ => raise ExcValueError (key +:+ " must be an integer")
  | None => raise ExcKeyError (repr key)
  end.

Definition historical_fields : list string :=
  ["ticker"; "timeframe"; "from_ms"; "to_ms"; "expected_market_data_hash"].

Definition parse_historical_payload (payload : string) : res HistoricalCandleRangeRequest :=
  document ← body_object payload;
  _ ← raise_if (negb (has_fields document historical_fields)) ExcValueError
        "request body has unexpected or missing fields";
  ticker ← require_str document "ticker";
  timeframe ← require_str document "timeframe";
  from_ms ← require_int document "from_ms";
  to_ms ← require_int document "to_ms";
  expected ← require_str document "expected_market_data_hash";
  mret (mkHistoricalRequest ticker timeframe from_ms to_ms expected).

Definition historical_read_handle (payload : string) : M Response :=
  respond (request ← lift (parse_historical_payload payload); get_historical_candle_range sha256_hex config request)
    serialize_result.

(** ** history_planning/handler.py *)

(** [path.strip("/").split("/")] *)
Definition path_parts (target : string) : list string :=
  let l := chars (urlsplit target).1 in
  split_at slash [] (drop_while_end (Ascii.eqb slash) (drop_while (Ascii.eqb slash) l)).

(** The three last parts of a path of a stream. *)
Definition stream_parts (target : string) : option (string * string * string) :=
  match path_parts target with
  | [v1; streams; a; b; c] =>
      if bool_decide (v1 = "v1" ∧ streams = "streams")%string then Some (a, b, c) else None
  | _ => None
  end.

Definition matches (target : string) : bool := bool_decide (is_Some (stream_parts target)).

(** [_parse_route]: the stream and the operation. *)
Definition parse_route (target : string) : res (StreamKey * string) :=
  match stream_parts target with
  | None => raise ExcLookupError "route not found"
  | Some (a, b, c) =>
      k ← reraise [ExcValueError] (i ← InstrumentKey_new (unquote a); StreamKey_new i (unquote b))
            (λ exc, Exn ExcValueError (exn_str exc));
      _ ← raise_if (negb (bool_decide (k ∈ enabled_streams config))) ExcUnknownStreamError (stream_canonical_id k);
      mret (k, unquote c)
  end.

Definition audit_fields : list string := ["from_ms"; "to_ms"].

Definition parse_audit_payload (payload : string) : res (Z * Z) :=
  document ← match json_loads payload with
             | inr _ => raise ExcValueError "request body must be valid JSON"
             | inl (JObj document) => Ok document
             | inl _ => raise ExcValueError "request body must be a JSON object"
             end;
  _ ← raise_if (negb (has_fields document audit_fields)) ExcValueError "request body must contain only from_ms/to_ms";
  from_ms ← require_int document "from_ms";
  to_ms ← require_int document "to_ms";
  mret (from_ms, to_ms).

Definition bounds_document (r : StreamBoundsResult) : json :=
  JObj [("contract_version", JStr "market_stream_bounds.v1");
        ("ticker", JStr (ticker (instrument (sb_stream r)))); ("timeframe", JStr (tf_id (timeframe (sb_stream r))));
        ("state", JStr (sb_state r));
        ("earliest_committed_open_time_ms", optional JInt (sb_earliest_committed_open_time_ms r));
        ("latest_committed_open_time_ms", optional JInt (sb_latest_committed_open_time_ms r))]%string.

Definition audit_document (r : ContinuityAuditResult) : json :=
  JObj [("contract_version", JStr "market_continuity_audit.v1");
        ("ticker", JStr (ticker (instrument (ca_stream r)))); ("timeframe", JStr (tf_id (timeframe (ca_stream r))));
        ("checked_start_ms", JInt (ca_checked_start_ms r)); ("checked_end_ms", JInt (ca_checked_end_ms r));
        ("candle_count", JInt (ca_candle_count r)); ("is_continuous", JBool (ca_is_continuous r));
        ("gaps", JArr (map (λ g, JObj [("from_ms", JInt (gap_start g)); ("to_ms", JInt (gap_end g))]%string) (ca_gaps r)));
        ("state", JStr (ca_state r)); ("market_data_hash", optional JStr (ca_market_data_hash r))]%string.

Definition no_operation : Response := (404, error_document "not_found" "no such planning operation").

Definition planning_get (target : string) : M Response :=
  try_catch (route ← lift (parse_route target);
             if bool_decide (route.2 = "bounds"%string) then
               result ← get_stream_bounds oi_streams route.1;
               mret (200, bounds_document result)
             else mret no_operation)
    (λ exc, mret (map_exception exc)).

Definition planning_post (target payload : string) : M Response :=
  try_catch (route ← lift (parse_route target);
             if bool_decide (route.2 = "continuity-audits"%string) then
               request ← lift (parse_audit_payload payload);
               result ← audit_stream_range sha256_hex true route.1 request.1 request.2;
               mret (200, audit_document result)
             else mret no_operation)
    (λ exc, mret (map_exception exc)).

(** ** request_router.py *)

Definition status_document (s : RuntimeStreamStatus) : json :=
  JObj [("stream", JStr (st_stream s)); ("durable_state", JStr (st_durable_state s));
        ("realtime_status", JStr (st_realtime_status s)); ("data_ready", JBool (st_data_ready s));
        ("realtime_live", JBool (st_realtime_live s)); ("ready", JBool (st_ready s));
        ("reason", optional JStr (st_reason s))]%string.

Definition health_json (s : RuntimeStatus) : json :=
  JObj [("status", JStr (health_document s).1); ("fatal_error", optional JStr (health_document s).2)]%string.
Definition readiness_json (s : RuntimeStatus) : json :=
  JObj [("ready", JBool (readiness_document s).1);
        ("streams", JArr (map status_document (readiness_document s).2))]%string.

Definition not_routed (target : string) : Response :=
  (404, error_document "not_found" ("no route for " +:+ target)).

(** The router with all of its handlers; [openapi] is the OpenAPI document. *)
Definition http_get (status : RuntimeStatus) (openapi : json) (target : string) : M Response :=
  if bool_decide (target = "/health"%string) then
    mret (if sts_healthy status then 200 else 503, health_json status)
  else if bool_decide (target = "/readiness"%string) then
    mret (if (readiness_document status).1 then 200 else 503, readiness_json status)
  else
    let path := (urlsplit target).1 in
    if bool_decide (path = "/openapi.json"%string) then mret (200, openapi)
    else if bool_decide (path = "/v1/candles"%string) then consumer_read_handle target
    else if matches target then planning_get target
    else mret (not_routed target).

Definition http_post (target payload : string) : M Response :=
  if bool_decide ((urlsplit target).1 = "/v1/historical-candles"%string) then historical_read_handle payload
  else if matches target then planning_post target payload
  else mret (not_routed target).
End handlers.

(** ** Cutting at a character *)

Lemma cut_at c l r : Forall (λ x, Ascii.eqb x c = false) l → cut c (l ++ c :: r) = (l, Some r).
Proof. induction 1 as [|x l Hx Hl IH]; cbn [app cut]; [by rewrite Ascii.eqb_refl|]. by rewrite Hx, IH. Qed.

Lemma cut_none c l : Forall (λ x, Ascii.eqb x c = false) l → cut c l = (l, None).
Proof. induction 1 as [|x l Hx Hl IH]; cbn [cut]; [done|]. by rewrite Hx, IH. Qed.
