(* ===== verification/OpenApi.v ===== *)
(** * The documented HTTP contract

    adapters/http/consumer_read/openapi.py and openapi_schemas.py: the OpenAPI document the service
    publishes, and a validator for the part of JSON Schema it uses.  HttpConformance.v proves that
    what the handlers of Http.v answer is what the document says. *)

From S2P Require Import Prelude PyStr DecimalValues Timeframes Identity Gaps Candles StreamState.
From S2P Require Import Instruments OpenInterest Storage AbsStore Ingest ImportWindow UseCase Provenance Repair.
From S2P Require Import OpenInterestTrack ConsumerRead HistoryPlanning RealtimeFacts RealtimeRecovery RuntimeStatus PyFloat Json Http.

(** ** openapi_schemas.py *)

Section schemas.
Open Scope string_scope.

Definition typed (t : string) : json := JObj [("type", JStr t)].
Definition typed_min (t : string) (n : Z) : json := JObj [("type", JStr t); ("minimum", JInt n)].
Definition strings (l : list string) : json := JArr (map JStr l).

Definition parameter (name : string) (schema : json) (location : string) : json :=
  JObj [("name", JStr name); ("in", JStr location); ("required", JBool true); ("schema", schema)].

Definition json_content (schema : json) : json := JObj [("application/json", JObj [("schema", schema)])].

Definition error_schema : json :=
  JObj [("type", JStr "object"); ("required", strings ["error"; "detail"]);
        ("properties", JObj [("error", typed "string"); ("detail", typed "string")])].

Definition error_response (description : string) : json :=
  JObj [("description", JStr description); ("content", json_content error_schema)].

Definition DECIMAL_PATTERN : string := "^-?(0|[1-9][0-9]*)(\.[0-9]+)?$".
Definition HASH_PATTERN : string := "^[0-9a-f]{64}$".

Definition decimal_schema : json := JObj [("type", JStr "string"); ("pattern", JStr DECIMAL_PATTERN)].

Definition candle_schema : json :=
  JObj [("type", JStr "object");
        ("required", strings ["open_time_ms"; "open"; "high"; "low"; "close"; "volume"; "open_interest"]);
        ("properties", JObj
           [("open_time_ms", typed "integer"); ("open", decimal_schema); ("high", decimal_schema);
            ("low", decimal_schema); ("close", decimal_schema); ("volume", decimal_schema);
            ("open_interest", JObj [("type", strings ["string"; "null"]); ("pattern", JStr DECIMAL_PATTERN)])])].

Definition candle_response_schema : json :=
  JObj [("type", JStr "object");
        ("required", strings ["ticker"; "timeframe"; "from_ms"; "to_ms"; "market_data_hash"; "candles"]);
        ("properties", JObj
           [("ticker", typed "string"); ("timeframe", typed "string"); ("from_ms", typed "integer");
            ("to_ms", typed "integer");
            ("market_data_hash", JObj [("type", JStr "string"); ("pattern", JStr HASH_PATTERN)]);
            ("candles", JObj [("type", JStr "array"); ("items", candle_schema)])])].

Definition nullable_time : json := JObj [("type", strings ["integer"; "null"]); ("minimum", JInt 0)].

Definition bounds_response_schema : json :=
  JObj [("type", JStr "object");
        ("required", strings ["contract_version"; "ticker"; "timeframe"; "state";
                              "earliest_committed_open_time_ms"; "latest_committed_open_time_ms"]);
        ("properties", JObj
           [("contract_version", JObj [("const", JStr "market_stream_bounds.v1")]); ("ticker", typed "string");
            ("timeframe", typed "string"); ("state", typed "string");
            ("earliest_committed_open_time_ms", nullable_time); ("latest_committed_open_time_ms", nullable_time)])].

Definition gap_schema : json :=
  JObj [("type", JStr "object"); ("required", strings ["from_ms"; "to_ms"]);
        ("properties", JObj [("from_ms", typed "integer"); ("to_ms", typed "integer")])].

Definition audit_response_schema : json :=
  JObj [("type", JStr "object");
        ("required", strings ["contract_version"; "ticker"; "timeframe"; "checked_start_ms"; "checked_end_ms";
                              "candle_count"; "is_continuous"; "gaps"; "state"; "market_data_hash"]);
        ("properties", JObj
           [("contract_version", JObj [("const", JStr "market_continuity_audit.v1")]); ("ticker", typed "string");
            ("timeframe", typed "string"); ("checked_start_ms", typed_min "integer" 0);
            ("checked_end_ms", typed_min "integer" 1); ("candle_count", typed_min "integer" 0);
            ("is_continuous", typed "boolean"); ("gaps", JObj [("type", JStr "array"); ("items", gap_schema)]);
            ("state", typed "string");
            ("market_data_hash", JObj
               [("type", strings ["string"; "null"]); ("pattern", JStr HASH_PATTERN);
                ("description", JStr ("Canonical hash over the checked range when is_continuous is true; " +:+
                   "null when the checked range contains a gap."))])])].

Definition audit_request_schema : json :=
  JObj [("type", JStr "object"); ("required", strings ["from_ms"; "to_ms"]); ("additionalProperties", JBool false);
        ("properties", JObj [("from_ms", typed "integer"); ("to_ms", typed "integer")])].

Definition historical_candle_request_schema : json :=
  JObj [("type", JStr "object");
        ("required", strings ["ticker"; "timeframe"; "from_ms"; "to_ms"; "expected_market_data_hash"]);
        ("additionalProperties", JBool false);
        ("properties", JObj
           [("ticker", typed "string"); ("timeframe", typed "string"); ("from_ms", typed_min "integer" 0);
            ("to_ms", typed_min "integer" 0);
            ("expected_market_data_hash", JObj [("type", JStr "string"); ("pattern", JStr HASH_PATTERN)])])].

(** ** openapi.py *)

Definition stream_parameters : json :=
  JArr [parameter "ticker" (typed "string") "path"; parameter "timeframe" (typed "string") "path"].

Definition success (description : string) (schema : json) : json :=
  JObj [("description", JStr description); ("content", json_content schema)].
Definition request_body (schema : json) : json :=
  JObj [("required", JBool true); ("content", json_content schema)].

Definition openapi_document : json :=
  JObj [("openapi", JStr "3.1.0");
    ("info", JObj [("title", JStr "Market Data Service"); ("version", JStr "0.1.0")]);
    ("paths", JObj
      [("/v1/candles", JObj [("get", JObj
          [("summary", JStr "Read one complete canonical candle range");
           ("parameters", JArr
              [parameter "ticker" (typed "string") "query"; parameter "timeframe" (typed "string") "query";
               parameter "from_ms" (typed_min "integer" 0) "query"; parameter "to_ms" (typed_min "integer" 0) "query"]);
           ("responses", JObj
              [("200", success "Complete ready-stream range" candle_response_schema);
               ("404", error_response "configured_stream_not_found"); ("409", error_response "stream_not_ready");
               ("422", error_response "invalid_request, range_not_aligned, or range_out_of_bounds");
               ("500", error_response "continuity_invariant_broken or internal_error")])])]);
       ("/v1/historical-candles", JObj [("post", JObj
          [("summary", JStr "Read one hash-bound historical candle range, bypassing readiness");
           ("requestBody", request_body historical_candle_request_schema);
           ("responses", JObj
              [("200", success "Complete range matching the expected hash" candle_response_schema);
               ("404", error_response "configured_stream_not_found"); ("409", error_response "coverage_stale");
               ("422", error_response ("invalid_request (including a malformed " +:+
                                       "expected_market_data_hash) or range_not_aligned"));
               ("500", error_response "continuity_invariant_broken or internal_error")])])]);
       ("/v1/streams/{ticker}/{timeframe}/bounds", JObj [("get", JObj
          [("summary", JStr "Read committed storage bounds"); ("parameters", stream_parameters);
           ("responses", JObj
              [("200", success "Committed candle bounds" bounds_response_schema);
               ("404", error_response "configured_stream_not_found");
               ("422", error_response "invalid_request (malformed ticker/timeframe)");
               ("500", error_response "internal_error")])])]);
       ("/v1/streams/{ticker}/{timeframe}/continuity-audits", JObj [("post", JObj
          [("summary", JStr "Audit one explicit historical range"); ("parameters", stream_parameters);
           ("requestBody", request_body audit_request_schema);
           ("responses", JObj
              [("200", success "Continuity report" audit_response_schema);
               ("404", error_response "configured_stream_not_found");
               ("422", error_response "invalid_request or range_not_aligned");
               ("500", error_response "internal_error")])])])])].
End schemas.

(** ** JSON Schema *)

Definition has_type (t : string) (v : json) : bool :=
  match v with
  | JNull => String.eqb t "null" | JBool _ => String.eqb t "boolean" | JInt _ => String.eqb t "integer"
  | JFloat _ _ => String.eqb t "number" | JStr _ => String.eqb t "string" | JArr _ => String.eqb t "array"
  | JObj _ => String.eqb t "object"
  end.

Definition leading_zero (ip : list Ascii.ascii) : bool :=
  match ip with c :: _ :: _ => Ascii.eqb c zero_char | _ => false end.

(** The two regular expressions of the document. *)
Definition decimal_text (s : string) : bool :=
  let l := match chars s with c :: l => if Ascii.eqb c minus then l else c :: l | [] => [] end in
  let '(ip, r) := span is_digit l in
  negb (bool_decide (ip = [])) && negb (leading_zero ip) &&
  match r with
  | [] => true
  | c :: f => Ascii.eqb c dot && negb (bool_decide (f = [])) && forallb is_digit f
  end.
Definition hash_text (s : string) : bool := (length (chars s) =? 64)%nat && forallb is_hex_digit (chars s).

Definition pattern_matches (pattern s : string) : bool :=
  if String.eqb pattern DECIMAL_PATTERN then decimal_text s
  else if String.eqb pattern HASH_PATTERN then hash_text s
  else false.

(** A value against the keywords of a schema, each on the values it is about; [sub] is for the schemas
    inside it. *)
Definition check_keywords (sub : json → json → bool) (s : json_object) (v : json) : bool :=
  let on key (f : json → bool) := match json_get s key with Some x => f x | None => true end in
  on "type" (λ t, match t with
                  | JStr t => has_type t v
                  | JArr l => existsb (λ t, match t with JStr t => has_type t v | _ => false end) l
                  | _ => false end)
  && on "const" (λ c, match c with JStr c => json_eq_str v c | _ => false end)
  && on "pattern" (λ p, match p, v with JStr p, JStr x => pattern_matches p x | _, _ => true end)
  && on "minimum" (λ m, match m, v with JInt m, JInt n => Z.leb m n | _, _ => true end)
  && on "required" (λ r, match r, v with
       | JArr names, JObj o => forallb (λ n, match n with JStr n => bool_decide (is_Some (json_get o n)) | _ => false end) names
       | _, _ => true end)
  && on "additionalProperties" (λ a, match a, json_get s "properties", v with
       | JBool false, Some (JObj properties), JObj o =>
           forallb (λ kv, bool_decide (is_Some (json_get properties kv.1))) o
       | _, _, _ => true end)
  && on "properties" (λ p, match p, v with
       | JObj properties, JObj o =>
           forallb (λ kv, match json_get o kv.1 with Some x => sub kv.2 x | None => true end) properties
       | _, _ => true end)
  && on "items" (λ i, match v with JArr l => forallb (sub i) l | _ => true end)%string.

Fixpoint conforms (depth : nat) (schema v : json) : bool :=
  match depth, schema with
  | S depth, JObj s => check_keywords (conforms depth) s v
  | _, _ => false
  end.

(** The schema of a documented response. *)
Definition at_key (key : string) (v : option json) : option json :=
  match v with Some (JObj o) => json_get o key | _ => None end.
Definition response_schema (document : json) (path method : string) (status : Z) : option json :=
  at_key "schema" (at_key "application/json" (at_key "content" (at_key (str_of_Z status) (at_key "responses"
    (at_key method (at_key path (at_key "paths" (Some document)))))))).

(** The depth of the schemas of the document is four. *)
Definition documented (path method : string) (r : Response) : Prop :=
  ∃ schema, response_schema openapi_document path method r.1 = Some schema ∧ conforms 5 schema r.2 = true.
