(* ===== verification/HttpConformance.v ===== *)
(** * What the HTTP interface answers is what it documents

    Every request that the router of Http.v answers, on a store whose enabled streams are
    registered, comes back as a response of a status and of a schema that the OpenAPI document of
    OpenApi.v lists for its path: the canonical texts match the pattern of decimals, hashes the
    pattern of hashes, bounds are not negative, every error is an error document of a listed
    status.  The store is the bounded one of SqliteRefinement.v, so bounds that SQLite cannot
    bind are answered too.  The one answer that does not conform is that of an audit whose
    range starts before the epoch: it breaks the minimum of its bounds and nothing else. *)

From S2P Require Import Prelude PyStr DecimalValues Timeframes Identity Gaps Candles StreamState.
From S2P Require Import Instruments OpenInterest Storage AbsStore Sqlite SqliteRefinement Ingest ImportWindow UseCase.
From S2P Require Import Provenance Repair OpenInterestTrack ConsumerRead HistoryPlanning RealtimeFacts RealtimeRecovery RuntimeStatus PyFloat Json Http OpenApi.

(** ** Canonical texts match the documented pattern *)

Lemma digits_head n : 0 < n → ∃ d l, digits n = d :: l ∧ d ≠ 0 ∧ 0 ≤ d ≤ 9.
Proof.
  intros Hn. assert (0 ≤ n) as Hn0 by lia. revert n Hn0 Hn. apply (digits_ind_pos (λ n, 0 < n → _)).
  - intros n Hn Hp. exists n, []. rewrite digits_small by lia. split; [done|lia].
  - intros n Hn IH _. destruct IH as (d & l & Hd & Hne & Hr).
    { apply Z.div_str_pos. lia. }
    exists d, (l ++ [n mod 10]). rewrite digits_step, Hd by lia. done.
Qed.

Lemma int_chars_head c : 0 < c → ∃ x l, int_chars c = x :: l ∧ is_digit x = true ∧ Ascii.eqb x zero_char = false.
Proof.
  intros Hc. destruct (digits_head c Hc) as (d & l & Hd & Hne & Hr). unfold int_chars. rewrite Hd. cbn [map].
  exists (digit_char d), (map digit_char l). split; [done|]. split; [by apply is_digit_char|].
  apply Ascii.eqb_neq. intros H. apply (f_equal code) in H. rewrite zero_char_digit, !code_digit_char in H by lia. lia.
Qed.

(** The integer part of a canonical text. *)
Definition integer_part (l : list Ascii.ascii) : Prop := digit_chars l ∧ l ≠ [] ∧ leading_zero l = false.

Lemma integer_part_int c rest : 0 < c → digit_chars rest → integer_part (int_chars c ++ rest).
Proof.
  intros Hc Hr. split; [apply Forall_app; split; [apply int_chars_digits; lia|done]|].
  destruct (int_chars_head c Hc) as (x & l & -> & _ & Hx). split; [done|]. cbn. by destruct (l ++ rest).
Qed.

Lemma integer_part_padded c k :
  0 < c → integer_part (take (length (padded c k) - k) (padded c k)).
Proof.
  intros Hc. pose proof (int_chars_nonempty c) as Hl. unfold padded.
  destruct (decide (S k ≤ length (int_chars c))%nat) as [Hk|Hk].
  - replace (S k - length (int_chars c))%nat with 0%nat by lia. cbn [replicate app].
    pose proof (int_chars_digits c ltac:(lia)) as Hd. split; [by apply digit_chars_take|].
    destruct (int_chars_head c Hc) as (x & l & Hx & _ & Hz). rewrite Hx in Hk |- *. cbn [length] in *.
    destruct (S (length l) - k)%nat as [|n] eqn:Hn; [lia|]. cbn [take]. split; [done|]. cbn. by destruct (take n l).
  - set (p := replicate (S k - length (int_chars c)) zero_char ++ int_chars c).
    assert (Hp : (length p - k = 1)%nat) by (unfold p; rewrite length_app, length_replicate; lia).
    rewrite Hp. unfold p. destruct (S k - length (int_chars c))%nat as [|n] eqn:Hn; [lia|].
    cbn [replicate app take]. split; [constructor; [done|constructor]|]. by split.
Qed.

Lemma decimal_text_parts neg ip f :
  integer_part ip → digit_chars f → decimal_text (text (sign_chars neg ++ ip ++ frac_chars f)) = true.
Proof.
  intros (Hd & Hne & Hz) Hf. unfold decimal_text. rewrite chars_text.
  assert (Hs : match sign_chars neg ++ ip ++ frac_chars f with
               | c :: l => if Ascii.eqb c minus then l else c :: l | [] => [] end = ip ++ frac_chars f).
  { destruct neg; cbn [sign_chars app]; [by rewrite Ascii.eqb_refl|].
    destruct ip as [|x ip]; [done|]. cbn [app]. apply Forall_cons in Hd as [Hx _].
    destruct (Ascii.eqb x minus) eqn:E; [|done]. apply Ascii.eqb_eq in E as ->. done. }
  rewrite Hs. rewrite span_digits; [|done|].
  2:{ unfold frac_chars. intros c r' H. destruct (rstrip_char zero_char f); [done|]. injection H as <- _. done. }
  cbv iota beta. rewrite bool_decide_false by done. rewrite Hz. cbn [negb andb].
  unfold frac_chars. pose proof (rstrip_zero_digits f Hf) as Hr.
  destruct (rstrip_char zero_char f) as [|x g]; [done|].
  rewrite Ascii.eqb_refl, bool_decide_false by done. cbn [negb andb].
  apply forallb_forall. intros y Hy%list_elem_of_In. unfold digit_chars in Hr. rewrite Forall_forall in Hr. by apply Hr.
Qed.

Lemma dec_text_pattern d : dec_parsed d → decimal_text (dec_text d) = true.
Proof.
  intros [Hwf Hz]. unfold dec_wf in Hwf. destruct (decide (dec_coef d = 0)) as [H0|H0].
  { rewrite (Hz H0). by vm_compute. }
  destruct d as [neg c e]. cbn in Hwf, H0. unfold dec_text. rewrite canonical_chars_pos by lia. unfold ucanon.
  destruct (0 <=? e); cbv zeta.
  - rewrite <-(app_nil_r (int_chars c ++ _)). change (@nil Ascii.ascii) with (frac_chars []) at 1. apply decimal_text_parts; [|constructor].
    apply integer_part_int; [lia|apply replicate_zero_digits].
  - apply decimal_text_parts; [apply integer_part_padded; lia|apply digit_chars_drop, padded_digits; lia].
Qed.

(** ** Documents conform *)

Lemma conforms_S depth s v : conforms (S depth) (JObj s) v = check_keywords (conforms depth) s v.
Proof. done. Qed.

(** The keywords of a schema computed, but for its patterns and bounds. *)
Ltac check_schema := cbv -[decimal_text hash_text Z.leb].

Lemma candle_fields_conform (t : Z) (o h l c v : string) (oi : option string) :
  decimal_text o = true → decimal_text h = true → decimal_text l = true → decimal_text c = true →
  decimal_text v = true → match oi with Some s => decimal_text s = true | None => True end →
  conforms 3 candle_schema (JObj [("open_time_ms", JInt t); ("open", JStr o); ("high", JStr h); ("low", JStr l);
    ("close", JStr c); ("volume", JStr v); ("open_interest", optional JStr oi)]%string) = true.
Proof. intros Ho Hh Hl Hc Hv Hoi. destruct oi; check_schema; by rewrite ?Ho, ?Hh, ?Hl, ?Hc, ?Hv, ?Hoi. Qed.

Lemma candle_document_conforms c oi :
  ohlcv_parsed (cc_values c) → match oi with Some s => decimal_text s = true | None => True end →
  conforms 3 candle_schema (candle_document c oi) = true.
Proof.
  unfold ohlcv_parsed. rewrite !Forall_cons. intros (Ho & Hh & Hl & Hc & Hv & _) Hoi.
  by apply candle_fields_conform; try apply dec_text_pattern.
Qed.

Lemma candles_conform (tk tf hash : string) (from to : Z) (docs : list json) :
  hash_text hash = true → Forall (λ d, conforms 3 candle_schema d = true) docs →
  conforms 5 candle_response_schema (JObj [("ticker", JStr tk); ("timeframe", JStr tf); ("from_ms", JInt from);
    ("to_ms", JInt to); ("market_data_hash", JStr hash); ("candles", JArr docs)]%string) = true.
Proof.
  intros Hh Hd. unfold candle_response_schema. rewrite conforms_S.
  assert (Hitems : conforms 4 (JObj [("type", JStr "array"); ("items", candle_schema)]%string) (JArr docs) = true).
  { rewrite conforms_S. cbv -[conforms candle_schema]. 
    induction Hd as [|d docs Hd _ IH]; [done|]. by rewrite Hd. }
  cbv -[conforms hash_text]. cbv -[conforms] in Hitems. rewrite Hitems. check_schema. by rewrite Hh.
Qed.

Lemma nullable_time_conforms x : match x with Some t => 0 ≤ t | None => True end →
  conforms 4 nullable_time (optional JInt x) = true.
Proof. destruct x as [t|]; intros Ht; check_schema; [|done]. by rewrite (proj2 (Z.leb_le 0 t)). Qed.

Lemma bounds_conform (tk tf st : string) (lo hi : option Z) :
  match lo with Some t => 0 ≤ t | None => True end → match hi with Some t => 0 ≤ t | None => True end →
  conforms 5 bounds_response_schema (JObj [("contract_version", JStr "market_stream_bounds.v1"); ("ticker", JStr tk);
    ("timeframe", JStr tf); ("state", JStr st); ("earliest_committed_open_time_ms", optional JInt lo);
    ("latest_committed_open_time_ms", optional JInt hi)]%string) = true.
Proof.
  intros Hlo Hhi. destruct lo, hi; check_schema; rewrite ?(proj2 (Z.leb_le 0 _)) by done; done.
Qed.

Lemma gaps_conform (gaps : list Gap) :
  forallb (conforms 3 gap_schema)
    (map (λ g, JObj [("from_ms", JInt (gap_start g)); ("to_ms", JInt (gap_end g))]%string) gaps) = true.
Proof. induction gaps as [|g gaps IH]; cbn [map forallb]; [done|]. rewrite IH. by check_schema. Qed.

(** A schema without the places of one keyword. *)
Fixpoint drop_keyword (key : string) (schema : json) : json :=
  match schema with
  | JObj l => JObj (List.filter (λ p : string * json, negb (bool_decide (p.1 = key)))
                      (map (λ p : string * json, let '(k, v) := p in (k, drop_keyword key v)) l))
  | JArr l => JArr (map (drop_keyword key) l)
  | _ => schema
  end.

(** The schema of an audit, or the one without its bounds. *)
Definition audit_schema (bounds : bool) : json :=
  if bounds then audit_response_schema else drop_keyword "minimum" audit_response_schema.

Lemma audit_conform (bounds : bool) (tk tf st : string) (from to count : Z) (cont : bool) (gaps : list Gap)
    (hash : option string) :
  (bounds = true → 0 ≤ from ∧ 1 ≤ to) → 0 ≤ count → match hash with Some h => hash_text h = true | None => True end →
  conforms 5 (audit_schema bounds) (JObj [("contract_version", JStr "market_continuity_audit.v1"); ("ticker", JStr tk);
    ("timeframe", JStr tf); ("checked_start_ms", JInt from); ("checked_end_ms", JInt to); ("candle_count", JInt count);
    ("is_continuous", JBool cont);
    ("gaps", JArr (map (λ g, JObj [("from_ms", JInt (gap_start g)); ("to_ms", JInt (gap_end g))]) gaps));
    ("state", JStr st); ("market_data_hash", optional JStr hash)]%string) = true.
Proof.
  intros Hb Hc Hh. pose proof (gaps_conform gaps) as Hg. revert Hg. generalize (map (λ g, JObj [("from_ms", JInt (gap_start g)); ("to_ms", JInt (gap_end g))]%string) gaps).
  intros docs Hg.
  assert (Hitems : conforms 4 (JObj [("type", JStr "array"); ("items", gap_schema)]%string) (JArr docs) = true).
  { rewrite conforms_S. cbv -[conforms gap_schema forallb]. by rewrite Hg. }
  cbv -[conforms] in Hitems.
  destruct bounds; [destruct (Hb eq_refl) as [H0 H1]|];
    (lazymatch goal with |- conforms 5 ?s _ = true => let s' := eval vm_compute in s in change s with s' end);
    rewrite conforms_S; cbv -[conforms hash_text Z.leb]; rewrite Hitems;
    destruct hash as [h|]; check_schema; rewrite ?Hh, ?(proj2 (Z.leb_le _ _)) by done; done.
Qed.

Lemma error_conforms e d : conforms 5 error_schema (error_document e d) = true.
Proof. by check_schema. Qed.

(** ** What the planning operations come to *)

Lemma build_report_fields k w obs step :
  window_wf w →
  match build_continuity_report k w obs step with
  | Ok r => report_stream r = k ∧ checked_start_ms r = start_ms w ∧ checked_end_ms r = end_ms w ∧ 0 ≤ candle_count r
  | Raise e => exn_cls e = ExcValueError
  end.
Proof.
  intros Hw. unfold build_continuity_report. destruct obs as [|o obs].
  - rewrite Gap_new_lt by exact Hw. by repeat split.
  - destruct (find_gaps (o :: obs) w step) as [gaps|e] eqn:Hg; cbn; [repeat split; lia|].
    destruct (gaps_input_ok (o :: obs) w step) eqn:Hok.
    + destruct (build_report_ok k _ w step Hw Hok) as (r & Hr & _). unfold build_continuity_report in Hr. by rewrite Hg in Hr.
    + destruct (find_gaps_error _ _ _ Hok) as [msg Hm]. rewrite Hm in Hg. by injection Hg as <-.
Qed.

Lemma audit_request_error k from to e :
  AuditStreamContinuityRequest_new k from to = Raise e → exn_cls e = ExcValueError.
Proof.
  unfold AuditStreamContinuityRequest_new.
  by intros [[_ ->]|[_ [[_ ->]|[_ ?]]%raise_if_bind_raise]]%raise_if_bind_raise.
Qed.

Section planning.
Context `{E : Env} (a : AbsStore) (t c : nat) (k : StreamKey) (r : StreamRec).
Hypotheses (Hi : store_inv a) (Hr : ab_streams a !! k = Some r).

Lemma run_audit_continuity from to :
  from < to →
  ∃ out, run (audit_continuity candle_open_times (mkAuditRequest k from to)) (mkWorld a None t c) = (out, mkWorld a None t c) ∧
    match out with
    | Ok rep => report_stream rep = k ∧ checked_start_ms rep = from ∧ checked_end_ms rep = to ∧ 0 ≤ candle_count rep
    | Raise e => exn_cls e = ExcValueError
    end.
Proof using Hi Hr.
  intros Hlt. pose proof (store_inv_lookup _ _ _ Hi Hr) as Hri. unfold audit_continuity. cbv zeta.
  cbn [au_stream au_start_time_ms au_end_time_ms].
  rewrite run_bind, run_with_uow, run_bind, run_stream_exists, run_bind, run_lift, Hr, bool_decide_eq_true_2 by done.
  cbn [negb raise_if]. unfold candle_open_times. rewrite run_bind, run_op. cbn [store_step abs_storage].
  unfold read_stream. rewrite Hr. destruct (list_candles_ok k r from to Hri) as (l & -> & _). rewrite run_ret.
  cbn [set_tx w_db w_ticks w_calls]. rewrite run_bind, run_lift.
  assert (Hw : TimeWindow_new from to = Ok (mkTimeWindow from to)) by (apply TimeWindow_new_ok; done).
  rewrite Hw, run_lift. eexists. split; [done|].
  apply (build_report_fields k (mkTimeWindow from to)). exact Hlt.
Qed.

Lemma run_audit_stream_range sha256_hex reader from to :
  ∃ out, run (audit_stream_range sha256_hex reader k from to) (mkWorld a None t c) = (out, mkWorld a None t c) ∧
    match out with
    | Ok res => ca_stream res = k ∧ ca_checked_start_ms res = from ∧ ca_checked_end_ms res = to ∧ from < to ∧
        0 ≤ ca_candle_count res ∧ ∀ h, ca_market_data_hash res = Some h → ∃ text, h = sha256_hex text
    | Raise e => exn_cls e ∈ [ExcValueError; ExcOverflowError]
    end.
Proof using Hi Hr.
  unfold audit_stream_range. rewrite run_bind, run_lift.
  destruct (AuditStreamContinuityRequest_new k from to) as [q|e] eqn:Hq.
  2:{ exists (Raise e). split; [done|]. rewrite (audit_request_error _ _ _ _ Hq). by left. }
  apply AuditRequest_new_ok in Hq as (-> & Hlt & _).
  destruct (run_audit_continuity from to Hlt) as (out & Hrun & Hout). rewrite run_bind, Hrun.
  destruct out as [rep|e]; [|exists (Raise e); split; [done|]; rewrite Hout; by left].
  destruct Hout as (Hk & Hs & He & Hc).
  rewrite run_bind, (run_read_state a t c k r) by done. rewrite run_bind.
  destruct (is_continuous rep && reader).
  - destruct (bind_ints [from; to]) as [[]|e] eqn:Hb.
    2:{ rewrite run_bind, (read_snapshot_overflow k a t c r Hi Hr _ _ e Hb). eexists. split; [done|].
        rewrite (bind_ints_raise _ _ Hb). by right; left. }
    destruct (run_read_snapshot k a t c r Hi Hr from to Hb) as (snap & Hsnap & _). rewrite run_bind, Hsnap, !run_ret.
    eexists. split; [done|]. cbn. split_and!; try done. intros h [= <-]. by eexists.
  - rewrite !run_ret. eexists. split; [done|]. cbn. by split_and!.
Qed.
End planning.

(** ** The handlers *)

Lemma run_respond `{E : Env} {A} (m : M A) (document : A → res json) (w w' : World AbsStore) r :
  run m w = (r, w') →
  run (respond m document) w =
    (Ok (match (x ← r; document x) with Ok d => (200, d) | Raise e => map_exception e end), w').
Proof.
  intros Hm. unfold respond. rewrite run_try, run_bind, Hm. destruct r as [x|e]; cbn [mbind res_bind].
  - rewrite run_bind, run_lift. destruct (document x) as [d|e]; by rewrite run_ret.
  - by rewrite run_ret.
Qed.

Lemma map_exception_shape e :
  ∃ error, (map_exception e).2 = error_document error (exn_str e) ∧ (map_exception e).1 ∈ [404; 409; 422; 500].
Proof. unfold map_exception. cbv zeta. repeat case_match; eexists; (split; [done|]); cbn; set_solver. Qed.

Lemma map_exception_status e c : exn_cls e = c → (map_exception e).1 = (map_exception (Exn c "")).1.
Proof. intros <-. unfold map_exception, isinstance. cbn [exn_cls]. cbv zeta. repeat case_match; done. Qed.

(** The documented routes. *)
Definition CANDLES : string := "/v1/candles".
Definition HISTORICAL : string := "/v1/historical-candles".
Definition BOUNDS : string := "/v1/streams/{ticker}/{timeframe}/bounds".
Definition AUDITS : string := "/v1/streams/{ticker}/{timeframe}/continuity-audits".

Lemma error_documented_all e path method :
  (path, method) ∈ [(CANDLES, "get"%string); (HISTORICAL, "post"%string)] → documented path method (map_exception e).
Proof.
  intros Hp. destruct (map_exception_shape e) as (error & Hd & Hs). destruct (map_exception e) as [s d]. cbn in Hd, Hs. subst d.
  set_unfold in Hs. set_unfold in Hp.
  destruct Hp as [[= -> ->]|[[= -> ->]|[]]], Hs as [->|[->|[->|[->|[]]]]]; (exists error_schema; split; [by vm_compute|by check_schema]).
Qed.

Lemma error_documented e path method :
  (path, method) ∈ [(BOUNDS, "get"%string); (AUDITS, "post"%string)] → (map_exception e).1 ∈ [404; 422; 500] →
  documented path method (map_exception e).
Proof.
  intros Hp Hs. destruct (map_exception_shape e) as (error & Hd & _). destruct (map_exception e) as [s d]. cbn in Hd, Hs. subst d.
  set_unfold in Hs. set_unfold in Hp.
  destruct Hp as [[= -> ->]|[[= -> ->]|[]]], Hs as [->|[->|[->|[]]]]; (exists error_schema; split; [by vm_compute|by check_schema]).
Qed.

Section served.
Context `{E : Env} (sha256_hex : string → string) (config : ValidatedMarketConfig).
Context (a : AbsStore) (t c : nat).

(** The open interest of a stream is stored as canonical texts. *)
Definition oi_canonical (r : StreamRec) : Prop :=
  ∀ u row, sr_oi r !! u = Some row → ∃ d, dec_parsed d ∧ or_value row = dec_text d.

(** A store that is served: canonical, with every enabled stream registered. *)
Record served : Prop := {
  sd_inv : store_inv a;
  sd_streams : ∀ k, k ∈ enabled_streams config →
    ∃ r, ab_streams a !! k = Some r ∧ track_ok k r ∧ oi_canonical r;
  sd_hash : ∀ s, hash_text (sha256_hex s) = true
}.
Hypothesis Hsd : served.

Lemma range_documents k r from to candles oi :
  stream_inv k r → oi_canonical r → range_content k r from to candles oi →
  ∃ docs, candle_documents candles oi = Ok docs ∧ Forall (λ d, conforms 3 candle_schema d = true) docs.
Proof.
  intros Hri Hoi [_ Hrows ->]. induction Hrows as [|cd candles (row & Hrow & Hc) Hrows IH]; cbn [map candle_documents].
  { exists []. split; [done|constructor]. }
  destruct IH as (docs & -> & Hd). eexists. split; [done|]. constructor; [|done].
  destruct (si_rows _ _ Hri _ _ Hrow) as (cd' & Hc' & _ & Hp & _). assert (cd' = cd) as -> by congruence.
  apply candle_document_conforms; [done|].
  destruct (sr_oi r !! cc_open_time_ms cd) as [o|] eqn:Ho; cbn; [|done].
  destruct (Hoi _ _ Ho) as (d & Hpd & ->). by apply dec_text_pattern.
Qed.

Lemma result_documented k r from to (res : CandleRangeResult) path method :
  (path, method) ∈ [(CANDLES, "get"%string); (HISTORICAL, "post"%string)] →
  ab_streams a !! k = Some r → oi_canonical r → range_content k r from to (cg_candles res) (cg_open_interest res) →
  hash_text (cg_market_data_hash res) = true →
  documented path method (match serialize_result res with Ok d => (200, d) | Raise e => map_exception e end).
Proof using Hsd.
  intros Hp Hr Hoi Hc Hh.
  destruct (range_documents k r from to _ _ (store_inv_lookup _ _ _ (sd_inv Hsd) Hr) Hoi Hc) as (docs & Hd & HF).
  unfold serialize_result. rewrite Hd. cbn [mbind res_bind mret res_ret]. exists candle_response_schema. split.
  - set_unfold in Hp. destruct Hp as [[= -> ->]|[[= -> ->]|[]]]; by vm_compute.
  - by apply candles_conform.
Qed.

Lemma served_registered k : k ∈ enabled_streams config → is_Some (ab_streams a !! k).
Proof using Hsd. intros Hk. destruct (sd_streams Hsd k Hk) as (r & Hr & _). by exists r. Qed.

Lemma configured_stream_in tk tf k : configured_stream (enabled_streams config) tk tf = Ok k → k ∈ enabled_streams config.
Proof.
  unfold configured_stream. destruct (i ← InstrumentKey_new tk; StreamKey_new i tf) as [k'|exc];
    [|by destruct (isinstance _ _)].
  intros [Hb [= <-]]%raise_if_bind_ok. by apply negb_false_iff, bool_decide_eq_true in Hb.
Qed.

(** A read of a consumer, however its request was parsed. *)
Lemma consumer_read_documented (request : res CandleRangeRequest) :
  ∃ resp, run (respond (q ← lift request; get_candle_range sha256_hex config q) serialize_result) (mkWorld a None t c) =
    (Ok resp, mkWorld a None t c) ∧ documented CANDLES "get" resp.
Proof using Hsd.
  destruct (run (q ← lift request; get_candle_range sha256_hex config q) (mkWorld a None t c)) as [r w] eqn:Hrun.
  assert (Hw : w = mkWorld a None t c ∧ match r with
    | Ok res => ∃ k rec from to, k ∈ enabled_streams config ∧ ab_streams a !! k = Some rec ∧
        range_content k rec from to (cg_candles res) (cg_open_interest res) ∧ ∃ s, cg_market_data_hash res = sha256_hex s
    | Raise _ => True end).
  { rewrite run_bind, run_lift in Hrun. destruct request as [q|e]; [|by injection Hrun as <- <-].
    pose proof (get_candle_range_report sha256_hex config q a t c (sd_inv Hsd) served_registered) as H.
    rewrite Hrun in H. destruct r as [res|e]; [|by destruct H].
    destruct H as (-> & k & rec & _ & _ & Hk & Hr & _ & _ & _ & _ & _ & _ & _ & _ & _ & _ & Hc & _ & Hh).
    split; [done|]. exists k, rec, (rg_from_ms q), (rg_to_ms q). split_and!; [by eapply configured_stream_in|done|done|].
    rewrite Hh. by eexists. }
  rewrite (run_respond _ _ _ _ _ Hrun). destruct Hw as [-> Hr]. eexists. split; [done|].
  destruct r as [res|e]; cbn [mbind res_bind]; [|apply error_documented_all; set_solver].
  destruct Hr as (k & rec & from & to & Hk & Hr & Hc & s & Hs). destruct (sd_streams Hsd k Hk) as (rec' & Hr' & _ & Hoi).
  assert (rec' = rec) as -> by congruence.
  eapply (result_documented k rec from to res); [set_solver|done|done|done|]. rewrite Hs. apply (sd_hash Hsd).
Qed.

Lemma historical_read_documented (request : res HistoricalCandleRangeRequest) :
  ∃ resp, run (respond (q ← lift request; get_historical_candle_range sha256_hex config q) serialize_result)
      (mkWorld a None t c) = (Ok resp, mkWorld a None t c) ∧ documented HISTORICAL "post" resp.
Proof using Hsd.
  destruct (run (q ← lift request; get_historical_candle_range sha256_hex config q) (mkWorld a None t c)) as [r w] eqn:Hrun.
  assert (Hw : w = mkWorld a None t c ∧ match r with
    | Ok res => ∃ k rec from to, k ∈ enabled_streams config ∧ ab_streams a !! k = Some rec ∧
        range_content k rec from to (cg_candles res) (cg_open_interest res) ∧ ∃ s, cg_market_data_hash res = sha256_hex s
    | Raise _ => True end).
  { rewrite run_bind, run_lift in Hrun. destruct request as [q|e]; [|by injection Hrun as <- <-].
    pose proof (get_historical_range_report sha256_hex config q a t c (sd_inv Hsd) served_registered) as H.
    rewrite Hrun in H. destruct r as [res|e]; [|by destruct H].
    destruct H as (-> & k & rec & Hk & Hr & _ & _ & Hc & Hh & Hd).
    split; [done|]. exists k, rec, (hq_from_ms q), (hq_to_ms q). split_and!; [by eapply configured_stream_in|done|done|].
    rewrite Hh, <-Hd. by eexists. }
  rewrite (run_respond _ _ _ _ _ Hrun). destruct Hw as [-> Hr]. eexists. split; [done|].
  destruct r as [res|e]; cbn [mbind res_bind]; [|apply error_documented_all; set_solver].
  destruct Hr as (k & rec & from & to & Hk & Hr & Hc & s & Hs). destruct (sd_streams Hsd k Hk) as (rec' & Hr' & _ & Hoi).
  assert (rec' = rec) as -> by congruence.
  eapply (result_documented k rec from to res); [set_solver|done|done|done|]. rewrite Hs. apply (sd_hash Hsd).
Qed.

Lemma run_get_stream_bounds oi_streams k r :
  ab_streams a !! k = Some r → track_ok k r →
  ∃ res, run (get_stream_bounds oi_streams k) (mkWorld a None t c) = (Ok res, mkWorld a None t c) ∧
    match sb_earliest_committed_open_time_ms res with Some u => 0 ≤ u | None => True end ∧
    match sb_latest_committed_open_time_ms res with Some u => 0 ≤ u | None => True end.
Proof using Hsd.
  intros Hr Htr. pose proof (store_inv_lookup _ _ _ (sd_inv Hsd) Hr) as Hri.
  unfold get_stream_bounds. rewrite run_bind, run_with_uow, run_bind, run_stream_exists, run_bind, run_lift, Hr.
  rewrite bool_decide_eq_true_2 by done. cbn [negb raise_if]. rewrite run_bind, run_op.
  cbn [store_step abs_storage]. unfold read_stream. rewrite Hr.
  pose proof (committed_bounds_spec r) as Hb. revert Hb. set (b := (list_min _, list_max _)). intros Hb.
  assert (Hpos : ∀ x y, b = (Some x, Some y) → 0 ≤ x ∧ 0 ≤ y).
  { intros x y ->. destruct Hb as [[? _]|(lo & hi & [= -> ->] & [row Hlo] & _ & Hbd)]; [done|].
    destruct (si_rows _ _ Hri _ _ Hlo) as (cd & _ & _ & _ & _ & Ht & _). specialize (Hbd lo (ex_intro _ row Hlo)). lia. }
  cbn [mret res_ret]. rewrite run_bind. destruct (bool_decide (k ∈ oi_streams)).
  - rewrite run_bind, run_op. cbn [store_step abs_storage]. unfold read_stream.
    rewrite Hr, abs_get_track, run_ret, run_bind, (run_get_state a k r), run_ret by (done || apply Hri).
    cbn [set_tx w_db w_ticks w_calls]. rewrite run_ret. eexists. split; [done|].
    cbn [sb_earliest_committed_open_time_ms sb_latest_committed_open_time_ms].
    destruct (intersection_none b (tp_earliest (track_of k r), tp_latest (track_of k r))) as [->|(lo & hi & Hlh & Hle)]; [done|].
    rewrite Hlh. apply intersection_spec in Hlh as (cl & ch & ol & oh & Hbe & _ & -> & -> & _).
    destruct (Hpos _ _ Hbe). cbn. lia.
  - rewrite run_ret, run_bind, (run_get_state a k r), run_ret by (done || apply Hri).
    cbn [set_tx w_db w_ticks w_calls]. rewrite run_ret. eexists. split; [done|].
    cbn [sb_earliest_committed_open_time_ms sb_latest_committed_open_time_ms].
    destruct Hb as [[-> _]|(lo & hi & Hbe & _)]; [done|]. rewrite Hbe. by apply Hpos.
Qed.
End served.

(** ** The routes of the planning handler *)

Definition refused_class (c : exn_class) : Prop :=
  c ∈ [ExcValueError; ExcLookupError; ExcKeyError; ExcUnknownStreamError; ExcOverflowError].

Lemma refused_documented e path method :
  (path, method) ∈ [(BOUNDS, "get"%string); (AUDITS, "post"%string)] → refused_class (exn_cls e) →
  documented path method (map_exception e).
Proof.
  intros Hp He. apply error_documented; [done|]. unfold refused_class in He. set_unfold in He.
  rewrite (map_exception_status e _ eq_refl). destruct He as [->|[->|[->|[->|[->|[]]]]]]; vm_compute; set_solver.
Qed.

Lemma parse_route_cases config target :
  match parse_route config target with
  | Ok route => route.1 ∈ enabled_streams config ∧ ∃ x y op, stream_parts target = Some (x, y, op) ∧ route.2 = unquote op
  | Raise e => refused_class (exn_cls e)
  end.
Proof.
  unfold parse_route, refused_class. destruct (stream_parts target) as [[[x y] op]|]; [|cbn; set_solver].
  unfold reraise.
  assert (Hv : raises_only ExcValueError (i ← InstrumentKey_new (unquote x); StreamKey_new i (unquote y)))
    by (apply raises_only_bind; auto with mds).
  destruct (i ← InstrumentKey_new (unquote x); StreamKey_new i (unquote y)) as [k|e] eqn:Ek.
  - cbn [mbind res_bind]. destruct (bool_decide (k ∈ enabled_streams config)) eqn:Hk; cbn.
    + bool_hyps. split; [done|]. by eexists _, _, _.
    + set_solver.
  - assert (He : exn_cls e = ExcValueError) by (by apply Hv). cbn [existsb]. unfold isinstance. rewrite He.
    cbn. by left.
Qed.

Lemma parse_audit_refused json_loads payload e :
  parse_audit_payload json_loads payload = Raise e → refused_class (exn_cls e).
Proof.
  unfold parse_audit_payload, refused_class, require_int.
  destruct (json_loads payload) as [[]|]; cbn; try (intros [= <-]; cbn; set_solver).
  destruct (has_fields _ _); cbn; [|intros [= <-]; cbn; set_solver].
  repeat (match goal with |- context [json_get ?d ?k] => destruct (json_get d k) as [[]|] end; cbn;
          try (intros [= <-]; cbn; set_solver)).
Qed.

Section requests.
Context `{E : Env} (sha256_hex : string → string) (config : ValidatedMarketConfig) (oi_streams : list StreamKey).
Context (a : AbsStore) (t c : nat).
Hypothesis Hsd : served sha256_hex config a.

Lemma planning_get_documented target :
  ∃ resp, run (planning_get config oi_streams target) (mkWorld a None t c) = (Ok resp, mkWorld a None t c) ∧
    ∀ x y op, stream_parts target = Some (x, y, op) → unquote op = "bounds"%string → documented BOUNDS "get" resp.
Proof using Hsd.
  unfold planning_get. rewrite run_try, run_bind, run_lift. pose proof (parse_route_cases config target) as Hroute.
  destruct (parse_route config target) as [[k op]|e]; cbn [fst snd] in *.
  2:{ rewrite run_ret. eexists. split; [done|]. intros _ _ _ _ _. apply refused_documented; [set_solver|done]. }
  destruct Hroute as (Hk & x & y & op' & Hparts & ->). destruct (sd_streams _ _ _ Hsd k Hk) as (r & Hr & Htr & _).
  case_bool_decide as Hop.
  - destruct (run_get_stream_bounds _ _ _ t c Hsd oi_streams k r Hr Htr) as (res & Hrun & Hlo & Hhi).
    rewrite run_bind, Hrun, run_ret. eexists. split; [done|]. intros _ _ _ _ _.
    exists bounds_response_schema. split; [by vm_compute|]. by apply bounds_conform.
  - rewrite run_ret. eexists. split; [done|]. intros x1 y1 op1 H1 H2. congruence.
Qed.

(** An answer to an audit from before the epoch: the bounds of its range are given back, and
    only their documented minimum is broken. *)
Definition audit_before_epoch json_loads (payload : string) (resp : Response) : Prop :=
  ∃ from to document, parse_audit_payload json_loads payload = Ok (from, to) ∧ from < 0 ∧
    resp = (200, JObj document) ∧
    json_get document "checked_start_ms" = Some (JInt from) ∧ json_get document "checked_end_ms" = Some (JInt to) ∧
    conforms 5 (drop_keyword "minimum" audit_response_schema) (JObj document) = true.

Lemma planning_post_documented json_loads target payload :
  ∃ resp, run (planning_post sha256_hex config json_loads target payload) (mkWorld a None t c) =
      (Ok resp, mkWorld a None t c) ∧
    ∀ x y op, stream_parts target = Some (x, y, op) → unquote op = "continuity-audits"%string →
      documented AUDITS "post" resp ∨ audit_before_epoch json_loads payload resp.
Proof using Hsd.
  unfold planning_post. rewrite run_try, run_bind, run_lift.
  pose proof (parse_route_cases config target) as Hroute.
  destruct (parse_route config target) as [[k op]|e]; cbn [fst snd] in *.
  2:{ rewrite run_ret. eexists. split; [done|]. intros _ _ _ _ _. left. apply refused_documented; [set_solver|done]. }
  destruct Hroute as (Hk & x & y & op' & Hparts & ->). destruct (sd_streams _ _ _ Hsd k Hk) as (r & Hr & _).
  case_bool_decide as Hop.
  2:{ rewrite run_ret. eexists. split; [done|]. intros x1 y1 op1 H1 H2. congruence. }
  rewrite run_bind, run_lift. destruct (parse_audit_payload json_loads payload) as [[from to]|e] eqn:Hpl.
  2:{ rewrite run_ret. eexists. split; [done|]. intros _ _ _ _ _. left. apply refused_documented; [set_solver|].
      by eapply parse_audit_refused. }
  cbn [fst snd].
  destruct (run_audit_stream_range a t c k r (sd_inv _ _ _ Hsd) Hr sha256_hex true from to) as (out & Hrun & Hout).
  rewrite run_bind, Hrun. destruct out as [res|e]; rewrite run_ret; (eexists; split; [done|]); intros _ _ _ _ _.
  - destruct Hout as (_ & Hs & He & Hlt & Hc & Hh).
    assert (Hhash : match ca_market_data_hash res with Some h => hash_text h = true | None => True end).
    { destruct (ca_market_data_hash res) as [h|] eqn:Eh; [|done]. destruct (Hh h eq_refl) as [txt ->].
      apply (sd_hash _ _ _ Hsd). }
    unfold audit_document. rewrite Hs, He. destruct (decide (0 ≤ from)) as [H0|H0].
    + left. exists audit_response_schema. split; [by vm_compute|]. apply (audit_conform true); [lia..|done].
    + right. eexists from, to, _. split; [done|]. split; [lia|]. do 3 (split; [done|]).
      by apply (audit_conform false).
  - left. apply refused_documented; [set_solver|]. unfold refused_class. set_solver.
Qed.
End requests.

(** ** Requests *)

Inductive HttpRequest :=
| Get (target : string)
| Post (target payload : string).

Definition answer `{Env} (sha256_hex : string → string) (config : ValidatedMarketConfig) (oi_streams : list StreamKey)
    (order : list string) (json_loads : string → json + string) (status : RuntimeStatus) (q : HttpRequest) : M Response :=
  match q with
  | Get target => http_get sha256_hex config oi_streams order status openapi_document target
  | Post target payload => http_post sha256_hex config json_loads target payload
  end.

(** The path of the document a request is for. *)
Definition documented_path (q : HttpRequest) : option (string * string) :=
  let operation target := match stream_parts target with Some (_, _, op) => unquote op | None => "" end in
  match q with
  | Get target =>
      if bool_decide ((urlsplit target).1 = CANDLES) then Some (CANDLES, "get")
      else if bool_decide (operation target = "bounds") then Some (BOUNDS, "get") else None
  | Post target _ =>
      if bool_decide ((urlsplit target).1 = HISTORICAL) then Some (HISTORICAL, "post")
      else if bool_decide (operation target = "continuity-audits") then Some (AUDITS, "post") else None
  end%string.

(** A stream's path that is matched. *)
Lemma matches_parts target : matches target = true ↔ is_Some (stream_parts target).
Proof. unfold matches. apply bool_decide_eq_true. Qed.

(** The paths that are not of the document. *)
Lemma operational_path target :
  (urlsplit target).1 ∈ ["/health"; "/readiness"; "/openapi.json"]%string → documented_path (Get target) = None.
Proof.
  intros H. unfold documented_path, stream_parts, path_parts. cbv zeta.
  destruct (urlsplit target) as [path query]. cbn [fst] in *. set_unfold in H.
  destruct H as [->|[->|[->|[]]]]; by vm_compute.
Qed.

Section answers.
Context `{E : Env} (sha256_hex : string → string) (config : ValidatedMarketConfig)
  (oi_streams : list StreamKey) (order : list string) (json_loads : string → json + string)
  (status : RuntimeStatus).

(** An answer that the document describes, or the one that breaks only a minimum. *)
Definition answer_conforms (q : HttpRequest) (resp : Response) : Prop :=
  ∀ path method, documented_path q = Some (path, method) →
    documented path method resp ∨
    ∃ target payload, q = Post target payload ∧ (path, method) = (AUDITS, "post"%string) ∧
      audit_before_epoch json_loads payload resp.

(** Over the abstract store. *)
Lemma answer_conforms_abs (a : AbsStore) (t c : nat) (q : HttpRequest) :
  served sha256_hex config a →
  ∃ resp, run (answer sha256_hex config oi_streams order json_loads status q) (mkWorld a None t c) =
      (Ok resp, mkWorld a None t c) ∧ answer_conforms q resp.
Proof.
  intros Hsd. unfold answer_conforms. destruct q as [target|target payload]; cbn [answer].
  - unfold http_get. cbv zeta.
    assert (Hop : (urlsplit target).1 ∈ ["/health"; "/readiness"; "/openapi.json"]%string →
      documented_path (Get target) = None) by apply operational_path.
    case_bool_decide as H1; [rewrite run_ret, Hop by (rewrite H1; by left); by eexists|].
    case_bool_decide as H2; [rewrite run_ret, Hop by (rewrite H2; by right; left); by eexists|].
    case_bool_decide as H3; [rewrite run_ret, Hop by (rewrite H3; by right; right; left); by eexists|].
    clear Hop. cbn [documented_path]. fold CANDLES.
    case_bool_decide as H4.
    { destruct (consumer_read_documented sha256_hex config a t c Hsd (parse_request_target order target)) as (resp & Hrun & Hd).
      exists resp. split; [exact Hrun|]. by intros ?? [= <- <-]; left. }
    destruct (matches target) eqn:Hm.
    + destruct (planning_get_documented sha256_hex config oi_streams a t c Hsd target) as (resp & Hrun & Hd).
      exists resp. split; [exact Hrun|]. intros path method. apply matches_parts in Hm as [[[x y] op] Hp]. rewrite Hp.
      case_bool_decide as Hop; [|done]. intros [= <- <-]. left. by eapply Hd.
    + rewrite run_ret. eexists. split; [done|]. intros path method.
      destruct (stream_parts target) as [p|] eqn:Hp; [|done].
      assert (matches target = true) by (apply matches_parts; by rewrite Hp). congruence.
  - cbn [documented_path]. unfold http_post. fold HISTORICAL.
    case_bool_decide as H1.
    { destruct (historical_read_documented sha256_hex config a t c Hsd (parse_historical_payload json_loads payload)) as (resp & Hrun & Hd).
      exists resp. split; [exact Hrun|]. by intros ?? [= <- <-]; left. }
    destruct (matches target) eqn:Hm.
    + destruct (planning_post_documented sha256_hex config a t c Hsd json_loads target payload) as (resp & Hrun & Hd).
      exists resp. split; [exact Hrun|]. intros path method. apply matches_parts in Hm as [[[x y] op] Hp]. rewrite Hp.
      case_bool_decide as Hop; [|done]. intros [= <- <-].
      destruct (Hd x y op Hp Hop) as [Hdoc|Hepoch]; [by left|right]. by exists target, payload.
    + rewrite run_ret. eexists. split; [done|]. intros path method.
      destruct (stream_parts target) as [p|] eqn:Hp; [|done].
      assert (matches target = true) by (apply matches_parts; by rewrite Hp). congruence.
Qed.

(** An audit of a range that a database cannot bind. *)
Definition oversized_audit (q : HttpRequest) : Prop :=
  ∃ target payload from to, q = Post target payload ∧ (urlsplit target).1 ≠ HISTORICAL ∧
    parse_audit_payload json_loads payload = Ok (from, to) ∧ ¬ range_fits from to.

Lemma read_snapshot_fits k from to : always_fits (read_snapshot k from to).
Proof.
  unfold read_snapshot. apply always_fits_bind; [by apply always_fits_read, op_fits_ints|]. intros state.
  apply always_fits_bind_lift. intros [] Hb. apply always_fits_bind; [|done].
  by apply always_fits_read, op_fits_ints.
Qed.

Lemma get_candle_range_fits q : always_fits (get_candle_range sha256_hex config q).
Proof.
  unfold get_candle_range. apply always_fits_bind_lift. intros k _. cbv zeta.
  apply always_fits_bind_lift. intros _ _. apply always_fits_bind; [apply read_snapshot_fits|]. intros snap.
  apply always_fits_bind_lift. intros _ _.
  destruct (earliest_available_open_time_ms _); [|done]. destruct (latest_committed_open_time_ms _); [|done].
  do 2 (apply always_fits_bind_lift; intros _ _). done.
Qed.

Lemma get_historical_range_fits q : always_fits (get_historical_candle_range sha256_hex config q).
Proof.
  unfold get_historical_candle_range. apply always_fits_bind_lift. intros k _. apply always_fits_bind_lift.
  intros _ _. cbv zeta. apply always_fits_bind_lift. intros _ _.
  apply always_fits_bind; [apply read_snapshot_fits|]. intros snap.
  do 2 (apply always_fits_bind_lift; intros _ _). done.
Qed.

Lemma audit_fits k from to : range_fits from to → always_fits (audit_stream_range sha256_hex true k from to).
Proof.
  intros Hf. unfold audit_stream_range. apply always_fits_bind_lift. intros q Hq.
  apply AuditRequest_new_ok in Hq as (-> & _). apply always_fits_bind.
  - unfold audit_continuity. cbv zeta. apply always_fits_bind.
    + apply always_fits_with_uow, always_fits_bind; [by apply always_fits_op, op_fits_ints|]. intros registered.
      apply always_fits_bind_lift. intros _ _. unfold candle_open_times. apply always_fits_bind; [|done].
      apply always_fits_op, op_fits_ints. intros a. by apply bind_range.
    + intros observed. by apply always_fits_bind_lift.
  - intros report. apply always_fits_bind.
    + unfold read_state. apply always_fits_with_uow. by apply always_fits_op, op_fits_ints.
    + intros state. apply always_fits_bind; [|done]. destruct (_ && _); [|done].
      apply always_fits_bind; [apply read_snapshot_fits|done].
Qed.

Lemma respond_fits {A} (m : M A) (document : A → res json) : always_fits m → always_fits (respond m document).
Proof.
  intros Hm. unfold respond. apply always_fits_try; [|done]. apply always_fits_bind; [done|]. intros x.
  by apply always_fits_bind_lift.
Qed.

Lemma planning_get_fits target : always_fits (planning_get config oi_streams target).
Proof.
  unfold planning_get. apply always_fits_try; [|done]. apply always_fits_bind_lift. intros route _.
  case_bool_decide; [|done]. apply always_fits_bind; [|done]. unfold get_stream_bounds.
  apply always_fits_bind; [|by intros [? ?]].
  apply always_fits_with_uow, always_fits_bind; [by apply always_fits_op, op_fits_ints|]. intros registered.
  apply always_fits_bind_lift. intros _ _. apply always_fits_bind; [by apply always_fits_op, op_fits_ints|].
  intros bounds. apply always_fits_bind.
  - case_bool_decide; [|done]. apply always_fits_bind; [by apply always_fits_op, op_fits_ints|done].
  - intros b. apply always_fits_bind; [by apply always_fits_op, op_fits_ints|done].
Qed.

Lemma planning_post_fits target payload :
  (∀ from to, parse_audit_payload json_loads payload = Ok (from, to) → range_fits from to) →
  always_fits (planning_post sha256_hex config json_loads target payload).
Proof.
  intros Hf. unfold planning_post. apply always_fits_try; [|done]. apply always_fits_bind_lift. intros route _.
  case_bool_decide; [|done]. apply always_fits_bind_lift. intros [from to] Hp.
  apply always_fits_bind; [|done]. by apply audit_fits, Hf.
Qed.

Lemma answer_fits q :
  ¬ oversized_audit q → always_fits (answer sha256_hex config oi_streams order json_loads status q).
Proof.
  intros Hq. destruct q as [target|target payload]; cbn [answer].
  - unfold http_get. cbv zeta. do 3 (case_bool_decide; [done|]). case_bool_decide.
    + apply respond_fits, always_fits_bind_lift. intros q _. apply get_candle_range_fits.
    + destruct (matches target); [apply planning_get_fits|done].
  - unfold http_post. case_bool_decide as Hh.
    + apply respond_fits, always_fits_bind_lift. intros q _. apply get_historical_range_fits.
    + destruct (matches target); [|done]. apply planning_post_fits. intros from to Hp.
      destruct (bind_ints [from; to]) as [[]|e] eqn:Hb; [by apply bind_range|]. exfalso. apply Hq.
      exists target, payload, from, to. split_and!; try done. rewrite <- bind_range. congruence.
Qed.

Lemma decide_oversized q : oversized_audit q ∨ ¬ oversized_audit q.
Proof.
  destruct q as [target|target payload]; [right; by intros (? & ? & ? & ? & ? & _)|].
  destruct (decide ((urlsplit target).1 = HISTORICAL)) as [Hh|Hh].
  { right. by intros (? & ? & ? & ? & [= -> ->] & ? & _). }
  destruct (parse_audit_payload json_loads payload) as [[from to]|e] eqn:Hp.
  2:{ right. intros (? & ? & ? & ? & [= -> ->] & _ & ? & _). congruence. }
  destruct (bind_ints [from; to]) as [[]|e] eqn:Hb.
  - right. intros (? & ? & ? & ? & [= -> ->] & _ & Hp' & Hf). rewrite Hp in Hp'. injection Hp' as <- <-.
    by apply Hf, bind_range.
  - left. exists target, payload, from, to. split_and!; try done. rewrite <- bind_range. congruence.
Qed.

(** An audit whose range cannot be bound is refused, with nothing changed. *)
Lemma run_oversized_audit (a : AbsStore) (t c : nat) k from to :
  is_Some (ab_streams a !! k) → ¬ range_fits from to →
  ∃ e, run_bounded (audit_stream_range sha256_hex true k from to) (mkWorld a None t c) =
      (Raise e, mkWorld a None t c) ∧ exn_cls e ∈ [ExcValueError; ExcOverflowError].
Proof.
  intros Hk Hf. unfold run_bounded, audit_stream_range. rewrite run_bind, run_lift.
  destruct (AuditStreamContinuityRequest_new k from to) as [q|e] eqn:Hq.
  2:{ exists e. split; [done|]. rewrite (audit_request_error _ _ _ _ Hq). by left. }
  apply AuditRequest_new_ok in Hq as (-> & _). exists sql_overflow. split; [|by right; left].
  rewrite run_bind. unfold audit_continuity. cbv zeta. cbn [au_stream au_start_time_ms au_end_time_ms].
  rewrite run_bind, run_with_uow, run_bind, run_op.
  assert (Hex : @store_step AbsStore bounded_storage _ (StreamExists k) a = (Ok true, a)).
  { unfold store_step, bounded_storage, bounded_step, overflows. cbn [op_ints forallb negb]. rewrite andb_false_r.
    cbn [store_step abs_storage]. by rewrite bool_decide_eq_true_2. }
  rewrite Hex, run_bind, run_lift. cbn [negb raise_if]. unfold candle_open_times. rewrite run_bind, run_op.
  assert (Hov : @store_step AbsStore bounded_storage _ (ListCandles k from to) a = (Raise sql_overflow, a)).
  { unfold store_step, bounded_storage, bounded_step. assert (overflows (ListCandles k from to) a = true) as ->; [|done].
    apply overflows_true. split; [done|]. intros H. apply Hf, bind_range, bind_ints_ok, H. }
  by rewrite Hov.
Qed.

Lemma oversized_audit_conforms (a : AbsStore) (t c : nat) (q : HttpRequest) :
  served sha256_hex config a → oversized_audit q →
  ∃ resp, run_bounded (answer sha256_hex config oi_streams order json_loads status q) (mkWorld a None t c) =
      (Ok resp, mkWorld a None t c) ∧ answer_conforms q resp.
Proof.
  intros Hsd (target & payload & from & to & -> & Hh & Hp & Hf). unfold answer_conforms. cbn [answer documented_path].
  unfold run_bounded, http_post. rewrite bool_decide_eq_false_2 by done.
  destruct (matches target) eqn:Hm.
  2:{ rewrite run_ret. eexists. split; [done|]. intros path method. fold HISTORICAL. rewrite bool_decide_eq_false_2 by done.
      destruct (stream_parts target) as [p|] eqn:Hparts; [|done].
      assert (matches target = true) by (apply matches_parts; by rewrite Hparts). congruence. }
  unfold planning_post. rewrite run_try, run_bind, run_lift. rewrite bool_decide_eq_false_2 by done.
  pose proof (parse_route_cases config target) as Hroute.
  apply matches_parts in Hm as [[[x y] op] Hparts]. rewrite Hparts in Hroute |- *.
  destruct (parse_route config target) as [[k op1]|e]; cbn [fst snd] in *.
  2:{ rewrite run_ret. eexists. split; [done|]. intros path method. case_bool_decide; [|done]. intros [= <- <-].
      left. apply refused_documented; [set_solver|done]. }
  destruct Hroute as (Hk & x1 & y1 & op2 & [= <- <- <-] & ->). destruct (sd_streams _ _ _ Hsd k Hk) as (r & Hr & _).
  case_bool_decide as Hop; rewrite run_bind || rewrite run_ret.
  2:{ eexists. split; [done|]. intros path method. done. }
  rewrite run_lift, Hp. cbn [fst snd]. rewrite run_bind.
  destruct (run_oversized_audit a t c k from to) as (e & Hrun & He); [by exists r|done|].
  unfold run_bounded in Hrun. rewrite Hrun, run_ret. eexists. split; [done|]. intros path method [= <- <-].
  left. apply refused_documented; [set_solver|]. unfold refused_class. set_solver.
Qed.
End answers.

(** C19. What the service answers is what its OpenAPI document says: over the store with the
    integers of a database, every request of a documented path gets a response of a listed
    status whose document conforms to the schema of that status, whatever its target and its
    body; no request raises past the router, and none changes the store.  One kind of answer
    is described apart: an audit whose range starts before the epoch is answered with 200,
    gives its bounds back, and conforms to the schema but for the minimum of the bounds. *)
Theorem http_conforms `{E : Env} (sha256_hex : string → string) (config : ValidatedMarketConfig)
    (oi_streams : list StreamKey) (order : list string) (json_loads : string → json + string)
    (status : RuntimeStatus) (a : AbsStore) (t c : nat) (q : HttpRequest) :
  served sha256_hex config a →
  ∃ resp, run_bounded (answer sha256_hex config oi_streams order json_loads status q) (mkWorld a None t c) =
      (Ok resp, mkWorld a None t c) ∧
    ∀ path method, documented_path q = Some (path, method) →
      documented path method resp ∨
      ∃ target payload, q = Post target payload ∧ (path, method) = (AUDITS, "post"%string) ∧
        audit_before_epoch json_loads payload resp.
Proof.
  intros Hsd. destruct (decide_oversized json_loads q) as [Hq|Hq]; [by apply oversized_audit_conforms|].
  rewrite run_bounded_fits by (by apply always_fits_run, answer_fits). by apply answer_conforms_abs.
Qed.

(** An audit from before the epoch is answered with bounds below the documented minimum. *)
Definition negative_loads (payload : string) : json + string :=
  inl (JObj [("from_ms", JInt (-120000)); ("to_ms", JInt (-60000))])%string.

#[local] Existing Instance example_env.

Definition example_status : RuntimeStatus := RuntimeStatus_new [example_stream].

Definition example_answer (json_loads : string → json + string) (q : HttpRequest) : res Response :=
  (run (answer example_digest range_config [] ALLOWED json_loads example_status q) (mkWorld range_store None 0 0)).1.

Example negative_audit :
  match example_answer negative_loads (Post "/v1/streams/BTCUSDT.P/1m/continuity-audits" "{}") with
  | Ok (status, document) =>
      status = 200 ∧ conforms 5 audit_response_schema document = false
  | Raise _ => False
  end.
Proof. by vm_compute. Qed.

Lemma range_store_served : served example_digest range_config range_store.
Proof.
  split; [apply range_store_inv| |intros s; by vm_compute].
  intros k Hk. apply list_elem_of_singleton in Hk as ->.
  exists (default example_rec (ab_streams range_store !! example_stream)).
  split; [by vm_compute|]. split; [left; by vm_compute|]. intros u row Hu. exfalso. revert Hu. by vm_compute.
Qed.

(** An audit that a database cannot bind gets the documented 500. *)
Definition oversized_loads (payload : string) : json + string :=
  inl (JObj [("from_ms", JInt 0); ("to_ms", JInt 9223372036854780000)])%string.

Lemma http_conforms_witness :
  let target := "/v1/streams/BTCUSDT.P/1m/continuity-audits"%string in
  (fst <$> (run_bounded (answer example_digest range_config [] ALLOWED oversized_loads example_status (Post target "{}"))
              (mkWorld range_store None 0 0)).1) = Ok 500 ∧
  ∃ resp, run_bounded (answer example_digest range_config [] ALLOWED oversized_loads example_status (Post target "{}"))
      (mkWorld range_store None 0 0) = (Ok resp, mkWorld range_store None 0%nat 0%nat) ∧
    ∀ path method, documented_path (Post target "{}") = Some (path, method) →
      documented path method resp ∨
      ∃ target' payload, Post target "{}" = Post target' payload ∧ (path, method) = (AUDITS, "post"%string) ∧
        audit_before_epoch oversized_loads payload resp.
Proof.
  intros target. split; [by vm_compute|].
  apply (http_conforms example_digest range_config [] ALLOWED oversized_loads example_status range_store 0 0
           (Post target "{}")).
  apply range_store_served.
Defined.
