(* ===== verification/JsonText.v ===== *)
(** * JSON text

    What [json.dumps(document, sort_keys=True)] writes, character by character, and a reader of
    JSON text for the other end of the line: what was written is read back, the members of every
    object in the order of their keys. *)

From S2P Require Import Prelude PyStr DecimalValues Identity Candles Provenance PyFloat BybitWebSocket Json.

(** ** json.dumps(..., sort_keys=True) *)

(** Items with the separator [", "]. *)
Fixpoint json_join (l : list (list Ascii.ascii)) : list Ascii.ascii :=
  match l with
  | [] => []
  | [x] => x
  | x :: l => x ++ chars ", " ++ json_join l
  end.

Definition ascii_string (s : string) : list Ascii.ascii := dquote :: flat_map ascii_char (chars s) ++ [dquote].

(** The text of a value in the order its objects have. *)
Fixpoint json_chars (v : json) : list Ascii.ascii :=
  match v with
  | JNull => chars "null"
  | JBool b => chars (if b then "true" else "false")
  | JInt z => chars (str_of_Z z)
  | JFloat _ shown => chars shown
  | JStr s => ascii_string s
  | JArr l => chr 91 :: json_join (map json_chars l) ++ [chr 93]
  | JObj o => chr 123 :: json_join (map (λ kv, match kv with (k, v) => ascii_string k ++ chars ": " ++ json_chars v end) o)
                ++ [chr 125]
  end.

(** [sorted(fields.items())]: the keys of a dict are distinct. *)
Fixpoint insert_field {A} (x : string * A) (l : list (string * A)) : list (string * A) :=
  match l with
  | [] => [x]
  | y :: l' => if String.leb x.1 y.1 then x :: l else y :: insert_field x l'
  end.
Definition sort_fields {A} (l : list (string * A)) : list (string * A) := foldr insert_field [] l.

Fixpoint sort_keys (v : json) : json :=
  match v with
  | JArr l => JArr (map sort_keys l)
  | JObj o => JObj (sort_fields (map (λ kv, match kv with (k, v) => (k, sort_keys v) end) o))
  | v => v
  end.

Definition json_dumps (v : json) : string := text (json_chars (sort_keys v)).

Example dumps_error :
  chars (json_dumps (JObj [("error", JStr "not_found"); ("detail", JArr [JInt (-5); JNull; JBool true])])%string) =
  chars "{" ++ ascii_string "detail" ++ chars ": [-5, null, true], " ++ ascii_string "error" ++ chars ": " ++
    ascii_string "not_found" ++ chars "}".
Proof. by vm_compute. Qed.

(** ** A reader *)

Definition json_ws (c : Ascii.ascii) : bool := (code c =? 32) || (code c =? 9) || (code c =? 10) || (code c =? 13).
Definition skip_ws : list Ascii.ascii → list Ascii.ascii := drop_while json_ws.

Fixpoint strip_prefix (p l : list Ascii.ascii) : option (list Ascii.ascii) :=
  match p, l with
  | [], _ => Some l
  | x :: p, y :: l => if Ascii.eqb x y then strip_prefix p l else None
  | _ :: _, [] => None
  end.

(** The next character when it is [c], after blanks. *)
Definition eat (c : Ascii.ascii) (l : list Ascii.ascii) : option (list Ascii.ascii) := strip_prefix [c] (skip_ws l).

(** The rest of a string, up to its closing quote. *)
Fixpoint read_string (fuel : nat) (acc l : list Ascii.ascii) : option (string * list Ascii.ascii) :=
  match fuel with
  | O => None
  | S fuel =>
      match json_uncons l with
      | Some (c, r) => read_string fuel (c :: acc) r
      | None => r ← strip_prefix [dquote] l; Some (text (rev acc), r)
      end
  end.

Section items.
Context {A : Type} (read : list Ascii.ascii → option (A * list Ascii.ascii)) (close : Ascii.ascii).

Fixpoint read_items (fuel : nat) (l : list Ascii.ascii) : option (list A * list Ascii.ascii) :=
  match fuel with
  | O => None
  | S fuel =>
      x ← read l;
      match eat close x.2 with
      | Some r => Some ([x.1], r)
      | None => r ← eat (chr 44) x.2; y ← read_items fuel r; Some (x.1 :: y.1, y.2)
      end
  end.

Definition read_list (fuel : nat) (l : list Ascii.ascii) : option (list A * list Ascii.ascii) :=
  match eat close l with
  | Some r => Some ([], r)
  | None => read_items fuel l
  end.
End items.

Definition read_member (read : list Ascii.ascii → option (json * list Ascii.ascii)) (l : list Ascii.ascii) :
    option ((string * json) * list Ascii.ascii) :=
  r ← eat dquote l;
  s ← read_string (S (length r)) [] r;
  r ← eat (chr 58) s.2;
  v ← read r;
  Some ((s.1, v.1), v.2).

Definition read_word (l : list Ascii.ascii) : option (json * list Ascii.ascii) :=
  match strip_prefix (chars "null") l, strip_prefix (chars "true") l, strip_prefix (chars "false") l with
  | Some r, _, _ => Some (JNull, r)
  | _, Some r, _ => Some (JBool true, r)
  | _, _, Some r => Some (JBool false, r)
  | _, _, _ => None
  end.

(** A value without floats. *)
Fixpoint read_value (fuel : nat) (l : list Ascii.ascii) : option (json * list Ascii.ascii) :=
  match fuel, skip_ws l with
  | O, _ | _, [] => None
  | S fuel, c :: r =>
      if Ascii.eqb c dquote then s ← read_string (S (length r)) [] r; Some (JStr s.1, s.2)
      else if Ascii.eqb c (chr 91) then x ← read_list (read_value fuel) (chr 93) fuel r; Some (JArr x.1, x.2)
      else if Ascii.eqb c (chr 123) then
        x ← read_list (read_member (read_value fuel)) (chr 125) fuel r; Some (JObj x.1, x.2)
      else if int_char c then let '(ds, r) := span int_char (c :: r) in z ← py_int (text ds); Some (JInt z, r)
      else read_word (c :: r)
  end.

(** The document a text is of: nothing but blanks may follow. *)
Definition json_read (s : string) : option json :=
  x ← read_value (S (length (chars s))) (chars s);
  match skip_ws x.2 with [] => Some x.1 | _ => None end.

Example read_dumped :
  let v := JObj [("b", JArr [JInt (-12); JObj []; JArr []; JStr "a\b"]); ("a", JNull); ("c", JBool false)]%string in
  json_read (json_dumps v) = Some (sort_keys v).
Proof. by vm_compute. Qed.

(** ** What was written is read back *)

(** Induction on a value with the hypothesis for every item and every member. *)
Section json_induction.
Context (P : json → Prop).
Hypothesis P_null : P JNull.
Hypothesis P_bool : ∀ b, P (JBool b).
Hypothesis P_int : ∀ z, P (JInt z).
Hypothesis P_float : ∀ x shown, P (JFloat x shown).
Hypothesis P_str : ∀ s, P (JStr s).
Hypothesis P_arr : ∀ l, Forall P l → P (JArr l).
Hypothesis P_obj : ∀ o, Forall (λ kv, P kv.2) o → P (JObj o).

Fixpoint json_nested_ind (v : json) : P v :=
  match v with
  | JNull => P_null
  | JBool b => P_bool b
  | JInt z => P_int z
  | JFloat x shown => P_float x shown
  | JStr s => P_str s
  | JArr l =>
      P_arr l ((fix items l : Forall P l :=
        match l with [] => Forall_nil_2 P | v :: l => Forall_cons_2 P v l (json_nested_ind v) (items l) end) l)
  | JObj o =>
      P_obj o ((fix members o : Forall (λ kv, P kv.2) o :=
        match o with
        | [] => Forall_nil_2 (λ kv, P kv.2)
        | kv :: o => Forall_cons_2 (λ kv, P kv.2) kv o (json_nested_ind kv.2) (members o)
        end) o)
  end.
End json_induction.

(** No floats. *)
Fixpoint plain (v : json) : bool :=
  match v with
  | JFloat _ _ => false
  | JArr l => forallb plain l
  | JObj o => forallb (λ kv, match kv with (_, v) => plain v end) o
  | _ => true
  end.

Definition member_chars (kv : string * json) : list Ascii.ascii := ascii_string kv.1 ++ chars ": " ++ json_chars kv.2.

Lemma json_chars_obj o : json_chars (JObj o) = chr 123 :: json_join (map member_chars o) ++ [chr 125].
Proof. cbn [json_chars]. do 3 f_equal. apply map_ext. by intros [k v]. Qed.

Lemma plain_arr l : plain (JArr l) = true ↔ Forall (λ v, plain v = true) l.
Proof. cbn [plain]. rewrite forallb_forall, Forall_forall. by setoid_rewrite list_elem_of_In. Qed.

Lemma plain_obj o : plain (JObj o) = true ↔ Forall (λ kv, plain kv.2 = true) o.
Proof.
  cbn [plain]. rewrite forallb_forall, Forall_forall. setoid_rewrite list_elem_of_In.
  split; intros H x Hx; [|destruct x]; apply H in Hx; [by destruct x|done].
Qed.

(** The first character of a text decides what is read. *)
Definition starts (l : list Ascii.ascii) : Prop :=
  ∃ c l', l = c :: l' ∧ json_ws c = false ∧ c ≠ chr 93 ∧ c ≠ chr 125.

(** What follows a value is not a character of an integer. *)
Definition ends (r : list Ascii.ascii) : Prop := match r with c :: _ => int_char c = false | [] => True end.

Lemma int_char_cases c : int_char c = true → json_ws c = false ∧ c ≠ chr 93 ∧ c ≠ chr 125 ∧ c ≠ dquote ∧ c ≠ chr 91 ∧ c ≠ chr 123.
Proof. by destruct c as [[] [] [] [] [] [] [] []]. Qed.

Lemma str_of_Z_head z : ∃ c l, chars (str_of_Z z) = c :: l ∧ int_char c = true.
Proof.
  pose proof (json_int_chars z) as H. unfold Provenance.json_int in H.
  destruct (chars (str_of_Z z)) as [|c l] eqn:E; [|by apply Forall_cons in H as [H _]; eauto].
  assert (Hz : py_int (text []) = Some z) by (rewrite <- E, text_chars; apply py_int_str_of_Z). done.
Qed.

Lemma json_chars_starts v : plain v = true → starts (json_chars v).
Proof.
  destruct v as [|b|z|x s|s|l|o]; intros H; cbn [json_chars]; try done.
  - by eexists _, _.
  - destruct b; by eexists _, _.
  - destruct (str_of_Z_head z) as (c & l & -> & Hc). apply int_char_cases in Hc as (? & ? & ? & _). by eexists _, _.
  - by eexists _, _.
  - by eexists _, _.
  - by eexists _, _.
Qed.

Lemma skip_ws_starts l r : starts l → skip_ws (l ++ r) = l ++ r.
Proof. intros (c & l' & -> & Hc & _). cbn [app]. apply drop_while_id, Hc. Qed.

Lemma eat_hit c l r : json_ws c = false → skip_ws l = c :: r → eat c l = Some r.
Proof. intros Hc H. unfold eat. rewrite H. cbn [strip_prefix]. by rewrite Ascii.eqb_refl. Qed.

Lemma eat_miss c x l r : skip_ws l = x :: r → x ≠ c → eat c l = None.
Proof.
  intros H Hx. unfold eat. rewrite H. cbn [strip_prefix]. destruct (Ascii.eqb c x) eqn:E; [|done].
  by apply Ascii.eqb_eq in E as ->.
Qed.

(** Strings *)

Lemma json_uncons_ascii c r : json_uncons (ascii_char c ++ r) = Some (c, r).
Proof. by destruct c as [[] [] [] [] [] [] [] []]. Qed.

Lemma ascii_char_length c : (0 < length (ascii_char c))%nat.
Proof. destruct c as [[] [] [] [] [] [] [] []]; vm_compute; lia. Qed.

Lemma flat_length l : (length l ≤ length (flat_map ascii_char l))%nat.
Proof.
  induction l as [|c l IH]; cbn [flat_map length]; [lia|]. rewrite length_app.
  pose proof (ascii_char_length c). lia.
Qed.

Lemma read_string_chars l fuel acc r :
  (length l < fuel)%nat →
  read_string fuel acc (flat_map ascii_char l ++ dquote :: r) = Some (text (rev acc ++ l), r).
Proof.
  revert fuel acc. induction l as [|c l IH]; intros [|fuel] acc Hf; cbn [length] in Hf; try lia.
  - cbn. by rewrite app_nil_r.
  - cbn [flat_map]. rewrite <- app_assoc. cbn [read_string]. rewrite json_uncons_ascii, IH by lia.
    cbn [rev]. by rewrite <- app_assoc.
Qed.

Lemma read_string_text s r :
  let l := flat_map ascii_char (chars s) ++ dquote :: r in read_string (S (length l)) [] l = Some (s, r).
Proof.
  cbv zeta. rewrite read_string_chars; [cbn [rev app]; by rewrite text_chars|].
  pose proof (flat_length (chars s)). rewrite length_app. lia.
Qed.

(** Lists *)

Lemma json_join_in x l : x ∈ l → (length x ≤ length (json_join l))%nat.
Proof.
  induction 1 as [x [|y l]|x y l Hx IH]; cbn [json_join length]; rewrite ?length_app; try lia.
  destruct l as [|z l]; [by apply not_elem_of_nil in Hx|]. rewrite !length_app. lia.
Qed.

Lemma json_join_map {A} (f : A → list Ascii.ascii) x l : x ∈ l → (length (f x) ≤ length (json_join (map f l)))%nat.
Proof. intros H. by apply json_join_in, list_elem_of_fmap_2. Qed.

Lemma json_join_count l : Forall (λ x, (0 < length x)%nat) l → (length l ≤ length (json_join l))%nat.
Proof.
  induction l as [|x [|y l] IH]; intros H; cbn [length].
  - lia.
  - apply Forall_cons in H as [H _]. cbn [json_join]. lia.
  - apply Forall_cons in H as [H Hl]. specialize (IH Hl). cbn [length] in IH.
    change (json_join (x :: y :: l)) with (x ++ chars ", " ++ json_join (y :: l)).
    rewrite !length_app. cbn [chars String.list_ascii_of_string length]. lia.
Qed.

Lemma starts_length l : starts l → (0 < length l)%nat.
Proof. intros (c & l' & -> & _). cbn. lia. Qed.

Section items_text.
Context {A : Type} (read : list Ascii.ascii → option (A * list Ascii.ascii)) (print : A → list Ascii.ascii).
Context (close : Ascii.ascii) (Hclose : close = chr 93 ∨ close = chr 125).

(** A printed item at the head of a text is read, and what follows is left. *)
Definition reads (x : A) : Prop := ∀ l r, skip_ws l = print x ++ r → ends r → read l = Some (x, r).

Lemma close_facts : json_ws close = false ∧ int_char close = false ∧ close ≠ chr 44.
Proof. by destruct Hclose as [-> | ->]. Qed.

Lemma read_items_text xs fuel l r :
  Forall reads xs → Forall (λ x, starts (print x)) xs → xs ≠ [] → (length xs ≤ fuel)%nat →
  skip_ws l = json_join (map print xs) ++ close :: r → read_items read close fuel l = Some (xs, r).
Proof.
  destruct close_facts as (Hws & Hint & Hcomma).
  revert fuel l. induction xs as [|x xs IH]; intros [|fuel] l Hr Hst Hne Hf Hl; cbn [length] in Hf; [done|done|lia|].
  apply Forall_cons in Hr as [Hx Hr]. apply Forall_cons in Hst as [Hsx Hst].
  destruct xs as [|y xs]; cbn [read_items].
  - rewrite (Hx l (close :: r) Hl) by done. cbn [mbind option_bind fst snd].
    by rewrite (eat_hit close (close :: r) r) by (done || by apply drop_while_id).
  - change (json_join (map print (x :: y :: xs))) with (print x ++ chars ", " ++ json_join (map print (y :: xs))) in Hl.
    rewrite <- !app_assoc in Hl. rewrite (Hx l _ Hl) by done. cbn [mbind option_bind fst snd].
    change (chars ", " ++ ?t) with (chr 44 :: chr 32 :: t).
    rewrite (eat_miss close (chr 44) _ (chr 32 :: json_join (map print (y :: xs)) ++ close :: r)) by done.
    rewrite (eat_hit (chr 44) _ (chr 32 :: json_join (map print (y :: xs)) ++ close :: r)) by done.
    cbn [mbind option_bind]. rewrite IH; [done|done|done|done|cbn [length] in *; lia|].
    apply Forall_cons in Hst as [Hsy _]. change (skip_ws (chr 32 :: ?t)) with (skip_ws t).
    destruct xs as [|z xs]; cbn [map json_join]; rewrite <- ?app_assoc; by apply skip_ws_starts.
Qed.

Lemma read_list_text xs fuel r :
  Forall reads xs → Forall (λ x, starts (print x)) xs → (length (json_join (map print xs)) ≤ fuel)%nat →
  read_list read close fuel (json_join (map print xs) ++ close :: r) = Some (xs, r).
Proof.
  destruct close_facts as (Hws & _). intros Hr Hst Hf. unfold read_list. destruct xs as [|x xs].
  { by rewrite (eat_hit close _ r) by (done || by apply drop_while_id). }
  assert (Hs : starts (print x)) by by apply Forall_cons in Hst as [? _].
  assert (Hsk : ∃ t, json_join (map print (x :: xs)) ++ close :: r = print x ++ t).
  { destruct xs as [|y xs]; cbn [map json_join]; rewrite <- ?app_assoc; by eexists. }
  destruct Hsk as [t Hsk]. pose proof (skip_ws_starts _ t Hs) as Hws'.
  destruct Hs as (c & l' & Hc & Hcw & Hc1 & Hc2).
  rewrite (eat_miss close c _ (l' ++ t)).
  - apply read_items_text; try done; [|by rewrite Hsk].
    etrans; [|exact Hf]. rewrite <- (length_map print). apply json_join_count, Forall_map.
    eapply Forall_impl; [exact Hst|]. intros y. apply starts_length.
  - rewrite Hsk, Hws', Hc. done.
  - destruct Hclose as [-> | ->]; congruence.
Qed.
End items_text.

Lemma member_starts kv : starts (member_chars kv).
Proof. by eexists _, _. Qed.

Lemma read_member_text read kv :
  starts (json_chars kv.2) → reads read json_chars kv.2 → reads (read_member read) member_chars kv.
Proof.
  intros Hst Hread l r Hl Hr. destruct kv as [k v]. cbn [fst snd] in *. unfold member_chars, ascii_string in Hl.
  cbn [fst snd app] in Hl. rewrite <- !app_assoc in Hl. unfold read_member.
  rewrite (eat_hit dquote l _ eq_refl Hl). cbn [mbind option_bind app].
  rewrite read_string_text. cbn [mbind option_bind fst snd].
  change (chars ": " ++ ?t) with (chr 58 :: chr 32 :: t).
  rewrite (eat_hit (chr 58) _ (chr 32 :: json_chars v ++ r)) by done. cbn [mbind option_bind].
  rewrite (Hread _ r); [done| |done]. change (skip_ws (chr 32 :: ?t)) with (skip_ws t). by apply skip_ws_starts.
Qed.

Lemma span_all {A} (p : A → bool) l r :
  Forall (λ c, p c = true) l → match r with c :: _ => p c = false | [] => True end → span p (l ++ r) = (l, r).
Proof.
  intros Hl Hr. induction Hl as [|c l Hc Hl IH]; cbn [app].
  - destruct r as [|c r]; cbn [span]; [done|by rewrite Hr].
  - cbn [span]. by rewrite Hc, IH.
Qed.

Lemma read_int z fuel l r :
  skip_ws l = chars (str_of_Z z) ++ r → ends r → read_value (S fuel) l = Some (JInt z, r).
Proof.
  intros Hl Hr. cbn [read_value]. rewrite Hl.
  assert (Hsp : span int_char (chars (str_of_Z z) ++ r) = (chars (str_of_Z z), r)).
  { apply span_all; [apply json_int_chars|done]. }
  destruct (str_of_Z_head z) as (c & l' & Hc & Hi).
  pose proof (int_char_cases c Hi) as (_ & _ & _ & Hq & H1 & H2). rewrite Hc in Hsp |- *. cbn [app] in Hsp |- *.
  rewrite <- Ascii.eqb_neq in Hq, H1, H2. rewrite Hq, H1, H2, Hi, Hsp. cbn [mbind option_bind].
  rewrite <- Hc, text_chars. by rewrite py_int_str_of_Z.
Qed.

(** A printed value without floats is read with fuel for its length. *)
Lemma read_value_text v :
  plain v = true → ∀ fuel, (length (json_chars v) ≤ fuel)%nat → reads (read_value fuel) json_chars v.
Proof.
  induction v as [|b|z|x shown|s|xs IH|o IH] using json_nested_ind; intros Hp [|fuel] Hf l r Hl Hr;
    try (pose proof (starts_length _ (json_chars_starts _ Hp)); lia).
  - cbn [read_value]. by rewrite Hl.
  - cbn [read_value]. rewrite Hl. by destruct b.
  - by apply read_int.
  - done.
  - cbn [read_value]. rewrite Hl. cbn [json_chars ascii_string app]. rewrite <- app_assoc, Ascii.eqb_refl. cbn [app].
    by rewrite read_string_text.
  - apply plain_arr in Hp. cbn [json_chars length] in Hf. rewrite length_app in Hf. cbn [length] in Hf.
    cbn [read_value]. rewrite Hl. cbn [json_chars app]. rewrite <- app_assoc. cbn [app].
    change (Ascii.eqb (chr 91) dquote) with false. rewrite Ascii.eqb_refl. cbv iota.
    rewrite (read_list_text (read_value fuel) json_chars); [done|by left| | |lia].
    + apply Forall_forall. intros v Hv. rewrite Forall_forall in IH, Hp. apply IH; [done|by apply Hp|].
      pose proof (json_join_map json_chars v xs Hv). lia.
    + eapply Forall_impl; [exact Hp|]. apply json_chars_starts.
  - apply plain_obj in Hp. rewrite json_chars_obj in Hf, Hl. cbn [length] in Hf. rewrite length_app in Hf.
    cbn [length] in Hf. cbn [read_value]. rewrite Hl. cbn [app]. rewrite <- app_assoc. cbn [app].
    change (Ascii.eqb (chr 123) dquote) with false. change (Ascii.eqb (chr 123) (chr 91)) with false.
    rewrite Ascii.eqb_refl. cbv iota.
    rewrite (read_list_text (read_member (read_value fuel)) member_chars); [done|by right| | |lia].
    + apply Forall_forall. intros kv Hkv. rewrite Forall_forall in IH, Hp.
      apply read_member_text; [by apply json_chars_starts, Hp|]. apply IH; [done|by apply Hp|].
      pose proof (json_join_map member_chars kv o Hkv) as Hlen.
      assert (length (json_chars kv.2) ≤ length (member_chars kv))%nat
        by (unfold member_chars; rewrite !length_app; lia). lia.
    + apply Forall_forall. intros kv _. apply member_starts.
Qed.

(** ** Sorting keeps the document *)

Lemma json_get_insert (x : string * json) o key :
  json_get (insert_field x o) key = if bool_decide (x.1 = key) then Some x.2 else json_get o key.
Proof.
  destruct x as [k v]. induction o as [|[k' v'] o IH]; [done|]. cbn [insert_field fst snd].
  destruct (String.leb k k') eqn:Hle; [done|]. cbn [json_get fst snd] in *. rewrite IH.
  destruct (decide (k' = key)) as [<-|Hk']; [|by rewrite (bool_decide_false (k' = key)) by done].
  rewrite (bool_decide_true (k' = k')) by done. rewrite bool_decide_false; [done|]. intros ->.
  unfold String.leb in Hle. pose proof (String.compare_antisym k' k') as Ha. by destruct (String.compare k' k').
Qed.

(** The members of a sorted object are those of the object, sorted in turn. *)
Lemma json_get_sort_keys o key :
  ∃ o', sort_keys (JObj o) = JObj o' ∧ json_get o' key = sort_keys <$> json_get o key.
Proof.
  cbn [sort_keys]. eexists. split; [done|]. induction o as [|[k v] o IH]; [done|].
  cbn [map sort_fields foldr]. fold (@sort_fields json). rewrite json_get_insert. cbn [fst snd json_get].
  destruct (bool_decide (k = key)); [done|]. exact IH.
Qed.

Lemma insert_field_Forall {A} (P : string * A → Prop) x l : P x → Forall P l → Forall P (insert_field x l).
Proof.
  intros Hx Hl. induction Hl as [|y l Hy Hl IH]; cbn [insert_field]; [by repeat constructor|].
  destruct (String.leb x.1 y.1); by repeat constructor.
Qed.

Lemma plain_sort_keys v : plain v = true → plain (sort_keys v) = true.
Proof.
  induction v as [| | | | |xs IH|o IH] using json_nested_ind; intros Hp; try done.
  - cbn [sort_keys]. apply plain_arr. apply plain_arr in Hp. apply Forall_map.
    rewrite Forall_forall in *. intros v Hv. by apply IH, Hp.
  - cbn [sort_keys]. apply plain_obj. apply plain_obj in Hp.
    induction IH as [|[k v] o Hv Ho IHo]; cbn [map sort_fields foldr]; [done|].
    apply Forall_cons in Hp as [Hpv Hp]. apply insert_field_Forall; [by apply Hv|by apply IHo].
Qed.

Lemma json_read_dumps v : plain v = true → json_read (json_dumps v) = Some (sort_keys v).
Proof.
  intros Hp. unfold json_read, json_dumps. rewrite chars_text.
  pose proof (plain_sort_keys v Hp) as Hps. set (w := sort_keys v) in *.
  rewrite (read_value_text w Hps (S (length (json_chars w))) (Nat.le_succ_diag_r _) (json_chars w) []);
    [done| |done].
  rewrite app_nil_r. pose proof (skip_ws_starts _ [] (json_chars_starts w Hps)) as H. by rewrite !app_nil_r in H.
Qed.
