(* ===== verification/HttpServer.v ===== *)
(** * The HTTP server

    adapters/http/runtime_server.py: what is read of a request and what is written of a response.
    The headers that http.server adds (its software and the date), its table of phrases and
    [json.loads] are parameters; a request is one of HTTP/1.0 or later.  The sockets and the thread
    of the server are left out.  The reader of responses stands for the consumer. *)

From S2P Require Import Prelude PyStr DecimalValues Timeframes Identity Gaps Candles StreamState.
From S2P Require Import Instruments OpenInterest Storage AbsStore Ingest ImportWindow UseCase Provenance Repair.
From S2P Require Import ConsumerRead HistoryPlanning RealtimeFacts RealtimeRecovery RuntimeStatus PyFloat BybitWebSocket.
From S2P Require Import Json Http OpenApi HttpConformance JsonText.

Definition CR : Ascii.ascii := chr 13.
Definition LF : Ascii.ascii := chr 10.
Definition blank : Ascii.ascii := chr 32.
Definition colon : Ascii.ascii := chr 58.

(** ** Responses *)

(** What http.server puts in a response by itself. *)
Record ServerLines := mkLines {
  sl_phrase : Z → string;
  sl_software : string;
  sl_date : string
}.

(** [send_header] *)
Definition header_line (name value : string) : list Ascii.ascii :=
  chars name ++ colon :: blank :: chars value ++ [CR; LF].

(** [RuntimeHttpServer._write] *)
Definition write_response (lines : ServerLines) (r : Response) : string :=
  let payload := chars (json_dumps r.2) in
  text (chars "HTTP/1.0 " ++ chars (str_of_Z r.1) ++ blank :: chars (sl_phrase lines r.1) ++ [CR; LF] ++
        header_line "Server" (sl_software lines) ++ header_line "Date" (sl_date lines) ++
        header_line "Content-Type" "application/json" ++
        header_line "Content-Length" (str_of_Z (Z.of_nat (length payload))) ++ [CR; LF] ++ payload).

(** ** Requests *)

(** A request on the line: the value of its Content-Length, when it has one, and what is sent after
    the headers until the sender ends. *)
Inductive WireRequest :=
| WireGet (target : string)
| WirePost (target : string) (content_length : option string) (sent : string).

(** [self.rfile.read(length)]: a negative length reads to the end. *)
Definition read_body (length : Z) (sent : string) : string :=
  if length <? 0 then sent else text (take (Z.to_nat length) (chars sent)).

(** [int(self.headers.get("Content-Length", "0"))] *)
Definition body_length (content_length : option string) : res Z :=
  let value := default "0"%string content_length in
  match py_int value with
  | Some n => Ok n
  | None => raise ExcValueError ("invalid literal for int() with base 10: " +:+ repr value)
  end.

Section server.
Context (lines : ServerLines) (sha256_hex : string → string) (config : ValidatedMarketConfig).
Context (oi_streams : list StreamKey) (order : list string) (json_loads : string → json + string).

(** [do_GET]: the bytes written; nothing is written when it raises. *)
Definition do_GET (status : RuntimeStatus) (target : string) : M string :=
  r ← http_get sha256_hex config oi_streams order status openapi_document target;
  mret (write_response lines r).

(** [do_POST] *)
Definition do_POST (target : string) (content_length : option string) (sent : string) : M string :=
  length ← lift (body_length content_length);
  r ← http_post sha256_hex config json_loads target (read_body length sent);
  mret (write_response lines r).

Definition serve_request (status : RuntimeStatus) (q : WireRequest) : M string :=
  match q with
  | WireGet target => do_GET status target
  | WirePost target content_length sent => do_POST target content_length sent
  end.
End server.

(** The request the router is asked. *)
Definition received (q : WireRequest) : res HttpRequest :=
  match q with
  | WireGet target => Ok (Get target)
  | WirePost target content_length sent => length ← body_length content_length; Ok (Post target (read_body length sent))
  end.

(** ** The consumer's side *)

(** A line, without its CR LF. *)
Fixpoint read_line (l : list Ascii.ascii) : option (list Ascii.ascii * list Ascii.ascii) :=
  match l with
  | [] => None
  | c :: l' =>
      match l' with
      | d :: r => if Ascii.eqb c CR && Ascii.eqb d LF then Some ([], r) else x ← read_line l'; Some (c :: x.1, x.2)
      | [] => None
      end
  end.

(** The headers up to the empty line. *)
Fixpoint read_headers (fuel : nat) (l : list Ascii.ascii) : option (list (string * string) * list Ascii.ascii) :=
  match fuel with
  | O => None
  | S fuel =>
      x ← read_line l;
      if bool_decide (x.1 = []) then Some ([], x.2)
      else let '(name, value) := cut colon x.1 in
           value ← value;
           h ← read_headers fuel x.2;
           Some ((text name, text value) :: h.1, h.2)
  end.

Fixpoint find_header (name : string) (headers : list (string * string)) : option string :=
  match headers with
  | [] => None
  | (n, value) :: headers => if bool_decide (n = name) then Some value else find_header name headers
  end.

(** A status and a body, and what follows them on the line. *)
Definition read_response (l : list Ascii.ascii) : option (Z * string * list Ascii.ascii) :=
  x ← read_line l;
  rest ← (cut blank x.1).2;
  status ← py_int (text (cut blank rest).1);
  h ← read_headers (length l) x.2;
  value ← find_header "Content-Length" h.1;
  n ← py_int value;
  if n <=? Z.of_nat (length h.2) then
    Some (status, text (take (Z.to_nat n) h.2), drop (Z.to_nat n) h.2)
  else None.

Definition example_lines : ServerLines :=
  mkLines (λ s, if s =? 200 then "OK" else "Not Found") "BaseHTTP/0.6 Python/3.12.3" "Thu, 01 Jan 1970 00:00:00 GMT".

Example read_not_found :
  let r := not_routed "/x" in
  (x ← read_response (chars (write_response example_lines r)); document ← json_read x.1.2; Some (x.1.1, document)) =
  Some (404, sort_keys r.2).
Proof. by vm_compute. Qed.

(** ** What is written is read back *)

(** A text that does not end its line. *)
Definition one_line (s : string) : Prop := Forall (λ c, Ascii.eqb c CR = false) (chars s).

Definition clean_lines (lines : ServerLines) : Prop :=
  (∀ status, one_line (sl_phrase lines status)) ∧ one_line (sl_software lines) ∧ one_line (sl_date lines).

Lemma one_line_int z : one_line (str_of_Z z).
Proof. eapply Forall_impl; [apply (json_int_chars z)|]. by intros [[] [] [] [] [] [] [] []]. Qed.

Lemma one_line_literal s : forallb (λ c, negb (Ascii.eqb c CR)) (chars s) = true → one_line s.
Proof.
  rewrite forallb_forall. intros H. apply Forall_forall. intros c Hc%list_elem_of_In.
  by apply H, negb_true_iff in Hc.
Qed.

Lemma read_line_end l r : Forall (λ c, Ascii.eqb c CR = false) l → read_line (l ++ [CR; LF] ++ r) = Some (l, r).
Proof.
  induction 1 as [|c l Hc Hl IH]; [done|]. cbn [app read_line] in IH |- *.
  destruct (l ++ CR :: LF :: r) as [|d t] eqn:E; [by destruct l|]. rewrite Hc. cbn [andb]. by rewrite IH.
Qed.

Lemma read_headers_line name value fuel r h :
  name ≠ EmptyString → one_line name → Forall (λ c, Ascii.eqb c colon = false) (chars name) → one_line value →
  read_headers fuel r = Some h →
  read_headers (S fuel) (header_line name value ++ r) = Some ((name, " " +:+ value)%string :: h.1, h.2).
Proof.
  intros Hne Hn Hc Hv Hh. unfold header_line.
  replace ((chars name ++ colon :: blank :: chars value ++ [CR; LF]) ++ r)
    with ((chars name ++ colon :: blank :: chars value) ++ [CR; LF] ++ r)
    by (repeat (rewrite <- ?app_assoc; cbn [app]); done).
  cbn [read_headers]. rewrite read_line_end.
  - cbn [mbind option_bind fst snd]. rewrite bool_decide_false by (by destruct (chars name)).
    rewrite cut_at by done. rewrite Hh. cbn [mbind option_bind fst snd]. rewrite text_chars.
    by rewrite <- (text_chars (" " +:+ value)).
  - apply Forall_app. split; [done|]. by repeat constructor.
Qed.

Lemma py_int_blank l : py_int (text (blank :: l)) = py_int (text l).
Proof. unfold py_int, strip. by rewrite !chars_text. Qed.

Lemma take_drop_text (s : string) r :
  take (length (chars s)) (chars s ++ r) = chars s ∧ drop (length (chars s)) (chars s ++ r) = r.
Proof. by rewrite take_app_length, drop_app_length. Qed.

(** A response stands on the line by itself: the reader takes exactly what was written. *)
Lemma read_written lines status document rest :
  clean_lines lines →
  read_response (chars (write_response lines (status, document)) ++ rest) = Some (status, json_dumps document, rest).
Proof.
  intros (Hp & Hs & Hd). unfold write_response. cbn [fst snd]. rewrite chars_text.
  set (payload := chars (json_dumps document)). set (n := str_of_Z (Z.of_nat (length payload))).
  set (first := chars "HTTP/1.0 " ++ chars (str_of_Z status) ++ blank :: chars (sl_phrase lines status)).
  set (tail := [CR; LF] ++ payload ++ rest).
  set (headers := header_line "Server" (sl_software lines) ++ header_line "Date" (sl_date lines) ++
                  header_line "Content-Type" "application/json" ++ header_line "Content-Length" n ++ tail).
  match goal with |- read_response ?l = _ => replace l with (first ++ [CR; LF] ++ headers) end.
  2:{ unfold first, headers, tail. repeat (rewrite <- ?app_assoc; cbn [app]). done. }
  unfold read_response. rewrite read_line_end.
  2:{ unfold first. apply Forall_app; split; [by repeat constructor|]. apply Forall_app; split; [apply one_line_int|].
      constructor; [done|apply Hp]. }
  cbn [mbind option_bind fst snd].
  assert (Hfirst : (cut blank first).2 = Some (chars (str_of_Z status) ++ blank :: chars (sl_phrase lines status))) by done.
  rewrite Hfirst. cbn [mbind option_bind]. rewrite cut_at.
  2:{ eapply Forall_impl; [apply (json_int_chars status)|]. by intros [[] [] [] [] [] [] [] []]. }
  cbn [fst]. rewrite text_chars, py_int_str_of_Z. cbn [mbind option_bind].
  assert (Htail : ∀ fuel, read_headers (S fuel) tail = Some ([], payload ++ rest)) by done.
  assert (Hlen : ∃ fuel, length (first ++ [CR; LF] ++ headers) = S (S (S (S (S fuel))))) by by eexists.
  destruct Hlen as [fuel ->]. unfold headers.
  erewrite read_headers_line; [|done|by apply one_line_literal|by repeat constructor|exact Hs|].
  2:{ apply read_headers_line; [done|by apply one_line_literal|by repeat constructor|exact Hd|].
      apply read_headers_line; [done|by apply one_line_literal|by repeat constructor|by apply one_line_literal|].
      apply read_headers_line; [done|by apply one_line_literal|by repeat constructor|apply one_line_int|apply Htail]. }
  cbn [mbind option_bind fst snd find_header]. rewrite !bool_decide_false by done. rewrite bool_decide_true by done.
  assert (Hn : py_int (" " +:+ n) = Some (Z.of_nat (length payload))).
  { rewrite <- (text_chars (" " +:+ n)). change (chars (" " +:+ n)) with (blank :: chars n).
    rewrite py_int_blank, text_chars. apply py_int_str_of_Z. }
  cbn [mbind option_bind]. rewrite Hn. cbn [mbind option_bind].
  rewrite length_app, (proj2 (Z.leb_le _ _)) by lia. rewrite Nat2Z.id. unfold payload.
  destruct (take_drop_text (json_dumps document) rest) as [-> ->]. by rewrite text_chars.
Qed.

(** ** The router answers documents without floats *)

(** What a program returns, when it returns. *)
Definition yields `{E : Env} {A} (P : A → Prop) (m : M A) : Prop :=
  ∀ (w w' : World AbsStore) a, run m w = (Ok a, w') → P a.

Section yields.
Context `{E : Env}.

Lemma yields_ret {A} (P : A → Prop) a : P a → yields P (mret (M:=M) a).
Proof. intros H w w' a'. rewrite run_ret. by intros [= <- _]. Qed.

Lemma yields_bind {A B} (P : B → Prop) (m : M A) (f : A → M B) : (∀ a, yields P (f a)) → yields P (m ≫= f).
Proof. intros H w w' b. rewrite run_bind. destruct (run m w) as [[a|e] w1]; [apply H|done]. Qed.

Lemma yields_lift {A B} (P : B → Prop) (r : res A) (f : A → M B) :
  (∀ a, r = Ok a → yields P (f a)) → yields P (lift r ≫= f).
Proof. intros H w w' b. rewrite run_bind, run_lift. destruct r as [a|e]; [by apply H|done]. Qed.

Lemma yields_try {A} (P : A → Prop) (m : M A) h : yields P m → (∀ e, yields P (h e)) → yields P (try_catch m h).
Proof.
  intros Hm Hh w w' a. rewrite run_try. destruct (run m w) as [[a'|e] w1] eqn:Hr; [|apply Hh].
  intros [= <- _]. by eapply Hm.
Qed.
End yields.

Definition plain_response (r : Response) : Prop := plain r.2 = true.

Lemma map_exception_plain e : plain_response (map_exception e).
Proof. unfold plain_response. by destruct (map_exception_shape e) as (error & -> & _). Qed.

Lemma candle_documents_plain candles oi documents :
  candle_documents candles oi = Ok documents → forallb plain documents = true.
Proof.
  revert oi documents. induction candles as [|c candles IH]; intros [|o oi] documents; cbn [candle_documents].
  - by intros [= <-].
  - done.
  - done.
  - intros (ds & Hds & [= <-])%res_bind_ok. cbn [forallb]. rewrite (IH _ _ Hds). by destruct o.
Qed.

Lemma serialize_plain r document : serialize_result r = Ok document → plain document = true.
Proof.
  intros (ds & Hds & [= <-])%res_bind_ok. apply candle_documents_plain in Hds. cbn [plain forallb]. by rewrite Hds.
Qed.

Lemma bounds_plain r : plain (bounds_document r) = true.
Proof. cbn. by destruct (sb_earliest_committed_open_time_ms r), (sb_latest_committed_open_time_ms r). Qed.

Lemma audit_plain r : plain (audit_document r) = true.
Proof.
  unfold audit_document. cbn [plain forallb]. rewrite (proj2 (forallb_forall _ _)); [by destruct (ca_market_data_hash r)|].
  intros v (g & <- & _)%in_map_iff. done.
Qed.

Lemma readiness_plain s : plain (readiness_json s) = true.
Proof.
  unfold readiness_json. cbn [plain forallb]. rewrite (proj2 (forallb_forall _ _)); [done|].
  intros v (x & <- & _)%in_map_iff. cbn. by destruct (st_reason x).
Qed.

Lemma health_plain s : plain (health_json s) = true.
Proof. cbn. by destruct (sts_fatal_error s). Qed.

Section answers.
Context `{E : Env} (sha256_hex : string → string) (config : ValidatedMarketConfig) (oi_streams : list StreamKey).
Context (order : list string) (json_loads : string → json + string) (status : RuntimeStatus).

Lemma respond_plain {A} (m : M A) (document : A → res json) :
  (∀ a d, document a = Ok d → plain d = true) → yields plain_response (respond m document).
Proof.
  intros Hd. apply yields_try; [|intros e; apply yields_ret, map_exception_plain].
  apply yields_bind. intros a. apply yields_lift. intros d Ha. apply yields_ret. exact (Hd a d Ha).
Qed.

Lemma planning_get_plain target : yields plain_response (planning_get config oi_streams target).
Proof.
  apply yields_try; [|intros e; apply yields_ret, map_exception_plain]. apply yields_bind. intros route.
  destruct (bool_decide _); [|by apply yields_ret]. apply yields_bind. intros r. apply yields_ret, bounds_plain.
Qed.

Lemma planning_post_plain target payload : yields plain_response (planning_post sha256_hex config json_loads target payload).
Proof.
  apply yields_try; [|intros e; apply yields_ret, map_exception_plain]. apply yields_bind. intros route.
  destruct (bool_decide _); [|by apply yields_ret]. apply yields_bind. intros request. apply yields_bind. intros r.
  apply yields_ret, audit_plain.
Qed.

Lemma answer_plain q : yields plain_response (answer sha256_hex config oi_streams order json_loads status q).
Proof.
  destruct q as [target|target payload]; cbn [answer]; unfold http_get, http_post; cbv zeta.
  - destruct (bool_decide _); [apply yields_ret, health_plain|].
    destruct (bool_decide _); [apply yields_ret, readiness_plain|].
    destruct (bool_decide _); [by apply yields_ret; vm_compute|].
    destruct (bool_decide _); [apply respond_plain, serialize_plain|].
    destruct (matches target); [apply planning_get_plain|by apply yields_ret].
  - destruct (bool_decide _); [apply respond_plain, serialize_plain|].
    destruct (matches target); [apply planning_post_plain|by apply yields_ret].
Qed.
End answers.

(** ** Requests *)

Lemma run_serve `{E : Env} lines sha256_hex config oi_streams order json_loads status q (w : World AbsStore) :
  run (serve_request lines sha256_hex config oi_streams order json_loads status q) w =
  match received q with
  | Ok request =>
      let '(r, w') := run (answer sha256_hex config oi_streams order json_loads status request) w in
      (write_response lines <$> r, w')
  | Raise e => (Raise e, w)
  end.
Proof.
  destruct q as [target|target content_length sent]; cbn [serve_request received answer].
  - unfold do_GET. rewrite run_bind. by destruct (run _ w) as [[r|e] w'].
  - unfold do_POST. rewrite run_bind, run_lift. destruct (body_length content_length) as [n|e]; [|done].
    cbn [mbind res_bind]. rewrite run_bind. by destruct (run _ w) as [[r|e] w'].
Qed.

(** A body is read whole when it comes with its length. *)
Lemma read_whole_body sent : read_body (Z.of_nat (length (chars sent))) sent = sent.
Proof. unfold read_body. rewrite (proj2 (Z.ltb_ge _ _)), Nat2Z.id, take_ge, text_chars by lia. done. Qed.


Lemma example_lines_clean : clean_lines example_lines.
Proof.
  split; [|split; by apply one_line_literal]. intros s. cbn. destruct (s =? 200); by apply one_line_literal.
Qed.

#[local] Existing Instance example_env.

