(* ===== verification/Prefetch.v ===== *)
(** * Prefetch of open interest

    runtime/open_interest_prefetch.py.  The states of the bars are shared objects: [pf_heap] holds
    them, the dictionary [pf_states] and the tasks refer to them by address.  A task runs in two
    atomic steps, up to its request on a thread and from the answer on; the event loop and the
    threads interleave them with the ticks in any order.  The semaphore is its count of free slots,
    and which of the waiting tasks gets a slot is left open.  What the supervisor and the gate
    answer is given by the step.  Log lines and cancellation at shutdown are left out. *)

From S2P Require Import Prelude PyStr DecimalValues Timeframes Identity Gaps Candles StreamState.
From S2P Require Import OpenInterest Storage AbsStore Ingest ImportWindow UseCase OpenInterestTrack RealtimeFacts PyFloat.

(** [_BarState] *)
Record BarState := mkBar {
  bs_open_ms : Z;
  bs_next_at_ms : Z;
  bs_stored : bool;
  bs_in_flight : bool;
  bs_attempts : Z;
  bs_last_error : option string
}.

(** A task of [_attempt]: its arguments, and whether its request is running. *)
Record PfTask := mkTask { tk_stream : StreamKey; tk_bar : nat; tk_step_ms : Z; tk_running : bool }.

Record Prefetch := mkPrefetch {
  pf_heap : list BarState;
  pf_states : gmap StreamKey nat;
  pf_slots : Z;
  pf_tasks : list PfTask
}.

Record PrefetchConfig := mkPfConfig { pc_streams : list StreamKey; pc_delay_ms : Z; pc_retry_ms : Z; pc_concurrency : Z }.

(** [__init__] *)
Definition PrefetchConfig_new (streams : list StreamKey) (delay_seconds retry_seconds : float) (concurrency : Z) :
    res PrefetchConfig :=
  delay_ms ← int_of_float (fmul delay_seconds (float_of_Z 1000));
  retry_ms ← int_of_float (fmul retry_seconds (float_of_Z 1000));
  _ ← raise_if (concurrency <? 0) ExcValueError "Semaphore initial value must be >= 0";
  mret (mkPfConfig streams delay_ms retry_ms concurrency).

Definition Prefetch_new (cfg : PrefetchConfig) : Prefetch := mkPrefetch [] ∅ (pc_concurrency cfg) [].

(** What a step reads of the clock, the admission gate and the supervisor. *)
Record View := mkView { vw_now : Z; vw_admitted : StreamKey → bool; vw_facts : StreamKey → res RealtimeStreamFacts }.

(** [_eligible] *)
Definition eligible (v : View) (k : StreamKey) : res bool :=
  if negb (vw_admitted v k) then mret false
  else facts ← vw_facts v k; mret (f_subscription_active facts && negb (f_recovery_pending facts)).

(** A reference is never dangling: the default is not reached. *)
Definition bar_at (p : Prefetch) (a : nat) : BarState := default (mkBar 0 0 false false 0 None) (pf_heap p !! a).
Definition on_bar (a : nat) (f : BarState → BarState) (p : Prefetch) : Prefetch :=
  mkPrefetch (alter f a (pf_heap p)) (pf_states p) (pf_slots p) (pf_tasks p).

Definition launch_bar (next_at_ms : Z) (b : BarState) : BarState :=
  mkBar (bs_open_ms b) next_at_ms (bs_stored b) true (bs_attempts b) (bs_last_error b).
Definition land_bar (b : BarState) : BarState :=
  mkBar (bs_open_ms b) (bs_next_at_ms b) (bs_stored b) false (bs_attempts b) (bs_last_error b).
Definition count_attempt (b : BarState) : BarState :=
  mkBar (bs_open_ms b) (bs_next_at_ms b) (bs_stored b) (bs_in_flight b) (bs_attempts b + 1) (bs_last_error b).
Definition record_answer (r : res bool) (b : BarState) : BarState :=
  match r with
  | Raise e => mkBar (bs_open_ms b) (bs_next_at_ms b) (bs_stored b) (bs_in_flight b) (bs_attempts b)
                     (Some (class_name (exn_cls e) +:+ ": " +:+ exn_str e))
  | Ok stored => mkBar (bs_open_ms b) (bs_next_at_ms b) (bs_stored b || stored) (bs_in_flight b) (bs_attempts b)
                       (if stored then None else Some "not published yet"%string)
  end.

(** [_state_for] *)
Definition state_for (cfg : PrefetchConfig) (k : StreamKey) (open_ms : Z) (p : Prefetch) : nat * Prefetch :=
  let fresh :=
    (length (pf_heap p),
     mkPrefetch (pf_heap p ++ [mkBar open_ms (open_ms + pc_delay_ms cfg) false false 0 None])
       (<[k := length (pf_heap p)]> (pf_states p)) (pf_slots p) (pf_tasks p)) in
  match pf_states p !! k with
  | Some a => if bs_open_ms (bar_at p a) =? open_ms then (a, p) else fresh
  | None => fresh
  end.

(** What is seen of a run: the tasks that [asyncio.create_task] gets, and the calls of [append] with
    their answers. *)
Inductive PfEvent :=
| AttemptLaunched (k : StreamKey) (open_ms : Z) (v : View)
| AppendCalled (k : StreamKey) (open_ms : Z) (v : View)
| AppendReturned (k : StreamKey) (open_ms : Z) (r : res bool).

(** The body of the loop of [tick]: the task it creates, how it ends, the state. *)
Definition tick_stream (cfg : PrefetchConfig) (v : View) (k : StreamKey) (p : Prefetch) :
    list PfEvent * res () * Prefetch :=
  let step_ms := stream_step k in
  match align_to_grid (vw_now v) step_ms with
  | Raise e => ([], Raise e, p)
  | Ok open_ms =>
      let '(a, p) := state_for cfg k open_ms p in
      let state := bar_at p a in
      if bs_stored state || bs_in_flight state || (vw_now v <? bs_next_at_ms state) then ([], Ok (), p)
      else match eligible v k with
           | Raise e => ([], Raise e, p)
           | Ok false => ([], Ok (), p)
           | Ok true =>
               let p := on_bar a (launch_bar (vw_now v + pc_retry_ms cfg)) p in
               ([AttemptLaunched k (bs_open_ms state) v], Ok (),
                mkPrefetch (pf_heap p) (pf_states p) (pf_slots p) (pf_tasks p ++ [mkTask k a step_ms false]))
           end
  end.

Fixpoint tick_streams (cfg : PrefetchConfig) (v : View) (ks : list StreamKey) (p : Prefetch) :
    list PfEvent * res () * Prefetch :=
  match ks with
  | [] => ([], Ok (), p)
  | k :: ks => match tick_stream cfg v k p with
               | (es, Ok _, p) => let '(es', r, p) := tick_streams cfg v ks p in (es ++ es', r, p)
               | (es, Raise e, p) => (es, Raise e, p)
               end
  end.

Definition tick (cfg : PrefetchConfig) (v : View) : Prefetch → list PfEvent * res () * Prefetch :=
  tick_streams cfg v (pc_streams cfg).

(** The end of a task: the [finally] of [_attempt]. *)
Definition end_task (i : nat) (t : PfTask) (p : Prefetch) : Prefetch :=
  let p := on_bar (tk_bar t) land_bar p in
  mkPrefetch (pf_heap p) (pf_states p) (pf_slots p) (delete i (pf_tasks p)).

Definition set_slots (n : Z) (p : Prefetch) : Prefetch := mkPrefetch (pf_heap p) (pf_states p) n (pf_tasks p).

(** [_attempt] up to its request; [None] when the task cannot take this step. *)
Definition attempt_start (i : nat) (v : View) (p : Prefetch) : option (list PfEvent * Prefetch) :=
  match pf_tasks p !! i with
  | Some t =>
      if tk_running t || (pf_slots p <=? 0) then None
      else
        let state := bar_at p (tk_bar t) in
        if bs_stored state || (bs_open_ms state + tk_step_ms t <=? vw_now v) then Some ([], end_task i t p)
        else match eligible v (tk_stream t) with
             | Ok true =>
                 let p := on_bar (tk_bar t) count_attempt p in
                 Some ([AppendCalled (tk_stream t) (bs_open_ms state) v],
                       mkPrefetch (pf_heap p) (pf_states p) (pf_slots p - 1)
                         (<[i := mkTask (tk_stream t) (tk_bar t) (tk_step_ms t) true]> (pf_tasks p)))
             | _ => Some ([], end_task i t p)
             end
  | None => None
  end.

(** [_attempt] from the answer of its request. *)
Definition attempt_finish (i : nat) (r : res bool) (p : Prefetch) : option (list PfEvent * Prefetch) :=
  match pf_tasks p !! i with
  | Some t =>
      if tk_running t then
        let p1 := on_bar (tk_bar t) (record_answer r) p in
        Some ([AppendReturned (tk_stream t) (bs_open_ms (bar_at p (tk_bar t))) r],
              end_task i t (set_slots (pf_slots p + 1) p1))
      else None
  | None => None
  end.

Inductive PfStep :=
| PfTick (v : View)
| AttemptStart (i : nat) (v : View)
| AttemptFinish (i : nat) (r : res bool).

(** A tick that raises ends the loop; the steps that may follow it are among those of any other. *)
Definition pf_step (cfg : PrefetchConfig) (s : PfStep) (p : Prefetch) : option (list PfEvent * Prefetch) :=
  match s with
  | PfTick v => let '(es, _, p) := tick cfg v p in Some (es, p)
  | AttemptStart i v => attempt_start i v p
  | AttemptFinish i r => attempt_finish i r p
  end.

Fixpoint pf_run (cfg : PrefetchConfig) (ss : list PfStep) (p : Prefetch) : option (list PfEvent * Prefetch) :=
  match ss with
  | [] => Some ([], p)
  | s :: ss => '(evs, p) ← pf_step cfg s p; '(evs', p) ← pf_run cfg ss p; Some (evs ++ evs', p)
  end.

(** The reading of the clock of a step. *)
Definition reading (s : PfStep) : option Z :=
  match s with PfTick v | AttemptStart _ v => Some (vw_now v) | AttemptFinish _ _ => None end.

(** The last reading of a run, when the clock never goes back. *)
Fixpoint clock_after (clock : Z) (ss : list PfStep) : option Z :=
  match ss with
  | [] => Some clock
  | s :: ss => match reading s with
               | Some t => if clock <=? t then clock_after t ss else None
               | None => clock_after clock ss
               end
  end.

(** ** Facts: counting *)

Definition count {A} (f : A → bool) (l : list A) : Z := Z.of_nat (length (filter (λ x, f x = true) l)).

Section count.
Context {A : Type} (f : A → bool).

Lemma count_cons x l : count f (x :: l) = (if f x then 1 else 0) + count f l.
Proof.
  unfold count. destruct (f x) eqn:E.
  - rewrite (filter_cons_True (λ x, f x = true)) by done. cbn [length]. lia.
  - by rewrite (filter_cons_False (λ x, f x = true)) by (by rewrite E).
Qed.
Lemma count_app l l' : count f (l ++ l') = count f l + count f l'.
Proof. unfold count. rewrite filter_app, length_app. lia. Qed.
Lemma count_one x : count f [x] = if f x then 1 else 0.
Proof. rewrite count_cons. unfold count. cbn. lia. Qed.
Lemma count_nonneg l : 0 ≤ count f l.
Proof. unfold count. lia. Qed.

Lemma count_delete l i x : l !! i = Some x → count f (delete i l) = count f l - if f x then 1 else 0.
Proof.
  intros H. rewrite <-(take_drop_middle l i x H) at 2. rewrite delete_take_drop, !count_app, count_cons. lia.
Qed.

Lemma count_insert l i x y :
  l !! i = Some x → count f (<[i := y]> l) = count f l - (if f x then 1 else 0) + if f y then 1 else 0.
Proof.
  intros H. rewrite <-(take_drop_middle l i x H) at 2. rewrite insert_take_drop by by eapply lookup_lt_Some.
  rewrite !count_app, !count_cons. lia.
Qed.

Lemma count_positive l x : x ∈ l → f x = true → 1 ≤ count f l.
Proof.
  intros (l1 & l2 & ->)%list_elem_of_split H. rewrite count_app, count_cons, H.
  pose proof (count_nonneg l1). pose proof (count_nonneg l2). lia.
Qed.

Lemma count_zero l : (∀ x, x ∈ l → f x = false) → count f l = 0.
Proof.
  intros H. induction l as [|x l IH]; [done|]. rewrite count_cons, H by (by left). rewrite IH; [done|].
  intros y Hy. apply H. by right.
Qed.
End count.

Lemma count_le {A} (f g : A → bool) l : (∀ x, g x = true → f x = true) → count g l ≤ count f l.
Proof.
  intros H. induction l as [|x l IH]; [done|]. rewrite !count_cons. specialize (H x).
  destruct (g x); [rewrite H by done|destruct (f x)]; lia.
Qed.

(** ** What a history of requests must be like *)

Definition ev_stream (e : PfEvent) : StreamKey :=
  match e with AttemptLaunched k _ _ | AppendCalled k _ _ | AppendReturned k _ _ => k end.
Definition ev_open (e : PfEvent) : Z :=
  match e with AttemptLaunched _ o _ | AppendCalled _ o _ | AppendReturned _ o _ => o end.
Definition is_launch (e : PfEvent) : bool := match e with AttemptLaunched _ _ _ => true | _ => false end.
Definition is_call (e : PfEvent) : bool := match e with AppendCalled _ _ _ => true | _ => false end.
Definition is_return (e : PfEvent) : bool := match e with AppendReturned _ _ _ => true | _ => false end.
Definition of_bar (k : StreamKey) (o : Z) (e : PfEvent) : bool := bool_decide (ev_stream e = k) && (ev_open e =? o).
Definition calls_of (k : StreamKey) (o : Z) : list PfEvent → Z := count (λ e, is_call e && of_bar k o e).
Definition returns_of (k : StreamKey) (o : Z) : list PfEvent → Z := count (λ e, is_return e && of_bar k o e).
Definition launches_of (k : StreamKey) (o : Z) : list PfEvent → Z := count (λ e, is_launch e && of_bar k o e).
(** The requests that run. *)
Definition outstanding (evs : list PfEvent) : Z := count is_call evs - count is_return evs.

(** An attempt for the point of the bar [open_ms] is launched in order, after the history [before]. *)
Record allowed_launch (cfg : PrefetchConfig) (before : list PfEvent) (k : StreamKey) (open_ms : Z) (v : View) : Prop := {
  al_stream : k ∈ pc_streams cfg;
  al_grid : (stream_step k | open_ms);
  al_bar : open_ms + pc_delay_ms cfg ≤ vw_now v < open_ms + stream_step k;
  al_eligible : eligible v k = Ok true;
  al_fresh : AppendReturned k open_ms (Ok true) ∉ before;
  al_alone : calls_of k open_ms before = returns_of k open_ms before;
  al_spaced : ∀ v', AttemptLaunched k open_ms v' ∈ before → vw_now v' + pc_retry_ms cfg ≤ vw_now v
}.

(** A request for the point of the bar [open_ms] is in order, after the history [before]. *)
Record allowed_call (cfg : PrefetchConfig) (before : list PfEvent) (k : StreamKey) (open_ms : Z) (v : View) : Prop := {
  ac_stream : k ∈ pc_streams cfg;
  ac_grid : (stream_step k | open_ms);
  ac_bar : open_ms + pc_delay_ms cfg ≤ vw_now v < open_ms + stream_step k;
  ac_eligible : eligible v k = Ok true;
  ac_fresh : AppendReturned k open_ms (Ok true) ∉ before;
  ac_alone : calls_of k open_ms before = returns_of k open_ms before;
  ac_slot : outstanding before < pc_concurrency cfg;
  ac_launched : calls_of k open_ms before < launches_of k open_ms before;
  ac_budget : pc_retry_ms cfg * calls_of k open_ms before < stream_step k - pc_delay_ms cfg
}.

(** ** The invariant

    [owner] names the stream of each bar in the heap. *)

Definition task_of (a : nat) (t : PfTask) : bool := (tk_bar t =? a)%nat.
Definition running_of (a : nat) (t : PfTask) : bool := task_of a t && tk_running t.

Record bar_inv (cfg : PrefetchConfig) (k : StreamKey) (a : nat) (b : BarState) (clock : Z) (evs : list PfEvent)
    (tasks : list PfTask) : Prop := {
  bi_stream : k ∈ pc_streams cfg;
  bi_grid : (stream_step k | bs_open_ms b);
  bi_clock : bs_open_ms b ≤ clock;
  bi_flight : count (task_of a) tasks = if bs_in_flight b then 1 else 0;
  bi_calls : calls_of k (bs_open_ms b) evs = bs_attempts b;
  bi_returns : calls_of k (bs_open_ms b) evs - returns_of k (bs_open_ms b) evs = count (running_of a) tasks;
  bi_stored : bs_stored b = false → AppendReturned k (bs_open_ms b) (Ok true) ∉ evs;
  bi_rest : bs_stored b = true → bs_in_flight b = false;
  bi_launched : bs_in_flight b = true →
    bs_open_ms b + pc_delay_ms cfg ≤ clock ∧
    bs_next_at_ms b < bs_open_ms b + stream_step k + pc_retry_ms cfg;
  bi_budget : pc_retry_ms cfg * (bs_attempts b + count (task_of a) tasks - count (running_of a) tasks) ≤
              bs_next_at_ms b - bs_open_ms b - pc_delay_ms cfg;
  bi_launches : calls_of k (bs_open_ms b) evs + count (task_of a) tasks - count (running_of a) tasks ≤
                launches_of k (bs_open_ms b) evs;
  bi_spaced : ∀ v, AttemptLaunched k (bs_open_ms b) v ∈ evs → vw_now v + pc_retry_ms cfg ≤ bs_next_at_ms b
}.

Record pf_inv (cfg : PrefetchConfig) (owner : list StreamKey) (clock : Z) (evs : list PfEvent) (p : Prefetch) : Prop := {
  iv_owner : length owner = length (pf_heap p);
  iv_current : ∀ k a, pf_states p !! k = Some a → owner !! a = Some k;
  iv_known : ∀ a k, owner !! a = Some k → ∃ a0, pf_states p !! k = Some a0 ∧ (a ≤ a0)%nat;
  iv_order : ∀ a a' k, (a < a')%nat → owner !! a = Some k → owner !! a' = Some k →
    bs_open_ms (bar_at p a) < bs_open_ms (bar_at p a');
  iv_bar : ∀ a k, owner !! a = Some k → bar_inv cfg k a (bar_at p a) clock evs (pf_tasks p);
  iv_tasks : ∀ t, t ∈ pf_tasks p → owner !! tk_bar t = Some (tk_stream t) ∧ tk_step_ms t = stream_step (tk_stream t);
  iv_slots : pf_slots p + count tk_running (pf_tasks p) = pc_concurrency cfg;
  iv_outstanding : outstanding evs = count tk_running (pf_tasks p);
  iv_events : ∀ e, e ∈ evs → ∃ a, owner !! a = Some (ev_stream e) ∧ bs_open_ms (bar_at p a) = ev_open e
}.

Section invariant.
Context (cfg : PrefetchConfig).
Hypothesis Hretry : 0 ≤ pc_retry_ms cfg.

Lemma pf_inv_new clock : pf_inv cfg [] clock [] (Prefetch_new cfg).
Proof.
  split; try (by intros ? ?%elem_of_nil); try done. cbn [Prefetch_new pf_slots pf_tasks]. unfold count. cbn. lia.
Qed.

Lemma pf_inv_clock owner clock clock' evs p : clock ≤ clock' → pf_inv cfg owner clock evs p → pf_inv cfg owner clock' evs p.
Proof.
  intros Hc [H1 H2 H3 H4 H5 H6 H7 H8 H9]. split; try done. intros a k Ha. destruct (H5 a k Ha). split; try done; [lia|].
  intros Hf. destruct (bi_launched0 Hf). lia.
Qed.

Lemma bar_at_on_bar a a' f p :
  bar_at (on_bar a f p) a' = if (decide (a = a' ∧ (a < length (pf_heap p))%nat)) then f (bar_at p a') else bar_at p a'.
Proof.
  unfold bar_at, on_bar. cbn [pf_heap]. destruct (decide (a = a')) as [->|Hne].
  - rewrite list_lookup_alter_eq. destruct (pf_heap p !! a') as [b|] eqn:E; cbn [fmap option_fmap option_map default].
    + apply lookup_lt_Some in E. case_decide as Hd; [done|]. by destruct Hd.
    + apply lookup_ge_None in E. case_decide as Hd; [|done]. destruct Hd. lia.
  - rewrite list_lookup_alter_ne by done. case_decide as Hd; [|done]. by destruct Hd.
Qed.

Lemma of_bar_other k k' o o' (es : list PfEvent) e :
  (∀ e, e ∈ es → ev_stream e = k ∧ ev_open e = o) → k ≠ k' ∨ o ≠ o' → e ∈ es → of_bar k' o' e = false.
Proof.
  intros H Hne He. unfold of_bar. destruct (H e He) as [-> ->]. apply andb_false_iff.
  destruct Hne; [left; by apply bool_decide_eq_false|right; by apply Z.eqb_neq].
Qed.

(** A step on one bar [a]: its state, its task and its events. *)
Lemma pf_inv_on_bar owner clock evs p a k f tasks slots es :
  pf_inv cfg owner clock evs p → owner !! a = Some k →
  (∀ b, bs_open_ms (f b) = bs_open_ms b) →
  (∀ e, e ∈ es → ev_stream e = k ∧ ev_open e = bs_open_ms (bar_at p a)) →
  (∀ a', a' ≠ a → count (task_of a') tasks = count (task_of a') (pf_tasks p) ∧
                   count (running_of a') tasks = count (running_of a') (pf_tasks p)) →
  bar_inv cfg k a (f (bar_at p a)) clock (evs ++ es) tasks →
  (∀ t, t ∈ tasks → t ∈ pf_tasks p ∨ (tk_bar t = a ∧ tk_stream t = k ∧ tk_step_ms t = stream_step k)) →
  slots + count tk_running tasks = pc_concurrency cfg →
  outstanding (evs ++ es) = count tk_running tasks →
  pf_inv cfg owner clock (evs ++ es) (mkPrefetch (pf_heap (on_bar a f p)) (pf_states p) slots tasks).
Proof.
  intros [H1 H2 H3 H4 H5 H6 H7 H8 H9] Ha Hopen Hes Hother Hbar Htasks Hslots Hout.
  set (p' := mkPrefetch _ _ _ _). assert (Hlt : (a < length (pf_heap p))%nat).
  { rewrite <-H1. by eapply lookup_lt_Some. }
  assert (Hat : ∀ a', bar_at p' a' = if decide (a = a') then f (bar_at p a') else bar_at p a').
  { intros a'. change (bar_at p' a') with (bar_at (on_bar a f p) a'). rewrite bar_at_on_bar.
    destruct (decide (a = a')) as [->|Hne]; destruct (decide _) as [[? ?]|Hn]; try done. by destruct Hn. }
  assert (Ho : ∀ a', bs_open_ms (bar_at p' a') = bs_open_ms (bar_at p a')).
  { intros a'. rewrite Hat. by destruct (decide (a = a')); [rewrite Hopen|]. }
  split; [|exact H2|exact H3| | | |exact Hslots|exact Hout|].
  - cbn [p' pf_heap]. unfold on_bar. cbn [pf_heap]. by rewrite length_alter.
  - intros a1 a2 k' Hlt' Ha1 Ha2. rewrite !Ho. by eapply H4.
  - intros a' k' Ha'. rewrite Hat. destruct (decide (a = a')) as [<-|Hne].
    { assert (k' = k) as -> by congruence. exact Hbar. }
    assert (Hdiff : k ≠ k' ∨ bs_open_ms (bar_at p a) ≠ bs_open_ms (bar_at p a')).
    { destruct (decide (k = k')) as [<-|]; [right|by left]. destruct (Nat.lt_total a a') as [Hl|[Hl|Hl]]; [|done|].
      - pose proof (H4 _ _ _ Hl Ha Ha'). lia.
      - pose proof (H4 _ _ _ Hl Ha' Ha). lia. }
    destruct (Hother a' (not_eq_sym Hne)) as [Ht Hr]. destruct (H5 a' k' Ha').
    assert (Hz : ∀ g, count (λ e, g e && of_bar k' (bs_open_ms (bar_at p a')) e) es = 0).
    { intros g. apply count_zero. intros e He. by rewrite (of_bar_other _ _ _ _ es e Hes Hdiff He), andb_false_r. }
    split; try done; cbn [p' pf_tasks]; unfold calls_of, returns_of, launches_of in *; rewrite ?count_app, ?Hz, ?Ht, ?Hr; try lia.
    + intros Hs [He|He]%elem_of_app; [by eapply bi_stored0|]. destruct (Hes _ He) as [? ?]. cbn in *. by destruct Hdiff.
    + intros v [He|He]%elem_of_app; [by eapply bi_spaced0|]. destruct (Hes _ He) as [? ?]. cbn in *. by destruct Hdiff.
  - intros t Ht. destruct (Htasks t Ht) as [?|(-> & -> & ->)]; [by apply H6|done].
  - intros e [He|He]%elem_of_app.
    + destruct (H9 e He) as (a' & ? & ?). exists a'. by rewrite Ho.
    + destruct (Hes e He) as [-> ->]. exists a. by rewrite Ho.
Qed.

(** A new bar of a stream opens after those it had. *)
Lemma pf_inv_new_bar owner clock evs p k open_ms :
  pf_inv cfg owner clock evs p → k ∈ pc_streams cfg → (stream_step k | open_ms) → open_ms ≤ clock →
  (∀ a, owner !! a = Some k → bs_open_ms (bar_at p a) < open_ms) →
  let b := mkBar open_ms (open_ms + pc_delay_ms cfg) false false 0 None in
  pf_inv cfg (owner ++ [k]) clock evs
    (mkPrefetch (pf_heap p ++ [b]) (<[k := length (pf_heap p)]> (pf_states p)) (pf_slots p) (pf_tasks p)).
Proof.
  intros [H1 H2 H3 H4 H5 H6 H7 H8 H9] Hk Hgrid Hclock Hnew b. set (p' := mkPrefetch _ _ _ _).
  set (n := length (pf_heap p)) in *.
  assert (Hn : owner !! n = None) by (apply lookup_ge_None; lia).
  assert (Hown : ∀ a k', (owner ++ [k]) !! a = Some k' ↔ owner !! a = Some k' ∨ (a = n ∧ k' = k)).
  { intros a k'. rewrite lookup_app_Some. rewrite H1. fold n. split.
    - intros [?|[? Ha]]; [by left|]. right. destruct (a - n)%nat as [|m] eqn:E; [|by destruct m].
      injection Ha as <-. split; [lia|done].
    - intros [?|[-> ->]]; [by left|]. right. split; [lia|]. by rewrite Nat.sub_diag. }
  assert (Hold : ∀ a k', owner !! a = Some k' → bar_at p' a = bar_at p a).
  { intros a k' Ha. unfold bar_at. cbn [p' pf_heap]. rewrite lookup_app_l; [done|].
    apply lookup_lt_Some in Ha. subst n. lia. }
  assert (Hb : bar_at p' n = b).
  { unfold bar_at. cbn [p' pf_heap]. by rewrite lookup_app_r, Nat.sub_diag by done. }
  assert (Hlt : ∀ a k', owner !! a = Some k' → (a < n)%nat).
  { intros a k' Ha. apply lookup_lt_Some in Ha. lia. }
  split; [|..|exact H7|exact H8|].
  - cbn [p' pf_heap]. rewrite !length_app. cbn. lia.
  - intros k' a. cbn [p' pf_states]. intros [[<- <-]|[Hne Ha]]%lookup_insert_Some; apply Hown; [by right|].
    left. by apply H2.
  - intros a k' [Ha|[-> ->]]%Hown; cbn [p' pf_states].
    + destruct (H3 a k' Ha) as (a0 & Hs & Hle). destruct (decide (k' = k)) as [->|Hne].
      * exists n. rewrite lookup_insert_eq. split; [done|]. apply Hlt in Ha. lia.
      * exists a0. by rewrite lookup_insert_ne.
    + exists n. by rewrite lookup_insert_eq.
  - intros a a' k' Haa [Ha|[-> ->]]%Hown [Ha'|[-> Hk']]%Hown.
    + rewrite (Hold _ _ Ha), (Hold _ _ Ha'). by eapply H4.
    + subst k'. rewrite (Hold _ _ Ha), Hb. by apply Hnew.
    + apply Hlt in Ha'. lia.
    + lia.
  - intros a k' [Ha|[-> ->]]%Hown; [rewrite (Hold _ _ Ha); by apply H5|]. rewrite Hb.
    assert (Hz : ∀ g, (∀ e, g e = true → of_bar k open_ms e = true) → count g evs = 0).
    { intros g Hg. apply count_zero. intros e He. destruct (g e) eqn:E; [|done]. apply Hg in E. unfold of_bar in E.
      apply andb_true_iff in E as [E1%bool_decide_eq_true E2%Z.eqb_eq].
      destruct (H9 e He) as (a & Ha & Ho). rewrite E1 in Ha. specialize (Hnew a Ha). lia. }
    assert (Ht : ∀ g, (∀ t, g t = true → task_of n t = true) → count g (pf_tasks p) = 0).
    { intros g Hg. apply count_zero. intros t Hin. destruct (g t) eqn:E; [|done]. apply Hg, Nat.eqb_eq in E.
      destruct (H6 t Hin) as [Ho _]. rewrite E in Ho. congruence. }
    assert (Hq : count (task_of n) (pf_tasks p) = 0) by (by apply Ht).
    assert (Hr : count (running_of n) (pf_tasks p) = 0) by (apply Ht; by intros t [? _]%andb_true_iff).
    split; cbn [b p' pf_tasks bs_open_ms bs_in_flight bs_stored bs_attempts bs_next_at_ms]; try done.
    + unfold calls_of. apply Hz. by intros e [_ ?]%andb_true_iff.
    + unfold calls_of, returns_of. rewrite !Hz by (by intros e [_ ?]%andb_true_iff). by rewrite Hr.
    + intros _ He. destruct (H9 _ He) as (a & Ha & Ho). cbn in Ha, Ho. specialize (Hnew a Ha). lia.
    + rewrite Hq, Hr. lia.
    + unfold calls_of, launches_of. rewrite !Hz, Hq, Hr by (by intros e [_ ?]%andb_true_iff). lia.
    + intros v He. destruct (H9 _ He) as (a & Ha & Ho). cbn in Ha, Ho. specialize (Hnew a Ha). lia.
  - intros t Ht. destruct (H6 t Ht). split; [apply Hown; by left|done].
  - intros e He. destruct (H9 e He) as (a & Ha & Ho). exists a. split; [apply Hown; by left|]. by rewrite (Hold _ _ Ha).
Qed.

(** The bar of the current grid interval, and that no other is open. *)
Lemma state_for_inv owner clock evs p k open_ms a p' :
  pf_inv cfg owner clock evs p → k ∈ pc_streams cfg → align_to_grid clock (stream_step k) = Ok open_ms →
  state_for cfg k open_ms p = (a, p') →
  ∃ owner', pf_inv cfg owner' clock evs p' ∧ owner' !! a = Some k ∧ bs_open_ms (bar_at p' a) = open_ms ∧
    pf_states p' !! k = Some a.
Proof.
  intros Hi Hk. pose proof (stream_step_pos k) as Hpos. rewrite align_to_grid_ok by done. intros [= <-].
  set (o := clock - clock mod stream_step k). assert (Hg : (stream_step k | o)).
  { exists (clock / stream_step k). unfold o. pose proof (Z.div_mod clock (stream_step k) ltac:(lia)). lia. }
  assert (Ho : o ≤ clock < o + stream_step k).
  { unfold o. pose proof (Z.mod_pos_bound clock _ Hpos). lia. }
  unfold state_for. cbv zeta. assert (Hfresh : (∀ a, owner !! a = Some k → bs_open_ms (bar_at p a) < o) →
    (length (pf_heap p), mkPrefetch (pf_heap p ++ [mkBar o (o + pc_delay_ms cfg) false false 0 None])
       (<[k := length (pf_heap p)]> (pf_states p)) (pf_slots p) (pf_tasks p)) = (a, p') →
    ∃ owner', pf_inv cfg owner' clock evs p' ∧ owner' !! a = Some k ∧ bs_open_ms (bar_at p' a) = o ∧
      pf_states p' !! k = Some a).
  { intros Hnew [= <- <-]. exists (owner ++ [k]).
    split; [by apply pf_inv_new_bar; try lia|]. split; [|split].
    - rewrite <-(iv_owner _ _ _ _ _ Hi), lookup_app_r, Nat.sub_diag by done. done.
    - unfold bar_at. cbn [pf_heap]. by rewrite lookup_app_r, Nat.sub_diag by done.
    - cbn [pf_states]. by rewrite lookup_insert_eq. }
  destruct (pf_states p !! k) as [a0|] eqn:Ha0.
  - destruct (Z.eqb_spec (bs_open_ms (bar_at p a0)) o) as [Heq|Hne].
    { intros [= <- <-]. exists owner. split; [done|]. split; [by apply (iv_current _ _ _ _ _ Hi)|done]. }
    apply Hfresh. intros a1 Ha1. destruct (iv_known _ _ _ _ _ Hi a1 k Ha1) as (a2 & Ha2 & Hle).
    assert (a2 = a0) as -> by congruence. pose proof (iv_current _ _ _ _ _ Hi k a0 Ha0) as Hown.
    destruct (iv_bar _ _ _ _ _ Hi a0 k Hown) as [_ [m Hm] Hc _ _ _ _ _ _ _ _ _].
    assert (Hlt : bs_open_ms (bar_at p a0) < o).
    { destruct Hg as [m' Hm']. assert (m * stream_step k < (m' + 1) * stream_step k) by lia.
      assert (m < m' + 1) by (by apply (Z.mul_lt_mono_pos_r (stream_step k))).
      assert (m ≠ m') by (intros ->; lia). rewrite Hm, Hm'. apply Z.mul_lt_mono_pos_r; lia. }
    destruct (decide (a1 = a0)) as [->|Hd]; [done|]. pose proof (iv_order _ _ _ _ _ Hi a1 a0 k ltac:(lia) Ha1 Hown). lia.
  - apply Hfresh. intros a1 Ha1. destruct (iv_known _ _ _ _ _ Hi a1 k Ha1) as (a2 & Ha2 & _). congruence.
Qed.
(** What one bar and its tasks add up to. *)
Lemma bar_counts k a b clock evs tasks :
  bar_inv cfg k a b clock evs tasks →
  0 ≤ bs_attempts b ∧ 0 ≤ count (running_of a) tasks ≤ count (task_of a) tasks.
Proof.
  intros [_ _ _ _ Hc _ _ _ _ _ _ _]. rewrite <-Hc. split; [apply count_nonneg|]. split; [apply count_nonneg|].
  apply count_le. by intros t [? _]%andb_true_iff.
Qed.

Lemma task_of_other a a' k step r : a' ≠ a → task_of a' (mkTask k a step r) = false.
Proof. intros H. apply Nat.eqb_neq. cbn. congruence. Qed.
Lemma task_of_self k a step r : task_of a (mkTask k a step r) = true.
Proof. apply Nat.eqb_refl. Qed.

Lemma of_bar_self e : of_bar (ev_stream e) (ev_open e) e = true.
Proof. unfold of_bar. rewrite bool_decide_true by done. apply Z.eqb_refl. Qed.

Lemma launch_inv owner clock evs p a k v :
  pf_inv cfg owner clock evs p → owner !! a = Some k → bs_stored (bar_at p a) = false →
  bs_in_flight (bar_at p a) = false → vw_now v = clock →
  bs_next_at_ms (bar_at p a) ≤ clock < bs_open_ms (bar_at p a) + stream_step k → eligible v k = Ok true →
  let p1 := on_bar a (launch_bar (clock + pc_retry_ms cfg)) p in
  pf_inv cfg owner clock (evs ++ [AttemptLaunched k (bs_open_ms (bar_at p a)) v])
    (mkPrefetch (pf_heap p1) (pf_states p1) (pf_slots p1) (pf_tasks p1 ++ [mkTask k a (stream_step k) false])) ∧
  allowed_launch cfg evs k (bs_open_ms (bar_at p a)) v.
Proof.
  intros Hi Ha Hs Hf Hv Hn He p1. pose proof (iv_bar _ _ _ _ _ Hi a k Ha) as Hb.
  destruct (bar_counts _ _ _ _ _ _ Hb) as [Hatt [Hr0 Hr]].
  destruct Hb as [B1 B2 B3 B4 B5 B6 B7 B8 B9 B10 B11 B12]. rewrite Hf in B4. set (b := bar_at p a) in *.
  set (e := AttemptLaunched k (bs_open_ms b) v). pose proof (of_bar_self e) as Hof. cbn [e ev_stream ev_open] in Hof.
  assert (Hd : bs_open_ms b + pc_delay_ms cfg ≤ clock) by nia. split.
  { apply (pf_inv_on_bar owner clock evs p a k (launch_bar (clock + pc_retry_ms cfg)) _ _ [e]); try done;
      cbn [p1 on_bar pf_tasks pf_slots].
    - by intros e' ->%list_elem_of_singleton.
    - intros a' Hne. rewrite !count_app, !count_one. unfold running_of. rewrite task_of_other by done. cbn. lia.
    - fold b. split; cbn [launch_bar bs_open_ms bs_in_flight bs_stored bs_attempts bs_next_at_ms]; try done;
        unfold calls_of, returns_of, launches_of in *;
        rewrite ?count_app, ?count_one, ?Hof; unfold running_of in *; rewrite ?task_of_self;
        cbn [tk_running is_call is_return is_launch e andb].
      + lia.
      + rewrite B5. lia.
      + lia.
      + intros _ [Hin|Hin]%elem_of_app; [by apply B7|]. by apply list_elem_of_singleton in Hin.
      + by rewrite Hs.
      + intros _. lia.
      + nia.
      + lia.
      + intros v' [Hin|Hin]%elem_of_app; [specialize (B12 v' Hin); lia|].
        apply list_elem_of_singleton in Hin. injection Hin as ->. lia.
    - intros t [Ht|Ht]%elem_of_app; [by left|]. apply list_elem_of_singleton in Ht as ->. by right.
    - rewrite count_app, count_one. cbn [tk_running]. pose proof (iv_slots _ _ _ _ _ Hi). lia.
    - unfold outstanding. rewrite !count_app, !count_one. cbn [tk_running is_call is_return e].
      pose proof (iv_outstanding _ _ _ _ _ Hi) as Ho. unfold outstanding in Ho. lia. }
  split; try done.
  - lia.
  - by apply B7.
  - lia.
  - intros v' Hin. specialize (B12 v' Hin). lia.
Qed.

Lemma task_of_own t : task_of (tk_bar t) t = true.
Proof. apply Nat.eqb_refl. Qed.
Lemma running_of_own t : running_of (tk_bar t) t = tk_running t.
Proof. unfold running_of. by rewrite task_of_own. Qed.
Lemma task_changed a t : a ≠ tk_bar t → task_of a t = false ∧ running_of a t = false.
Proof. intros H. assert (E : task_of a t = false) by (apply Nat.eqb_neq; congruence). unfold running_of. by rewrite E. Qed.

(** A task that is taken out of the list, or replaced in it. *)
Lemma task_counts owner clock evs p i t :
  pf_inv cfg owner clock evs p → pf_tasks p !! i = Some t →
  owner !! tk_bar t = Some (tk_stream t) ∧ tk_step_ms t = stream_step (tk_stream t) ∧
  bs_in_flight (bar_at p (tk_bar t)) = true ∧ count (task_of (tk_bar t)) (pf_tasks p) = 1 ∧
  count (running_of (tk_bar t)) (pf_tasks p) = (if tk_running t then 1 else 0).
Proof.
  intros Hi Ht. pose proof (list_elem_of_lookup_2 _ _ _ Ht) as Hin. destruct (iv_tasks _ _ _ _ _ Hi t Hin) as [Ho Hstep].
  pose proof (iv_bar _ _ _ _ _ Hi _ _ Ho) as Hb. destruct (bar_counts _ _ _ _ _ _ Hb) as [_ [Hr0 Hr]].
  pose proof (bi_flight _ _ _ _ _ _ _ Hb) as Hf. pose proof (count_positive (task_of (tk_bar t)) _ t Hin (Nat.eqb_refl _)).
  split; [done|]. split; [done|]. destruct (bs_in_flight (bar_at p (tk_bar t))) eqn:E; [|lia]. split; [done|]. split; [done|].
  pose proof (count_delete (task_of (tk_bar t)) _ i t Ht) as Hd1. rewrite task_of_own in Hd1.
  pose proof (count_delete (running_of (tk_bar t)) _ i t Ht) as Hd2. rewrite running_of_own in Hd2.
  assert (count (running_of (tk_bar t)) (delete i (pf_tasks p)) ≤ count (task_of (tk_bar t)) (delete i (pf_tasks p))).
  { apply count_le. by intros t' [? _]%andb_true_iff. }
  pose proof (count_nonneg (running_of (tk_bar t)) (delete i (pf_tasks p))). lia.
Qed.

Lemma elem_of_delete_list {A} (l : list A) i x : x ∈ delete i l → x ∈ l.
Proof. intros H. eapply elem_of_sublist; [exact H|apply sublist_delete]. Qed.

(** A queued task that ends without a request. *)
Lemma drop_inv owner clock evs p i t :
  pf_inv cfg owner clock evs p → pf_tasks p !! i = Some t → tk_running t = false →
  pf_inv cfg owner clock evs (end_task i t p).
Proof.
  intros Hi Ht Hrun. destruct (task_counts _ _ _ _ _ _ Hi Ht) as (Ho & Hstep & Hf & H1 & H2). rewrite Hrun in H2.
  pose proof (iv_bar _ _ _ _ _ Hi _ _ Ho) as Hb. destruct (bar_counts _ _ _ _ _ _ Hb) as [Hatt _].
  destruct Hb as [B1 B2 B3 B4 B5 B6 B7 B8 B9 B10 B11 B12]. unfold end_task.
  rewrite <-(app_nil_r evs). apply (pf_inv_on_bar owner clock evs p (tk_bar t) (tk_stream t) land_bar (delete i (pf_tasks p)) (pf_slots p) []);
    try done.
  - by intros ? ?%elem_of_nil.
  - intros a' Hne. rewrite !(count_delete _ _ i t Ht). destruct (task_changed a' t Hne) as [-> ->]. lia.
  - rewrite app_nil_r. split; cbn [land_bar bs_open_ms bs_in_flight bs_stored bs_attempts bs_next_at_ms]; try done;
      rewrite ?(count_delete _ _ i t Ht), ?task_of_own, ?running_of_own, ?Hrun, ?H1, ?H2.
    + done.
    + by rewrite B6, H2.
    + rewrite H1, H2 in B10. nia.
    + rewrite H1, H2 in B11. lia.
  - intros t' Ht'. left. by eapply elem_of_delete_list.
  - rewrite (count_delete _ _ i t Ht), Hrun. pose proof (iv_slots _ _ _ _ _ Hi). lia.
  - rewrite app_nil_r, (count_delete _ _ i t Ht), Hrun. pose proof (iv_outstanding _ _ _ _ _ Hi). lia.
Qed.
Lemma call_inv owner clock evs p i t v :
  pf_inv cfg owner clock evs p → pf_tasks p !! i = Some t → tk_running t = false → 0 < pf_slots p →
  let b := bar_at p (tk_bar t) in let p1 := on_bar (tk_bar t) count_attempt p in
  bs_stored b = false → vw_now v = clock → clock < bs_open_ms b + tk_step_ms t → eligible v (tk_stream t) = Ok true →
  pf_inv cfg owner clock (evs ++ [AppendCalled (tk_stream t) (bs_open_ms b) v])
    (mkPrefetch (pf_heap p1) (pf_states p1) (pf_slots p1 - 1)
       (<[i := mkTask (tk_stream t) (tk_bar t) (tk_step_ms t) true]> (pf_tasks p1))) ∧
  allowed_call cfg evs (tk_stream t) (bs_open_ms b) v.
Proof.
  intros Hi Ht Hrun Hslot b p1 Hs Hv Hnow He.
  destruct (task_counts _ _ _ _ _ _ Hi Ht) as (Ho & Hstep & Hf & H1 & H2). rewrite Hrun in H2.
  pose proof (iv_bar _ _ _ _ _ Hi _ _ Ho) as Hb. pose proof (iv_slots _ _ _ _ _ Hi) as Hsl.
  pose proof (iv_outstanding _ _ _ _ _ Hi) as Hout.
  destruct Hb as [B1 B2 B3 B4 B5 B6 B7 B8 B9 B10 B11 B12]. fold b in Hf, B2, B3, B4, B5, B6, B7, B8, B9, B10, B11, B12.
  destruct (B9 Hf) as [Hd Hn]. rewrite H1, H2 in B10. rewrite Hstep in Hnow. split.
  - set (k := tk_stream t) in *. set (a := tk_bar t) in *. set (e := AppendCalled k (bs_open_ms b) v).
    assert (Hown : task_of a t = true) by apply task_of_own. pose proof (running_of_own t) as Hrn. fold a in Hrn.
    pose proof (of_bar_self e) as Hof. cbn [e ev_stream ev_open] in Hof.
    apply (pf_inv_on_bar owner clock evs p a k count_attempt
             (<[i := mkTask k a (tk_step_ms t) true]> (pf_tasks p)) (pf_slots p - 1) [e]); try done.
    + by intros e' ->%list_elem_of_singleton.
    + intros a' Hne. rewrite !(count_insert _ _ i t _ Ht). destruct (task_changed a' t Hne) as [-> ->].
      destruct (task_changed a' (mkTask k a (tk_step_ms t) true) Hne) as [-> ->]. lia.
    + fold b. split; cbn [count_attempt bs_open_ms bs_in_flight bs_stored bs_attempts bs_next_at_ms]; try done;
        rewrite ?(count_insert _ _ i t _ Ht), ?Hown, ?Hrn, ?Hrun; unfold calls_of, returns_of, launches_of in *;
        rewrite ?count_app, ?count_one, ?Hof; cbn [is_call is_return is_launch e andb];
        rewrite ?H1, ?H2; change (task_of a (mkTask k a (tk_step_ms t) true)) with (a =? a)%nat;
        change (running_of a (mkTask k a (tk_step_ms t) true)) with ((a =? a)%nat && true); rewrite ?Nat.eqb_refl; cbn [andb].
      * by rewrite Hf.
      * lia.
      * lia.
      * intros _ [Hin|Hin]%elem_of_app; [by apply B7|]. by apply list_elem_of_singleton in Hin.
      * lia.
      * lia.
      * intros v' [Hin|Hin]%elem_of_app; [by apply B12|]. by apply list_elem_of_singleton in Hin.
    + intros t' [j Hj]%list_elem_of_lookup. apply list_lookup_insert_Some in Hj as [(_ & <- & _)|[_ Hj]]; [by right|].
      left. by eapply list_elem_of_lookup_2.
    + rewrite (count_insert _ _ i t _ Ht), Hrun. cbn [tk_running]. lia.
    + rewrite (count_insert _ _ i t _ Ht), Hrun. unfold outstanding in *. rewrite !count_app, !count_one. cbn. lia.
  - split; try done.
    + by rewrite Hv.
    + by apply B7.
    + lia.
    + lia.
    + lia.
    + rewrite B5. lia.
Qed.

Lemma finish_inv owner clock evs p i t r :
  pf_inv cfg owner clock evs p → pf_tasks p !! i = Some t → tk_running t = true →
  pf_inv cfg owner clock (evs ++ [AppendReturned (tk_stream t) (bs_open_ms (bar_at p (tk_bar t))) r])
    (end_task i t (set_slots (pf_slots p + 1) (on_bar (tk_bar t) (record_answer r) p))).
Proof.
  intros Hi Ht Hrun. destruct (task_counts _ _ _ _ _ _ Hi Ht) as (Ho & Hstep & Hf & H1 & H2). rewrite Hrun in H2.
  pose proof (iv_bar _ _ _ _ _ Hi _ _ Ho) as Hb. pose proof (iv_slots _ _ _ _ _ Hi) as Hsl.
  pose proof (iv_outstanding _ _ _ _ _ Hi) as Hout. destruct Hb as [B1 B2 B3 B4 B5 B6 B7 B8 B9 B10 B11 B12].
  set (k := tk_stream t) in *. set (a := tk_bar t) in *. set (b := bar_at p a) in *.
  set (e := AppendReturned k (bs_open_ms b) r).
  assert (Hown : task_of a t = true) by apply task_of_own. pose proof (running_of_own t) as Hrn. fold a in Hrn.
  pose proof (of_bar_self e) as Hof. cbn [e ev_stream ev_open] in Hof.
  assert (Hopen : ∀ b', bs_open_ms (land_bar (record_answer r b')) = bs_open_ms b') by (by destruct r).
  unfold end_task, set_slots. cbn [on_bar pf_heap pf_states pf_slots pf_tasks]. rewrite list_alter_alter_eq.
  apply (pf_inv_on_bar owner clock evs p a k (land_bar ∘ record_answer r) (delete i (pf_tasks p)) (pf_slots p + 1) [e]);
    try done.
  - by intros e' ->%list_elem_of_singleton.
  - intros a' Hne. rewrite !(count_delete _ _ i t Ht). destruct (task_changed a' t Hne) as [-> ->]. lia.
  - fold b. cbn [compose]. assert (Hs : bs_in_flight (land_bar (record_answer r b)) = false ∧
      bs_attempts (land_bar (record_answer r b)) = bs_attempts b ∧
      bs_next_at_ms (land_bar (record_answer r b)) = bs_next_at_ms b) by (by destruct r).
    destruct Hs as (S1 & S2 & S3). rewrite H1, H2 in B10.
    split; rewrite ?Hopen, ?S1, ?S2, ?S3; try done;
      rewrite ?(count_delete _ _ i t Ht), ?Hown, ?Hrn, ?Hrun; unfold calls_of, returns_of, launches_of in *;
      rewrite ?count_app, ?count_one, ?Hof; cbn [is_call is_return is_launch e andb]; rewrite ?H1, ?H2; try lia.
    + intros Hst [Hin|Hin]%elem_of_app.
      * apply B7; [|done]. destruct r as [[]|]; cbn in Hst; rewrite ?orb_true_r, ?orb_false_r in Hst; done.
      * apply list_elem_of_singleton in Hin. unfold e in Hin. injection Hin as <-. cbn in Hst. by rewrite orb_true_r in Hst.
    + intros v' [Hin|Hin]%elem_of_app; [by apply B12|]. by apply list_elem_of_singleton in Hin.
  - intros t' Ht'. left. by eapply elem_of_delete_list.
  - rewrite (count_delete _ _ i t Ht), Hrun. lia.
  - rewrite (count_delete _ _ i t Ht), Hrun. unfold outstanding in *. rewrite !count_app, !count_one. cbn. lia.
Qed.
(** ** Ticks *)

(** A stream that a tick leaves: its current bar is stored, in flight, waiting for its time, or the
    stream is not eligible. *)
Definition covered (v : View) (k : StreamKey) (p : Prefetch) : Prop :=
  ∃ a, pf_states p !! k = Some a ∧ align_to_grid (vw_now v) (stream_step k) = Ok (bs_open_ms (bar_at p a)) ∧
    (bs_stored (bar_at p a) = true ∨ bs_in_flight (bar_at p a) = true ∨ vw_now v < bs_next_at_ms (bar_at p a) ∨
     eligible v k = Ok false).

Lemma bar_at_app p b states slots tasks a :
  (a < length (pf_heap p))%nat → bar_at (mkPrefetch (pf_heap p ++ [b]) states slots tasks) a = bar_at p a.
Proof. intros H. unfold bar_at. cbn [pf_heap]. by rewrite lookup_app_l. Qed.

Lemma bar_at_lt owner clock evs p a k :
  pf_inv cfg owner clock evs p → owner !! a = Some k → (a < length (pf_heap p))%nat.
Proof. intros Hi Ha. rewrite <-(iv_owner _ _ _ _ _ Hi). by eapply lookup_lt_Some. Qed.

(** [state_for] keeps the bars of the other streams. *)
Lemma state_for_others owner clock evs p k open_ms a p' k' a' :
  pf_inv cfg owner clock evs p → state_for cfg k open_ms p = (a, p') → k' ≠ k → pf_states p !! k' = Some a' →
  pf_states p' !! k' = Some a' ∧ bar_at p' a' = bar_at p a'.
Proof.
  intros Hi Hs Hne Ha'. pose proof (bar_at_lt _ _ _ _ _ _ Hi (iv_current _ _ _ _ _ Hi _ _ Ha')) as Hlt.
  assert (Hkeep : p' = p ∨ p' = mkPrefetch (pf_heap p ++ [mkBar open_ms (open_ms + pc_delay_ms cfg) false false 0 None])
      (<[k := length (pf_heap p)]> (pf_states p)) (pf_slots p) (pf_tasks p)).
  { unfold state_for in Hs. destruct (pf_states p !! k); [destruct (_ =? _)|]; injection Hs as _ <-; auto. }
  destruct Hkeep as [-> | ->]; [done|]. cbn [pf_states]. rewrite lookup_insert_ne by done. by rewrite bar_at_app.
Qed.

(** The events a tick launches are in order, each after those before it. *)
Definition launches_allowed (v : View) (before es : list PfEvent) : Prop :=
  ∀ es1 e es2, es = es1 ++ e :: es2 → ∃ k o, e = AttemptLaunched k o v ∧ allowed_launch cfg (before ++ es1) k o v.

Lemma launches_allowed_nil v before : launches_allowed v before [].
Proof. by intros [|]. Qed.
Lemma launches_allowed_one v before k o :
  allowed_launch cfg before k o v → launches_allowed v before [AttemptLaunched k o v].
Proof.
  intros H es1 e es2 He. destruct es1 as [|? [|]]; [|done|done]. injection He as <- <-. exists k, o. by rewrite app_nil_r.
Qed.
Lemma launches_allowed_app v before es es' :
  launches_allowed v before es → launches_allowed v (before ++ es) es' → launches_allowed v before (es ++ es').
Proof.
  intros H H' es1 e es2 Heq. apply app_eq_inv in Heq as [(l & -> & Heq)|(l & -> & Heq)].
  - destruct l as [|x l]; cbn in Heq.
    + rewrite <-Heq in H'. rewrite app_nil_r in *. destruct (H' [] e es2 eq_refl) as (k & o & -> & Ha).
      rewrite app_nil_r in Ha. eauto.
    + injection Heq as <- _. by apply (H es1 e l).
  - destruct (H' l e es2 Heq) as (k & o & -> & Ha). rewrite <-app_assoc in Ha. eauto.
Qed.

Lemma tick_stream_inv owner evs p v k es r p' :
  pf_inv cfg owner (vw_now v) evs p → k ∈ pc_streams cfg → tick_stream cfg v k p = (es, r, p') →
  (∃ owner', pf_inv cfg owner' (vw_now v) (evs ++ es) p') ∧ launches_allowed v evs es ∧
  (r = Ok () → covered v k p') ∧ ∀ k', k' ≠ k → covered v k' p → covered v k' p'.
Proof.
  intros Hi Hk. unfold tick_stream. cbv zeta. pose proof (stream_step_pos k) as Hpos.
  destruct (align_to_grid _ _) as [o|e] eqn:Ho.
  2:{ intros [= <- <- <-]. rewrite app_nil_r. split; [by eexists|]. split; [apply launches_allowed_nil|done]. }
  destruct (state_for cfg k o p) as [a p1] eqn:Hs.
  destruct (state_for_inv _ _ _ _ _ _ _ _ Hi Hk Ho Hs) as (owner1 & Hi1 & Ha & Hopen & Hcur).
  assert (Hothers : ∀ k', k' ≠ k → covered v k' p → covered v k' p1 ∧ ∀ a', pf_states p1 !! k' = Some a' → a' ≠ a).
  { intros k' Hne (a' & Ha' & Hrest). destruct (state_for_others _ _ _ _ _ _ _ _ k' a' Hi Hs Hne Ha') as [Hs' Hb'].
    split; [exists a'; by rewrite Hb'|]. intros a2 Ha2 ->. pose proof (iv_current _ _ _ _ _ Hi1 _ _ Ha2). congruence. }
  assert (Hidle : bs_stored (bar_at p1 a) = true ∨ bs_in_flight (bar_at p1 a) = true ∨ vw_now v < bs_next_at_ms (bar_at p1 a) ∨
      eligible v k = Ok false → covered v k p1).
  { intros Hd. exists a. rewrite Hopen. auto. }
  assert (Hquiet : ∀ r', (r' = Ok () → covered v k p1) → ([] : list PfEvent, r', p1) = (es, r, p') →
    (∃ owner', pf_inv cfg owner' (vw_now v) (evs ++ es) p') ∧ launches_allowed v evs es ∧
    (r = Ok () → covered v k p') ∧ ∀ k', k' ≠ k → covered v k' p → covered v k' p').
  { intros r' Hr [= <- <- <-]. rewrite app_nil_r. split; [by exists owner1|]. split; [apply launches_allowed_nil|].
    split; [done|]. by intros k' Hne H; apply Hothers. }
  destruct (_ || _) eqn:Hc.
  { apply Hquiet. intros _. apply Hidle. apply orb_true_iff in Hc as [[?|?]%orb_true_iff|?%Z.ltb_lt]; auto. }
  apply orb_false_iff in Hc as [[Hst Hfl]%orb_false_iff Hdue%Z.ltb_ge].
  destruct (eligible v k) as [[]|e] eqn:He; [|by apply Hquiet; auto|by apply Hquiet].
  intros [= <- <- <-].
  assert (Hnow : vw_now v < o + stream_step k).
  { rewrite align_to_grid_ok in Ho by done. injection Ho as <-. pose proof (Z.mod_pos_bound (vw_now v) _ Hpos). lia. }
  destruct (launch_inv owner1 (vw_now v) evs p1 a k v Hi1 Ha Hst Hfl eq_refl ltac:(rewrite Hopen; lia) He) as [Hi2 Hal].
  split; [by exists owner1|]. split; [by apply launches_allowed_one|].
  assert (Hbar : ∀ a' slots tasks, bar_at (mkPrefetch (pf_heap (on_bar a (launch_bar (vw_now v + pc_retry_ms cfg)) p1))
      (pf_states p1) slots tasks) a' = if decide (a = a') then launch_bar (vw_now v + pc_retry_ms cfg) (bar_at p1 a') else bar_at p1 a').
  { intros a' slots tasks. change (bar_at (mkPrefetch _ _ _ _) a') with (bar_at (on_bar a (launch_bar (vw_now v + pc_retry_ms cfg)) p1) a').
    rewrite bar_at_on_bar. pose proof (bar_at_lt _ _ _ _ _ _ Hi1 Ha).
    destruct (decide (a = a')) as [->|Hd]; case_decide as Hd'; try done; by destruct Hd'. }
  split.
  - intros _. exists a. cbn [on_bar pf_states]. split; [done|]. rewrite Hbar, decide_True by done. cbn [launch_bar bs_open_ms bs_in_flight].
    rewrite Hopen. auto.
  - intros k' Hne H. destruct (Hothers k' Hne H) as [(a' & Ha' & Hrest) Hd]. exists a'. cbn [on_bar pf_states].
    split; [done|]. rewrite Hbar, decide_False by (intros ->; by eapply Hd). exact Hrest.
Qed.

Lemma tick_streams_inv ks owner evs p v es r p' :
  pf_inv cfg owner (vw_now v) evs p → NoDup ks → (∀ k, k ∈ ks → k ∈ pc_streams cfg) →
  tick_streams cfg v ks p = (es, r, p') →
  (∃ owner', pf_inv cfg owner' (vw_now v) (evs ++ es) p') ∧ launches_allowed v evs es ∧
  (r = Ok () → (∀ k, k ∈ ks → covered v k p') ∧ ∀ k, k ∉ ks → covered v k p → covered v k p').
Proof.
  revert owner evs p es. induction ks as [|k ks IH]; intros owner evs p es Hi Hnd Hks; cbn [tick_streams].
  { intros [= <- <- <-]. rewrite app_nil_r. split; [by exists owner|]. split; [apply launches_allowed_nil|].
    intros _. split; [|done]. by intros ? ?%elem_of_nil. }
  apply NoDup_cons in Hnd as [Hk Hnd]. destruct (tick_stream cfg v k p) as [[es1 r1] p1] eqn:H1.
  destruct (tick_stream_inv owner evs p v k es1 r1 p1 Hi (Hks k ltac:(by left)) H1) as ((owner1 & Hi1) & Hl1 & Hc & Ho).
  destruct r1 as [[]|e]; [|by intros [= <- <- <-]; split; [exists owner1|]].
  destruct (tick_streams cfg v ks p1) as [[es2 r2] p2] eqn:H2. intros [= <- -> ->].
  destruct (IH owner1 (evs ++ es1) p1 es2 Hi1 Hnd ltac:(intros k' H; apply Hks; by right) H2) as (Hi2 & Hl2 & Hc2).
  rewrite app_assoc. split; [exact Hi2|]. split; [by apply launches_allowed_app|].
  intros Hr. destruct (Hc2 Hr) as [Hin Hout]. split.
  - intros k' [->|Hk']%elem_of_cons; [apply Hout; [done|by apply Hc]|by apply Hin].
  - intros k' [Hne Hk']%not_elem_of_cons Hcov. by apply Hout, Ho.
Qed.

(** ** Runs *)

Hypothesis Hstreams : NoDup (pc_streams cfg).

(** An event of a history is in order after those before it. *)
Definition allowed_event (before : list PfEvent) (e : PfEvent) : Prop :=
  match e with
  | AttemptLaunched k o v => allowed_launch cfg before k o v
  | AppendCalled k o v => allowed_call cfg before k o v
  | AppendReturned k o _ => returns_of k o before < calls_of k o before
  end.
Definition in_order (before es : list PfEvent) : Prop :=
  ∀ es1 e es2, es = es1 ++ e :: es2 → allowed_event (before ++ es1) e.

Lemma in_order_nil before : in_order before [].
Proof. by intros [|]. Qed.
Lemma in_order_one before e : allowed_event before e → in_order before [e].
Proof. intros H es1 e' es2 He. destruct es1 as [|? [|]]; [|done|done]. injection He as <- <-. by rewrite app_nil_r. Qed.
Lemma in_order_app before es es' : in_order before es → in_order (before ++ es) es' → in_order before (es ++ es').
Proof.
  intros H H' es1 e es2 Heq. apply app_eq_inv in Heq as [(l & -> & Heq)|(l & -> & Heq)].
  - destruct l as [|x l]; cbn in Heq.
    + rewrite app_nil_r in *. rewrite <-Heq in H'. rewrite <-(app_nil_r (before ++ es1)). by apply (H' [] e es2).
    + injection Heq as <- _. by apply (H es1 e l).
  - rewrite app_assoc. by apply (H' l e es2).
Qed.

Lemma pf_step_inv owner clock evs p s es p' :
  pf_inv cfg owner clock evs p → pf_step cfg s p = Some (es, p') →
  match reading s with Some t => clock ≤ t | None => True end →
  (∃ owner', pf_inv cfg owner' (default clock (reading s)) (evs ++ es) p') ∧ in_order evs es.
Proof using Hretry Hstreams.
  intros Hi Hstep Hc. destruct s as [v|i v|i r]; cbn [pf_step reading default] in *.
  - destruct (tick cfg v p) as [[es' r] p1] eqn:Ht. injection Hstep as -> ->. apply (pf_inv_clock _ _ _ _ _ Hc) in Hi.
    destruct (tick_streams_inv (pc_streams cfg) owner evs p v es r p' Hi Hstreams ltac:(done) Ht) as (Hi' & Hl & _).
    split; [exact Hi'|]. intros es1 e es2 He. by destruct (Hl es1 e es2 He) as (k & o & -> & Ha).
  - apply (pf_inv_clock _ _ _ _ _ Hc) in Hi. unfold attempt_start in Hstep.
    destruct (pf_tasks p !! i) as [t|] eqn:Ht; [|done]. destruct (_ || _) eqn:Hb; [done|].
    apply orb_false_iff in Hb as [Hrun Hslot%Z.leb_gt]. cbv zeta in Hstep.
    assert (Hdrop : (∃ owner', pf_inv cfg owner' (vw_now v) (evs ++ []) (end_task i t p)) ∧ in_order evs []).
    { rewrite app_nil_r. split; [exists owner; by apply drop_inv|apply in_order_nil]. }
    destruct (bs_stored _ || _) eqn:Hst; [by injection Hstep as <- <-|].
    apply orb_false_iff in Hst as [Hst Hnow%Z.leb_gt].
    destruct (eligible v (tk_stream t)) as [[]|e] eqn:He; injection Hstep as <- <-; [|done..].
    destruct (call_inv owner (vw_now v) evs p i t v Hi Ht Hrun Hslot Hst eq_refl Hnow He) as [Hi' Hac].
    split; [by exists owner|]. by apply in_order_one.
  - unfold attempt_finish in Hstep. destruct (pf_tasks p !! i) as [t|] eqn:Ht; [|done].
    destruct (tk_running t) eqn:Hrun; [|done]. cbv zeta in Hstep. injection Hstep as <- <-.
    split; [exists owner; by apply finish_inv|]. apply in_order_one. cbn [allowed_event].
    destruct (task_counts _ _ _ _ _ _ Hi Ht) as (Ho & _ & _ & _ & Hrc). rewrite Hrun in Hrc.
    pose proof (bi_returns _ _ _ _ _ _ _ (iv_bar _ _ _ _ _ Hi _ _ Ho)). lia.
Qed.

Lemma pf_run_inv ss owner clock evs0 p evs p' clock' :
  pf_inv cfg owner clock evs0 p → pf_run cfg ss p = Some (evs, p') → clock_after clock ss = Some clock' →
  (∃ owner', pf_inv cfg owner' clock' (evs0 ++ evs) p') ∧ in_order evs0 evs.
Proof using Hretry Hstreams.
  revert owner clock evs0 p evs. induction ss as [|s ss IH]; intros owner clock evs0 p evs Hi Hrun Hclock;
    cbn [pf_run clock_after] in *.
  { injection Hrun as <- <-. injection Hclock as <-. split; [exists owner; by rewrite app_nil_r|apply in_order_nil]. }
  destruct (pf_step cfg s p) as [[es p1]|] eqn:Hs; [|done]. cbn [mbind option_bind] in Hrun.
  destruct (pf_run cfg ss p1) as [[evs1 p2]|] eqn:Hr; [|done]. injection Hrun as <- <-.
  assert (Hc : match reading s with Some t => clock ≤ t | None => True end ∧
               clock_after (default clock (reading s)) ss = Some clock').
  { destruct (reading s) as [t|]; cbn [default]; [|done]. by destruct (Z.leb_spec clock t). }
  destruct Hc as [Hc Hclock1]. destruct (pf_step_inv _ _ _ _ _ _ _ Hi Hs Hc) as [(owner1 & Hi1) Hcall].
  destruct (IH owner1 _ _ p1 evs1 Hi1 Hr Hclock1) as [Hi2 Hcalls]. rewrite app_assoc. split; [exact Hi2|].
  by apply in_order_app.
Qed.
End invariant.

(** ** Properties *)

(** C17. Whatever the interleaving of the ticks, the tasks and the answers, and whatever the gate and the
    supervisor say meanwhile, every event of a run is in order as long as the clock does not go back.
    An attempt is launched ([allowed_launch]) for the bar that is open at that time, after the delay, of a flagged
    stream that is admitted, subscribed and waits for no recovery; no request for that bar runs, none has
    brought the point, and every earlier launch for the bar is at least the retry delay ago.  A request
    ([allowed_call]) is one of a launched attempt that has made none yet, and passes the same tests at
    the time it starts; fewer requests than slots run, and the retry delays of the requests made for the
    bar so far fit into what the bar lasts after its delay.  The requests themselves need not be the
    retry delay apart: an attempt can wait for its slot. *)
Theorem prefetch_requests_allowed (cfg : PrefetchConfig) (ss : list PfStep) (clock : Z) evs p :
  0 ≤ pc_retry_ms cfg → NoDup (pc_streams cfg) →
  pf_run cfg ss (Prefetch_new cfg) = Some (evs, p) → is_Some (clock_after clock ss) →
  (∀ before e after, evs = before ++ e :: after → allowed_event cfg before e) ∧
  pf_slots p + outstanding evs = pc_concurrency cfg.
Proof.
  intros Hr Hnd Hrun [clock' Hc].
  destruct (pf_run_inv cfg Hr Hnd ss [] clock [] _ _ _ _ (pf_inv_new cfg clock) Hrun Hc) as [(owner & Hi) Hcalls].
  split; [exact Hcalls|]. pose proof (iv_slots _ _ _ _ _ Hi). pose proof (iv_outstanding _ _ _ _ _ Hi) as Ho. cbn [app] in Ho. lia.
Qed.

(** A tick leaves no stream behind: afterwards the current bar of every flagged stream is stored, has
    its request queued or running, waits for its delay or its retry, or the stream is not eligible. *)
Theorem tick_leaves_none_due (cfg : PrefetchConfig) (ss : list PfStep) (clock clock' : Z) evs p v es p' :
  0 ≤ pc_retry_ms cfg → NoDup (pc_streams cfg) →
  pf_run cfg ss (Prefetch_new cfg) = Some (evs, p) → clock_after clock ss = Some clock' → clock' ≤ vw_now v →
  tick cfg v p = (es, Ok (), p') →
  ∀ k, k ∈ pc_streams cfg → ∃ a, pf_states p' !! k = Some a ∧
    align_to_grid (vw_now v) (stream_step k) = Ok (bs_open_ms (bar_at p' a)) ∧
    (bs_stored (bar_at p' a) = true ∨ (∃ t, t ∈ pf_tasks p' ∧ tk_bar t = a ∧ tk_stream t = k) ∨
     vw_now v < bs_next_at_ms (bar_at p' a) ∨ eligible v k = Ok false).
Proof.
  intros Hr Hnd Hrun Hc Hv Ht k Hk.
  destruct (pf_run_inv cfg Hr Hnd ss [] clock [] _ _ _ _ (pf_inv_new cfg clock) Hrun Hc) as [(owner & Hi) _].
  apply (pf_inv_clock cfg _ _ _ _ _ Hv) in Hi.
  destruct (tick_streams_inv cfg Hr (pc_streams cfg) owner _ p v _ _ _ Hi Hnd ltac:(done) Ht) as ((owner1 & Hi1) & _ & Hcov).
  destruct (Hcov eq_refl) as [Hin _].
  destruct (Hin k Hk) as (a & Ha & Ho & Hd). exists a. split; [done|]. split; [done|].
  destruct Hd as [?|[Hf|[?|?]]]; auto. right. left.
  pose proof (iv_current _ _ _ _ _ Hi1 k a Ha) as Hown. pose proof (iv_bar _ _ _ _ _ Hi1 a k Hown) as Hb.
  pose proof (bi_flight _ _ _ _ _ _ _ Hb) as Hcount. rewrite Hf in Hcount.
  destruct (filter (λ t, task_of a t = true) (pf_tasks p')) as [|t l] eqn:Hl; [by unfold count in Hcount; rewrite Hl in Hcount|].
  assert (Hin' : t ∈ filter (λ t, task_of a t = true) (pf_tasks p')) by (rewrite Hl; by left).
  apply list_elem_of_filter in Hin' as [Hta%Nat.eqb_eq Hin']. exists t. split; [done|]. split; [done|].
  destruct (iv_tasks _ _ _ _ _ Hi1 t Hin') as [Hot _]. congruence.
Qed.

(** ** Examples *)

Definition prefetch_stream : StreamKey := mkStreamKey (mkInstrumentKey "BTCUSDT.P") TF_5m.
Definition prefetch_config (concurrency : Z) : PrefetchConfig := mkPfConfig [prefetch_stream] 20000 5000 concurrency.
Definition subscribed (k : StreamKey) : RealtimeStreamFacts :=
  mkFacts k EXPECTED true None None None None None None None false false None None true None None.
Definition view_at (now : Z) : View := mkView now (λ _, true) (λ k, Ok (subscribed k)).

(** The first request of a bar finds no point, the second is still running when the next bar opens. *)
Definition prefetch_steps : list PfStep :=
  [PfTick (view_at 310000); PfTick (view_at 320000); AttemptStart 0 (view_at 324900); AttemptFinish 0 (Ok false);
   PfTick (view_at 325000); AttemptStart 0 (view_at 325000); PfTick (view_at 330000);
   PfTick (view_at 600000); PfTick (view_at 620000); AttemptStart 1 (view_at 620500)].

Definition requests (evs : list PfEvent) : list (Z * Z) :=
  omap (λ e, match e with AppendCalled _ o v => Some (o, vw_now v) | _ => None end) evs.
Definition launches (evs : list PfEvent) : list (Z * Z) :=
  omap (λ e, match e with AttemptLaunched _ o v => Some (o, vw_now v) | _ => None end) evs.

(** With two slots, a stream can have two requests running: each bar has a state of its own. *)
Lemma prefetch_requests_allowed_witness :
  PrefetchConfig_new [prefetch_stream] (float_of_Z 20) (float_of_Z 5) 2 = Ok (prefetch_config 2) ∧
  pf_run (prefetch_config 1) prefetch_steps (Prefetch_new (prefetch_config 1)) = None ∧
  ∃ evs p, pf_run (prefetch_config 2) prefetch_steps (Prefetch_new (prefetch_config 2)) = Some (evs, p) ∧
    launches evs = [(300000, 320000); (300000, 325000); (600000, 620000)] ∧
    requests evs = [(300000, 324900); (300000, 325000); (600000, 620500)] ∧ outstanding evs = 2 ∧ pf_slots p = 0 ∧
    ∀ before e after, evs = before ++ e :: after → allowed_event (prefetch_config 2) before e.
Proof.
  split; [by vm_compute|]. split; [by vm_compute|].
  assert (H : (λ r, (launches r.1, requests r.1, outstanding r.1)) <$>
    pf_run (prefetch_config 2) prefetch_steps (Prefetch_new (prefetch_config 2)) =
    Some ([(300000, 320000); (300000, 325000); (600000, 620000)],
          [(300000, 324900); (300000, 325000); (600000, 620500)], 2)) by (vm_compute; reflexivity).
  destruct (pf_run (prefetch_config 2) prefetch_steps (Prefetch_new (prefetch_config 2))) as [[evs p]|] eqn:Hrun; [|done].
  exists evs, p. injection H as Hl Hreq Hout. cbn [fst] in Hl, Hreq, Hout.
  destruct (prefetch_requests_allowed (prefetch_config 2) prefetch_steps 0 evs p) as [Hcalls Hslots];
    [cbn; lia|apply NoDup_singleton|exact Hrun|by eexists|].
  rewrite Hout in Hslots. cbn in Hslots. split_and!; [done|done|done|done|lia|exact Hcalls].
Defined.

Lemma tick_leaves_none_due_witness :
  let p := (tick (prefetch_config 1) (view_at 320000) (Prefetch_new (prefetch_config 1))).2 in
  pf_tasks p = [mkTask prefetch_stream 0 300000 false] ∧
  ∃ a, pf_states p !! prefetch_stream = Some a ∧
    align_to_grid 320000 300000 = Ok (bs_open_ms (bar_at p a)) ∧
    (bs_stored (bar_at p a) = true ∨ (∃ t, t ∈ pf_tasks p ∧ tk_bar t = a ∧ tk_stream t = prefetch_stream) ∨
     320000 < bs_next_at_ms (bar_at p a) ∨ eligible (view_at 320000) prefetch_stream = Ok false).
Proof.
  intros p. split; [by vm_compute|].
  apply (tick_leaves_none_due (prefetch_config 1) [] 0 0 [] (Prefetch_new (prefetch_config 1)) (view_at 320000)
           [AttemptLaunched prefetch_stream 300000 (view_at 320000)] p);
    [cbn; lia|apply NoDup_singleton|done|done|cbn; lia| |by left].
  subst p. by vm_compute.
Defined.
