(* ===== verification/Diagnostics.v ===== *)
(** * Diagnostics of the event loop

    ports/operation_timing.py, runtime/loop_diagnostic_spans.py and the collector of
    runtime/loop_diagnostics.py: the spans of synchronous work, and how much of a lag of the event
    loop they explain.  Instants are whole nanoseconds; the dictionaries that are logged are
    records.  The monitor that measures the lags and the task that writes the events are in Shell.v. *)

From S2P Require Import Prelude PyStr DecimalValues Timeframes Identity PyFloat.

(** ** ports/operation_timing.py *)

Record OperationSpan := mkSpan {
  sp_operation : string;
  sp_phase : string;
  sp_stream : option StreamKey;
  sp_start_ns : Z;
  sp_end_ns : Z
}.

Definition duration_ns (s : OperationSpan) : Z := sp_end_ns s - sp_start_ns s.

(** The context variables, the readings of the clock so far, and what the sink was given. *)
Record Timing := mkTiming {
  tm_observed : bool;
  tm_scope : option (string * option StreamKey);
  tm_readings : nat;
  tm_spans : list OperationSpan
}.

Notation TimedM := (StRes Timing).

Section timing.
Context (perf_counter_ns : nat → Z).

(** [observe_operations] *)
Definition observe_operations {A} (body : TimedM A) : TimedM A := λ t,
  let r := body (mkTiming true (tm_scope t) (tm_readings t) (tm_spans t)) in
  (r.1, mkTiming (tm_observed t) (tm_scope r.2) (tm_readings r.2) (tm_spans r.2)).

(** [measure_operation]: the [finally] runs after the body, whatever its result is. *)
Definition measure_operation {A} (operation : string) (stream : option StreamKey) (body : TimedM A) : TimedM A := λ t,
  if negb (tm_observed t) then body t
  else
    let start := perf_counter_ns (tm_readings t) in
    let r := body (mkTiming (tm_observed t) (Some (operation, stream)) (S (tm_readings t)) (tm_spans t)) in
    let end_ := perf_counter_ns (tm_readings r.2) in
    (r.1, mkTiming (tm_observed r.2) (tm_scope t) (S (tm_readings r.2))
            (tm_spans r.2 ++ [mkSpan operation "total" stream start end_])).

(** [measure_phase]: [stream or parent_stream]; a scope is only open while there is a sink. *)
Definition measure_phase {A} (phase : string) (stream : option StreamKey) (body : TimedM A) : TimedM A := λ t,
  match tm_scope t with
  | None => body t
  | Some (operation, parent_stream) =>
      if negb (tm_observed t) then (raise (ExcForeign "AssertionError" false) "", t) else
      let start := perf_counter_ns (tm_readings t) in
      let r := body (mkTiming (tm_observed t) (tm_scope t) (S (tm_readings t)) (tm_spans t)) in
      let stream := match stream with Some k => Some k | None => parent_stream end in
      (r.1, mkTiming (tm_observed r.2) (tm_scope r.2) (S (tm_readings r.2))
              (tm_spans r.2 ++ [mkSpan operation phase stream start (perf_counter_ns (tm_readings r.2))]))
  end.
End timing.

(** ** loop_diagnostic_spans.py *)

Definition NS_PER_MS : Z := 1000000.
Definition SLOW_NS : Z := 50 * NS_PER_MS.

Definition milliseconds (ns : Z) : float := float_quot (ns <? 0) (Z.abs ns) NS_PER_MS.

Record PhaseStats := mkStats { ph_count : Z; ph_total_ns : Z; ph_max_ns : Z; ph_slow : Z }.
Definition no_stats : PhaseStats := mkStats 0 0 0 0.

(** [PhaseStats.add] *)
Definition stats_add (duration : Z) (s : PhaseStats) : PhaseStats :=
  mkStats (ph_count s + 1) (ph_total_ns s + duration) (Z.max (ph_max_ns s) duration)
    (ph_slow s + if SLOW_NS <=? duration then 1 else 0).

Record StatsFields := mkStatsFields { xf_count : Z; xf_total_ms : float; xf_max_ms : float; xf_slow : Z }.
Definition stats_fields (s : PhaseStats) : StatsFields :=
  mkStatsFields (ph_count s) (milliseconds (ph_total_ns s)) (milliseconds (ph_max_ns s)) (ph_slow s).

Record TimingSample := mkSample { ts_span : OperationSpan; ts_reads : option StatsFields }.

Record SampleFields := mkSampleFields {
  sf_operation : string;
  sf_phase : string;
  sf_stream : option string;
  sf_duration_ms : float;
  sf_overlap_ms : float;
  sf_reads : option StatsFields
}.

(** [TimingSample.fields] *)
Definition sample_fields (overlap_ns : Z) (x : TimingSample) : SampleFields :=
  let s := ts_span x in
  mkSampleFields (sp_operation s) (sp_phase s) (stream_canonical_id <$> sp_stream s) (milliseconds (duration_ns s))
    (milliseconds overlap_ns) (ts_reads x).

Record Spans := mkSpans {
  ls_capacity : nat;
  ls_recent : list TimingSample;
  ls_stats : gmap (string * string) PhaseStats;
  ls_reads : PhaseStats;
  ls_evicted : Z;
  ls_evicted_since_tick : Z
}.

Definition Spans_new (capacity : nat) : Spans := mkSpans capacity [] ∅ no_stats 0 0.

(** A [deque] with its [maxlen]: the oldest item makes room. *)
Definition deque_append {A} (maxlen : nat) (l : list A) (x : A) : list A :=
  drop (S (length l) - maxlen) (l ++ [x]).

(** [record] *)
Definition record_span (span : OperationSpan) (s : Spans) : Spans :=
  let key := (sp_operation span, sp_phase span) in
  let stats := stats_add (duration_ns span) (default no_stats (ls_stats s !! key)) in
  let lifecycle := bool_decide (sp_operation span = "lifecycle.sync"%string) in
  let snapshot := bool_decide (sp_phase span = "snapshot"%string) in
  let total := bool_decide (sp_phase span = "total"%string) in
  let reads := if lifecycle && negb snapshot && total then Some (stats_fields (ls_reads s)) else None in
  let next_reads :=
    if lifecycle then if snapshot then stats_add (duration_ns span) (ls_reads s)
                      else if total then no_stats else ls_reads s
    else ls_reads s in
  let kept := total || (SLOW_NS <=? duration_ns span) in
  let full := kept && (length (ls_recent s) =? ls_capacity s)%nat in
  mkSpans (ls_capacity s)
    (if kept then deque_append (ls_capacity s) (ls_recent s) (mkSample span reads) else ls_recent s)
    (<[key := stats]> (ls_stats s)) next_reads
    (ls_evicted s + if full then 1 else 0) (ls_evicted_since_tick s + if full then 1 else 0).

(** An intersection of a span with the interval: its bounds and the sample. *)
Definition Intersection : Type := Z * Z * TimingSample.
Definition in_start (x : Intersection) : Z := x.1.1.
Definition in_end (x : Intersection) : Z := x.1.2.

Definition intersect (start_ns end_ns : Z) (x : TimingSample) : option Intersection :=
  let start := Z.max start_ns (sp_start_ns (ts_span x)) in
  let end_ := Z.min end_ns (sp_end_ns (ts_span x)) in
  if start <? end_ then Some (start, end_, x) else None.

Fixpoint insert_by {A} (key : A → Z) (x : A) (l : list A) : list A :=
  match l with
  | [] => [x]
  | y :: l' => if key x <=? key y then x :: l else y :: insert_by key x l'
  end.
(** [list.sort] with a key, which keeps the order of equal keys. *)
Definition sort_by {A} (key : A → Z) (l : list A) : list A := foldr (insert_by key) [] l.
(** [reverse=True] keeps it too. *)
Definition sort_by_reverse {A} (key : A → Z) (l : list A) : list A := sort_by (λ x, - key x) l.

(** The loop over the sorted intersections. *)
Fixpoint sweep (cursor covered : Z) (l : list Intersection) : Z :=
  match l with
  | [] => covered
  | x :: l =>
      let covered := covered + Z.max 0 (in_end x - Z.max cursor (in_start x)) in
      sweep (Z.max cursor (in_end x)) covered l
  end.

(** [overlap] *)
Definition overlap (start_ns end_ns : Z) (s : Spans) : Z * list SampleFields * Z :=
  let intersections := sort_by in_start (omap (intersect start_ns end_ns) (ls_recent s)) in
  let covered := sweep start_ns 0 intersections in
  let longest := sort_by_reverse (λ x, in_end x - in_start x) intersections in
  (covered, map (λ x, sample_fields (in_end x - in_start x) x.2) (take 3 longest), ls_evicted_since_tick s).

(** [finish_tick] *)
Definition finish_tick (s : Spans) : Spans :=
  mkSpans (ls_capacity s) [] (ls_stats s) (ls_reads s) (ls_evicted s) 0.

Definition key_le (x y : (string * string) * PhaseStats) : Prop :=
  x.1.1 ≠ y.1.1 ∧ String.le x.1.1 y.1.1 ∨ x.1.1 = y.1.1 ∧ String.le x.1.2 y.1.2.
#[export] Instance key_le_dec x y : Decision (key_le x y).
Proof. unfold key_le. apply _. Defined.

(** [take_aggregate] *)
Definition take_aggregate (s : Spans) : (list (string * string * StatsFields) * Z) * Spans :=
  ((map (λ kv, (kv.1, stats_fields kv.2)) (merge_sort key_le (map_to_list (ls_stats s))), ls_evicted s),
   mkSpans (ls_capacity s) (ls_recent s) ∅ (ls_reads s) 0 (ls_evicted_since_tick s)).

(** ** loop_diagnostics.py *)

Inductive Coverage := FULL_COVERAGE | PARTIAL_COVERAGE | ZERO_COVERAGE | INCOMPLETE_COVERAGE.
#[export] Instance Coverage_eq_dec : EqDecision Coverage.
Proof. solve_decision. Defined.

Record LagFields := mkLag {
  lg_lag_ms : float;
  lg_covered_ms : float;
  lg_unexplained_ms : float;
  lg_operations : list SampleFields;
  lg_coverage : Coverage;
  lg_lost_measurements : Z;
  lg_incomplete : bool
}.

Record PeriodFields := mkPeriod {
  pd_period_ms : float;
  pd_phases : list (string * string * StatsFields);
  pd_coverage : Coverage → Z;
  pd_lost_measurements : Z
}.

Inductive DiagnosticEvent := LagEvent (f : LagFields) | PeriodEvent (f : PeriodFields).

Definition HOUR_NS : Z := 3600000000000.

Record LoopDiagnostics := mkDiagnostics {
  ld_spans : Spans;
  ld_capacity : nat;
  ld_output : list (DiagnosticEvent * Z);
  ld_dropped : Z;
  ld_coverage : Coverage → Z;
  ld_period_start : Z
}.

Definition LoopDiagnostics_new (capacity : nat) (now_ns : Z) : LoopDiagnostics :=
  mkDiagnostics (Spans_new capacity) capacity [] 0 (λ _, 0) now_ns.

(** [_offer]: the event goes with the count of the lost ones; a queue of size 0 has no bound. *)
Definition offer (e : DiagnosticEvent) (d : LoopDiagnostics) : LoopDiagnostics :=
  if (0 <? ld_capacity d)%nat && (ld_capacity d <=? length (ld_output d))%nat
  then mkDiagnostics (ld_spans d) (ld_capacity d) (ld_output d) (ld_dropped d + 1) (ld_coverage d) (ld_period_start d)
  else mkDiagnostics (ld_spans d) (ld_capacity d) (ld_output d ++ [(e, ld_dropped d)]) (ld_dropped d) (ld_coverage d)
         (ld_period_start d).

Definition with_spans (s : Spans) (d : LoopDiagnostics) : LoopDiagnostics :=
  mkDiagnostics s (ld_capacity d) (ld_output d) (ld_dropped d) (ld_coverage d) (ld_period_start d).
Definition count_coverage (kind : Coverage) (d : LoopDiagnostics) : LoopDiagnostics :=
  mkDiagnostics (ld_spans d) (ld_capacity d) (ld_output d) (ld_dropped d)
    (λ k, ld_coverage d k + if bool_decide (k = kind) then 1 else 0) (ld_period_start d).

Definition coverage_kind (lag covered evicted : Z) : Coverage :=
  if negb (evicted =? 0) then INCOMPLETE_COVERAGE
  else if covered =? 0 then ZERO_COVERAGE
  else if covered =? lag then FULL_COVERAGE else PARTIAL_COVERAGE.

Definition warn_lag (deadline_ns end_ns : Z) (d : LoopDiagnostics) : LoopDiagnostics :=
  let lag_ns := Z.max 0 (end_ns - deadline_ns) in
  let '(covered, operations, evicted) := overlap deadline_ns end_ns (ld_spans d) in
  let kind := coverage_kind lag_ns covered evicted in
  offer (LagEvent (mkLag (milliseconds lag_ns) (milliseconds covered) (milliseconds (lag_ns - covered)) operations kind
                     evicted (negb (evicted =? 0))))
    (count_coverage kind d).

Definition end_period (end_ns : Z) (d : LoopDiagnostics) : LoopDiagnostics :=
  let '((phases, evicted), spans) := take_aggregate (ld_spans d) in
  let d := offer (PeriodEvent (mkPeriod (milliseconds (end_ns - ld_period_start d)) phases (ld_coverage d) evicted))
             (with_spans spans d) in
  mkDiagnostics (ld_spans d) (ld_capacity d) (ld_output d) (ld_dropped d) (λ _, 0) end_ns.

(** [tick] *)
Definition diagnostics_tick (deadline_ns end_ns : Z) (warn : bool) (d : LoopDiagnostics) : LoopDiagnostics :=
  let d := if warn then warn_lag deadline_ns end_ns d else d in
  let d := with_spans (finish_tick (ld_spans d)) d in
  if HOUR_NS <=? end_ns - ld_period_start d then end_period end_ns d else d.

(** ** Facts: sorting by a key *)

Section sorting.
Context {A : Type} (key : A → Z).

Lemma insert_by_perm x l : insert_by key x l ≡ₚ x :: l.
Proof.
  induction l as [|y l IH]; cbn [insert_by]; [done|]. destruct (key x <=? key y); [done|]. by rewrite IH, Permutation_swap.
Qed.

Lemma sort_by_perm l : sort_by key l ≡ₚ l.
Proof. induction l as [|x l IH]; cbn [sort_by foldr]; [done|]. fold (sort_by key l). by rewrite insert_by_perm, IH. Qed.

Lemma insert_by_sorted x l :
  StronglySorted (λ x y, key x ≤ key y) l → StronglySorted (λ x y, key x ≤ key y) (insert_by key x l).
Proof.
  induction 1 as [|y l Hs IH Hall]; cbn [insert_by]; [repeat constructor|]. destruct (Z.leb_spec (key x) (key y)).
  - constructor; [by constructor|]. constructor; [done|]. eapply Forall_impl; [exact Hall|]. cbn. lia.
  - constructor; [done|]. rewrite insert_by_perm. constructor; [lia|done].
Qed.

Lemma sort_by_sorted l : StronglySorted (λ x y, key x ≤ key y) (sort_by key l).
Proof. induction l as [|x l IH]; cbn [sort_by foldr]; [constructor|]. by apply insert_by_sorted. Qed.
End sorting.

(** ** Facts: sets of instants *)

Definition interval (start end_ : Z) : gset Z := list_to_set (seqZ start (end_ - start)).

Lemma elem_of_interval t start end_ : t ∈ interval start end_ ↔ start ≤ t < end_.
Proof. unfold interval. rewrite elem_of_list_to_set, elem_of_seqZ. lia. Qed.

Lemma size_interval start end_ : Z.of_nat (size (interval start end_)) = Z.max 0 (end_ - start).
Proof.
  unfold interval. rewrite size_list_to_set by apply NoDup_seqZ. rewrite length_seqZ. lia.
Qed.

(** The instants of an interval at which one of the samples ran. *)
Definition measured (start end_ : Z) (samples : list TimingSample) : gset Z :=
  filter (λ t, Exists (λ x, sp_start_ns (ts_span x) ≤ t < sp_end_ns (ts_span x)) samples) (interval start end_).

Definition instants (l : list Intersection) : gset Z := ⋃ map (λ x, interval (in_start x) (in_end x)) l.

(** The loop adds up the instants that were not covered before the cursor. *)
Lemma sweep_size l : ∀ (seen : gset Z) cursor,
  StronglySorted (λ x y, in_start x ≤ in_start y) l →
  (∀ t, t ∈ seen → t < cursor) → (∀ t x, x ∈ l → in_start x ≤ t < cursor → t ∈ seen) →
  sweep cursor (Z.of_nat (size seen)) l = Z.of_nat (size (seen ∪ instants l)).
Proof.
  induction l as [|x l IH]; intros seen cursor Hs H1 H3; cbn [sweep].
  { change (instants []) with (∅ : gset Z). by rewrite (right_id_L ∅ (∪)). }
  apply StronglySorted_inv in Hs as [Hs Hx]. rewrite Forall_forall in Hx.
  set (new := interval (Z.max cursor (in_start x)) (in_end x)).
  assert (Hdisj : seen ## new).
  { intros t Ht Hn%elem_of_interval. specialize (H1 t Ht). lia. }
  assert (Hsize : Z.of_nat (size seen) + Z.max 0 (in_end x - Z.max cursor (in_start x)) = Z.of_nat (size (seen ∪ new))).
  { rewrite size_union by done. rewrite Nat2Z.inj_add. unfold new. rewrite size_interval. lia. }
  assert (Hunion : seen ∪ instants (x :: l) = seen ∪ new ∪ instants l).
  { unfold instants. cbn [map]. rewrite union_list_cons. fold (instants l). apply set_eq. intros t. rewrite !elem_of_union, elem_of_interval.
    unfold new. rewrite elem_of_interval. split; [|intros [[?|?]|?]; auto; right; left; lia].
    intros [?|[Ht|?]]; auto. destruct (decide (t < cursor)) as [Hc|Hc]; [|left; right; lia].
    left; left. apply (H3 t x); [by left|lia]. }
  rewrite Hsize, Hunion. apply IH; [done|..].
  - intros t [Ht|Ht%elem_of_interval]%elem_of_union; [specialize (H1 t Ht)|]; lia.
  - intros t y Hy Ht. apply elem_of_union. specialize (Hx y Hy). destruct (decide (t < cursor)).
    + left. apply (H3 t y); [by right|lia].
    + right. apply elem_of_interval. lia.
Qed.

(** [covered] is the number of nanoseconds at which a sample ran. *)
Lemma overlap_covered start end_ s : (overlap start end_ s).1.1 = Z.of_nat (size (measured start end_ (ls_recent s))).
Proof.
  unfold overlap. cbv zeta. cbn [fst]. set (l := omap (intersect start end_) (ls_recent s)).
  assert (Hin : ∀ x, x ∈ sort_by in_start l ↔ ∃ y, y ∈ ls_recent s ∧ intersect start end_ y = Some x).
  { intros x. rewrite sort_by_perm. unfold l. rewrite list_elem_of_omap. done. }
  change 0 with (Z.of_nat (size (∅ : gset Z))). rewrite sweep_size; [|apply sort_by_sorted|by set_unfold|].
  - do 2 f_equal. rewrite (left_id_L ∅ (∪)). apply set_eq. intros t. unfold measured, instants. rewrite elem_of_filter, elem_of_interval, Exists_exists, elem_of_union_list.
    split.
    + intros (X & (x & -> & Hx)%list_elem_of_fmap & Ht%elem_of_interval). apply Hin in Hx as (y & Hy & Hi). unfold intersect in Hi.
      destruct (Z.ltb_spec (Z.max start (sp_start_ns (ts_span y))) (Z.min end_ (sp_end_ns (ts_span y)))); [|done].
      injection Hi as <-. unfold in_start, in_end in Ht. cbn in Ht. split; [exists y; split; [done|lia]|lia].
    + intros [(y & Hy & Ht) Hr]. eexists. split; [apply list_elem_of_fmap; eexists; split; [done|]|].
      * apply Hin. exists y. split; [done|]. unfold intersect. destruct (Z.ltb_spec (Z.max start (sp_start_ns (ts_span y))) (Z.min end_ (sp_end_ns (ts_span y)))); [done|lia].
      * apply elem_of_interval. unfold in_start, in_end. cbn. lia.
  - intros t x (y & _ & Hi)%Hin Ht. unfold intersect in Hi. destruct (_ <? _); [|done]. injection Hi as <-. unfold in_start in Ht. cbn in Ht. lia.
Qed.

(** ** Facts: what is recorded *)

Definition record_all (s : Spans) (spans : list OperationSpan) : Spans := foldl (λ s x, record_span x s) s spans.

(** The spans that are kept to explain a lag: every operation, and the slow phases. *)
Definition kept_span (x : OperationSpan) : bool := bool_decide (sp_phase x = "total"%string) || (SLOW_NS <=? duration_ns x).
Definition kept (spans : list OperationSpan) : list OperationSpan := filter (λ x, kept_span x = true) spans.

Lemma record_all_snoc s spans x : record_all s (spans ++ [x]) = record_span x (record_all s spans).
Proof. unfold record_all. by rewrite foldl_app. Qed.

Lemma kept_snoc spans x : kept (spans ++ [x]) = kept spans ++ if kept_span x then [x] else [].
Proof.
  unfold kept. rewrite filter_app. f_equal. destruct (kept_span x) eqn:E.
  - by rewrite (filter_cons_True (λ x, kept_span x = true)).
  - by rewrite (filter_cons_False (λ x, kept_span x = true)) by (by rewrite E).
Qed.

Lemma recorded_recent s spans :
  (0 < ls_capacity s)%nat → ls_recent s = [] → ls_evicted_since_tick s = 0 →
  let s' := record_all s spans in
  ls_capacity s' = ls_capacity s ∧
  map ts_span (ls_recent s') = drop (length (kept spans) - ls_capacity s) (kept spans) ∧
  ls_evicted_since_tick s' = Z.of_nat (length (kept spans) - ls_capacity s).
Proof.
  intros Hc Hr He. cbv zeta. induction spans as [|x spans IH] using rev_ind.
  { change (record_all s []) with s. rewrite Hr, He. by split. }
  rewrite record_all_snoc, kept_snoc. destruct IH as (H1 & H2 & H3). set (s' := record_all s spans) in *.
  assert (Hl : length (ls_recent s') = Nat.min (ls_capacity s) (length (kept spans))).
  { rewrite <-(length_map ts_span), H2, length_drop. lia. }
  unfold record_span. cbv zeta. fold (kept_span x). cbn [ls_capacity ls_recent ls_evicted_since_tick].
  destruct (kept_span x); cbn [andb]; [|rewrite !app_nil_r; rewrite Z.add_0_r; by split].
  rewrite length_app. cbn [length]. split; [done|]. unfold deque_append. rewrite <-skipn_map, map_app, H2, Hl, H1. cbn [map ts_span].
  destruct (Nat.eqb_spec (Nat.min (ls_capacity s) (length (kept spans))) (ls_capacity s)) as [Heq|Hne].
  - rewrite (drop_app_le (kept spans) [x]) by lia. split; [|rewrite H3; lia].
    rewrite drop_app_le by (rewrite length_drop; lia). rewrite drop_drop. do 2 f_equal. lia.
  - replace (length (kept spans) - ls_capacity s)%nat with 0%nat by lia.
    replace (length (kept spans) + 1 - ls_capacity s)%nat with 0%nat by lia.
    replace (S (Nat.min (ls_capacity s) (length (kept spans))) - ls_capacity s)%nat with 0%nat by lia.
    rewrite !drop_0. split; [done|]. rewrite H3. lia.
Qed.

(** The instants of an interval at which one of the spans ran. *)
Definition ran (start end_ : Z) (spans : list OperationSpan) : gset Z :=
  filter (λ t, Exists (λ x, sp_start_ns x ≤ t < sp_end_ns x) spans) (interval start end_).

Lemma measured_ran start end_ samples : measured start end_ samples = ran start end_ (map ts_span samples).
Proof.
  apply set_eq. intros t. unfold measured, ran. rewrite !elem_of_filter, !Exists_exists. f_equiv. split.
  - intros (x & Hx & Ht). exists (ts_span x). split; [by apply list_elem_of_fmap_2|done].
  - intros (y & (x & -> & Hx)%list_elem_of_fmap & Ht). by exists x.
Qed.

Lemma ran_bounds start end_ spans : 0 ≤ Z.of_nat (size (ran start end_ spans)) ≤ Z.max 0 (end_ - start).
Proof.
  split; [lia|]. rewrite <-size_interval. apply inj_le, subseteq_size. unfold ran. intros t. by rewrite elem_of_filter; intros [_ ?].
Qed.

(** An interval is covered when every instant of it is. *)
Lemma ran_full start end_ spans :
  Z.of_nat (size (ran start end_ spans)) = Z.max 0 (end_ - start) ↔ ran start end_ spans = interval start end_.
Proof.
  rewrite <-size_interval. split; [|by intros ->]. intros H%Nat2Z.inj. apply set_eq. intros t.
  assert (Hsub : ran start end_ spans ⊆ interval start end_).
  { intros u. unfold ran. by rewrite elem_of_filter; intros [_ ?]. }
  split; [apply Hsub|]. intros Ht. apply dec_stable. intros Hn.
  assert (Hlt : (size (ran start end_ spans) < size (interval start end_))%nat); [|lia].
  apply subset_size. split; [done|]. by intros H'; apply Hn, H'.
Qed.

(** Every span lies in a whole operation. *)
Definition in_operations (spans : list OperationSpan) : Prop :=
  ∀ x, x ∈ spans → ∃ y, y ∈ spans ∧ sp_phase y = "total"%string ∧ sp_start_ns y ≤ sp_start_ns x ∧ sp_end_ns x ≤ sp_end_ns y.

Lemma ran_kept start end_ spans : in_operations spans → ran start end_ (kept spans) = ran start end_ spans.
Proof.
  intros Hin. apply set_eq. intros t. unfold ran. rewrite !elem_of_filter, !Exists_exists. f_equiv. split.
  - intros (x & [_ Hx]%list_elem_of_filter & Ht). by exists x.
  - intros (x & Hx & Ht). destruct (Hin x Hx) as (y & Hy & Hp & ? & ?). exists y. split; [|lia].
    apply list_elem_of_filter. split; [|done]. unfold kept_span. by rewrite bool_decide_true.
Qed.

(** ** Facts: computations that are measured *)

Section timed.
Context (clock : nat → Z).
Hypothesis Hclock : ∀ i j, (i ≤ j)%nat → clock i ≤ clock j.

(** The spans a computation adds lie between its first and its last reading; outside a scope each
    of them lies in a whole operation. *)
Definition timed {A} (m : TimedM A) : Prop := ∀ t, let t' := (m t).2 in
  tm_observed t' = tm_observed t ∧ tm_scope t' = tm_scope t ∧ (tm_readings t ≤ tm_readings t')%nat ∧
  ∃ added, tm_spans t' = tm_spans t ++ added ∧
    (∀ x, x ∈ added → ∃ i j, (tm_readings t ≤ i)%nat ∧ (j < tm_readings t')%nat ∧ clock i ≤ sp_start_ns x ∧ sp_end_ns x ≤ clock j) ∧
    (tm_scope t = None → in_operations added).

Lemma in_operations_app l1 l2 : in_operations l1 → in_operations l2 → in_operations (l1 ++ l2).
Proof.
  intros H1 H2 x [Hx|Hx]%elem_of_app; [destruct (H1 x Hx) as (y & Hy & ?)|destruct (H2 x Hx) as (y & Hy & ?)];
    (exists y; rewrite elem_of_app; auto).
Qed.

Lemma timed_nothing {A} (m : TimedM A) : (∀ t, (m t).2 = t) → timed m.
Proof.
  intros H t. rewrite H. split_and!; [done..|]. exists []. rewrite app_nil_r.
  split; [done|]. split; [by intros x ?%elem_of_nil|by intros _ x ?%elem_of_nil].
Qed.

Lemma timed_ret {A} (a : A) : timed (mret a).
Proof. by apply timed_nothing. Qed.
Lemma timed_res {A} (r : res A) : timed (λ t, (r, t)).
Proof. by apply timed_nothing. Qed.

Lemma timed_bind {A B} (m : TimedM A) (f : A → TimedM B) : timed m → (∀ a, timed (f a)) → timed (a ← m; f a).
Proof.
  intros Hm Hf t. unfold mbind, StRes_bind. specialize (Hm t). destruct (m t) as [[a|e] t1]; cbn [snd] in *; [|exact Hm].
  specialize (Hf a t1). destruct (f a t1) as [r t2]; cbn [snd] in *.
  destruct Hm as (H1 & H2 & H3 & l1 & H4 & H5 & H6). destruct Hf as (G1 & G2 & G3 & l2 & G4 & G5 & G6).
  split; [congruence|]. split; [congruence|]. split; [lia|]. exists (l1 ++ l2). split; [by rewrite G4, H4, app_assoc|]. split.
  - intros x [Hx|Hx]%elem_of_app.
    + destruct (H5 x Hx) as (i & j & ? & ? & ? & ?). exists i, j. split_and!; try done; lia.
    + destruct (G5 x Hx) as (i & j & ? & ? & ? & ?). exists i, j. split_and!; try done; lia.
  - intros Hs. apply in_operations_app; [by apply H6|]. apply G6. congruence.
Qed.

Lemma timed_operation {A} operation stream (m : TimedM A) : timed m → timed (measure_operation clock operation stream m).
Proof.
  intros Hm t. unfold measure_operation. destruct (tm_observed t) eqn:Ho; cbn [negb]; [|by specialize (Hm t); rewrite Ho in Hm].
  cbv zeta. set (t1 := mkTiming _ _ _ _). specialize (Hm t1). cbv zeta in Hm. destruct (m t1) as [r t2]. cbn [fst snd tm_observed tm_scope tm_readings tm_spans].
  subst t1. cbn [fst snd tm_observed tm_scope tm_readings tm_spans] in Hm. destruct Hm as (H1 & _ & H3 & l & H4 & H5 & _).
  split; [done|]. split; [done|]. split; [lia|]. eexists (l ++ [_]). split; [by rewrite H4, app_assoc|]. split.
  - intros x [Hx|Hx]%elem_of_app.
    + destruct (H5 x Hx) as (i & j & ? & ? & ? & ?). exists i, j. split_and!; try done; lia.
    + apply list_elem_of_singleton in Hx as ->. exists (tm_readings t), (tm_readings t2). cbn. split_and!; (done || lia).
  - intros _ x Hx. eexists. split; [apply elem_of_app; right; by left|]. cbn. split; [done|].
    apply elem_of_app in Hx as [Hx|Hx]; [|by apply list_elem_of_singleton in Hx as ->].
    destruct (H5 x Hx) as (i & j & Hi & Hj & Hs & He). pose proof (Hclock (tm_readings t) i ltac:(lia)).
    pose proof (Hclock j (tm_readings t2) ltac:(lia)). lia.
Qed.

Lemma timed_phase {A} phase stream (m : TimedM A) : timed m → timed (measure_phase clock phase stream m).
Proof.
  intros Hm t. unfold measure_phase. destruct (tm_scope t) as [[operation parent]|] eqn:Hs; [|by specialize (Hm t); rewrite Hs in Hm].
  destruct (tm_observed t) eqn:Ho; cbn [negb].
  2:{ cbn [snd]. rewrite Hs, Ho. split_and!; [done..|]. exists []. rewrite app_nil_r. split; [done|].
      split; [by intros x ?%elem_of_nil|done]. }
  cbv zeta. set (t1 := mkTiming _ _ _ _). specialize (Hm t1). cbv zeta in Hm. destruct (m t1) as [r t2]. cbn [fst snd tm_observed tm_scope tm_readings tm_spans].
  subst t1. cbn [fst snd tm_observed tm_scope tm_readings tm_spans] in Hm. destruct Hm as (H1 & H2 & H3 & l & H4 & H5 & _).
  split; [done|]. split; [done|]. split; [lia|]. eexists (l ++ [_]). split; [by rewrite H4, app_assoc|]. split; [|done].
  intros x [Hx|Hx]%elem_of_app.
  - destruct (H5 x Hx) as (i & j & ? & ? & ? & ?). exists i, j. split_and!; try done; lia.
  - apply list_elem_of_singleton in Hx as ->. exists (tm_readings t), (tm_readings t2). cbn. split_and!; (done || lia).
Qed.

Lemma timed_observe {A} (m : TimedM A) t : timed m → tm_scope t = None →
  ∃ added, tm_spans (observe_operations m t).2 = tm_spans t ++ added ∧ in_operations added.
Proof.
  intros Hm Hs. unfold observe_operations. cbn [snd tm_spans]. destruct (Hm (mkTiming true (tm_scope t) (tm_readings t) (tm_spans t)))
    as (_ & _ & _ & l & H1 & _ & H2). cbn [tm_spans tm_scope] in *. exists l. by split; [|apply H2].
Qed.
End timed.

(** The report of the hour goes after what is in the queue. *)
Lemma end_of_tick_output end_ d :
  ∃ rest, ld_output (if HOUR_NS <=? end_ - ld_period_start d then end_period end_ d else d) = ld_output d ++ rest.
Proof.
  destruct (HOUR_NS <=? _); [|by exists []; rewrite app_nil_r]. unfold end_period, take_aggregate, offer.
  destruct (_ && _); cbn [ld_output with_spans]; [by exists []; rewrite app_nil_r|by eexists].
Qed.

(** ** Properties *)

(** What the monitor says of a lag of the event loop is the truth about the measured work.  Let
    [spans] be those that the operations of the loop left since the last tick.  When the memory for
    them was enough, the time that is called covered is exactly the number of nanoseconds of the lag
    at which a measured operation ran, counted once however the spans overlap, the rest is called
    unexplained, and the coverage is called full, zero or partial accordingly; when it was not
    enough, the report says how many spans were lost, and never that the coverage is complete. *)
Theorem lag_explained (d : LoopDiagnostics) (s0 : Spans) (spans : list OperationSpan) (deadline end_ : Z) :
  ls_recent s0 = [] → ls_evicted_since_tick s0 = 0 → (0 < ls_capacity s0)%nat → ld_spans d = record_all s0 spans →
  in_operations spans → (length (ld_output d) < ld_capacity d)%nat →
  let lag := Z.max 0 (end_ - deadline) in
  let lost := (length (kept spans) - ls_capacity s0)%nat in
  let d' := diagnostics_tick deadline end_ true d in
  (∃ f covered rest, ld_output d' = ld_output d ++ (LagEvent f, ld_dropped d) :: rest ∧
     0 ≤ covered ≤ lag ∧ lg_lag_ms f = milliseconds lag ∧ lg_covered_ms f = milliseconds covered ∧
     lg_unexplained_ms f = milliseconds (lag - covered) ∧ lg_lost_measurements f = Z.of_nat lost ∧
     (length (lg_operations f) ≤ 3)%nat ∧
     if decide (lost = 0)%nat then
       covered = Z.of_nat (size (ran deadline end_ spans)) ∧
       (lg_coverage f = ZERO_COVERAGE ↔ ran deadline end_ spans = ∅) ∧
       (lg_coverage f = FULL_COVERAGE ↔ ran deadline end_ spans = interval deadline end_ ∧ deadline < end_)
     else lg_coverage f = INCOMPLETE_COVERAGE) ∧
  ls_recent (ld_spans d') = [] ∧ ls_evicted_since_tick (ld_spans d') = 0.
Proof.
  intros Hr He Hc Hs Hin Hroom. cbv zeta. pose proof (recorded_recent s0 spans Hc Hr He) as (_ & Hrec & Hlost).
  set (lost := (length (kept spans) - ls_capacity s0)%nat) in *. split.
  2:{ unfold diagnostics_tick. cbv zeta. set (d1 := with_spans _ _). destruct (HOUR_NS <=? _); [|done].
      unfold end_period, take_aggregate, offer. by destruct (_ && _). }
  pose proof (overlap_covered deadline end_ (record_all s0 spans)) as Hcov. rewrite measured_ran, Hrec in Hcov.
  fold lost in Hcov. destruct (overlap deadline end_ (record_all s0 spans)) as [[covered ops] evicted] eqn:Hov.
  cbn [fst] in Hcov. assert (Hev : evicted = Z.of_nat lost) by (unfold overlap in Hov; injection Hov as _ _ <-; done).
  assert (Hops : (length ops ≤ 3)%nat) by (unfold overlap in Hov; injection Hov as _ <- _; rewrite length_map, length_take; lia).
  assert (Hout : ∃ rest, ld_output (diagnostics_tick deadline end_ true d) = ld_output d ++
    (LagEvent (mkLag (milliseconds (Z.max 0 (end_ - deadline))) (milliseconds covered)
       (milliseconds (Z.max 0 (end_ - deadline) - covered)) ops
       (coverage_kind (Z.max 0 (end_ - deadline)) covered evicted) evicted (negb (evicted =? 0))), ld_dropped d) :: rest).
  { unfold diagnostics_tick, warn_lag. rewrite Hs, Hov. cbv zeta.
    set (f := mkLag _ _ _ _ _ _ _). set (d1 := offer _ _).
    assert (H1 : ld_output d1 = ld_output d ++ [(LagEvent f, ld_dropped d)]).
    { unfold d1, offer. cbn [count_coverage ld_capacity ld_output ld_dropped].
      destruct (Nat.leb_spec (ld_capacity d) (length (ld_output d))); [lia|]. by rewrite andb_false_r. }
    destruct (end_of_tick_output end_ (with_spans (finish_tick (ld_spans d1)) d1)) as [rest Hrest]. exists rest.
    rewrite Hrest. cbn [with_spans ld_output]. rewrite H1. by rewrite <-app_assoc. }
  destruct Hout as [rest Hout]. eexists _, covered, rest. split; [exact Hout|].
  cbn [lg_lag_ms lg_covered_ms lg_unexplained_ms lg_lost_measurements lg_operations lg_coverage].
  split; [rewrite Hcov; apply ran_bounds|]. do 3 (split; [done|]). split; [done|]. split; [done|].
  unfold coverage_kind. rewrite Hev. destruct (decide (lost = 0%nat)) as [H0|H0].
  - rewrite H0 in *. cbn [Z.of_nat Z.eqb negb]. rewrite drop_0, ran_kept in Hcov by done. split; [done|].
    pose proof (ran_full deadline end_ spans) as Hfull. rewrite <-Hcov in Hfull. split.
    + destruct (Z.eqb_spec covered 0) as [Hz|Hz].
      * split; [|done]. intros _. apply leibniz_equiv, size_empty_inv. lia.
      * split; [by destruct (covered =? _)|]. intros Hemp. rewrite Hemp, size_empty in Hcov. done.
    + destruct (Z.eqb_spec covered 0) as [Hz|Hz].
      * split; [done|]. intros [Hran Hlt]. apply Hfull in Hran. lia.
      * destruct (Z.eqb_spec covered (Z.max 0 (end_ - deadline))) as [Hl|Hl].
        -- split; [|done]. intros _. split; [by apply Hfull|]. lia.
        -- split; [done|]. intros [Hran _]. by apply Hfull in Hran.
  - destruct (Z.eqb_spec (Z.of_nat lost) 0); [lia|done].
Qed.

(** ** Examples *)

(** Readings 10 ms apart. *)
Definition example_counter (n : nat) : Z := Z.of_nat n * 10 * NS_PER_MS.

(** Two operations one after the other, the first with a phase. *)
Definition example_work : TimedM () :=
  _ ← measure_operation example_counter "lifecycle.sync" None (measure_phase example_counter "snapshot" None (mret ()));
  measure_operation example_counter "oi.handoff" None (mret ()).

Definition example_spans : list OperationSpan := tm_spans (observe_operations example_work (mkTiming false None 0 [])).2.

Lemma example_spans_in_operations : in_operations example_spans.
Proof.
  destruct (timed_observe example_counter example_work (mkTiming false None 0 [])) as (added & Ha & Hin); [|done|].
  - assert (Hc : ∀ i j, (i ≤ j)%nat → example_counter i ≤ example_counter j).
    { intros i j Hij. unfold example_counter, NS_PER_MS. lia. }
    apply (timed_bind example_counter); [|intros ?]; apply timed_operation; try exact Hc; [|apply timed_ret].
    apply timed_phase, timed_ret.
  - unfold example_spans. rewrite Ha. exact Hin.
Qed.

Definition example_monitor : LoopDiagnostics :=
  with_spans (record_all (Spans_new 4) example_spans) (LoopDiagnostics_new 4 0).

(** The lag lasts from 10 ms to 60 ms; the operations ran from 0 to 30 ms and from 40 to 50 ms. *)
Lemma lag_explained_witness :
  map (λ x, (sp_operation x, sp_phase x)) example_spans =
    [("lifecycle.sync", "snapshot"); ("lifecycle.sync", "total"); ("oi.handoff", "total")]%string ∧
  ∃ f rest, ld_output (diagnostics_tick (10 * NS_PER_MS) (60 * NS_PER_MS) true example_monitor) = (LagEvent f, 0) :: rest ∧
    lg_covered_ms f = milliseconds (30 * NS_PER_MS) ∧ lg_unexplained_ms f = milliseconds (20 * NS_PER_MS) ∧
    ∃ covered, lg_covered_ms f = milliseconds covered ∧
      covered = Z.of_nat (size (ran (10 * NS_PER_MS) (60 * NS_PER_MS) example_spans)).
Proof.
  split; [by vm_compute|].
  destruct (lag_explained example_monitor (Spans_new 4) example_spans (10 * NS_PER_MS) (60 * NS_PER_MS)) as
    [(f & covered & rest & Hout & _ & _ & Hc & _ & _ & _ & Hrest) _];
    [done|done|cbn; lia|done|apply example_spans_in_operations|cbn; lia|].
  assert (Hf : (λ e, match e with (LagEvent f, _) => Some (lg_covered_ms f, lg_unexplained_ms f) | _ => None end) <$>
    head (ld_output (diagnostics_tick (10 * NS_PER_MS) (60 * NS_PER_MS) true example_monitor)) =
    Some (Some (milliseconds (30 * NS_PER_MS), milliseconds (20 * NS_PER_MS)))) by (vm_compute; reflexivity).
  rewrite Hout in Hf. injection Hf as Hf1 Hf2. exists f, rest. split; [exact Hout|]. split; [exact Hf1|]. split; [exact Hf2|].
  exists covered. split; [exact Hc|]. assert (Hlost : (length (kept example_spans) - ls_capacity (Spans_new 4))%nat = 0%nat) by (vm_compute; reflexivity).
  revert Hrest. generalize Hlost. generalize (length (kept example_spans) - ls_capacity (Spans_new 4))%nat. intros n -> Hrest.
  exact (proj1 Hrest).
Defined.
