(* ===== verification/Settings.v ===== *)
(** * Runtime settings

    runtime/settings.py, [_apply_cli] and the logging level of entrypoints/serve.py, and what runtime/service.py makes of the
    settings; [StalePolicy] is in RealtimeFacts.v.  The environment is a map of texts, a path is its text.  The check of an IPv6 host in brackets (ipaddress, of the
    standard library) is a parameter.  What accepted settings are good for is in SettingsUse.v. *)

From S2P Require Import Prelude PyStr DecimalValues Timeframes Identity Candles RealtimeFacts PyFloat Connector.
From S2P Require Import StreamState Instruments OpenInterest Storage AbsStore Ingest ImportWindow UseCase Repair.
From S2P Require Import RealtimeRecovery RuntimeStatus RecoveryWorker Reconciliation HistoricalWorker.

Record RuntimeSettings := mkSettings {
  database_path : string;
  markets_config_path : string;
  http_host : string;
  http_port : Z;
  rest_base_url : string;
  websocket_url : string;
  startup_backfill_windows_per_stream : Z;
  startup_repair_windows_per_stream : Z;
  realtime_recovery_windows_per_stream : Z;
  historical_retry_base_seconds : float;
  historical_retry_max_seconds : float;
  oi_track_windows_per_pass : Z;
  oi_live_timeout_seconds : float;
  oi_prefetch_delay_seconds : float;
  oi_prefetch_retry_seconds : float;
  oi_prefetch_concurrency : Z;
  realtime_recovery_base_seconds : float;
  realtime_recovery_max_seconds : float;
  realtime_recovery_idle_seconds : float;
  realtime_stale_check_seconds : float;
  reconnect_max_attempts : Z;
  reconnect_delay_seconds : float;
  websocket_ping_timeout_seconds : float;
  event_loop_lag_warn_seconds : float;
  loop_diagnostics_enabled : bool;
  stale_grace_ms : Z;
  stale_recovery_first_retry_seconds : float;
  stale_recovery_next_retry_seconds : float;
  log_level : string;
  runtime_webhook_enabled : bool;
  strategy_runtime_base_url : string;
  runtime_webhook_timeout_seconds : float;
  runtime_webhook_queue_capacity : Z
}.

(** The defaults of the fields. *)
Definition default_settings : RuntimeSettings :=
  let s := float_of_Z in
  mkSettings "data/market.sqlite3" "config/markets.toml" "127.0.0.1" 8080 "https://api.bybit.com"
    "wss://stream.bybit.com/v5/public/linear" 2 2 2 (s 1) (s 60) 2 (s 2) (s 20) (s 15) 4 (s 1) (s 60)
    (float_of_Dec (mkDec false 1 (-1))) (s 1) 3 (s 1) (s 60) (s 1) false 15000 (s 60) (s 360) "INFO" false ""
    (s 2) 256.

(** ** Comparisons with a bound, and [math.isfinite] *)

Definition fzero : float := float_of_Z 0.
Definition fle (x y : float) : bool := SpecFloat.SFleb x y.
Definition isfinite (x : float) : bool :=
  match x with SpecFloat.S754_zero _ | SpecFloat.S754_finite _ _ _ => true | _ => false end.

(** ** [urlsplit] of a base URL: its scheme and its network location *)

Definition is_alpha (c : Ascii.ascii) : bool :=
  let n := code c in (65 <=? n) && (n <=? 90) || (97 <=? n) && (n <=? 122).
Definition is_scheme_char (c : Ascii.ascii) : bool :=
  is_alpha c || is_digit c || bool_decide (c ∈ [plus; minus; dot]).

(** The characters up to a delimiter of the network location. *)
Definition before_path (l : list Ascii.ascii) : list Ascii.ascii :=
  (span (λ c, negb (bool_decide (c ∈ [chr 47; chr 63; chr 35]))) l).1.

Section settings.
Context (bracketed_host_ok : string → bool).

Definition split_base_url (url : string) : res (string * string) :=
  let l := drop_while (λ c, code c <=? 32) (chars url) in
  let l := filter (λ c, negb (bool_decide (c ∈ [chr 9; chr 10; chr 13])) = true) l in
  let '(head, rest) := span is_scheme_char l in
  let '(scheme, l) :=
    match head, rest with
    | c :: _, colon :: rest => if is_alpha c && Ascii.eqb colon (chr 58) then (lower (text head), rest) else ("", l)
    | _, _ => ("", l)
    end%string in
  match l with
  | a :: b :: l =>
      if Ascii.eqb a (chr 47) && Ascii.eqb b (chr 47) then
        let netloc := before_path l in
        let opening := bool_decide (chr 91 ∈ netloc) in
        let closing := bool_decide (chr 93 ∈ netloc) in
        _ ← raise_if (xorb opening closing) ExcValueError "Invalid IPv6 URL";
        _ ← raise_if (opening && closing && negb (bracketed_host_ok (text netloc))) ExcValueError "Invalid IPv6 URL";
        Ok (scheme, text netloc)
      else Ok (scheme, ""%string)
  | _ => Ok (scheme, ""%string)
  end.

(** ** [__post_init__] *)

Definition check_positive (name : string) (n : Z) : res () :=
  raise_if (n <=? 0) ExcValueError (name +:+ " must be positive").

Definition LOG_LEVELS : list string := ["DEBUG"; "INFO"; "WARNING"; "ERROR"; "CRITICAL"]%string.

Definition check_webhook (s : RuntimeSettings) : res () :=
  url ← split_base_url (strategy_runtime_base_url s);
  _ ← raise_if (negb (bool_decide (url.1 ∈ ["http"; "https"]%string)) || bool_decide (url.2 = ""%string)) ExcValueError
        ("strategy_runtime_base_url must be an absolute http(s) URL when " +:+ "runtime_webhook_enabled is true");
  let timeout := runtime_webhook_timeout_seconds s in
  _ ← raise_if (negb (isfinite timeout) || fle timeout fzero) ExcValueError
        "runtime_webhook_timeout_seconds must be finite and positive";
  raise_if (runtime_webhook_queue_capacity s <=? 0) ExcValueError "runtime_webhook_queue_capacity must be positive".

Definition RuntimeSettings_check (s : RuntimeSettings) : res RuntimeSettings :=
  _ ← raise_if (bool_decide (strip (http_host s) = ""%string)) ExcValueError "http_host must not be empty";
  _ ← raise_if (negb ((1 <=? http_port s) && (http_port s <=? 65535))) ExcValueError "http_port must be in range 1..65535";
  _ ← check_positive "startup_backfill_windows_per_stream" (startup_backfill_windows_per_stream s);
  _ ← check_positive "startup_repair_windows_per_stream" (startup_repair_windows_per_stream s);
  _ ← check_positive "realtime_recovery_windows_per_stream" (realtime_recovery_windows_per_stream s);
  _ ← check_positive "reconnect_max_attempts" (reconnect_max_attempts s);
  _ ← check_positive "oi_track_windows_per_pass" (oi_track_windows_per_pass s);
  _ ← check_positive "oi_prefetch_concurrency" (oi_prefetch_concurrency s);
  _ ← raise_if (flt (historical_retry_base_seconds s) fzero) ExcValueError
        "historical_retry_base_seconds must be non-negative";
  _ ← raise_if (flt (historical_retry_max_seconds s) (historical_retry_base_seconds s)) ExcValueError
        "historical_retry_max_seconds must be >= base";
  _ ← raise_if (negb (isfinite (oi_live_timeout_seconds s)) || fle (oi_live_timeout_seconds s) fzero) ExcValueError
        "oi_live_timeout_seconds must be finite and positive";
  _ ← raise_if (negb (isfinite (oi_prefetch_delay_seconds s)) || flt (oi_prefetch_delay_seconds s) fzero) ExcValueError
        "oi_prefetch_delay_seconds must be finite and non-negative";
  _ ← raise_if (negb (isfinite (oi_prefetch_retry_seconds s)) || fle (oi_prefetch_retry_seconds s) fzero) ExcValueError
        "oi_prefetch_retry_seconds must be finite and positive";
  _ ← raise_if (flt (realtime_recovery_base_seconds s) fzero) ExcValueError
        "realtime_recovery_base_seconds must be non-negative";
  _ ← raise_if (flt (realtime_recovery_max_seconds s) (realtime_recovery_base_seconds s)) ExcValueError
        "realtime_recovery_max_seconds must be >= base";
  _ ← raise_if (fle (realtime_recovery_idle_seconds s) fzero) ExcValueError
        "realtime_recovery_idle_seconds must be positive";
  _ ← raise_if (fle (realtime_stale_check_seconds s) fzero) ExcValueError
        "realtime_stale_check_seconds must be positive";
  _ ← raise_if (flt (reconnect_delay_seconds s) fzero) ExcValueError "reconnect_delay_seconds must be non-negative";
  _ ← raise_if (fle (websocket_ping_timeout_seconds s) fzero) ExcValueError
        "websocket_ping_timeout_seconds must be positive";
  _ ← raise_if (fle (event_loop_lag_warn_seconds s) fzero) ExcValueError "event_loop_lag_warn_seconds must be positive";
  _ ← raise_if (stale_grace_ms s <? 0) ExcValueError "stale_grace_ms must be non-negative";
  _ ← raise_if (fle (stale_recovery_first_retry_seconds s) fzero) ExcValueError
        "stale_recovery_first_retry_seconds must be positive";
  _ ← raise_if (flt (stale_recovery_next_retry_seconds s) (stale_recovery_first_retry_seconds s)) ExcValueError
        "stale_recovery_next_retry_seconds must be >= first";
  _ ← raise_if (negb (bool_decide (upper (log_level s) ∈ LOG_LEVELS))) ExcValueError "unsupported log_level";
  _ ← (if runtime_webhook_enabled s then check_webhook s else Ok ());
  mret s.

(** ** The environment *)

Definition env_get (env : gmap string string) (name fallback : string) : string := default fallback (env !! name).

Definition env_int (env : gmap string string) (name fallback : string) : res Z :=
  let value := env_get env name fallback in
  match py_int value with
  | Some n => Ok n
  | None => raise ExcValueError ("invalid literal for int() with base 10: " +:+ repr value)
  end.

Definition env_float (env : gmap string string) (name fallback : string) : res float :=
  let value := env_get env name fallback in
  match py_float value with
  | Some x => Ok x
  | None => raise ExcValueError ("could not convert string to float: " +:+ repr value)
  end.

(** [_parse_bool] *)
Definition parse_bool (value : string) : bool :=
  bool_decide (lower (strip value) ∈ ["1"; "true"; "yes"; "on"]%string).

(** [_CommittedBarWebhookEnvironment] *)
Record WebhookEnvironment := mkWebhook {
  wh_enabled : bool;
  wh_base_url : string;
  wh_timeout_seconds : float;
  wh_queue_capacity : Z
}.

Definition parse_webhook_environment (env : gmap string string) : res WebhookEnvironment :=
  if negb (parse_bool (env_get env "MDS_RUNTIME_WEBHOOK_ENABLED" "false")) then
    mret (mkWebhook false "" (float_of_Z 2) 256)
  else
    timeout ← env_float env "MDS_RUNTIME_WEBHOOK_TIMEOUT_SECONDS" "2.0";
    capacity ← env_int env "MDS_RUNTIME_WEBHOOK_QUEUE_CAPACITY" "256";
    mret (mkWebhook true (env_get env "MDS_STRATEGY_RUNTIME_BASE_URL" "") timeout capacity).

Definition from_environment (env : gmap string string) : res RuntimeSettings :=
  webhook ← parse_webhook_environment env;
  http_port ← env_int env "MDS_HTTP_PORT" "8080";
  backfill_windows ← env_int env "MDS_STARTUP_BACKFILL_WINDOWS_PER_STREAM" "2";
  repair_windows ← env_int env "MDS_STARTUP_REPAIR_WINDOWS_PER_STREAM" "2";
  recovery_windows ← env_int env "MDS_REALTIME_RECOVERY_WINDOWS_PER_STREAM" "2";
  historical_base ← env_float env "MDS_HISTORICAL_RETRY_BASE_SECONDS" "1.0";
  historical_max ← env_float env "MDS_HISTORICAL_RETRY_MAX_SECONDS" "60.0";
  oi_windows ← env_int env "MDS_OI_TRACK_WINDOWS_PER_PASS" "2";
  oi_timeout ← env_float env "MDS_OI_LIVE_TIMEOUT_SECONDS" "2.0";
  prefetch_delay ← env_float env "MDS_OI_PREFETCH_DELAY_SECONDS" "20.0";
  prefetch_retry ← env_float env "MDS_OI_PREFETCH_RETRY_SECONDS" "15.0";
  prefetch_concurrency ← env_int env "MDS_OI_PREFETCH_CONCURRENCY" "4";
  recovery_base ← env_float env "MDS_REALTIME_RECOVERY_BASE_SECONDS" "1.0";
  recovery_max ← env_float env "MDS_REALTIME_RECOVERY_MAX_SECONDS" "60.0";
  recovery_idle ← env_float env "MDS_REALTIME_RECOVERY_IDLE_SECONDS" "0.1";
  stale_check ← env_float env "MDS_REALTIME_STALE_CHECK_SECONDS" "1.0";
  reconnect_attempts ← env_int env "MDS_RECONNECT_MAX_ATTEMPTS" "3";
  reconnect_delay ← env_float env "MDS_RECONNECT_DELAY_SECONDS" "1.0";
  ping_timeout ← env_float env "MDS_WS_PING_TIMEOUT_SECONDS" "60.0";
  lag_warn ← env_float env "MDS_EVENT_LOOP_LAG_WARN_SECONDS" "1.0";
  stale_grace ← env_int env "MDS_STALE_GRACE_MS" "15000";
  first_retry ← env_float env "MDS_STALE_RECOVERY_FIRST_RETRY_SECONDS" "60.0";
  next_retry ← env_float env "MDS_STALE_RECOVERY_NEXT_RETRY_SECONDS" "360.0";
  RuntimeSettings_check (mkSettings (env_get env "MDS_DATABASE_PATH" "data/market.sqlite3")
    (env_get env "MDS_MARKETS_CONFIG_PATH" "config/markets.toml") (env_get env "MDS_HTTP_HOST" "127.0.0.1") http_port
    (env_get env "MDS_REST_BASE_URL" "https://api.bybit.com")
    (env_get env "MDS_WEBSOCKET_URL" "wss://stream.bybit.com/v5/public/linear")
    backfill_windows repair_windows recovery_windows historical_base historical_max oi_windows oi_timeout prefetch_delay
    prefetch_retry prefetch_concurrency recovery_base recovery_max recovery_idle stale_check reconnect_attempts
    reconnect_delay ping_timeout lag_warn (parse_bool (env_get env "MDS_LOOP_DIAGNOSTICS_ENABLED" "false")) stale_grace
    first_retry next_retry (upper (env_get env "MDS_LOG_LEVEL" "INFO")) (wh_enabled webhook) (wh_base_url webhook)
    (wh_timeout_seconds webhook) (wh_queue_capacity webhook)).

(** ** serve.py *)

(** The parsed command line; [None] is an option that was not given. *)
Record ServeArguments := mkServeArguments {
  arg_database : option string;
  arg_config : option string;
  arg_host : option string;
  arg_port : option Z;
  arg_rest_url : option string;
  arg_websocket_url : option string;
  arg_startup_backfill_windows : option Z;
  arg_startup_repair_windows : option Z;
  arg_log_level : option string
}.

(** [_apply_cli]: [replace] checks the settings again. *)
Definition apply_cli (s : RuntimeSettings) (args : ServeArguments) : res RuntimeSettings :=
  RuntimeSettings_check (mkSettings
    (default (database_path s) (arg_database args)) (default (markets_config_path s) (arg_config args))
    (default (http_host s) (arg_host args)) (default (http_port s) (arg_port args))
    (default (rest_base_url s) (arg_rest_url args)) (default (websocket_url s) (arg_websocket_url args))
    (default (startup_backfill_windows_per_stream s) (arg_startup_backfill_windows args))
    (default (startup_repair_windows_per_stream s) (arg_startup_repair_windows args))
    (realtime_recovery_windows_per_stream s) (historical_retry_base_seconds s) (historical_retry_max_seconds s)
    (oi_track_windows_per_pass s) (oi_live_timeout_seconds s) (oi_prefetch_delay_seconds s)
    (oi_prefetch_retry_seconds s) (oi_prefetch_concurrency s) (realtime_recovery_base_seconds s)
    (realtime_recovery_max_seconds s) (realtime_recovery_idle_seconds s) (realtime_stale_check_seconds s)
    (reconnect_max_attempts s) (reconnect_delay_seconds s) (websocket_ping_timeout_seconds s)
    (event_loop_lag_warn_seconds s) (loop_diagnostics_enabled s) (stale_grace_ms s)
    (stale_recovery_first_retry_seconds s) (stale_recovery_next_retry_seconds s)
    (default (log_level s) (arg_log_level args)) (runtime_webhook_enabled s) (strategy_runtime_base_url s)
    (runtime_webhook_timeout_seconds s) (runtime_webhook_queue_capacity s)).

(** [getattr(logging, name)] for the accepted names, where it is a level; the lower-case names are
    functions of the module. *)
Definition logging_level (name : string) : option Z :=
  snd <$> List.find (λ p, String.eqb p.1 name) (zip LOG_LEVELS [10; 20; 30; 40; 50]).
End settings.

(** ** What the service is built with *)

Definition reconnect_policy (s : RuntimeSettings) : ReconnectPolicy :=
  mkReconnectPolicy (reconnect_max_attempts s) (reconnect_delay_seconds s) (float_of_Z 30).
Definition historical_config (s : RuntimeSettings) : HistoricalConfig :=
  mkHistoricalConfig (historical_retry_base_seconds s) (historical_retry_max_seconds s) false.
Definition worker_config (s : RuntimeSettings) : WorkerConfig :=
  mkWorkerConfig (realtime_recovery_windows_per_stream s) (realtime_recovery_base_seconds s)
    (realtime_recovery_max_seconds s) (stale_recovery_first_retry_seconds s) (stale_recovery_next_retry_seconds s) true.

(** ** Facts: what a refusal is *)

Section facts.
Context (bracketed_host_ok : string → bool).

Lemma split_base_url_raises url : raises_only ExcValueError (split_base_url bracketed_host_ok url).
Proof. unfold split_base_url. cbv zeta. raises_only_tac. Qed.

Lemma check_raises s : raises_only ExcValueError (RuntimeSettings_check bracketed_host_ok s).
Proof.
  pose proof split_base_url_raises. unfold RuntimeSettings_check, check_webhook, check_positive. cbv zeta. raises_only_tac.
Qed.

Lemma env_int_raises env name fallback : raises_only ExcValueError (env_int env name fallback).
Proof. unfold env_int. cbv zeta. raises_only_tac. Qed.
Lemma env_float_raises env name fallback : raises_only ExcValueError (env_float env name fallback).
Proof. unfold env_float. cbv zeta. raises_only_tac. Qed.
#[local] Hint Resolve check_raises env_int_raises env_float_raises : mds.

Lemma from_environment_raises env : raises_only ExcValueError (from_environment bracketed_host_ok env).
Proof. unfold from_environment, parse_webhook_environment. raises_only_tac. Qed.
End facts.

(** A NaN passes every check but those of the open interest timeouts and of the webhook: with it as
    the maximum of the historical backoff, a failed stream is due again at once. *)
Example nan_accepted :
  match from_environment (λ _, true) {[ "MDS_HISTORICAL_RETRY_MAX_SECONDS" := "nan" ]}%string with
  | Ok s =>
      match historical_delay (historical_config s) 1 with
      | Ok delay => fgt (fadd (float_of_Z 1000) delay) (float_of_Z 1000) = false
      | Raise _ => False
      end
  | Raise _ => False
  end.
Proof. by vm_compute. Qed.

(** A lower-case level of the command line passes the check, and is no level for the logging setup. *)
Example lower_level_accepted :
  let args := mkServeArguments None None None None None None None None (Some "debug"%string) in
  match apply_cli (λ _, true) default_settings args with
  | Ok s => log_level s = "debug"%string ∧ logging_level (log_level s) = None
  | Raise _ => False
  end.
Proof. by vm_compute. Qed.
