(* ===== verification/Service.v ===== *)
(** * The service process

    runtime/service.py with runtime/open_interest_composition.py, the parts of runtime/wiring.py and
    runtime/committed_bar_notification_factory.py it is built from, and the preparation in
    entrypoints/serve.py.  A computation [SvM] runs over the process: the store of the database
    and the status store; an error keeps what was done.  [service_start] is [RuntimeService.run] up
    to its task group, and ends in what the tasks share: the coordinator of Coordinator.v and the
    worker of HistoricalWorker.v.  The HTTP server is in
    HttpServer.v, the end of a run, the diagnostics and the log lines in Shell.v. *)

From S2P Require Import Prefetch.
From S2P Require Import Prelude PyStr DecimalValues Timeframes Identity Gaps Candles StreamState.
From S2P Require Import Instruments OpenInterest Storage AbsStore Ingest ImportWindow UseCase.
From S2P Require Import Backfill FullBootstrap LowerBound Repair OpenInterestTrack Sqlite SqliteRefinement.
From S2P Require Import RealtimeFacts Supervisor Continuity LifecycleUpdate RealtimeRecovery RuntimeStatus PyFloat.
From S2P Require Import RecoveryWorker Coordinator Reconciliation HistoricalWorker Json BybitRest BybitWebSocket Connector Settings.

(** [adapters.sqlite.bootstrap.register_stream], in a transaction of its own. *)
Definition register_stream (k : StreamKey) (symbol : string) (now : Z) : StRes (World AbsStore) () := λ w,
  match abs_register k symbol now (w_db w) with
  | Ok a => (Ok (), mkWorld a (w_tx w) (w_ticks w) (w_calls w))
  | Raise e => (Raise e, w)
  end.

(** [VerifyConfiguredInstrumentMetadata.execute] over the source. *)
Definition verify_metadata (category : string) (c : InstrumentCoverage) : M () :=
  fetched ← attempt (call (EvSpecification (ic_instrument c)));
  _ ← lift (verify_configured_metadata category fetched c);
  mret ().

Record Process := mkProcess { pr_world : World AbsStore; pr_status : RuntimeStatus }.

Notation SvM := (StRes Process).

(** A method of the status store. *)
Definition sv_status (m : RuntimeStatus → res () * RuntimeStatus) : SvM () := λ p,
  let r := m (pr_status p) in (r.1, mkProcess (pr_world p) r.2).

Section service.
Context `{E : Env}.

(** A program over the store. *)
Definition sv_m {A} (m : M A) : SvM A := λ p,
  let r := run m (pr_world p) in (r.1, mkProcess r.2 (pr_status p)).

(** ** entrypoints/serve.py *)

(** [verifier.execute(coverage)] *)
Definition verify_instrument (category : string) (c : InstrumentCoverage) : SvM () := sv_m (verify_metadata category c).

Definition sv_register (k : StreamKey) (symbol : string) (now : Z) : SvM () := λ p,
  let r := register_stream k symbol now (pr_world p) in (r.1, mkProcess r.2 (pr_status p)).

(** The coverage of a ticker: the last of the dictionary's duplicates. *)
Definition coverage_by_ticker (config : ValidatedMarketConfig) (tk : string) : option InstrumentCoverage :=
  last (filter (λ c, ticker (ic_instrument c) = tk) (enabled_instruments config)).

Definition register_configured (config : ValidatedMarketConfig) (k : StreamKey) : SvM () :=
  coverage ← sr_lift (match coverage_by_ticker config (ticker (instrument k)) with
                      | Some c => Ok c
                      | None => raise ExcKeyError (repr (ticker (instrument k)))
                      end);
  now ← sv_m now_ms;
  sv_register k (ic_exchange_symbol coverage) now.

(** [_run] before the service is built. *)
Definition serve_prepare (config : ValidatedMarketConfig) : SvM () :=
  _ ← sr_each (verify_instrument (ms_category (mc_source config))) (enabled_instruments config);
  sr_each (register_configured config) (enabled_streams config).

(** ** open_interest_composition.py and wiring.py *)

Definition open_interest_latest (k : StreamKey) : M (option Z) :=
  p ← track_progress k; mret (tp_latest p).

(** [initial_open_interest_frontiers] *)
Fixpoint initial_open_interest_frontiers (admitted flagged : list StreamKey) : M (gmap StreamKey (option Z)) :=
  match flagged with
  | [] => mret ∅
  | k :: flagged =>
      latest ← (if bool_decide (k ∈ admitted) then open_interest_latest k else mret None);
      rest ← initial_open_interest_frontiers admitted flagged;
      mret (<[k := latest]> rest)
  end.

(** The dictionary of the last committed candles. *)
Fixpoint initial_latest (streams : list StreamKey) : M (gmap StreamKey (option Z)) :=
  match streams with
  | [] => mret ∅
  | k :: streams =>
      s ← snapshot k;
      rest ← initial_latest streams;
      mret (<[k := latest_committed_open_time_ms s]> rest)
  end.

(** [build_committed_bar_notifier_worker] *)
Definition build_notifier (s : RuntimeSettings) (config : ValidatedMarketConfig) : res (option Notifier) :=
  let worker := mkNotifier (runtime_webhook_queue_capacity s) [] NotifierIdle in
  if negb (runtime_webhook_enabled s) then
    mret (if bool_decide (open_interest_streams config = []) then None else Some worker)
  else
    _ ← raise_if (runtime_webhook_queue_capacity s <? Z.of_nat (length (enabled_streams config))) ExcValueError
          "MDS_RUNTIME_WEBHOOK_QUEUE_CAPACITY must be at least the number of enabled streams";
    mret (Some worker).

(** [open_interest_prefetch]: absent without flagged streams or when off. *)
Definition open_interest_prefetch (s : RuntimeSettings) (config : ValidatedMarketConfig) : res (option PrefetchConfig) :=
  if bool_decide (open_interest_streams config = []) || feq_Z (oi_prefetch_delay_seconds s) 0 then mret None
  else
    cfg ← PrefetchConfig_new (open_interest_streams config) (oi_prefetch_delay_seconds s) (oi_prefetch_retry_seconds s)
            (oi_prefetch_concurrency s);
    mret (Some cfg).

(** [admit_with_open_interest]: the hand-off of a stream whose reconciliation is complete. *)
Definition handoff (streams : list StreamKey) (clock : nat → Z) (grace_ms : Z) (flagged : list StreamKey)
    (k : StreamKey) : CM () :=
  _ ← (if bool_decide (k ∈ flagged) then
         latest ← co_m (open_interest_latest k);
         match latest with
         | Some t => co_sm (synchronize_open_interest_open_time k t)
         | None => mret ()
         end
       else mret ());
  coordinator_admit clock grace_ms k.

(** ** service.py *)

Section start.
Context (lower_bound : LowerBoundResolver) (repair : StreamRepair)
  (open_interest : option (StreamKey → option ReconciliationWindow → M StartupStreamOutcome))
  (s : RuntimeSettings) (config : ValidatedMarketConfig).

(** The reason the loop of [_startup] publishes for an outcome. *)
Definition startup_blocking_reason (o : StartupStreamOutcome) : option string :=
  match su_classification o with
  | START_INCOMPLETE => Some "historical_reconciliation"
  | START_RECOVERABLE_FAILURE => Some "historical_backoff"
  | START_FATAL_FAILURE => Some "historical_fatal_failure"
  | _ => None
  end%string.

Definition publish_outcome (o : StartupStreamOutcome) : SvM () :=
  _ ← match startup_blocking_reason o with
      | Some reason => sv_status (set_blocking_reason (su_stream o) reason)
      | None => mret ()
      end;
  durable ← sv_m (snapshot (su_stream o));
  sv_status (update_stream durable None).

(** [_startup] *)
Definition service_startup : SvM (list StartupStreamOutcome) :=
  outcomes ← sv_m (startup_execute lower_bound repair (startup_backfill_windows_per_stream s)
                     (startup_repair_windows_per_stream s) open_interest (open_interest_streams config)
                     (enabled_streams config));
  _ ← sr_each publish_outcome outcomes;
  mret outcomes.

Definition connecting_streams (outcomes : list StartupStreamOutcome) : list StreamKey :=
  map su_stream (filter (λ o, su_connecting o = true) outcomes).

(** [_build_realtime]: what the coordinator starts from. *)
Definition build_realtime (admitted : list StreamKey) : SvM (TopicMap * Supervisor * option Notifier * option PrefetchConfig) :=
  topic_map ← sr_lift (TopicMap_from_config config);
  initial ← sv_m (initial_latest (enabled_streams config));
  oi_initial ← sv_m (initial_open_interest_frontiers admitted (open_interest_streams config));
  _ ← sr_lift (StalePolicy_new (stale_grace_ms s));
  supervisor ← sr_lift (Supervisor_new (enabled_streams config) initial oi_initial);
  notifier ← sr_lift (build_notifier s config);
  _ ← sr_lift (ReconnectPolicy_check (reconnect_policy s));
  prefetch ← sr_lift (open_interest_prefetch s config);
  mret (topic_map, supervisor, notifier, prefetch).

(** The gate of [RealtimeAdmissionGate(admitted)]. *)
Definition initial_gate (admitted : list StreamKey) : AdmissionGate := foldl (λ g k, admit_stream k g) [] admitted.

(** [except Exception as exc: self._mark_fatal(exc); raise] *)
Definition or_fatal {A} (m : SvM A) : SvM A := λ p,
  match m p with
  | (Raise e, p') =>
      (Raise e, mkProcess (pr_world p')
                  (mark_fatal (class_name (exn_cls e) +:+ ": " +:+ exn_str e) (pr_status p')))
  | r => r
  end.

(** [run] up to its task group: what its tasks share. *)
Definition service_start : SvM (Coordinator * HistoricalWorker * option PrefetchConfig) :=
  or_fatal (
    outcomes ← service_startup;
    let admitted := connecting_streams outcomes in
    built ← build_realtime admitted;
    _ ← sv_status (λ st, (Ok (), mark_healthy st));
    p ← sr_get;
    mret (mkCoordinator built.1.1.2 Worker_new (initial_gate admitted) (pr_status p) (pr_world p) built.1.2,
          HistoricalWorker_new outcomes, built.2)).
End start.

(** ** With the components of wiring.py *)

Definition wired_open_interest (windows : Z) : StreamKey → option ReconciliationWindow → M StartupStreamOutcome :=
  oi_reconcile (resolve_lower_bound oi_track_progress (open_interest_probe MAX_POINTS_PER_WINDOW))
    (wired_oi_repair MAX_POINTS_PER_WINDOW) windows windows.

Definition wired_start (s : RuntimeSettings) (config : ValidatedMarketConfig) : SvM (Coordinator * HistoricalWorker * option PrefetchConfig) :=
  service_start (resolve_lower_bound candle_progress (candle_probe 1000)) (wired_repair 1000)
    (Some (wired_open_interest (oi_track_windows_per_pass s))) s config.

(** [serve]: the preparation and the start. *)
Definition serve (s : RuntimeSettings) (config : ValidatedMarketConfig) (w : World AbsStore) :
    res (Coordinator * HistoricalWorker * option PrefetchConfig) * Process :=
  (_ ← serve_prepare config; wired_start s config) (mkProcess w (RuntimeStatus_new (enabled_streams config))).
End service.

(** ** Facts: an outcome is about the stream of its pass *)

Definition returns_for `{E : Env} (k : StreamKey) (m : M StartupStreamOutcome) : Prop :=
  ∀ (v : World AbsStore) o v', run m v = (Ok o, v') → su_stream o = k.

Section outcomes.
Context `{E : Env}.

Lemma returns_ret k o : su_stream o = k → returns_for k (mret o).
Proof. intros Hs v o' v' [= <- _]. exact Hs. Qed.
Lemma returns_bind {A} k (m : M A) f : (∀ a, returns_for k (f a)) → returns_for k (a ← m; f a).
Proof. intros Hf v o v' (a & v1 & _ & H)%run_bind_ok. by eapply Hf. Qed.
Lemma returns_try k m h : returns_for k m → (∀ e, returns_for k (h e)) → returns_for k (try_catch m h).
Proof.
  intros Hm Hh v o v'. rewrite run_try. destruct (run m v) as [[o1|e] v1] eqn:Hr.
  - intros [= <- _]. by eapply Hm.
  - apply Hh.
Qed.
Lemma returns_lift k e : returns_for k (lift (Raise e)).
Proof. by intros v o v'. Qed.
End outcomes.

Ltac returns_tac :=
  repeat match goal with
  | |- returns_for _ (try_catch _ _) => apply returns_try; [|intros ?]
  | |- returns_for _ (mret _) => apply returns_ret; done
  | |- returns_for _ (mbind _ _) => apply returns_bind; intros ?
  | |- returns_for _ (match ?x with _ => _ end) => destruct x
  end.

Section passes.
Context `{E : Env} (lower_bound : LowerBoundResolver) (repair : StreamRepair) (discovery_windows repair_windows : Z).

Lemma oi_reconcile_stream k w : returns_for k (oi_reconcile lower_bound repair discovery_windows repair_windows k w).
Proof. unfold oi_reconcile, oi_repair_window, oi_outcome. cbv zeta. returns_tac. Qed.

Context (open_interest : option (StreamKey → option ReconciliationWindow → M StartupStreamOutcome))
  (oi_streams : list StreamKey).
Hypothesis Hoi : ∀ p k w, open_interest = Some p → returns_for k (p k w).

Lemma reconcile_window_stream k w :
  returns_for k (reconcile_window repair repair_windows open_interest oi_streams k w).
Proof using Hoi.
  unfold reconcile_window. do 3 (apply returns_bind; intros ?). unfold settle_repair.
  match goal with |- context [rr_status ?r] => destruct (rr_status r) end; [|returns_tac|cbv zeta; returns_tac].
  intros v o v' (held & v1 & Hheld & H)%run_bind_ok. destruct held as [o1|].
  - injection H as <- _. unfold open_interest_not_proven in Hheld. destruct open_interest as [p|] eqn:Hp; [|done].
    destruct (negb _); [done|]. apply run_bind_ok in Hheld as (o2 & v2 & Ho & Hheld). injection Hheld as Hheld _.
    case_bool_decide; [done|]. injection Hheld as <-. cbn. by eapply Hoi.
  - revert H. apply (returns_bind k); intros ?. by apply returns_ret.
Qed.

Lemma reconcile_stream k w :
  returns_for k (reconcile lower_bound repair discovery_windows repair_windows open_interest oi_streams k w).
Proof using Hoi.
  unfold reconcile. pose proof (reconcile_window_stream k). apply returns_try; [|intros ?; cbv zeta; returns_tac].
  apply returns_bind; intros ?. destruct w; [done|]. apply returns_bind; intros lower.
  destruct (lb_resolved lower), (lb_earliest_available_open_time_ms lower); try by apply returns_ret.
  apply returns_bind; intros [w|]; [done|]. by apply returns_ret.
Qed.
End passes.

(** ** Facts: the startup pass over all streams *)

Section startup.
Context `{E : Env} (lower_bound : LowerBoundResolver) `{!LowerBoundSafe lower_bound}
  (repair : StreamRepair) `{!RepairPromise candle_stored repair} (discovery_windows repair_windows : Z)
  (open_interest : option (StreamKey → option ReconciliationWindow → M StartupStreamOutcome))
  `{!PassOptionSafe open_interest} (oi_streams : list StreamKey).
Hypothesis Hoi : ∀ p k w, open_interest = Some p → returns_for k (p k w).

(** A stream that is reported as connecting was proven when its pass ended, and not touched since. *)
Definition handed_over (a' : AbsStore) (o : StartupStreamOutcome) : Prop :=
  su_classification o = START_CONNECTING →
  ∃ a1 w, connecting_report open_interest oi_streams (su_stream o) None a1 o w ∧
    ab_streams a' !! su_stream o = ab_streams a1 !! su_stream o.

Notation execute := (startup_execute lower_bound repair discovery_windows repair_windows open_interest oi_streams).

(** What the pass over the streams [ks] leaves of the store [a]. *)
Record passed (ks : list StreamKey) (a : AbsStore) (w : World AbsStore) : Prop := {
  ps_tx : w_tx w = None;
  ps_inv : store_inv (w_db w);
  ps_others : ∀ k, k ∉ ks → ab_streams (w_db w) !! k = ab_streams a !! k;
  ps_registered : ∀ k, is_Some (ab_streams a !! k) → is_Some (ab_streams (w_db w) !! k)
}.

Lemma startup_execute_report ks a n c :
  store_inv a → NoDup ks → (∀ k, k ∈ ks → is_Some (ab_streams a !! k)) →
  let p := run (execute ks) (mkWorld a None n c) in
  passed ks a p.2 ∧
  match p.1 with
  | Ok os => map su_stream os = ks ∧ Forall (handed_over (w_db p.2)) os
  | Raise e => exn_cls e = ExcInvalidStreamTransition
  end.
Proof using Hoi LowerBoundSafe0 PassOptionSafe0 RepairPromise0.
  revert a n c. induction ks as [|k ks IH]; intros a n c Hi Hnd Hreg p.
  { subst p. cbn. split; [by split|]. by split. }
  apply NoDup_cons in Hnd as [Hk Hnd]. subst p. cbn [startup_execute]. rewrite run_bind.
  destruct (reconcile_pass lower_bound repair discovery_windows repair_windows open_interest oi_streams k None a n c
    Hi (Hreg k ltac:(by left))) as (Htx & Hg & Hout).
  destruct (run (reconcile _ _ _ _ _ _ _ _) _) as [[o|e] [db tx n1 c1]] eqn:Hrun; cbn [fst snd] in *;
    cbn [w_tx w_db] in Htx, Hg; subst tx; destruct Hg as [Hi1 [Ho Hs _]].
  2:{ split; [|exact Hout]. split; [done|done| |].
      - intros k' [Hne _]%not_elem_of_cons. by apply Ho.
      - intros k' Hk'. destruct (decide (k' = k)) as [->|Hne]; [by apply Hs|]. cbn. by rewrite Ho. }
  assert (Hreg1 : ∀ k', is_Some (ab_streams a !! k') → is_Some (ab_streams db !! k')).
  { intros k' Hk'. destruct (decide (k' = k)) as [->|Hne]; [by apply Hs|]. by rewrite Ho. }
  specialize (IH db n1 c1 Hi1 Hnd ltac:(intros k' Hk'; apply Hreg1, Hreg; by right)). cbv zeta in IH.
  rewrite run_bind. destruct (run (execute ks) (mkWorld db None n1 c1)) as [[os|e] w2]; cbn [fst snd] in *;
    destruct IH as [[H1 H2 H3 H4] Hos].
  - rewrite run_ret. cbn [fst snd]. split.
    + split; [done|done| |by auto]. intros k' [Hne Hk']%not_elem_of_cons. by rewrite H3, Ho.
    + destruct Hos as [Hm HF]. pose proof (reconcile_stream lower_bound repair discovery_windows repair_windows
        open_interest oi_streams Hoi k None _ _ _ Hrun) as Hst. cbn [map].
      split; [by rewrite Hst, Hm|]. constructor; [|exact HF]. intros Hc. destruct (Hout Hc) as [w Hw].
      exists db, w. rewrite Hst. split; [exact Hw|]. by apply H3.
  - split; [|exact Hos]. split; [done|done| |by auto]. intros k' [Hne Hk']%not_elem_of_cons. by rewrite H3, Ho.
Qed.
End startup.

(** ** Facts: what is published of the outcomes *)

Section publish.
Context `{E : Env} (a : AbsStore) (n c : nat).
Hypothesis Hi : store_inv a.

Lemma set_blocking_reason_exact k reason st old :
  find_status (sts_streams st) k = Some old →
  ∃ st', set_blocking_reason k reason st = (Ok (), st') ∧ sts_blocking st' = <[k := reason]> (sts_blocking st) ∧
    is_Some (find_status (sts_streams st') k) ∧
    ∀ k', k' ≠ k → find_status (sts_streams st') k' = find_status (sts_streams st) k'.
Proof.
  intros Hold. unfold set_blocking_reason, replace_stream. cbn [sts_streams]. rewrite Hold.
  eexists. split; [reflexivity|]. cbn [sts_blocking sts_streams]. split; [done|].
  split; [|intros k' Hk'; by rewrite find_status_replaced, bool_decide_false].
  rewrite find_status_replaced, bool_decide_true, Hold by done. by eexists.
Qed.

(** The entry of a stream after its outcome was published. *)
Definition published_entry (r : StreamRec) (o : StartupStreamOutcome) (st : RuntimeStatus) : Prop :=
  find_status (sts_streams st) (su_stream o) = Some (stream_status (sts_blocking st) (sr_state r) None) ∧
  ∀ reason, startup_blocking_reason o = Some reason → sts_blocking st !! su_stream o = Some reason.

Lemma publish_outcome_exact o r st :
  ab_streams a !! su_stream o = Some r → is_Some (find_status (sts_streams st) (su_stream o)) →
  ∃ st', publish_outcome o (mkProcess (mkWorld a None n c) st) = (Ok (), mkProcess (mkWorld a None n c) st') ∧
    published_entry r o st' ∧
    ∀ k, k ≠ su_stream o → find_status (sts_streams st') k = find_status (sts_streams st) k ∧
      sts_blocking st' !! k = sts_blocking st !! k.
Proof using Hi.
  intros Hr [old Hold]. unfold publish_outcome. set (k := su_stream o) in *.
  assert (Hb : ∃ st1, match startup_blocking_reason o with
      | Some reason => sv_status (set_blocking_reason k reason)
      | None => mret ()
      end (mkProcess (mkWorld a None n c) st) = (Ok (), mkProcess (mkWorld a None n c) st1) ∧
    is_Some (find_status (sts_streams st1) k) ∧
    (∀ reason, startup_blocking_reason o = Some reason → sts_blocking st1 !! k = Some reason) ∧
    (∀ k', k' ≠ k → find_status (sts_streams st1) k' = find_status (sts_streams st) k' ∧
       sts_blocking st1 !! k' = sts_blocking st !! k')).
  { destruct (startup_blocking_reason o) as [reason|]; [|exists st; split_and!; [done|by exists old|done|done]].
    destruct (set_blocking_reason_exact k reason st old Hold) as (st1 & Hst1 & Hbl & Hk & Hf). exists st1.
    unfold sv_status. cbn [pr_status pr_world]. rewrite Hst1. cbn [fst snd]. split; [done|]. split; [done|].
    rewrite Hbl. split; [intros ? [= <-]; apply lookup_insert_eq|]. intros k' Hk'.
    split; [by apply Hf|]. by rewrite lookup_insert_ne. }
  destruct Hb as (st1 & Hst1 & [old1 Hold1] & Hr1 & Ho1). unfold mbind at 1, StRes_bind. rewrite Hst1.
  unfold mbind, StRes_bind, sv_m. cbn [pr_world pr_status]. rewrite (run_snapshot a n c k r Hi Hr). cbn [fst snd].
  pose proof (store_inv_lookup _ _ _ Hi Hr) as [Hkey _ _ _].
  rewrite <-Hkey in Hold1.
  destruct (update_stream_exact (sr_state r) None st1 old1 Hold1) as (st2 & Hst2 & _ & Hbl2 & Hf2).
  exists st2. unfold sv_status. cbn [pr_status pr_world]. rewrite Hst2. cbn [fst snd]. split; [done|].
  rewrite Hkey in Hf2. split; [split|].
  - fold k. rewrite (Hf2 k), bool_decide_true, Hbl2 by done. done.
  - intros reason Hreason. rewrite Hbl2. by apply Hr1.
  - intros k' Hk'. rewrite (Hf2 k'), bool_decide_false, Hbl2 by done. by apply Ho1.
Qed.

Lemma published_entry_later r o st st' :
  published_entry r o st → find_status (sts_streams st') (su_stream o) = find_status (sts_streams st) (su_stream o) →
  sts_blocking st' !! su_stream o = sts_blocking st !! su_stream o → ss_stream (sr_state r) = su_stream o →
  published_entry r o st'.
Proof.
  intros [H1 H2] Hf Hb Hk. split; [|intros reason Hr; rewrite Hb; by apply H2]. rewrite Hf, H1.
  unfold stream_status. cbv zeta. by rewrite Hk, Hb.
Qed.
Lemma publish_outcomes_exact os st :
  NoDup (map su_stream os) → (∀ o, o ∈ os → is_Some (ab_streams a !! su_stream o)) →
  (∀ o, o ∈ os → is_Some (find_status (sts_streams st) (su_stream o))) →
  ∃ st', sr_each publish_outcome os (mkProcess (mkWorld a None n c) st) = (Ok (), mkProcess (mkWorld a None n c) st') ∧
    (∀ o r, o ∈ os → ab_streams a !! su_stream o = Some r → published_entry r o st') ∧
    ∀ k, k ∉ map su_stream os → find_status (sts_streams st') k = find_status (sts_streams st) k ∧
      sts_blocking st' !! k = sts_blocking st !! k.
Proof using Hi.
  revert st. induction os as [|o os IH]; intros st Hnd Hreg Hst; cbn [sr_each].
  { exists st. split; [done|]. split; [by intros o r ?%elem_of_nil|done]. }
  cbn [map] in Hnd. apply NoDup_cons in Hnd as [Ho Hnd]. destruct (Hreg o ltac:(by left)) as [r Hr].
  destruct (publish_outcome_exact o r st Hr (Hst o ltac:(by left))) as (st1 & Hp & He & Hother).
  assert (Hne : ∀ o', o' ∈ os → su_stream o' ≠ su_stream o).
  { intros o' Ho' Heq. apply Ho. rewrite <-Heq. apply list_elem_of_fmap. by exists o'. }
  destruct (IH st1 Hnd) as (st2 & Hp2 & He2 & Hother2).
  { intros o' Ho'. apply Hreg. by right. }
  { intros o' Ho'. destruct (Hother _ (Hne o' Ho')) as [-> _]. apply Hst. by right. }
  exists st2. unfold mbind, StRes_bind. rewrite Hp. split; [exact Hp2|]. destruct (Hother2 (su_stream o) Ho) as [Hf2 Hb2].
  split.
  - intros o' r' [->|Ho']%elem_of_cons Hr'; [|by apply He2]. assert (r' = r) as -> by congruence.
    eapply published_entry_later; [exact He|exact Hf2|exact Hb2|]. by destruct (store_inv_lookup _ _ _ Hi Hr) as [Hkey _ _ _].
  - cbn [map]. intros k Hk. destruct (Hother2 k) as [-> ->]; [set_solver|]. apply Hother. set_solver.
Qed.
End publish.

(** ** Facts: what realtime is built from *)

Section built.
Context `{E : Env} (a : AbsStore) (n c : nat).
Hypothesis Hi : store_inv a.

Lemma run_initial_latest streams :
  (∀ k, k ∈ streams → is_Some (ab_streams a !! k)) →
  ∃ m, run (initial_latest streams) (mkWorld a None n c) = (Ok m, mkWorld a None n c) ∧
    ∀ k r, k ∈ streams → ab_streams a !! k = Some r → m !! k = Some (latest_committed_open_time_ms (sr_state r)).
Proof using Hi.
  induction streams as [|k ks IH]; intros Hreg; cbn [initial_latest].
  { exists ∅. split; [done|]. by intros k r ?%elem_of_nil. }
  destruct (Hreg k ltac:(by left)) as [r Hr]. destruct IH as (m & Hm & Hk); [intros k' Hk'; apply Hreg; by right|].
  rewrite run_bind, (run_snapshot a n c k r Hi Hr), run_bind, Hm, run_ret.
  eexists. split; [done|]. intros k' r' Hin Hr'. destruct (decide (k' = k)) as [->|Hne].
  - assert (r' = r) as -> by congruence. apply lookup_insert_eq.
  - rewrite lookup_insert_ne by done. apply Hk; set_solver.
Qed.

Lemma run_open_interest_latest k x w :
  run (open_interest_latest k) (mkWorld a None n c) = (Ok x, w) →
  w = mkWorld a None n c ∧ ∃ r, ab_streams a !! k = Some r ∧ x = tp_latest (track_of k r).
Proof.
  unfold open_interest_latest, track_progress. intros (p & w1 & Hp & H)%run_bind_ok. injection H as <- <-.
  rewrite run_with_uow, run_op in Hp. cbn [store_step abs_storage w_tx w_db] in Hp. unfold read_stream in Hp.
  destruct (ab_streams a !! k) as [r|]; [|done].
  destruct (abs_get_progress k OPEN_INTEREST_TRACK r) as [q|e] eqn:Hq; [|done]. injection Hp as <- <-.
  split; [done|]. exists r. split; [done|]. unfold abs_get_progress, track_of in *.
  by destruct (sr_progress r !! OPEN_INTEREST_TRACK); apply TrackProgress_check_ok in Hq as [-> _].
Qed.

Lemma run_initial_frontiers admitted flagged m w :
  run (initial_open_interest_frontiers admitted flagged) (mkWorld a None n c) = (Ok m, w) →
  w = mkWorld a None n c ∧ ∀ k r, ab_streams a !! k = Some r →
    m !! k = if bool_decide (k ∈ flagged)
             then Some (if bool_decide (k ∈ admitted) then tp_latest (track_of k r) else None) else None.
Proof.
  revert m w. induction flagged as [|k ks IH]; intros m w; cbn [initial_open_interest_frontiers].
  { rewrite run_ret. intros [= <- <-]. by split. }
  intros (x & w1 & Hx & H)%run_bind_ok. apply run_bind_ok in H as (m' & w2 & Hm & H). injection H as <- <-.
  assert (Hx' : w1 = mkWorld a None n c ∧ ∀ r, ab_streams a !! k = Some r →
    x = if bool_decide (k ∈ admitted) then tp_latest (track_of k r) else None).
  { case_bool_decide; [|by injection Hx as <- <-]. apply run_open_interest_latest in Hx as (-> & r & Hr & ->).
    split; [done|]. intros r' Hr'. by assert (r' = r) as -> by congruence. }
  destruct Hx' as [-> Hx']. apply IH in Hm as [-> Hm]. split; [done|]. intros k' r Hr.
  destruct (decide (k' = k)) as [->|Hne].
  - rewrite lookup_insert_eq, bool_decide_true by (by left). by rewrite (Hx' r Hr).
  - rewrite lookup_insert_ne, (Hm k' r Hr) by done.
    by rewrite (bool_decide_ext (k' ∈ k :: ks) (k' ∈ ks)) by set_solver.
Qed.
End built.

Lemma dict_order_elem l : ∀ k, k ∈ dict_order l ↔ k ∈ l.
Proof.
  assert (H : ∀ seen k, k ∈ fold_left (λ seen k, if bool_decide (k ∈ seen) then seen else seen ++ [k]) l seen ↔ k ∈ seen ∨ k ∈ l).
  { induction l as [|x l IH]; intros seen k; cbn; [set_solver|]. rewrite IH. case_bool_decide; set_solver. }
  intros k. unfold dict_order. rewrite H. set_solver.
Qed.

Lemma supervisor_facts_new streams initial initial_oi s k :
  Supervisor_new streams initial initial_oi = Ok s → k ∈ streams →
  find_facts (sv_facts s) k = Some (mkFacts k EXPECTED false None None None (mjoin (initial !! k)) None None None false false
    None None (bool_decide (is_Some (initial_oi !! k))) (mjoin (initial_oi !! k)) None).
Proof.
  unfold Supervisor_new, initial_facts. intros (d & Hd & H)%res_bind_ok Hk. injection H as <-. cbn [sv_facts].
  apply raise_if_bind_ok in Hd as [_ [= <-]]. apply dict_order_elem in Hk. revert Hk. unfold find_facts.
  induction (dict_order streams) as [|x l IH]; [by intros ?%elem_of_nil|]. cbn [map List.find f_stream].
  intros [->|Hk]%elem_of_cons; [by rewrite (bool_decide_true (x = x))|]. destruct (decide (x = k)) as [->|Hx].
  - by rewrite (bool_decide_true (k = k)).
  - rewrite (bool_decide_false (x = k)) by done. by apply IH.
Qed.

Lemma supervisor_facts_known streams initial initial_oi s k f :
  Supervisor_new streams initial initial_oi = Ok s → find_facts (sv_facts s) k = Some f → k ∈ streams.
Proof.
  unfold Supervisor_new, initial_facts. intros (d & Hd & H)%res_bind_ok. injection H as <-. cbn [sv_facts].
  apply raise_if_bind_ok in Hd as [_ [= <-]]. rewrite <-dict_order_elem. unfold find_facts.
  intros [Hin Hk%bool_decide_eq_true]%List.find_some. apply in_map_iff in Hin as (x & <- & Hx%list_elem_of_In).
  cbn in Hk. by subst.
Qed.

Lemma initial_status_known streams k : k ∈ streams → is_Some (find_status (sts_streams (RuntimeStatus_new streams)) k).
Proof.
  intros Hk%dict_order_elem. cbn. revert Hk. unfold find_status.
  induction (dict_order streams) as [|x l IH]; [by intros ?%elem_of_nil|]. cbn [map List.find fst].
  intros [->|Hk]%elem_of_cons; [rewrite bool_decide_true by done; by eexists|].
  case_bool_decide; [by eexists|]. by apply IH.
Qed.

(** ** The start of the service *)

Definition is_fatal (o : StartupStreamOutcome) : bool := bool_decide (su_classification o = START_FATAL_FAILURE).

Lemma outcomes_split os :
  connecting_streams os ++ hw_owned (HistoricalWorker_new os) ++ map su_stream (filter (λ o, is_fatal o = true) os) ≡ₚ
  map su_stream os.
Proof.
  unfold connecting_streams, hw_owned, HistoricalWorker_new. cbn [hw_pc hw_queue app]. rewrite List.map_map. cbn [pd_stream].
  change (λ x, su_stream x) with su_stream. induction os as [|o os IH]; [done|].
  assert (Hc : match su_classification o with
    | START_CONNECTING => su_connecting o = true ∧ unsettled o = false ∧ is_fatal o = false
    | START_FATAL_FAILURE => su_connecting o = false ∧ unsettled o = false ∧ is_fatal o = true
    | _ => su_connecting o = false ∧ unsettled o = true ∧ is_fatal o = false
    end) by (unfold su_connecting, unsettled, is_fatal; by destruct (su_classification o)).
  destruct (su_classification o); destruct Hc as (Hs & Hu & Hf).
  - rewrite filter_cons_True, !filter_cons_False by (by rewrite ?Hs, ?Hu, ?Hf). cbn [map app]. by rewrite IH.
  - rewrite (filter_cons_False _ o) by (by rewrite Hs). rewrite filter_cons_True by done.
    rewrite (filter_cons_False _ o) by (by rewrite Hf). cbn [map app]. rewrite <-Permutation_middle. by rewrite IH.
  - rewrite (filter_cons_False _ o) by (by rewrite Hs). rewrite filter_cons_True by done.
    rewrite (filter_cons_False _ o) by (by rewrite Hf). cbn [map app]. rewrite <-Permutation_middle. by rewrite IH.
  - rewrite (filter_cons_False _ o) by (by rewrite Hs). rewrite (filter_cons_False _ o) by (by rewrite Hu).
    rewrite filter_cons_True by done. cbn [map]. rewrite app_assoc, <-Permutation_middle, <-app_assoc. by rewrite IH.
Qed.

Section started.
Context `{E : Env} (lower_bound : LowerBoundResolver) `{!LowerBoundSafe lower_bound}
  (repair : StreamRepair) `{!RepairPromise candle_stored repair}
  (open_interest : option (StreamKey → option ReconciliationWindow → M StartupStreamOutcome))
  `{!PassOptionSafe open_interest} (s : RuntimeSettings) (config : ValidatedMarketConfig).

(** What the tasks of the service start from, after startup reported the outcomes [os]. *)
Record started (os : list StartupStreamOutcome) (co : Coordinator) (hw : HistoricalWorker) : Prop := {
  sr_outcomes : map su_stream os = enabled_streams config;
  sr_owners : co_gate co ++ hw_owned hw ++ map su_stream (filter (λ o, is_fatal o = true) os) ≡ₚ enabled_streams config;
  sr_proven : ∀ k, k ∈ co_gate co → ∃ o a1 w, o ∈ os ∧ su_stream o = k ∧
    connecting_report open_interest (open_interest_streams config) k None a1 o w ∧
    ab_streams (w_db (co_world co)) !! k = ab_streams a1 !! k;
  sr_store : store_inv (w_db (co_world co)) ∧ w_tx (co_world co) = None;
  sr_facts : ∀ k, k ∈ enabled_streams config → ∃ f r, find_facts (sv_facts (co_supervisor co)) k = Some f ∧
    ab_streams (w_db (co_world co)) !! k = Some r ∧ data_ready f = false ∧ f_recovery_pending f = false ∧
    f_last_successful_open_time_ms f = latest_committed_open_time_ms (sr_state r) ∧
    f_open_interest_required f = bool_decide (k ∈ open_interest_streams config) ∧
    (k ∈ open_interest_streams config → f_last_open_interest_open_time_ms f =
       if bool_decide (k ∈ co_gate co) then tp_latest (track_of k r) else None);
  sr_status : sts_healthy (co_status co) = true ∧ ∀ o, o ∈ os → ∃ entry,
    find_status (sts_streams (co_status co)) (su_stream o) = Some entry ∧ st_ready entry = false ∧
    ∀ reason, startup_blocking_reason o = Some reason → st_reason entry = Some reason
}.

Hypothesis Hoi : ∀ p k w, open_interest = Some p → returns_for k (p k w).

Lemma initial_gate_id os : NoDup (map su_stream os) → initial_gate (connecting_streams os) = connecting_streams os.
Proof.
  intros Hnd. assert (H : NoDup (connecting_streams os)).
  { pose proof (outcomes_split os) as Hp. rewrite <-Hp in Hnd. by apply NoDup_app in Hnd as [? _]. }
  unfold initial_gate. change (connecting_streams os) with ([] ++ connecting_streams os) at 2. revert H.
  assert (Hg : ∀ l g, NoDup (g ++ l) → foldl (λ g k, admit_stream k g) g l = g ++ l); [|by apply (Hg _ [])].
  induction l as [|k l IH]; intros g Hn; cbn [foldl]; [by rewrite app_nil_r|].
  unfold admit_stream at 2. rewrite bool_decide_false.
  - rewrite IH by (by rewrite <-app_assoc). by rewrite <-app_assoc.
  - intros Hk. apply NoDup_app in Hn as (_ & Hd & _). apply (Hd k Hk). by left.
Qed.

(** A fresh entry is not ready and shows the reason that blocks it. *)
Lemma published_entry_blocked r o st :
  published_entry r o st → ss_stream (sr_state r) = su_stream o →
  ∃ entry, find_status (sts_streams st) (su_stream o) = Some entry ∧ st_ready entry = false ∧
    ∀ reason, startup_blocking_reason o = Some reason → st_reason entry = Some reason.
Proof.
  intros [Hf Hb] Hk. eexists. split; [exact Hf|]. unfold stream_status. cbv zeta. cbn [from_option st_ready st_reason].
  rewrite andb_false_r. split; [done|]. intros reason Hr. rewrite Hk, (Hb _ Hr). unfold startup_blocking_reason in Hr.
  destruct (su_classification o); try done; by injection Hr as <-.
Qed.

Lemma service_startup_report a n c os p :
  store_inv a → NoDup (enabled_streams config) → (∀ k, k ∈ enabled_streams config → is_Some (ab_streams a !! k)) →
  service_startup lower_bound repair open_interest s config
    (mkProcess (mkWorld a None n c) (RuntimeStatus_new (enabled_streams config))) = (Ok os, p) →
  passed (enabled_streams config) a (pr_world p) ∧ map su_stream os = enabled_streams config ∧
  Forall (handed_over open_interest (open_interest_streams config) (w_db (pr_world p))) os ∧
  ∀ o, o ∈ os → ∃ entry, find_status (sts_streams (pr_status p)) (su_stream o) = Some entry ∧ st_ready entry = false ∧
    ∀ reason, startup_blocking_reason o = Some reason → st_reason entry = Some reason.
Proof using Hoi LowerBoundSafe0 PassOptionSafe0 RepairPromise0.
  intros Hi Hnd Hreg. unfold service_startup, mbind, StRes_bind, sv_m. cbn [pr_world pr_status].
  destruct (startup_execute_report lower_bound repair (startup_backfill_windows_per_stream s)
    (startup_repair_windows_per_stream s) open_interest (open_interest_streams config) Hoi (enabled_streams config) a n c
    Hi Hnd Hreg) as [Hp Hos].
  destruct (run _ (mkWorld a None n c)) as [[os1|e] [db tx n1 c1]]; cbn [fst snd] in *; [|done].
  destruct Hos as [Hm HF]. destruct Hp as [Htx Hi1 Ho Hr]. cbn [w_tx w_db] in *. subst tx.
  assert (Hreg1 : ∀ o, o ∈ os1 → is_Some (ab_streams db !! su_stream o)).
  { intros o Hin. apply Hr, Hreg. rewrite <-Hm. apply list_elem_of_fmap. by exists o. }
  destruct (publish_outcomes_exact db n1 c1 Hi1 os1 (RuntimeStatus_new (enabled_streams config))) as (st & Hst & He & _).
  { by rewrite Hm. } { exact Hreg1. }
  { intros o Hin. apply initial_status_known. rewrite <-Hm. apply list_elem_of_fmap. by exists o. }
  rewrite Hst. intros [= <- <-]. cbn [pr_world pr_status w_db]. split; [by split|]. split; [done|]. split; [done|].
  intros o Hin. destruct (Hreg1 o Hin) as [r Hro]. apply (published_entry_blocked r); [by apply He|].
  by destruct (store_inv_lookup _ _ _ Hi1 Hro) as [Hkey _ _ _].
Qed.

Lemma open_interest_prefetch_streams cfg :
  open_interest_prefetch s config = Ok (Some cfg) → pc_streams cfg = open_interest_streams config.
Proof.
  unfold open_interest_prefetch. destruct (_ || _); [done|]. unfold PrefetchConfig_new.
  intros (c & Hc & [= <-])%res_bind_ok. apply res_bind_ok in Hc as (d & _ & Hc). apply res_bind_ok in Hc as (t & _ & Hc).
  by apply raise_if_bind_ok in Hc as [_ [= <-]].
Qed.

(** What realtime is built with, after a startup that left the store [a]. *)
Lemma build_realtime_report a n c st admitted topics sup notifier prefetch p :
  store_inv a → (∀ k, k ∈ enabled_streams config → is_Some (ab_streams a !! k)) →
  build_realtime s config admitted (mkProcess (mkWorld a None n c) st) = (Ok (topics, sup, notifier, prefetch), p) →
  (∀ cfg, prefetch = Some cfg → pc_streams cfg = open_interest_streams config) ∧ p = mkProcess (mkWorld a None n c) st ∧
  (∀ k f, find_facts (sv_facts sup) k = Some f → k ∈ enabled_streams config) ∧
  ∀ k, k ∈ enabled_streams config → ∃ f r, find_facts (sv_facts sup) k = Some f ∧ ab_streams a !! k = Some r ∧
    data_ready f = false ∧ f_recovery_pending f = false ∧
    f_last_successful_open_time_ms f = latest_committed_open_time_ms (sr_state r) ∧
    f_open_interest_required f = bool_decide (k ∈ open_interest_streams config) ∧
    (k ∈ open_interest_streams config → f_last_open_interest_open_time_ms f =
       if bool_decide (k ∈ admitted) then tp_latest (track_of k r) else None).
Proof.
  intros Hi Hreg. unfold build_realtime, mbind, StRes_bind, sv_m, sr_lift. cbn [pr_world pr_status].
  destruct (TopicMap_from_config config) as [m|e]; [|done].
  destruct (run_initial_latest a n c Hi (enabled_streams config) Hreg) as (initial & Hrun & Hl). rewrite Hrun. cbn [fst snd pr_world pr_status].
  destruct (run (initial_open_interest_frontiers _ _) _) as [[oi|e] w] eqn:Hoi'; cbn [fst snd]; [|done].
  apply (run_initial_frontiers a n c Hi) in Hoi' as [-> Hf]. cbn [pr_world pr_status].
  destruct (StalePolicy_new _); [|done]. destruct (Supervisor_new _ initial oi) as [sup'|e] eqn:Hsup; [|done].
  destruct (build_notifier s config); [|done]. destruct (ReconnectPolicy_check _); [|done].
  destruct (open_interest_prefetch s config) as [pf|e] eqn:Hpf; [|done]. intros [= <- <- <- <- <-].
  split; [by intros cfg ->; eapply open_interest_prefetch_streams|]. split; [done|]. split; [intros k f; eapply supervisor_facts_known; exact Hsup|].
  intros k Hk. destruct (Hreg k Hk) as [r Hr].
  eexists _, r. split; [eapply supervisor_facts_new; [exact Hsup|done]|]. split; [done|]. split; [done|]. split; [done|].
  cbn [f_last_successful_open_time_ms f_open_interest_required f_last_open_interest_open_time_ms].
  split; [by rewrite (Hl k r Hk Hr)|]. rewrite (Hf k r Hr). split.
  - apply bool_decide_ext. case_bool_decide; [by split|]. by split; [intros [? ?]|].
  - intros Hin. by rewrite (bool_decide_true (k ∈ open_interest_streams config)) by done.
Qed.
End started.

(** The service starts with every enabled stream in the hands of exactly one owner: the gate admits
    the streams whose startup pass reported them as connecting, the historical worker has those
    that are incomplete or failed recoverably, and the rest failed fatally; a status entry says why
    each stream that is not admitted is blocked, and none is ready.  An admitted stream has not
    changed since its pass proved its history.  The supervisor starts from the last candle of the
    store for every stream, requires open interest of exactly the flagged ones, and knows the
    frontier of that track only of the admitted ones; no recovery is pending, so that the tasks of
    the coordinator keep what [Coordinator.service] does; the prefetch is for the flagged streams.  When the start fails, the status is
    unhealthy with the error. *)
Lemma service_start_report `{E : Env} (lower_bound : LowerBoundResolver) `{!LowerBoundSafe lower_bound}
    (repair : StreamRepair) `{!RepairPromise candle_stored repair}
    (open_interest : option (StreamKey → option ReconciliationWindow → M StartupStreamOutcome))
    `{!PassOptionSafe open_interest} (s : RuntimeSettings) (config : ValidatedMarketConfig) (a : AbsStore) (n c : nat) :
  (∀ p k w, open_interest = Some p → returns_for k (p k w)) →
  store_inv a → NoDup (enabled_streams config) → (∀ k, k ∈ enabled_streams config → is_Some (ab_streams a !! k)) →
  match service_start lower_bound repair open_interest s config
          (mkProcess (mkWorld a None n c) (RuntimeStatus_new (enabled_streams config))) with
  | (Ok (co, hw, prefetch), p) =>
      (∀ cfg, prefetch = Some cfg → pc_streams cfg = open_interest_streams config) ∧
      (∃ os, started open_interest config os co hw) ∧
      ∀ cfg topics clock grace_ms,
        service cfg (enabled_streams config) topics clock grace_ms (open_interest_streams config) [] co
  | (Raise e, p) =>
      sts_healthy (pr_status p) = false ∧
      sts_fatal_error (pr_status p) = Some (class_name (exn_cls e) +:+ ": " +:+ exn_str e)
  end.
Proof.
  intros Hoi Hi Hnd Hreg. unfold service_start, or_fatal. unfold mbind at 1, StRes_bind.
  destruct (service_startup _ _ _ _ _ _) as [[os|e] p1] eqn:Hst; [|by split].
  apply (service_startup_report lower_bound repair open_interest s config Hoi a n c os p1 Hi Hnd Hreg) in Hst as
    ([Htx Hi1 _ Hr1] & Hm & HF & Hentries).
  assert (Hnd1 : NoDup (map su_stream os)) by (by rewrite Hm).
  unfold mbind at 1, StRes_bind. destruct p1 as [[db tx n1 c1] st]. cbn [pr_world pr_status w_tx w_db] in *. subst tx.
  destruct (build_realtime _ _ _ _) as [[[[[topics sup] notifier] prefetch]|e] p2] eqn:Hb; [|by split].
  apply build_realtime_report in Hb as (Hpf & -> & Hknown & Hfacts); [|done|by auto]. cbv [mbind StRes_bind sv_status sr_get mret StRes_ret].
  cbn [pr_status pr_world fst snd]. rewrite (initial_gate_id os Hnd1). split; [exact Hpf|].
  split; [exists os; split|].
  - done.
  - cbn [co_gate]. rewrite <-Hm. apply outcomes_split.
  - cbn [co_gate co_world w_db]. intros k (o & -> & Ho)%list_elem_of_fmap. apply list_elem_of_filter in Ho as [Hc Ho].
    rewrite Forall_forall in HF. unfold su_connecting in Hc. apply bool_decide_eq_true in Hc.
    destruct (HF o Ho Hc) as (a1 & w & Hw & Heq). by exists o, a1, w.
  - done.
  - cbn [co_supervisor co_world w_db co_gate]. exact Hfacts.
  - cbn [co_status mark_healthy sts_healthy sts_streams]. split; [done|exact Hentries].
  - intros cfg tps clock grace_ms. apply Coordinator.service_start; [done|]. cbn [co_supervisor]. intros k f Hf.
    destruct (Hfacts k (Hknown k f Hf)) as (f' & r & Hf' & _ & _ & Hp & _). congruence.
Qed.

(** ** The preparation *)

Section prepare.
Context `{E : Env}.
Hypothesis Hclock : ∀ n, 0 ≤ env_clock n.

(** Between the steps of the preparation: the streams [ks] are registered. *)
Record prepared (ks : list StreamKey) (st : RuntimeStatus) (p : Process) : Prop := {
  pp_tx : w_tx (pr_world p) = None;
  pp_inv : store_inv (w_db (pr_world p));
  pp_status : pr_status p = st;
  pp_registered : ∀ k, k ∈ ks → is_Some (ab_streams (w_db (pr_world p)) !! k)
}.

Lemma abs_register_prepared k symbol now a a' :
  0 ≤ now → abs_register k symbol now a = Ok a' → store_inv a →
  store_inv a' ∧ is_Some (ab_streams a' !! k) ∧ ∀ k', is_Some (ab_streams a !! k') → is_Some (ab_streams a' !! k').
Proof.
  intros Hnow. unfold abs_register. cbv zeta. destruct (_ || _); [done|].
  destruct (symbol_taken _ _ _); [done|]. intros [= <-] Hi.
  cbn [ab_streams]. destruct (ab_streams a !! k) as [r|] eqn:Hr.
  { split; [exact Hi|]. split; [by eexists|done]. }
  split; [|split].
  - intros k' r'. cbn [ab_streams]. intros [[<- <-]|[_ H]]%lookup_insert_Some; [|by apply Hi].
    split; cbn; [done| |by intros t row H|by intros t [? H]]. by split; cbn.
  - rewrite lookup_insert_eq. by eexists.
  - intros k' [r' Hr']. destruct (decide (k' = k)) as [->|Hne]; [rewrite lookup_insert_eq; by eexists|].
    rewrite lookup_insert_ne by done. by exists r'.
Qed.

Lemma run_verify_metadata category c (v : World AbsStore) :
  w_db (run (verify_metadata category c) v).2 = w_db v ∧ w_tx (run (verify_metadata category c) v).2 = w_tx v.
Proof.
  destruct v as [db tx n cc]. unfold verify_metadata. rewrite run_bind. cbn.
  by destruct (verify_configured_metadata _ _ _).
Qed.

Lemma verify_instrument_prepared category c ks st p :
  prepared ks st p → prepared ks st (verify_instrument category c p).2.
Proof.
  intros [H1 H2 H3 H4]. destruct (run_verify_metadata category c (pr_world p)) as [H5 H6].
  unfold verify_instrument, sv_m. by split; cbn [pr_world pr_status snd]; rewrite ?H5, ?H6.
Qed.

Lemma register_configured_prepared config k ks st p :
  prepared ks st p → match register_configured config k p with
                     | (Ok _, p') => prepared (k :: ks) st p'
                     | (Raise _, p') => prepared ks st p'
                     end.
Proof.
  intros [H1 H2 H3 H4]. unfold register_configured, mbind, StRes_bind, sv_m, sr_lift.
  destruct (coverage_by_ticker _ _) as [cv|]; [|by split]. destruct p as [[db tx n cc] st']. cbn [pr_world pr_status w_tx w_db] in *.
  rewrite run_now. unfold Storage.tick. cbn [fst snd pr_world pr_status w_tx w_db w_ticks w_calls]. unfold sv_register, register_stream. cbv zeta. cbn [pr_world w_db].
  destruct (abs_register k _ _ db) as [a'|e] eqn:Ha; [|by split].
  destruct (abs_register_prepared _ _ _ _ _ (Hclock _) Ha H2) as (Hi & Hk & Hr). split; cbn; [done|done|done|].
  intros k' [->|Hk']%elem_of_cons; auto.
Qed.

Lemma register_all_prepared config l ks st p :
  prepared ks st p → match sr_each (register_configured config) l p with
                     | (Ok _, p') => prepared (l ++ ks) st p'
                     | (Raise _, p') => prepared ks st p'
                     end.
Proof.
  revert ks p. induction l as [|k l IH]; intros ks p Hp; [exact Hp|]. cbn [sr_each]. unfold mbind, StRes_bind.
  pose proof (register_configured_prepared config k ks st p Hp) as Hk.
  destruct (register_configured config k p) as [[u|e] p1]; [|done]. pose proof (IH (k :: ks) p1 Hk) as Hl.
  destruct (sr_each _ l p1) as [[u'|e] p2]; destruct Hl as [H1 H2 H3 H4]; split; try done; intros k' Hk'; apply H4; set_solver.
Qed.

Lemma serve_prepare_report config a n c st :
  store_inv a → match serve_prepare config (mkProcess (mkWorld a None n c) st) with
                | (Ok _, p) => prepared (enabled_streams config) st p
                | (Raise _, p) => prepared [] st p
                end.
Proof.
  intros Hi. assert (H0 : prepared [] st (mkProcess (mkWorld a None n c) st)) by (split; try done; by intros k ?%elem_of_nil).
  unfold serve_prepare, mbind at 1, StRes_bind.
  pose proof (sr_keeps_each (prepared [] st) (verify_instrument (ms_category (mc_source config))) (enabled_instruments config)
    (λ x, verify_instrument_prepared _ x [] st) _ H0) as H1.
  destruct (sr_each (verify_instrument _) _ _) as [[u|e] p1]; [|done]. cbn [snd] in H1.
  pose proof (register_all_prepared config (enabled_streams config) [] st p1 H1) as H2. by rewrite app_nil_r in H2.
Qed.
End prepare.

(** ** The process *)

(** C15. [serve] from the database as it was found: a preparation that fails ends the process before its
    status exists; afterwards the start either hands every stream to its owner, or is recorded as
    fatal. *)
Theorem serve_started `{E : Env} `{!EnvOk} (s : RuntimeSettings) (path : string) (file : toml)
    (config : ValidatedMarketConfig) (a : AbsStore) (n c : nat) :
  (∀ i, 0 ≤ env_clock i) → load_market_config path (Ok file) = Ok config → store_inv a →
  match serve s config (mkWorld a None n c) with
  | (Ok (co, hw, prefetch), p) =>
      (∀ cfg, prefetch = Some cfg → pc_streams cfg = open_interest_streams config) ∧
      (∃ os, started (Some (wired_open_interest (oi_track_windows_per_pass s))) config os co hw) ∧
      ∀ cfg topics clock grace_ms,
        service cfg (enabled_streams config) topics clock grace_ms (open_interest_streams config) [] co
  | (Raise e, p) =>
      let fresh := RuntimeStatus_new (enabled_streams config) in
      (serve_prepare config (mkProcess (mkWorld a None n c) fresh) = (Raise e, p) ∧ pr_status p = fresh) ∨
      (sts_healthy (pr_status p) = false ∧
       sts_fatal_error (pr_status p) = Some (class_name (exn_cls e) +:+ ": " +:+ exn_str e))
  end.
Proof.
  intros Hclock Hload Hi. pose proof (enabled_streams_loaded _ _ _ Hload) as Hnd.
  unfold serve, mbind, StRes_bind.
  pose proof (serve_prepare_report Hclock config a n c (RuntimeStatus_new (enabled_streams config)) Hi) as Hp.
  destruct (serve_prepare _ _) as [[u|e] p1]; destruct Hp as [Htx Hi1 Hst Hreg]; [|by left].
  destruct p1 as [[db tx n1 c1] st]. cbn [pr_world pr_status w_tx w_db] in *. subst tx st.
  pose proof (service_start_report (resolve_lower_bound candle_progress (candle_probe 1000)) (wired_repair 1000)
    (Some (wired_open_interest (oi_track_windows_per_pass s))) s config db n1 c1) as Hr. unfold wired_start.
  specialize (Hr ltac:(intros p k w [= <-]; apply oi_reconcile_stream) Hi1 Hnd Hreg).
  destruct (service_start _ _ _ _ _ _) as [[[[co hw] prefetch]|e] p]; [exact Hr|by right].
Qed.

(** ** Examples *)

#[local] Existing Instances recovery_env recovery_env_ok.

Definition service_file : toml :=
  let instrument := TomlTable [("ticker", TomlStr "BTCUSDT.P"); ("exchange_symbol", TomlStr "BTCUSDT");
    ("enabled", TomlBool true); ("canonical_timeframes", TomlArray [TomlStr "1m"]);
    ("history_policy", TomlStr "full_available")]%string in
  TomlTable [("schema_version", TomlInt 1);
             ("source", TomlTable [("venue", TomlStr "Bybit"); ("category", TomlStr "linear")]);
             ("instruments", TomlArray [instrument])]%string.

Definition service_config : ValidatedMarketConfig :=
  mkMarketConfig 1 (mkMarketSource "bybit" "linear")
    [mkInstrumentCoverage (mkInstrumentKey "BTCUSDT.P") "BTCUSDT" true [TF_1m] FULL_AVAILABLE false].

Definition empty_database : World AbsStore := mkWorld (mkAbsStore ∅ ∅ []) None 0 0.

(** From an empty database: the stream is registered, its lower bound found, its history imported and
    proven, and the stream admitted. *)
Lemma serve_started_witness :
  (λ started, (co_gate started.1.1, hw_owned started.1.2)) <$> (serve default_settings service_config empty_database).1
    = Ok ([example_stream], []) ∧
  ∀ co hw prefetch, (serve default_settings service_config empty_database).1 = Ok (co, hw, prefetch) →
    ∃ os, started (Some (wired_open_interest (oi_track_windows_per_pass default_settings))) service_config os co hw.
Proof.
  split; [by vm_compute|]. intros co hw prefetch H.
  pose proof (serve_started default_settings "m" service_file service_config (mkAbsStore ∅ ∅ []) 0 0) as Hs.
  change (mkWorld _ _ _ _) with empty_database in Hs. destruct (serve default_settings _ _) as [r p].
  cbn [fst] in H. subst r. apply Hs; [intros i; cbn; lia|by vm_compute|by intros k r ?].
Defined.
