(* ===== verification/SettingsUse.v ===== *)
(** * What accepted settings are good for

    runtime/settings.py against the constructors that runtime/service.py, open_interest_composition.py
    and committed_bar_notification_factory.py call with the settings: which checks the settings
    anticipate, and which can still refuse to start the service. *)

From S2P Require Import Prelude PyStr DecimalValues Timeframes Identity Candles RealtimeFacts PyFloat Connector.
From S2P Require Import StreamState Instruments OpenInterest Storage AbsStore Ingest ImportWindow UseCase Repair.
From S2P Require Import RealtimeRecovery RuntimeStatus RecoveryWorker Coordinator Reconciliation HistoricalWorker.
From S2P Require Import Prefetch Settings Service.

(** What the settings promise.  The comparisons are those of floats: a NaN is not below a bound. *)
Record usable (bracketed_host_ok : string → bool) (s : RuntimeSettings) : Prop := {
  us_host : strip (http_host s) ≠ ""%string;
  us_port : 1 ≤ http_port s ≤ 65535;
  us_budgets : 0 < startup_backfill_windows_per_stream s ∧ 0 < startup_repair_windows_per_stream s ∧
    0 < realtime_recovery_windows_per_stream s ∧ 0 < oi_track_windows_per_pass s;
  us_reconnect : 0 < reconnect_max_attempts s ∧ flt (reconnect_delay_seconds s) fzero = false;
  us_historical : flt (historical_retry_base_seconds s) fzero = false ∧
    flt (historical_retry_max_seconds s) (historical_retry_base_seconds s) = false;
  us_recovery : flt (realtime_recovery_base_seconds s) fzero = false ∧
    flt (realtime_recovery_max_seconds s) (realtime_recovery_base_seconds s) = false ∧
    fle (realtime_recovery_idle_seconds s) fzero = false;
  us_stale : 0 ≤ stale_grace_ms s ∧ fle (realtime_stale_check_seconds s) fzero = false ∧
    fle (stale_recovery_first_retry_seconds s) fzero = false ∧
    flt (stale_recovery_next_retry_seconds s) (stale_recovery_first_retry_seconds s) = false;
  us_live : isfinite (oi_live_timeout_seconds s) = true ∧ fle (oi_live_timeout_seconds s) fzero = false;
  us_prefetch : isfinite (oi_prefetch_delay_seconds s) = true ∧ flt (oi_prefetch_delay_seconds s) fzero = false ∧
    isfinite (oi_prefetch_retry_seconds s) = true ∧ fle (oi_prefetch_retry_seconds s) fzero = false ∧
    0 < oi_prefetch_concurrency s;
  us_monitors : fle (websocket_ping_timeout_seconds s) fzero = false ∧ fle (event_loop_lag_warn_seconds s) fzero = false;
  us_level : upper (log_level s) ∈ LOG_LEVELS;
  us_webhook : runtime_webhook_enabled s = true →
    0 < runtime_webhook_queue_capacity s ∧ isfinite (runtime_webhook_timeout_seconds s) = true ∧
    fle (runtime_webhook_timeout_seconds s) fzero = false ∧
    ∃ scheme netloc, split_base_url bracketed_host_ok (strategy_runtime_base_url s) = Ok (scheme, netloc) ∧
      scheme ∈ ["http"; "https"]%string ∧ netloc ≠ ""%string
}.

(** What the constructors make of the settings.  The policies, and the requests of every pass whose range is
    in order, are accepted.  The notifier is refused exactly when the queue of an enabled webhook has
    not room for a notification of each enabled stream.  The prefetch is off without flagged streams
    or with no delay; otherwise its times are not negative and it has slots, unless a time in
    milliseconds is beyond the floats. *)
Record builds (s : RuntimeSettings) (config : ValidatedMarketConfig) : Prop := {
  bd_reconnect : ReconnectPolicy_check (reconnect_policy s) = Ok (reconnect_policy s);
  bd_stale : StalePolicy_new (stale_grace_ms s) = Ok (stale_grace_ms s);
  bd_repair : ∀ k from to n, n ∈ [startup_repair_windows_per_stream s; oi_track_windows_per_pass s] →
    is_ok (RepairStreamGapsRequest_new k from to 1) = true →
    RepairStreamGapsRequest_new k from to n = Ok (mkRepairRequest k from to n);
  bd_recovery : ∀ sig w, RealtimeRecoveryRequest_new sig (realtime_recovery_windows_per_stream s) w =
    Ok (mkRecoveryRequest sig (realtime_recovery_windows_per_stream s) w);
  bd_notifier : match build_notifier s config with
    | Ok n => runtime_webhook_enabled s = true →
        n = Some (mkNotifier (runtime_webhook_queue_capacity s) [] NotifierIdle) ∧
        Z.of_nat (length (enabled_streams config)) ≤ runtime_webhook_queue_capacity s
    | Raise e => exn_cls e = ExcValueError ∧ runtime_webhook_enabled s = true ∧
        runtime_webhook_queue_capacity s < Z.of_nat (length (enabled_streams config))
    end;
  bd_prefetch : match open_interest_prefetch s config with
    | Ok None => open_interest_streams config = [] ∨ feq_Z (oi_prefetch_delay_seconds s) 0 = true
    | Ok (Some cfg) => pc_streams cfg = open_interest_streams config ∧ 0 ≤ pc_delay_ms cfg ∧ 0 ≤ pc_retry_ms cfg ∧
        0 < pc_concurrency cfg
    | Raise _ => isfinite (fmul (oi_prefetch_delay_seconds s) (float_of_Z 1000)) = false ∨
        isfinite (fmul (oi_prefetch_retry_seconds s) (float_of_Z 1000)) = false
    end
}.

(** ** Floats that are not negative *)

Definition nonneg_float (x : float) : bool :=
  match x with SpecFloat.S754_finite s _ _ | SpecFloat.S754_infinity s => negb s | _ => true end.

Lemma not_below_nonneg x : isfinite x = true → flt x fzero = false → nonneg_float x = true.
Proof. by destruct x as [| | |[] m e]. Qed.

Lemma not_le_nonneg x : isfinite x = true → fle x fzero = false → nonneg_float x = true.
Proof. by destruct x as [| | |[] m e]. Qed.

Lemma round_aux_nonneg m e l : nonneg_float (SpecFloat.binary_round_aux prec emax false m e l) = true.
Proof.
  unfold SpecFloat.binary_round_aux. destruct (SpecFloat.shr_fexp _ _ m e l) as [r1 e1].
  destruct (SpecFloat.shr_fexp _ _ _ e1 _) as [r2 e2]. destruct (SpecFloat.shr_m r2); [done| |done]. by destruct (_ <=? _).
Qed.

Lemma fmul_nonneg x y : nonneg_float x = true → nonneg_float y = true → nonneg_float (fmul x y) = true.
Proof.
  destruct x as [sx|sx| |sx mx ex], y as [sy|sy| |sy my ey]; try done; cbn [nonneg_float];
    intros ->%negb_true_iff ->%negb_true_iff; [done..|]. apply round_aux_nonneg.
Qed.

Lemma int_of_float_spec x :
  match int_of_float x with Ok n => nonneg_float x = true → 0 ≤ n | Raise _ => isfinite x = false end.
Proof.
  destruct x as [s|s| |s m e]; try done. cbn [int_of_float nonneg_float]. intros ->%negb_true_iff.
  destruct (Z.leb_spec 0 e); [|apply Z.div_pos; lia]. apply Z.mul_nonneg_nonneg; lia.
Qed.

(** ** Facts *)

Section facts.
Context (bracketed_host_ok : string → bool).

Lemma check_webhook_ok s :
  check_webhook bracketed_host_ok s = Ok () ↔
  0 < runtime_webhook_queue_capacity s ∧ isfinite (runtime_webhook_timeout_seconds s) = true ∧
  fle (runtime_webhook_timeout_seconds s) fzero = false ∧
  ∃ scheme netloc, split_base_url bracketed_host_ok (strategy_runtime_base_url s) = Ok (scheme, netloc) ∧
    scheme ∈ ["http"; "https"]%string ∧ netloc ≠ ""%string.
Proof.
  unfold check_webhook. split.
  - intros H. apply res_bind_ok in H as ([scheme netloc] & Hurl & H). cbn [fst snd] in H. rewrite !raise_if_bind_ok in H.
    destruct H as (Hu & Ht & Hc). apply raise_if_ok in Hc. bool_hyps. split; [lia|]. split; [done|]. split; [done|].
    by exists scheme, netloc.
  - intros (Hc & Hf & Hp & scheme & netloc & -> & Hs & Hn). cbn [mbind res_bind fst snd].
    rewrite bool_decide_true, bool_decide_false by done. cbn [negb orb raise_if mbind res_bind]. rewrite Hf, Hp. cbn [negb orb raise_if mbind res_bind].
    by rewrite (proj2 (Z.leb_gt _ 0)).
Qed.

(** The check accepts exactly the usable settings. *)
Lemma check_usable s s' :
  RuntimeSettings_check bracketed_host_ok s = Ok s' ↔ s' = s ∧ usable bracketed_host_ok s.
Proof.
  unfold RuntimeSettings_check, check_positive. rewrite !raise_if_bind_ok. split.
  - intros (Hhost & Hport & H1 & H2 & H3 & Hre & Hoi & Hpc & Hhb & Hhist & Hlive & Hpd & Hpr & Hrb & Hrec & Hidle & Hstale &
      Hdelay & Hping & Hlag & Hgrace & Hfirst & Hnext & Hlevel & H). bool_hyps.
    apply res_bind_ok in H as (u & Hweb & H). injection H as <-. split; [done|].
    split; try done; try (split_and!; (done || lia)).
    intros Hen. rewrite Hen in Hweb. destruct u. by apply check_webhook_ok in Hweb.
  - intros [-> [Hhost Hport (H1 & H2 & H3 & Hoi) [Hre Hdelay] [Hhb Hhist] (Hrb & Hrec & Hidle) (Hgrace & Hstale & Hfirst & Hnext)
      [Hlf Hl] (Hdf & Hd & Hrf & Hr & Hpc) [Hping Hlag] Hlevel Hweb]].
    rewrite Hhb, Hhist, Hlf, Hl, Hdf, Hd, Hrf, Hr, Hrb, Hrec, Hidle, Hstale, Hdelay, Hping, Hlag, Hfirst, Hnext.
    assert (Hpos : ∀ n, 0 < n → (n <=? 0) = false) by (intros n Hn; by apply Z.leb_gt).
    rewrite (Hpos _ H1), (Hpos _ H2), (Hpos _ H3), (Hpos _ Hre), (Hpos _ Hoi), (Hpos _ Hpc).
    rewrite (proj2 (Z.ltb_ge _ 0)), (proj2 (Z.leb_le 1 _)), (proj2 (Z.leb_le _ 65535)) by lia.
    rewrite bool_decide_false, bool_decide_true by done. split_and!; try done.
    destruct (runtime_webhook_enabled s); [|done]. by rewrite (proj2 (check_webhook_ok s) (Hweb eq_refl)).
Qed.

Lemma usable_builds s config : usable bracketed_host_ok s → builds s config.
Proof.
  intros [_ _ (H1 & H2 & H3 & Hoi) [Hre Hdelay] _ _ (Hgrace & _) _ (Hdf & Hd & Hrf & Hr & Hpc) _ _ Hweb]. split.
  - unfold ReconnectPolicy_check, reconnect_policy. cbn [rp_max_attempts rp_delay_seconds rp_healthy_session_seconds].
    change (float_of_Z 0) with fzero. by rewrite Hdelay, (proj2 (Z.leb_gt _ 0)).
  - unfold StalePolicy_new. by rewrite (proj2 (Z.ltb_ge _ 0)).
  - intros k from to n Hn Hk. assert (0 < n) by (set_unfold in Hn; destruct Hn as [->|[->|[]]]; done).
    unfold RepairStreamGapsRequest_new in *. destruct (_ <=? from); [done|]. cbn [raise_if mbind res_bind] in *.
    rewrite (proj2 (Z.leb_gt n 0)) by done. cbn [raise_if mbind res_bind Z.leb Z.compare] in *. by destruct (_ || _).
  - intros sig w. unfold RealtimeRecoveryRequest_new. by rewrite (proj2 (Z.leb_gt _ 0)).
  - unfold build_notifier. cbv zeta. destruct (runtime_webhook_enabled s) eqn:Hen; cbn [negb].
    + destruct (Z.ltb_spec (runtime_webhook_queue_capacity s) (Z.of_nat (length (enabled_streams config)))); done.
    + by case_bool_decide.
  - unfold open_interest_prefetch. destruct (bool_decide _) eqn:Hs; cbn [orb]; [left; by apply bool_decide_eq_true in Hs|].
    destruct (feq_Z _ 0) eqn:Hz; [by right|]. unfold PrefetchConfig_new.
    pose proof (int_of_float_spec (fmul (oi_prefetch_delay_seconds s) (float_of_Z 1000))) as Hdi.
    pose proof (int_of_float_spec (fmul (oi_prefetch_retry_seconds s) (float_of_Z 1000))) as Hri.
    destruct (int_of_float (fmul (oi_prefetch_delay_seconds s) _)) as [d|]; [|by left].
    destruct (int_of_float (fmul (oi_prefetch_retry_seconds s) _)) as [r|]; [|by right].
    cbn [mbind res_bind]. rewrite (proj2 (Z.ltb_ge _ 0)) by lia. cbn [raise_if mbind res_bind mret res_ret pc_streams pc_delay_ms pc_retry_ms pc_concurrency].
    split; [done|]. split; [apply Hdi, fmul_nonneg; [by apply not_below_nonneg|done]|].
    split; [apply Hri, fmul_nonneg; [by apply not_le_nonneg|done]|done].
Qed.
End facts.

(** The variables of the webhook other than its switch. *)
Definition webhook_variables : list string :=
  ["MDS_STRATEGY_RUNTIME_BASE_URL"; "MDS_RUNTIME_WEBHOOK_TIMEOUT_SECONDS"; "MDS_RUNTIME_WEBHOOK_QUEUE_CAPACITY"]%string.

Lemma env_get_agree env env' name fallback :
  (∀ n, n ∉ webhook_variables → env !! n = env' !! n) → name ∉ webhook_variables →
  env_get env name fallback = env_get env' name fallback.
Proof. intros H Hn. unfold env_get. by rewrite H. Qed.
Lemma env_int_agree env env' name fallback :
  (∀ n, n ∉ webhook_variables → env !! n = env' !! n) → name ∉ webhook_variables →
  env_int env name fallback = env_int env' name fallback.
Proof. intros H Hn. unfold env_int. by rewrite (env_get_agree env env'). Qed.
Lemma env_float_agree env env' name fallback :
  (∀ n, n ∉ webhook_variables → env !! n = env' !! n) → name ∉ webhook_variables →
  env_float env name fallback = env_float env' name fallback.
Proof. intros H Hn. unfold env_float. by rewrite (env_get_agree env env'). Qed.

(** A variable that is not one of the webhook's, by computation. *)
Ltac other_variable := apply (bool_decide_eq_true_1 _); by vm_compute.

(** C39. Settings read from the environment are refused with a [ValueError], or they are usable: they pass
    exactly the checks that [usable] lists.  The constructors they go to then accept them - the reconnect
    policy, the stale policy, the requests of the passes, the logging level - but for two checks that
    can still stop the service: the queue of an enabled webhook must have room for as many
    notifications as there are enabled streams, and the times of the prefetch must be within the
    floats in milliseconds ([builds]).  When the webhook is switched off, its other variables are not
    read: whatever they hold, the settings are the same. *)
Theorem settings_usable (bracketed_host_ok : string → bool) (env env' : gmap string string) :
  match from_environment bracketed_host_ok env with
  | Ok s => usable bracketed_host_ok s ∧ (∀ config, builds s config) ∧ is_Some (logging_level (log_level s))
  | Raise e => exn_cls e = ExcValueError
  end ∧
  (∀ s, RuntimeSettings_check bracketed_host_ok s = Ok s ↔ usable bracketed_host_ok s) ∧
  (parse_bool (env_get env "MDS_RUNTIME_WEBHOOK_ENABLED" "false") = false →
   (∀ n, n ∉ webhook_variables → env !! n = env' !! n) →
   from_environment bracketed_host_ok env' = from_environment bracketed_host_ok env).
Proof.
  split; [|split].
  - destruct (from_environment bracketed_host_ok env) as [s|e] eqn:H; [|by apply from_environment_raises in H].
    unfold from_environment in H. do 23 (apply res_bind_ok in H as (? & _ & H)).
    apply check_usable in H as [Hs Hu]. rewrite Hs. split; [exact Hu|]. split; [intros config; by eapply usable_builds|].
    apply us_level in Hu. cbn [log_level] in *. rewrite upper_idemp in Hu. unfold LOG_LEVELS in Hu. set_unfold in Hu.
    destruct Hu as [->|[->|[->|[->|[->|[]]]]]]; by vm_compute; eexists.
  - intros s. rewrite check_usable. tauto.
  - intros Hoff Hag. assert (Hag' : ∀ n, n ∉ webhook_variables → env' !! n = env !! n) by (intros n Hn; by rewrite Hag).
    assert (Hoff' : parse_bool (env_get env' "MDS_RUNTIME_WEBHOOK_ENABLED" "false") = false)
      by (rewrite (env_get_agree env' env); [done|done|other_variable]).
    unfold from_environment, parse_webhook_environment. rewrite Hoff, Hoff'. cbn [negb].
    rewrite !(env_int_agree env' env) by (done || other_variable).
    rewrite !(env_float_agree env' env) by (done || other_variable).
    rewrite !(env_get_agree env' env) by (done || other_variable). reflexivity.
Qed.

(** Two webhook variables that are not numbers, behind a switch that is off. *)
Definition example_environment : gmap string string :=
  {[ "MDS_HTTP_PORT" := "9000"; "MDS_LOG_LEVEL" := "debug"; "MDS_RUNTIME_WEBHOOK_ENABLED" := " Off " ]}%string.
Definition example_environment' : gmap string string :=
  <["MDS_RUNTIME_WEBHOOK_TIMEOUT_SECONDS" := "soon"]> (<["MDS_RUNTIME_WEBHOOK_QUEUE_CAPACITY" := "many"]> example_environment)%string.

Lemma settings_usable_witness :
  from_environment (λ _, true) ∅ = Ok default_settings ∧
  ((λ s, (http_port s, log_level s, runtime_webhook_enabled s)) <$> from_environment (λ _, true) example_environment)
    = Ok (9000, "DEBUG"%string, false) ∧
  from_environment (λ _, true) example_environment' = from_environment (λ _, true) example_environment.
Proof.
  split; [by vm_compute|]. split; [by vm_compute|].
  apply (settings_usable (λ _, true) example_environment example_environment'); [by vm_compute|].
  intros n Hn. unfold example_environment'. rewrite !lookup_insert_ne; [done|..];
    intros <-; apply Hn; apply (bool_decide_eq_true_1 _); by vm_compute.
Defined.

(** A delay that is finite in seconds and not in milliseconds is accepted, and stops the service. *)
Example huge_delay_refused :
  match from_environment (λ _, true) {[ "MDS_OI_PREFETCH_DELAY_SECONDS" := "1e306" ]}%string with
  | Ok s => match PrefetchConfig_new [] (oi_prefetch_delay_seconds s) (oi_prefetch_retry_seconds s) (oi_prefetch_concurrency s) with
            | Ok _ => False
            | Raise e => exn_cls e = ExcOverflowError
            end
  | Raise _ => False
  end.
Proof. by vm_compute. Qed.
