(* ===== verification/Shell.v ===== *)
(** * The edges of the process

    What surrounds the components: the dispatch of __main__.py, the session over the websockets
    library (adapters/bybit/websocket/transport.py), the end of a run of the service
    (runtime/service.py, runtime/exception_groups.py), the tasks of the event loop diagnostics
    (runtime/event_loop_lag.py, runtime/loop_diagnostics.py) and the lines an operator reads
    (runtime/startup_diagnostics.py, runtime/realtime_recovery_diagnostics.py,
    runtime/realtime_connection_log.py, the transitions of runtime/status.py). *)

From S2P Require Import Prelude PyStr DecimalValues Timeframes Identity Gaps Candles StreamState.
From S2P Require Import Instruments OpenInterest Storage AbsStore Ingest ImportWindow UseCase Repair.
From S2P Require Import RealtimeFacts RealtimeRecovery RuntimeStatus PyFloat Reconciliation Connector Diagnostics.

(** ** __main__.py *)

Inductive Command :=
| AuditContinuity | BackfillCommand | SmokeAllBackfill | SmokeBackfill | SmokeFullBootstrap
| SmokeAuditContinuity | SmokeGapRepair | SmokeRest | SmokeWebsocket | Serve.

#[export] Instance Command_eq_dec : EqDecision Command.
Proof. solve_decision. Defined.

(** The names in the order they are tried. *)
Definition COMMANDS : list (string * Command) :=
  [("audit-continuity", AuditContinuity); ("backfill", BackfillCommand); ("smoke-all-backfill", SmokeAllBackfill);
   ("smoke-backfill", SmokeBackfill); ("smoke-full-bootstrap", SmokeFullBootstrap);
   ("smoke-audit-continuity", SmokeAuditContinuity); ("smoke-gap-repair", SmokeGapRepair);
   ("smoke-rest", SmokeRest); ("smoke-websocket", SmokeWebsocket); ("serve", Serve)]%string.

Fixpoint find_command (name : string) (commands : list (string * Command)) : option Command :=
  match commands with
  | [] => None
  | (n, c) :: commands => if bool_decide (name = n) then Some c else find_command name commands
  end.

(** [main]: the command with the arguments left to it; without a command the parser of argparse,
    which is left out, answers. *)
Definition dispatch (args : list string) : option (Command * list string) :=
  match args with
  | name :: rest => c ← find_command name COMMANDS; Some (c, rest)
  | [] => None
  end.

(** What is printed without arguments. *)
Definition VERSION : string := "0.1.0".
Definition banner : string := "market-data-service " +:+ VERSION +:+ ": architecture baseline initialized".

(** The name of a command, and that it is dispatched by this name only. *)
Definition command_name (c : Command) : string :=
  default EmptyString (fst <$> List.find (λ p, bool_decide (p.2 = c)) COMMANDS).

Lemma find_command_in name commands c : find_command name commands = Some c → (name, c) ∈ commands.
Proof.
  induction commands as [|[n c'] commands IH]; [done|]. cbn [find_command].
  destruct (bool_decide (name = n)) eqn:Hn; [|intros H; right; by apply IH].
  apply bool_decide_eq_true in Hn as ->. intros [= ->]. left.
Qed.

Lemma dispatch_exact args c rest : dispatch args = Some (c, rest) ↔ args = command_name c :: rest.
Proof.
  split; [|intros ->; by destruct c]. destruct args as [|name args]; [done|]. cbn [dispatch].
  destruct (find_command name COMMANDS) as [c'|] eqn:Hf; [|done]. intros [= -> ->]. f_equal.
  apply find_command_in in Hf. unfold COMMANDS in Hf. set_unfold in Hf. by destruct_or?; simplify_eq.
Qed.

(** ** websocket/transport.py *)

(** A close frame of the websockets library, and what [connection.recv()] comes to. *)
Record CloseFrame := mkCloseFrame { fr_code : Z; fr_reason : string }.

Inductive Recv :=
| RecvText (message : string)
| RecvBinary
| RecvClosed (shown : string) (rcvd sent : option CloseFrame)
| RecvRaises (e : ws_exn).

(** [WebsocketsSession.receive_text] *)
Definition receive_text (r : Recv) : string + ws_exn :=
  match r with
  | RecvText message => inl message
  | RecvBinary => inr (WsError (Exn ExcTypeError "binary WebSocket messages are unsupported"))
  | RecvClosed shown rcvd sent =>
      let frame := match rcvd with Some f => Some f | None => sent end in
      inr (WsDisconnected shown (fr_code <$> frame) (fr_reason <$> frame))
  | RecvRaises e => inr e
  end.

(** What the loop of the connector meets then. *)
Definition iteration_of (r : Recv) : Iteration string :=
  match receive_text r with inl raw => Received raw | inr e => ReceiveRaises e end.

(** ** exception_groups.py *)

(** An exception, or an exception group with its members. *)
Inductive py_exn :=
| Single (e : exn)
| Group (e : exn) (members : list py_exn).

Fixpoint root_exception (x : py_exn) : py_exn :=
  match x with
  | Group _ (first :: _) => root_exception first
  | _ => x
  end.

Definition own_exn (x : py_exn) : exn := match x with Single e | Group e _ => e end.

(** The root is no group with members. *)
Lemma root_is_leaf x : ∃ e, root_exception x = Single e ∨ root_exception x = Group e [].
Proof. revert x. fix IH 1. intros [e|e [|first members]]; cbn [root_exception]; eauto. Qed.

(** ** The end of [RuntimeService.run] *)

(** How its body ends: [BaseException]s, a cancellation among them, pass the handlers. *)
Inductive BodyEnd :=
| BodyReturns
| BodyRaisesGroup (e : exn) (members : list py_exn)
| BodyRaises (e : exn)
| BodyInterrupted (e : exn).

(** What [run] raises, the status it leaves, and that it stopped the tasks and closed the server. *)
Record RunEnd := mkRunEnd {
  re_raised : option py_exn;
  re_status : RuntimeStatus;
  re_stop_set : bool;
  re_server_closed : bool
}.

(** [_mark_fatal] *)
Definition mark_fatal_exn (x : py_exn) (status : RuntimeStatus) : RuntimeStatus :=
  mark_fatal (class_name (exn_cls (own_exn x)) +:+ ": " +:+ exn_str (own_exn x)) status.

Definition end_run (b : BodyEnd) (status : RuntimeStatus) : RunEnd :=
  let '(raised, status) :=
    match b with
    | BodyReturns => (None, status)
    | BodyRaisesGroup e members =>
        let root := root_exception (Group e members) in (Some root, mark_fatal_exn root status)
    | BodyRaises e => (Some (Single e), mark_fatal_exn (Single e) status)
    | BodyInterrupted e => (Some (Single e), status)
    end in
  mkRunEnd raised status true true.

(** A failure is never silent: it is raised on, and the status says it until the end. *)
Lemma end_run_failure b status :
  match b with BodyRaisesGroup _ _ | BodyRaises _ => True | _ => False end →
  ∃ x, re_raised (end_run b status) = Some x ∧ root_exception x = x ∧
    sts_healthy (re_status (end_run b status)) = false ∧
    sts_fatal_error (re_status (end_run b status)) =
      Some (class_name (exn_cls (own_exn x)) +:+ ": " +:+ exn_str (own_exn x))%string.
Proof.
  destruct b as [|e members|e|e]; intros H; try done; cbn [end_run re_raised re_status]; eexists; (split; [done|]);
    (split; [|done]); [|done].
  destruct (root_is_leaf (Group e members)) as [e' [-> | ->]]; done.
Qed.

(** ** event_loop_lag.py *)

Definition TICK_SECONDS : float := float_of 1 (-1).
Definition TICK_NS : Z := 500000000.

(** A sleep of the monitor: [loop.time()] and the counter before it, and both after it unless the
    stop event ended it. *)
Record Tick := mkTick { tk_started : float; tk_counter_ns : Z; tk_ended : option (float * Z) }.

(** The diagnostics, when they are enabled, and the lags that were logged. *)
Record LagMonitor := mkLagMonitor { lm_diagnostics : option LoopDiagnostics; lm_logged : list float }.

(** One sleep that ran out. *)
Definition lag_tick (warn_seconds : float) (t : Tick) (now : float) (end_ns : Z) (m : LagMonitor) : LagMonitor :=
  let lag := fsub (fsub now (tk_started t)) TICK_SECONDS in
  let warn := fge lag warn_seconds in
  match lm_diagnostics m with
  | Some d => mkLagMonitor (Some (diagnostics_tick (tk_counter_ns t + TICK_NS) end_ns warn d)) (lm_logged m)
  | None => mkLagMonitor None (if warn then lm_logged m ++ [lag] else lm_logged m)
  end.

(** [EventLoopLagMonitor.run] over its sleeps, [None] where the stop event is set at the head of the
    loop; [false] when it still sleeps. *)
Fixpoint lag_monitor (warn_seconds : float) (ticks : list (option Tick)) (m : LagMonitor) : bool * LagMonitor :=
  match ticks with
  | [] => (false, m)
  | None :: _ => (true, m)
  | Some t :: ticks =>
      match tk_ended t with
      | None => (true, m)
      | Some (now, end_ns) => lag_monitor warn_seconds ticks (lag_tick warn_seconds t now end_ns m)
      end
  end.

(** ** The output of loop_diagnostics.py *)

(** The collector beside its writer: the event [emit] took last and its thread still writes, and
    the events written. *)
Record DiagnosticTasks := mkDiagTasks {
  dt_diagnostics : LoopDiagnostics;
  dt_writing : option (DiagnosticEvent * Z);
  dt_written : list (DiagnosticEvent * Z)
}.

(** What is done to the queue and to the count of the lost. *)
Definition with_output (output : list (DiagnosticEvent * Z)) (dropped : Z) (d : LoopDiagnostics) : LoopDiagnostics :=
  mkDiagnostics (ld_spans d) (ld_capacity d) output dropped (ld_coverage d) (ld_period_start d).

(** The events a tick offers. *)
Definition offers (end_ns : Z) (warn : bool) (d : LoopDiagnostics) : nat :=
  Nat.b2n warn + Nat.b2n (HOUR_NS <=? end_ns - ld_period_start d).

(** The steps between two awaits, each with the number of events it offers. *)
Inductive diag_step : DiagnosticTasks → nat → DiagnosticTasks → Prop :=
| diag_tick deadline_ns end_ns warn d x l :
    diag_step (mkDiagTasks d x l) (offers end_ns warn d) (mkDiagTasks (diagnostics_tick deadline_ns end_ns warn d) x l)
| diag_record span d x l :
    diag_step (mkDiagTasks d x l) 0 (mkDiagTasks (with_spans (record_span span (ld_spans d)) d) x l)
| diag_take e rest d l :
    ld_output d = e :: rest →
    diag_step (mkDiagTasks d None l) 0 (mkDiagTasks (with_output rest (ld_dropped d) d) (Some e) l)
| diag_written e d l :
    diag_step (mkDiagTasks d (Some e) l) 0 (mkDiagTasks d None (l ++ [e]))
| diag_failed e d l :
    diag_step (mkDiagTasks d (Some e) l) 0 (mkDiagTasks (with_output (ld_output d) (ld_dropped d + 1) d) None l).

Inductive diag_run : DiagnosticTasks → nat → DiagnosticTasks → Prop :=
| diag_refl s : diag_run s 0 s
| diag_then s n s' m s'' : diag_run s n s' → diag_step s' m s'' → diag_run s (n + m) s''.

(** Every event is somewhere: written, being written, in the queue, or counted as lost. *)
Definition accounted (s : DiagnosticTasks) : Z :=
  Z.of_nat (length (dt_written s)) + match dt_writing s with Some _ => 1 | None => 0 end +
  Z.of_nat (length (ld_output (dt_diagnostics s))) + ld_dropped (dt_diagnostics s).

Definition held (d : LoopDiagnostics) : Z := Z.of_nat (length (ld_output d)) + ld_dropped d.

Lemma held_offer e d : held (offer e d) = held d + 1.
Proof. unfold offer, held. destruct (_ && _); cbn; [lia|]. rewrite length_app. cbn. lia. Qed.

Lemma period_offer e d : ld_period_start (offer e d) = ld_period_start d.
Proof. unfold offer. by destruct (_ && _). Qed.

Lemma held_warn deadline_ns end_ns d :
  held (warn_lag deadline_ns end_ns d) = held d + 1 ∧ ld_period_start (warn_lag deadline_ns end_ns d) = ld_period_start d.
Proof.
  unfold warn_lag. destruct (overlap _ _ _) as [[covered operations] evicted]. cbv zeta.
  by rewrite held_offer, period_offer.
Qed.

Lemma held_period end_ns d : held (end_period end_ns d) = held d + 1.
Proof.
  unfold end_period. destruct (take_aggregate (ld_spans d)) as [[phases evicted] spans]. cbv zeta.
  match goal with |- held (mkDiagnostics _ _ (ld_output ?x) _ _ _) = _ => change (held x = held d + 1) end.
  by rewrite held_offer.
Qed.

Lemma held_tick deadline_ns end_ns warn d :
  held (diagnostics_tick deadline_ns end_ns warn d) = held d + Z.of_nat (offers end_ns warn d).
Proof.
  unfold diagnostics_tick, offers. cbv zeta.
  destruct (held_warn deadline_ns end_ns d) as [Hh Hp].
  set (d1 := if warn then warn_lag deadline_ns end_ns d else d).
  assert (Hd1 : held d1 = held d + Z.of_nat (Nat.b2n warn) ∧ ld_period_start d1 = ld_period_start d).
  { unfold d1. destruct warn; cbn [Nat.b2n]; [by rewrite Hh, Hp|]. split; [lia|done]. }
  destruct Hd1 as [Hd1 Hs]. set (d2 := with_spans (finish_tick (ld_spans d1)) d1).
  change (ld_period_start d2) with (ld_period_start d1). rewrite Hs.
  destruct (HOUR_NS <=? end_ns - ld_period_start d); cbn [Nat.b2n].
  - rewrite held_period. change (held d2) with (held d1). lia.
  - change (held d2) with (held d1). lia.
Qed.

(** Over every interleaving of the monitor, the measured work and the writer no event is unaccounted for. *)
Lemma diagnostics_accounted s n s' : diag_run s n s' → accounted s' = accounted s + Z.of_nat n.
Proof.
  induction 1 as [s|s n s' m s'' Hrun IH Hstep]; [lia|].
  assert (accounted s'' = accounted s' + Z.of_nat m); [|lia].
  destruct Hstep; unfold accounted; cbn [dt_written dt_writing dt_diagnostics ld_output ld_dropped with_output with_spans];
    rewrite ?length_app; cbn [length]; try lia.
  - pose proof (held_tick deadline_ns end_ns warn d) as H. unfold held in H. lia.
  - rewrite H. cbn [length]. lia.
Qed.

(** ** The lines an operator reads *)

Definition or_none {A} (f : A → string) (x : option A) : string := match x with Some a => f a | None => "None" end.
Definition shown (s : string) : string := s.

Definition startup_value (c : StartupClassification) : string :=
  match c with
  | START_CONNECTING => "connecting" | START_INCOMPLETE => "incomplete"
  | START_RECOVERABLE_FAILURE => "recoverable_failure" | START_FATAL_FAILURE => "fatal_failure"
  end.

(** [StartupDiagnostics.record] *)
Definition startup_line (o : StartupStreamOutcome) : string :=
  let c := su_counts o in
  "startup stream=" +:+ stream_canonical_id (su_stream o) +:+
  " classification=" +:+ startup_value (su_classification o) +:+
  " start_ms=" +:+ or_none (λ w, str_of_Z (rw_start_time_ms w)) (su_window o) +:+
  " end_ms=" +:+ or_none (λ w, str_of_Z (rw_end_time_ms w)) (su_window o) +:+
  " remaining_gaps=" +:+ or_none (λ r, str_of_Z (Z.of_nat (length (report_gaps r)))) (su_audit o) +:+
  " attempted=" +:+ str_of_Z (wk_attempted_windows c) +:+ " completed=" +:+ str_of_Z (wk_completed_windows c) +:+
  " committed=" +:+ str_of_Z (wk_committed c) +:+ " duplicates=" +:+ str_of_Z (wk_duplicates c) +:+
  " corrected=" +:+ str_of_Z (wk_corrected c) +:+ " rejected=" +:+ str_of_Z (wk_rejected c) +:+
  " unexpected=" +:+ str_of_Z (wk_unexpected c) +:+
  " error=" +:+ or_none shown (su_error_code o) +:+ " detail=" +:+ or_none shown (su_error_detail o).

Definition recovery_value (c : RecoveryClassification) : string :=
  match c with
  | RESTORED => "restored" | INCOMPLETE => "incomplete"
  | RECOVERABLE_FAILURE => "recoverable_failure" | FATAL_FAILURE => "fatal_failure"
  end.

(** [RealtimeRecoveryDiagnostics._counts]: the sums over the windows of the repair. *)
Definition recovery_counts (r : RealtimeRecoveryResult) : BoundedWorkCounts :=
  match vr_repair r with None => mkWorkCounts 0 0 0 0 0 0 0 | Some repair => work_counts repair end.

(** [RealtimeRecoveryDiagnostics.record]; [delay] is the text of the float. *)
Definition recovery_line (k : StreamKey) (reason : string) (before : option RepairProgressMarker)
    (r : RealtimeRecoveryResult) (delay : string) (no_progress_attempts : Z) : string :=
  let after := progress_marker <$> vr_repair r in
  let c := recovery_counts r in
  "realtime recovery result stream=" +:+ stream_canonical_id k +:+ " reason=" +:+ reason +:+
  " classification=" +:+ recovery_value (vr_classification r) +:+
  " start_ms=" +:+ or_none (λ w, str_of_Z (start_ms w)) (vr_recovery_window r) +:+
  " end_ms=" +:+ or_none (λ w, str_of_Z (end_ms w)) (vr_recovery_window r) +:+
  " before_remaining=" +:+ or_none (λ m, str_of_Z (pm_remaining_missing_candles m)) before +:+
  " before_gap_ms=" +:+ or_none str_of_Z (before ≫= pm_earliest_remaining_gap_start_ms) +:+
  " after_remaining=" +:+ or_none (λ m, str_of_Z (pm_remaining_missing_candles m)) after +:+
  " after_gap_ms=" +:+ or_none str_of_Z (after ≫= pm_earliest_remaining_gap_start_ms) +:+
  " next_start_ms=" +:+ or_none (λ w, str_of_Z (start_ms w)) (vr_next_recovery_window r) +:+
  " next_end_ms=" +:+ or_none (λ w, str_of_Z (end_ms w)) (vr_next_recovery_window r) +:+
  " attempted=" +:+ str_of_Z (wk_attempted_windows c) +:+ " completed=" +:+ str_of_Z (wk_completed_windows c) +:+
  " committed=" +:+ str_of_Z (wk_committed c) +:+ " duplicates=" +:+ str_of_Z (wk_duplicates c) +:+
  " corrected=" +:+ str_of_Z (wk_corrected c) +:+ " rejected=" +:+ str_of_Z (wk_rejected c) +:+
  " unexpected=" +:+ str_of_Z (wk_unexpected c) +:+
  " error=" +:+ or_none shown (vr_error_code r) +:+ " detail=" +:+ or_none shown (vr_error_detail r) +:+
  " delay_seconds=" +:+ delay +:+ " no_progress_attempts=" +:+ str_of_Z no_progress_attempts.

(** [log_connection_event] *)
Definition connection_line (e : RealtimeEvent) : option string :=
  match e with
  | Connected _ => Some "websocket connected"
  | Disconnected code reason _ =>
      Some ("websocket disconnected code=" +:+ or_none str_of_Z code +:+ " reason=" +:+ or_none shown reason)
  | TransportFailed code detail _ => Some ("websocket transport failed code=" +:+ code +:+ " detail=" +:+ detail)
  | ReconnectExhausted attempts _ => Some ("websocket reconnect exhausted attempts=" +:+ str_of_Z attempts)
  | _ => None
  end%string.

Definition python_bool (b : bool) : string := if b then "True" else "False".

(** [RuntimeStatusStore._log_transitions] *)
Definition status_line (s : RuntimeStreamStatus) : string :=
  "stream status stream=" +:+ st_stream s +:+ " durable_state=" +:+ st_durable_state s +:+
  " realtime_status=" +:+ st_realtime_status s +:+ " data_ready=" +:+ python_bool (st_data_ready s) +:+
  " realtime_live=" +:+ python_bool (st_realtime_live s) +:+ " ready=" +:+ python_bool (st_ready s) +:+
  " reason=" +:+ or_none shown (st_reason s).

Definition readiness_line (s : RuntimeStatus) : string :=
  "service readiness ready=" +:+ python_bool (sts_aggregate_ready s) +:+
  " ready_streams=" +:+ pretty (length (List.filter (λ p, st_ready p.2) (sts_streams s))) +:+
  " total_streams=" +:+ pretty (length (sts_streams s)).

(** The lines of a replacement of the status of a stream, from the store before and after it. *)
Definition transition_lines (k : StreamKey) (status : RuntimeStreamStatus) (before after : RuntimeStatus) : list string :=
  (if bool_decide (find_status (sts_streams before) k = Some status) then [] else [status_line status]) ++
  (if Bool.eqb (sts_aggregate_ready after) (sts_aggregate_ready before) then [] else [readiness_line after]).

(** Publishing the same status twice says it once. *)
Lemma transition_lines_once k status s s1 s2 :
  replace_stream k status s = (Ok (), s1) → replace_stream k status s1 = (Ok (), s2) →
  transition_lines k status s1 s2 = [].
Proof.
  unfold replace_stream. destruct (find_status (sts_streams s) k) as [old|] eqn:Hold; [|done]. intros [= <-].
  cbn [sts_streams]. set (l := map _ (sts_streams s)).
  assert (Hfind : find_status l k = Some status).
  { unfold find_status in Hold |- *. subst l. revert Hold. induction (sts_streams s) as [|[k' x] l IH]; [done|].
    cbn [map List.find fst snd fmap option_fmap option_map]. destruct (bool_decide (k' = k)) eqn:Hk; cbn [fst].
    - by rewrite Hk.
    - rewrite Hk. exact IH. }
  rewrite Hfind. intros [= <-]. unfold transition_lines. cbn [sts_streams sts_aggregate_ready].
  rewrite (bool_decide_true _ Hfind). cbn [app].
  assert (Hl : map (λ p, if bool_decide (p.1 = k) then (p.1, status) else p) l = l).
  { subst l. rewrite map_map. apply map_ext. intros [k' x]. cbn [fst].
    destruct (bool_decide (k' = k)) eqn:Hk; cbn [fst]; by rewrite Hk. }
  by rewrite Hl, eqb_reflx.
Qed.
