(* ===== verification/TaskGroups.v ===== *)
(** * The tasks of the process

    The task groups of runtime/service.py ([RuntimeService.run] with [runtime_tasks]) and of
    runtime/realtime.py ([RuntimeRealtimeCoordinator.run]): when the tasks end, what that asks of
    the others, and how the run ends then.  A task is what it is to its group: it runs, with or
    without a cancellation requested, or it has ended.  What the tasks do is in the files of their
    components; their loops return once the stop event is set, and the connector may return by
    itself.  A TaskGroup of asyncio cancels the tasks of the group when one of them raises, and
    raises the exceptions as a group once all have ended. *)

From S2P Require Import Prelude PyStr DecimalValues Timeframes Identity Gaps Candles StreamState.
From S2P Require Import Instruments OpenInterest Storage AbsStore Ingest ImportWindow UseCase Repair.
From S2P Require Import RealtimeFacts RealtimeRecovery RuntimeStatus PyFloat Reconciliation Connector Diagnostics Shell.

(** ** The tasks *)

Inductive TaskName :=
| T_CONNECTOR | T_RECOVERY | T_STALE | T_NOTIFIER | T_PREFETCH     (* of the coordinator *)
| T_HISTORY | T_LAG | T_EMIT.                                      (* of the service, beside the coordinator *)

#[export] Instance TaskName_eq_dec : EqDecision TaskName.
Proof. solve_decision. Defined.

Definition inner (t : TaskName) : bool := match t with T_HISTORY | T_LAG | T_EMIT => false | _ => true end.

Inductive TaskEnd := Returned | Raised (e : exn) | WasCancelled.
Inductive TaskState := TaskRunning (cancel_requested : bool) | TaskEnded (r : TaskEnd).

Definition ended (s : TaskState) : bool := match s with TaskEnded _ => true | TaskRunning _ => false end.

(** The stop event, the tasks, the exceptions each group has collected, whether the coordinator was
    asked to end by the group it is in and has ended, and what its last refresh of the status raised. *)
Record Tasks := mkTasks {
  tk_stop : bool;
  tk_leaves : list (TaskName * TaskState);
  tk_inner_errors : list exn;
  tk_inner_cancelled : bool;
  tk_realtime_ended : bool;
  tk_refresh_error : option exn;
  tk_outer_errors : list py_exn
}.

(** The tasks [run] starts: the optional ones when they are configured. *)
Definition service_tasks (notifier prefetch diagnostics : bool) : Tasks :=
  let start t := (t, TaskRunning false) in
  mkTasks false
    (map start ((if diagnostics then [T_EMIT] else []) ++ [T_CONNECTOR; T_RECOVERY; T_STALE] ++
                (if notifier then [T_NOTIFIER] else []) ++ (if prefetch then [T_PREFETCH] else []) ++ [T_HISTORY; T_LAG]))
    [] false false None [].

(** [task.cancel()] for the tasks of a group that still run. *)
Definition cancel (group : TaskName → bool) (leaves : list (TaskName * TaskState)) : list (TaskName * TaskState) :=
  map (λ x, match x.2 with TaskRunning _ => if group x.1 then (x.1, TaskRunning true) else x | TaskEnded _ => x end) leaves.

(** The exception of a group. *)
Definition group_exn (n : nat) : exn :=
  Exn (ExcForeign "ExceptionGroup" false)
    ("unhandled errors in a TaskGroup (" +:+ pretty n +:+ (if (n =? 1)%nat then " sub-exception)" else " sub-exceptions)")).

(** A task ended: [_run_connector] sets the stop event in its [finally]; an exception is collected by
    the group of the task, which then asks its other tasks to end, the service's group the
    coordinator too. *)
Definition leaf_ended (t : TaskName) (r : TaskEnd) (s : Tasks) : Tasks :=
  let stop := tk_stop s || bool_decide (t = T_CONNECTOR) in
  match r with
  | Raised e =>
      if inner t then
        mkTasks stop (cancel inner (tk_leaves s)) (tk_inner_errors s ++ [e]) (tk_inner_cancelled s)
          (tk_realtime_ended s) (tk_refresh_error s) (tk_outer_errors s)
      else
        mkTasks stop (cancel (λ _, true) (tk_leaves s)) (tk_inner_errors s)
          (tk_inner_cancelled s || negb (tk_realtime_ended s)) (tk_realtime_ended s) (tk_refresh_error s)
          (tk_outer_errors s ++ [Single e])
  | _ =>
      mkTasks stop (tk_leaves s) (tk_inner_errors s) (tk_inner_cancelled s) (tk_realtime_ended s) (tk_refresh_error s)
        (tk_outer_errors s)
  end.

(** The coordinator ended: its [finally] sets the stop event and refreshes the status.  It raises what
    the refresh raised, or else what its group collected. *)
Definition realtime_raises (refresh : option exn) (s : Tasks) : option py_exn :=
  match refresh, tk_inner_errors s with
  | Some e, _ => Some (Single e)
  | None, [] => None
  | None, errors => Some (Group (group_exn (length errors)) (map Single errors))
  end.

Definition realtime_ended (refresh : option exn) (s : Tasks) : Tasks :=
  match realtime_raises refresh s with
  | None => mkTasks true (tk_leaves s) (tk_inner_errors s) (tk_inner_cancelled s) true refresh (tk_outer_errors s)
  | Some x =>
      mkTasks true (cancel (λ _, true) (tk_leaves s)) (tk_inner_errors s) (tk_inner_cancelled s) true refresh
        (tk_outer_errors s ++ [x])
  end.

Definition with_leaves (leaves : list (TaskName * TaskState)) (s : Tasks) : Tasks :=
  mkTasks (tk_stop s) leaves (tk_inner_errors s) (tk_inner_cancelled s) (tk_realtime_ended s) (tk_refresh_error s)
    (tk_outer_errors s).

Definition set_stop (s : Tasks) : Tasks :=
  mkTasks true (tk_leaves s) (tk_inner_errors s) (tk_inner_cancelled s) (tk_realtime_ended s) (tk_refresh_error s)
    (tk_outer_errors s).

Definition inner_over (s : Tasks) : bool := forallb (λ x, negb (inner x.1) || ended x.2) (tk_leaves s).

(** The ends a task may come to. *)
Definition may_end (t : TaskName) (stop cancel_requested : bool) (r : TaskEnd) : Prop :=
  match r with
  | Returned => stop = true ∨ t = T_CONNECTOR
  | Raised _ => True
  | WasCancelled => cancel_requested = true
  end.

Inductive task_step : Tasks → Tasks → Prop :=
| step_signal s : task_step s (set_stop s)             (* SIGINT or SIGTERM *)
| step_leaf s l1 t c l2 r :
    tk_leaves s = l1 ++ (t, TaskRunning c) :: l2 → may_end t (tk_stop s) c r →
    task_step s (leaf_ended t r (with_leaves (l1 ++ (t, TaskEnded r) :: l2) s))
| step_realtime s refresh :
    inner_over s = true → tk_realtime_ended s = false → task_step s (realtime_ended refresh s).

Definition finished (s : Tasks) : bool := forallb (λ x, ended x.2) (tk_leaves s) && tk_realtime_ended s.

(** What the body of [RuntimeService.run] comes to when its group has ended. *)
Definition tasks_result (s : Tasks) : BodyEnd :=
  match tk_outer_errors s with
  | [] => BodyReturns
  | errors => BodyRaisesGroup (group_exn (length errors)) errors
  end.

(** The exceptions the tasks ended with, and that of the refresh. *)
Definition raised_by (s : Tasks) : list exn :=
  omap (λ x, match x.2 with TaskEnded (Raised e) => Some e | _ => None end) (tk_leaves s) ++
  option_list (tk_refresh_error s).

(** A task that was asked to end ends: it returns when the stop event is set, or it was cancelled. *)
Definition asked_end (stop cancel_requested : bool) : option TaskEnd :=
  if stop then Some Returned else if cancel_requested then Some WasCancelled else None.

Definition remaining (s : Tasks) : nat :=
  length (List.filter (λ x, negb (ended x.2)) (tk_leaves s)) + Nat.b2n (negb (tk_realtime_ended s)).

(** ** Runs *)

(** The running task of a name, between those before and after it. *)
Fixpoint find_leaf (t : TaskName) (l : list (TaskName * TaskState)) :
    option (list (TaskName * TaskState) * bool * list (TaskName * TaskState)) :=
  match l with
  | [] => None
  | (u, st) :: l =>
      match (if bool_decide (u = t) then st else TaskEnded Returned) with
      | TaskRunning c => Some ([], c, l)
      | TaskEnded _ => x ← find_leaf t l; Some ((u, st) :: x.1.1, x.1.2, x.2)
      end
  end.

Definition may_endb (t : TaskName) (stop cancel_requested : bool) (r : TaskEnd) : bool :=
  match r with
  | Returned => stop || bool_decide (t = T_CONNECTOR)
  | Raised _ => true
  | WasCancelled => cancel_requested
  end.

(** A run by the tasks that end, in order; [None] is the coordinator. *)
Fixpoint task_run (script : list (option (TaskName * TaskEnd))) (s : Tasks) : option Tasks :=
  match script with
  | [] => Some s
  | None :: script => if inner_over s && negb (tk_realtime_ended s) then task_run script (realtime_ended None s) else None
  | Some (t, r) :: script =>
      x ← find_leaf t (tk_leaves s);
      if may_endb t (tk_stop s) x.1.2 r
      then task_run script (leaf_ended t r (with_leaves (x.1.1 ++ (t, TaskEnded r) :: x.2) s)) else None
  end.

(** The connector gives up, and every task returns: the run raises nothing, so the exit code is 0. *)
Example connector_gives_up :
  (s ← task_run [Some (T_CONNECTOR, Returned); Some (T_STALE, Returned); Some (T_RECOVERY, Returned); None;
                Some (T_HISTORY, Returned); Some (T_LAG, Returned)] (service_tasks false false false);
   Some (finished s, tasks_result s)) = Some (true, BodyReturns).
Proof. by vm_compute. Qed.

(** The exception a run ends with need not be the first one: here the recovery worker raised first. *)
Definition two_failures : list (option (TaskName * TaskEnd)) :=
  [Some (T_RECOVERY, Raised (Exn ExcRuntimeError "recovery")); Some (T_HISTORY, Raised (Exn ExcValueError "history"));
   Some (T_CONNECTOR, WasCancelled); Some (T_STALE, WasCancelled); None; Some (T_LAG, WasCancelled)].

Example root_is_not_first :
  (s ← task_run two_failures (service_tasks false false false);
   Some (finished s, re_raised (end_run (tasks_result s) (RuntimeStatus_new [])))) =
  Some (true, Some (Single (Exn ExcValueError "history"))).
Proof. by vm_compute. Qed.

Lemma find_leaf_split t l l1 c l2 : find_leaf t l = Some (l1, c, l2) → l = l1 ++ (t, TaskRunning c) :: l2.
Proof.
  revert l1. induction l as [|[u st] l IH]; intros l1; [done|]. cbn [find_leaf].
  assert (Hrest : (x ← find_leaf t l; Some ((u, st) :: x.1.1, x.1.2, x.2)) = Some (l1, c, l2) →
                  (u, st) :: l = l1 ++ (t, TaskRunning c) :: l2).
  { destruct (find_leaf t l) as [[[l1' c'] l2']|]; [|done]. cbn. intros [= <- -> ->]. by rewrite (IH l1'). }
  destruct (bool_decide (u = t)) eqn:Hu; [|exact Hrest]. apply bool_decide_eq_true in Hu as ->.
  destruct st as [c'|r]; [|exact Hrest]. by intros [= <- -> ->].
Qed.

Lemma task_run_reachable script s s' : task_run script s = Some s' → rtc task_step s s'.
Proof.
  revert s. induction script as [|[[t r]|] script IH]; intros s; cbn [task_run].
  - by intros [= ->].
  - destruct (find_leaf t (tk_leaves s)) as [[[l1 c] l2]|] eqn:Hf; [|done]. cbn [mbind option_bind fst snd].
    destruct (may_endb t (tk_stop s) c r) eqn:Hm; [|done]. intros H. eapply rtc_l; [|by apply IH].
    eapply step_leaf; [by apply find_leaf_split|]. destruct r as [|e|]; cbn in *; [|done|done].
    apply orb_true_iff in Hm as [Hm|Hm]; [by left|right]. by apply bool_decide_eq_true in Hm.
  - destruct (inner_over s) eqn:Hi, (tk_realtime_ended s) eqn:Hr; try done. cbn [andb negb]. intros H.
    eapply rtc_l; [|by apply IH]. by apply step_realtime.
Qed.

(** The step of a task that ends as it was asked to, or of the coordinator that ends after its tasks. *)
Inductive asked_step : Tasks → Tasks → Prop :=
| asked_leaf s l1 t c l2 r :
    tk_leaves s = l1 ++ (t, TaskRunning c) :: l2 → asked_end (tk_stop s) c = Some r →
    asked_step s (leaf_ended t r (with_leaves (l1 ++ (t, TaskEnded r) :: l2) s))
| asked_realtime s :
    inner_over s = true → tk_realtime_ended s = false → asked_step s (realtime_ended None s).

Lemma asked_is_step s s' : asked_step s s' → task_step s s'.
Proof.
  intros [s0 l1 t c l2 r Hl Hr|s0 Hi Hr]; [|by constructor]. econstructor; [exact Hl|].
  unfold asked_end in Hr. destruct (tk_stop s0); [injection Hr as <-; by left|]. destruct c; [by injection Hr as <-|done].
Qed.

(** ** Facts about cancellations *)

Lemma cancel_ended group l t r : (t, TaskEnded r) ∈ cancel group l ↔ (t, TaskEnded r) ∈ l.
Proof.
  unfold cancel. rewrite list_elem_of_In, in_map_iff. setoid_rewrite <- list_elem_of_In. split.
  - intros ([u [c|r']] & Hx & Hin); cbn [fst snd] in Hx; [by destruct (group u)|by rewrite <- Hx].
  - intros H. by exists (t, TaskEnded r).
Qed.

Lemma cancel_running group l t c :
  (t, TaskRunning c) ∈ cancel group l → if group t then c = true else (t, TaskRunning c) ∈ l.
Proof.
  unfold cancel. rewrite list_elem_of_In, in_map_iff. setoid_rewrite <- list_elem_of_In.
  intros ([u [c'|r']] & Hx & Hin); cbn [fst snd] in Hx; [|done].
  destruct (group u) eqn:Hg; injection Hx as -> ->; by rewrite Hg.
Qed.

Lemma cancel_filter group l :
  length (List.filter (λ x, negb (ended x.2)) (cancel group l)) = length (List.filter (λ x, negb (ended x.2)) l).
Proof.
  unfold cancel. induction l as [|[u [c|r]] l IH]; cbn [map List.filter fst snd ended negb]; [done| |exact IH].
  destruct (group u); cbn [List.filter snd ended negb length]; by rewrite IH.
Qed.

Lemma cancel_omap group l :
  omap (λ x : TaskName * TaskState, match x.2 with TaskEnded (Raised e) => Some e | _ => None end) (cancel group l) =
  omap (λ x : TaskName * TaskState, match x.2 with TaskEnded (Raised e) => Some e | _ => None end) l.
Proof.
  unfold cancel. induction l as [|[u [c|r]] l IH]; cbn [map omap list_omap fst snd]; [done| |].
  - destruct (group u); cbn [snd]; exact IH.
  - destruct r; cbn [snd]; by rewrite IH.
Qed.

Lemma cancel_forallb group (p : TaskName → bool) l :
  forallb (λ x, p x.1 || ended x.2) (cancel group l) = forallb (λ x, p x.1 || ended x.2) l.
Proof.
  unfold cancel. induction l as [|[u [c|r]] l IH]; cbn [map forallb fst snd]; [done| |by rewrite IH].
  destruct (group u); cbn [fst snd ended]; by rewrite IH.
Qed.

Lemma raised_by_in s e :
  e ∈ raised_by s ↔ (∃ t, (t, TaskEnded (Raised e)) ∈ tk_leaves s) ∨ tk_refresh_error s = Some e.
Proof.
  unfold raised_by. rewrite elem_of_app, list_elem_of_omap. split.
  - intros [([t [c|[| |]]] & Hin & Hx)|H]; try done; [injection Hx as ->; left; by exists t|right].
    destruct (tk_refresh_error s); [|by apply not_elem_of_nil in H]. by apply list_elem_of_singleton in H as ->.
  - intros [(t & Hin)| ->]; [left; by exists (t, TaskEnded (Raised e))|right; left].
Qed.

(** ** The invariant *)

Definition failing (s : Tasks) : Prop := raised_by s ≠ [].

Record tasks_ok (s : Tasks) : Prop := mkTasksOk {
  tok_connector : ∀ r, (T_CONNECTOR, TaskEnded r) ∈ tk_leaves s → tk_stop s = true;
  tok_returned : ∀ t, (t, TaskEnded Returned) ∈ tk_leaves s → tk_stop s = true;
  tok_cancelled : ∀ t, (t, TaskRunning true) ∈ tk_leaves s ∨ (t, TaskEnded WasCancelled) ∈ tk_leaves s → failing s;
  tok_inner : ∀ e, e ∈ tk_inner_errors s → e ∈ raised_by s;
  tok_outer : ∀ x, x ∈ tk_outer_errors s → ∃ e, root_exception x = Single e ∧ e ∈ raised_by s;
  tok_collected : ∀ t e, (t, TaskEnded (Raised e)) ∈ tk_leaves s →
    if inner t then tk_inner_errors s ≠ [] else tk_outer_errors s ≠ [];
  tok_realtime : tk_realtime_ended s = true →
    tk_stop s = true ∧ inner_over s = true ∧ (tk_inner_errors s ≠ [] → tk_outer_errors s ≠ []);
  tok_refresh : ∀ e, tk_refresh_error s = Some e → tk_realtime_ended s = true ∧ tk_outer_errors s ≠ [];
  tok_asked_inner : tk_inner_errors s ≠ [] → ∀ t c, (t, TaskRunning c) ∈ tk_leaves s → inner t = true → c = true;
  tok_asked_outer : tk_outer_errors s ≠ [] → ∀ t c, (t, TaskRunning c) ∈ tk_leaves s → c = true
}.

Lemma service_tasks_ok n p d : tasks_ok (service_tasks n p d).
Proof.
  assert (H : ∀ t st, (t, st) ∈ tk_leaves (service_tasks n p d) → st = TaskRunning false).
  { intros t st. unfold service_tasks. cbn [tk_leaves]. rewrite list_elem_of_In, in_map_iff. by intros (u & [= _ <-] & _). }
  split; cbn [tk_stop tk_inner_errors tk_outer_errors tk_realtime_ended service_tasks]; try done.
  - by intros r Hr%H.
  - by intros t Hr%H.
  - by intros t [Hr%H|Hr%H].
  - by intros e He%not_elem_of_nil.
  - by intros x Hx%not_elem_of_nil.
  - by intros t e Hr%H.
Qed.

(** The leaves after one of them ended. *)
Lemma leaf_in (l1 l2 : list (TaskName * TaskState)) t c r u st :
  (u, st) ∈ l1 ++ (t, TaskEnded r) :: l2 → (u = t ∧ st = TaskEnded r) ∨ (u, st) ∈ l1 ++ (t, TaskRunning c) :: l2.
Proof. rewrite !elem_of_app, !elem_of_cons. intros [H|[[= -> ->]|H]]; auto. Qed.

Lemma leaf_keeps (l1 l2 : list (TaskName * TaskState)) t c r u r' :
  (u, TaskEnded r') ∈ l1 ++ (t, TaskRunning c) :: l2 → (u, TaskEnded r') ∈ l1 ++ (t, TaskEnded r) :: l2.
Proof. rewrite !elem_of_app, !elem_of_cons. intros [H|[H|H]]; [auto|done|auto]. Qed.

(** The tasks a task that ends asks to end. *)
Definition asks (t : TaskName) (r : TaskEnd) : TaskName → bool :=
  match r with Raised _ => if inner t then inner else λ _, true | _ => λ _, false end.

Lemma cancel_none l : cancel (λ _, false) l = l.
Proof. unfold cancel. induction l as [|[u [c|r]] l IH]; cbn [map fst snd]; by rewrite ?IH. Qed.

Lemma leaf_ended_leaves t r s : tk_leaves (leaf_ended t r s) = cancel (asks t r) (tk_leaves s).
Proof. destruct r; cbn [leaf_ended asks]; [by rewrite cancel_none|by destruct (inner t)|by rewrite cancel_none]. Qed.

Lemma leaf_ended_stop t r s : tk_stop (leaf_ended t r s) = tk_stop s || bool_decide (t = T_CONNECTOR).
Proof. destruct r; cbn [leaf_ended]; [done|by destruct (inner t)|done]. Qed.

Lemma leaf_ended_errors t r s :
  tk_inner_errors (leaf_ended t r s) =
    tk_inner_errors s ++ match r with Raised e => if inner t then [e] else [] | _ => [] end ∧
  tk_outer_errors (leaf_ended t r s) =
    tk_outer_errors s ++ match r with Raised e => if inner t then [] else [Single e] | _ => [] end ∧
  tk_realtime_ended (leaf_ended t r s) = tk_realtime_ended s ∧
  tk_refresh_error (leaf_ended t r s) = tk_refresh_error s.
Proof. destruct r; cbn [leaf_ended]; [|destruct (inner t)|]; cbn; by rewrite ?app_nil_r. Qed.

Lemma asks_raised t r u : asks t r u = true → ∃ e, r = Raised e.
Proof. destruct r as [|e|]; [done| |done]. by exists e. Qed.

Section leaf_step.
Context (s : Tasks) (l1 l2 : list (TaskName * TaskState)) (t : TaskName) (c : bool) (r : TaskEnd).
Context (Hl : tk_leaves s = l1 ++ (t, TaskRunning c) :: l2) (Hok : tasks_ok s) (Hend : may_end t (tk_stop s) c r).

Notation lv := (l1 ++ (t, TaskEnded r) :: l2).
Notation s' := (leaf_ended t r (with_leaves lv s)).

Lemma leaf_step_leaves : tk_leaves s' = cancel (asks t r) lv.
Proof. by rewrite leaf_ended_leaves. Qed.

Lemma leaf_step_ended u r' : (u, TaskEnded r') ∈ tk_leaves s' → (u = t ∧ r' = r) ∨ (u, TaskEnded r') ∈ tk_leaves s.
Proof.
  rewrite leaf_step_leaves, cancel_ended. intros H. apply (leaf_in l1 l2 t c r) in H.
  destruct H as [[-> [= ->]]|H]; [by left|]. right. by rewrite Hl.
Qed.

Lemma leaf_step_keeps u r' : (u, TaskEnded r') ∈ tk_leaves s → (u, TaskEnded r') ∈ tk_leaves s'.
Proof. rewrite leaf_step_leaves, cancel_ended, Hl. apply leaf_keeps. Qed.

Lemma leaf_step_new : (t, TaskEnded r) ∈ tk_leaves s'.
Proof. rewrite leaf_step_leaves, cancel_ended, elem_of_app, elem_of_cons. auto. Qed.

Lemma leaf_step_running u c' :
  (u, TaskRunning c') ∈ tk_leaves s' → if asks t r u then c' = true else (u, TaskRunning c') ∈ tk_leaves s.
Proof.
  rewrite leaf_step_leaves. intros H%cancel_running. destruct (asks t r u); [done|].
  apply (leaf_in l1 l2 t c r) in H. destruct H as [[_ H]|H]; [done|]. by rewrite Hl.
Qed.

Lemma leaf_step_raised e : e ∈ raised_by s → e ∈ raised_by s'.
Proof.
  rewrite !raised_by_in. intros [(u & Hu)|H]; [left; exists u; by apply leaf_step_keeps|right].
  by rewrite (proj2 (proj2 (proj2 (leaf_ended_errors _ _ _)))).
Qed.

Lemma leaf_step_failing : failing s → failing s'.
Proof.
  unfold failing. destruct (raised_by s) as [|e l] eqn:H; [done|]. intros _ H'.
  assert (He : e ∈ raised_by s) by (rewrite H; left). apply leaf_step_raised in He. rewrite H' in He.
  by apply not_elem_of_nil in He.
Qed.

Lemma leaf_step_new_failing e : r = Raised e → e ∈ raised_by s' ∧ failing s'.
Proof.
  intros Hr. assert (H : e ∈ raised_by s') by (apply raised_by_in; left; exists t; rewrite <- Hr; apply leaf_step_new).
  split; [done|]. unfold failing. intros H'. rewrite H' in H. by apply not_elem_of_nil in H.
Qed.

Lemma leaf_step_inner_over : inner_over s = true → inner t = false ∧ inner_over s' = true.
Proof.
  unfold inner_over. rewrite leaf_step_leaves, (cancel_forallb _ (λ u, negb (inner u))), Hl, !forallb_app.
  cbn [forallb fst snd ended]. rewrite orb_false_r, orb_true_r. rewrite !andb_true_iff, negb_true_iff. tauto.
Qed.

Lemma leaf_step_ok : tasks_ok s'.
Proof.
  pose proof (leaf_ended_errors t r (with_leaves lv s)) as (Hin & Hout & Hrt & Hre).
  change (tk_inner_errors (with_leaves lv s)) with (tk_inner_errors s) in Hin.
  change (tk_outer_errors (with_leaves lv s)) with (tk_outer_errors s) in Hout.
  change (tk_realtime_ended (with_leaves lv s)) with (tk_realtime_ended s) in Hrt.
  change (tk_refresh_error (with_leaves lv s)) with (tk_refresh_error s) in Hre.
  assert (Hstop : tk_stop s = true → tk_stop s' = true) by (intros H; by rewrite leaf_ended_stop; cbn; rewrite H).
  destruct Hok as [O1 O2 O3 O4 O5 O6 O7 O10 O8 O9]. split.
  - intros r' [[<- _]|H]%leaf_step_ended; [|eauto]. rewrite leaf_ended_stop, bool_decide_true by done. apply orb_true_r.
  - intros u [[-> <-]|H]%leaf_step_ended; [|eauto]. destruct Hend as [H|H]; [auto|].
    rewrite leaf_ended_stop, bool_decide_true by done. apply orb_true_r.
  - intros u [H|H].
    + apply leaf_step_running in H. destruct (asks t r u) eqn:Ha; [|apply leaf_step_failing; eauto].
      destruct (asks_raised t r u Ha) as [e Hr]. apply (leaf_step_new_failing e Hr).
    + apply leaf_step_ended in H as [[-> Hr]|H]; apply leaf_step_failing; [|eauto].
      assert (Hc : c = true) by (rewrite <- Hr in Hend; exact Hend).
      apply (O3 t). left. rewrite Hl, elem_of_app, elem_of_cons, Hc. auto.
  - intros e. rewrite Hin, elem_of_app. intros [H|H]; [by apply leaf_step_raised, O4|].
    destruct r as [|e'|] eqn:Hr in H; try by apply not_elem_of_nil in H.
    destruct (inner t); [|by apply not_elem_of_nil in H]. apply list_elem_of_singleton in H as ->.
    apply (leaf_step_new_failing e' Hr).
  - intros x. rewrite Hout, elem_of_app. intros [H|H].
    + destruct (O5 x H) as (e & He & Hr). exists e. split; [done|]. by apply leaf_step_raised.
    + destruct r as [|e'|] eqn:Hr in H; try by apply not_elem_of_nil in H.
      destruct (inner t); [by apply not_elem_of_nil in H|]. apply list_elem_of_singleton in H as ->. exists e'.
      split; [done|]. apply (leaf_step_new_failing e' Hr).
  - intros u e [[-> Hr]|H]%leaf_step_ended.
    + rewrite Hin, Hout, <- Hr. destruct (inner t); by intros [_ H']%app_eq_nil.
    + apply O6 in H. rewrite Hin, Hout. destruct (inner u); intros [H' _]%app_eq_nil; by apply H.
  - rewrite Hrt. intros H. destruct (O7 H) as (H1 & H2 & H3). destruct (leaf_step_inner_over H2) as [Ht H2'].
    split; [auto|]. split; [done|]. rewrite Hin, Hout. rewrite Ht. intros H4.
    intros [H' _]%app_eq_nil. revert H'. apply H3. intros H'. apply H4. rewrite H'. by destruct r.
  - rewrite Hre, Hrt. intros e H. destruct (O10 e H) as [H1 H2]. split; [done|]. rewrite Hout.
    intros [H' _]%app_eq_nil. by apply H2.
  - intros He u c' H Hu. apply leaf_step_running in H. destruct (asks t r u) eqn:Ha; [done|].
    apply (O8 ltac:(rewrite Hin in He; unfold asks in Ha; destruct r; [by rewrite app_nil_r in He|
      destruct (inner t); [by rewrite Hu in Ha|done]|by rewrite app_nil_r in He]) u c' H Hu).
  - intros He u c' H. apply leaf_step_running in H. destruct (asks t r u) eqn:Ha; [done|].
    apply (O9 ltac:(rewrite Hout in He; unfold asks in Ha; destruct r; [by rewrite app_nil_r in He|
      destruct (inner t); [by rewrite app_nil_r in He|done]|by rewrite app_nil_r in He]) u c' H).
Qed.
End leaf_step.

Lemma set_stop_ok s : tasks_ok s → tasks_ok (set_stop s).
Proof. intros [O1 O2 O3 O4 O5 O6 O7 O10 O8 O9]. split; cbn; try done. intros H. by destruct (O7 H) as (_ & H2 & H3). Qed.

Lemma realtime_raises_root refresh s x :
  tasks_ok s → realtime_raises refresh s = Some x →
  ∃ e, root_exception x = Single e ∧ (e ∈ raised_by s ∨ refresh = Some e).
Proof.
  intros Hok. unfold realtime_raises. destruct refresh as [e|]; [intros [= <-]; exists e; auto|].
  destruct (tk_inner_errors s) as [|e errors] eqn:He; [done|]. intros [= <-]. exists e. split; [done|]. left.
  apply tok_inner; [done|]. rewrite He. left.
Qed.

Section realtime_step.
Context (s : Tasks) (refresh : option exn) (Hok : tasks_ok s) (Hov : inner_over s = true) (Hrt : tk_realtime_ended s = false).
Notation s' := (realtime_ended refresh s).

Lemma realtime_step_raised e : e ∈ raised_by s' ↔ e ∈ raised_by s ∨ refresh = Some e.
Proof.
  assert (Hnone : tk_refresh_error s = None).
  { destruct (tk_refresh_error s) as [e'|] eqn:He; [|done]. destruct (tok_refresh s Hok e' He). congruence. }
  rewrite !raised_by_in, Hnone.
  assert (Hl : ∀ t r, (t, TaskEnded r) ∈ tk_leaves s' ↔ (t, TaskEnded r) ∈ tk_leaves s).
  { intros t r. unfold realtime_ended. destruct (realtime_raises refresh s); [apply cancel_ended|done]. }
  assert (Hr : tk_refresh_error s' = refresh) by (unfold realtime_ended; by destruct (realtime_raises refresh s)).
  setoid_rewrite Hl. rewrite Hr. split; [intros [H|H]; auto|intros [[H|H]|H]; [auto|done|auto]].
Qed.

Lemma realtime_ended_ok : tasks_ok s'.
Proof.
  pose proof (λ x, realtime_raises_root refresh s x Hok) as Hroot. pose proof realtime_step_raised as Hrb.
  pose proof Hok as [O1 O2 O3 O4 O5 O6 O7 O10 O8 O9].
  assert (Hmono : ∀ e, e ∈ raised_by s → e ∈ raised_by s') by (intros e H; apply Hrb; auto).
  unfold realtime_ended in *. destruct (realtime_raises refresh s) as [x|] eqn:Hx.
  - destruct (Hroot x eq_refl) as (e & He & Hin). apply Hrb in Hin.
    split; cbn [tk_stop tk_leaves tk_inner_errors tk_outer_errors tk_realtime_ended tk_refresh_error]; try done.
    + intros t _. unfold failing. intros H. rewrite H in Hin. by apply not_elem_of_nil in Hin.
    + intros e' H. apply Hmono. by apply O4.
    + intros x' [H|H]%elem_of_app; [destruct (O5 x' H) as (e' & Hr & H'); exists e'; auto|].
      apply list_elem_of_singleton in H as ->. by exists e.
    + intros t e' H%cancel_ended%O6. destruct (inner t); [done|]. by intros [_ H']%app_eq_nil.
    + intros _. split; [done|]. split; [|intros _; by intros [_ H]%app_eq_nil].
      unfold inner_over in *. cbn [tk_leaves]. by rewrite (cancel_forallb _ (λ u, negb (inner u))).
    + intros e' _. split; [done|]. by intros [_ H]%app_eq_nil.
    + intros _ t c H _. by apply cancel_running in H.
    + intros _ t c H. by apply cancel_running in H.
  - assert (Hcase : refresh = None ∧ tk_inner_errors s = []).
    { unfold realtime_raises in Hx. destruct refresh; [done|]. by destruct (tk_inner_errors s). }
    destruct Hcase as [Hr Hi].
    split; cbn [tk_stop tk_leaves tk_inner_errors tk_outer_errors tk_realtime_ended tk_refresh_error]; try done.
    + intros t H. specialize (O3 t H). unfold failing in *. destruct (raised_by s) as [|e l] eqn:Hl; [done|].
      intros H'. specialize (Hmono e ltac:(left)). rewrite H' in Hmono. by apply not_elem_of_nil in Hmono.
    + intros e H. apply Hmono. by apply O4.
    + intros x H. destruct (O5 x H) as (e' & Hr' & H'). exists e'. auto.
    + intros e H. congruence.
Qed.
End realtime_step.

Lemma task_step_ok s s' : tasks_ok s → task_step s s' → tasks_ok s'.
Proof.
  intros Hok Hs. revert Hok. destruct Hs as [s|s l1 t c l2 r Hl Hr|s refresh Hi Hr]; intros Hok;
    [by apply set_stop_ok|exact (leaf_step_ok s l1 l2 t c r Hl Hok Hr)|by apply realtime_ended_ok].
Qed.

Lemma tasks_reachable_ok n p d s : rtc task_step (service_tasks n p d) s → tasks_ok s.
Proof.
  intros H. pose proof (service_tasks_ok n p d) as Hok. revert Hok. induction H as [s|s s1 s2 Hs _ IH]; [done|].
  intros Hok. apply IH. by eapply task_step_ok.
Qed.

(** ** Every task that ends brings the end nearer *)

Lemma remaining_leaf s l1 t c l2 r :
  tk_leaves s = l1 ++ (t, TaskRunning c) :: l2 →
  (remaining (leaf_ended t r (with_leaves (l1 ++ (t, TaskEnded r) :: l2) s)) < remaining s)%nat.
Proof.
  intros Hl. unfold remaining. rewrite leaf_ended_leaves, cancel_filter.
  pose proof (leaf_ended_errors t r (with_leaves (l1 ++ (t, TaskEnded r) :: l2) s)) as (_ & _ & -> & _).
  cbn [tk_leaves with_leaves tk_realtime_ended]. rewrite Hl, !List.filter_app, !length_app.
  cbn [List.filter snd ended negb length]. lia.
Qed.

Lemma remaining_realtime refresh s :
  tk_realtime_ended s = false → (remaining (realtime_ended refresh s) < remaining s)%nat.
Proof.
  intros Hr. unfold remaining, realtime_ended. rewrite Hr.
  destruct (realtime_raises refresh s); cbn [tk_leaves tk_realtime_ended negb Nat.b2n]; rewrite ?cancel_filter; lia.
Qed.

Lemma remaining_step s s' : task_step s s' → s' = set_stop s ∨ (remaining s' < remaining s)%nat.
Proof.
  intros [s0|s0 l1 t c l2 r Hl Hr|s0 refresh Hi Hr]; [by left|right; by eapply remaining_leaf|right; by apply remaining_realtime].
Qed.

Lemma remaining_asked s s' : asked_step s s' → (remaining s' < remaining s)%nat.
Proof. intros [s0 l1 t c l2 r Hl Hr|s0 Hi Hr]; [by eapply remaining_leaf|by apply remaining_realtime]. Qed.

Lemma find_running (p : TaskName → bool) l :
  (∃ l1 t c l2, l = l1 ++ (t, TaskRunning c) :: l2 ∧ p t = true) ∨ forallb (λ x, negb (p x.1) || ended x.2) l = true.
Proof.
  induction l as [|[u st] l IH]; [by right|]. cbn [forallb fst snd].
  destruct st as [c|r]; cbn [ended]; [|rewrite orb_true_r].
  - destruct (p u) eqn:Hp; [left; by exists [], u, c, l|]. cbn [negb orb andb].
    destruct IH as [(l1 & t & c' & l2 & -> & Ht)|IH]; [left; by exists ((u, TaskRunning c) :: l1), t, c', l2|by right].
  - destruct IH as [(l1 & t & c' & l2 & -> & Ht)|IH]; [left; by exists ((u, TaskEnded r) :: l1), t, c', l2|by right].
Qed.

(** The tasks of [p] have all been asked, or have ended. *)
Lemma asked_or_over (p : TaskName → bool) s :
  (∀ t c, (t, TaskRunning c) ∈ tk_leaves s → p t = true → is_Some (asked_end (tk_stop s) c)) →
  (∃ s', asked_step s s') ∨ forallb (λ x, negb (p x.1) || ended x.2) (tk_leaves s) = true.
Proof.
  intros H. destruct (find_running p (tk_leaves s)) as [(l1 & t & c & l2 & Hl & Ht)|Hover]; [left|by right].
  destruct (H t c) as [r Hr]; [|done|by eexists; eapply asked_leaf].
  rewrite Hl, elem_of_app, elem_of_cons. auto.
Qed.

Lemma asked_progress s :
  tasks_ok s → tk_stop s = true ∨ failing s → finished s = false → ∃ s', asked_step s s'.
Proof.
  intros [O1 O2 O3 O4 O5 O6 O7 O10 O8 O9] Hasked Hfin. destruct (tk_stop s) eqn:Hstop.
  - destruct (asked_or_over (λ _, true) s) as [H|Hover]; [intros t c _ _; rewrite Hstop; by eexists|done|].
    assert (Hall : forallb (λ x, ended x.2) (tk_leaves s) = true) by exact Hover.
    unfold finished in Hfin. rewrite Hall in Hfin. cbn [andb] in Hfin.
    eexists. apply asked_realtime; [|done]. unfold inner_over. apply forallb_forall. intros x Hx.
    rewrite forallb_forall in Hall. rewrite (Hall x Hx). apply orb_true_r.
  - destruct Hasked as [?|Hf]; [done|]. assert (Hrt : tk_realtime_ended s = false).
    { destruct (tk_realtime_ended s); [|done]. by destruct (O7 eq_refl). }
    unfold failing in Hf. destruct (raised_by s) as [|e l] eqn:Hrb; [done|].
    assert (He : e ∈ raised_by s) by (rewrite Hrb; left). apply raised_by_in in He as [[t Ht]|Hre];
      [|destruct (O10 e Hre); congruence]. specialize (O6 t e Ht).
    destruct (asked_or_over inner s) as [H|Hover]; [|done|by eexists; apply asked_realtime].
    intros u c Hu Hin. assert (c = true) as ->; [|rewrite Hstop; by eexists].
    destruct (inner t); [by eapply O8|by eapply O9].
Qed.

(** ** How the run ends *)

Definition fatal_text (e : exn) : string := class_name (exn_cls e) +:+ ": " +:+ exn_str e.

Lemma finished_result s status :
  tasks_ok s → finished s = true →
  let r := end_run (tasks_result s) status in
  re_stop_set r = true ∧ re_server_closed r = true ∧
  (raised_by s = [] → re_raised r = None ∧ re_status r = status) ∧
  (failing s → ∃ e, e ∈ raised_by s ∧ re_raised r = Some (Single e) ∧ re_status r = mark_fatal (fatal_text e) status).
Proof.
  intros [O1 O2 O3 O4 O5 O6 O7 O10 O8 O9] Hfin. cbv zeta. apply andb_true_iff in Hfin as [_ Hrt].
  destruct (O7 Hrt) as (_ & _ & Hgroup). unfold tasks_result.
  split; [by destruct (tk_outer_errors s)|]. split; [by destruct (tk_outer_errors s)|]. split.
  - intros Hnone. destruct (tk_outer_errors s) as [|x l]; [done|]. destruct (O5 x ltac:(left)) as (e & _ & He).
    rewrite Hnone in He. by apply not_elem_of_nil in He.
  - unfold failing. intros Hf. destruct (raised_by s) as [|e l] eqn:Hrb; [done|].
    assert (He : e ∈ raised_by s) by (rewrite Hrb; left). apply raised_by_in in He.
    assert (Hout : tk_outer_errors s ≠ []).
    { destruct He as [[t Ht]|Hre]; [specialize (O6 t e Ht); destruct (inner t); auto|by destruct (O10 e Hre)]. }
    destruct (tk_outer_errors s) as [|x errors]; [done|]. destruct (O5 x ltac:(left)) as (e' & Hroot & He').
    exists e'. split; [done|]. cbn [end_run re_raised re_status]. unfold mark_fatal_exn.
    change (root_exception (Group (group_exn (length (x :: errors))) (x :: errors))) with (root_exception x).
    by rewrite Hroot.
Qed.

(** C16. The process ends as a whole.  Over every order in which signals arrive and tasks end: once a task has
    ended, the stop event is set or a task has raised, so none ends unnoticed while the others go on; from
    then on, until all have ended, there is always a task that was asked to end, by the stop event or by a
    cancellation, or the coordinator whose tasks have ended; and apart from signals every step leaves
    fewer to end, so that tasks which do as they are asked bring the run to its end.  The run then leaves
    the stop event set and the server closed; it raises exactly when a task or the
    last refresh of the status raised, an exception of one of them, which the status names. *)
Theorem process_ends_whole (notifier prefetch diagnostics : bool) (s : Tasks) :
  rtc task_step (service_tasks notifier prefetch diagnostics) s →
  ((∃ t r, (t, TaskEnded r) ∈ tk_leaves s) → tk_stop s = true ∨ failing s) ∧
  (tk_stop s = true ∨ failing s → finished s = false →
   ∃ s', asked_step s s' ∧ task_step s s' ∧ (remaining s' < remaining s)%nat) ∧
  (∀ s', task_step s s' → s' = set_stop s ∨ (remaining s' < remaining s)%nat) ∧
  (finished s = true → ∀ status,
    let r := end_run (tasks_result s) status in
    re_stop_set r = true ∧ re_server_closed r = true ∧
    (raised_by s = [] → re_raised r = None ∧ re_status r = status) ∧
    (failing s → ∃ e, e ∈ raised_by s ∧ re_raised r = Some (Single e) ∧ re_status r = mark_fatal (fatal_text e) status)).
Proof.
  intros Hreach. pose proof (tasks_reachable_ok _ _ _ _ Hreach) as Hok. split_and!.
  - intros (t & [|e|] & Ht); [left; by eapply tok_returned|right|right; eapply tok_cancelled; eauto].
    unfold failing. intros H. assert (He : e ∈ raised_by s) by (apply raised_by_in; left; eauto).
    rewrite H in He. by apply not_elem_of_nil in He.
  - intros Hasked Hfin. destruct (asked_progress s Hok Hasked Hfin) as [s' Hs]. exists s'. split_and!;
      [done|by apply asked_is_step|by apply remaining_asked].
  - apply remaining_step.
  - intros Hfin status. by apply finished_result.
Qed.

Lemma process_ends_whole_witness :
  ∃ s, task_run two_failures (service_tasks false false false) = Some s ∧
  ((∃ t r, (t, TaskEnded r) ∈ tk_leaves s) → tk_stop s = true ∨ failing s) ∧
  (tk_stop s = true ∨ failing s → finished s = false →
   ∃ s', asked_step s s' ∧ task_step s s' ∧ (remaining s' < remaining s)%nat) ∧
  (∀ s', task_step s s' → s' = set_stop s ∨ (remaining s' < remaining s)%nat) ∧
  (finished s = true → ∀ status,
    let r := end_run (tasks_result s) status in
    re_stop_set r = true ∧ re_server_closed r = true ∧
    (raised_by s = [] → re_raised r = None ∧ re_status r = status) ∧
    (failing s → ∃ e, e ∈ raised_by s ∧ re_raised r = Some (Single e) ∧ re_status r = mark_fatal (fatal_text e) status)).
Proof.
  destruct (task_run two_failures (service_tasks false false false)) as [s|] eqn:Hs; [|by vm_compute in Hs].
  exists s. split; [done|]. exact (process_ends_whole false false false s (task_run_reachable _ _ _ Hs)).
Defined.
