(* ===== verification/Wiring.v ===== *)
(** * The wiring of the runtime

    What runtime/wiring.py and the composition in entrypoints/serve.py make of the parts: the REST
    source of a configuration, the live fetch of open interest, the recovery of the realtime side,
    the reader of stream states and the HTTP service.  The other compositions are where they are used (RealtimeRecovery.v,
    Service.v). *)

From S2P Require Import Prefetch Schema Http BybitWebSocket.
From S2P Require Import Prelude PyStr DecimalValues Timeframes Identity Gaps Candles StreamState.
From S2P Require Import Instruments OpenInterest Storage AbsStore Ingest ImportWindow UseCase Repair OpenInterestTrack.
From S2P Require Import RealtimeFacts RealtimeRecovery RuntimeStatus PyFloat BybitRest Json OpenApi HttpConformance JsonText HttpServer.

(** [SystemClock.now_ms] over [time.time()] *)
Definition system_now_ms (time : float) : res Z := int_of_float (fmul time (float_of_Z 1000)).

(** [RuntimeWiring.build]: the REST source. *)
Definition wired_rest (config : ValidatedMarketConfig) (rest_base_url : string) : RestConfig :=
  let d := default_rest (exchange_symbols config) in
  mkRestConfig (rs_exchange_symbols d) rest_base_url (ms_category (mc_source config)) (rs_timeout_seconds d)
    (rs_retry_attempts d) (rs_retry_base_delay_seconds d) (rs_retry_rate_limit_delay_seconds d)
    (rs_retry_max_delay_seconds d) (rs_retry_jitter_ratio d).

(** [replace(self.rest_source, retry_attempts=1, timeout_seconds=timeout_seconds)] *)
Definition live_rest (timeout_seconds : float) (cfg : RestConfig) : RestConfig :=
  mkRestConfig (rs_exchange_symbols cfg) (rs_base_url cfg) (rs_category cfg) timeout_seconds 1
    (rs_retry_base_delay_seconds cfg) (rs_retry_rate_limit_delay_seconds cfg) (rs_retry_max_delay_seconds cfg)
    (rs_retry_jitter_ratio cfg).

Section live.
Context (cfg : RestConfig) (clock : nat → Z) (transport : nat → Transport) (random : nat → nat → float).
Context (cache : nat → Cache) (timeout_seconds : float) (include_current : bool).

(** The environment of the live importer. *)
Definition live_env : Env :=
  bybit_env (live_rest timeout_seconds cfg) clock transport random cache include_current.

(** [RuntimeWiring.open_interest_live(...).execute] *)
Definition open_interest_live (k : StreamKey) (open_time_ms : Z) (w : World AbsStore) : res bool * World AbsStore :=
  run (H:=live_env) (append_live_open_interest import_open_interest k open_time_ms) w.
End live.

(** [RuntimeWiring.recovery]: the candle repair, and the track of the flagged streams. *)
Definition wired_recovery (config : ValidatedMarketConfig) (request : RealtimeRecoveryRequest) : M RealtimeRecoveryResult :=
  let open_interest :=
    if bool_decide (open_interest_streams config = []) then None
    else Some (mkRecoveryTrack (open_interest_streams config) (wired_oi_repair MAX_POINTS_PER_WINDOW)) in
  recover (wired_repair 1000) open_interest request.

(** [SqliteStreamStateReader.get_stream_state]: the committed row, on a connection of its own. *)
Definition read_stream_state (k : StreamKey) : M StreamStateSnapshot := read_op (GetStreamState k).

(** The HTTP service: the handlers of [_run] over [consumer_read], [historical_read], [stream_bounds]
    and [continuity_audit_read]. *)
Definition http_service (lines : ServerLines) (sha256_hex : string → string) (config : ValidatedMarketConfig)
    (order : list string) (json_loads : string → json + string) (status : RuntimeStatus) (q : WireRequest) : M string :=
  serve_request lines sha256_hex config (open_interest_streams config) order json_loads status q.

(** ** The live fetch makes one request *)

Lemma one_attempt cfg transport random url ps :
  rs_retry_attempts cfg = 1 →
  get_json_with_retry cfg transport random url ps =
    (answer_result (transport 1%nat url ps (rs_timeout_seconds cfg)), []).
Proof.
  intros H. unfold get_json_with_retry. rewrite H. pose proof (retry_loop_exact cfg transport random 1 url ps 1 1) as Hr.
  specialize (Hr ltac:(unfold emax; lia) ltac:(lia) ltac:(lia) ltac:(lia)). cbv zeta in Hr.
  change (Z.max 1 1) with 1. change (Z.to_nat 1) with 1%nat in *.
  destruct (retry_loop _ _ _ _ _ _ _ _) as [r slept]. destruct Hr as (Hlen & -> & _).
  destruct slept as [|x l]; [done|]. cbn [length] in Hlen. lia.
Qed.

(** Whatever the exchange answers, the live fetch asks it once and does not sleep. *)
Lemma live_never_sleeps timeout_seconds cfg transport random include_current k w t :
  (fetch_open_interest (live_rest timeout_seconds cfg) transport random include_current k w t).2 = [].
Proof.
  unfold fetch_open_interest, with_symbol. destruct (negb _); [done|]. cbv zeta. destruct (_ <? _); [done|].
  destruct (exchange_symbol_for_instrument _ _) as [symbol|e]; [|done].
  unfold get_market_rows. rewrite one_attempt by done. done.
Qed.

(** ** The wired recovery repairs both tracks *)

Lemma wired_recovery_track config request :
  open_interest_streams config ≠ [] →
  wired_recovery config request =
    recover (wired_repair 1000) (Some (mkRecoveryTrack (open_interest_streams config) (wired_oi_repair 200))) request.
Proof. intros H. unfold wired_recovery. by rewrite bool_decide_false. Qed.

(** ** The reader of stream states does not wait for a transaction *)

(** What a transaction has not committed is not read, and the transaction is left as it is. *)
Lemma read_stream_state_committed `{E : Env} k (w : World AbsStore) :
  run (read_stream_state k) w = ((store_step (GetStreamState k) (w_db w)).1, w).
Proof. apply run_read. Qed.
