(* ===== verification/Commands.v ===== *)
(** * The administrative commands

    entrypoints/backfill.py, backfill_output.py, audit_continuity.py and market_config.py, after
    argparse.  A command runs over a [Shell]: the world of the stores, and the texts it printed.
    The schema of the database is that of Schema.v, a path is its text. *)

From S2P Require Import Prefetch.
From S2P Require Import Prelude PyStr DecimalValues Timeframes Identity Gaps Candles StreamState.
From S2P Require Import Instruments OpenInterest Storage AbsStore Ingest ImportWindow UseCase.
From S2P Require Import Backfill LowerBound FullBootstrap Repair Sqlite SqliteRefinement RealtimeRecovery Service.

Record Shell := mkShell { sh_world : World AbsStore; sh_out : list string }.

Notation ShM := (StRes Shell).

(** ** market_config.py *)

Definition entry_for_ticker (entries : list InstrumentCoverage) (tk : string) : res InstrumentCoverage :=
  normalized ← InstrumentKey_new tk;
  match List.find (λ entry, bool_decide (ic_instrument entry = normalized)) entries with
  | Some entry => mret entry
  | None => raise ExcValueError ("ticker is not enabled in market config: " +:+ ticker normalized)
  end.

(** ** backfill_output.py *)

Definition text_of_bool (b : bool) : string := if b then "true" else "false".
Definition text_of_opt {A} (f : A → string) (x : option A) : string := match x with Some a => f a | None => "None" end.
Definition opt_text : option string → string := text_of_opt id.
Definition opt_int : option Z → string := text_of_opt str_of_Z.

Definition disposition_value (d : SourceFailureDisposition) : string :=
  match d with RECOVERABLE => "recoverable" | FATAL => "fatal" end.
Definition full_status_value (s : FullBootstrapStatus) : string :=
  match s with
  | BACKFILLED => "backfilled"
  | BOOTSTRAP_INCOMPLETE => "incomplete"
  | LOWER_BOUND_UNRESOLVED => "lower_bound_unresolved"
  end.
Definition multi_status_value (s : MultiStatus) : string :=
  match s with MULTI_COMPLETE => "complete" | MULTI_INCOMPLETE => "incomplete" | MULTI_FAILED => "failed" end.

Definition range_text (s e : Z) : string := "[" +:+ str_of_Z s +:+ ", " +:+ str_of_Z e +:+ ")".

Definition window_line (index : nat) (r : BackfillWindowResult) : string :=
  "window[" +:+ pretty index +:+ "]=" +:+ range_text (start_ms (bw_window r)) (end_ms (bw_window r)) +:+
  " observed=" +:+ str_of_Z (bw_observed r) +:+ " committed=" +:+ str_of_Z (bw_committed r) +:+
  " duplicate=" +:+ str_of_Z (bw_duplicates r) +:+ " corrected=" +:+ str_of_Z (bw_corrected r) +:+
  " rejected=" +:+ str_of_Z (bw_rejected r) +:+ " unexpected=" +:+ str_of_Z (bw_unexpected r).

(** [for index, x in enumerate(xs, start=1)] *)
Definition numbered {A} (f : nat → A → string) (l : list A) : list string := imap (λ i, f (S i)) l.

(** [print_range_result] *)
Definition range_lines (database symbol : string) (r : BackfillStreamResult) (start end_ max_windows : Z) : list string :=
  ["database=" +:+ database;
   "stream=" +:+ stream_canonical_id (bf_stream r) +:+ " bybit_symbol=" +:+ symbol;
   "requested_window=" +:+ range_text start end_ +:+ " max_windows=" +:+ str_of_Z max_windows] ++
  numbered window_line (bf_window_results r) ++
  ["backfill_result completed_windows=" +:+ str_of_Z (bf_completed_windows r) +:+
   " attempted_windows=" +:+ str_of_Z (bf_attempted_windows r) +:+
   " reached_end=" +:+ text_of_bool (bf_reached_end r) +:+
   " next_start_time_ms=" +:+ str_of_Z (bf_next_start_time_ms r)] ++
  match bf_error_code r with
  | Some code => ["backfill_error code=" +:+ code +:+ " detail=" +:+ opt_text (bf_error_detail r)]
  | None => []
  end.

Definition outcome_line (index : nat) (o : MultiStreamBackfillOutcome) : string :=
  match mo_result o with
  | None =>
      "stream[" +:+ pretty index +:+ "]=" +:+ stream_canonical_id (mo_stream o) +:+
      " status=metadata_failed discovery_windows=0 backfill_windows=0 total_windows=0 target_reached=false" +:+
      " failure_disposition=" +:+ text_of_opt disposition_value (mo_failure_disposition o) +:+
      " error_code=" +:+ opt_text (mo_error_code o)
  | Some item =>
      "stream[" +:+ pretty index +:+ "]=" +:+ stream_canonical_id (fr_stream item) +:+
      " status=" +:+ full_status_value (fr_status item) +:+
      " discovery_windows=" +:+ str_of_Z (discovery_windows_used item) +:+
      " backfill_windows=" +:+ str_of_Z (backfill_windows_attempted item) +:+
      " total_windows=" +:+ str_of_Z (total_windows_used item) +:+
      " target_reached=" +:+ text_of_bool (reached_target item) +:+
      " failure_disposition=" +:+ text_of_opt disposition_value (fr_failure_disposition item) +:+
      " error_code=" +:+ opt_text (fr_error_code item)
  end.

(** [print_all_result] *)
Definition all_lines (database : string) (r : MultiStreamBackfillResult) (max_windows : Z) : list string :=
  ["database=" +:+ database; "all_streams=true max_windows_per_stream=" +:+ str_of_Z max_windows] ++
  numbered outcome_line (mr_outcomes r) ++ ["all_streams_result=" +:+ multi_status_value (mr_status r)].

Definition lower_bound_line (l : HistoricalLowerBoundResult) : string :=
  "lower_bound launch_time_ms=" +:+ str_of_Z (lb_launch_time_ms l) +:+
  " search_start_time_ms=" +:+ str_of_Z (lb_search_start_time_ms l) +:+
  " observed_earliest_open_time_ms=" +:+ opt_int (lb_earliest_available_open_time_ms l) +:+
  " metadata_cached=" +:+ text_of_bool (lb_metadata_cached l) +:+
  " lower_bound_cached=" +:+ text_of_bool (lb_lower_bound_cached l) +:+
  " unresolved_reason=" +:+ opt_text (lb_unresolved_reason l).

Definition budget_line (r : FullHistoryBootstrapResult) : string :=
  "budget max_windows=" +:+ str_of_Z (fr_max_windows r) +:+
  " discovery_windows=" +:+ str_of_Z (discovery_windows_used r) +:+
  " backfill_windows=" +:+ str_of_Z (backfill_windows_attempted r) +:+
  " total_windows=" +:+ str_of_Z (total_windows_used r) +:+
  " lower_bound_resolved=" +:+ text_of_bool (lower_bound_resolved r) +:+
  " target_reached=" +:+ text_of_bool (reached_target r).

(** [print_full_result] *)
Definition full_lines (database symbol : string) (r : FullHistoryBootstrapResult) (max_windows : Z) : list string :=
  ["database=" +:+ database;
   "stream=" +:+ stream_canonical_id (fr_stream r) +:+ " bybit_symbol=" +:+ symbol;
   "full_history=true max_windows=" +:+ str_of_Z max_windows;
   budget_line r] ++
  match fr_lower_bound r with Some l => [lower_bound_line l] | None => [] end ++
  ["target_open_time_ms=" +:+ opt_int (fr_target_open_time_ms r)] ++
  match fr_backfill r with
  | Some b =>
      numbered window_line (bf_window_results b) ++
      ["backfill_result completed_windows=" +:+ str_of_Z (bf_completed_windows b) +:+
       " attempted_windows=" +:+ str_of_Z (bf_attempted_windows b) +:+
       " reached_target=" +:+ text_of_bool (reached_target r) +:+
       " next_start_time_ms=" +:+ str_of_Z (bf_next_start_time_ms b)]
  | None => []
  end ++
  ["full_bootstrap_status=" +:+ full_status_value (fr_status r)] ++
  match fr_error_code r with
  | Some code =>
      ["full_bootstrap_error code=" +:+ code +:+ " detail=" +:+ opt_text (fr_error_detail r) +:+
       " disposition=" +:+ text_of_opt disposition_value (fr_failure_disposition r)]
  | None => []
  end.

(** ** backfill.py *)

(** The parsed arguments. *)
Record BackfillArgs := mkBackfillArgs {
  ba_database : string;
  ba_ticker : option string;
  ba_all : bool;
  ba_timeframe : string;
  ba_start : option Z;
  ba_end : option Z;
  ba_minutes : option Z;
  ba_max_windows : Z;
  ba_full : bool
}.

(** [_resolve_range] *)
Definition resolve_range (args : BackfillArgs) (k : StreamKey) : M (Z * Z) :=
  let step_ms := stream_step k in
  match ba_minutes args with
  | Some minutes =>
      _ ← lift (raise_if (bool_decide (is_Some (ba_start args)) || bool_decide (is_Some (ba_end args))) ExcValueError
                  "--minutes cannot be combined with --start/--end");
      _ ← lift (raise_if (minutes <=? 0) ExcValueError "--minutes must be positive");
      now ← now_ms;
      let end_ := now - now mod step_ms in
      mret (end_ - minutes * step_ms, end_)
  | None =>
      match ba_start args, ba_end args with
      | Some start, Some end_ => mret (start, end_)
      | _, _ => lift (raise ExcValueError "provide either --minutes or both --start and --end")
      end
  end.

Definition range_given (args : BackfillArgs) : bool :=
  bool_decide (is_Some (ba_start args)) || bool_decide (is_Some (ba_end args)) || bool_decide (is_Some (ba_minutes args)).

(** [next(candidate for candidate in entry.stream_keys if ...)] *)
Definition stream_for (entry : InstrumentCoverage) (tf : string) : res StreamKey :=
  match List.find (λ k, bool_decide (tf_id (timeframe k) = tf)) (stream_keys entry) with
  | Some k => mret k
  | None => raise (ExcForeign "StopIteration" false) EmptyString
  end.

Section commands.
Context `{E : Env}.

Definition sh_w {A} (m : StRes (World AbsStore) A) : ShM A := λ s,
  let r := m (sh_world s) in (r.1, mkShell r.2 (sh_out s)).
Definition sh_m {A} (m : M A) : ShM A := sh_w (run m).
Definition sh_print (lines : list string) : ShM () := λ s, (Ok (), mkShell (sh_world s) (sh_out s ++ lines)).

(** [_prepare_stream]; the directory and the schema are there. *)
Definition prepare_stream (k : StreamKey) (c : InstrumentCoverage) : ShM () :=
  now ← sh_m now_ms;
  sh_w (register_stream k (ic_exchange_symbol c) now).

(** [_build_backfill] and [_build_full_bootstrap] *)
Definition wired_backfill (request : BackfillStreamRequest) : M BackfillStreamResult := backfill_execute 1000 request.
Definition wired_bootstrap (request : FullHistoryBootstrapRequest) : M FullHistoryBootstrapResult :=
  bootstrap_execute candle_progress (candle_probe 1000) 1000 request.

Definition exit_code (failed : bool) : Z := if failed then 1 else 0.

Definition run_one (args : BackfillArgs) (tk : string) (config : ValidatedMarketConfig) : ShM Z :=
  entry ← sr_lift (entry_for_ticker (enabled_instruments config) tk);
  k ← sr_lift (stream_for entry (ba_timeframe args));
  _ ← sh_m (verify_metadata (ms_category (mc_source config)) entry);
  _ ← prepare_stream k entry;
  if ba_full args then
    _ ← sr_lift (raise_if (range_given args) ExcValueError "--full cannot be combined with --start/--end/--minutes");
    request ← sr_lift (FullHistoryBootstrapRequest_new k (ba_max_windows args));
    result ← sh_m (wired_bootstrap request);
    _ ← sh_print (full_lines (ba_database args) (ic_exchange_symbol entry) result (ba_max_windows args));
    mret (exit_code (bool_decide (is_Some (fr_error_code result))))
  else
    range ← sh_m (resolve_range args k);
    request ← sr_lift (BackfillStreamRequest_new k range.1 range.2 (ba_max_windows args) true);
    result ← sh_m (wired_backfill request);
    _ ← sh_print (range_lines (ba_database args) (ic_exchange_symbol entry) result range.1 range.2 (ba_max_windows args));
    mret (exit_code (bool_decide (is_Some (bf_error_code result)))).

(** The bootstrap of [bootstrap_factory(coverage, stream)], which prepares the stream. *)
Definition prepared_bootstrap (c : InstrumentCoverage) (k : StreamKey) (request : FullHistoryBootstrapRequest) :
    ShM FullHistoryBootstrapResult :=
  _ ← prepare_stream k c;
  sh_m (wired_bootstrap request).

Definition run_all (args : BackfillArgs) (config : ValidatedMarketConfig) : ShM Z :=
  _ ← sr_lift (raise_if (negb (ba_full args)) ExcValueError "--all requires --full");
  _ ← sr_lift (raise_if (range_given args) ExcValueError "--all --full cannot be combined with --start/--end/--minutes");
  request ← sr_lift (MultiStreamBackfillRequest_new (ba_max_windows args));
  result ← backfill_all (λ c, sh_m (verify_metadata (ms_category (mc_source config)) c)) prepared_bootstrap
             (enabled_instruments config) request;
  _ ← sh_print (all_lines (ba_database args) result (ba_max_windows args));
  mret (exit_code (has_errors result)).

(** [main] of backfill.py, after the arguments and the configuration. *)
Definition backfill_main (args : BackfillArgs) (config : ValidatedMarketConfig) : ShM Z :=
  if ba_all args then run_all args config
  else match ba_ticker args with
       | None => sr_lift (raise ExcValueError "provide --ticker or --all")
       | Some tk => run_one args tk config
       end.

(** ** audit_continuity.py *)

Definition gap_line (index : nat) (g : Gap) : string :=
  "gap[" +:+ pretty index +:+ "]=" +:+ range_text (gap_start g) (gap_end g).

(** [_print_report] *)
Definition report_lines (database : string) (r : ContinuityReport) : list string :=
  ["database=" +:+ database;
   "stream=" +:+ stream_canonical_id (report_stream r);
   "checked_window=" +:+ range_text (checked_start_ms r) (checked_end_ms r);
   "continuity_result is_continuous=" +:+ text_of_bool (is_continuous r) +:+
   " candle_count=" +:+ str_of_Z (candle_count r) +:+
   " gap_count=" +:+ pretty (length (report_gaps r))] ++
  numbered gap_line (report_gaps r).

(** [main] of audit_continuity.py, after the arguments and the configuration. *)
Definition audit_main (database tk tf : string) (start end_ : Z) (config : ValidatedMarketConfig) : ShM Z :=
  entry ← sr_lift (entry_for_ticker (enabled_instruments config) tk);
  k ← sr_lift (StreamKey_new (ic_instrument entry) tf);
  request ← sr_lift (AuditStreamContinuityRequest_new k start end_);
  report ← sh_m (audit_continuity candle_open_times request);
  _ ← sh_print (report_lines database report);
  mret (exit_code (negb (is_continuous report))).
End commands.

(** ** What a command may touch *)

(** From [a] to [a'] only the streams of [T] change, and no row is lost. *)
Record admin_frame (T : StreamKey → Prop) (a a' : AbsStore) : Prop := {
  af_others : ∀ k, ¬ T k → ab_streams a' !! k = ab_streams a !! k;
  af_kept : ∀ k r, ab_streams a !! k = Some r → ∃ r', ab_streams a' !! k = Some r' ∧
    ∀ t, (is_Some (sr_candles r !! t) → is_Some (sr_candles r' !! t)) ∧
         (is_Some (sr_oi r !! t) → is_Some (sr_oi r' !! t))
}.

#[export] Instance admin_frame_preorder T : PreOrder (admin_frame T).
Proof.
  split.
  - intros a. split; [done|]. intros k r Hr. by exists r.
  - intros a b c [H1 H2] [H1' H2']. split.
    + intros k Hk. by rewrite H1', H1.
    + intros k r (r' & Hr' & Hrows)%H2. destruct (H2' k r' Hr') as (r'' & Hr'' & Hrows').
      exists r''. split; [done|]. intros t. destruct (Hrows t), (Hrows' t). auto.
Qed.

Lemma stream_frame_admin (T : StreamKey → Prop) k a a' : T k → stream_frame k a a' → admin_frame T a a'.
Proof.
  intros Hk [H1 H2 H3]. split.
  - intros k' Hk'. apply H1. by intros ->.
  - intros k' r Hr. destruct (decide (k' = k)) as [->|Hne].
    + destruct (proj1 H2 (ex_intro _ r Hr)) as [r' Hr']. exists r'. split; [done|]. by apply H3.
    + exists r. by rewrite H1.
Qed.

Lemma register_admin (T : StreamKey → Prop) k symbol now a a' :
  T k → abs_register k symbol now a = Ok a' → admin_frame T a a'.
Proof.
  intros Hk. unfold abs_register. cbv zeta. destruct (_ || _); [done|]. destruct (symbol_taken _ _ _); [done|].
  intros [= <-]. split; cbn [ab_streams]; destruct (ab_streams a !! k) as [r|] eqn:Hr; try done.
  - intros k' Hk'. apply lookup_insert_ne. by intros ->.
  - intros k' r' Hr'. by exists r'.
  - intros k' r' Hr'. exists r'. split; [|by auto]. rewrite lookup_insert_ne; congruence.
Qed.

Section safety.
Context `{E : Env} (T : StreamKey → Prop) (a0 : AbsStore).
Hypothesis Hclock : ∀ n, 0 ≤ env_clock n.

(** Until a command prints: its store is sound, and nothing was printed. *)
Record shell_safe (s : Shell) : Prop := {
  shs_tx : w_tx (sh_world s) = None;
  shs_inv : store_inv (w_db (sh_world s));
  shs_frame : admin_frame T a0 (w_db (sh_world s));
  shs_out : sh_out s = []
}.

Lemma safe_use_case {A} (m : M A) k : T k → (∀ a, keeps (good k a) m) → sr_keeps shell_safe (sh_m m).
Proof.
  intros Hk Hm s [H1 H2 H3 H4].
  destruct (Hm (w_db (sh_world s)) (sh_world s)) as [[[Hi Hf] _] Htx]; [split; [by apply good_refl|congruence]|].
  split; cbn; [by apply Htx|done| |done]. etrans; [exact H3|]. by apply stream_frame_admin with k.
Qed.

Lemma safe_verify category c : sr_keeps shell_safe (sh_m (verify_metadata category c)).
Proof.
  intros s [H1 H2 H3 H4]. destruct (run_verify_metadata category c (sh_world s)) as [H5 H6].
  by split; cbn [sh_m sh_w sh_world sh_out snd]; rewrite ?H5, ?H6.
Qed.

Lemma safe_now : sr_keeps shell_safe (sh_m now_ms).
Proof. intros s [H1 H2 H3 H4]. by split. Qed.

Lemma safe_prepare k c : T k → sr_keeps shell_safe (prepare_stream k c).
Proof using Hclock.
  intros Hk s [H1 H2 H3 H4]. unfold prepare_stream, mbind, StRes_bind, sh_m, sh_w. cbv zeta. rewrite run_now.
  unfold register_stream. cbn [fst snd sh_world sh_out tick w_db w_tx w_ticks w_calls].
  destruct (abs_register _ _ _ _) as [a'|e] eqn:Ha; [|by split].
  destruct (abs_register_prepared _ _ _ _ _ (Hclock _) Ha H2) as [Hi _].
  split; cbn; [done|done| |done]. etrans; [exact H3|]. by eapply register_admin.
Qed.

Lemma safe_resolve args k : sr_keeps shell_safe (sh_m (resolve_range args k)).
Proof.
  intros s [H1 H2 H3 H4]. unfold resolve_range. cbv zeta. unfold sh_m, sh_w. cbv zeta.
  destruct (ba_minutes args) as [m|]; [|by destruct (ba_start args), (ba_end args)].
  rewrite run_bind, run_lift. destruct (raise_if _ _ _); [|by split].
  rewrite run_bind, run_lift. destruct (raise_if _ _ _); [|by split]. by rewrite run_bind, run_now.
Qed.

(** [m] ends with a report of [R], printed whole, and its exit code, or raises and prints nothing. *)
Definition reports {X} (lines : X → list string) (failed : X → bool) (R : X → Prop) (m : ShM Z) : Prop :=
  ∀ s, shell_safe s → match m s with
    | (Raise _, s') => shell_safe s'
    | (Ok code, s') => ∃ x s1, R x ∧ shell_safe s1 ∧ s' = mkShell (sh_world s1) (lines x) ∧ code = exit_code (failed x)
    end.

Context {X : Type} (lines : X → list string) (failed : X → bool) (R : X → Prop).

Lemma reports_bind {A} (m : ShM A) (f : A → ShM Z) :
  sr_keeps shell_safe m → (∀ a s s', m s = (Ok a, s') → reports lines failed R (f a)) →
  reports lines failed R (a ← m; f a).
Proof.
  intros Hm Hf s Hs. unfold mbind, StRes_bind. specialize (Hm s Hs). destruct (m s) as [[a|e] s'] eqn:E1; [|done].
  by apply (Hf a s s').
Qed.

Lemma reports_lift {A} (r : res A) (f : A → ShM Z) :
  (∀ a, r = Ok a → reports lines failed R (f a)) → reports lines failed R (a ← sr_lift r; f a).
Proof.
  intros Hf. apply reports_bind; [apply sr_keeps_lift|]. intros a s s' [= -> _]. by apply Hf.
Qed.

Lemma reports_end x text code :
  R x → text = lines x → code = exit_code (failed x) → reports lines failed R (_ ← sh_print text; mret code).
Proof.
  intros HR -> -> s Hs. cbn. exists x, s. pose proof Hs as [_ _ _ Ho]. by rewrite Ho.
Qed.
End safety.

(** ** What a backfill command reports *)

Inductive CommandReport :=
| RangeReport (entry : InstrumentCoverage) (start end_ : Z) (r : BackfillStreamResult)
| FullReport (entry : InstrumentCoverage) (r : FullHistoryBootstrapResult)
| AllReport (r : MultiStreamBackfillResult).

Definition report_text (args : BackfillArgs) (rep : CommandReport) : list string :=
  match rep with
  | RangeReport entry start end_ r => range_lines (ba_database args) (ic_exchange_symbol entry) r start end_ (ba_max_windows args)
  | FullReport entry r => full_lines (ba_database args) (ic_exchange_symbol entry) r (ba_max_windows args)
  | AllReport r => all_lines (ba_database args) r (ba_max_windows args)
  end.

Definition report_failed (rep : CommandReport) : bool :=
  match rep with
  | RangeReport _ _ _ r => bool_decide (is_Some (bf_error_code r))
  | FullReport _ r => bool_decide (is_Some (fr_error_code r))
  | AllReport r => has_errors r
  end.

Section backfill_reports.
Context (config : ValidatedMarketConfig) (args : BackfillArgs).

(** The instrument and the stream that --ticker and --timeframe name. *)
Definition selected (c : InstrumentCoverage) (k : StreamKey) : Prop :=
  ba_all args = false ∧ c ∈ enabled_instruments config ∧ k ∈ stream_keys c ∧
  (InstrumentKey_new <$> ba_ticker args) = Some (Ok (ic_instrument c)) ∧ tf_id (timeframe k) = ba_timeframe args.

(** The streams the command may touch. *)
Definition target (k : StreamKey) : Prop :=
  (ba_all args = true ∧ k ∈ enabled_streams config) ∨ ∃ c, selected c k.

(** The range of the arguments. *)
Definition range_of (k : StreamKey) (start end_ : Z) : Prop :=
  match ba_minutes args with
  | Some minutes => 0 < minutes ∧ on_grid (stream_step k) end_ ∧ start = end_ - minutes * stream_step k ∧
                    ba_start args = None ∧ ba_end args = None
  | None => ba_start args = Some start ∧ ba_end args = Some end_
  end.

Definition full_report (k : StreamKey) : FullHistoryBootstrapResult → Prop :=
  bootstrap_report (mkBootstrapRequest k (ba_max_windows args)).

Definition report_ok (rep : CommandReport) : Prop :=
  match rep with
  | RangeReport entry start end_ r =>
      ba_full args = false ∧ ∃ k, selected entry k ∧ range_of k start end_ ∧
        backfill_report (mkBackfillStream k start end_ (ba_max_windows args) true) r
  | FullReport entry r => ba_full args = true ∧ range_given args = false ∧ ∃ k, selected entry k ∧ full_report k r
  | AllReport r =>
      ba_all args = true ∧ ba_full args = true ∧ range_given args = false ∧
      outcome_streams (mr_outcomes r) `prefix_of` enabled_streams config ∧
      (mr_status r ≠ MULTI_FAILED → outcome_streams (mr_outcomes r) = enabled_streams config) ∧
      multi_ok (mr_outcomes r) (mr_status r) ∧ Forall (outcome_of full_report) (mr_outcomes r)
  end.

Lemma entry_for_ticker_ok entries tk c :
  entry_for_ticker entries tk = Ok c → c ∈ entries ∧ InstrumentKey_new tk = Ok (ic_instrument c).
Proof.
  unfold entry_for_ticker. intros (i & Hi & H)%res_bind_ok.
  destruct (List.find _ _) as [c'|] eqn:Hf; [|done]. injection H as ->.
  apply List.find_some in Hf as [Hin He%bool_decide_eq_true]. subst i. split; [by apply list_elem_of_In|done].
Qed.

Lemma entry_for_ticker_raises entries tk : raises_only ExcValueError (entry_for_ticker entries tk).
Proof. unfold entry_for_ticker, InstrumentKey_new. cbv zeta. raises_only_tac. Qed.

Lemma run_audit_unregistered `{E : Env} a n c k from to :
  ab_streams a !! k = None →
  run (audit_continuity candle_open_times (mkAuditRequest k from to)) (mkWorld a None n c) =
    (raise ExcUnknownStreamError ("stream is not registered: " ++ stream_canonical_id k), mkWorld a None n c).
Proof.
  intros Hr. unfold audit_continuity. cbv zeta. cbn [au_stream au_start_time_ms au_end_time_ms].
  rewrite run_bind, run_with_uow, run_bind, run_stream_exists, run_bind, run_lift, Hr.
  by rewrite bool_decide_eq_false_2 by (by intros [? ?]).
Qed.

Lemma stream_for_ok c tf k : stream_for c tf = Ok k → k ∈ stream_keys c ∧ tf_id (timeframe k) = tf.
Proof.
  unfold stream_for. destruct (List.find _ _) as [k'|] eqn:Hf; [|done]. intros [= ->].
  apply List.find_some in Hf as [Hin He%bool_decide_eq_true]. split; [by apply list_elem_of_In|done].
Qed.

Lemma range_resolved `{E : Env} k (w : World AbsStore) s e w' : run (resolve_range args k) w = (Ok (s, e), w') → range_of k s e.
Proof.
  unfold resolve_range, range_of. cbv zeta. destruct (ba_minutes args) as [m|].
  - intros (u & w1 & Hu & (v & w2 & Hv & (now & w3 & _ & H)%run_bind_ok)%run_bind_ok)%run_bind_ok.
    injection H as <- <- _. injection Hu as Hu _. injection Hv as Hv _. apply raise_if_ok in Hu, Hv. bool_hyps.
    apply eq_None_not_Some in H, H0. split; [done|]. split; [|done]. unfold on_grid. apply Z_mod_sub_mod, stream_step_pos.
  - destruct (ba_start args), (ba_end args); try done. by intros [= -> -> _].
Qed.

Lemma sh_m_ok `{E : Env} {A} (m : M A) s a s' :
  sh_m m s = (Ok a, s') → run m (sh_world s) = (Ok a, sh_world s').
Proof. unfold sh_m, sh_w. cbv zeta. destruct (run m (sh_world s)) as [r w]. by intros [= -> <-]. Qed.

Section run.
Context `{E : Env} `{HE : !EnvOk} (a0 : AbsStore).
Hypothesis Hclock : ∀ n, 0 ≤ env_clock n.

Lemma run_one_reports tk :
  ba_all args = false → ba_ticker args = Some tk →
  reports target a0 (report_text args) report_failed report_ok (run_one args tk config).
Proof using Hclock HE.
  intros Hall Htk. unfold run_one. apply reports_lift. intros entry [Hentry Hi]%entry_for_ticker_ok.
  apply reports_lift. intros k [Hk Htf]%stream_for_ok.
  assert (Hsel : selected entry k) by (unfold selected; by rewrite Htk; cbn; rewrite Hi).
  assert (Ht : target k) by (right; by exists entry).
  apply reports_bind; [apply safe_verify|intros _ _ _ _].
  apply reports_bind; [by apply safe_prepare|intros _ _ _ _]. destruct (ba_full args) eqn:Hfull.
  - apply reports_lift. intros _ Hr%raise_if_ok. apply reports_lift. intros q Hq.
    apply raise_if_bind_ok in Hq as [Hn [= <-]]. bool_hyps.
    apply reports_bind; [apply safe_use_case with k; [done|intros a; apply (keeps_bootstrap candle_progress _ _ (mkBootstrapRequest k _))]|].
    intros r s s' Hrun%sh_m_ok. apply (reports_end _ _ _ _ _ (FullReport entry r)); [|done|done].
    split; [done|]. split; [done|]. exists k. split; [done|]. by apply full_bootstrap_reports in Hrun.
  - apply reports_bind; [apply safe_resolve|]. intros [from to] s s' Hrange%sh_m_ok%range_resolved.
    apply reports_lift. intros q Hq. apply BackfillStreamRequest_new_ok in Hq as (-> & _ & Hn).
    apply reports_bind; [apply safe_use_case with k; [done|intros a; apply (keeps_backfill a _ (mkBackfillStream k _ _ _ _))]|].
    intros r s1 s1' Hrun%sh_m_ok. apply (reports_end _ _ _ _ _ (RangeReport entry from to r)); [|done|done].
    split; [done|]. exists k. split; [done|]. split; [done|]. by apply backfill_execute_report in Hrun.
Qed.

Lemma run_all_reports :
  ba_all args = true → Forall coverage_wf (enabled_instruments config) →
  reports target a0 (report_text args) report_failed report_ok (run_all args config).
Proof using Hclock HE.
  intros Hall Hwf. unfold run_all. apply reports_lift. intros _ Hfull%raise_if_ok%negb_false_iff.
  apply reports_lift. intros _ Hrange%raise_if_ok. apply reports_lift. intros q Hq.
  apply raise_if_bind_ok in Hq as [Hn [= <-]]. bool_hyps.
  apply reports_bind.
  - apply sr_keeps_backfill_all.
    + intros c _. apply safe_verify.
    + intros c k Hc Hk. assert (Ht : target k) by (left; split; [done|]; apply elem_of_flat_map; by exists c).
      apply sr_keeps_bind; [by apply safe_prepare|intros _]. apply safe_use_case with k; [done|].
      intros a. apply (keeps_bootstrap candle_progress _ _ (mkBootstrapRequest k _)).
    + intros c Hc. unfold enabled_instruments in Hc. by apply list_elem_of_In, filter_In in Hc as [_ Hc].
  - intros r s s' Hrun. apply (reports_end _ _ _ _ _ (AllReport r)); [|done|done]. do 3 (split; [done|]).
    unfold backfill_all in Hrun. cbv zeta in Hrun. cbn [max_windows_per_stream] in Hrun.
    assert (Hfilter : List.filter ic_enabled (enabled_instruments config) = enabled_instruments config).
    { unfold enabled_instruments. induction (mc_instruments config) as [|c cs IH]; [done|]. cbn.
      destruct (ic_enabled c) eqn:Hc; [cbn; by rewrite Hc, IH|done]. }
    rewrite Hfilter in Hrun. destruct (enabled_instruments config) as [|c cs] eqn:Hcs; [done|]. rewrite <- Hcs in Hrun, Hwf.
    assert (Hcov := Hrun). apply bootstrap_coverages_ok in Hcov as (Hm & d & Hd & Hrest); [| |done|by repeat constructor].
    2:{ eapply Forall_impl; [exact Hwf|]. apply stream_keys_nonempty. }
    cbn [outcome_streams map app] in Hd. change (flat_map stream_keys (enabled_instruments config)) with (enabled_streams config) in *.
    rewrite Hd. split; [exists (drop d (enabled_streams config)); by rewrite take_drop|].
    split; [done|]. split; [done|]. apply (bootstrap_coverages_of _ _ full_report) in Hrun; [done| |done].
    intros c' k v r' v' Hpos (u & v1 & _ & Hb%sh_m_ok)%sr_bind_ok. by apply full_bootstrap_reports in Hb.
Qed.
End run.
End backfill_reports.

(** A run over all streams that failed has a fatal outcome, and so exits with an error. *)
Lemma failed_run_exits config args r :
  report_ok config args (AllReport r) → mr_status r = MULTI_FAILED → has_errors r = true.
Proof.
  intros (_ & _ & _ & _ & _ & Hm & HF) Hs. rewrite Hs in Hm. cbn in Hm.
  unfold has_errors. apply existsb_exists. apply Exists_exists in Hm as (o & Ho & Hfatal).
  exists o. split; [by apply list_elem_of_In|]. apply bool_decide_eq_true.
  rewrite Forall_forall in HF. specialize (HF o Ho). unfold outcome_of in HF. destruct (mo_result o) as [x|]; [|done].
  destruct HF as (Hx & -> & Hd). destruct (fr_error_code x) eqn:He; [by eexists|].
  apply (brr_disposition _ _ Hx) in He. unfold outcome_fatal in Hfatal. congruence.
Qed.

Lemma enabled_wf path file config :
  load_market_config path (Ok file) = Ok config → Forall coverage_wf (enabled_instruments config).
Proof.
  intros Hload%instruments_loaded. rewrite Forall_forall in Hload |- *. intros cv Hcv. apply Hload.
  unfold enabled_instruments in Hcv. by apply list_elem_of_In, filter_In in Hcv as [Hcv%list_elem_of_In _].
Qed.

Lemma backfill_main_reports `{E : Env} `{!EnvOk} config args a0 :
  (∀ i, 0 ≤ env_clock i) → Forall coverage_wf (enabled_instruments config) →
  reports (target config args) a0 (report_text args) report_failed (report_ok config args) (backfill_main args config).
Proof.
  intros Hclock Hwf. unfold backfill_main. destruct (ba_all args) eqn:Hall; [by apply run_all_reports|].
  destruct (ba_ticker args) as [tk|] eqn:Htk; [by apply run_one_reports|]. by intros s Hs.
Qed.

Lemma reports_inv T a0 {X} (lines : X → list string) failed R m s :
  reports T a0 lines failed R m → shell_safe T a0 s → store_inv (w_db (sh_world (m s).2)).
Proof.
  intros Hr Hs. specialize (Hr s Hs). destruct (m s) as [[code|e] s']; [|by destruct Hr].
  by destruct Hr as (x & s1 & _ & [_ Hi _ _] & -> & _).
Qed.

(** ** Properties *)


(** The audit command never changes anything.  It refuses a ticker, a timeframe or a range that is
    not valid with ValueError, and a stream that is not registered with UnknownStreamError, printing
    nothing; otherwise it always prints a report of the range it was asked for, whose gaps are
    exactly the missing grid points, one line each, and exits with 0 exactly when every candle of the
    range is stored. *)
Theorem audit_command_exact `{E : Env} (config : ValidatedMarketConfig) (database tk tf : string) (from to : Z)
    (a : AbsStore) (n c : nat) :
  store_inv a →
  let p := audit_main database tk tf from to config (mkShell (mkWorld a None n c) []) in
  sh_world p.2 = mkWorld a None n c ∧
  match p.1 with
  | Ok code => ∃ entry k r rep,
      entry ∈ enabled_instruments config ∧ InstrumentKey_new tk = Ok (ic_instrument entry) ∧
      StreamKey_new (ic_instrument entry) tf = Ok k ∧ ab_streams a !! k = Some r ∧
      report_stream rep = k ∧ checked_start_ms rep = from ∧ checked_end_ms rep = to ∧
      gaps_spec (candle_stored r) from to (stream_step k) (report_gaps rep) ∧
      sh_out p.2 = report_lines database rep ∧ length (sh_out p.2) = (4 + length (report_gaps rep))%nat ∧
      (code = 0 ∨ code = 1) ∧
      (code = 0 ↔ ∀ t, on_grid (stream_step k) t → from ≤ t < to → candle_stored r t)
  | Raise e => sh_out p.2 = [] ∧
      (exn_cls e = ExcValueError ∨
       exn_cls e = ExcUnknownStreamError ∧ ∃ entry k, InstrumentKey_new tk = Ok (ic_instrument entry) ∧
         StreamKey_new (ic_instrument entry) tf = Ok k ∧ ab_streams a !! k = None)
  end.
Proof.
  intros Hi p. subst p. unfold audit_main, mbind, StRes_bind, sr_lift.
  destruct (entry_for_ticker _ tk) as [entry|e] eqn:Hentry; [|cbn; split_and!; [done|done|left; by apply (entry_for_ticker_raises _ _ _ Hentry)]].
  apply entry_for_ticker_ok in Hentry as [Hin Hkey].
  destruct (StreamKey_new _ tf) as [k|e] eqn:Hk; [|cbn; split_and!; [done|done|left; by apply (StreamKey_new_raises _ _ _ Hk)]].
  destruct (AuditStreamContinuityRequest_new k from to) as [q|e] eqn:Hq.
  2:{ split; [done|]. split; [done|]. left. unfold AuditStreamContinuityRequest_new in Hq.
      by apply raise_if_bind_raise in Hq as [[_ ->]|[_ [[_ ->]|[_ ?]]%raise_if_bind_raise]]. }
  apply AuditRequest_new_ok in Hq as (-> & Hlt & Hf & Ht). unfold sh_m, sh_w. cbn [sh_world sh_out].
  destruct (ab_streams a !! k) as [r|] eqn:Hr.
  - destruct (run_candle_audit a n c k r from to Hi Hr Hlt Hf Ht) as (rep & -> & H1 & H2 & H3 & Hg & Hc).
    cbn. split; [done|]. exists entry, k, r, rep. do 8 (split; [done|]). split; [done|].
    split; [unfold numbered; by rewrite length_imap|].
    pose proof (gaps_spec_nil_iff _ _ _ _ _ (stream_step_pos k) Hg) as Hnil. rewrite <- Hc in Hnil.
    split; [by destruct (is_continuous rep); auto|].
    transitivity (is_continuous rep = true); [by destruct (is_continuous rep)|]. rewrite Hnil.
    split; intros H t Hgt Htr; [apply dec_stable; by apply H|intros Hn; by apply Hn, H].
  - rewrite run_audit_unregistered by done. cbn. split; [done|]. split; [done|]. right. split; [done|]. by exists entry, k.
Qed.

(** ** Examples *)

#[local] Existing Instances recovery_env recovery_env_ok.

Definition example_shell : Shell := mkShell empty_database [].
Definition minutes_args : BackfillArgs :=
  mkBackfillArgs "market.sqlite3" (Some " btcusdt.p") false "1m" None None (Some 2) 1 false.
Definition all_args : BackfillArgs := mkBackfillArgs "market.sqlite3" None true "1m" None None None 9 true.


(** All streams, then an audit past their end, which names what is missing. *)
Definition after_all : World AbsStore := sh_world (backfill_main all_args service_config example_shell).2.

Example all_streams_example :
  let p := backfill_main all_args service_config example_shell in
  (p.1, last (sh_out p.2)) = (Ok 0, Some "all_streams_result=complete").
Proof. vm_compute. reflexivity. Qed.

Lemma after_all_inv : store_inv (w_db after_all).
Proof.
  assert (Hload : load_market_config "m" (Ok service_file) = Ok service_config) by (vm_compute; reflexivity).
  assert (Hclock : ∀ i, 0 ≤ env_clock i) by (intros i; cbn; lia).
  pose proof (backfill_main_reports service_config all_args (mkAbsStore ∅ ∅ []) Hclock (enabled_wf _ _ _ Hload)) as Hr.
  apply (reports_inv _ _ _ _ _ _ _ Hr). split; [done| |done|done]. by intros k r ?.
Qed.

Lemma audit_command_exact_witness :
  let p := audit_main "market.sqlite3" "BTCUSDT.P" " 1M" 0 240000 service_config (mkShell (mkWorld (w_db after_all) None 0 0) []) in
  (p.1, sh_out p.2) = (Ok 1,
    ["database=market.sqlite3"; "stream=BTCUSDT.P:1m"; "checked_window=[0, 240000)";
     "continuity_result is_continuous=false candle_count=2 gap_count=1"; "gap[1]=[120000, 240000)"]) ∧
  sh_world p.2 = mkWorld (w_db after_all) None 0 0.
Proof.
  split; [vm_compute; reflexivity|].
  destruct (audit_command_exact service_config "market.sqlite3" "BTCUSDT.P" " 1M" 0 240000 (w_db after_all) 0 0 after_all_inv)
    as [H _].
  exact H.
Defined.

(** The spelling that the audit accepts ends a backfill with the exception of [next]. *)
Example timeframe_not_normalised :
  stream_for (example_coverage "BTCUSDT.P") "1M" = raise (ExcForeign "StopIteration" false) EmptyString ∧
  StreamKey_new (mkInstrumentKey "BTCUSDT.P") "1M" = Ok (mkStreamKey (mkInstrumentKey "BTCUSDT.P") TF_1m).
Proof. vm_compute. by split. Qed.

(** Arguments that are refused have already registered the stream. *)
Example refused_after_registration :
  let args := mkBackfillArgs "market.sqlite3" (Some "BTCUSDT.P") false "1m" (Some 0) None None 9 true in
  let p := backfill_main args service_config example_shell in
  p.1 = raise ExcValueError "--full cannot be combined with --start/--end/--minutes" ∧
  map fst (map_to_list (ab_streams (w_db (sh_world p.2)))) = [example_stream].
Proof. vm_compute. by split. Qed.
