(* ===== verification/Smoke.v ===== *)
(** * The smoke commands

    application/smoke_backfill.py and smoke_audit_continuity.py, and the commands
    entrypoints/smoke_*.py over the real exchange: after argparse and the choice of the directory,
    what a command does to the database it is given, what it prints and its exit code.  The
    database is its schema (Schema.v) and the shell of Commands.v; the exchange is that of [Env]. *)

From S2P Require Import Prefetch Schema.
From S2P Require Import Prelude PyStr DecimalValues Timeframes Identity Gaps Candles StreamState.
From S2P Require Import Instruments OpenInterest Storage AbsStore Ingest ImportWindow UseCase.
From S2P Require Import Backfill LowerBound FullBootstrap Repair RealtimeFacts RealtimeRecovery PyFloat Json BybitRest.
From S2P Require Import SqliteRefinement Settings Service Commands.

(** ** The database of a smoke run *)

Record SmokeDb := mkSmokeDb { sd_schema : gmap string Table; sd_shell : Shell }.

Notation SmM := (StRes SmokeDb).

Definition sm_shell {A} (m : ShM A) : SmM A := λ s,
  let r := m (sd_shell s) in (r.1, mkSmokeDb (sd_schema s) r.2).

(** [initialize_database(database_path)] *)
Definition sm_initialize : SmM () := λ s,
  let r := Schema.initialize_database (sd_schema s) in (r.1, mkSmokeDb (cn_disk r.2) (sd_shell s)).

Definition sm_store (s : SmokeDb) : AbsStore := w_db (sh_world (sd_shell s)).

(** ** smoke_support.py *)

Record PersistenceSnapshot := mkPersistence {
  ps_schema_version : string;
  ps_candles : Z;
  ps_stream_state_rows : Z;
  ps_latest_committed_open_time_ms : option Z;
  ps_quarantine_rows : Z;
  ps_open_times_ms : list Z
}.

(** [fetchone()[0]] without a row *)
Definition none_subscript {A} : res A := raise ExcTypeError "'NoneType' object is not subscriptable".

(** [SELECT value FROM schema_meta WHERE key = 'schema_version'] and [str(...)] *)
Definition stored_version (d : gmap string Table) : res string :=
  t ← table_of d "schema_meta";
  match version_rows t with
  | [] => none_subscript
  | r :: _ => mret (text_or_none (r !! "value"%string))
  end.

(** The rows of the stream in candles, stream_state and quarantine. *)
Definition inspect_store (version : string) (k : StreamKey) (a : AbsStore) : res PersistenceSnapshot :=
  match ab_streams a !! k with
  | None => none_subscript
  | Some r =>
      mret (mkPersistence version (Z.of_nat (size (sr_candles r))) 1
              (latest_committed_open_time_ms (sr_state r))
              (Z.of_nat (length (filter (λ q, q_stream q = k) (ab_quarantine a))))
              (py_sorted (elements (dom (sr_candles r)))))
  end.

Definition inspect_persistence (k : StreamKey) : SmM PersistenceSnapshot := λ s,
  (version ← stored_version (sd_schema s); inspect_store version k (sm_store s), s).

Fixpoint is_contiguous_1m (open_times_ms : list Z) : bool :=
  match open_times_ms with
  | previous :: ((current :: _) as rest) => (previous + 60000 =? current) && is_contiguous_1m rest
  | _ => true
  end.

(** [StaticPayloadTransport] *)
Definition static_payload (payload : json_object) : Transport := λ _ _ _ _, inl payload.

Definition static_fetch (symbol : string) (payload : json_object) (k : StreamKey) (window : TimeWindow)
    (observed_at_ms : Z) : res (list ObservedCandle) :=
  (BybitRest.fetch_closed_candles (default_rest {[ ticker (instrument k) := symbol ]}) (static_payload payload)
     (λ _, float_of_Z 0) k window observed_at_ms).1.

Section smoke.
Context `{E : Env}.

Definition sm_m {A} (m : M A) : SmM A := sm_shell (sh_m m).
Definition sm_print (lines : list string) : SmM () := sm_shell (sh_print lines).
(** [register_stream(database_path, stream, exchange_symbol, now_ms=clock.now_ms())] *)
Definition sm_register (k : StreamKey) (symbol : string) : SmM () :=
  now ← sm_m now_ms;
  sm_shell (sh_w (register_stream k symbol now)).

(** A fetch that has to end in the typed error [expected]. *)
Definition check_typed_error (label : string) (expected : exn_class) (symbol : string) (payload : json_object)
    (k : StreamKey) (window : TimeWindow) : SmM bool :=
  now ← sm_m now_ms;
  match static_fetch symbol payload k window now with
  | Ok _ => mret false
  | Raise e =>
      if isinstance e expected then
        _ ← sm_print [label +:+ "=typed:" +:+ class_name (exn_cls e)];
        mret true
      else sr_lift (Raise e)
  end.

(** [_check_wrong_symbol] *)
Definition check_wrong_symbol : StreamKey → TimeWindow → SmM bool :=
  check_typed_error "error_wrong_symbol" ExcBybitApiError "NOT_A_REAL_BYBIT_SYMBOL"
    [("retCode", JInt 10001); ("retMsg", JStr "symbol invalid")]%string.

(** [_check_empty_payload] *)
Definition check_empty_payload : StreamKey → TimeWindow → SmM bool :=
  check_typed_error "error_empty_payload" ExcBybitPayloadError "BTCUSDT"
    [("retCode", JInt 0); ("retMsg", JStr "OK"); ("result", JObj [("list", JObj [])])]%string.

Definition classification_value (c : IngestionClassification) : string :=
  match c with
  | COMMITTED => "committed"
  | DUPLICATE => "duplicate"
  | CORRECTED => "corrected"
  | REJECTED_INVALID => "rejected_invalid"
  | REJECTED_UNCONFIGURED => "rejected_unconfigured"
  | REJECTED_UNCONFIRMED => "rejected_unconfirmed"
  end.

(** [_check_invalid_candle] *)
Definition check_invalid_candle (k : StreamKey) (window : TimeWindow) : SmM bool :=
  observed_at ← sm_m now_ms;
  invalid ← sr_lift (ObservedCandle_new k (start_ms window) (start_ms window + stream_step k - 1) (InStr "100")
              (InStr "99") (InStr "98") (InStr "101") (InStr "1") true observed_at BYBIT_REST);
  before ← inspect_persistence k;
  committed_at ← sm_m now_ms;
  result ← sm_m (ingest_execute invalid committed_at);
  after ← inspect_persistence k;
  _ ← sm_print ["error_invalid_candle=classification:" +:+ classification_value (ing_classification result) +:+
                " issues:" +:+ join "," (ing_issue_codes result) +:+
                " quarantined=" +:+ str_of_Z (ps_quarantine_rows after - ps_quarantine_rows before)];
  mret (bool_decide (ing_issue_codes result = ["invalid_ohlc"%string])
        && (ps_quarantine_rows after =? ps_quarantine_rows before + 1)).

(** [run_error_scenarios] *)
Definition run_error_scenarios (k : StreamKey) (window : TimeWindow) : SmM bool :=
  wrong_symbol_ok ← check_wrong_symbol k window;
  empty_payload_ok ← check_empty_payload k window;
  invalid_candle_ok ← check_invalid_candle k window;
  mret (wrong_symbol_ok && empty_payload_ok && invalid_candle_ok).

(** ** What the commands share *)

Definition pass_text (ok : bool) : string := if ok then "PASS" else "FAIL".
Definition result_line (ok : bool) : string := "smoke_result=" +:+ pass_text ok.
Definition window_text (w : TimeWindow) : string := "window=" +:+ range_text (start_ms w) (end_ms w).

(** [_recent_closed_window] *)
Definition recent_closed_window (timeframe_id : string) (minutes : Z) : M TimeWindow :=
  _ ← lift (raise_if ((minutes <=? 0) || (1000 <? minutes)) ExcValueError "minutes must be between 1 and 1000");
  timeframe ← lift (get_timeframe timeframe_id);
  now ← now_ms;
  latest_closed_open_ms ← lift (last_closed_open_time_ms now (duration_ms timeframe));
  let end_ms := latest_closed_open_ms + duration_ms timeframe in
  lift (TimeWindow_new (end_ms - minutes * duration_ms timeframe) end_ms).

(** [StreamKey(InstrumentKey(ticker), timeframe_id)] *)
Definition smoke_stream (tk timeframe_id : string) : res StreamKey :=
  i ← InstrumentKey_new tk;
  StreamKey_new i timeframe_id.

Definition counts_text (observed committed duplicate corrected rejected : Z) : string :=
  " observed=" +:+ str_of_Z observed +:+ " committed=" +:+ str_of_Z committed +:+ " duplicate=" +:+ str_of_Z duplicate +:+
  " corrected=" +:+ str_of_Z corrected +:+ " rejected=" +:+ str_of_Z rejected.

(** ** application/smoke_backfill.py *)

Record SmokeBackfillWorkflowResult := mkSmokeWorkflow {
  sw_stream : StreamKey;
  sw_window : TimeWindow;
  sw_first_observed : Z;
  sw_first_committed : Z;
  sw_first_duplicates : Z;
  sw_first_corrected : Z;
  sw_first_rejected : Z;
  sw_duplicate_observed : Z;
  sw_duplicate_committed : Z;
  sw_duplicate_duplicates : Z;
  sw_duplicate_corrected : Z;
  sw_duplicate_rejected : Z
}.

(** The first window of a backfill that has to have imported one; [what] names it in the error. *)
Definition smoke_window (what : string) (r : BackfillStreamResult) : res BackfillWindowResult :=
  match bf_error_code r with
  | Some code => raise ExcRuntimeError (what +:+ " failed: " +:+ code +:+ ": " +:+ opt_text (bf_error_detail r))
  | None => match bf_window_results r with
            | w :: _ => mret w
            | [] => raise ExcRuntimeError (what +:+ " did not import a window")
            end
  end.

(** [run_backfill_smoke_workflow] *)
Definition run_backfill_smoke_workflow (backfill : BackfillStreamRequest → M BackfillStreamResult) (k : StreamKey)
    (window : TimeWindow) : M SmokeBackfillWorkflowResult :=
  request ← lift (BackfillStreamRequest_new k (start_ms window) (end_ms window) 1 true);
  first ← backfill request;
  first_window ← lift (smoke_window "backfill smoke" first);
  again ← lift (BackfillStreamRequest_new k (start_ms window) (end_ms window) 1 false);
  duplicate ← backfill again;
  duplicate_window ← lift (smoke_window "backfill duplicate smoke" duplicate);
  mret (mkSmokeWorkflow k window (bw_observed first_window) (bw_committed first_window) (bw_duplicates first_window)
          (bw_corrected first_window) (bw_rejected first_window) (bw_observed duplicate_window)
          (bw_committed duplicate_window) (bw_duplicates duplicate_window) (bw_corrected duplicate_window)
          (bw_rejected duplicate_window)).

(** ** smoke_backfill.py *)

Record SmokeBackfillResult := mkSmokeBackfill {
  sb_workflow : SmokeBackfillWorkflowResult;
  sb_persistence : PersistenceSnapshot;
  sb_continuity_ok : bool
}.

(** [SmokeBackfillResult.ok] *)
Definition smoke_backfill_ok (r : SmokeBackfillResult) : bool :=
  let w := sb_workflow r in
  let p := sb_persistence r in
  (sw_first_committed w >? 0) && (sw_first_duplicates w =? 0) && (sw_duplicate_committed w =? 0)
  && (sw_duplicate_duplicates w >? 0) && bool_decide (ps_schema_version p = "1"%string)
  && (ps_candles p =? sw_first_committed w) && (ps_stream_state_rows p =? 1)
  && bool_decide (is_Some (ps_latest_committed_open_time_ms p)) && (ps_quarantine_rows p =? 0)
  && sb_continuity_ok r.

Definition persistence_line (p : PersistenceSnapshot) : string :=
  "persistence schema_version=" +:+ ps_schema_version p +:+ " candles=" +:+ str_of_Z (ps_candles p) +:+
  " stream_state_rows=" +:+ str_of_Z (ps_stream_state_rows p) +:+
  " latest_committed_open_time_ms=" +:+ opt_int (ps_latest_committed_open_time_ms p) +:+
  " quarantine_rows=" +:+ str_of_Z (ps_quarantine_rows p).

(** [_print_result] *)
Definition smoke_backfill_lines (database : string) (r : SmokeBackfillResult) : list string :=
  let w := sb_workflow r in
  ["database=" +:+ database;
   "stream=" +:+ stream_canonical_id (sw_stream w);
   window_text (sw_window w);
   "first_backfill" +:+ counts_text (sw_first_observed w) (sw_first_committed w) (sw_first_duplicates w)
     (sw_first_corrected w) (sw_first_rejected w);
   "second_backfill" +:+ counts_text (sw_duplicate_observed w) (sw_duplicate_committed w) (sw_duplicate_duplicates w)
     (sw_duplicate_corrected w) (sw_duplicate_rejected w);
   persistence_line (sb_persistence r);
   "continuity_1m=" +:+ pass_text (sb_continuity_ok r);
   result_line (smoke_backfill_ok r)].

(** [run_smoke_backfill] *)
Definition run_smoke_backfill (tk symbol timeframe_id : string) (minutes : Z) : SmM SmokeBackfillResult :=
  k ← sr_lift (smoke_stream tk timeframe_id);
  window ← sm_m (recent_closed_window timeframe_id minutes);
  _ ← sm_initialize;
  _ ← sm_register k symbol;
  workflow ← sm_m (run_backfill_smoke_workflow wired_backfill k window);
  persistence ← inspect_persistence k;
  mret (mkSmokeBackfill workflow persistence (is_contiguous_1m (ps_open_times_ms persistence))).

(** [_run] *)
Definition smoke_backfill_main (database tk symbol timeframe_id : string) (minutes : Z) : SmM Z :=
  result ← run_smoke_backfill tk symbol timeframe_id minutes;
  _ ← sm_print (smoke_backfill_lines database result);
  mret (exit_code (negb (smoke_backfill_ok result))).

(** ** application/smoke_audit_continuity.py and its command *)

Record SmokeAuditContinuityResult := mkSmokeAudit {
  sa_stream : StreamKey;
  sa_window : TimeWindow;
  sa_backfill_observed : Z;
  sa_backfill_committed : Z;
  sa_backfill_duplicates : Z;
  sa_backfill_corrected : Z;
  sa_backfill_rejected : Z;
  sa_audit : ContinuityReport
}.

(** [SmokeAuditContinuityResult.ok] *)
Definition smoke_audit_ok (r : SmokeAuditContinuityResult) : bool :=
  (sa_backfill_committed r >? 0) && (sa_backfill_duplicates r =? 0) && is_continuous (sa_audit r)
  && bool_decide (report_gaps (sa_audit r) = []) && (candle_count (sa_audit r) =? sa_backfill_committed r).

(** [run_smoke_audit_continuity_workflow] *)
Definition run_smoke_audit_continuity_workflow (backfill : BackfillStreamRequest → M BackfillStreamResult)
    (auditor : AuditStreamContinuityRequest → M ContinuityReport) (k : StreamKey) (window : TimeWindow) :
    M SmokeAuditContinuityResult :=
  request ← lift (BackfillStreamRequest_new k (start_ms window) (end_ms window) 1 true);
  result ← backfill request;
  window_result ← lift (smoke_window "backfill audit smoke" result);
  audit_request ← lift (AuditStreamContinuityRequest_new k (start_ms window) (end_ms window));
  audit ← auditor audit_request;
  mret (mkSmokeAudit k window (bw_observed window_result) (bw_committed window_result) (bw_duplicates window_result)
          (bw_corrected window_result) (bw_rejected window_result) audit).

Definition audit_counts (r : ContinuityReport) : string :=
  " continuity=" +:+ text_of_bool (is_continuous r) +:+ " gaps=" +:+ pretty (length (report_gaps r)).

Definition smoke_audit_lines (r : SmokeAuditContinuityResult) : list string :=
  ["stream=" +:+ stream_canonical_id (sa_stream r);
   window_text (sa_window r);
   "backfill" +:+ counts_text (sa_backfill_observed r) (sa_backfill_committed r) (sa_backfill_duplicates r)
     (sa_backfill_corrected r) (sa_backfill_rejected r);
   "audit candles=" +:+ str_of_Z (candle_count (sa_audit r)) +:+ audit_counts (sa_audit r);
   result_line (smoke_audit_ok r)].

(** [run_smoke_audit_continuity] *)
Definition run_smoke_audit_continuity (tk symbol timeframe_id : string) (minutes : Z) : SmM SmokeAuditContinuityResult :=
  k ← sr_lift (smoke_stream tk timeframe_id);
  window ← sm_m (recent_closed_window timeframe_id minutes);
  _ ← sm_initialize;
  _ ← sm_register k symbol;
  sm_m (run_smoke_audit_continuity_workflow wired_backfill (audit_continuity candle_open_times) k window).

Definition smoke_audit_main (tk symbol timeframe_id : string) (minutes : Z) : SmM Z :=
  result ← run_smoke_audit_continuity tk symbol timeframe_id minutes;
  _ ← sm_print (smoke_audit_lines result);
  mret (exit_code (negb (smoke_audit_ok result))).

(** ** smoke_gap_repair.py, smoke_gap_report.py and smoke_gap_support.py *)

Record SmokeGapRepairResult := mkSmokeGapRepair {
  sg_stream : StreamKey;
  sg_window : TimeWindow;
  sg_deleted_open_time_ms : Z;
  sg_initial_audit : ContinuityReport;
  sg_gap_audit : ContinuityReport;
  sg_repair : RepairStreamGapsResult;
  sg_repeated_repair : RepairStreamGapsResult
}.

(** [SmokeGapRepairResult.ok] *)
Definition smoke_gap_ok (r : SmokeGapRepairResult) : bool :=
  is_continuous (sg_initial_audit r) && negb (is_continuous (sg_gap_audit r))
  && (Z.of_nat (length (report_gaps (sg_gap_audit r))) =? 1)
  && bool_decide (rr_status (sg_repair r) = REPAIR_COMPLETE)
  && match rr_post_repair_audit (sg_repair r) with Some post => is_continuous post | None => false end
  && bool_decide (rr_status (sg_repeated_repair r) = REPAIR_COMPLETE)
  && (rr_attempted_windows (sg_repeated_repair r) =? 0).

(** [delete_candle_for_smoke] *)
Definition delete_row (k : StreamKey) (open_time_ms : Z) (a : AbsStore) : res AbsStore :=
  match ab_streams a !! k with
  | None => none_subscript
  | Some r => mret (with_stream a k (upd_candles r (delete open_time_ms (sr_candles r))))
  end.
Definition delete_candle_for_smoke (k : StreamKey) (open_time_ms : Z) : SmM () :=
  sm_shell (sh_w (λ w, match delete_row k open_time_ms (w_db w) with
                       | Ok a => (Ok (), mkWorld a (w_tx w) (w_ticks w) (w_calls w))
                       | Raise e => (Raise e, w)
                       end)).

Definition repair_status_value (s : RepairStatus) : string :=
  match s with
  | REPAIR_COMPLETE => "complete"
  | REPAIR_INCOMPLETE => "incomplete"
  | REPAIR_FAILED => "failed"
  end.

(** [print_smoke_gap_repair_result] *)
Definition smoke_gap_lines (database : string) (r : SmokeGapRepairResult) : list string :=
  let post := match rr_post_repair_audit (sg_repair r) with Some post => is_continuous post | None => false end in
  ["database=" +:+ database;
   "stream=" +:+ stream_canonical_id (sg_stream r);
   window_text (sg_window r);
   "deleted_open_time_ms=" +:+ str_of_Z (sg_deleted_open_time_ms r);
   "initial_audit" +:+ audit_counts (sg_initial_audit r);
   "gap_audit" +:+ audit_counts (sg_gap_audit r);
   "repair status=" +:+ repair_status_value (rr_status (sg_repair r)) +:+
   " attempted_windows=" +:+ str_of_Z (rr_attempted_windows (sg_repair r)) +:+
   " completed_windows=" +:+ str_of_Z (rr_completed_windows (sg_repair r)) +:+
   " post_continuity=" +:+ text_of_bool post;
   "repeat_repair status=" +:+ repair_status_value (rr_status (sg_repeated_repair r)) +:+
   " attempted_windows=" +:+ str_of_Z (rr_attempted_windows (sg_repeated_repair r));
   result_line (smoke_gap_ok r)].

(** The part of [run_smoke_gap_repair] after the registration. *)
Definition gap_repair_scenario (k : StreamKey) (window : TimeWindow) (deleted_open_time_ms : Z) : SmM SmokeGapRepairResult :=
  request ← sr_lift (BackfillStreamRequest_new k (start_ms window) (end_ms window) 1 true);
  backfilled ← sm_m (wired_backfill request);
  _ ← sr_lift (match bf_error_code backfilled with
               | Some code => raise ExcRuntimeError ("backfill failed: " +:+ code +:+ ": " +:+ opt_text (bf_error_detail backfilled))
               | None => mret ()
               end);
  audit_request ← sr_lift (AuditStreamContinuityRequest_new k (start_ms window) (end_ms window));
  initial_audit ← sm_m (audit_continuity candle_open_times audit_request);
  _ ← delete_candle_for_smoke k deleted_open_time_ms;
  gap_audit ← sm_m (audit_continuity candle_open_times audit_request);
  repair_request ← sr_lift (RepairStreamGapsRequest_new k (start_ms window) (end_ms window) 1);
  repair ← sm_m (wired_repair 1000 repair_request);
  repeated_repair ← sm_m (wired_repair 1000 repair_request);
  mret (mkSmokeGapRepair k window deleted_open_time_ms initial_audit gap_audit repair repeated_repair).

(** [run_smoke_gap_repair] *)
Definition run_smoke_gap_repair (tk symbol timeframe_id : string) (minutes : Z) : SmM SmokeGapRepairResult :=
  _ ← sr_lift (raise_if (minutes <? 3) ExcValueError "minutes must be at least 3 so an internal candle can be deleted");
  k ← sr_lift (smoke_stream tk timeframe_id);
  window ← sm_m (recent_closed_window timeframe_id minutes);
  timeframe ← sr_lift (get_timeframe timeframe_id);
  let deleted_open_time_ms := start_ms window + duration_ms timeframe in
  _ ← sm_initialize;
  _ ← sm_register k symbol;
  gap_repair_scenario k window deleted_open_time_ms.

Definition smoke_gap_main (database tk symbol timeframe_id : string) (minutes : Z) : SmM Z :=
  result ← run_smoke_gap_repair tk symbol timeframe_id minutes;
  _ ← sm_print (smoke_gap_lines database result);
  mret (exit_code (negb (smoke_gap_ok result))).

(** ** smoke_full_bootstrap.py *)

Record SmokeFullBootstrapResult := mkSmokeFull { sf_first : FullHistoryBootstrapResult; sf_second : FullHistoryBootstrapResult }.

Definition first_window (b : BackfillStreamResult) : option TimeWindow := bw_window <$> head (bf_window_results b).

(** [SmokeFullBootstrapResult.ok] *)
Definition smoke_full_ok (r : SmokeFullBootstrapResult) : bool :=
  let first := sf_first r in
  let second := sf_second r in
  if fr_max_windows first <? total_windows_used first then false
  else if fr_max_windows second <? total_windows_used second then false
  else match fr_lower_bound first with
  | None => false
  | Some first_bound =>
      if negb (lb_resolved first_bound) then false
      else match fr_lower_bound second, fr_backfill second with
      | Some second_bound, Some second_backfill =>
          if negb (lb_lower_bound_cached second_bound) then false
          else match first_window second_backfill with
          | None => false
          | Some w =>
              match fr_backfill first with
              | None => bool_decide (Some (start_ms w) = lb_earliest_available_open_time_ms first_bound)
              | Some first_backfill =>
                  match bf_window_results first_backfill with
                  | [] => false
                  | _ => start_ms w =? bf_next_start_time_ms first_backfill
                  end
              end
          end
      | _, _ => false
      end
  end.

(** [repr(TimeWindow(...))] *)
Definition window_repr (w : TimeWindow) : string :=
  "TimeWindow(start_ms=" +:+ str_of_Z (start_ms w) +:+ ", end_ms=" +:+ str_of_Z (end_ms w) +:+ ")".

(** [_print_invocation] *)
Definition invocation_lines (label : string) (r : FullHistoryBootstrapResult) : list string :=
  [label +:+ "_status=" +:+ full_status_value (fr_status r);
   label +:+ "_budget discovery_windows=" +:+ str_of_Z (discovery_windows_used r) +:+
   " backfill_windows=" +:+ str_of_Z (backfill_windows_attempted r) +:+
   " total_windows=" +:+ str_of_Z (total_windows_used r) +:+ " max_windows=" +:+ str_of_Z (fr_max_windows r) +:+
   " lower_bound_resolved=" +:+ text_of_bool (lower_bound_resolved r) +:+
   " target_reached=" +:+ text_of_bool (reached_target r)] ++
  match fr_lower_bound r with
  | Some l =>
      [label +:+ "_lower_bound launch_time_ms=" +:+ str_of_Z (lb_launch_time_ms l) +:+
       " observed_earliest_open_time_ms=" +:+ opt_int (lb_earliest_available_open_time_ms l) +:+
       " cached=" +:+ text_of_bool (lb_lower_bound_cached l) +:+
       " unresolved_reason=" +:+ opt_text (lb_unresolved_reason l)]
  | None => []
  end ++
  match fr_backfill r with
  | Some b =>
      [label +:+ "_backfill completed_windows=" +:+ str_of_Z (bf_completed_windows b) +:+
       " reached_target=" +:+ text_of_bool (reached_target r) +:+
       " first_window=" +:+ text_of_opt window_repr (first_window b) +:+
       " next_start_time_ms=" +:+ str_of_Z (bf_next_start_time_ms b)]
  | None => []
  end ++
  match fr_error_code r with
  | Some code => [label +:+ "_error code=" +:+ code +:+ " detail=" +:+ opt_text (fr_error_detail r)]
  | None => []
  end.

Definition smoke_full_lines (database : string) (r : SmokeFullBootstrapResult) : list string :=
  ["database=" +:+ database] ++ invocation_lines "first" (sf_first r) ++ invocation_lines "second" (sf_second r) ++
  [result_line (smoke_full_ok r)].

(** [run_smoke_full_bootstrap]; [_new_workflow] builds [wired_bootstrap]. *)
Definition run_smoke_full_bootstrap (tk symbol : string) (max_windows : Z) : SmM SmokeFullBootstrapResult :=
  k ← sr_lift (smoke_stream tk "1m");
  _ ← sm_initialize;
  _ ← sm_register k symbol;
  request ← sr_lift (FullHistoryBootstrapRequest_new k max_windows);
  first ← sm_m (wired_bootstrap request);
  second ← sm_m (wired_bootstrap request);
  mret (mkSmokeFull first second).

Definition smoke_full_main (database tk symbol : string) (max_windows : Z) : SmM Z :=
  result ← run_smoke_full_bootstrap tk symbol max_windows;
  _ ← sm_print (smoke_full_lines database result);
  mret (exit_code (negb (smoke_full_ok result))).

(** ** smoke_all_backfill.py *)

(** [_progress] *)
Definition progress_map (a : AbsStore) : gmap string Z :=
  list_to_map (omap (λ kr, pair (stream_canonical_id kr.1) <$> latest_committed_open_time_ms (sr_state kr.2))
                 (map_to_list (ab_streams a))).

Definition all_backfill_streams (first second : gmap string Z) : list string :=
  merge_sort String.le (elements (dom first ∪ dom second)).

Definition all_backfill_passed (first_code second_code : Z) (first second : gmap string Z) : bool :=
  let streams := all_backfill_streams first second in
  (first_code =? 0) && (second_code =? 0) && negb (bool_decide (streams = []))
  && forallb (λ k, bool_decide (is_Some (first !! k)) && bool_decide (is_Some (second !! k))) streams
  && forallb (λ k, match second !! k, first !! k with Some y, Some x => x <? y | _, _ => false end) streams.

Definition resume_line (first second : gmap string Z) (k : string) : string :=
  "resume stream=" +:+ k +:+ " first_latest=" +:+ opt_int (first !! k) +:+ " second_latest=" +:+ opt_int (second !! k).

(** [main] of smoke_all_backfill.py over a database with the schema. *)
Definition smoke_all_main (database : string) (max_windows : Z) (config : ValidatedMarketConfig) : ShM Z :=
  let args := mkBackfillArgs database None true "1m" None None None max_windows true in
  first_code ← backfill_main args config;
  s1 ← sr_get;
  second_code ← backfill_main args config;
  s2 ← sr_get;
  let first := progress_map (w_db (sh_world s1)) in
  let second := progress_map (w_db (sh_world s2)) in
  let passed := all_backfill_passed first_code second_code first second in
  _ ← sh_print (["smoke_database=" +:+ database] ++ map (resume_line first second) (all_backfill_streams first second) ++
                [result_line passed]);
  mret (exit_code (negb passed)).

(** ** smoke_rest.py *)

Definition import_line (label : string) (i : ImportWindowResult) : string :=
  label +:+ counts_text (iw_observed i) (iw_committed i) (iw_duplicates i) (iw_corrected i) (iw_rejected i).

(** The window of [run_smoke]: its minutes are not bounded. *)
Definition rest_window (timeframe_id : string) (minutes : Z) : M TimeWindow :=
  timeframe ← lift (get_timeframe timeframe_id);
  now ← now_ms;
  latest_closed_open_ms ← lift (last_closed_open_time_ms now (duration_ms timeframe));
  let end_ms := latest_closed_open_ms + duration_ms timeframe in
  lift (TimeWindow_new (end_ms - minutes * duration_ms timeframe) end_ms).

Definition smoke_rest_ok (first second : ImportWindowResult) (p : PersistenceSnapshot) (errors_ok : bool) : bool :=
  (iw_committed first >? 0) && (iw_duplicates first =? 0) && (iw_committed second =? 0) && (iw_duplicates second >? 0)
  && bool_decide (ps_schema_version p = "1"%string) && (ps_candles p >? 0) && (ps_stream_state_rows p =? 1)
  && bool_decide (is_Some (ps_latest_committed_open_time_ms p)) && errors_ok.

(** [run_smoke] *)
Definition smoke_rest_main (database tk symbol timeframe_id : string) (minutes : Z) : SmM Z :=
  k ← sr_lift (smoke_stream tk timeframe_id);
  window ← sm_m (rest_window timeframe_id minutes);
  _ ← sm_initialize;
  _ ← sm_register k symbol;
  _ ← sm_print ["database=" +:+ database;
                "stream=" +:+ stream_canonical_id k +:+ " bybit_symbol=" +:+ symbol;
                window_text window +:+ " minutes=" +:+ str_of_Z minutes];
  first ← sm_m (import_window k window);
  second ← sm_m (import_window k window);
  _ ← sm_print [import_line "first_import" first; import_line "second_import" second];
  persistence ← inspect_persistence k;
  _ ← sm_print [persistence_line persistence];
  errors_ok ← run_error_scenarios k window;
  let ok := smoke_rest_ok first second persistence errors_ok in
  _ ← sm_print [result_line ok];
  mret (exit_code (negb ok)).

(** ** smoke_websocket.py *)

(** [_run] before the connection: the schema and the configured streams. *)
Definition smoke_websocket_prepare (config : ValidatedMarketConfig) : SmM () :=
  _ ← sm_initialize;
  sr_each (λ k,
    coverage ← sr_lift (match coverage_by_ticker config (ticker (instrument k)) with
                        | Some c => Ok c
                        | None => raise ExcKeyError (repr (ticker (instrument k)))
                        end);
    sm_register k (ic_exchange_symbol coverage)) (enabled_streams config).

Definition websocket_passed (outcomes : list RealtimeIngestionOutcome) : bool :=
  match outcomes with
  | o :: _ => bool_decide (ou_classification o ∈ [RT_COMMITTED; RT_DUPLICATE; RT_CORRECTED])
  | [] => false
  end.

(** The topics the exchange confirmed. *)
Definition confirmed_topics (events : list RealtimeEvent) : gset string :=
  list_to_set (flat_map (λ e, match e with SubscriptionConfirmed topics _ => topics | _ => [] end) events).

(** [_run] after the connection ended: what it prints, and its exit code. *)
Definition smoke_websocket_report (database : string) (configured_topics : nat) (timed_out : bool)
    (events : list RealtimeEvent) (outcomes : list RealtimeIngestionOutcome) : SmM Z :=
  let passed := websocket_passed outcomes in
  _ ← sm_print (["database=" +:+ database;
                 "configured_topics=" +:+ pretty configured_topics;
                 "confirmed_topics=" +:+ pretty (size (confirmed_topics events));
                 "timed_out=" +:+ text_of_bool timed_out] ++
                match outcomes with
                | o :: _ => ["outcome stream=" +:+ stream_canonical_id (ou_stream o) +:+
                             " open_time_ms=" +:+ str_of_Z (ou_open_time_ms o) +:+
                             " classification=" +:+ rt_value (ou_classification o)]
                | [] => []
                end ++
                [result_line passed]);
  mret (exit_code (negb passed)).
End smoke.

(** ** The version an initialised database has *)

Definition ends_committed (m : DbM ()) : Prop := ∀ c c', m c = (Ok (), c') → cn_tx c' = None.

Lemma ends_committed_commit : ends_committed db_commit.
Proof. intros c c'. unfold db_commit. intros [= <-]. by destruct (cn_tx c) eqn:Htx. Qed.

Lemma ends_committed_bind {A} (m : DbM A) f : (∀ x, ends_committed (f x)) → ends_committed (x ← m; f x).
Proof. intros Hf c c' (x & c1 & _ & H)%sr_bind_ok. by apply (Hf x) in H. Qed.

Lemma ends_committed_rollback m : ends_committed m → ends_committed (or_rollback m).
Proof. intros Hm c c'. unfold or_rollback. destruct (m c) as [[[]|e] c1] eqn:Hc; [|done]. intros [= <-]. by apply Hm in Hc. Qed.

Lemma migrate_v2_committed : ends_committed migrate_v2_to_v3.
Proof.
  apply ends_committed_rollback. do 3 (apply ends_committed_bind; intros _). apply ends_committed_commit.
Qed.

(** A statement that only reads leaves the connection as it is. *)
Definition only_reads {A} (m : DbM A) : Prop := ∀ c, (m c).2 = c.

Lemma only_reads_lift {A} (r : res A) : only_reads (sr_lift r).
Proof. done. Qed.

Lemma only_reads_bind {A B} (m : DbM A) (f : A → DbM B) :
  only_reads m → (∀ x, only_reads (f x)) → only_reads (x ← m; f x).
Proof.
  intros Hm Hf c. unfold mbind, StRes_bind. specialize (Hm c). destruct (m c) as [[x|e] c1]; cbn in Hm; subst c1; [apply Hf|done].
Qed.

Lemma read_version_reads : only_reads read_version.
Proof.
  apply only_reads_bind; [done|]. intros d. apply only_reads_bind; [apply only_reads_lift|]. by intros t c.
Qed.

Lemma validate_reads : only_reads validate_schema.
Proof.
  unfold validate_schema. apply only_reads_bind; [apply read_version_reads|]. intros row.
  apply only_reads_bind; [apply only_reads_lift|]. intros _. apply only_reads_bind; [done|]. intros d. cbv zeta.
  apply only_reads_bind; [apply only_reads_lift|]. intros _. apply only_reads_bind; [apply only_reads_lift|].
  intros t. apply only_reads_lift.
Qed.

Lemma validate_version c c' :
  cn_tx c = None → validate_schema c = (Ok (), c') → stored_version (cn_disk c) = Ok SCHEMA_VERSION.
Proof.
  intros Htx (row & c1 & Hrow & H)%sr_bind_ok. apply sr_bind_ok in H as ([] & c2 & Hv & _).
  injection Hv as Hv _. apply raise_if_ok, negb_false_iff, bool_decide_eq_true in Hv. subst row.
  unfold read_version, db_read in Hrow. apply sr_bind_ok in Hrow as (d & c3 & Hd & Hrow). injection Hd as <- <-.
  rewrite Htx in Hrow. cbn [default] in Hrow. apply sr_bind_ok in Hrow as (t & c4 & Ht & Hrow). injection Ht as Ht <-.
  injection Hrow as Hrow _. unfold stored_version. rewrite Ht. cbn. unfold version_value in Hrow.
  by destruct (version_rows t) as [|r rs]; [|cbn in Hrow; rewrite Hrow].
Qed.

Lemma initialized_version d c :
  Schema.initialize_database d = (Ok (), c) → stored_version (cn_disk c) = Ok SCHEMA_VERSION.
Proof.
  unfold Schema.initialize_database. cbv zeta. destruct (initialize_connection _) as [r c1] eqn:Hi.
  cbn [fst snd]. intros [= -> <-]. cbn [db_rollback cn_disk]. unfold initialize_connection in Hi.
  apply sr_bind_ok in Hi as (ex & c2 & Hex & Hi). apply sr_bind_ok in Hi as ([] & c3 & Hm & Hv).
  assert (Hc2 : cn_tx c2 = None) by (unfold schema_exists in Hex; by injection Hex as _ <-).
  assert (Hc3 : cn_tx c3 = None).
  { destruct ex.
    - unfold migrate_schema in Hm. apply sr_bind_ok in Hm as (row & c4 & Hr & Hm).
      pose proof (read_version_reads c2) as Hc4. rewrite Hr in Hc4. cbn in Hc4. subst c4.
      cbv zeta in Hm. case_bool_decide; [by injection Hm as <-|]. revert Hm.
      apply ends_committed_bind. intros _. apply ends_committed_bind. intros _. apply migrate_v2_committed.
    - revert Hm. unfold create_schema. do 2 (apply ends_committed_bind; intros _). apply migrate_v2_committed. }
  pose proof (validate_reads c3) as Hc1. rewrite Hv in Hc1. cbn in Hc1. subst c1. by eapply validate_version.
Qed.

(** ** What leaves the schema alone *)

Lemma sm_shell_schema {A} (m : ShM A) s r s' : sm_shell m s = (r, s') → sd_schema s' = sd_schema s.
Proof. unfold sm_shell. cbv zeta. by intros [= _ <-]. Qed.

Lemma sm_register_schema `{E : Env} k symbol s r s' : sm_register k symbol s = (r, s') → sd_schema s' = sd_schema s.
Proof.
  unfold sm_register, mbind, StRes_bind. destruct (sm_m now_ms s) as [[now|e] s1] eqn:H1.
  - apply sm_shell_schema in H1. intros H2%sm_shell_schema. by rewrite H2.
  - intros [= _ <-]. by apply sm_shell_schema in H1.
Qed.

Lemma inspect_version k s p s' version :
  stored_version (sd_schema s) = Ok version → inspect_persistence k s = (Ok p, s') → ps_schema_version p = version.
Proof.
  unfold inspect_persistence. intros ->. cbn [mbind res_bind]. unfold inspect_store.
  destruct (ab_streams _ !! k); [|done]. by intros [= <- _].
Qed.

Lemma sm_initialized s s' : sm_initialize s = (Ok (), s') → stored_version (sd_schema s') = Ok SCHEMA_VERSION.
Proof.
  unfold sm_initialize. cbv zeta. destruct (Schema.initialize_database (sd_schema s)) as [r c] eqn:Hi. cbn [fst snd].
  intros [= -> <-]. by apply initialized_version in Hi.
Qed.

Lemma sm_printed `{E : Env} lines s r s' : sm_print lines s = (r, s') → r = Ok () ∧ sh_out (sd_shell s') = sh_out (sd_shell s) ++ lines.
Proof. unfold sm_print, sm_shell, sh_print. cbv zeta. by intros [= <- <-]. Qed.

(** The fields of a snapshot of a current database fail the check of its version. *)
Lemma backfill_check_fails r : ps_schema_version (sb_persistence r) = SCHEMA_VERSION → smoke_backfill_ok r = false.
Proof. unfold smoke_backfill_ok. intros ->. cbv zeta. rewrite (bool_decide_false (SCHEMA_VERSION = _)) by done. by rewrite ?andb_false_r. Qed.

Lemma rest_check_fails first second p errors : ps_schema_version p = SCHEMA_VERSION → smoke_rest_ok first second p errors = false.
Proof. unfold smoke_rest_ok. intros ->. rewrite (bool_decide_false (SCHEMA_VERSION = _)) by done. by rewrite ?andb_false_r. Qed.

Lemma smoke_backfill_fails `{E : Env} database tk symbol tf minutes s code s' :
  smoke_backfill_main database tk symbol tf minutes s = (Ok code, s') →
  code = 1 ∧ last (sh_out (sd_shell s')) = Some (result_line false).
Proof.
  intros (r & s1 & Hr & H)%sr_bind_ok. apply sr_bind_ok in H as ([] & s2 & Hp & H). injection H as <- <-.
  assert (Hok : smoke_backfill_ok r = false).
  { unfold run_smoke_backfill in Hr. apply sr_bind_ok in Hr as (k & t1 & _ & Hr). apply sr_bind_ok in Hr as (w & t2 & _ & Hr).
    apply sr_bind_ok in Hr as ([] & t3 & Hi & Hr). apply sr_bind_ok in Hr as ([] & t4 & Hreg & Hr).
    apply sr_bind_ok in Hr as (wf & t5 & Hwf & Hr). apply sr_bind_ok in Hr as (p & t6 & Hins & Hr). injection Hr as <- _.
    apply backfill_check_fails. cbn [sb_persistence]. eapply inspect_version; [|exact Hins].
    apply sm_shell_schema in Hwf. apply sm_register_schema in Hreg. rewrite Hwf, Hreg. by eapply sm_initialized. }
  rewrite Hok. split; [done|]. apply sm_printed in Hp as [_ ->]. unfold smoke_backfill_lines. cbv zeta. rewrite Hok.
  rewrite last_app. done.
Qed.

Lemma smoke_rest_fails `{E : Env} database tk symbol tf minutes s code s' :
  smoke_rest_main database tk symbol tf minutes s = (Ok code, s') →
  code = 1 ∧ last (sh_out (sd_shell s')) = Some (result_line false).
Proof.
  unfold smoke_rest_main. intros (k & t1 & _ & H)%sr_bind_ok. apply sr_bind_ok in H as (w & t2 & _ & H).
  apply sr_bind_ok in H as ([] & t3 & Hi & H). apply sr_bind_ok in H as ([] & t4 & Hreg & H).
  apply sr_bind_ok in H as ([] & t5 & Hp1 & H). apply sr_bind_ok in H as (i1 & t6 & Hi1 & H).
  apply sr_bind_ok in H as (i2 & t7 & Hi2 & H). apply sr_bind_ok in H as ([] & t8 & Hp2 & H).
  apply sr_bind_ok in H as (p & t9 & Hins & H). apply sr_bind_ok in H as ([] & t10 & _ & H).
  apply sr_bind_ok in H as (errors & t11 & _ & H). cbv zeta in H.
  apply sr_bind_ok in H as ([] & t12 & Hp & H). injection H as <- <-.
  assert (Hv : ps_schema_version p = SCHEMA_VERSION).
  { eapply inspect_version; [|exact Hins]. apply sm_shell_schema in Hp1, Hi1, Hi2, Hp2. apply sm_register_schema in Hreg.
    rewrite Hp2, Hi2, Hi1, Hp1, Hreg. by eapply sm_initialized. }
  rewrite (rest_check_fails _ _ _ _ Hv) in Hp |- *. split; [done|]. apply sm_printed in Hp as [_ ->]. by rewrite last_app.
Qed.
