(* ===== verification/SmokeProgress.v ===== *)
(** * What the smoke commands can report

    entrypoints/smoke_gap_repair.py over an exchange that answers passes: the backfill, the deletion,
    the audits and the two repairs of the command, from an empty database to its exit code.
    smoke_backfill.py and smoke_rest.py cannot pass. *)

From S2P Require Import Prefetch Schema.
From S2P Require Import Prelude PyStr DecimalValues Timeframes Identity Gaps Candles StreamState.
From S2P Require Import Instruments OpenInterest Storage AbsStore Ingest ImportWindow UseCase.
From S2P Require Import Backfill Repair RealtimeRecovery Reconciliation Progress BackfillProgress SqliteRefinement Service.
From S2P Require Import Commands Smoke.

Section runs.
Context `{E : Env}.

Lemma sm_m_run {A} (m : M A) d w out r w' :
  run m w = (r, w') → sm_m m (mkSmokeDb d (mkShell w out)) = (r, mkSmokeDb d (mkShell w' out)).
Proof. intros H. unfold sm_m, sm_shell, sh_m, sh_w. cbn. by rewrite H. Qed.

Lemma sr_bind_run {σ A B} (m : StRes σ A) (f : A → StRes σ B) s x s1 :
  m s = (Ok x, s1) → (y ← m; f y) s = f x s1.
Proof. intros H. unfold mbind, StRes_bind. by rewrite H. Qed.

Lemma sr_bind_lifted {σ A B} (x : A) (f : A → StRes σ B) s : (y ← sr_lift (Ok x); f y) s = f x s.
Proof. done. Qed.

(** The audit of a registered stream, in terms of its missing bars. *)
Lemma run_audit_missing a n c k from to :
  store_inv a → is_Some (ab_streams a !! k) → from < to → on_grid (stream_step k) from → on_grid (stream_step k) to →
  ∃ rep, run (audit_continuity candle_open_times (mkAuditRequest k from to)) (mkWorld a None n c) =
      (Ok rep, mkWorld a None n c) ∧
    gaps_spec (bar_stored k a) from to (stream_step k) (report_gaps rep) ∧
    (is_continuous rep = true ↔ missing_bars k from to a = []).
Proof.
  intros Hi [r Hr] Hlt Hf Ht. destruct (run_candle_audit a n c k r from to Hi Hr Hlt Hf Ht)
    as (rep & Hrun & _ & _ & _ & Hg & Hc). exists rep. split; [done|].
  assert (Hg' : gaps_spec (bar_stored k a) from to (stream_step k) (report_gaps rep)).
  { eapply gaps_spec_iff; [|exact Hg]. intros t _. cbn. by rewrite (bar_stored_rec _ _ r). }
  split; [done|]. rewrite Hc, missing_bars_nil by done. rewrite (gaps_spec_nil_iff _ _ _ _ _ (stream_step_pos k) Hg').
  split; intros H t Htg Hrg; [apply dec_stable; by apply H|intros Hn; by apply Hn, H].
Qed.
End runs.

(** ** The deletion of one bar *)

Section deletion.
Context (k : StreamKey) (a : AbsStore) (r : StreamRec) (t : Z).

Definition without_bar : AbsStore := with_stream a k (upd_candles r (delete t (sr_candles r))).

Hypothesis (Hi : store_inv a) (Hr : ab_streams a !! k = Some r).

Lemma without_bar_inv : store_inv without_bar.
Proof using Hi Hr.
  apply store_inv_with_stream; [done|]. pose proof (store_inv_lookup _ _ _ Hi Hr) as [H1 H2 H3 H4].
  split; cbn [upd_candles sr_state sr_candles]; [done|done|by apply map_Forall_delete|].
  intros u [row Hu%lookup_delete_Some]. apply H4. exists row. tauto.
Qed.

Lemma without_bar_stored u : bar_stored k without_bar u ↔ u ≠ t ∧ bar_stored k a u.
Proof using Hr.
  unfold bar_stored, without_bar. rewrite lookup_with_stream, Hr. cbn. split.
  - intros [row Hu%lookup_delete_Some]. split; [by intros ->; destruct Hu|]. exists row. tauto.
  - intros [Hne [row Hu]]. exists row. by rewrite lookup_delete_ne.
Qed.

Context (from to : Z) (Hf : on_grid (stream_step k) from) (Ht : on_grid (stream_step k) to)
  (Hg : on_grid (stream_step k) t) (Hrange : from ≤ t < to) (Hfull : missing_bars k from to a = []).

(** The only gap is the bar that was deleted. *)
Lemma without_bar_gap_spec : gaps_spec (bar_stored k without_bar) from to (stream_step k) [mkGap t (t + stream_step k)].
Proof using Hf Hfull Hg Hr Hrange Ht.
  pose proof (stream_step_pos k) as Hs. split.
  - repeat constructor; cbn; [lia|lia|]. apply Z_mod_mult_between; [done..|lia].
  - repeat constructor; cbn; [done|]. unfold on_grid. by rewrite Z_mod_add_step.
  - by repeat constructor.
  - intros u Hu Hur. rewrite without_bar_stored. split.
    + intros (g & ->%list_elem_of_singleton & Hin) [Hne _]. unfold in_gap in Hin. cbn in Hin. apply Hne.
      destruct (decide (t < u)) as [Hlt|]; [|lia]. pose proof (Z_mod_mult_between _ _ _ Hs Hg Hu Hlt). lia.
    + intros Hn. destruct (decide (u = t)) as [->|Hne].
      * exists (mkGap t (t + stream_step k)). split; [by left|]. unfold in_gap. cbn. lia.
      * exfalso. apply Hn. split; [done|]. by apply (proj1 (missing_bars_nil k from to a Hf Ht) Hfull).
Qed.

Lemma without_bar_gap gaps :
  gaps_spec (bar_stored k without_bar) from to (stream_step k) gaps → gaps = [mkGap t (t + stream_step k)].
Proof using Hf Hfull Hg Hr Hrange Ht.
  intros Hgaps. by apply (gaps_spec_unique (bar_stored k without_bar) from to (stream_step k) (stream_step_pos k)
    gaps _ Hgaps), without_bar_gap_spec.
Qed.

Lemma without_bar_missing : length (missing_bars k from to without_bar) = 1%nat.
Proof using Hf Hfull Hg Hr Hrange Ht.
  apply (inj Z.of_nat). rewrite <- (missing_count k from to without_bar [mkGap t (t + stream_step k)] Hf Ht without_bar_gap_spec).
  cbn. replace (t + stream_step k - t) with (stream_step k) by lia. rewrite Z.div_same by (pose proof (stream_step_pos k); lia). lia.
Qed.
End deletion.

(** ** The scenario of the command *)

Section scenario.
Context `{E : Env} `{HC : !ClockMonotone} (k : StreamKey) (lo hi : Z) (c0 : nat) `{HH : !HonestExchange k lo hi c0}.
Context (H0 : 0 ≤ lo) (Hlo : on_grid (stream_step k) lo) (Hhi : on_grid (stream_step k) hi)
  (Hlong : lo + 3 * stream_step k ≤ hi) (Hshort : hi ≤ lo + 1000 * stream_step k).

Notation step := (stream_step k).
Notation deleted := (lo + step).

Lemma one_window : Z.of_nat (grid_steps lo hi (step * 1000)) ≤ 1.
Proof using Hlong Hshort.
  pose proof (stream_step_pos k). unfold grid_steps.
  assert ((hi - lo + step * 1000 - 1) / (step * 1000) < 2) by (apply Z.div_lt_upper_bound; lia). lia.
Qed.

Lemma deleted_on_grid : on_grid step deleted.
Proof using Hlo. unfold on_grid in *. by rewrite Z_mod_add_step. Qed.

(** The world after the deletion. *)
Lemma delete_stage a n c :
  stage k c0 a AUDITING (mkWorld a None n c) → missing_bars k lo hi a = [] →
  ∃ a', delete_row k deleted a = Ok a' ∧ stage k c0 a' AUDITING (mkWorld a' None n c) ∧
    gaps_spec (bar_stored k a') lo hi step [mkGap deleted (deleted + step)] ∧
    length (missing_bars k lo hi a') = 1%nat.
Proof using Hlo Hhi Hlong.
  intros [_ [Hi _] (r & Hr & Hst) Hc] Hm. cbn in *. pose proof (stream_step_pos k).
  exists (without_bar k a r deleted). unfold delete_row. rewrite Hr. split; [done|].
  split; [|split; [apply without_bar_gap_spec; (done || apply deleted_on_grid || lia)|
                   apply without_bar_missing; (done || apply deleted_on_grid || lia)]].
  split; cbn; [done|by apply good_refl, without_bar_inv| |done].
  eexists. unfold without_bar. cbn. by rewrite lookup_insert_eq.
Qed.

Lemma gap_request_ok : request_ok k lo hi (mkRepairRequest k lo hi 1).
Proof using H0 Hlo Hhi Hlong. pose proof (stream_step_pos k). split; cbn; (done || lia). Qed.

(** A repair with one window to spend on one missing bar completes. *)
Lemma repair_one_bar a0 v r v' :
  stage k c0 a0 AUDITING v → (length (missing_bars k lo hi (w_db v)) ≤ 1)%nat →
  repair_progress (mkRepairRequest k lo hi 1) (w_db v) (w_db v') r →
  rr_status r = REPAIR_COMPLETE ∧ missing_bars k lo hi (w_db v') = [] ∧
  ∃ post, rr_post_repair_audit r = Some post ∧ is_continuous post = true.
Proof using Type.
  intros _ Hm [H1 H2 _ H3]. cbn in H2, H3. destruct (rr_status r) eqn:Hs.
  - by destruct (H2 eq_refl).
  - exfalso. destruct (H3 eq_refl) as (? & ? & ?). lia.
  - done.
Qed.

Lemma requests_ok :
  BackfillStreamRequest_new k lo hi 1 true = Ok (mkBackfillStream k lo hi 1 true) ∧
  AuditStreamContinuityRequest_new k lo hi = Ok (mkAuditRequest k lo hi) ∧
  RepairStreamGapsRequest_new k lo hi 1 = Ok (mkRepairRequest k lo hi 1).
Proof using Hlo Hhi Hlong.
  pose proof (stream_step_pos k). unfold on_grid in Hlo, Hhi.
  unfold BackfillStreamRequest_new, AuditStreamContinuityRequest_new, RepairStreamGapsRequest_new, raise_if.
  rewrite (proj2 (Z.leb_gt hi lo)), Hlo, Hhi by lia. done.
Qed.

Lemma fresh_backfill a : latest_of k a = None → fresh_request k lo hi 1000 (mkBackfillStream k lo hi 1 true) a.
Proof using Hlo Hhi Hlong Hshort.
  intros Hl. pose proof (stream_step_pos k). split; cbn [bs_stream bs_start_time_ms bs_end_time_ms bs_max_windows
    bs_resume_from_latest_committed]; [done..|lia|done|done|lia|lia|lia|apply one_window|]. intros l. by rewrite Hl.
Qed.

Lemma delete_run d out a a' n c :
  delete_row k deleted a = Ok a' →
  delete_candle_for_smoke k deleted (mkSmokeDb d (mkShell (mkWorld a None n c) out)) =
    (Ok (), mkSmokeDb d (mkShell (mkWorld a' None n c) out)).
Proof using Type. intros Ha. unfold delete_candle_for_smoke, sm_shell, sh_w. cbn. by rewrite Ha. Qed.

Lemma stage_audit a0 a n c :
  stage k c0 a0 AUDITING (mkWorld a None n c) →
  ∃ rep, run (audit_continuity candle_open_times (mkAuditRequest k lo hi)) (mkWorld a None n c) =
      (Ok rep, mkWorld a None n c) ∧
    gaps_spec (bar_stored k a) lo hi step (report_gaps rep) ∧
    (is_continuous rep = true ↔ missing_bars k lo hi a = []).
Proof using Hlo Hhi Hlong.
  intros [_ [Hi _] (r & Hr & _) _]. cbn in Hi, Hr. pose proof (stream_step_pos k).
  apply run_audit_missing; [done|by exists r|lia|done|done].
Qed.

Lemma gap_scenario_passes d out a n c :
  stage k c0 a UNINITIALIZED (mkWorld a None n c) → on_time k (mkWorld a None n c) → latest_of k a = None →
  ∃ r v', gap_repair_scenario k (mkTimeWindow lo hi) deleted (mkSmokeDb d (mkShell (mkWorld a None n c) out)) =
      (Ok r, mkSmokeDb d (mkShell v' out)) ∧
    smoke_gap_ok r = true ∧ store_inv (w_db v') ∧ w_tx v' = None ∧ missing_bars k lo hi (w_db v') = [].
Proof using HC HH H0 Hlo Hhi Hlong Hshort.
  intros Hv Ht Hl. destruct requests_ok as (Hq1 & Hq2 & Hq3).
  destruct (backfill_completes k lo hi c0 1000 _ UNINITIALIZED a (mkWorld a None n c) (fresh_backfill a Hl) eq_refl Hv Ht)
    as (b & v1 & Hr1 & Hv1 & _ & [Hb1 _ _ Hb4]). cbn in Hb4.
  pose proof (sg_tx _ _ _ _ _ Hv1) as Htx1. destruct v1 as [a1 tx1 n1 c1]. cbn in Htx1, Hb4. subst tx1.
  destruct (stage_audit _ _ _ _ Hv1) as (rep1 & Hr2 & _ & Hc1).
  destruct (delete_stage a1 n1 c1 (stage_self _ _ _ _ _ Hv1) Hb4) as (a2 & Hd & Hv2 & Hg2 & Hm2).
  destruct (stage_audit _ _ _ _ Hv2) as (rep2 & Hr3 & Hgr & Hc2).
  destruct (repair_makes_progress k lo hi c0 1000 _ AUDITING a2 _ gap_request_ok eq_refl ltac:(lia) Hv2)
    as (r1 & v3 & Hr4 & Hv3 & Hp1).
  destruct (repair_one_bar a2 _ r1 v3 Hv2 ltac:(cbn [w_db]; lia) Hp1) as (Hs1 & Hm3 & post & Hpost & Hcont).
  destruct (repair_makes_progress k lo hi c0 1000 _ AUDITING a2 _ gap_request_ok eq_refl ltac:(lia) Hv3)
    as (r2 & v4 & Hr5 & Hv4 & [_ Hcomplete Hidle _]). cbn in Hidle, Hcomplete.
  destruct (Hidle Hm3) as [Hs2 Hat]. destruct (Hcomplete Hs2) as [Hm4 _].
  exists (mkSmokeGapRepair k (mkTimeWindow lo hi) deleted rep1 rep2 r1 r2), v4. split.
  { unfold gap_repair_scenario. cbn [start_ms end_ms].
    rewrite Hq1, sr_bind_lifted, (sr_bind_run _ _ _ _ _ (sm_m_run _ _ _ _ _ _ Hr1)), Hb1.
    cbv beta match. unfold mret at 1, res_ret at 1.
    rewrite sr_bind_lifted, Hq2, sr_bind_lifted.
    rewrite (sr_bind_run _ _ _ _ _ (sm_m_run _ _ _ _ _ _ Hr2)), (sr_bind_run _ _ _ _ _ (delete_run d out _ _ n1 c1 Hd)).
    rewrite (sr_bind_run _ _ _ _ _ (sm_m_run _ _ _ _ _ _ Hr3)), Hq3, sr_bind_lifted.
    by rewrite (sr_bind_run _ _ _ _ _ (sm_m_run _ _ _ _ _ _ Hr4)), (sr_bind_run _ _ _ _ _ (sm_m_run _ _ _ _ _ _ Hr5)). }
  destruct Hv4 as [Htx4 [Hi4 _] _ _]. split; [|done]. unfold smoke_gap_ok. cbn [sg_initial_audit sg_gap_audit sg_repair sg_repeated_repair].
  rewrite (proj2 Hc1 Hb4), Hs1, Hpost, Hcont, Hs2, Hat.
  assert (is_continuous rep2 = false) as ->.
  { apply not_true_is_false. intros H%Hc2. by rewrite H in Hm2. }
  rewrite (gaps_spec_unique (bar_stored k a2) lo hi step (stream_step_pos k) _ _ Hgr Hg2). done.
Qed.
End scenario.

(** ** The command from an empty database *)

Section command.
Context `{E : Env} `{HC : !ClockMonotone}.

Definition empty_smoke_db (n c : nat) : SmokeDb := mkSmokeDb ∅ (mkShell (mkWorld (mkAbsStore ∅ ∅ []) None n c) []).

(** The end of the last closed bar at a tick. *)
Definition closed_end (k : StreamKey) (n : nat) : Z := env_clock n - env_clock n mod stream_step k.

Definition minutes_ok (minutes : Z) : bool := (3 <=? minutes) && (minutes <=? 1000).

Lemma smoke_stream_ok tk tf k :
  smoke_stream tk tf = Ok k → get_timeframe tf = Ok (timeframe k) ∧ ticker (instrument k) ≠ EmptyString.
Proof using Type.
  unfold smoke_stream. destruct (InstrumentKey_new tk) as [i|e] eqn:Hi; [|done]. cbn [mbind res_bind].
  unfold StreamKey_new. destruct (get_timeframe tf) as [t|e]; [|done]. intros [= <-]. split; [done|].
  unfold InstrumentKey_new in Hi. cbv zeta in Hi. apply raise_if_bind_ok in Hi as [Hne Hi].
  do 3 (apply raise_if_bind_ok in Hi as [_ Hi]). injection Hi as <-. cbn. by apply bool_decide_eq_false in Hne.
Qed.

Lemma run_recent_window tf t minutes (a : AbsStore) n c :
  get_timeframe tf = Ok t → 0 < minutes ≤ 1000 →
  let hi := env_clock n - env_clock n mod duration_ms t in
  run (recent_closed_window tf minutes) (mkWorld a None n c) =
    (Ok (mkTimeWindow (hi - minutes * duration_ms t) hi), mkWorld a None (S n) c).
Proof using Type.
  intros Ht Hm. cbv zeta. assert (Hd : 0 < duration_ms t) by (by destruct t). unfold recent_closed_window, raise_if.
  rewrite (proj2 (Z.leb_gt minutes 0)), (proj2 (Z.ltb_ge 1000 minutes)) by lia. cbn [orb].
  rewrite run_bind, run_lift, run_bind, run_lift, Ht, run_bind, run_now. unfold tick. cbn [w_db w_tx w_ticks w_calls].
  rewrite run_bind, run_lift, last_closed_ok by done. rewrite run_lift.
  set (hi := env_clock n - _). replace (hi - duration_ms t + duration_ms t) with hi by lia.
  assert (Hlt : hi - minutes * duration_ms t < hi) by nia.
  by rewrite (proj2 (TimeWindow_new_ok _ _ _) (conj Hlt eq_refl)).
Qed.

Definition new_stream (k : StreamKey) (symbol : string) (now : Z) : AbsStore :=
  mkAbsStore {[ k := mkStreamRec (mkSnapshot k UNINITIALIZED None None None None None None None None now now) ∅ ∅ ∅ ]}
    {[ ticker (instrument k) := mkInstrumentRow symbol None None ]} [].

Lemma register_empty k symbol now :
  ticker (instrument k) ≠ EmptyString → symbol ≠ EmptyString →
  abs_register k symbol now (mkAbsStore ∅ ∅ []) = Ok (new_stream k symbol now).
Proof using Type.
  intros H1 H2. unfold abs_register. cbv zeta. rewrite !bool_decide_false by done. cbn [orb ab_instruments ab_streams].
  assert (symbol_taken ∅ (ticker (instrument k)) symbol = false) as -> by (vm_compute; reflexivity). done.
Qed.
Lemma register_run k symbol d out n c :
  ticker (instrument k) ≠ EmptyString → symbol ≠ EmptyString →
  sm_register k symbol (mkSmokeDb d (mkShell (mkWorld (mkAbsStore ∅ ∅ []) None n c) out)) =
    (Ok (), mkSmokeDb d (mkShell (mkWorld (new_stream k symbol (env_clock n)) None (S n) c) out)).
Proof using Type.
  intros H1 H2. unfold sm_register. rewrite (sr_bind_run _ _ _ _ _ (sm_m_run now_ms _ _ _ _ _ (run_now _))).
  unfold tick. cbn [w_db w_tx w_ticks w_calls]. unfold sm_shell, sh_w, register_stream. cbn [sd_shell sd_schema sh_world sh_out w_db].
  by rewrite register_empty.
Qed.

(** The registered stream is where a backfill can start. *)
Lemma new_stream_stage k symbol n c :
  ticker (instrument k) ≠ EmptyString → symbol ≠ EmptyString →
  let a := new_stream k symbol (env_clock n) in
  stage k c a UNINITIALIZED (mkWorld a None (S n) c) ∧ on_time k (mkWorld a None (S n) c) ∧ latest_of k a = None.
Proof using HC.
  intros H1 H2. cbv zeta. pose proof (register_empty k symbol (env_clock n) H1 H2) as Hreg.
  assert (Hi : store_inv (mkAbsStore ∅ ∅ [])) by (intros k' r' H; cbn in H; by apply lookup_empty_Some in H).
  apply abs_register_prepared in Hreg as (Hi' & _ & _); [|apply clock_nonneg|done].
  assert (Hr : ab_streams (new_stream k symbol (env_clock n)) !! k = Some (mkStreamRec (mkSnapshot k UNINITIALIZED
    None None None None None None None None (env_clock n) (env_clock n)) ∅ ∅ ∅)) by apply lookup_singleton_eq.
  split; [|split].
  - split; cbn [w_tx w_db w_calls]; [done|by apply good_refl| |done]. by eexists.
  - eexists. split; [exact Hr|]. cbn. apply clock_mono. lia.
  - unfold latest_of. by rewrite Hr.
Qed.

Lemma initialize_run out w :
  ∃ d, sm_initialize (mkSmokeDb ∅ (mkShell w out)) = (Ok (), mkSmokeDb d (mkShell w out)) ∧
    stored_version d = Ok SCHEMA_VERSION.
Proof using Type.
  destruct initialize_fresh as [Hi _]. exists (cn_disk (Schema.initialize_database ∅).2).
  assert (Hrun : sm_initialize (mkSmokeDb ∅ (mkShell w out)) =
    (Ok (), mkSmokeDb (cn_disk (Schema.initialize_database ∅).2) (mkShell w out))).
  { unfold sm_initialize. cbv zeta. cbn [sd_schema sd_shell]. by rewrite Hi. }
  split; [done|]. by apply sm_initialized in Hrun.
Qed.

Lemma sm_print_run lines d w out :
  sm_print lines (mkSmokeDb d (mkShell w out)) = (Ok (), mkSmokeDb d (mkShell w (out ++ lines))).
Proof using Type. done. Qed.

Lemma smoke_gap_last database r : last (smoke_gap_lines database r) = Some (result_line (smoke_gap_ok r)).
Proof using Type. done. Qed.

(** The command up to its report. *)
Lemma smoke_gap_run k tk symbol tf minutes n c :
  smoke_stream tk tf = Ok k → symbol ≠ EmptyString → 3 ≤ minutes ≤ 1000 →
  0 ≤ closed_end k n - minutes * stream_step k →
  HonestExchange k (closed_end k n - minutes * stream_step k) (closed_end k n) c →
  ∃ r d v', run_smoke_gap_repair tk symbol tf minutes (empty_smoke_db n c) = (Ok r, mkSmokeDb d (mkShell v' [])) ∧
    stored_version d = Ok SCHEMA_VERSION ∧ smoke_gap_ok r = true ∧ store_inv (w_db v') ∧
    missing_bars k (closed_end k n - minutes * stream_step k) (closed_end k n) (w_db v') = [].
Proof using HC.
  intros Hk Hsym Hm Hlo HH. pose proof (smoke_stream_ok _ _ _ Hk) as [Htf Htk]. pose proof (stream_step_pos k) as Hs.
  destruct (new_stream_stage k symbol (S n) c Htk Hsym) as (Hv & Ht & Hl).
  assert (Hhi : on_grid (stream_step k) (closed_end k n)) by (by apply Z_mod_sub_mod).
  assert (Hlo' : on_grid (stream_step k) (closed_end k n - minutes * stream_step k)).
  { unfold on_grid. replace (_ - _) with (closed_end k n + (- minutes) * stream_step k) by lia. by rewrite Z_mod_add_mult. }
  destruct (initialize_run [] (mkWorld (mkAbsStore ∅ ∅ []) None (S n) c)) as (d & Hi & Hd).
  destruct (gap_scenario_passes k _ (closed_end k n) c Hlo Hlo' Hhi ltac:(nia) ltac:(nia) d [] _ (S (S n)) c Hv Ht Hl)
    as (r & v' & Hrun & Hok & Hinv & _ & Hmiss).
  exists r, d, v'. split; [|exact (conj Hd (conj Hok (conj Hinv Hmiss)))]. unfold run_smoke_gap_repair, raise_if, empty_smoke_db.
  rewrite (proj2 (Z.ltb_ge minutes 3)) by lia. rewrite sr_bind_lifted, Hk, sr_bind_lifted.
  rewrite (sr_bind_run _ _ _ _ _ (sm_m_run _ _ _ _ _ _ (run_recent_window tf _ minutes _ n c Htf ltac:(lia)))).
  rewrite Htf, sr_bind_lifted, (sr_bind_run _ _ _ _ _ Hi), (sr_bind_run _ _ _ _ _ (register_run k symbol d [] (S n) c Htk Hsym)).
  exact Hrun.
Qed.

(** C31. The gap repair smoke passes over an exchange that answers: from an empty database the command
    backfills the window of the last closed bars, deletes one bar, finds exactly that gap, repairs it
    with one window, repairs a second time without a fetch, prints PASS and exits with 0; its database
    then has the current schema and every bar of the window.  A number of minutes out of its bounds
    raises before anything is written. *)
Theorem smoke_gap_repair_passes (database tk symbol tf : string) (minutes : Z) (k : StreamKey) (n c : nat) :
  smoke_stream tk tf = Ok k → symbol ≠ EmptyString →
  let hi := closed_end k n in
  let lo := hi - minutes * stream_step k in
  0 ≤ lo → HonestExchange k lo hi c →
  let r := smoke_gap_main database tk symbol tf minutes (empty_smoke_db n c) in
  (minutes_ok minutes = true →
     r.1 = Ok 0 ∧ last (sh_out (sd_shell r.2)) = Some (result_line true) ∧
     stored_version (sd_schema r.2) = Ok SCHEMA_VERSION ∧ store_inv (sm_store r.2) ∧
     missing_bars k lo hi (sm_store r.2) = []) ∧
  (minutes_ok minutes = false → (∃ msg, r.1 = raise ExcValueError msg) ∧ r.2 = empty_smoke_db n c).
Proof using HC.
  intros Hk Hsym hi lo Hlo HH r. pose proof (smoke_stream_ok _ _ _ Hk) as [Htf Htk].
  split; intros Hm; unfold minutes_ok in Hm; subst r.
  - apply andb_prop in Hm as [Hm1%Z.leb_le Hm2%Z.leb_le].
    destruct (smoke_gap_run k tk symbol tf minutes n c Hk Hsym (conj Hm1 Hm2) Hlo HH)
      as (res & d & v' & Hrun & Hd & Hok & Hi & Hmiss).
    unfold smoke_gap_main. rewrite (sr_bind_run _ _ _ _ _ Hrun), (sr_bind_run _ _ _ _ _ (sm_print_run _ _ _ _)), Hok.
    cbn [fst snd sd_shell sd_schema sh_out]. split; [done|]. split; [|done].
    exact (eq_trans (smoke_gap_last database res) (f_equal (λ ok, Some (result_line ok)) Hok)).
  - apply andb_false_iff in Hm as [Hm%Z.leb_gt|Hm%Z.leb_gt].
    + unfold smoke_gap_main, run_smoke_gap_repair, raise_if. rewrite (proj2 (Z.ltb_lt minutes 3)) by done. split; [by eexists|done].
    + unfold smoke_gap_main, run_smoke_gap_repair, raise_if. rewrite (proj2 (Z.ltb_ge minutes 3)) by lia.
      rewrite Hk. unfold mbind, StRes_bind. cbn [sr_lift]. unfold sm_m, sm_shell, sh_m, sh_w, recent_closed_window, raise_if.
      rewrite (proj2 (Z.ltb_lt 1000 minutes)), orb_true_r by done. split; [by eexists|done].
Qed.
End command.

#[local] Existing Instance complete_env.

#[export] Instance complete_env_monotone : ClockMonotone.
Proof. split; [apply _|]. intros i j Hij. cbn. lia. Qed.

Lemma smoke_gap_repair_passes_witness :
  let r := smoke_gap_main "/tmp/market.db" "BTCUSDT.P" "BTCUSDT" "1m" 5 (empty_smoke_db 0 0) in
  smoke_stream "BTCUSDT.P" "1m" = Ok example_stream ∧
  (sh_out (sd_shell r.2) =
     ["database=/tmp/market.db"; "stream=BTCUSDT.P:1m"; "window=[660000, 960000)"; "deleted_open_time_ms=720000";
      "initial_audit continuity=true gaps=0"; "gap_audit continuity=false gaps=1";
      "repair status=complete attempted_windows=1 completed_windows=1 post_continuity=true";
      "repeat_repair status=complete attempted_windows=0"; "smoke_result=PASS"])%string ∧
  r.1 = Ok 0 ∧ missing_bars example_stream 660000 960000 (sm_store r.2) = [].
Proof.
  intros r. assert (Hk : smoke_stream "BTCUSDT.P" "1m" = Ok example_stream) by (vm_compute; reflexivity).
  split; [exact Hk|]. split; [vm_compute; reflexivity|].
  assert (Hlo : 0 ≤ closed_end example_stream 0 - 5 * stream_step example_stream) by (apply Z.leb_le; vm_compute; reflexivity).
  pose proof (smoke_gap_repair_passes "/tmp/market.db" "BTCUSDT.P" "BTCUSDT" "1m" 5 example_stream 0 0 Hk
    ltac:(discriminate) Hlo (complete_env_honest example_stream _ _ 0 Hlo)) as [H _].
  destruct (H eq_refl) as (H1 & _ & _ & _ & H2). split; [exact H1|]. revert H2. fold r.
  assert (closed_end example_stream 0 - 5 * stream_step example_stream = 660000) as -> by (vm_compute; reflexivity).
  assert (closed_end example_stream 0 = 960000) as -> by (vm_compute; reflexivity). exact id.
Defined.

(** ** The commands that cannot pass *)

(** A run that returns says FAIL and exits with 1. *)
Definition says_fail (r : res Z * SmokeDb) : Prop :=
  match r.1 with
  | Ok code => code = 1 ∧ last (sh_out (sd_shell r.2)) = Some (result_line false)
  | Raise _ => True
  end.

(** The backfill smoke and the REST smoke never pass: whatever the exchange answers and whatever
    is in the database, a run that returns prints FAIL last and exits with 1, because both expect
    the version that the initialisation they begin with has just migrated away from. *)
Theorem smoke_never_passes `{E : Env} (database tk symbol tf : string) (minutes : Z) (s : SmokeDb) :
  says_fail (smoke_backfill_main database tk symbol tf minutes s) ∧
  says_fail (smoke_rest_main database tk symbol tf minutes s).
Proof.
  unfold says_fail. split.
  - destruct (smoke_backfill_main _ _ _ _ _ s) as [[code|e] s'] eqn:H; [|done]. by apply smoke_backfill_fails in H.
  - destruct (smoke_rest_main _ _ _ _ _ s) as [[code|e] s'] eqn:H; [|done]. by apply smoke_rest_fails in H.
Qed.

(** Both runs return over an exchange that answers, and only the version is not what they expect. *)
Lemma smoke_never_passes_witness :
  let b := smoke_backfill_main "smoke.sqlite3" "BTCUSDT.P" "BTCUSDT" "1m" 3 (empty_smoke_db 0 0) in
  let r := smoke_rest_main "smoke.sqlite3" "BTCUSDT.P" "BTCUSDT" "1m" 3 (empty_smoke_db 0 0) in
  (sh_out (sd_shell b.2) =
     ["database=smoke.sqlite3"; "stream=BTCUSDT.P:1m"; "window=[780000, 960000)";
      "first_backfill observed=3 committed=3 duplicate=0 corrected=0 rejected=0";
      "second_backfill observed=3 committed=0 duplicate=3 corrected=0 rejected=0";
      "persistence schema_version=3 candles=3 stream_state_rows=1 latest_committed_open_time_ms=900000 quarantine_rows=0";
      "continuity_1m=PASS"; "smoke_result=FAIL"])%string ∧
  (sh_out (sd_shell r.2) =
     ["database=smoke.sqlite3"; "stream=BTCUSDT.P:1m bybit_symbol=BTCUSDT"; "window=[780000, 960000) minutes=3";
      "first_import observed=3 committed=3 duplicate=0 corrected=0 rejected=0";
      "second_import observed=3 committed=0 duplicate=3 corrected=0 rejected=0";
      "persistence schema_version=3 candles=3 stream_state_rows=1 latest_committed_open_time_ms=900000 quarantine_rows=0";
      "error_wrong_symbol=typed:BybitApiError"; "error_empty_payload=typed:BybitPayloadError";
      "error_invalid_candle=classification:rejected_invalid issues:invalid_ohlc quarantined=1";
      "smoke_result=FAIL"])%string ∧ b.1 = Ok 1 ∧ r.1 = Ok 1 ∧ says_fail b ∧ says_fail r.
Proof.
  split; [vm_compute; reflexivity|]. split; [vm_compute; reflexivity|].
  do 2 (split; [vm_compute; reflexivity|]). apply smoke_never_passes.
Defined.
