(* ===== verification/FakeBybit.v ===== *)
(** * The fake exchange of the container smoke

    FakeBybitRest of scripts/container_production_runtime_smoke.py: what its handler answers to the
    requests of the REST adapter (BybitRest.v).  The query the adapter encodes is the query the
    handler decodes, and the klines it answers are those of an exchange that has every bar since
    its launch ([HonestExchange] of Progress.v), so that the service in the container catches up. *)

From S2P Require Import Prefetch Schema Http BybitWebSocket SqliteRefinement Service Commands Smoke BackfillProgress SmokeProgress.
From S2P Require Import Prelude PyStr DecimalValues Timeframes Identity Gaps Candles StreamState.
From S2P Require Import Instruments OpenInterest Storage AbsStore Ingest ImportWindow UseCase LowerBound Repair.
From S2P Require Import OpenInterestTrack RealtimeFacts Supervisor Continuity LifecycleUpdate RealtimeRecovery.
From S2P Require Import RuntimeStatus PyFloat RecoveryWorker Reconciliation HistoricalWorker Progress CatchUp.
From S2P Require Import Json BybitRest.

(** ** The handler *)

Definition DAY_MS : Z := 86400000.
Definition INTERVAL_MS : list (string * Z) :=
  [("5", 300000); ("60", 3600000); ("240", 14400000); ("D", DAY_MS)]%string.

Definition dict_get {A} (name : string) (d : list (string * A)) : res A :=
  match List.find (λ kv, bool_decide (kv.1 = name)) d with
  | Some kv => mret kv.2
  | None => raise ExcKeyError (repr name)
  end.

(** [parse_qs(query)], which keeps no blank values, as its pairs in order. *)
Definition parse_qs (query : string) : list (string * string) :=
  List.filter (λ kv, negb (bool_decide (kv.2 = EmptyString))) (parse_qsl query).

(** [int(query[name][0])] *)
Definition query_int (query : list (string * string)) (name : string) : res Z :=
  value ← dict_get name query;
  json_int (JStr value).

(** [_instrument_payload] *)
Definition instrument_payload (launch_time_ms : Z) (symbol : string) : json_object :=
  [("retCode", JInt 0); ("retMsg", JStr "OK");
   ("result", JObj [("list", JArr [JObj [("symbol", JStr symbol); ("contractType", JStr "LinearPerpetual");
      ("status", JStr "Trading"); ("settleCoin", JStr "USDT"); ("launchTime", JStr (str_of_Z launch_time_ms))]])])]%string.

Definition kline_row (open_ms : Z) : json :=
  JArr [JStr (str_of_Z open_ms); JStr "100"; JStr "101"; JStr "99"; JStr "100.5"; JStr "10"; JStr "1000"]%string.

(** [rows[:limit]] *)
Definition slice_to {A} (limit : Z) (l : list A) : list A :=
  take (if 0 <=? limit then Z.to_nat limit else (length l - Z.to_nat (- limit))%nat) l.

(** [_kline_payload] *)
Definition kline_payload (launch_time_ms : Z) (query : list (string * string)) : res json_object :=
  interval ← dict_get "interval" query;
  step_ms ← dict_get interval INTERVAL_MS;
  start ← query_int query "start";
  let start_ms := Z.max start launch_time_ms in
  end_ms ← query_int query "end";
  limit ← query_int query "limit";
  let first_ms := (start_ms + step_ms - 1) / step_ms * step_ms in
  let rows := rev (map kline_row (grid_points first_ms (end_ms + 1) step_ms)) in
  mret [("retCode", JInt 0); ("retMsg", JStr "OK"); ("result", JObj [("list", JArr (slice_to limit rows))])]%string.

(** [Handler.do_GET]: the payload that is sent, or [None] for 404. *)
Definition do_GET (launch_time_ms : Z) (target : string) : res (option json_object) :=
  let '(path, query_text) := urlsplit target in
  let query := parse_qs query_text in
  if endswith path "/v5/market/instruments-info" then
    symbol ← dict_get "symbol" query;
    mret (Some (instrument_payload launch_time_ms symbol))
  else if endswith path "/v5/market/kline" then Some <$> kline_payload launch_time_ms query
  else mret None.

(** The launch of the fake exchange: the day before the current one. *)
Definition fake_launch_time_ms (now_ms : Z) : Z := (now_ms / DAY_MS - 1) * DAY_MS.

Definition strip_prefix (prefix s : string) : option string :=
  let p := chars prefix in
  if bool_decide (take (length p) (chars s) = p) then Some (text (drop (length p) (chars s))) else None.

(** The transport of the adapter when the server at [base] is the fake: JSON is read back as it was
    written, and a handler that raises closes the connection. *)
Definition fake_transport (base : string) (launch_time_ms : Z) : Transport := λ _ url ps _,
  let failed shown := ("GET " +:+ url +:+ "?" +:+ urlencode ps +:+ " failed: " +:+ shown)%string in
  match strip_prefix base url with
  | None => inr (HttpError (failed "<urlopen error [Errno 111] Connection refused>") None None)
  | Some path =>
      match do_GET launch_time_ms (path +:+ "?" +:+ urlencode ps)%string with
      | Ok (Some payload) => inl payload
      | Ok None => inr (HttpError (failed "HTTP Error 404: Not Found") (Some 404) None)
      | Raise _ => inr (OtherExn (Exn (ExcForeign "RemoteDisconnected" true)
                                    "Remote end closed connection without response"))
      end
  end.

(** [FakeBybitWebSocket._handle] on one message: the answer it sends, and whether it returns. *)
Definition ws_handle (message : json) : res (option json * bool) :=
  match message with
  | JObj payload =>
      let operation := json_get_null payload "op" in
      known ← json_in_strs operation ["subscribe"; "unsubscribe"]%string;
      if negb known then mret (None, false)
      else
        let topics := match json_get payload "args" with Some v => v | None => JArr [] end in
        mret (Some (JObj [("success", JBool true); ("op", operation); ("req_id", json_get_null payload "req_id");
                          ("data", JObj [("successTopics", topics)])]%string),
              json_eq_str operation "unsubscribe")
  | _ => raise (ExcForeign "AttributeError" false) ("'" +:+ json_type message +:+ "' object has no attribute 'get'")
  end.

(** What [json.loads] makes of a message of the service (protocol.py). *)
Definition op_payload (op request_id : string) (topics : list string) : json :=
  JObj [("req_id", JStr request_id); ("op", JStr op); ("args", JArr (map JStr topics))]%string.

(** A subscription is confirmed with its topics. *)
Lemma ws_subscription_confirmed request_id names m t :
  ∃ answer, ws_handle (op_payload "subscribe" request_id names) = Ok (Some answer, false) ∧
    parse_message (Some answer) m t = Ok [SubscriptionConfirmed names t].
Proof.
  assert (Hs : json_strings (map JStr names) = Some names) by (induction names as [|n names IH]; [done|]; cbn; by rewrite IH).
  eexists. split; [reflexivity|].
  change (parse_message (Some ?answer) m t) with (Ok [SubscriptionConfirmed
    match json_strings (map JStr names) with Some names => names | None => topics m end t]). by rewrite Hs.
Qed.

(** ** The query arrives *)

Definition quoted_char (c : Ascii.ascii) : bool := is_alnum c || existsb (Ascii.eqb c) (chars "_.-~+%").

(** What quoting does to one character. *)
Definition quote_ok (c : Ascii.ascii) : bool :=
  forallb quoted_char (quote_char c) &&
  match quote_char c with
  | [x] => if Ascii.eqb x plus then Ascii.eqb c (chr 32) else Ascii.eqb x c && negb (Ascii.eqb x percent)
  | [x; h; l] => Ascii.eqb x percent && negb (Ascii.eqb h plus) && negb (Ascii.eqb l plus) &&
      match hex_value h, hex_value l with Some a, Some b => Ascii.eqb (chr (16 * a + b)) c | _, _ => false end
  | _ => false
  end.

Lemma quote_char_ok c : quote_ok c = true.
Proof. destruct c as [[|] [|] [|] [|] [|] [|] [|] [|]]; vm_compute; reflexivity. Qed.

Lemma quote_char_chars c : Forall (λ x, quoted_char x = true) (quote_char c).
Proof.
  pose proof (quote_char_ok c) as H. unfold quote_ok in H. apply andb_prop in H as [H _].
  apply Forall_forall. intros x Hx. rewrite forallb_forall in H. by apply H, list_elem_of_In.
Qed.

Lemma quote_plus_chars s : Forall (λ x, quoted_char x = true) (chars (quote_plus s)).
Proof.
  unfold quote_plus. rewrite chars_text. induction (chars s) as [|c l IH]; cbn [flat_map]; [constructor|].
  apply Forall_app. split; [apply quote_char_chars|done].
Qed.

Definition blanked (c : Ascii.ascii) : Ascii.ascii := if Ascii.eqb c plus then chr 32 else c.

(** A character after an escape is read again. *)
Lemma unquote_plain c l : Ascii.eqb c percent = false → unquote_chars (c :: l) = c :: unquote_chars l.
Proof. intros Hc. destruct l as [|x [|y l]]; cbn [unquote_chars]; [done..|]. by rewrite Hc. Qed.

Lemma unquote_quoted c l : unquote_chars (map blanked (quote_char c) ++ l) = c :: unquote_chars l.
Proof.
  pose proof (quote_char_ok c) as H. unfold quote_ok in H. apply andb_prop in H as [_ H].
  destruct (quote_char c) as [|x [|h [|d [|? ?]]]]; try done; cbn [map app]; unfold blanked.
  - destruct (Ascii.eqb x plus) eqn:Hx.
    + apply Ascii.eqb_eq in H as ->. by apply unquote_plain.
    + apply andb_prop in H as [->%Ascii.eqb_eq H%negb_true_iff]. by apply unquote_plain.
  - apply andb_prop in H as [H Hv]. apply andb_prop in H as [H Hd%negb_true_iff]. apply andb_prop in H as [Hx Hh%negb_true_iff].
    rewrite Hh, Hd. apply Ascii.eqb_eq in Hx as ->. replace (Ascii.eqb percent plus) with false by (vm_compute; reflexivity).
    cbn [unquote_chars]. rewrite Ascii.eqb_refl. destruct (hex_value h) as [a|]; [|done]. destruct (hex_value d) as [b|]; [|done].
    cbn. by apply Ascii.eqb_eq in Hv as ->.
Qed.

Lemma unquote_quote_plus s : unquote (plus_to_blank (quote_plus s)) = s.
Proof.
  unfold unquote, plus_to_blank, quote_plus. rewrite !chars_text. rewrite <- (text_chars s) at 2. f_equal.
  fold blanked. induction (chars s) as [|c l IH]; [done|]. cbn [flat_map]. by rewrite map_app, unquote_quoted, IH.
Qed.

(** No separator is left in a quoted text. *)
Lemma quoted_no c l : Forall (λ x, quoted_char x = true) l → quoted_char c = false → Forall (λ x, Ascii.eqb x c = false) l.
Proof.
  intros Hl Hc. eapply Forall_impl; [exact Hl|]. cbn. intros x Hx. apply Ascii.eqb_neq. intros ->. by rewrite Hx in Hc.
Qed.

Lemma split_at_none c word l r :
  Forall (λ x, Ascii.eqb x c = false) l → split_at c word (l ++ c :: r) = text (rev word ++ l) :: split_at c [] r.
Proof.
  intros Hl. revert word. induction Hl as [|x l Hx Hl IH]; intros word; cbn [app split_at].
  - by rewrite Ascii.eqb_refl, app_nil_r.
  - rewrite Hx, IH. cbn [rev]. by rewrite <- app_assoc.
Qed.

Lemma split_at_end c word l : Forall (λ x, Ascii.eqb x c = false) l → split_at c word l = [text (rev word ++ l)].
Proof.
  intros Hl. revert word. induction Hl as [|x l Hx Hl IH]; intros word; cbn [app split_at]; [by rewrite app_nil_r|].
  rewrite Hx, IH. cbn [rev]. by rewrite <- app_assoc.
Qed.

Lemma split_join c (sep : string) l :
  chars sep = [c] → Forall (λ s, Forall (λ x, Ascii.eqb x c = false) (chars s)) l → l ≠ [] →
  split_char c (join sep l) = l.
Proof.
  intros Hsep Hl Hne. unfold split_char. induction Hl as [|s l Hs Hl IH]; [done|]. destruct l as [|s' l].
  - cbn [join]. rewrite split_at_end by done. cbn. by rewrite text_chars.
  - change (join sep (s :: s' :: l)) with (s +:+ sep +:+ join sep (s' :: l))%string. rewrite !chars_app, Hsep. cbn [app].
    rewrite split_at_none by done. cbn [rev app]. rewrite text_chars. f_equal. by apply IH.
Qed.

Definition query_pair (kv : string * param) : string := quote_plus kv.1 +:+ "=" +:+ quote_plus (param_text kv.2).

(** The pairs of an encoded query are its parameters as text. *)
Lemma parse_urlencode ps :
  ps ≠ [] → parse_qsl (urlencode ps) = map (λ kv, (kv.1, param_text kv.2)) ps.
Proof.
  intros Hne. unfold parse_qsl, urlencode. fold query_pair. rewrite (split_join (chr 38)).
  - induction ps as [|[n v] ps IH]; [done|]. cbn [map omap list_omap].
    assert (Hpair : ∃ c l, chars (query_pair (n, v)) = c :: l).
    { unfold query_pair. cbn [fst snd]. rewrite !chars_app. destruct (chars (quote_plus n)); by eexists _, _. }
    destruct Hpair as (c & l & Hpair). rewrite bool_decide_false by (intros H; by rewrite H in Hpair).
    unfold query_pair at 1. cbn [fst snd]. rewrite !chars_app. change (chars "=") with [chr 61]. cbn [app].
    rewrite cut_at by (apply quoted_no; [apply quote_plus_chars|vm_compute; reflexivity]). cbn [default].
    unfold id. rewrite !text_chars, !unquote_quote_plus. cbn [map fst snd]. destruct ps as [|p ps]; [done|]. by rewrite <- IH.
  - done.
  - apply Forall_fmap, Forall_forall. intros [n v] _. cbn. unfold query_pair. cbn [fst snd]. rewrite !chars_app.
    apply Forall_app. split; [apply quoted_no; [apply quote_plus_chars|vm_compute; reflexivity]|].
    apply Forall_app. split; [by repeat constructor|apply quoted_no; [apply quote_plus_chars|vm_compute; reflexivity]].
  - by destruct ps.
Qed.

Lemma parse_qs_urlencode ps :
  ps ≠ [] → Forall (λ kv, param_text kv.2 ≠ EmptyString) ps →
  parse_qs (urlencode ps) = map (λ kv, (kv.1, param_text kv.2)) ps.
Proof.
  intros Hne HF. unfold parse_qs. rewrite parse_urlencode by done. clear Hne.
  induction HF as [|[n v] ps Hv HF IH]; [done|]. cbn [map List.filter fst snd] in *.
  by rewrite bool_decide_false, IH.
Qed.

(** ** The klines *)

(** The candle of a bar as the adapter reads it at a time. *)
Definition fake_values : Ohlcv :=
  mkOhlcv (mkDec false 100 0) (mkDec false 101 0) (mkDec false 99 0) (mkDec false 1005 (-1)) (mkDec false 10 0).
Definition fake_candle (k : StreamKey) (observed_at_ms open_time_ms : Z) : ObservedCandle :=
  mkObservedCandle k open_time_ms (open_time_ms + stream_step k - 1) fake_values
    (open_time_ms + stream_step k - 1 <? observed_at_ms) observed_at_ms BYBIT_REST.

Lemma parse_fake_row k t u : parse_kline_row k t (stream_step k) (kline_row u) = Ok (fake_candle k t u).
Proof.
  unfold parse_kline_row, kline_row, json_int. rewrite py_int_str_of_Z. cbn [reraise mbind res_bind].
  unfold ObservedCandle_new. reflexivity.
Qed.

Lemma dict_get_here {A} name (v : A) d : dict_get name ((name, v) :: d) = Ok v.
Proof. unfold dict_get. cbn [List.find fst]. by rewrite bool_decide_true. Qed.

Lemma dict_get_there {A} name name' (v : A) d : name' ≠ name → dict_get name ((name', v) :: d) = dict_get name d.
Proof. intros Hn. unfold dict_get. cbn [List.find fst]. by rewrite bool_decide_false. Qed.

Lemma slice_to_all {A} limit (l : list A) : Z.of_nat (length l) ≤ limit → slice_to limit l = l.
Proof. intros H. unfold slice_to. rewrite (proj2 (Z.leb_le 0 limit)) by lia. apply take_ge. lia. Qed.

(** The timeframes the fake serves. *)
Definition served (k : StreamKey) : bool := bool_decide (timeframe k ∈ [TF_5m; TF_1h; TF_4h; TF_1d]).

Lemma served_interval k : served k = true → dict_get (bybit_interval (timeframe k)) INTERVAL_MS = Ok (stream_step k).
Proof. unfold served, stream_step. by destruct (timeframe k). Qed.

Definition kline_params (category symbol interval : string) (start end_ limit : Z) : params :=
  [("category", PStr category); ("symbol", PStr symbol); ("interval", PStr interval);
   ("start", PInt start); ("end", PInt end_); ("limit", PInt limit)]%string.

Lemma str_of_Z_nonblank z : str_of_Z z ≠ EmptyString.
Proof. intros H. pose proof (py_int_str_of_Z z) as Hz. by rewrite H in Hz. Qed.

Definition kline_answer (rows : list json) : json_object :=
  [("retCode", JInt 0); ("retMsg", JStr "OK"); ("result", JObj [("list", JArr rows)])]%string.

Lemma first_bar_aligned start step : 0 < step → on_grid step start → (start + step - 1) / step * step = start.
Proof.
  unfold on_grid. intros Hs Hg. pose proof (Z.div_mod start step ltac:(lia)) as Hd.
  replace (start + step - 1) with (step - 1 + (start / step) * step) by lia.
  rewrite Z.div_add, (Z.div_small (step - 1)) by lia. lia.
Qed.

Lemma kline_payload_rows launch category symbol k w limit :
  served k = true → category ≠ EmptyString → symbol ≠ EmptyString → window_wf w →
  on_grid (stream_step k) (start_ms w) → on_grid (stream_step k) (end_ms w) → launch ≤ start_ms w →
  (end_ms w - start_ms w) / stream_step k ≤ limit →
  kline_payload launch (parse_qs (urlencode (kline_params category symbol (bybit_interval (timeframe k))
      (start_ms w) (end_ms w - 1) limit))) =
    Ok (kline_answer (map kline_row (rev (grid_points (start_ms w) (end_ms w) (stream_step k))))).
Proof.
  intros Hk Hc Hs Hw Hgs Hge Hl Hlim. pose proof (stream_step_pos k) as Hstep. unfold window_wf in Hw.
  rewrite parse_qs_urlencode; [|done|].
  2:{ repeat constructor; cbn [snd param_text]; [done|done| |apply str_of_Z_nonblank..]. by destruct (timeframe k). }
  unfold kline_payload, kline_params. cbn [map fst snd param_text]. cbv zeta.
  rewrite !dict_get_there, dict_get_here by done. cbn [mbind res_bind].
  rewrite served_interval by done. cbn [mbind res_bind]. unfold query_int.
  rewrite !dict_get_there, dict_get_here by done. cbn [mbind res_bind]. unfold json_int. rewrite py_int_str_of_Z.
  cbn [mbind res_bind]. rewrite !dict_get_there, dict_get_here by done. cbn [mbind res_bind]. rewrite py_int_str_of_Z.
  cbn [mbind res_bind]. rewrite !dict_get_there, dict_get_here by done. cbn [mbind res_bind]. rewrite py_int_str_of_Z.
  cbn [mbind res_bind]. rewrite Z.max_l, first_bar_aligned by done. replace (end_ms w - 1 + 1) with (end_ms w) by lia.
  unfold kline_answer. rewrite map_rev, slice_to_all; [done|].
  rewrite length_rev, length_map, grid_points_length by (done || lia). lia.
Qed.

(** ** The request arrives *)


Lemma strip_prefix_app base path : strip_prefix base (base +:+ path) = Some path.
Proof.
  unfold strip_prefix. cbv zeta. rewrite chars_app, take_app_length, drop_app_length.
  by rewrite bool_decide_true, text_chars.
Qed.

Lemma endpoint_app cfg path : endpoint cfg path = (endpoint cfg EmptyString +:+ path)%string.
Proof.
  unfold endpoint. set (b := text _). rewrite <- (text_chars (b +:+ path)), <- (text_chars ((b +:+ EmptyString) +:+ path)).
  f_equal. rewrite !chars_app. cbn. by rewrite app_nil_r.
Qed.

Lemma urlencode_no c ps :
  quoted_char c = false → c ≠ chr 38 → c ≠ chr 61 → Forall (λ x, Ascii.eqb x c = false) (chars (urlencode ps)).
Proof.
  intros Hc H1 H2. unfold urlencode. fold query_pair.
  assert (Hp : ∀ kv, Forall (λ x, Ascii.eqb x c = false) (chars (query_pair kv))).
  { intros kv. unfold query_pair. rewrite !chars_app. apply Forall_app. split; [apply quoted_no; [apply quote_plus_chars|done]|].
    apply Forall_app. split; [|apply quoted_no; [apply quote_plus_chars|done]].
    change (chars "=") with [chr 61]. repeat constructor. apply Ascii.eqb_neq. congruence. }
  induction ps as [|kv ps IH]; [constructor|]. destruct ps as [|kv' ps]; [apply Hp|].
  change (join "&" (map query_pair (kv :: kv' :: ps)))
    with (query_pair kv +:+ "&" +:+ join "&" (map query_pair (kv' :: ps)))%string.
  rewrite !chars_app. apply Forall_app. split; [apply Hp|]. apply Forall_app. split; [|exact IH].
  change (chars "&") with [chr 38]. repeat constructor. apply Ascii.eqb_neq. congruence.
Qed.

(** A path without a question mark and a fragment is found again before the query. *)
Definition plain_path (path : string) : Prop :=
  Forall (λ x, Ascii.eqb x (chr 35) = false ∧ Ascii.eqb x (chr 63) = false) (chars path).

Lemma urlsplit_query path ps : plain_path path → urlsplit (path +:+ "?" +:+ urlencode ps) = (path, urlencode ps).
Proof.
  intros Hp. unfold urlsplit. rewrite !chars_app. change (chars "?") with [chr 63].
  rewrite cut_none.
  - cbn [app]. rewrite cut_at by (eapply Forall_impl; [exact Hp|]; by intros x [_ ?]). cbn [default id].
    unfold id. by rewrite !text_chars.
  - apply Forall_app. split; [eapply Forall_impl; [exact Hp|]; by intros x [? _]|]. apply Forall_app.
    split; [by repeat constructor|]. by apply urlencode_no.
Qed.

(** The adapter's request for klines reaches the payload. *)
Lemma fake_transport_klines cfg launch attempt ps timeout :
  fake_transport (endpoint cfg EmptyString) launch attempt (endpoint cfg "/v5/market/kline") ps timeout =
    match kline_payload launch (parse_qs (urlencode ps)) with
    | Ok payload => inl payload
    | Raise _ => inr (OtherExn (Exn (ExcForeign "RemoteDisconnected" true)
                                  "Remote end closed connection without response"))
    end.
Proof.
  unfold fake_transport. rewrite (endpoint_app cfg "/v5/market/kline"), strip_prefix_app. unfold do_GET.
  rewrite urlsplit_query by (by repeat constructor).
  assert (endswith "/v5/market/kline" "/v5/market/instruments-info" = false) as -> by (vm_compute; reflexivity).
  assert (endswith "/v5/market/kline" "/v5/market/kline" = true) as -> by (vm_compute; reflexivity).
  by destruct (kline_payload _ _).
Qed.

Lemma retry_loop_first cfg transport random n attempt url ps payload attempts :
  transport (Z.to_nat attempt) url ps (rs_timeout_seconds cfg) = inl payload →
  retry_loop cfg transport random attempts (S n) attempt url ps = (Ok payload, []).
Proof. intros H. cbn [retry_loop]. by rewrite H. Qed.

(** The configuration the service runs the adapter with. *)
Record fake_config (cfg : RestConfig) (k : StreamKey) : Prop := {
  fc_served : served k = true;
  fc_category : rs_category cfg ≠ EmptyString;
  fc_symbol : ∃ symbol, rs_exchange_symbols cfg !! ticker (instrument k) = Some symbol ∧ symbol ≠ EmptyString
}.

Lemma fetch_from_fake cfg launch random k w t :
  fake_config cfg k → fetchable (stream_step k) launch (end_ms w) w →
  fetch_closed_candles cfg (fake_transport (endpoint cfg EmptyString) launch) random k w t =
    (parse_kline_rows (map kline_row (rev (grid_points (start_ms w) (end_ms w) (stream_step k)))) k w t, []).
Proof.
  intros [Hk Hc (symbol & Hsym & Hs)] [Hwf Hgs Hge Hl _ Hsize]. pose proof (stream_step_pos k) as Hstep.
  unfold window_wf in Hwf. unfold fetch_closed_candles, with_symbol, exchange_symbol_for_instrument. rewrite Hsym. cbv zeta.
  assert (Hrows : (end_ms w - start_ms w) / stream_step k ≤ 1000) by (apply Z.div_le_upper_bound; lia).
  unfold window_duration_ms. rewrite (proj2 (Z.ltb_ge 1000 _)) by lia.
  unfold get_market_rows, get_json_with_retry. set (attempts := Z.max 1 _).
  assert (∃ n, Z.to_nat attempts = S n) as [n ->] by (exists (Z.to_nat attempts - 1)%nat; lia).
  rewrite (retry_loop_first _ _ _ n 1 _ _ (kline_answer (map kline_row (rev (grid_points (start_ms w) (end_ms w) (stream_step k)))))).
  - done.
  - rewrite fake_transport_klines. fold (kline_params (rs_category cfg) symbol (bybit_interval (timeframe k)) (start_ms w)
      (end_ms w - 1) (Z.max 1 ((end_ms w - start_ms w) / stream_step k))).
    by rewrite kline_payload_rows by (done || lia).
Qed.

(** ** What the adapter gets *)

Lemma parse_fake_rows k t l :
  mapM (parse_kline_row k t (stream_step k)) (map kline_row l) = Ok (map (fake_candle k t) l).
Proof.
  induction l as [|u l IH]; [done|]. change (mapM ?f (map ?g (u :: l))) with (y ← f (g u); ys ← mapM f (map g l); mret (y :: ys)).
  by rewrite parse_fake_row, IH.
Qed.

(** The values the adapter reads from a fake answer: one candle for each bar of the window. *)
Lemma fake_rows_candles k w t :
  window_wf w → on_grid (stream_step k) (start_ms w) → on_grid (stream_step k) (end_ms w) →
  ∃ l, parse_kline_rows (map kline_row (rev (grid_points (start_ms w) (end_ms w) (stream_step k)))) k w t = Ok l ∧
    StronglySorted Z.lt (map oc_open_time_ms l) ∧
    ∀ c, c ∈ l ↔ ∃ u, on_grid (stream_step k) u ∧ window_contains w u = true ∧ c = fake_candle k t u.
Proof.
  intros Hwf Hs He. pose proof (stream_step_pos k) as Hstep. unfold parse_kline_rows. cbv zeta.
  rewrite parse_fake_rows. cbn [mbind res_bind].
  set (points := rev _). eexists. split; [reflexivity|].
  destruct (sorted_values_exact oc_open_time_ms (λ c, window_contains w (oc_open_time_ms c)) (map (fake_candle k t) points))
    as [Hsorted Hl].
  split; [exact Hsorted|]. intros c. rewrite Hl.
  assert (Hpoints : ∀ u, u ∈ points ↔ on_grid (stream_step k) u ∧ window_contains w u = true).
  { intros u. unfold points. rewrite window_contains_spec, <- grid_points_elem by done.
    by rewrite !list_elem_of_In, <- in_rev. }
  split.
  - intros (l1 & l2 & Heq & Hc & _). assert (Hin : c ∈ map (fake_candle k t) points) by (rewrite Heq; set_solver).
    apply list_elem_of_fmap in Hin as (u & -> & Hu). exists u. apply Hpoints in Hu as [? ?]. done.
  - intros (u & Hg & Hc & ->). assert (Hu : u ∈ points) by (by apply Hpoints).
    apply list_elem_of_split in Hu as (p1 & p2 & Heq). exists (map (fake_candle k t) p1), (map (fake_candle k t) p2).
    split; [by rewrite Heq, map_app|]. split; [done|]. intros y (v & -> & Hv)%list_elem_of_fmap _. cbn.
    intros ->. assert (Hnd : NoDup points).
    { unfold points. rewrite <- Permutation_rev. by apply grid_points_NoDup. }
    rewrite Heq in Hnd. apply NoDup_app in Hnd as (_ & _ & Hnd). by apply NoDup_cons in Hnd as [? _].
Qed.

Lemma fake_candle_valid k t u :
  0 ≤ u → on_grid (stream_step k) u → validate_observed_candle (fake_candle k t u) = [] ↔ u + stream_step k ≤ t.
Proof.
  intros H0 Hg. rewrite validate_nil. cbn [fake_candle oc_confirmed oc_stream oc_open_time_ms oc_close_time_ms oc_values].
  split; [intros [H%Z.ltb_lt _]; lia|]. intros H. split; [apply Z.ltb_lt; lia|]. split; [done|]. by split_and!; vm_compute.
Qed.

Lemma fake_honest cfg clock launch random cache include_current k lo hi c0 :
  fake_config cfg k → 0 ≤ launch → launch ≤ lo → (∀ n, hi ≤ clock n) →
  HonestExchange (E:=bybit_env cfg clock (λ _, fake_transport (endpoint cfg EmptyString) launch) random cache include_current)
    k lo hi c0.
Proof.
  intros Hcfg H0 Hlo Hhi c w n _ Hw. cbn [env_fetch_closed_candles env_clock bybit_env].
  assert (Hw' : fetchable (stream_step k) launch (end_ms w) w) by (destruct Hw; split; (done || lia)).
  rewrite (fetch_from_fake cfg launch (random c) k w (clock n) Hcfg Hw'). destruct Hw as [Hwf Hs He Hlo' Hhi' _].
  destruct (fake_rows_candles k w (clock n) Hwf Hs He) as (l & Hl & _ & Hin). exists l. split; [exact Hl|]. split.
  - apply parse_kline_rows_ok in Hl as (_ & _ & _ & HF & _). eapply Forall_impl; [exact HF|]. by intros cd (_ & _ & _ & _ & _ & _ & ?).
  - intros u Hu Hc. exists (fake_candle k (clock n) u). split; [apply Hin; by exists u|]. do 2 (split; [done|]).
    apply window_contains_spec in Hc. specialize (Hhi n). pose proof (Z_mod_mult_between u (end_ms w) (stream_step k) (stream_step_pos k) Hu He ltac:(lia)).
    apply fake_candle_valid; [lia|done|lia].
Qed.

(** ** Properties *)

(** The fake exchange serves the REST adapter.  For a stream of a timeframe it knows, the adapter's
    encoded request for a window since the launch that one request can cover is decoded by the
    handler, answered in one attempt without a pause, and read back as exactly one candle for each
    bar of the window, in the order of time; those whose bar had closed pass the validation, the
    others do not. *)
Theorem fake_exchange_serves cfg launch random k w t :
  fake_config cfg k → 0 ≤ launch → fetchable (stream_step k) launch (end_ms w) w →
  ∃ l, fetch_closed_candles cfg (fake_transport (endpoint cfg EmptyString) launch) random k w t = (Ok l, []) ∧
    StronglySorted Z.lt (map oc_open_time_ms l) ∧
    (∀ c, c ∈ l ↔ ∃ u, on_grid (stream_step k) u ∧ window_contains w u = true ∧ c = fake_candle k t u) ∧
    (∀ c, c ∈ l → validate_observed_candle c = [] ↔ oc_open_time_ms c + stream_step k ≤ t).
Proof.
  intros Hcfg H0 Hw. rewrite (fetch_from_fake cfg launch random k w t Hcfg Hw). destruct Hw as [Hwf Hs He Hlo _ _].
  destruct (fake_rows_candles k w t Hwf Hs He) as (l & -> & Hsorted & Hin). exists l. split; [done|]. split; [done|].
  split; [done|]. intros c (u & Hg & Hu%window_contains_spec & ->)%Hin. cbn [oc_open_time_ms fake_candle].
  apply fake_candle_valid; [lia|done].
Qed.

(** C21. The service of the container smoke catches up.  Over the REST adapter and the fake exchange, a
    registered stream that startup left incomplete is handed over by the historical worker after
    at most [missing / budget + 1] iterations, with every bar of its window stored, when the window
    lies between the launch and the clock: a composition of the fake handler, the transport's
    encoding, the adapter, the import, the repair, the reconciliation pass and the worker. *)
Theorem container_service_catches_up cfg clock launch random cache include_current (k : StreamKey)
    (w : ReconciliationWindow) (lower_bound : LowerBoundResolver) (discovery_windows repair_windows : Z)
    (open_interest : option (StreamKey → option ReconciliationWindow → M StartupStreamOutcome))
    (oi_streams : list StreamKey) (worker : HistoricalConfig) (o : StartupStreamOutcome)
    (times : list (float * float)) (a : AbsStore) (n c : nat) :
  fake_config cfg k → 0 ≤ launch → launch ≤ rw_start_time_ms w → rw_start_time_ms w < rw_end_time_ms w →
  on_grid (stream_step k) (rw_start_time_ms w) → on_grid (stream_step k) (rw_end_time_ms w) →
  (∀ i, rw_end_time_ms w ≤ clock i) → store_inv a → is_Some (ab_streams a !! k) →
  0 < repair_windows → open_interest = None ∨ k ∉ oi_streams →
  su_stream o = k → su_window o = Some w → unsettled o = true →
  marker_fresh (missing_in k w a) (su_progress_marker o) →
  Forall (λ t, fgt (float_of_Z 0) t.1 = false) times →
  missing_in k w a / repair_windows < Z.of_nat (length times) →
  let env := bybit_env cfg clock (λ _, fake_transport (endpoint cfg EmptyString) launch) random cache include_current in
  caught_up k w (worker_iterations (E:=env) worker
    (reconcile lower_bound (wired_repair 1000) discovery_windows repair_windows open_interest oi_streams)
    times (HistoricalWorker_new [o]) (mkWorld a None n c)).
Proof.
  intros Hcfg H0 Hlo Hlt Hs He Hclock Hi [r Hr] Hrw Hoi Ho Hwin Hun Hfresh HF Hn env.
  assert (Hc : ClockOk (E:=env)) by (intros i; cbn; specialize (Hclock i); lia).
  pose proof (fake_honest cfg clock launch random cache include_current k (rw_start_time_ms w) (rw_end_time_ms w) c
    Hcfg H0 Hlo Hclock) as Hh.
  assert (Hw : window_ok k (rw_start_time_ms w) (rw_end_time_ms w) w) by (split; (done || lia)).
  assert (Hv : stage k c a (ss_state (sr_state r)) (mkWorld a None n c)).
  { split; cbn; [done|by apply good_refl|by exists r|lia]. }
  unfold HistoricalWorker_new. rewrite filter_cons_True by done. cbn [map]. rewrite Ho, Hwin.
  by apply (iterations_catch_up (E:=env) k (rw_start_time_ms w) (rw_end_time_ms w) c) with (a0 := a) (st := ss_state (sr_state r)).
Qed.

(** ** Witnesses *)

Definition fake_stream : StreamKey := mkStreamKey (mkInstrumentKey "BTCUSDT.P") TF_5m.
Definition fake_rest : RestConfig := default_rest {["BTCUSDT.P"%string := "BTCUSDT"%string]}.
Definition no_random : nat → float := λ _, float_of_Z 0.

Lemma fake_rest_config : fake_config fake_rest fake_stream.
Proof. split; [vm_compute; reflexivity|done|]. exists "BTCUSDT"%string. split; [vm_compute; reflexivity|done]. Qed.

(** The third bar of the window is still open. *)
Lemma fake_exchange_serves_witness :
  let w := mkTimeWindow 600000 1500000 in
  let p := fetch_closed_candles fake_rest (fake_transport (endpoint fake_rest EmptyString) 0) no_random fake_stream w 1300000 in
  (map (λ c, (oc_open_time_ms c, oc_confirmed c)) <$> p.1 = Ok [(600000, true); (900000, true); (1200000, false)]) ∧
  ∃ l, p = (Ok l, []) ∧ StronglySorted Z.lt (map oc_open_time_ms l) ∧
    (∀ c, c ∈ l ↔ ∃ u, on_grid (stream_step fake_stream) u ∧ window_contains w u = true ∧ c = fake_candle fake_stream 1300000 u) ∧
    (∀ c, c ∈ l → validate_observed_candle c = [] ↔ oc_open_time_ms c + stream_step fake_stream ≤ 1300000).
Proof.
  intros w p. split; [vm_compute; reflexivity|].
  apply (fake_exchange_serves fake_rest 0 no_random fake_stream w 1300000); [exact fake_rest_config|lia|].
  split; try (vm_compute; reflexivity); vm_compute; discriminate.
Defined.

Lemma new_stream_inv k symbol now :
  0 ≤ now → ticker (instrument k) ≠ EmptyString → symbol ≠ EmptyString → store_inv (new_stream k symbol now).
Proof.
  intros Hn H1 H2. pose proof (register_empty k symbol now H1 H2) as Hreg.
  apply abs_register_prepared in Hreg as (Hi & _ & _); [done|done|].
  intros k' r' H. cbn in H. by apply lookup_empty_Some in H.
Qed.

(** Four bars are missing and a pass imports the one window: one pass. *)
Lemma container_service_catches_up_witness :
  let w := mkReconciliationWindow 600000 1800000 in
  let a := new_stream fake_stream "BTCUSDT" 5 in
  let env := bybit_env fake_rest (λ i, 2000000 + Z.of_nat i) (λ _, fake_transport (endpoint fake_rest EmptyString) 0)
               (λ _, no_random) (λ _, ∅) false in
  let o := mkStartup fake_stream START_INCOMPLETE None (Some w) (Some "historical_reconciliation_incomplete"%string)
             None None no_work in
  let p := worker_iterations (E:=env) default_historical (reconcile example_bound (wired_repair 1000) 5 1 None [])
             (catch_up_times 5) (HistoricalWorker_new [o]) (mkWorld a None 0 0) in
  p.1.2 = [HistoricalBlocking fake_stream "historical_reconciliation"; HistoricalClear fake_stream; OnComplete fake_stream] ∧
  caught_up fake_stream w p.
Proof.
  intros w a env o p. split; [vm_compute; reflexivity|].
  assert (HF : Forall (λ t : float * float, fgt (float_of_Z 0) t.1 = false) (catch_up_times 5))
    by (apply Forall_replicate; vm_compute; reflexivity).
  exact (container_service_catches_up fake_rest (λ i, 2000000 + Z.of_nat i) 0 (λ _, no_random) (λ _, ∅) false fake_stream w
    example_bound 5 1 None [] default_historical o (catch_up_times 5) a 0 0 fake_rest_config ltac:(lia) ltac:(done) ltac:(done)
    ltac:(done) ltac:(done) ltac:(intros i; cbn; lia) (new_stream_inv fake_stream "BTCUSDT" 5 ltac:(lia) ltac:(done) ltac:(done))
    ltac:(vm_compute; eexists; reflexivity) ltac:(lia) (or_introl eq_refl) eq_refl eq_refl eq_refl ltac:(done) HF
    ltac:(vm_compute; reflexivity)).
Defined.
