(* ===== verification/ContainerSmoke.v ===== *)
(** * The smoke of the production container

    scripts/container_production_runtime_smoke.py besides its fake exchange (FakeBybit.v): the
    evidence it takes from the database and compares across restarts, the contract it asserts of
    the image and of the running container, and the order of its docker commands with the cleanup
    behind them.  Docker is outside: what a command comes to is the class [Host], by the commands
    that ran before it; [json.loads] is a parameter, and what the smoke reads of a document raises
    what the subscripts of Python raise. *)

From S2P Require Import Prelude PyStr Timeframes Identity StreamState Instruments OpenInterest Storage AbsStore.
From S2P Require Import PyFloat Json Commands FakeBybit.

Definition runtime_error {A} (message : string) : res A := raise ExcRuntimeError message.

(** ** Subscripts of parsed JSON *)

Definition not_subscriptable {A} (v : json) : res A :=
  raise ExcTypeError ("'" +:+ json_type v +:+ "' object is not subscriptable").

(** [v[key]] *)
Definition json_index (v : json) (key : string) : res json :=
  match v with
  | JObj o => match json_get o key with Some x => Ok x | None => raise ExcKeyError (repr key) end
  | JArr _ => raise ExcTypeError "list indices must be integers or slices, not str"
  | JStr _ => raise ExcTypeError "string indices must be integers, not 'str'"
  | _ => not_subscriptable v
  end.

(** [v[0]] *)
Definition json_first (v : json) : res json :=
  match v with
  | JArr (x :: _) => Ok x
  | JArr [] => raise (ExcForeign "IndexError" false) "list index out of range"
  | JStr t => match chars t with
              | c :: _ => Ok (JStr (text [c]))
              | [] => raise (ExcForeign "IndexError" false) "string index out of range"
              end
  | JObj _ => raise ExcKeyError "0"
  | _ => not_subscriptable v
  end.

(** [for item in v] *)
Definition json_iter (v : json) : res (list json) :=
  match v with
  | JArr l => Ok l
  | JObj o => Ok (map (λ kv, JStr kv.1) o)
  | JStr t => Ok (map (λ c, JStr (text [c])) (chars t))
  | _ => raise ExcTypeError ("'" +:+ json_type v +:+ "' object is not iterable")
  end.

(** [bool(v)] *)
Definition json_truth (v : json) : bool :=
  match v with
  | JNull => false
  | JBool b => b
  | JInt z => negb (z =? 0)
  | JFloat x _ => ftruthy x
  | JStr t => negb (bool_decide (t = EmptyString))
  | JArr l => negb (bool_decide (length l = 0%nat))
  | JObj o => negb (bool_decide (length o = 0%nat))
  end.

(** [v == [...]] of strings *)
Fixpoint json_eq_strs (l : list json) (ts : list string) : bool :=
  match l, ts with
  | [], [] => true
  | v :: l, t :: ts => json_eq_str v t && json_eq_strs l ts
  | _, _ => false
  end.
Definition json_is_strs (v : json) (ts : list string) : bool :=
  match v with JArr l => json_eq_strs l ts | _ => false end.

(** [sep.join(v)] *)
Fixpoint str_items (i : nat) (l : list json) : res (list string) :=
  match l with
  | [] => mret []
  | JStr t :: l => ts ← str_items (S i) l; mret (t :: ts)
  | v :: _ => raise ExcTypeError ("sequence item " +:+ str_of_Z (Z.of_nat i) +:+ ": expected str instance, " +:+ json_type v +:+ " found")
  end.
Definition json_join (sep : string) (v : json) : res string :=
  match json_iter v with
  | Ok l => ts ← str_items 0 l; mret (join sep ts)
  | Raise _ => raise ExcTypeError "can only join an iterable"
  end.

(** [needle in text] *)
Fixpoint is_prefix (p l : list Ascii.ascii) : bool :=
  match p, l with
  | [], _ => true
  | x :: p, y :: l => Ascii.eqb x y && is_prefix p l
  | _ :: _, [] => false
  end.
Fixpoint contains_chars (p l : list Ascii.ascii) : bool :=
  is_prefix p l || match l with [] => false | _ :: l => contains_chars p l end.
Definition contains (needle s : string) : bool := contains_chars (chars needle) (chars s).

(** [needle in v] *)
Definition json_contains (needle : string) (v : json) : res bool :=
  match v with
  | JStr t => Ok (contains needle t)
  | JArr l => Ok (existsb (λ x, json_eq_str x needle) l)
  | JObj o => Ok (existsb (λ kv, bool_decide (kv.1 = needle)) o)
  | _ => raise ExcTypeError ("argument of type '" +:+ json_type v +:+ "' is not iterable")
  end.

(** [a or b]: [b] is only evaluated after a false [a]. *)
Definition res_or (a b : res bool) : res bool := x ← a; if x : bool then mret true else b.

Fixpoint res_map {A B} (f : A → res B) (l : list A) : res (list B) :=
  match l with
  | [] => mret []
  | x :: l => y ← f x; ys ← res_map f l; mret (y :: ys)
  end.

(** ** The evidence of the database *)

Record DurableStreamEvidence := mkDurable {
  de_earliest_open_time_ms : option Z;
  de_latest_committed_open_time_ms : option Z;
  de_last_audit_at_ms : option Z;
  de_candles : list (Z * CandleRow)
}.

Record SqliteEvidence := mkEvidence { se_schema_version : string; se_streams : list (string * DurableStreamEvidence) }.

(** The rows the probe reads: those of [candles] by open time, and the streams with their state. *)
Definition candle_rows (m : gmap Z CandleRow) : list (Z * CandleRow) :=
  omap (λ t, pair t <$> m !! t) (py_sorted (elements (dom m))).
Definition durable_evidence (r : StreamRec) : DurableStreamEvidence :=
  mkDurable (earliest_available_open_time_ms (sr_state r)) (latest_committed_open_time_ms (sr_state r))
    (last_audit_at_ms (sr_state r)) (candle_rows (sr_candles r)).
Definition key_le (x y : string * DurableStreamEvidence) : Prop := String.le x.1 y.1.
#[local] Instance key_le_dec x y : Decision (key_le x y).
Proof. unfold key_le. apply _. Defined.
Definition probe_evidence (version : string) (a : AbsStore) : SqliteEvidence :=
  mkEvidence version
    (merge_sort key_le (map (λ kr, (stream_canonical_id kr.1, durable_evidence kr.2)) (map_to_list (ab_streams a)))).

(** The document the probe prints of a database. *)
Definition column (v : option Z) : json := match v with Some z => JInt z | None => JNull end.
Definition row_document (row : Z * CandleRow) : json :=
  let r := row.2 in
  JArr [JInt row.1; JStr (cr_open r); JStr (cr_high r); JStr (cr_low r); JStr (cr_close r); JStr (cr_volume r);
        JStr (cr_source r); JInt (cr_committed_at_ms r)].
Definition stream_document (kd : string * DurableStreamEvidence) : json :=
  let d := kd.2 in
  JObj [("key", JStr kd.1); ("earliest", column (de_earliest_open_time_ms d));
        ("latest", column (de_latest_committed_open_time_ms d)); ("last_audit", column (de_last_audit_at_ms d));
        ("candles", JArr (map row_document (de_candles d)))]%string.
Definition probe_document (e : SqliteEvidence) : json :=
  JObj [("schema_version", JStr (se_schema_version e)); ("streams", JArr (map stream_document (se_streams e)))]%string.

(** A value that no column of the tables has: the smoke would carry it on to its comparisons, here the
    document is refused as malformed. *)
Definition not_a_column {A} (v : json) : res A := raise ExcTypeError ("not a column of the probe: " +:+ json_str v).
Definition read_column (v : json) : res (option Z) :=
  match v with JNull => Ok None | JInt z => Ok (Some z) | _ => not_a_column v end.
Definition read_row (v : json) : res (Z * CandleRow) :=
  match v with
  | JArr [JInt t; JStr o; JStr h; JStr l; JStr c; JStr volume; JStr source; JInt committed] =>
      Ok (t, mkCandleRow o h l c volume source committed)
  | _ => not_a_column v
  end.
Definition read_stream_key (v : json) : res string := match v with JStr k => Ok k | _ => not_a_column v end.

Definition read_stream (item : json) : res (string * DurableStreamEvidence) :=
  key ← (v ← json_index item "key"; read_stream_key v);
  earliest ← (v ← json_index item "earliest"; read_column v);
  latest ← (v ← json_index item "latest"; read_column v);
  audit ← (v ← json_index item "last_audit"; read_column v);
  candles ← (v ← json_index item "candles"; rows ← json_iter v; res_map read_row rows);
  mret (key, mkDurable earliest latest audit candles).

(** [d[key] = value]: a key that is there keeps its place. *)
Fixpoint dict_set {A} (kv : string * A) (d : list (string * A)) : list (string * A) :=
  match d with
  | [] => [kv]
  | kv' :: d => if bool_decide (kv'.1 = kv.1) then kv :: d else kv' :: dict_set kv d
  end.
Definition dict_of {A} (l : list (string * A)) : list (string * A) := foldl (λ d kv, dict_set kv d) [] l.

(** The evidence in the document that the probe printed. *)
Definition read_evidence (payload : json) : res SqliteEvidence :=
  items ← (v ← json_index payload "streams"; json_iter v);
  streams ← res_map read_stream items;
  version ← json_index payload "schema_version";
  mret (mkEvidence (json_str version) (dict_of streams)).

(** The checks of [_sqlite_evidence]. *)
Definition check_evidence (e : SqliteEvidence) : res () :=
  _ ← raise_if (bool_decide (se_streams e = []) || existsb (λ kd, bool_decide (de_candles kd.2 = [])) (se_streams e))
        ExcRuntimeError "real candle evidence is missing before restart";
  raise_if (existsb (λ kd, bool_decide (de_latest_committed_open_time_ms kd.2 = None)
                           || bool_decide (de_last_audit_at_ms kd.2 = None)) (se_streams e))
    ExcRuntimeError "durable stream progress evidence is missing before restart".

(** [_assert_progress_not_lower] *)
Definition assert_progress_not_lower (before after : option Z) (stream field context : string) : res () :=
  raise_if (match before, after with
            | None, _ => false
            | Some _, None => true
            | Some b, Some a => a <? b
            end) ExcRuntimeError (field +:+ " regressed for " +:+ stream +:+ " " +:+ context).

Fixpoint res_each {A} (f : A → res ()) (l : list A) : res () :=
  match l with
  | [] => mret ()
  | x :: l => _ ← f x; res_each f l
  end.

(** [{int(row[0]): row for row in rows}]: the last row of an open time. *)
Definition rows_by_open (rows : list (Z * CandleRow)) : gmap Z CandleRow := list_to_map (rev rows).

Definition assert_stream_preserved (after : SqliteEvidence) (context stream : string)
    (previous : DurableStreamEvidence) : res () :=
  current ← dict_get stream (se_streams after);
  let current_by_open := rows_by_open (de_candles current) in
  _ ← res_each (λ candle,
        raise_if (negb (bool_decide (current_by_open !! candle.1 = Some candle.2))) ExcRuntimeError
          ("durable candle changed or disappeared for " +:+ stream +:+ " " +:+ context)) (de_candles previous);
  _ ← raise_if (length (de_candles current) <? length (de_candles previous))%nat ExcRuntimeError
        ("candle count regressed for " +:+ stream +:+ " " +:+ context);
  _ ← raise_if (negb (bool_decide (de_earliest_open_time_ms current = de_earliest_open_time_ms previous))) ExcRuntimeError
        ("historical lower bound changed for " +:+ stream +:+ " " +:+ context);
  _ ← assert_progress_not_lower (de_latest_committed_open_time_ms previous) (de_latest_committed_open_time_ms current)
        stream "latest committed candle" context;
  assert_progress_not_lower (de_last_audit_at_ms previous) (de_last_audit_at_ms current) stream "last audit" context.

Definition stream_names (e : SqliteEvidence) : gset string := list_to_set (map fst (se_streams e)).

(** [_assert_evidence_preserved] *)
Definition assert_evidence_preserved (before after : SqliteEvidence) (context : string) : res () :=
  _ ← raise_if (negb (bool_decide (se_schema_version after = se_schema_version before))) ExcRuntimeError
        ("schema version changed " +:+ context);
  _ ← raise_if (negb (bool_decide (stream_names after = stream_names before))) ExcRuntimeError
        ("configured stream set changed " +:+ context);
  res_each (λ sp, assert_stream_preserved after context sp.1 sp.2) (se_streams before).

(** ** Docker *)

Definition SERVICE : string := "market-data-service".
Definition RUNTIME_UID : Z := 10001.
Definition RUNTIME_GID : Z := 10001.
Definition SMOKE_HTTP_PORT : Z := 18080.

(** The commands of the smoke; an [id] is the container they name. *)
Inductive HostCommand :=
| DockerVersion
| ComposeBuild
| InspectImage
| ProbeImage
| SetDataPermissions (uid gid directory_mode file_mode : Z)
| ComposeUp
| ComposePs
| InspectHealth (id : string)
| ContainerLogs (id : string)
| InspectState (id : string)
| InspectStopTimeout (id : string)
| ExecPid1
| ExecWritable
| ExecEvidence
| ComposeRestart
| ComposeRecreate
| DisableRestart (id : string)
| KillInterrupt (id : string)
| ComposeStop
| ComposeDown
| RemoveImage.

(** The names of one run, and the texts of the scripts that run in its containers. *)
Record SmokeNames := mkNames {
  nm_root : string;
  nm_project : string;
  nm_override : string;
  nm_data_directory : string;
  nm_host_uid : Z;
  nm_host_gid : Z;
  nm_permissions_script : string;
  nm_image_probe : string;
  nm_pid1_probe : string;
  nm_writable_probe : string;
  nm_evidence_probe : string
}.

(** [f"{n:o}"] of a non-negative number *)
Fixpoint octal_digits (fuel : nat) (n : Z) (rest : string) : string :=
  match fuel with
  | O => rest
  | S fuel => let rest := String (digit_char (n mod 8)) rest in if n <? 8 then rest else octal_digits fuel (n / 8) rest
  end.
Definition octal (n : Z) : string := octal_digits (S (Z.to_nat (Z.log2 n))) n EmptyString.

Definition container_name (nm : SmokeNames) : string := nm_project nm +:+ "-service".
Definition image_name (nm : SmokeNames) : string := nm_project nm +:+ ":test".

(** [_compose_command] *)
Definition compose_command (nm : SmokeNames) : list string :=
  ["docker"; "compose"; "--project-name"; nm_project nm; "--file"; nm_root nm +:+ "/docker-compose.yml";
   "--file"; nm_override nm]%string.

Definition exec_python (nm : SmokeNames) (script : string) : list string :=
  compose_command nm ++ ["exec"; "--no-TTY"; SERVICE; "python"; "-c"; script]%string.

Definition inspect_format (id format : string) : list string := ["docker"; "inspect"; "--format"; format; id]%string.

(** The arguments of a command. *)
Definition command_args (nm : SmokeNames) (c : HostCommand) : list string :=
  match c with
  | DockerVersion => ["docker"; "version"; "--format"; "{{.Server.Version}}"]
  | ComposeBuild => compose_command nm ++ ["build"; SERVICE]
  | InspectImage => ["docker"; "image"; "inspect"; image_name nm]
  | ProbeImage => ["docker"; "run"; "--rm"; "--read-only"; "--entrypoint"; "python"; image_name nm; "-c"; nm_image_probe nm]
  | SetDataPermissions uid gid directory_mode file_mode =>
      ["docker"; "run"; "--rm"; "--user"; "0:0"; "--entrypoint"; "python"; "--mount";
       "type=bind,source=" +:+ nm_data_directory nm +:+ ",target=/data"; image_name nm; "-c"; nm_permissions_script nm;
       str_of_Z uid; str_of_Z gid; octal directory_mode; octal file_mode]
  | ComposeUp => compose_command nm ++ ["up"; "--detach"; SERVICE]
  | ComposePs => compose_command nm ++ ["ps"; "--quiet"; SERVICE]
  | InspectHealth id => inspect_format id "{{.State.Health.Status}}"
  | ContainerLogs id => ["docker"; "logs"; id]
  | InspectState id => inspect_format id "{{json .State}}"
  | InspectStopTimeout id => inspect_format id "{{.Config.StopTimeout}}"
  | ExecPid1 => exec_python nm (nm_pid1_probe nm)
  | ExecWritable => exec_python nm (nm_writable_probe nm)
  | ExecEvidence => exec_python nm (nm_evidence_probe nm)
  | ComposeRestart => compose_command nm ++ ["restart"; SERVICE]
  | ComposeRecreate => compose_command nm ++ ["up"; "--detach"; "--force-recreate"; "--no-deps"; SERVICE]
  | DisableRestart id => ["docker"; "update"; "--restart=no"; id]
  | KillInterrupt id => ["docker"; "kill"; "--signal=SIGINT"; id]
  | ComposeStop => compose_command nm ++ ["stop"; SERVICE]
  | ComposeDown => compose_command nm ++ ["down"; "--remove-orphans"]
  | RemoveImage => ["docker"; "image"; "rm"; image_name nm]
  end.

(** [_write_override] *)
Definition override_text (nm : SmokeNames) (rest_port ws_port : Z) : string :=
  join (String (chr 10) EmptyString)
    ["services:";
     "  market-data-service:";
     "    container_name: " +:+ container_name nm;
     "    image: " +:+ image_name nm;
     "    environment:";
     "      MDS_REST_BASE_URL: " +:+ text [dquote] +:+ "http://host.docker.internal:" +:+ str_of_Z rest_port +:+ text [dquote];
     "      MDS_WEBSOCKET_URL: " +:+ text [dquote] +:+ "ws://host.docker.internal:" +:+ str_of_Z ws_port +:+ text [dquote];
     "      MDS_HTTP_PORT: " +:+ str_of_Z SMOKE_HTTP_PORT;
     "      MDS_HISTORICAL_RETRY_BASE_SECONDS: 0";
     "      MDS_HISTORICAL_RETRY_MAX_SECONDS: 0";
     "      MDS_RECONNECT_DELAY_SECONDS: 0";
     "    extra_hosts:";
     "      - " +:+ text [dquote] +:+ "host.docker.internal:host-gateway" +:+ text [dquote];
     "    healthcheck:";
     "      interval: 1s";
     "      timeout: 5s";
     "      start_period: 1s";
     "      retries: 120";
     "    ports: !override";
     "      - target: " +:+ str_of_Z SMOKE_HTTP_PORT;
     "        host_ip: 127.0.0.1";
     EmptyString]%string.

(** Docker, by the commands that ran before: the output of a command, or the text of its failure; how
    often [time.monotonic() < deadline] holds in a loop that starts now; and [json.loads], with the
    error it raises for a text that is not JSON. *)
Class Host := {
  host_result : list HostCommand → HostCommand → string + string;
  host_polls : list HostCommand → nat;
  host_loads : string → res json
}.

Notation HostM := (StRes (list HostCommand)).

Section host.
Context `{D : Host} (nm : SmokeNames).

(** [_run] *)
Definition run_command (c : HostCommand) : HostM string := λ h,
  (match host_result h c with
   | inl out => Ok out
   | inr failure => runtime_error ("command failed " +:+ failure)
   end, h ++ [c]).

(** [_wait_for_health] *)
Fixpoint health_loop (polls : nat) (id last_status : string) : HostM (option string) :=
  match polls with
  | O => mret (Some last_status)
  | S polls =>
      status ← run_command (InspectHealth id);
      if bool_decide (status = "healthy"%string) then mret None else health_loop polls id status
  end.
Definition wait_for_health (id : string) : HostM () :=
  h ← sr_get;
  failed ← health_loop (host_polls h) id "unknown";
  match failed with
  | None => mret ()
  | Some last_status =>
      logs ← run_command (ContainerLogs id);
      sr_lift (runtime_error ("container health stayed " +:+ last_status +:+ text [chr 10] +:+ logs))
  end.

(** [_wait_for_exit] *)
Fixpoint exit_loop (polls : nat) (id : string) : HostM Z :=
  match polls with
  | O => sr_lift (runtime_error ("container " +:+ id +:+ " did not exit"))
  | S polls =>
      out ← run_command (InspectState id);
      state ← sr_lift (host_loads out);
      running ← sr_lift (json_index state "Running");
      if json_truth running then exit_loop polls id
      else sr_lift (exit_code ← json_index state "ExitCode"; json_int exit_code)
  end.
Definition wait_for_exit (id : string) : HostM Z := h ← sr_get; exit_loop (host_polls h) id.

(** The checks of [_assert_image_contract] before its probe, of what [docker image inspect] printed. *)
Definition check_image (document : json) : res () :=
  inspection ← (v ← json_first document; json_index v "Config");
  user ← json_index inspection "User";
  _ ← raise_if (negb (json_eq_str user "10001:10001")) ExcRuntimeError ("unexpected image user: " +:+ json_str user);
  command ← json_index inspection "Cmd";
  _ ← raise_if (negb (json_is_strs command [SERVICE; "serve"%string])) ExcRuntimeError
        ("unexpected image command: " +:+ json_str command);
  health_test ← (v ← json_index inspection "Healthcheck"; json_index v "Test");
  health_command ← json_join " " health_test;
  raise_if (negb (contains "/health" health_command) || contains "/readiness" health_command
            || negb (contains "MDS_HTTP_PORT" health_command) || negb (contains "8080" health_command)) ExcRuntimeError
    ("unexpected image healthcheck: " +:+ json_str health_test).

(** [_assert_image_contract] *)
Definition assert_image_contract : HostM () :=
  out ← run_command InspectImage;
  _ ← sr_lift (document ← host_loads out; check_image document);
  _ ← run_command ProbeImage;
  mret ().

Definition SQLITE_FILES : list string := ["market.sqlite3"; "market.sqlite3-wal"; "market.sqlite3-shm"]%string.

(** [v[key] != n] *)
Definition int_differs (v : json) (key : string) (n : Z) : res bool :=
  x ← json_index v key; mret (negb (json_eq_int x n)).
Definition str_differs (v : json) (key : string) (t : string) : res bool :=
  x ← json_index v key; mret (negb (json_eq_str x t)).

(** [v & 7], tested *)
Definition others_may (v : json) : res bool :=
  match v with
  | JInt z => Ok (negb (Z.land z 7 =? 0))
  | JBool b => Ok b
  | _ => raise ExcTypeError ("unsupported operand type(s) for &: '" +:+ json_type v +:+ "' and 'int'")
  end.

(** The set of the names, compared with the set of the files. *)
Definition file_name (item : json) : res json := name ← json_index item "name"; _ ← json_hash name; mret name.
Definition are_files (names : list json) : bool :=
  forallb (λ n, existsb (json_eq_str n) SQLITE_FILES) names &&
  forallb (λ f, existsb (λ n, json_eq_str n f) names) SQLITE_FILES.

Definition check_file (item : json) : res () :=
  wrong_owner ← res_or (int_differs item "uid" RUNTIME_UID) (int_differs item "gid" RUNTIME_GID);
  _ ← raise_if wrong_owner ExcRuntimeError ("SQLite file ownership is wrong: " +:+ json_str item);
  wrong_mode ← res_or (mode ← json_index item "mode"; others_may mode)
                      (writable ← json_index item "writable"; mret (negb (json_truth writable)));
  raise_if wrong_mode ExcRuntimeError ("SQLite file permissions are too broad or not writable: " +:+ json_str item).

(** The checks of [_assert_existing_sqlite_is_writable]. *)
Definition check_files (facts : json) : res () :=
  wrong_mode ← int_differs facts "directory_mode" 488;
  _ ← raise_if wrong_mode ExcRuntimeError ("existing data directory mode is not 0750: " +:+ json_str facts);
  wrong_owner ← res_or (int_differs facts "directory_uid" RUNTIME_UID) (int_differs facts "directory_gid" RUNTIME_GID);
  _ ← raise_if wrong_owner ExcRuntimeError ("existing data directory ownership is wrong: " +:+ json_str facts);
  items ← (files ← json_index facts "files"; json_iter files);
  names ← res_map file_name items;
  _ ← raise_if (negb (are_files names)) ExcRuntimeError ("SQLite WAL/SHM evidence is incomplete: " +:+ json_str facts);
  res_each check_file items.

Definition assert_existing_sqlite_is_writable : HostM () :=
  out ← run_command ExecWritable;
  sr_lift (facts ← host_loads out; check_files facts).

(** [_sqlite_evidence] *)
Definition sqlite_evidence : HostM SqliteEvidence :=
  out ← run_command ExecEvidence;
  sr_lift (payload ← host_loads out;
           evidence ← read_evidence payload;
           _ ← check_evidence evidence;
           mret evidence).

(** The checks of the first process of the container. *)
Definition check_pid1 (facts : json) : res () :=
  wrong_identity ← res_or (str_differs facts "uid" (str_of_Z RUNTIME_UID)) (str_differs facts "gid" (str_of_Z RUNTIME_UID));
  _ ← raise_if wrong_identity ExcRuntimeError ("unexpected PID1 identity: " +:+ json_str facts);
  cmdline ← json_index facts "cmdline";
  wrong_command ← res_or (named ← json_contains SERVICE cmdline; mret (negb named))
                         (serves ← json_contains "serve" cmdline; mret (negb serves));
  _ ← raise_if wrong_command ExcRuntimeError ("unexpected PID1 command: " +:+ json_str cmdline);
  let padded := (" " +:+ json_str cmdline +:+ " ")%string in
  raise_if (contains " sh " padded || contains " bash " padded) ExcRuntimeError ("shell owns PID1: " +:+ json_str cmdline).

(** [_assert_running_container_contract] *)
Definition assert_running_container_contract : HostM string :=
  id ← run_command ComposePs;
  _ ← sr_lift (raise_if (bool_decide (id = EmptyString)) ExcRuntimeError "Compose service container is missing");
  _ ← wait_for_health id;
  stop_timeout ← run_command (InspectStopTimeout id);
  _ ← sr_lift (raise_if (negb (bool_decide (stop_timeout = "20"%string))) ExcRuntimeError
        ("container stop timeout is not production 20s: " +:+ stop_timeout));
  out ← run_command ExecPid1;
  _ ← sr_lift (facts ← host_loads out; check_pid1 facts);
  mret id.

Definition clean_exit (code : Z) (signal : string) : HostM () :=
  sr_lift (raise_if (negb (code =? 0)) ExcRuntimeError (signal +:+ " shutdown did not exit cleanly")).

(** The body of [_run_smoke] after the build. *)
Definition smoke_body : HostM () :=
  _ ← assert_image_contract;
  _ ← run_command (SetDataPermissions RUNTIME_UID RUNTIME_GID 488 416);
  _ ← run_command ComposeUp;
  _ ← assert_running_container_contract;
  _ ← assert_existing_sqlite_is_writable;
  initial ← sqlite_evidence;
  _ ← run_command ComposeRestart;
  _ ← assert_running_container_contract;
  after_restart ← sqlite_evidence;
  _ ← sr_lift (assert_evidence_preserved initial after_restart "after restart");
  _ ← run_command ComposeRecreate;
  id ← assert_running_container_contract;
  after_recreate ← sqlite_evidence;
  _ ← sr_lift (assert_evidence_preserved after_restart after_recreate "after recreation");
  _ ← run_command (DisableRestart id);
  _ ← run_command (KillInterrupt id);
  code ← wait_for_exit id;
  _ ← clean_exit code "SIGINT";
  _ ← run_command ComposeUp;
  id ← assert_running_container_contract;
  _ ← run_command ComposeStop;
  code ← wait_for_exit id;
  clean_exit code "SIGTERM".

(** The [finally] of [_run_smoke]; the removal of the image is not checked. *)
Definition smoke_cleanup (image_built : bool) : HostM () :=
  _ ← run_command ComposeDown;
  if image_built then
    _ ← run_command (SetDataPermissions (nm_host_uid nm) (nm_host_gid nm) 448 384);
    _ ← sr_attempt (run_command RemoveImage);
    mret ()
  else mret ().

(** [try: m finally: f], where [f] knows how far [m] came *)
Definition try_finally (m : HostM ()) (f : HostM ()) : HostM () := λ h,
  let '(r, h1) := m h in
  match f h1 with
  | (Ok _, h2) => (r, h2)
  | (Raise e, h2) => (Raise e, h2)
  end.

(** [_run_smoke] with its directory and database in place. *)
Definition run_smoke : HostM () :=
  _ ← run_command DockerVersion;
  built ← sr_attempt (run_command ComposeBuild);
  match built with
  | Raise e => try_finally (sr_lift (Raise e)) (smoke_cleanup false)
  | Ok _ => try_finally smoke_body (smoke_cleanup true)
  end.
End host.

(** ** What the comparison decides *)

Lemma res_each_ok {A} (f : A → res ()) l : res_each f l = Ok () ↔ ∀ x, x ∈ l → f x = Ok ().
Proof.
  induction l as [|x l IH]; cbn [res_each].
  { split; [by intros _ x ?%elem_of_nil|done]. }
  split.
  - intros H. destruct (f x) as [[]|e] eqn:Hx; [|done]. intros y [->|Hy]%elem_of_cons; [done|]. by apply IH.
  - intros H. rewrite (H x) by (by left). cbn [mbind res_bind]. apply IH. intros y Hy. apply H. by right.
Qed.

Lemma candle_rows_elem m t row : (t, row) ∈ candle_rows m ↔ m !! t = Some row.
Proof.
  unfold candle_rows. rewrite list_elem_of_omap. split.
  - intros (u & _ & Hu). destruct (m !! u) as [x|] eqn:Hx; [|done]. by injection Hu as <- <-.
  - intros Ht. exists t. rewrite Ht. split; [|done]. rewrite py_sorted_elem. apply elem_of_elements, elem_of_dom. by eexists.
Qed.

Lemma candle_rows_fst m : map fst (candle_rows m) = py_sorted (elements (dom m)).
Proof.
  unfold candle_rows. assert (H : ∀ t, t ∈ py_sorted (elements (dom m)) → is_Some (m !! t)).
  { intros t. rewrite py_sorted_elem, elem_of_elements. apply elem_of_dom. }
  induction (py_sorted _) as [|t l IH]; [done|]. cbn [omap list_omap].
  destruct (H t ltac:(by left)) as [row ->]. cbn. f_equal. apply IH. intros u Hu. apply H. by right.
Qed.

Lemma candle_rows_NoDup m : NoDup (map fst (candle_rows m)).
Proof. rewrite candle_rows_fst. unfold py_sorted. rewrite merge_sort_Permutation. apply NoDup_elements. Qed.

(** The dictionary of the rows is the table again, and has as many rows. *)
Lemma rows_by_open_rows m : rows_by_open (candle_rows m) = m.
Proof.
  unfold rows_by_open. rewrite (list_to_map_proper (rev (candle_rows m)) (candle_rows m)).
  - apply map_eq. intros t. apply option_eq. intros row. rewrite <- elem_of_list_to_map by apply candle_rows_NoDup.
    apply candle_rows_elem.
  - rewrite <- Permutation_rev. apply candle_rows_NoDup.
  - by rewrite <- Permutation_rev.
Qed.

Lemma candle_rows_length m : length (candle_rows m) = size m.
Proof.
  rewrite <- (length_map fst), candle_rows_fst. unfold py_sorted. rewrite merge_sort_Permutation. apply size_dom.
Qed.

Lemma probe_streams_elem version a n d :
  (n, d) ∈ se_streams (probe_evidence version a) ↔
  ∃ k r, ab_streams a !! k = Some r ∧ n = stream_canonical_id k ∧ d = durable_evidence r.
Proof.
  unfold probe_evidence. cbn [se_streams]. rewrite merge_sort_Permutation, list_elem_of_fmap. split.
  - intros ([k r] & [= -> ->] & Hkr%elem_of_map_to_list). by exists k, r.
  - intros (k & r & Hr & -> & ->). exists (k, r). split; [done|]. by apply elem_of_map_to_list.
Qed.

Lemma probe_streams_NoDup version a : NoDup (map fst (se_streams (probe_evidence version a))).
Proof.
  unfold probe_evidence. cbn [se_streams]. rewrite merge_sort_Permutation, map_map. cbn [fst].
  change (map (λ x, stream_canonical_id x.1) (map_to_list (ab_streams a)))
    with ((stream_canonical_id ∘ fst) <$> map_to_list (ab_streams a)).
  rewrite list_fmap_compose. apply NoDup_fmap_2; [intros k k'; apply stream_canonical_id_inj|]. apply NoDup_fst_map_to_list.
Qed.

Lemma dict_get_elem {A} n (v : A) d : NoDup (map fst d) → (n, v) ∈ d → dict_get n d = Ok v.
Proof.
  induction d as [|[n' v'] d IH]; cbn [map fst]; intros Hnd Hin; [by apply elem_of_nil in Hin|].
  apply NoDup_cons in Hnd as [Hn Hnd]. apply elem_of_cons in Hin as [[= -> ->]|Hin]; [apply dict_get_here|].
  rewrite dict_get_there; [by apply IH|]. intros ->. apply Hn. apply list_elem_of_fmap. by exists (n, v).
Qed.

Lemma probe_names version a : stream_names (probe_evidence version a) = set_map stream_canonical_id (dom (ab_streams a)).
Proof.
  apply set_eq. intros n. unfold stream_names. rewrite elem_of_list_to_set, list_elem_of_fmap, elem_of_map. split.
  - intros ([n' d] & -> & (k & r & Hr & -> & _)%probe_streams_elem). exists k. split; [done|]. apply elem_of_dom. by eexists.
  - intros (k & -> & [r Hr]%elem_of_dom). exists (stream_canonical_id k, durable_evidence r). split; [done|].
    apply probe_streams_elem. by exists k, r.
Qed.

(** *** One stream *)

Definition progress_kept (before after : option Z) : Prop :=
  match before, after with
  | None, _ => True
  | Some b, Some a => b ≤ a
  | Some _, None => False
  end.

(** The stream kept its rows, its lower bound and its progress. *)
Record stream_extends (r r' : StreamRec) : Prop := {
  ex_candles : sr_candles r ⊆ sr_candles r';
  ex_earliest : earliest_available_open_time_ms (sr_state r') = earliest_available_open_time_ms (sr_state r);
  ex_latest : progress_kept (latest_committed_open_time_ms (sr_state r)) (latest_committed_open_time_ms (sr_state r'));
  ex_audit : progress_kept (last_audit_at_ms (sr_state r)) (last_audit_at_ms (sr_state r'))
}.

Lemma progress_not_lower_ok before after stream field context :
  assert_progress_not_lower before after stream field context = Ok () ↔ progress_kept before after.
Proof.
  unfold assert_progress_not_lower, progress_kept, raise_if, raise. destruct before as [b|], after as [a|]; try done.
  destruct (Z.ltb_spec a b); split; (done || lia).
Qed.

Lemma stream_preserved_ok version a' context k r r' :
  ab_streams a' !! k = Some r' →
  assert_stream_preserved (probe_evidence version a') context (stream_canonical_id k) (durable_evidence r) = Ok () ↔
  stream_extends r r'.
Proof.
  intros Hr'. unfold assert_stream_preserved.
  rewrite (dict_get_elem _ (durable_evidence r')); [|apply probe_streams_NoDup|apply probe_streams_elem; by exists k, r'].
  cbn [mbind res_bind]. cbv zeta. unfold durable_evidence. cbn [de_candles de_earliest_open_time_ms
    de_latest_committed_open_time_ms de_last_audit_at_ms]. rewrite rows_by_open_rows.
  set (rows := res_each _ _).
  assert (Hrows : rows = Ok () ↔ sr_candles r ⊆ sr_candles r').
  { unfold rows. rewrite res_each_ok, map_subseteq_spec. unfold raise_if. split.
    - intros H t row Ht%candle_rows_elem. specialize (H _ Ht). cbn [fst snd] in H. by case_bool_decide.
    - intros H [t row] Ht%candle_rows_elem. by rewrite bool_decide_true by (by apply H). }
  split.
  - intros H. destruct rows as [[]|e]; [|done]. cbn [mbind res_bind] in H. pose proof (proj1 Hrows eq_refl) as Hsub.
    apply raise_if_bind_ok in H as [_ H]. apply raise_if_bind_ok in H as [He%negb_false_iff%bool_decide_eq_true H].
    destruct (assert_progress_not_lower _ _ _ "latest committed candle" _) as [[]|e] eqn:Hl; [|done].
    split; [done|done|by apply progress_not_lower_ok in Hl|by apply progress_not_lower_ok in H].
  - intros [Hsub He Hl Ha]. rewrite (proj2 Hrows Hsub). cbn [mbind res_bind].
    assert ((length (candle_rows (sr_candles r')) <? length (candle_rows (sr_candles r)))%nat = false) as ->.
    { rewrite !candle_rows_length. apply Nat.ltb_ge. by apply map_subseteq_size. }
    rewrite bool_decide_true by done. cbn [negb raise_if mbind res_bind].
    rewrite (proj2 (progress_not_lower_ok _ _ _ _ _) Hl). by apply progress_not_lower_ok.
Qed.

Lemma evidence_preserved_ok version version' context a a' :
  assert_evidence_preserved (probe_evidence version a) (probe_evidence version' a') context = Ok () ↔
  version' = version ∧ dom (ab_streams a') = dom (ab_streams a) ∧
    ∀ k r r', ab_streams a !! k = Some r → ab_streams a' !! k = Some r' → stream_extends r r'.
Proof.
  unfold assert_evidence_preserved. rewrite !probe_names. cbn [se_schema_version probe_evidence].
  rewrite !raise_if_bind_ok, res_each_ok, !negb_false_iff, !bool_decide_eq_true.
  assert (Hdom : (set_map stream_canonical_id (dom (ab_streams a')) : gset string) = set_map stream_canonical_id (dom (ab_streams a)) ↔
                 dom (ab_streams a') = dom (ab_streams a)).
  { split; [|by intros ->]. intros H. apply set_eq. intros k. pose proof stream_canonical_id_inj as Hinj.
    split; intros Hk; apply (elem_of_map_2 (D:=gset string) stream_canonical_id) in Hk; (rewrite H in Hk || rewrite <- H in Hk);
      apply elem_of_map in Hk as (k' & ->%Hinj & ?); done. }
  rewrite Hdom. split.
  - intros (-> & Hd & H). do 2 (split; [done|]). intros k r r' Hr Hr'.
    apply (stream_preserved_ok version a' context k r r' Hr').
    apply (H (stream_canonical_id k, durable_evidence r)), probe_streams_elem. by exists k, r.
  - intros (-> & Hd & H). do 2 (split; [done|]). intros [n d] (k & r & Hr & -> & ->)%probe_streams_elem. cbn [fst snd].
    assert (Hk : k ∈ dom (ab_streams a')) by (rewrite Hd; apply elem_of_dom; by eexists).
    apply elem_of_dom in Hk as [r' Hr']. apply (stream_preserved_ok version a' context k r r' Hr'). by apply (H k).
Qed.

(** The document of the probe reads back as the evidence. *)
Lemma read_rows rows : res_map read_row (map row_document rows) = Ok rows.
Proof. induction rows as [|[t []] rows IH]; [done|]. cbn. by rewrite IH. Qed.

Lemma read_stream_document kd : read_stream (stream_document kd) = Ok kd.
Proof.
  destruct kd as [k [earliest latest audit rows]]. unfold read_stream. set (d := stream_document _).
  change (json_index d "key") with (Ok (JStr k)). change (json_index d "earliest") with (Ok (column earliest)).
  change (json_index d "latest") with (Ok (column latest)). change (json_index d "last_audit") with (Ok (column audit)).
  change (json_index d "candles") with (Ok (JArr (map row_document rows))).
  cbn [mbind res_bind json_iter read_stream_key]. rewrite read_rows. by destruct earliest, latest, audit.
Qed.

Lemma dict_set_fresh {A} (kv : string * A) d : kv.1 ∉ map fst d → dict_set kv d = d ++ [kv].
Proof.
  induction d as [|kv' d IH]; [done|]. cbn [map dict_set]. intros [Hne Hd]%not_elem_of_cons.
  rewrite bool_decide_false by done. by rewrite IH.
Qed.

Lemma dict_of_distinct {A} (l : list (string * A)) : NoDup (map fst l) → dict_of l = l.
Proof.
  unfold dict_of. change l with ([] ++ l) at 1 3. generalize (@nil (string * A)) as d.
  induction l as [|kv l IH]; intros d Hnd; cbn [foldl]; [by rewrite app_nil_r|].
  rewrite map_app in Hnd. cbn [map] in Hnd. rewrite dict_set_fresh.
  - rewrite IH; [by rewrite <-app_assoc|]. rewrite <-app_assoc, map_app. exact Hnd.
  - apply NoDup_app in Hnd as (_ & H & _). intros Hin. by apply (H kv.1 Hin), list_elem_of_here.
Qed.

Lemma read_probe_document e : NoDup (map fst (se_streams e)) → read_evidence (probe_document e) = Ok e.
Proof.
  destruct e as [version streams]. cbn [se_streams]. intros Hnd. unfold read_evidence. set (d := probe_document _).
  change (json_index d "streams") with (Ok (JArr (map stream_document streams))).
  change (json_index d "schema_version") with (Ok (JStr version)). cbn [mbind res_bind json_iter].
  assert (H : res_map read_stream (map stream_document streams) = Ok streams).
  { clear Hnd. induction streams as [|kd l IH]; [done|]. cbn [map res_map]. rewrite read_stream_document.
    cbn [mbind res_bind]. by rewrite IH. }
  rewrite H. cbn [mbind res_bind]. by rewrite dict_of_distinct.
Qed.

Definition only_runtime (r : res ()) : Prop := r = Ok () ∨ ∃ message, r = runtime_error message.

Lemma only_runtime_raise_if b message : only_runtime (raise_if b ExcRuntimeError message).
Proof. destruct b; [right; by exists message|by left]. Qed.

Lemma only_runtime_bind r f : only_runtime r → only_runtime f → only_runtime (_ ← r; f).
Proof. intros [->|[m ->]] Hf; [done|]. right. by exists m. Qed.

Lemma only_runtime_each {A} (f : A → res ()) l : (∀ x, x ∈ l → only_runtime (f x)) → only_runtime (res_each f l).
Proof.
  induction l as [|x l IH]; intros H; cbn [res_each]; [by left|].
  apply only_runtime_bind; [apply H; by left|]. apply IH. intros y Hy. apply H. by right.
Qed.

Lemma stream_preserved_raises version a' context k d r' :
  ab_streams a' !! k = Some r' →
  only_runtime (assert_stream_preserved (probe_evidence version a') context (stream_canonical_id k) d).
Proof.
  intros Hr'. unfold assert_stream_preserved.
  rewrite (dict_get_elem _ (durable_evidence r')); [|apply probe_streams_NoDup|apply probe_streams_elem; by exists k, r'].
  cbn [mbind res_bind]. cbv zeta. apply only_runtime_bind; [apply only_runtime_each; intros x _; apply only_runtime_raise_if|].
  do 2 (apply only_runtime_bind; [apply only_runtime_raise_if|]).
  apply only_runtime_bind; apply only_runtime_raise_if.
Qed.

Lemma evidence_preserved_raises version version' context a a' :
  only_runtime (assert_evidence_preserved (probe_evidence version a) (probe_evidence version' a') context).
Proof.
  unfold assert_evidence_preserved. apply only_runtime_bind; [apply only_runtime_raise_if|].
  destruct (bool_decide (stream_names _ = _)) eqn:Hn; [|right; by eexists].
  apply only_runtime_bind; [by left|]. apply bool_decide_eq_true in Hn. apply only_runtime_each.
  intros [n d] Hin. assert (Hnames : n ∈ stream_names (probe_evidence version a)).
  { unfold stream_names. apply elem_of_list_to_set, list_elem_of_fmap. by exists (n, d). }
  rewrite <- Hn, probe_names in Hnames. apply elem_of_map in Hnames as (k & -> & [r' Hr']%elem_of_dom).
  by apply (stream_preserved_raises _ _ _ k _ r').
Qed.

(** ** The commands of a run *)

Section commands.
Context `{D : Host} (nm : SmokeNames).

(** Whether it returns or raises, the program only adds commands of a kind. *)
Definition runs_only {A} (P : HostCommand → Prop) (m : HostM A) : Prop :=
  ∀ h, ∃ l, (m h).2 = h ++ l ∧ Forall P l.

Lemma runs_ret {A} P (x : A) : runs_only P (mret x).
Proof. intros h. exists []. by rewrite app_nil_r. Qed.

Lemma runs_lift {A} P (r : res A) : runs_only P (sr_lift r).
Proof. intros h. exists []. by rewrite app_nil_r. Qed.

Lemma runs_get P : runs_only P sr_get.
Proof. intros h. exists []. by rewrite app_nil_r. Qed.

Lemma runs_command (P : HostCommand → Prop) c : P c → runs_only P (run_command c).
Proof. intros Hc h. exists [c]. by repeat constructor. Qed.

Lemma runs_bind {A B} P (m : HostM A) (f : A → HostM B) :
  runs_only P m → (∀ x, runs_only P (f x)) → runs_only P (x ← m; f x).
Proof.
  intros Hm Hf h. unfold mbind, StRes_bind. destruct (Hm h) as (l & Hl & HF).
  destruct (m h) as [[x|e] h1]; cbn [snd] in Hl; subst h1; [|by exists l].
  destruct (Hf x (h ++ l)) as (l' & -> & HF'). exists (l ++ l'). by rewrite app_assoc, Forall_app.
Qed.

Lemma runs_ok {A} P (m : HostM A) h x h' : runs_only P m → m h = (Ok x, h') → ∃ l, h' = h ++ l ∧ Forall P l.
Proof. intros Hm Hr. specialize (Hm h). by rewrite Hr in Hm. Qed.

(** What the cleanup does is done by nothing else. *)
Definition body_command (c : HostCommand) : Prop := c ≠ ComposeDown ∧ c ≠ RemoveImage.

Ltac runs_step := first
  [ apply runs_ret | apply runs_lift | apply runs_get
  | apply runs_command; by split
  | apply runs_bind; [|intros ?] ].
Ltac runs_tac := repeat runs_step.

Lemma runs_health_loop polls id last : runs_only body_command (health_loop polls id last).
Proof.
  revert last. induction polls as [|polls IH]; intros last; cbn [health_loop]; [apply runs_ret|]. apply runs_bind; [runs_tac|].
  intros status. case_bool_decide; [apply runs_ret|apply IH].
Qed.

Lemma runs_exit_loop polls id : runs_only body_command (exit_loop polls id).
Proof.
  induction polls as [|polls IH]; cbn [exit_loop]; [apply runs_lift|]. apply runs_bind; [runs_tac|].
  intros out. apply runs_bind; [runs_tac|]. intros state. apply runs_bind; [runs_tac|]. intros running.
  destruct (json_truth running); [apply IH|apply runs_lift].
Qed.

Lemma runs_contract : runs_only body_command assert_running_container_contract.
Proof.
  unfold assert_running_container_contract, wait_for_health. runs_tac; [apply runs_health_loop|].
  match goal with |- runs_only _ (match ?f with _ => _ end) => destruct f end; runs_tac.
Qed.

Lemma runs_evidence : runs_only body_command sqlite_evidence.
Proof. unfold sqlite_evidence. runs_tac. Qed.

Lemma runs_wait_for_exit id : runs_only body_command (wait_for_exit id).
Proof. unfold wait_for_exit. runs_tac. apply runs_exit_loop. Qed.

Lemma runs_body : runs_only body_command smoke_body.
Proof.
  unfold smoke_body, assert_image_contract, assert_existing_sqlite_is_writable, clean_exit.
  repeat first [apply runs_contract|apply runs_evidence|apply runs_wait_for_exit|runs_step].
Qed.

(** *** A body that returned *)

Lemma run_command_run c h :
  run_command c h = (match host_result h c with
                     | inl out => Ok out
                     | inr failure => runtime_error ("command failed " +:+ failure)
                     end, h ++ [c]).
Proof. done. Qed.

Lemma run_command_ok c h out h' : run_command c h = (Ok out, h') → h' = h ++ [c] ∧ host_result h c = inl out.
Proof. unfold run_command, runtime_error, raise. destruct (host_result h c) as [o|f]; [|done]. by intros [= -> <-]. Qed.

(** The evidence was taken after the commands [p], with rows and progress for each stream. *)
Definition evidence_at (p : list HostCommand) (e : SqliteEvidence) : Prop :=
  ∃ out payload, host_result p ExecEvidence = inl out ∧ host_loads out = Ok payload ∧
    read_evidence payload = Ok e ∧ check_evidence e = Ok ().

Lemma sqlite_evidence_ok h e h' :
  sqlite_evidence h = (Ok e, h') → h' = h ++ [ExecEvidence] ∧ evidence_at h e.
Proof.
  unfold sqlite_evidence. intros (out & h1 & [-> Ho]%run_command_ok & H)%sr_bind_ok. injection H as H <-. split; [done|].
  apply res_bind_ok in H as (payload & Hp & H). apply res_bind_ok in H as (e1 & He & H).
  apply res_bind_ok in H as ([] & Hc & H). injection H as <-. by exists out, payload.
Qed.

(** What the smoke promises when it passes: the evidence of the first container is kept by the
    restarted one, and that by the recreated one. *)
Definition smoke_passed (h : list HostCommand) : Prop :=
  ∃ p1 l1 p2 l2 l3 e1 e2 e3,
    p2 = p1 ++ ExecEvidence :: ComposeRestart :: l1 ∧
    h = p2 ++ ExecEvidence :: ComposeRecreate :: l2 ++ ExecEvidence :: l3 ∧
    evidence_at p1 e1 ∧ evidence_at p2 e2 ∧ evidence_at (p2 ++ ExecEvidence :: ComposeRecreate :: l2) e3 ∧
    assert_evidence_preserved e1 e2 "after restart" = Ok () ∧
    assert_evidence_preserved e2 e3 "after recreation" = Ok ().

Lemma smoke_body_passed h h' : smoke_body h = (Ok (), h') → smoke_passed h'.
Proof.
  unfold smoke_body. intros H.
  apply sr_bind_ok in H as ([] & h1 & _ & H). do 2 apply sr_bind_ok in H as (? & ? & _ & H).
  apply sr_bind_ok in H as (? & ? & _ & H). apply sr_bind_ok in H as (? & p1 & _ & H).
  apply sr_bind_ok in H as (e1 & h2 & [-> He1]%sqlite_evidence_ok & H).
  apply sr_bind_ok in H as (? & h3 & [-> _]%run_command_ok & H).
  apply sr_bind_ok in H as (? & p2 & (l1 & -> & _)%(runs_ok _ _ _ _ _ runs_contract) & H).
  apply sr_bind_ok in H as (e2 & h4 & [-> He2]%sqlite_evidence_ok & H).
  apply sr_bind_ok in H as ([] & h5 & Hpre & H). injection Hpre as Hpre <-.
  apply sr_bind_ok in H as (? & h6 & [-> _]%run_command_ok & H).
  apply sr_bind_ok in H as (id & p3 & (l2 & -> & _)%(runs_ok _ _ _ _ _ runs_contract) & H).
  apply sr_bind_ok in H as (e3 & h7 & [-> He3]%sqlite_evidence_ok & H).
  apply sr_bind_ok in H as ([] & h8 & Hpre' & H). injection Hpre' as Hpre' <-.
  match type of H with ?m ?h = _ => assert (Hrest : runs_only body_command m) end.
  { unfold clean_exit. repeat first [apply runs_contract|apply runs_wait_for_exit|runs_step]. }
  apply (runs_ok _ _ _ _ _ Hrest) in H as (l3 & -> & _).
  exists p1, l1, ((p1 ++ [ExecEvidence]) ++ [ComposeRestart] ++ l1), l2, l3, e1, e2, e3.
  rewrite <- !app_assoc in *. cbn [app] in *. do 2 (split; [done|]).
  do 3 (split; [done|]). done.
Qed.
(** *** The cleanup *)

Definition restore_permissions : HostCommand := SetDataPermissions (nm_host_uid nm) (nm_host_gid nm) 448 384.
Definition command_failed (failure : string) : res () := runtime_error ("command failed " +:+ failure).

(** What follows [ComposeDown], which is asked for after the commands [h], and what the smoke then comes to
    when its body came to [body].  If the project cannot be taken down, nothing else is cleaned up;
    otherwise, after a build, the owner gets the data back; if that worked, the image is removed,
    whose failure does not count. *)
Inductive cleanup_report (built : bool) (h : list HostCommand) (body : res ()) : list HostCommand → res () → Prop :=
| down_failed failure :
    host_result h ComposeDown = inr failure → cleanup_report built h body [] (command_failed failure)
| nothing_built out :
    host_result h ComposeDown = inl out → built = false → cleanup_report built h body [] body
| restore_failed out failure :
    host_result h ComposeDown = inl out → built = true →
    host_result (h ++ [ComposeDown]) restore_permissions = inr failure →
    cleanup_report built h body [restore_permissions] (command_failed failure)
| cleaned_up out out' :
    host_result h ComposeDown = inl out → built = true →
    host_result (h ++ [ComposeDown]) restore_permissions = inl out' →
    cleanup_report built h body [restore_permissions; RemoveImage] body.

Lemma finally_report (m : HostM ()) built h0 :
  ∃ tail, (try_finally m (smoke_cleanup nm built) h0).2 = (m h0).2 ++ ComposeDown :: tail ∧
    cleanup_report built (m h0).2 (m h0).1 tail (try_finally m (smoke_cleanup nm built) h0).1.
Proof.
  unfold try_finally. destruct (m h0) as [r h]. cbn [fst snd].
  unfold smoke_cleanup, mbind, StRes_bind, run_command. cbv beta.
  destruct (host_result h ComposeDown) as [o1|f1] eqn:H1; cbn [fst snd].
  2:{ exists []. split; [done|]. by apply down_failed. }
  destruct built; cbn [fst snd]; [|exists []; split; [done|by eapply nothing_built]].
  fold restore_permissions. destruct (host_result (h ++ [ComposeDown]) restore_permissions) as [o2|f2] eqn:H2; cbn [fst snd].
  - exists [restore_permissions; RemoveImage]. unfold sr_attempt. cbv beta. cbn [fst snd]. rewrite <- !app_assoc.
    split; [done|]. by eapply cleaned_up.
  - exists [restore_permissions]. rewrite <- app_assoc. split; [done|]. by eapply restore_failed.
Qed.
End commands.

(** ** Properties *)

(** The evidence comparison decides what it is for.  Over the evidence the probe reads of two
    databases it passes exactly when the schema version and the set of streams are the same and
    every stream kept each of its candle rows as it was, its lower bound, and did not lose
    progress; otherwise it raises a RuntimeError. *)
Theorem evidence_preserved_exact (version version' context : string) (a a' : AbsStore) :
  let out := before ← read_evidence (probe_document (probe_evidence version a));
             after ← read_evidence (probe_document (probe_evidence version' a'));
             assert_evidence_preserved before after context in
  (out = Ok () ↔ version' = version ∧ dom (ab_streams a') = dom (ab_streams a) ∧
     ∀ k r r', ab_streams a !! k = Some r → ab_streams a' !! k = Some r' → stream_extends r r') ∧
  (out = Ok () ∨ ∃ message, out = runtime_error message).
Proof.
  intros out. assert (out = assert_evidence_preserved (probe_evidence version a) (probe_evidence version' a') context) as ->
    by (unfold out; by rewrite !read_probe_document by apply probe_streams_NoDup). split; [apply evidence_preserved_ok|apply evidence_preserved_raises].
Qed.

(** C38. The container smoke takes its project down once, whatever happened, and passes for the right reason.
    Unless the first command fails, which ends it, everything it asks for before the cleanup neither
    takes the project down nor removes the image, and then comes the cleanup: the project is taken
    down; if that worked and the image was built, the owner gets the data back; if that worked too,
    the image is removed.  A failure of the first two is what the smoke comes to, and stops the
    cleanup there; otherwise the smoke comes to what its body came to ([cleanup_report]).  A body that
    passes took three times evidence of a database with candles and progress, around a restart and a
    recreation of the container, that each time was kept.  A failed command, output that is not
    JSON, and a document without the values that are read end the body with an error. *)
Theorem container_smoke_cleans_up `{D : Host} (nm : SmokeNames) :
  let p := run_smoke nm [] in
  match host_result [] DockerVersion with
  | inr failure => p = (command_failed failure, [DockerVersion])
  | inl _ =>
      ∃ built body result tail,
        p.2 = DockerVersion :: ComposeBuild :: body ++ ComposeDown :: tail ∧ Forall body_command body ∧
        match host_result [DockerVersion] ComposeBuild with
        | inr failure => built = false ∧ body = [] ∧ result = command_failed failure
        | inl _ => built = true ∧ smoke_body [DockerVersion; ComposeBuild] = (result, DockerVersion :: ComposeBuild :: body)
        end ∧
        cleanup_report nm built (DockerVersion :: ComposeBuild :: body) result tail p.1 ∧
        (result = Ok () → smoke_passed (DockerVersion :: ComposeBuild :: body))
  end.
Proof.
  cbv zeta. unfold run_smoke, mbind, StRes_bind, sr_attempt. cbv beta. rewrite (run_command_run DockerVersion []).
  destruct (host_result [] DockerVersion) as [out|failure]; [|done]. cbn [app].
  rewrite (run_command_run ComposeBuild [DockerVersion]).
  destruct (host_result [DockerVersion] ComposeBuild) as [built|failure] eqn:Hb; cbn [fst snd app].
  - destruct (runs_body [DockerVersion; ComposeBuild]) as (body & Hbody & HF).
    destruct (finally_report nm smoke_body true [DockerVersion; ComposeBuild]) as (tail & Htail & Hreport).
    rewrite Htail. rewrite Hbody in *. exists true, body, (smoke_body [DockerVersion; ComposeBuild]).1, tail.
    rewrite <- app_assoc. split; [done|]. split; [done|].
    assert (Hrun : smoke_body [DockerVersion; ComposeBuild] =
      ((smoke_body [DockerVersion; ComposeBuild]).1, DockerVersion :: ComposeBuild :: body)).
    { etrans; [apply surjective_pairing|]. by rewrite Hbody. }
    split; [by split|]. split; [exact Hreport|]. intros Hok. rewrite Hok in Hrun. by eapply smoke_body_passed.
  - destruct (finally_report nm (sr_lift (command_failed failure)) false [DockerVersion; ComposeBuild]) as (tail & Htail & Hreport).
    unfold command_failed, runtime_error, raise in *. rewrite Htail. exists false, [], (command_failed failure), tail. split; [done|]. split; [constructor|].
    split; [done|]. by split.
Qed.

(** ** Witnesses *)

Definition smoke_names : SmokeNames :=
  mkNames "/repo" "mds-container-smoke-7" "/repo/tmp/compose-smoke.yml" "/repo/tmp/data" 1000 1000
    EmptyString EmptyString EmptyString EmptyString EmptyString.

(** The bar of a stream, and the rows of the container before and after it ran on. *)
Definition smoke_row : CandleRow := mkCandleRow "100" "101" "99" "100.5" "10" "bybit_rest" 5.
Definition smoke_durable (audited : Z) (rows : list (Z * CandleRow)) : DurableStreamEvidence :=
  mkDurable (Some 0) (last rows ≫= λ r, Some r.1) (Some audited) rows.

(** The documents of a docker that answers, by the texts it prints; the evidence grows with each restart. *)
Definition good_documents (s : string) : res json :=
  if bool_decide (s = "image") then
    Ok (JArr [JObj [("Config", JObj [("User", JStr "10001:10001"); ("Cmd", JArr [JStr SERVICE; JStr "serve"]);
      ("Healthcheck", JObj [("Test", JArr (map JStr ["CMD"; "python"; "-c";
         "os.environ.get('MDS_HTTP_PORT', '8080') http://127.0.0.1:{port}/health"]))])])]])
  else if bool_decide (s = "state") then Ok (JObj [("Running", JBool false); ("ExitCode", JInt 0)])
  else if bool_decide (s = "files") then
    Ok (JObj [("directory_mode", JInt 488); ("directory_uid", JInt RUNTIME_UID); ("directory_gid", JInt RUNTIME_GID);
      ("files", JArr (map (λ n, JObj [("name", JStr n); ("uid", JInt RUNTIME_UID); ("gid", JInt RUNTIME_GID);
                                      ("mode", JInt 416); ("writable", JBool true)]) SQLITE_FILES))])
  else if bool_decide (s = "pid1") then
    Ok (JObj [("uid", JStr "10001"); ("gid", JStr "10001");
              ("cmdline", JStr "/usr/local/bin/python /usr/local/bin/market-data-service serve ")])
  else match py_int s with
       | Some n => Ok (probe_document (mkEvidence "3" [("BTCUSDT.P:5m",
           smoke_durable (100 + n)%Z ((0, smoke_row) :: if (n =? 0)%Z then [] else [(300000, smoke_row)]))]))
       | None => raise ExcValueError "Expecting value: line 1 column 1 (char 0)"
       end%string.

Definition good_result (h : list HostCommand) (c : HostCommand) : string :=
  match c with
  | ComposePs => "c0ffee"
  | InspectHealth _ => "healthy"
  | InspectStopTimeout _ => "20"
  | InspectImage => "image"
  | InspectState _ => "state"
  | ExecWritable => "files"
  | ExecPid1 => "pid1"
  | ExecEvidence => text [digit_char (Z.of_nat (length (List.filter (λ c, match c with ExecEvidence => true | _ => false end) h)))]
  | _ => EmptyString
  end%string.

Definition good_host : Host :=
  {| host_result h c := inl (good_result h c); host_polls _ := 3%nat; host_loads := good_documents |}.

(** The same docker with a warning before the evidence of the restarted container. *)
Definition noisy_host : Host := {|
  host_result h c := match c, existsb (λ c, match c with ComposeRestart => true | _ => false end) h with
                     | ExecEvidence, true => inl "WARNING"%string
                     | _, _ => inl (good_result h c)
                     end;
  host_polls _ := 3%nat;
  host_loads := good_documents
|}.

(** The smoke passes on the one, and fails on the other with everything cleaned up. *)
Lemma container_smoke_cleans_up_witness :
  (run_smoke (D:=good_host) smoke_names []).1 = Ok () ∧ length (run_smoke (D:=good_host) smoke_names []).2 = 37%nat ∧
  (∃ body, (run_smoke (D:=good_host) smoke_names []).2 =
     DockerVersion :: ComposeBuild :: body ++ [ComposeDown; restore_permissions smoke_names; RemoveImage] ∧
     smoke_passed (D:=good_host) (DockerVersion :: ComposeBuild :: body)) ∧
  (run_smoke (D:=noisy_host) smoke_names []).1 = raise ExcValueError "Expecting value: line 1 column 1 (char 0)" ∧
  drop 18 (run_smoke (D:=noisy_host) smoke_names []).2 = [ComposeDown; restore_permissions smoke_names; RemoveImage].
Proof.
  split; [vm_compute; reflexivity|]. split; [vm_compute; reflexivity|].
  split; [|split; vm_compute; reflexivity].
  pose proof (container_smoke_cleans_up (D:=good_host) smoke_names) as H.
  change (host_result [] DockerVersion) with (inl EmptyString : string + string) in H.
  destruct H as (built & body & result & tail & Hp & _ & Hb & Hreport & Hpass).
  change (host_result [DockerVersion] ComposeBuild) with (inl EmptyString : string + string) in Hb.
  destruct Hb as [-> Hbody]. exists body. rewrite Hp.
  assert (result = Ok ()) as -> by (rewrite <- (f_equal fst Hbody : _ = result); vm_compute; reflexivity).
  split; [|by apply Hpass]. inversion Hreport; by simplify_eq.
Defined.

(** A restart that brought a bar is accepted, one that lost its bar is not. *)
Lemma evidence_preserved_exact_witness :
  let store rows := mkAbsStore {[ fake_stream := mkStreamRec
    (mkSnapshot fake_stream READY (Some 0) None (Some 0) (Some 9) None None None None 0 9) rows ∅ ∅ ]} ∅ [] in
  let old := probe_evidence "3" (store {[ 0 := smoke_row ]}) in
  let grown := probe_evidence "3" (store {[ 0 := smoke_row; 300000 := smoke_row ]}) in
  assert_evidence_preserved old grown "after restart" = Ok () ∧
  assert_evidence_preserved grown old "after restart" =
    runtime_error "durable candle changed or disappeared for BTCUSDT.P:5m after restart" ∧
  {[ 0 := smoke_row ]} ⊆@{gmap Z CandleRow} {[ 0 := smoke_row; 300000 := smoke_row ]}.
Proof.
  intros store old grown. split; [vm_compute; reflexivity|]. split; [vm_compute; reflexivity|].
  destruct (evidence_preserved_exact "3" "3" "after restart" (store {[ 0 := smoke_row ]})
    (store {[ 0 := smoke_row; 300000 := smoke_row ]})) as [[H _] _].
  destruct (H ltac:(vm_compute; reflexivity)) as (_ & _ & Hex).
  destruct (Hex fake_stream _ _ (lookup_singleton_eq _ _) (lookup_singleton_eq _ _)) as [Hsub _ _ _]. exact Hsub.
Defined.
